(* ===== verification/_CoqProject ===== *)
-Q . S2P
Prelude.v
Rmap.v
Dsort.v
Fragmap.v
UfsAlloc.v
UfsInv.v
UfsOps.v
UfsSample.v
UfsProofs.v
UfsHash.v
UfsExtend.v
Mbuf.v
Socket.v
In.v
Inpcb.v
TcpSeq.v
TcpVar.v
TcpReass.v
TcpOutput.v
TcpOutSeq.v
TcpOutSend.v
TcpInput.v
TcpUser.v
TcpInv.v
TcpSafe.v
TcpWindow.v
TcpAck.v
TcpText.v
TcpCalls.v
TcpReach.v
TcpLive.v
Xdr.v
XdrSpec.v
XdrMem.v
XdrMbuf.v
XdrAgree.v
RpcMsg.v
RpcCall.v
NfsXdr.v
NfsArgs.v
NfsDir.v
SvcDup.v
RpcAuth.v
RpcSvc.v
SvcKudp.v
NfsServer.v
Kmem.v
KmemTree.v
KmemStore.v
KmemOps.v
KmemHeap.v
KmemAlloc.v
KmemPages.v
KmemSpec.v
Callout.v
KernTime.v
Sched.v
SchedQ.v
SchedInv.v
SchedRun.v
SchedSpec.v
Hardclock.v
