(* ===== verification/Prelude.v ===== *)
(** * A model of the 4.3BSD kernel of the Wisconsin source tree

    The tree is the 4.3BSD distribution of the University of Wisconsin with
    Sun's NFS: a VAX kernel under [src/sys] and the user programs beside it.
    The core of the program is the kernel; this library models the parts of it
    that keep data structures consistent and speak its protocols: the memory of
    the network (mbufs and socket buffers), sockets, Internet control blocks,
    TCP, remote procedure calls and the NFS server down to its dispatcher, the
    allocator of the fast file system, the heap, the resource maps, the disk
    queue, the clock with its callouts and timers, and the scheduler.

    ** Conventions

    A routine of the kernel is a function to an [outcome]: [Ok] with what it
    leaves, [Panic] where the code calls [panic], [Fault] where the C text goes
    outside its objects.  Stored integers have the width of their field ([u16],
    [s16], [u32], [s32] at each store); intermediate results do not overflow
    where a [Z] is used without one of these.  Both members of a time are 32 bits,
    and its sums wrap ([KernTime.tv_of]).  A linked list is a [list], and
    the splicing of pointers is the splicing of lists; an mbuf keeps the place
    of its data ([mloc]), since merging depends on it.  Allocation, routing
    tables, the network below IP and the disk are parameters: which allocations
    succeed, what a lookup gives, what a read returns.  Processor
    levels are not modelled: a routine runs to its end, and interrupts come
    between routines; what the clock interrupt does is modelled ([Hardclock]).

    ** The files

    - [Prelude]: outcomes, fields of records, machine integers, C arrays,
      tactics and generic lemmas.
    - [Rmap]: [sys/subr_rmap.c].  The map is the whole array of slots, with its
      delimiter.  Allocation, release and exact requests against the set of
      free units; the interleaved swap map; the detection of double frees.
    - [Dsort]: [ufs/ufs_dsort.c].  The drive's queue is a list of requests.
    - [Fragmap]: [ufs/ufs_subr.c], [ufs_tables.c].  Bit maps of fragments.
    - [UfsAlloc]: [ufs/ufs_alloc.c], every routine of it over the super block
      and the cylinder groups; [UfsInv] its invariant, [UfsOps], [UfsProofs],
      [UfsHash], [UfsExtend] the routines against it, [UfsSample] a small file
      system on which they are run.
    - [Mbuf]: [sys/uipc_mbuf.c] and the buffers of [sys/uipc_socket2.c].
    - [Socket]: the states and the accept queues of [sys/uipc_socket2.c],
      [uipc_socket.c].
    - [In], [Inpcb]: [netinet/in.c], [in_pcb.c].
    - [TcpSeq], [TcpVar]: sequence numbers, the control block, [tcp_subr.c].
    - [TcpReass]: the sequencing queue of [tcp_input.c].
    - [TcpOutput]: [tcp_output.c]; [TcpOutSeq], [TcpOutSend] its theorems.
    - [TcpInput]: [tcp_input] from the control block on; [TcpUser]:
      [tcp_timer.c] and [tcp_usrreq.c].
    - [TcpInv]: the invariant of a connection and the subroutines that keep it;
      [TcpSafe]: the stages of [tcp_input] keep it; [TcpWindow], [TcpAck],
      [TcpText]: what the stages do with the window, an acknowledgement, the text
      of a segment.
    - [TcpCalls]: the user requests and timers keep the invariant; [TcpReach]:
      all steps of a connection as a relation, and what holds of every state that
      can be reached; [TcpLive]: timers that end a connection that waits.
    - [Xdr]: the routines of [rpc/xdr.c], [xdr_array.c], [xdr_reference.c] over a
      class of streams ([XdrOps]); [XdrSpec]: what a stream promises
      ([XdrStream], [XdrCounts]) and the rules for routines ([sends], [takes], [safe]) that
      follow from it; [XdrMem], [XdrMbuf]: the streams of [rpc/xdr_mem.c] and
      [rpc/xdr_mbuf.c], which keep the promises; [XdrAgree]: one against the other.
    - [RpcMsg], [RpcCall]: messages, [rpc/rpc_prot.c], and calls over the wire.
    - [RpcAuth]: credentials, [rpc/auth_kern.c], [authunix_prot.c], [svc_auth.c],
      [svc_auth_unix.c].
    - [RpcSvc]: [rpc/svc.c] over a class of transports ([Transport]); [SvcKudp]:
      the transport of [rpc/svc_kudp.c], [subr_kudp.c]; [SvcDup]: its cache of
      duplicate requests.
    - [NfsXdr], [NfsArgs], [NfsDir]: the data of NFS on the wire,
      [nfs/nfs_xdr.c]; [NfsServer]: [rfs_dispatch] of [nfs/nfs_server.c].
    - [Kmem]: [sys/heap_kmem.c].  The store of headers and the routines that go
      down it by pointers to pointers.  [KmemTree]: the trees that the store holds,
      what cutting, joining and sinking do to their nodes in order; [KmemStore]:
      the loops against the trees; [KmemOps]: contexts, and the operations on the
      whole tree; [KmemHeap], [KmemAlloc]: headers, blocks and bytes; [KmemPages]:
      [getpages] over the resource map of [Rmap] keeps what [PagesOk] promises;
      [KmemSpec]: the theorems, against the blocks that callers have.
    - [Callout]: the callouts of [sys/kern_clock.c] ([timeout], [untimeout],
      [softclock], the part of [hardclock] that counts them down) with times as
      deltas, and the same queue with deadlines.  The functions called are a
      parameter, and may ask for callouts of their own.
    - [KernTime]: [sys/kern_time.c] and [hzto]: the time of day, [adjtime], the
      interval timers of a process, and the real timers of all processes as
      callouts of [Callout].
    - [Hardclock]: the whole of [hardclock] and [gatherstats] for the process
      that runs: its times, virtual timers, limits and priority, the time of day.
    - [Sched]: [sys/kern_synch.c], the run queues and [Swtch] of
      [vax/locore.s], and the parts of [kern_sig.c], [kern_exit.c] and
      [vax/trap.c] that move a process between queues.  The sleep queues are
      pointers in a store of processes.  [SchedQ]: what the routines do to them
      as lists; [SchedInv]: the invariant of all queues and states; [SchedRun]:
      the processor, and each action of a process or an interrupt; [SchedSpec]:
      the machines that such actions lead to, and the theorems.

    A connection ([TcpVar.conn]) is its [tcpcb], [inpcb] and [socket], which the
    code links one to one; the kernel around it is a [world].  [tcp_input],
    [tcp_output], the timers and the user requests are functions from a world
    and a connection to the same, or to the connection closed.

    A call to the server goes through [SvcKudp.svckudp_recv] (mbufs off a socket
    buffer, [RpcMsg.xdr_callmsg]), [RpcAuth._authenticate], [RpcSvc.svc_getreq]
    (the list of services), [NfsServer.rfs_dispatch] (arguments by the table of
    [NfsXdr], credentials, the service routine, which is a parameter) and
    [RpcSvc.svc_sendreply].  An XDR routine is a function from a handle and an
    object to the same and a boolean; its handle is a stream with an operation.
    The heap of RPC is a class ([HeapOk]: a block has the size asked for).

    At each tick [hardclock] counts down the head of the callout queue and raises
    [softclock], which runs what is due: among it [realitexpire], for the timers that
    [setitimer] has set.  The process that runs is charged ([Hardclock]) with the
    priorities of [Sched]; [schedcpu] recomputes those of all processes, once a
    second.  When a process sleeps in the kernel, [Sched.swtch] picks the next; what is
    left of its [sleep] is in [p_kont], and [Sched.resume] goes on with it.

    ** What the theorems show

    - Data structures mean what they should: [rmalloc], [rmfree] and [rmget]
      against the set of free units, [m_copy], [m_adj], [m_pullup], [sbappend],
      [sbdrop] against the bytes of a chain, [alloc], [free], [fragextend] against
      the bit maps and all their counts, [disksort] against a one way scan.
    - Protocol routines keep their promises: [tcp_reass] delivers exactly the
      stream whatever the order and overlap of the segments, [tcp_output] sends
      only pieces of the buffer inside the window and ends, [in_pcbconnect]
      leaves no two blocks with the same addresses.
    - What holds of every state: [TcpReach] takes a step to be a segment, a clock
      tick or a user request that its guard permits, and shows that the invariant
      holds in every state so reached and that no step leaves its objects.  The
      guard leaves out what is not well-formed, but also events that the code takes
      and goes wrong with: a segment to a closed block or before our SYN is out, a
      SYN without ACK in SYN_SENT, an option for segments of no bytes, a listen or
      connect on a block that is not closed; [TcpLive] that waiting ends after so many ticks.
      [SchedSpec] takes a step to be what a process or an interrupt does to the
      queues, and shows that no process is lost in any order of them; [KernTime]
      that a timer that is set has one callout and no more.
    - Time: timers that go off do not drift, whether at each tick ([Hardclock]) or
      after any delay ([realitexpire], while the deadlines fit 32 bits; in the last
      microsecond of these it never ends, [KernTime.realitexpire_last]); corrections
      of the clock end, but for those that the theorem names.
    - Refinement: the stream over mbufs against the one over a buffer, the ring
      and chains of the duplicate cache against a queue, the list of services
      against a map, the heap against a set of disjoint blocks, the queue of deltas
      against a queue of deadlines.
    - Round trips, each for any two kinds of stream: calls, the arguments of every
      NFS procedure, credentials from a client's kernel to a server, and directories
      (where the stream of the server counts its bytes, as a buffer does and a chain of
      one mbuf: [XdrSpec.XdrCounts]).
    - Hostile input: what [xdr_callmsg] and the argument routines accept is of its
      type whatever the bytes are; where that fails ([_svcauth_unix],
      [rfs_dispatch]) the theorem says exactly for which bytes.
    - Errors are found where the code looks for them: double frees panic.
    - The limits of the code are theorems too: see the findings that name one.

    Loops that are not structural have fuel: [TcpOutput.output_fuel] passes are
    more than the allocations that may fail and the segments a 16-bit buffer
    holds, and [TcpOutSend] proves the loop ends before; the loops of [SvcDup] have
    the number of nodes, those of [NfsDir] the size of the buffer, those of [Kmem]
    the number of headers, [svc_getreq] the number of messages it is to take, the loops
    of [Sched] the number of processes (in [wakeup], which starts again after each
    process it wakes, about its square).  The bound on the passes of [realitexpire] is a
    parameter: [KernTime.realitexpire_passes], the intervals up to the time of day, are
    enough.  The others use the length of the array or
    the list they scan, which bounds their steps.  Running out is a [Fault], so
    every theorem that gives an [Ok] says that the loop has ended.

    ** Not modelled

    Device drivers, most assembly and virtual memory need a model of the machine.
    Of the clock, [gettimeofday] (a register of the machine) and the profile of the
    kernel are left out; of the scheduler, swapping and [roundrobin], and the decay
    of [p_cpu], which the code computes in floating point, is a parameter.
    The head of [tcp_input] (checksum, byte order) and [ip_output] are I/O.
    [sonewconn] appears only as the block it makes ([TcpReach.accept_block]);
    [PRU_CONTROL] and [in_pcbnotify] are left out.  Of the server the waiting for
    buffers, the sending itself, [svckudp_create], [nfs_svc] and the service
    routines (vnode operations) are left out, and of a read reply the release of
    the disk buffer it borrows; of RPC the client side that waits for the network
    and the transports for user programs.  The user programs are outside the
    kernel. *)

From Stdlib Require Export ZArith Lia ZifyBool.
From stdpp Require Export base list option strings sorting gmap.
#[global] Set Default Goal Selector "!".
#[export] Set Default Proof Using "Type".
Open Scope Z_scope.

(** ** Outcomes: what a kernel routine can do

    [Ok a] is a normal return.  [Panic msg] is a call of the kernel's
    [panic], which does not return.  [Fault] is an access the C text makes
    outside the object it has a pointer to (past the end of an array, through
    a null pointer): C gives it no meaning, so the model stops there. *)
Inductive outcome (A : Type) : Type :=
| Ok (a : A)
| Panic (msg : string)
| Fault.
Arguments Ok {A} a.
Arguments Panic {A} msg.
Arguments Fault {A}.

Definition obind {A B} (m : outcome A) (k : A -> outcome B) : outcome B :=
  match m with
  | Ok a => k a
  | Panic s => Panic s
  | Fault => Fault
  end.

(** A pointer dereference that may be outside its object. *)
Definition deref {A} (o : option A) : outcome A :=
  match o with Some a => Ok a | None => Fault end.

Declare Scope kern_scope.
Delimit Scope kern_scope with kern.
Notation "'let*' x := m 'in' k" := (obind m (fun x => k))
  (at level 200, x pattern, m at level 100, k at level 200,
   format "'[v' 'let*'  x  :=  m  'in' '/' k ']'") : kern_scope.
Open Scope kern_scope.

Definition is_ok {A} (m : outcome A) : bool :=
  match m with Ok _ => true | _ => false end.

Lemma obind_ok {A B} (m : outcome A) (k : A -> outcome B) b :
  obind m k = Ok b -> exists a, m = Ok a /\ k a = Ok b.
Proof. destruct m; naive_solver. Qed.

(** ** Assignments to a field of a record

    [s <| f := v |>] is [s] after [s->f = v].  A record type is declared
    [Settable] by its expansion into its fields. *)
Class Settable (R : Type) := expand : R -> R.
Definition Setter {R E : Type} (f : R -> E) : Type := E -> R -> R.
Existing Class Setter.
Definition set_field {R E : Type} (f : R -> E) {st : Setter f} (v : E) (r : R) : R := st v r.

Ltac make_setter f :=
  lazymatch type of f with
  | ?R -> ?E =>
      let i := constr:(_ : Settable R) in
      let e := eval hnf in i in
      exact (fun (v : E) (r : R) => ltac:(
        let b := eval cbv beta in (e r) in
        lazymatch b with
        | context K [f r] => let b' := context K [v] in exact b'
        end))
  end.
#[export] Hint Extern 1 (Setter ?f) => make_setter f : typeclass_instances.

Notation "r <| f := v |>" := (set_field f v r)
  (at level 1, left associativity, f at level 0, v at level 99,
   format "r  <| f  :=  v |>") : kern_scope.

(** ** Machine integers of the VAX: 8, 16 and 32 bits, two's complement *)
Definition u8 (x : Z) : Z := x mod 2 ^ 8.
Definition u16 (x : Z) : Z := x mod 2 ^ 16.
Definition u32 (x : Z) : Z := x mod 2 ^ 32.
Definition s8 (x : Z) : Z := (x + 2 ^ 7) mod 2 ^ 8 - 2 ^ 7.
Definition s16 (x : Z) : Z := (x + 2 ^ 15) mod 2 ^ 16 - 2 ^ 15.
Definition s32 (x : Z) : Z := (x + 2 ^ 31) mod 2 ^ 32 - 2 ^ 31.

Lemma u32_small x : 0 <= x < 2 ^ 32 -> u32 x = x.
Proof. apply Z.mod_small. Qed.

Lemma u32_range x : 0 <= u32 x < 2 ^ 32.
Proof. apply Z.mod_pos_bound. lia. Qed.

Lemma s32_small x : - 2 ^ 31 <= x < 2 ^ 31 -> s32 x = x.
Proof. intros. unfold s32. rewrite Z.mod_small; lia. Qed.

Lemma s32_range x : - 2 ^ 31 <= s32 x < 2 ^ 31.
Proof. unfold s32. pose proof (Z.mod_pos_bound (x + 2 ^ 31) (2 ^ 32)). lia. Qed.

Lemma s16_small x : - 2 ^ 15 <= x < 2 ^ 15 -> s16 x = x.
Proof. intros. unfold s16. rewrite Z.mod_small; lia. Qed.

Lemma u32_s32 x : u32 (s32 x) = u32 x.
Proof. unfold u32, s32. rewrite Zminus_mod, Zmod_mod, <- Zminus_mod. f_equal. lia. Qed.

Lemma s32_u32 x : s32 (u32 x) = s32 x.
Proof. unfold u32, s32. by rewrite Zplus_mod_idemp_l. Qed.

(** ** Lists *)

Lemma exists_last_or_nil {A} (l : list A) : l = [] \/ exists l' x, l = l' ++ [x].
Proof. destruct l as [|y l]; [by left|right]. destruct (@exists_last _ (y :: l)) as (l' & x & ->); eauto. Qed.

(** C truth values. *)
Definition nz (x : Z) : bool := negb (x =? 0).
Definition cbool (b : bool) : Z := if b then 1 else 0.

(** ** Automation shared by the components *)

(** Break the boolean tests of a goal or a hypothesis into cases that [lia]
    understands. *)
Ltac bdestruct_step :=
  match goal with
  | |- context [if (?b : bool) then _ else _] => let E := fresh "E" in destruct b eqn:E
  | H : context [if (?b : bool) then _ else _] |- _ => let E := fresh "E" in destruct b eqn:E
  end.

Ltac bsimp :=
  repeat match goal with
  | H : (_ && _)%bool = true |- _ => apply andb_true_iff in H as [? ?]
  | H : (_ || _)%bool = false |- _ => apply orb_false_iff in H as [? ?]
  | H : negb _ = true |- _ => apply negb_true_iff in H
  | H : negb _ = false |- _ => apply negb_false_iff in H
  | H : (_ =? _) = true |- _ => apply Z.eqb_eq in H
  | H : (_ =? _) = false |- _ => apply Z.eqb_neq in H
  | H : (_ <=? _) = true |- _ => apply Z.leb_le in H
  | H : (_ <=? _) = false |- _ => apply Z.leb_gt in H
  | H : (_ <? _) = true |- _ => apply Z.ltb_lt in H
  | H : (_ <? _) = false |- _ => apply Z.ltb_ge in H
  | H : nz _ = true |- _ => unfold nz in H
  | H : nz _ = false |- _ => unfold nz in H
  end.

(** Close a goal whose only content is arithmetic on the tests taken. *)
Ltac blia := bsimp; try lia; try congruence.

Ltac inv_ok :=
  repeat match goal with
  | H : Ok _ = Ok _ |- _ => injection H as H; subst
  | H : Panic _ = Ok _ |- _ => discriminate H
  | H : Fault = Ok _ |- _ => discriminate H
  | H : obind _ _ = Ok _ |- _ =>
      let a := fresh "r" in let E := fresh "E" in
      apply obind_ok in H as (a & E & H)
  end.

(** Prove a decidable proposition by evaluating its decision procedure. *)
Ltac by_compute := apply (bool_decide_unpack _); vm_compute; exact I.

(** ** Arrays indexed by a C integer *)

Definition aget {A} (l : list A) (i : Z) : outcome A :=
  if i <? 0 then Fault else deref (l !! Z.to_nat i).

Definition aset {A} (l : list A) (i : Z) (x : A) : outcome (list A) :=
  if (i <? 0) || (Z.of_nat (length l) <=? i) then Fault
  else Ok (<[Z.to_nat i := x]> l).

(** [a[i] = f(a[i])]. *)
Definition aupd {A} (l : list A) (i : Z) (f : A -> A) : outcome (list A) :=
  let* x := aget l i in aset l i (f x).

Lemma aget_ok {A} (l : list A) i x :
  0 <= i -> l !! Z.to_nat i = Some x -> aget l i = Ok x.
Proof. intros Hi Hl. unfold aget. destruct (Z.ltb_spec i 0); [lia|]. by rewrite Hl. Qed.

Lemma aget_inv {A} (l : list A) i x :
  aget l i = Ok x -> 0 <= i /\ l !! Z.to_nat i = Some x.
Proof.
  unfold aget. destruct (Z.ltb_spec i 0); [done|]. destruct (l !! _) eqn:E; [|done].
  by intros [= ->].
Qed.

Lemma aset_ok {A} (l : list A) i x :
  0 <= i < Z.of_nat (length l) -> aset l i x = Ok (<[Z.to_nat i := x]> l).
Proof.
  intros. unfold aset. destruct (Z.ltb_spec i 0), (Z.leb_spec (Z.of_nat (length l)) i); try lia. done.
Qed.

Lemma aupd_ok {A} (l : list A) i x f :
  0 <= i -> l !! Z.to_nat i = Some x -> aupd l i f = Ok (<[Z.to_nat i := f x]> l).
Proof.
  intros Hi Hl. unfold aupd. rewrite (aget_ok l i x) by done. cbn [obind].
  apply aset_ok. apply lookup_lt_Some in Hl. lia.
Qed.

Lemma aget_range {A} (l : list A) i : 0 <= i < Z.of_nat (length l) -> exists x, aget l i = Ok x.
Proof.
  intros. destruct (lookup_lt_is_Some_2 l (Z.to_nat i)) as [x Hx]; [lia|].
  exists x. by apply aget_ok; [lia|].
Qed.

(** C's [howmany] and [roundup] of [sys/h/param.h]. *)
Definition howmany (x y : Z) : Z := Z.quot (x + (y - 1)) y.
Definition roundup (x y : Z) : Z := Z.quot (x + (y - 1)) y * y.

(** ** Finite checks: a property of all integers of a range, by evaluation *)

Definition zrange (lo n : Z) : list Z := (fun k => lo + Z.of_nat k) <$> seq 0 (Z.to_nat n).

Lemma elem_of_zrange lo n x : x ∈ zrange lo n <-> lo <= x < lo + n.
Proof.
  unfold zrange. rewrite list_elem_of_fmap. split.
  - intros (k & -> & Hk%elem_of_seq). lia.
  - intros Hx. exists (Z.to_nat (x - lo)). rewrite elem_of_seq. lia.
Qed.

Definition forall_range (lo n : Z) (p : Z -> bool) : bool := forallb p (zrange lo n).

Lemma forall_range_elim lo n p x :
  forall_range lo n p = true -> lo <= x < lo + n -> p x = true.
Proof.
  unfold forall_range. rewrite forallb_forall. intros H Hx. apply H.
  by apply list_elem_of_In, elem_of_zrange.
Qed.
