(* ===== verification/Rmap.v ===== *)
(** * Resource maps: [sys/sys/subr_rmap.c], [sys/h/map.h]

    A resource map is an array of slots [mp+1 .. m_limit-1]; the segments of
    free space come first, in address order, and a slot of size 0 ends them.
    The model keeps the whole array, the delimiter and the unused slots
    included, and a pointer [bp] that walks up it is a split of the array into
    the slots before [bp] and those from [bp] on.  Running past [m_limit] is a
    [Fault].  Sizes and addresses are sums of addresses of one resource; they
    are integers without wrap-around here: every sum the routines form is the
    end of a segment or of the caller's region, so it stays below [2^31]
    whenever the end of the resource does. *)
From S2P Require Import Prelude.

(** ** Data *)

Record mapent := Mapent { m_size : Z; m_addr : Z }.

(** [mp == swapmap] and [mp == kernelmap] are the two identities the code
    tests. *)
Inductive mapid := swapmap | kernelmap | othermap.

Definition is_swapmap (i : mapid) : bool := match i with swapmap => true | _ => false end.
Definition is_kernelmap (i : mapid) : bool := match i with kernelmap => true | _ => false end.

(** [m_slots] is the array from [mp+1] up to (not including) [m_limit]. *)
Record map := Map { m_id : mapid; m_name : string; m_slots : list mapent }.

(** What the routines print or signal. *)
Inductive rmevent :=
| RmapOvflo (name : string) (lo hi : Z)  (* "%s: rmap ovflo, lost [%d,%d)" *)
| WakeupKernelmap.

(** The map operated on, the global [kmapwnt], and the events so far. *)
Record rmst := Rmst { rm_map : map; kmapwnt : Z; rm_log : list rmevent }.

Definition rm_slots (st : rmst) : list mapent := m_slots (rm_map st).

Definition set_slots (st : rmst) (l : list mapent) : rmst :=
  Rmst (Map (m_id (rm_map st)) (m_name (rm_map st)) l) (kmapwnt st) (rm_log st).

Definition log_event (st : rmst) (e : rmevent) : rmst :=
  Rmst (rm_map st) (kmapwnt st) (rm_log st ++ [e]).

(** The configured swap interleaving. *)
Record swapcfg := Swapcfg { nswdev : Z; dmmax : Z }.

Definition CLSIZE : Z := 2.

(** ** [rminit]

    The map header takes one of the [mapsize] slots; the array itself is the
    (zeroed) memory the caller gives. *)
Definition rminit (mem : list mapent) (i : mapid) (size addr : Z) (name : string)
    (mapsize : nat) : outcome map :=
  match take (mapsize - 1) mem with
  | [] => Fault
  | _ :: rest => Ok (Map i name (Mapent size addr :: rest))
  end.

(** ** [rmfree] *)

(** [for (; bp->m_addr <= addr && bp->m_size != 0; bp++) continue;] *)
Fixpoint rmfree_locate (addr : Z) (pre suf : list mapent)
    : outcome (list mapent * list mapent) :=
  match suf with
  | [] => Fault
  | bp :: rest =>
      if (m_addr bp <=? addr) && nz (m_size bp)
      then rmfree_locate addr (pre ++ [bp]) rest
      else Ok (pre, suf)
  end.

(** [while (bp->m_size) { bp++; (bp-1)->m_addr = bp->m_addr;
    (bp-1)->m_size = bp->m_size; }] *)
Fixpoint shift_while (suf : list mapent) : outcome (list mapent) :=
  match suf with
  | [] => Fault
  | bp :: rest =>
      if m_size bp =? 0 then Ok suf
      else match rest with
           | [] => Fault
           | nxt :: _ => let* l := shift_while rest in Ok (nxt :: l)
           end
  end.

(** The [do ... while (size = t)] that pushes a new entry in at [bp]; also
    returns how far [bp] moved. *)
Fixpoint rmfree_insert (size addr : Z) (suf : list mapent)
    : outcome (list mapent * nat) :=
  match suf with
  | [] => Fault
  | bp :: rest =>
      if m_size bp =? 0 then Ok (Mapent size addr :: rest, 1%nat)
      else let* r := rmfree_insert (m_size bp) (m_addr bp) rest in
           Ok (Mapent size addr :: r.1, S r.2)
  end.

(** [if (bp+1 > mp->m_limit)]: no slot is left for the delimiter at [bp]. *)
Definition rmfree_ovflo (st : rmst) (slots : list mapent) (bp : nat) : outcome rmst :=
  if decide (length slots < bp + 1)%nat then
    let bp := (bp - 1)%nat in
    match bp with
    | O => Fault
    | S bp1 =>
        let* lost := deref (slots !! bp1) in
        let* lst := deref (slots !! bp) in
        Ok (log_event
              (set_slots st (<[bp := Mapent 0 0]> (<[bp1 := lst]> slots)))
              (RmapOvflo (m_name (rm_map st)) (m_addr lost) (m_addr lost + m_size lost)))
    end
  else Ok (set_slots st slots).

(** The [done:] label. *)
Definition rmfree_done (st : rmst) : rmst :=
  if is_kernelmap (m_id (rm_map st)) && nz (kmapwnt st)
  then log_event (Rmst (rm_map st) 0 (rm_log st)) WakeupKernelmap
  else st.

Definition badrmfree {A} : outcome A := Panic "bad rmfree".

(** No piece abuts on the left: abut on the right, or make a new entry. *)
Definition rmfree_right (st : rmst) (size addr : Z) (pre suf : list mapent)
    (bp : mapent) : outcome rmst :=
  if (m_addr bp <=? addr + size) && nz (m_size bp) then
    if m_addr bp <? addr + size then badrmfree else
    Ok (rmfree_done (set_slots st
          (pre ++ Mapent (m_size bp + size) (m_addr bp - size) :: tail suf)))
  else
    let* r := rmfree_insert size addr suf in
    let* st' := rmfree_ovflo st (pre ++ r.1) (length pre + r.2) in
    Ok (rmfree_done st').

Definition rmfree (st : rmst) (size addr : Z) : outcome rmst :=
  if (addr <=? 0) || (size <=? 0) then badrmfree else
  let* loc := rmfree_locate addr [] (rm_slots st) in
  let '(pre, suf) := loc in
  let* bp := deref (head suf) in
  match last pre with
  | Some l =>
      if addr <=? m_addr l + m_size l then
        (* the piece on the left abuts us *)
        if addr <? m_addr l + m_size l then badrmfree else
        let pre' := removelast pre in
        if nz (m_addr bp) && (m_addr bp <=? addr + size) then
          if m_addr bp <? addr + size then badrmfree else
          let* suf' := shift_while suf in
          Ok (rmfree_done (set_slots st
                (pre' ++ Mapent (m_size l + size + m_size bp) (m_addr l) :: suf')))
        else
          Ok (rmfree_done (set_slots st (pre' ++ Mapent (m_size l + size) (m_addr l) :: suf)))
      else rmfree_right st size addr pre suf bp
  | None => rmfree_right st size addr pre suf bp
  end.

(** ** [rmalloc] *)

(** [do { bp++; (bp-1)->m_addr = bp->m_addr; }
    while ((bp-1)->m_size = bp->m_size);] *)
Fixpoint shift_do (suf : list mapent) : outcome (list mapent) :=
  match suf with
  | _ :: ((nxt :: _) as rest) =>
      if m_size nxt =? 0 then Ok (nxt :: rest)
      else let* l := shift_do rest in Ok (nxt :: l)
  | _ => Fault
  end.

Section Rmalloc.
Context (cfg : swapcfg).

(** Take [size] units off the front of the entry [bp] (from "Allocate from
    the map"). *)
Definition rmalloc_take (st : rmst) (size : Z) (pre : list mapent) (bp : mapent)
    (rest : list mapent) : outcome (rmst * Z) :=
  let addr := m_addr bp in
  let bp' := Mapent (m_size bp - size) (m_addr bp + size) in
  let* suf := if m_size bp' =? 0 then shift_do (bp' :: rest) else Ok (bp' :: rest) in
  if is_swapmap (m_id (rm_map st)) && nz (Z.rem addr CLSIZE)
  then Panic "rmalloc swapmap"
  else Ok (set_slots st (pre ++ suf), addr).

(** The first-fit search from [bp] on. *)
Fixpoint rmalloc_search (st : rmst) (size : Z) (pre suf : list mapent)
    : outcome (rmst * Z) :=
  match suf with
  | [] => Fault
  | bp :: rest =>
      if m_size bp =? 0 then Ok (st, 0)
      else if size <=? m_size bp then
        let first := dmmax cfg - Z.rem (m_addr bp) (dmmax cfg) in
        if is_swapmap (m_id (rm_map st)) && (1 <? nswdev cfg) && (first <? m_size bp) then
          (* respect the interleaving boundary *)
          if m_size bp - first <? size then rmalloc_search st size (pre ++ [bp]) rest
          else
            let addr := m_addr bp + first in
            let rst := m_size bp - first - size in
            let st' := set_slots st (pre ++ Mapent first (m_addr bp) :: rest) in
            if nz rst
            then let* st'' := rmfree st' rst (addr + size) in Ok (st'', addr)
            else Ok (st', addr)
        else rmalloc_take st size pre bp rest
      else rmalloc_search st size (pre ++ [bp]) rest
  end.

Definition rmalloc (st : rmst) (size : Z) : outcome (rmst * Z) :=
  if (size <=? 0) || (is_swapmap (m_id (rm_map st)) && (dmmax cfg <? size))
  then Panic "rmalloc"
  else rmalloc_search st size [] (rm_slots st).
End Rmalloc.

(** ** [rmget] *)

(** [for (bp = ep; bp->m_size; bp++) if (...) break;]: [None] when the
    delimiter was reached. *)
Fixpoint rmget_find (addr : Z) (pre suf : list mapent)
    : outcome (option (list mapent * mapent * list mapent)) :=
  match suf with
  | [] => Fault
  | bp :: rest =>
      if m_size bp =? 0 then Ok None
      else if (m_addr bp <=? addr) && (addr <? m_addr bp + m_size bp)
      then Ok (Some (pre, bp, rest))
      else rmget_find addr (pre ++ [bp]) rest
  end.

(** [for (bp2=bp; bp2->m_size; bp2++) ;] as the distance [bp2 - bp]. *)
Fixpoint delim_dist (suf : list mapent) : outcome nat :=
  match suf with
  | [] => Fault
  | e :: rest =>
      if m_size e =? 0 then Ok 0%nat
      else let* n := delim_dist rest in Ok (S n)
  end.

(** [while (bp2 > bp) { (bp2+1)->... = bp2->...; bp2--; }]: move the [n] slots
    that follow [bp] up by one. *)
Fixpoint shift_up (n : nat) (rest : list mapent) : outcome (list mapent) :=
  match n with
  | O => Ok rest
  | S n' =>
      (* bp2 = bp + n: slot n-1 of [rest] is copied to slot n *)
      let* e := deref (rest !! n') in
      if decide (n < length rest)%nat
      then shift_up n' (<[n := e]> rest) else Fault
  end.

Definition rmget (st : rmst) (size addr : Z) : outcome (rmst * Z) :=
  if size <=? 0 then Panic "rmget" else
  if is_swapmap (m_id (rm_map st)) then Ok (st, 0) else
  let* f := rmget_find addr [] (rm_slots st) in
  match f with
  | None => Ok (st, 0)
  | Some (pre, bp, rest) =>
      let done l := Ok (set_slots st (pre ++ l), addr) in
      if m_addr bp + m_size bp <? addr + size then Ok (st, 0) else
      if m_addr bp =? addr then
        if m_addr bp + m_size bp =? addr + size then
          let* l := shift_while (bp :: rest) in done l
        else done (Mapent (m_size bp - size) (m_addr bp + size) :: rest)
      else
        if m_addr bp + m_size bp =? addr + size then
          done (Mapent (m_size bp - size) (m_addr bp) :: rest)
        else
          let* d := delim_dist (bp :: rest) in
          if decide (length (m_slots (rm_map st)) <= length pre + d + 1)%nat
          then Ok (st, 0)
          else
            let* rest' := shift_up d rest in
            match rest' with
            | [] => Fault
            | _ :: tl =>
                done (Mapent (addr - m_addr bp) (m_addr bp)
                      :: Mapent (m_addr bp + m_size bp - (addr + size)) (addr + size)
                      :: tl)
            end
  end.

(** ** The abstraction: free space as a set of addresses *)

(** Segments in address order above [lo], none of them abutting. *)
Fixpoint segs_ok (lo : Z) (l : list mapent) : Prop :=
  match l with
  | [] => True
  | s :: r => lo < m_addr s /\ 0 < m_size s /\ segs_ok (m_addr s + m_size s) r
  end.

(** Where the last segment of [l] ends, [lo] when there is none. *)
Fixpoint segs_end (lo : Z) (l : list mapent) : Z :=
  match l with
  | [] => lo
  | s :: r => segs_end (m_addr s + m_size s) r
  end.

Definition in_seg (s : mapent) (x : Z) : Prop := m_addr s <= x < m_addr s + m_size s.

Definition in_free (l : list mapent) (x : Z) : Prop := Exists (fun s => in_seg s x) l.

Definition delim : mapent := Mapent 0 0.

(** A well-formed array: [segs], then at least one zero slot. *)
Definition rm_wf (segs : list mapent) (k : nat) (slots : list mapent) : Prop :=
  slots = segs ++ delim :: replicate k delim /\ segs_ok 0 segs.

Definition rm_inv (slots : list mapent) : Prop :=
  (2 <= length slots)%nat /\ exists segs k, rm_wf segs k slots.

(** The free addresses of an array: those of the entries before the delimiter. *)
Fixpoint seg_prefix (slots : list mapent) : list mapent :=
  match slots with
  | [] => []
  | e :: r => if m_size e =? 0 then [] else e :: seg_prefix r
  end.

Definition free_at (slots : list mapent) (x : Z) : Prop := in_free (seg_prefix slots) x.

(** *** Lemmas on segments *)

Lemma segs_ok_app lo l1 l2 :
  segs_ok lo (l1 ++ l2) <-> segs_ok lo l1 /\ segs_ok (segs_end lo l1) l2.
Proof. revert lo. induction l1 as [|s l1 IH]; intros lo; simpl; [tauto|]. rewrite IH. tauto. Qed.

Lemma segs_end_app lo l1 l2 : segs_end lo (l1 ++ l2) = segs_end (segs_end lo l1) l2.
Proof. revert lo. induction l1; simpl; auto. Qed.

Lemma segs_ok_weaken lo lo' l : segs_ok lo l -> lo' <= lo -> segs_ok lo' l.
Proof. destruct l; simpl; intuition lia. Qed.

Lemma segs_end_ge lo l : segs_ok lo l -> lo <= segs_end lo l.
Proof.
  revert lo. induction l as [|s l IH]; simpl; intros lo; [lia|].
  intros (? & ? & H). apply IH in H. lia.
Qed.

Lemma in_free_app l1 l2 x : in_free (l1 ++ l2) x <-> in_free l1 x \/ in_free l2 x.
Proof. apply Exists_app. Qed.

Lemma in_free_cons s l x : in_free (s :: l) x <-> in_seg s x \/ in_free l x.
Proof. apply Exists_cons. Qed.

Lemma in_free_nil x : in_free [] x <-> False.
Proof. apply Exists_nil. Qed.

Lemma in_free_above lo l x : segs_ok lo l -> in_free l x -> lo < x.
Proof.
  revert lo. induction l as [|s l IH]; simpl; intros lo Hs Hx.
  - by apply in_free_nil in Hx.
  - destruct Hs as (? & ? & Hs). apply in_free_cons in Hx as [[??]|Hx]; [lia|].
    specialize (IH _ Hs Hx). lia.
Qed.

Lemma in_free_below lo l x : segs_ok lo l -> in_free l x -> x < segs_end lo l.
Proof.
  revert lo. induction l as [|s l IH]; simpl; intros lo Hs Hx.
  - by apply in_free_nil in Hx.
  - destruct Hs as (? & ? & Hs). apply in_free_cons in Hx as [[??]|Hx]; [|by eapply IH].
    apply segs_end_ge in Hs. lia.
Qed.

Lemma seg_prefix_wf lo segs l :
  segs_ok lo segs -> seg_prefix (segs ++ delim :: l) = segs.
Proof.
  revert lo. induction segs as [|s segs IH]; simpl; intros lo Hs; [done|].
  destruct Hs as (? & ? & Hs).
  destruct (Z.eqb_spec (m_size s) 0); [lia|]. f_equal. by eapply IH.
Qed.

Lemma free_at_wf segs k slots x : rm_wf segs k slots -> free_at slots x <-> in_free segs x.
Proof. intros [-> H]. unfold free_at. simpl. by erewrite seg_prefix_wf. Qed.

Create Rewrite HintDb rmap.
#[export] Hint Rewrite in_free_app in_free_cons in_free_nil : rmap.

(** *** The loops, on a well-formed array *)

Lemma shift_while_wf lo s R k :
  segs_ok lo (s :: R) ->
  shift_while (s :: R ++ delim :: replicate k delim)
  = Ok (R ++ delim :: delim :: replicate k delim).
Proof.
  revert lo s. induction R as [|r R IH]; intros lo s Hs.
  - simpl. destruct Hs as (_ & ? & _). destruct (Z.eqb_spec (m_size s) 0); [lia|done].
  - simpl in Hs. destruct Hs as (Hlo & Hsz & Hr).
    specialize (IH _ _ Hr). cbn [app] in *. cbn [shift_while].
    destruct (Z.eqb_spec (m_size s) 0); [lia|].
    cbn [shift_while] in IH. by rewrite IH.
Qed.

Lemma shift_do_wf lo s0 R k :
  segs_ok lo R ->
  shift_do (s0 :: R ++ delim :: replicate k delim)
  = Ok (R ++ delim :: delim :: replicate k delim).
Proof.
  revert lo s0. induction R as [|r R IH]; intros lo s Hs; [done|].
  simpl in Hs. destruct Hs as (Hlo & Hsz & Hr).
  specialize (IH _ r Hr). cbn [app] in *. cbn [shift_do].
  destruct (Z.eqb_spec (m_size r) 0); [lia|].
  cbn [shift_do] in IH. by rewrite IH.
Qed.

Lemma rmfree_insert_wf lo size addr R k :
  segs_ok lo R ->
  rmfree_insert size addr (R ++ delim :: replicate k delim)
  = Ok (Mapent size addr :: R ++ replicate k delim, S (length R)).
Proof.
  revert lo size addr. induction R as [|r R IH]; intros lo size addr Hs; [done|].
  simpl in Hs. destruct Hs as (Hlo & Hsz & Hr).
  cbn [app rmfree_insert]. destruct (Z.eqb_spec (m_size r) 0); [lia|].
  rewrite (IH _ _ _ Hr). simpl. by destruct r.
Qed.

(** [rmfree_locate] cuts the segments in two around [addr]. *)
Lemma rmfree_locate_wf lo addr pre segs k :
  segs_ok lo segs -> 0 < addr ->
  exists L R, segs = L ++ R /\
    rmfree_locate addr pre (segs ++ delim :: replicate k delim)
      = Ok (pre ++ L, R ++ delim :: replicate k delim) /\
    Forall (fun s => m_addr s <= addr) L /\
    match R with [] => True | r :: _ => addr < m_addr r end.
Proof.
  revert lo pre. induction segs as [|s segs IH]; intros lo pre Hs Ha.
  - exists [], []. simpl.
    rewrite andb_false_r, app_nil_r. repeat split; constructor.
  - simpl in Hs. destruct Hs as (Hlo & Hsz & Hs).
    cbn [app rmfree_locate]. destruct (Z.leb_spec (m_addr s) addr) as [Hle|Hgt]; simpl.
    + unfold nz. destruct (Z.eqb_spec (m_size s) 0); [lia|]. simpl.
      destruct (IH _ (pre ++ [s]) Hs Ha) as (L & R & -> & -> & HL & HR).
      exists (s :: L), R. rewrite <- app_assoc. simpl. auto.
    + exists [], (s :: segs). rewrite app_nil_r. auto.
Qed.

(** *** [rmfree] on a well-formed array *)

(** [merged L size addr R M]: putting the region between the segments [L] below
    it and [R] above it, with the abutting ones combined, gives [M]. *)
Inductive merged : list mapent -> Z -> Z -> list mapent -> list mapent -> Prop :=
| Merged_both L l r R size addr :
    m_addr l + m_size l = addr -> addr + size = m_addr r ->
    merged (L ++ [l]) size addr (r :: R)
      (L ++ Mapent (m_size l + size + m_size r) (m_addr l) :: R)
| Merged_left L l R size addr :
    m_addr l + m_size l = addr ->
    match R with [] => True | r :: _ => addr + size < m_addr r end ->
    merged (L ++ [l]) size addr R (L ++ Mapent (m_size l + size) (m_addr l) :: R)
| Merged_right L r R size addr :
    segs_end 0 L < addr -> addr + size = m_addr r ->
    merged L size addr (r :: R) (L ++ Mapent (m_size r + size) (m_addr r - size) :: R)
| Merged_new L R size addr :
    segs_end 0 L < addr ->
    match R with [] => True | r :: _ => addr + size < m_addr r end ->
    merged L size addr R (L ++ Mapent size addr :: R).

Lemma merged_ok L size addr R M :
  merged L size addr R M -> segs_ok 0 (L ++ R) -> 0 < size -> segs_ok 0 M.
Proof.
  intros Hm Hs Hz. destruct Hm; rewrite ?segs_ok_app, ?segs_end_app in *;
    destruct R as [|r' R]; simpl in *; intuition (try lia);
    (eapply segs_ok_weaken; [eassumption|lia]).
Qed.

Lemma merged_free L size addr R M :
  merged L size addr R M -> segs_ok 0 (L ++ R) -> 0 < size ->
  forall x, in_free M x <-> in_free (L ++ R) x \/ addr <= x < addr + size.
Proof.
  intros Hm Hs Hz x. destruct Hm; rewrite ?segs_ok_app, ?segs_end_app in Hs; simpl in Hs;
    autorewrite with rmap; unfold in_seg; simpl; intuition lia.
Qed.

Lemma merged_length L size addr R M :
  merged L size addr R M ->
  (length M <= S (length L + length R) /\ length (L ++ R) <= S (length M))%nat.
Proof. destruct 1; rewrite !length_app; simpl; rewrite ?length_app; simpl; lia. Qed.

(** How the array looks once [M] has been stored in it: with a delimiter if a
    slot is left for one, else with the last entry but one given up. *)
Definition stored (st : rmst) (M : list mapent) (res : outcome rmst) : Prop :=
  (exists k, length (rm_slots st) = (length M + S k)%nat /\
     res = Ok (rmfree_done (set_slots st (M ++ delim :: replicate k delim))))
  \/
  (exists M0 lost lst, M = M0 ++ [lost; lst] /\ length M = length (rm_slots st) /\
     res = Ok (rmfree_done
       (log_event (set_slots st (M0 ++ [lst; delim]))
          (RmapOvflo (m_name (rm_map st)) (m_addr lost) (m_addr lost + m_size lost))))).

Lemma list_last_two {A} (l : list A) :
  (2 <= length l)%nat -> exists l0 a b, l = l0 ++ [a; b].
Proof.
  intros Hl. destruct (exists_last (l := l)) as (l1 & b & ->); [intros ->; simpl in Hl; lia|].
  rewrite length_app in Hl. simpl in Hl.
  destruct (exists_last (l := l1)) as (l0 & a & ->); [intros ->; simpl in Hl; lia|].
  exists l0, a, b. by rewrite <- app_assoc.
Qed.

Lemma rmfree_ovflo_stored st M k :
  (2 <= length (rm_slots st))%nat ->
  length (rm_slots st) = (length M + k)%nat ->
  stored st M (let* st' := rmfree_ovflo st (M ++ replicate k delim) (length M) in
               Ok (rmfree_done st')).
Proof.
  intros H2 Hlen. unfold rmfree_ovflo. rewrite length_app, length_replicate.
  destruct k as [|k].
  - right. rewrite app_nil_r, Nat.add_0_r in *. rewrite decide_True by lia.
    destruct (list_last_two M) as (M0 & lost & lst & ->); [lia|].
    exists M0, lost, lst. rewrite length_app in *. simpl length.
    replace (length M0 + 2 - 1)%nat with (S (length M0)) by lia.
    rewrite list_lookup_middle by done. simpl.
    rewrite lookup_app_r, (Nat.sub_succ_l _ _ (Nat.le_refl _)), Nat.sub_diag by lia. simpl.
    rewrite insert_app_r_alt, Nat.sub_diag by lia. simpl.
    rewrite insert_app_r_alt, (Nat.sub_succ_l _ _ (Nat.le_refl _)), Nat.sub_diag by lia.
    repeat split. simpl in Hlen. lia.
  - left. rewrite decide_False by lia. by exists k.
Qed.

Lemma removelast_snoc {A} (l : list A) x : removelast (l ++ [x]) = l.
Proof. apply removelast_last. Qed.

(** Not abutting on the left. *)
Lemma rmfree_right_wf st size addr L R k :
  (2 <= length (rm_slots st))%nat ->
  rm_slots st = L ++ R ++ delim :: replicate k delim ->
  segs_ok 0 (L ++ R) -> 0 < size -> 0 < addr -> segs_end 0 L < addr ->
  match R with [] => True | r :: _ => addr + size <= m_addr r end ->
  exists M bp, head (R ++ delim :: replicate k delim) = Some bp /\ merged L size addr R M /\
    stored st M (rmfree_right st size addr L (R ++ delim :: replicate k delim) bp).
Proof.
  intros H2 Hsl Hok Hsz Ha HL HR. apply segs_ok_app in Hok as [HokL HokR].
  pose proof (f_equal length Hsl) as Hn. rewrite !length_app in Hn. simpl in Hn.
  rewrite length_replicate in Hn.
  assert (Hnew : match R with [] => True | r :: _ => addr + size < m_addr r end ->
    exists M, merged L size addr R M /\
      stored st M (let* r := rmfree_insert size addr (R ++ delim :: replicate k delim) in
                   let* st' := rmfree_ovflo st (L ++ r.1) (length L + r.2) in
                   Ok (rmfree_done st'))).
  { intros HR'. exists (L ++ Mapent size addr :: R). split; [by constructor|].
    erewrite rmfree_insert_wf by eassumption. cbn [obind fst snd].
    replace (length L + S (length R))%nat with (length (L ++ Mapent size addr :: R))
      by (rewrite length_app; simpl; lia).
    rewrite app_comm_cons, app_assoc.
    apply rmfree_ovflo_stored; [done|]. rewrite length_app. simpl. lia. }
  assert (Hcut : forall bp M, head (R ++ delim :: replicate k delim) = Some bp ->
    merged L size addr R M ->
    stored st M (rmfree_right st size addr L (R ++ delim :: replicate k delim) bp) ->
    exists M bp, head (R ++ delim :: replicate k delim) = Some bp /\ merged L size addr R M /\
    stored st M (rmfree_right st size addr L (R ++ delim :: replicate k delim) bp)) by eauto.
  destruct R as [|r R]; simpl app in *.
  - destruct (Hnew I) as (M & ? & ?). apply (Hcut delim M); [done|done|].
    unfold rmfree_right. simpl m_size. unfold nz. simpl. by rewrite andb_false_r.
  - destruct HokR as (? & ? & ?). destruct (Z.eq_dec (addr + size) (m_addr r)) as [He|He].
    + eapply (Hcut r); [done|by apply Merged_right|].
      unfold rmfree_right, nz. destruct (Z.leb_spec (m_addr r) (addr + size)); [|lia].
      destruct (Z.eqb_spec (m_size r) 0); [lia|]. cbn [andb negb].
      destruct (Z.ltb_spec (m_addr r) (addr + size)); [lia|].
      left. exists k. rewrite <- app_assoc. simpl. split; [|done].
      rewrite length_app. simpl in *. lia.
    + destruct (Hnew ltac:(lia)) as (M & ? & ?). apply (Hcut r M); [done|done|].
      unfold rmfree_right. destruct (Z.leb_spec (m_addr r) (addr + size)); [lia|done].
Qed.

(** Abutting on the left: the branch of [rmfree] under
    [(bp-1)->m_addr+(bp-1)->m_size >= addr]. *)
Lemma rmfree_left_wf st size addr L l R k :
  rm_slots st = (L ++ [l]) ++ R ++ delim :: replicate k delim ->
  segs_ok 0 ((L ++ [l]) ++ R) -> 0 < size -> m_addr l + m_size l = addr ->
  match R with [] => True | r :: _ => addr + size <= m_addr r end ->
  exists M bp, head (R ++ delim :: replicate k delim) = Some bp /\
    merged (L ++ [l]) size addr R M /\
    stored st M
      (if addr <? m_addr l + m_size l then badrmfree else
       let pre' := removelast (L ++ [l]) in
       if nz (m_addr bp) && (m_addr bp <=? addr + size) then
         if m_addr bp <? addr + size then badrmfree else
         let* suf' := shift_while (R ++ delim :: replicate k delim) in
         Ok (rmfree_done (set_slots st
               (pre' ++ Mapent (m_size l + size + m_size bp) (m_addr l) :: suf')))
       else
         Ok (rmfree_done (set_slots st
               (pre' ++ Mapent (m_size l + size) (m_addr l) :: R ++ delim :: replicate k delim)))).
Proof.
  intros Hsl Hok Hsz Ha HR. apply segs_ok_app in Hok as [HokL HokR].
  pose proof (f_equal length Hsl) as Hn. rewrite !length_app in Hn. simpl in Hn.
  rewrite length_replicate in Hn.
  rewrite removelast_snoc. destruct (Z.ltb_spec addr (m_addr l + m_size l)); [lia|].
  destruct R as [|r R]; simpl app.
  - exists (L ++ [Mapent (m_size l + size) (m_addr l)]), delim.
    split; [done|]. split; [by apply Merged_left|]. left. exists k. simpl.
    rewrite <- app_assoc. split; [rewrite length_app; simpl; simpl in Hn; lia|done].
  - rewrite segs_end_app in HokR. simpl in HokR. destruct HokR as (Hr1 & Hr2 & Hr3).
    assert (m_addr r <> 0).
    { apply segs_ok_app in HokL as [HokL (? & ? & _)]. apply segs_end_ge in HokL. lia. }
    destruct (Z.eq_dec (addr + size) (m_addr r)) as [He|He].
    + eexists _, r. split; [done|]. split; [by apply Merged_both|].
      unfold nz. destruct (Z.eqb_spec (m_addr r) 0); [done|].
      destruct (Z.leb_spec (m_addr r) (addr + size)); [|lia]. cbn [andb negb].
      destruct (Z.ltb_spec (m_addr r) (addr + size)); [lia|].
      pose proof (shift_while_wf (m_addr l + m_size l) r R k) as Hsw. simpl app in Hsw.
      rewrite Hsw by done. cbn [obind].
      left. exists (S k). rewrite <- app_assoc. simpl.
      split; [rewrite length_app; simpl in *; lia|done].
    + eexists _, r. split; [done|]. split; [by apply (Merged_left L l (r :: R)); [|lia]|].
      destruct (Z.leb_spec (m_addr r) (addr + size)); [lia|]. rewrite andb_false_r.
      left. exists k. rewrite <- app_assoc. simpl.
      split; [rewrite length_app; simpl in *; lia|done].
Qed.

Lemma rmfree_stored st size addr segs k :
  (2 <= length (rm_slots st))%nat -> rm_wf segs k (rm_slots st) ->
  0 < size -> 0 < addr ->
  (forall x, addr <= x < addr + size -> ~ in_free segs x) ->
  exists L R M, segs = L ++ R /\ merged L size addr R M /\ stored st M (rmfree st size addr).
Proof.
  intros H2 [Hsl Hok] Hsz Ha Hdis.
  destruct (rmfree_locate_wf 0 addr [] segs k Hok Ha) as (L & R & -> & Hloc & HL & HR).
  exists L, R. unfold rmfree.
  destruct (Z.leb_spec addr 0); [lia|]. destruct (Z.leb_spec size 0); [lia|]. simpl orb. cbv iota.
  rewrite Hsl, Hloc. cbn [obind app].
  rewrite <- app_assoc in Hsl.
  assert (HR' : match R with [] => True | r :: _ => addr + size <= m_addr r end).
  { destruct R as [|r R]; [done|]. destruct (Z.le_gt_cases (addr + size) (m_addr r)); [done|].
    exfalso. apply segs_ok_app in Hok as [_ (? & ? & _)].
    apply (Hdis (m_addr r)); [lia|]. autorewrite with rmap. unfold in_seg. lia. }
  assert (Hright : segs_end 0 L < addr -> exists M bp,
    head (R ++ delim :: replicate k delim) = Some bp /\ merged L size addr R M /\
    stored st M (rmfree_right st size addr L (R ++ delim :: replicate k delim) bp)).
  { intros. by apply rmfree_right_wf. }
  destruct L as [|l L' _] using rev_ind.
  - destruct (Hright ltac:(simpl; lia)) as (M & bp & -> & Hm & Hst). by exists M.
  - rewrite last_snoc, segs_end_app in *. simpl in Hright.
    assert (m_addr l <= addr) by (by apply Forall_app in HL as [_ HL]; apply Forall_cons in HL as [? _]).
    assert (m_addr l + m_size l <= addr).
    { destruct (Z.le_gt_cases (m_addr l + m_size l) addr); [done|]. exfalso.
      apply (Hdis addr); [lia|]. autorewrite with rmap. unfold in_seg. lia. }
    destruct (Z.leb_spec addr (m_addr l + m_size l)).
    + destruct (rmfree_left_wf st size addr L' l R k) as (M & bp & -> & Hm & Hst); try done; [lia|].
      by exists M.
    + destruct (Hright ltac:(lia)) as (M & bp & -> & Hm & Hst). by exists M.
Qed.

(** Taking one segment out of a well-formed list. *)
Lemma segs_ok_remove lo A s B : segs_ok lo (A ++ s :: B) -> segs_ok lo (A ++ B).
Proof.
  rewrite !segs_ok_app. simpl. intros (? & ? & ? & HB). split; [done|].
  eapply segs_ok_weaken; [exact HB|lia].
Qed.

Lemma in_free_remove lo A s B x :
  segs_ok lo (A ++ s :: B) ->
  in_free (A ++ B) x <-> in_free (A ++ s :: B) x /\ ~ in_seg s x.
Proof.
  rewrite segs_ok_app. simpl. intros (HA & ? & ? & HB). autorewrite with rmap.
  pose proof (in_free_below _ _ x HA). pose proof (in_free_above _ _ x HB).
  unfold in_seg. intuition lia.
Qed.

Lemma rm_slots_set st l : rm_slots (set_slots st l) = l.
Proof. done. Qed.

Lemma rm_slots_done st : rm_slots (rmfree_done st) = rm_slots st.
Proof. unfold rmfree_done. by destruct (_ && _). Qed.

(** The events of a call: at most one lost segment, then the wakeup. *)
Definition lost_events (st : rmst) (lost : list mapent) : list rmevent :=
  (fun s => RmapOvflo (m_name (rm_map st)) (m_addr s) (m_addr s + m_size s)) <$> lost.

Definition wakeup_events (st : rmst) : list rmevent :=
  if is_kernelmap (m_id (rm_map st)) && nz (kmapwnt st) then [WakeupKernelmap] else [].

Lemma rmfree_done_log st l lost :
  rm_log (rmfree_done (Rmst (Map (m_id (rm_map st)) (m_name (rm_map st)) l)
            (kmapwnt st) (rm_log st ++ lost))) = rm_log st ++ lost ++ wakeup_events st.
Proof.
  unfold rmfree_done, wakeup_events. simpl.
  destruct (_ && _); simpl; [by rewrite <- app_assoc|by rewrite !app_nil_r].
Qed.

Lemma rm_inv_intro M k : (2 <= length M + S k)%nat -> segs_ok 0 M ->
  rm_inv (M ++ delim :: replicate k delim).
Proof.
  intros Hn Hok. split; [rewrite length_app; simpl; rewrite length_replicate; lia|].
  by exists M, k.
Qed.

Lemma free_at_intro M k x : segs_ok 0 M ->
  free_at (M ++ delim :: replicate k delim) x <-> in_free M x.
Proof. intros. by apply (free_at_wf M k). Qed.

(** What a call that stores [M] has done to the map. *)
Lemma stored_spec st M res :
  (2 <= length (rm_slots st))%nat -> segs_ok 0 M -> stored st M res ->
  exists st' lost, res = Ok st' /\ rm_inv (rm_slots st') /\
    length (rm_slots st') = length (rm_slots st) /\
    rm_log st' = rm_log st ++ lost_events st lost ++ wakeup_events st /\
    (length lost <= 1)%nat /\ incl lost M /\
    (lost <> [] -> length M = length (rm_slots st)) /\
    incl (seg_prefix (rm_slots st')) M /\
    forall x, free_at (rm_slots st') x <-> in_free M x /\ ~ in_free lost x.
Proof.
  intros H2 Hok [(k & Hlen & ->)|(M0 & lost & lst & -> & Hlen & ->)].
  - eexists _, []. split; [done|]. rewrite rm_slots_done. unfold rm_slots at 1 2 4 5, set_slots.
    simpl rm_map. simpl m_slots. split; [apply rm_inv_intro; [lia|done]|].
    split; [rewrite length_app; simpl; rewrite length_replicate; lia|].
    split. { pose proof (rmfree_done_log st (M ++ delim :: replicate k delim) []) as E.
             rewrite app_nil_r in E. apply E. }
    split; [simpl; lia|]. split; [apply incl_nil_l|]. split; [done|].
    split; [erewrite seg_prefix_wf by done; apply incl_refl|].
    intros x. unfold rm_slots. simpl m_slots. rewrite free_at_intro by done. rewrite in_free_nil. tauto.
  - eexists _, [lost]. split; [done|]. rewrite rm_slots_done.
    assert (Hok' : segs_ok 0 (M0 ++ [lst])) by (by apply (segs_ok_remove 0 M0 lost)).
    assert (Hsl : M0 ++ [lst; delim] = (M0 ++ [lst]) ++ delim :: replicate 0 delim)
      by (by rewrite <- app_assoc).
    unfold rm_slots at 1 2 5 6, log_event, set_slots. simpl rm_map. simpl m_slots.
    rewrite length_app in Hlen. simpl in Hlen. rewrite Hsl.
    split; [apply rm_inv_intro; [rewrite length_app; simpl; lia|done]|].
    split; [rewrite !length_app; simpl; lia|].
    split; [exact (rmfree_done_log st _ (lost_events st [lost]))|]. split; [done|].
    split; [intros y [<-|[]]; apply in_app_iff; simpl; auto|].
    split; [intros _; rewrite length_app; simpl; lia|].
    split. { erewrite seg_prefix_wf by done. intros y. rewrite !in_app_iff. simpl. tauto. }
    intros x. unfold rm_slots. simpl m_slots. rewrite free_at_intro by done.
    rewrite (in_free_remove 0 M0 lost [lst]) by done. autorewrite with rmap. tauto.
Qed.

(** [rmfree] of a region disjoint from the free space. *)
Lemma rmfree_spec st size addr :
  rm_inv (rm_slots st) -> 0 < size -> 0 < addr ->
  (forall x, addr <= x < addr + size -> ~ free_at (rm_slots st) x) ->
  exists st' lost, rmfree st size addr = Ok st' /\ rm_inv (rm_slots st') /\
    length (rm_slots st') = length (rm_slots st) /\
    rm_log st' = rm_log st ++ lost_events st lost ++ wakeup_events st /\
    (length lost <= 1)%nat /\
    (lost <> [] -> length (seg_prefix (rm_slots st)) = (length (rm_slots st) - 1)%nat) /\
    forall x, free_at (rm_slots st') x <->
      (free_at (rm_slots st) x \/ addr <= x < addr + size) /\ ~ in_free lost x.
Proof.
  intros [H2 (segs & k & Hwf)] Hsz Ha Hdis.
  destruct (rmfree_stored st size addr segs k) as (L & R & M & -> & Hm & Hst); try done.
  { intros x Hx Hin. by apply (Hdis x Hx), (free_at_wf segs k). }
  destruct Hwf as [Hsl Hok].
  destruct (stored_spec st M _ H2 (merged_ok _ _ _ _ _ Hm Hok Hsz) Hst)
    as (st' & lost & -> & Hinv & Hlen & Hlog & Hl1 & _ & Hfull & _ & Hfree).
  exists st', lost. do 5 (split; [done|]). split.
  - intros Hne. apply Hfull in Hne. apply merged_length in Hm as [Hm _].
    rewrite Hsl in Hne |- *. erewrite seg_prefix_wf by done.
    rewrite !length_app in *. simpl in *. rewrite !length_replicate in *. lia.
  - intros x. rewrite Hfree, (merged_free _ _ _ _ _ Hm Hok Hsz).
    by rewrite (free_at_wf (L ++ R) k).
Qed.

(** A region that overlaps the free space is always detected. *)
Lemma rmfree_overlap st size addr x :
  rm_inv (rm_slots st) -> 0 < size -> 0 < addr ->
  addr <= x < addr + size -> free_at (rm_slots st) x ->
  rmfree st size addr = badrmfree.
Proof.
  intros [H2 (segs & k & Hsl & Hok)] Hsz Ha Hx Hfree.
  apply (free_at_wf segs k) in Hfree; [|done].
  destruct (rmfree_locate_wf 0 addr [] segs k Hok Ha) as (L & R & -> & Hloc & HL & HR).
  unfold rmfree. destruct (Z.leb_spec addr 0); [lia|]. destruct (Z.leb_spec size 0); [lia|].
  simpl orb. cbv iota. rewrite Hsl, Hloc. cbn [obind app].
  apply segs_ok_app in Hok as [HokL HokR].
  assert (HRx : in_free R x -> exists r R', R = r :: R' /\ m_addr r <= x /\ 0 < m_size r).
  { destruct R as [|r R']; [by rewrite in_free_nil|]. intros HinR. exists r, R'.
    destruct HokR as (? & ? & HR'). split; [done|]. split; [|done].
    apply in_free_cons in HinR as [[??]|Hin]; [done|].
    pose proof (in_free_above _ _ _ HR' Hin). lia. }
  assert (Hbad : forall r R', R = r :: R' -> m_addr r <= x -> 0 < m_size r ->
     rmfree_right st size addr L (R ++ delim :: replicate k delim) r = badrmfree).
  { intros r R' -> ? ?. unfold rmfree_right, nz.
    destruct (Z.leb_spec (m_addr r) (addr + size)); [|lia].
    destruct (Z.eqb_spec (m_size r) 0); [lia|]. cbn [andb negb].
    destruct (Z.ltb_spec (m_addr r) (addr + size)); [done|lia]. }
  destruct L as [|l L' _] using rev_ind.
  - destruct (HRx Hfree) as (r & R' & -> & ? & ?). simpl. by apply (Hbad r R').
  - rewrite last_snoc. rewrite segs_end_app in HokR. simpl in HokR.
    apply in_free_app in Hfree.
    destruct (Z.leb_spec addr (m_addr l + m_size l)) as [Hle|Hgt].
    + destruct Hfree as [HinL|HinR].
      { pose proof (in_free_below _ _ _ HokL HinL) as Hb. rewrite segs_end_app in Hb. simpl in Hb.
        destruct R; simpl; (destruct (Z.ltb_spec addr (m_addr l + m_size l)); [done|lia]). }
      destruct (HRx HinR) as (r & R' & -> & ? & ?). simpl.
      destruct (Z.ltb_spec addr (m_addr l + m_size l)); [done|].
      unfold nz. destruct (Z.eqb_spec (m_addr r) 0); [lia|].
      destruct (Z.leb_spec (m_addr r) (addr + size)); [|lia]. simpl.
      destruct (Z.ltb_spec (m_addr r) (addr + size)); [done|lia].
    + destruct Hfree as [HinL|HinR].
      { pose proof (in_free_below _ _ _ HokL HinL) as Hb. rewrite segs_end_app in Hb. simpl in Hb. lia. }
      destruct (HRx HinR) as (r & R' & -> & ? & ?). by apply (Hbad r R').
Qed.

(** ** [rmalloc] *)

Section RmallocSpec.
Context (cfg : swapcfg).

(** The entry [bp] can serve a request of [size]: it is long enough, and if
    it crosses an interleaving boundary of the swap map the part above the
    boundary is. *)
Definition rm_boundary (i : mapid) (bp : mapent) : bool :=
  is_swapmap i && (1 <? nswdev cfg)
  && (dmmax cfg - Z.rem (m_addr bp) (dmmax cfg) <? m_size bp).

Definition rm_fits (i : mapid) (size : Z) (bp : mapent) : bool :=
  (size <=? m_size bp)
  && negb (rm_boundary i bp
           && (m_size bp - (dmmax cfg - Z.rem (m_addr bp) (dmmax cfg)) <? size)).

(** Where in a fitting entry the block is taken. *)
Definition rm_base (i : mapid) (bp : mapent) : Z :=
  if rm_boundary i bp then m_addr bp + (dmmax cfg - Z.rem (m_addr bp) (dmmax cfg))
  else m_addr bp.

(** What happens at the entry the search stops at. *)
Definition rmalloc_at (st : rmst) (size : Z) (pre : list mapent) (bp : mapent)
    (rest : list mapent) : outcome (rmst * Z) :=
  if rm_boundary (m_id (rm_map st)) bp then
    let first := dmmax cfg - Z.rem (m_addr bp) (dmmax cfg) in
    let addr := m_addr bp + first in
    let rst := m_size bp - first - size in
    let st' := set_slots st (pre ++ Mapent first (m_addr bp) :: rest) in
    if nz rst
    then let* st'' := rmfree st' rst (addr + size) in Ok (st'', addr)
    else Ok (st', addr)
  else rmalloc_take st size pre bp rest.

Lemma rmalloc_search_wf st size lo pre segs k :
  segs_ok lo segs ->
  (Forall (fun s => rm_fits (m_id (rm_map st)) size s = false) segs /\
   rmalloc_search cfg st size pre (segs ++ delim :: replicate k delim) = Ok (st, 0)) \/
  (exists A b B, segs = A ++ b :: B /\
   Forall (fun s => rm_fits (m_id (rm_map st)) size s = false) A /\
   rm_fits (m_id (rm_map st)) size b = true /\
   rmalloc_search cfg st size pre (segs ++ delim :: replicate k delim)
   = rmalloc_at st size (pre ++ A) b (B ++ delim :: replicate k delim)).
Proof.
  revert lo pre. induction segs as [|s segs IH]; intros lo pre Hok; [by left|].
  destruct Hok as (Hlo & Hsz & Hok).
  assert (Hstep : rmalloc_search cfg st size pre ((s :: segs) ++ delim :: replicate k delim)
    = if rm_fits (m_id (rm_map st)) size s
      then rmalloc_at st size pre s (segs ++ delim :: replicate k delim)
      else rmalloc_search cfg st size (pre ++ [s]) (segs ++ delim :: replicate k delim)).
  { cbn [app rmalloc_search]. destruct (Z.eqb_spec (m_size s) 0); [lia|].
    unfold rm_fits, rmalloc_at. fold (rm_boundary (m_id (rm_map st)) s).
    destruct (size <=? m_size s); [|done].
    destruct (rm_boundary (m_id (rm_map st)) s); [|done]. cbn [andb].
    by destruct (_ <? size). }
  rewrite Hstep. destruct (rm_fits (m_id (rm_map st)) size s) eqn:Hf.
  - right. exists [], s, segs. rewrite app_nil_r. auto.
  - destruct (IH _ (pre ++ [s]) Hok) as [[HF HE]|(A & b & B & -> & HF & Hb & HE)].
    + left. auto.
    + right. exists (s :: A), b, B. rewrite HE, <- app_assoc. auto.
Qed.
End RmallocSpec.

(** *** Taking space out of one segment *)

Lemma segs_pos lo segs : segs_ok lo segs -> Forall (fun s => lo < m_addr s /\ 0 < m_size s) segs.
Proof.
  revert lo. induction segs as [|s segs IH]; intros lo; [constructor|].
  intros (? & ? & Hok). constructor; [done|].
  eapply Forall_impl; [by apply IH|]. simpl. intros. lia.
Qed.

(** Cutting the first [size] units off the segment [b]. *)
Definition seg_cut (b : mapent) (size : Z) : list mapent :=
  if m_size b =? size then [] else [Mapent (m_size b - size) (m_addr b + size)].

Lemma seg_cut_ok lo A b B size :
  segs_ok lo (A ++ b :: B) -> 0 < size <= m_size b -> segs_ok lo (A ++ seg_cut b size ++ B).
Proof.
  intros Hok Hsz. unfold seg_cut. destruct (Z.eqb_spec (m_size b) size).
  - by apply (segs_ok_remove lo A b).
  - rewrite segs_ok_app in *. simpl in *.
    replace (m_addr b + size + (m_size b - size)) with (m_addr b + m_size b) by lia.
    intuition lia.
Qed.

Lemma seg_cut_free lo A b B size x :
  segs_ok lo (A ++ b :: B) -> 0 < size <= m_size b ->
  in_free (A ++ seg_cut b size ++ B) x <->
  in_free (A ++ b :: B) x /\ ~ (m_addr b <= x < m_addr b + size).
Proof.
  intros Hok Hsz. apply segs_ok_app in Hok as [HA (Hb1 & Hb2 & HB)].
  pose proof (in_free_below _ _ x HA). pose proof (in_free_above _ _ x HB).
  unfold seg_cut. destruct (Z.eqb_spec (m_size b) size); autorewrite with rmap;
    unfold in_seg; simpl; autorewrite with rmap; unfold in_seg; simpl; intuition lia.
Qed.

Lemma seg_cut_length A b B size :
  (length (A ++ seg_cut b size ++ B) <= length (A ++ b :: B))%nat.
Proof. rewrite !length_app. unfold seg_cut. destruct (_ =? _); simpl; lia. Qed.

Definition rm_cut_slots (A : list mapent) (b : mapent) (B : list mapent) (size : Z) (k : nat)
    : list mapent :=
  A ++ seg_cut b size ++ B ++ delim
    :: replicate (if m_size b =? size then S k else k) delim.

Lemma rm_cut_wf A b B size k :
  segs_ok 0 (A ++ b :: B) -> 0 < size <= m_size b ->
  (2 <= length (A ++ b :: B ++ delim :: replicate k delim))%nat ->
  rm_inv (rm_cut_slots A b B size k) /\
  length (rm_cut_slots A b B size k) = length (A ++ b :: B ++ delim :: replicate k delim) /\
  seg_prefix (rm_cut_slots A b B size k) = A ++ seg_cut b size ++ B.
Proof.
  intros Hok Hsz Hn. pose proof (seg_cut_ok _ _ _ _ _ Hok Hsz) as Hok'.
  assert (Hlen : length (rm_cut_slots A b B size k)
    = length (A ++ b :: B ++ delim :: replicate k delim)).
  { unfold rm_cut_slots, seg_cut. rewrite !length_app. simpl. rewrite !length_app. simpl.
    destruct (_ =? _); simpl; rewrite !length_replicate; lia. }
  split; [split; [by rewrite Hlen|]|split; [done|]].
  - exists (A ++ seg_cut b size ++ B), (if m_size b =? size then S k else k).
    split; [|done]. unfold rm_cut_slots. by rewrite <- !app_assoc.
  - unfold rm_cut_slots. rewrite !app_assoc. apply (seg_prefix_wf 0). by rewrite <- app_assoc.
Qed.

Lemma rmalloc_take_wf st size A b B k :
  segs_ok 0 (A ++ b :: B) -> 0 < size <= m_size b ->
  (is_swapmap (m_id (rm_map st)) = true -> Z.rem (m_addr b) CLSIZE = 0) ->
  rmalloc_take st size A b (B ++ delim :: replicate k delim)
  = Ok (set_slots st (rm_cut_slots A b B size k), m_addr b).
Proof.
  intros Hok Hsz Hal. apply segs_ok_app in Hok as [_ (_ & _ & HB)].
  unfold rmalloc_take, rm_cut_slots, seg_cut. cbn [m_size m_addr].
  assert (Hsw : is_swapmap (m_id (rm_map st)) && nz (Z.rem (m_addr b) CLSIZE) = false).
  { destruct (is_swapmap _); [|done]. rewrite (Hal eq_refl). done. }
  destruct (Z.eqb_spec (m_size b - size) 0), (Z.eqb_spec (m_size b) size); try lia.
  - erewrite shift_do_wf by exact HB. cbn [obind]. by rewrite Hsw.
  - cbn [obind]. by rewrite Hsw.
Qed.

Lemma rm_inv_segs slots :
  rm_inv slots -> exists segs k, slots = segs ++ delim :: replicate k delim /\
    segs_ok 0 segs /\ seg_prefix slots = segs /\ (2 <= length slots)%nat.
Proof.
  intros [H2 (segs & k & Hsl & Hok)]. exists segs, k. split; [done|]. split; [done|].
  split; [|done]. rewrite Hsl. by apply (seg_prefix_wf 0).
Qed.

Lemma rm_fits_other cfg i size s :
  is_swapmap i = false -> rm_fits cfg i size s = (size <=? m_size s).
Proof. intros Hi. unfold rm_fits, rm_boundary. rewrite Hi. simpl. by rewrite andb_true_r. Qed.

(** A sorted, coalesced list of segments is determined by its addresses. *)
Lemma segs_ok_unique lo l1 l2 :
  segs_ok lo l1 -> segs_ok lo l2 -> (forall x, in_free l1 x <-> in_free l2 x) -> l1 = l2.
Proof.
  revert lo l2. induction l1 as [|s l1 IH]; intros lo [|t l2] H1 H2 Heq; [done| | |].
  - destruct H2 as (? & ? & _). exfalso. apply (in_free_nil (m_addr t)), Heq.
    autorewrite with rmap. unfold in_seg. lia.
  - destruct H1 as (? & ? & _). exfalso. apply (in_free_nil (m_addr s)), Heq.
    autorewrite with rmap. unfold in_seg. lia.
  - destruct H1 as (? & Hs & H1), H2 as (? & Ht & H2).
    assert (Hc : forall x, in_seg s x \/ in_free l1 x <-> in_seg t x \/ in_free l2 x)
      by (intros x; specialize (Heq x); by autorewrite with rmap in Heq).
    pose proof (fun x => in_free_above _ _ x H1) as A1.
    pose proof (fun x => in_free_above _ _ x H2) as A2. unfold in_seg in Hc.
    assert (Ha : m_addr s = m_addr t).
    { destruct (proj1 (Hc (m_addr s))) as [?|?%A2]; [left; lia| |];
      (destruct (proj2 (Hc (m_addr t))) as [?|?%A1]; [left; lia| |]; lia). }
    assert (He : m_size s = m_size t).
    { destruct (Z.lt_trichotomy (m_size s) (m_size t)) as [Hlt|[?|Hlt]]; [|done|]; exfalso.
      - destruct (proj2 (Hc (m_addr s + m_size s))) as [?|?%A1]; [left; lia| |]; lia.
      - destruct (proj1 (Hc (m_addr t + m_size t))) as [?|?%A2]; [left; lia| |]; lia. }
    destruct s as [ss sa], t as [ts ta]; simpl in *; subst. f_equal.
    apply (IH (ta + ts)); [done|done|]. intros x. specialize (Hc x).
    split; intros Hx.
    + pose proof (A1 x Hx). destruct (proj1 Hc (or_intror Hx)) as [?|?]; [lia|done].
    + pose proof (A2 x Hx). destruct (proj2 Hc (or_intror Hx)) as [?|?]; [lia|done].
Qed.

(** ** Properties *)

Lemma rmalloc_spec cfg st size :
  rm_inv (rm_slots st) -> is_swapmap (m_id (rm_map st)) = false -> 0 < size ->
  exists st' a, rmalloc cfg st size = Ok (st', a) /\ rm_inv (rm_slots st') /\
    length (rm_slots st') = length (rm_slots st) /\
    kmapwnt st' = kmapwnt st /\ rm_log st' = rm_log st /\
    ((a = 0 /\ st' = st /\ Forall (fun s => m_size s < size) (seg_prefix (rm_slots st)))
     \/
     (0 < a /\ (forall x, a <= x < a + size -> free_at (rm_slots st) x) /\
      (forall x, free_at (rm_slots st') x <->
                 free_at (rm_slots st) x /\ ~ (a <= x < a + size)) /\
      Forall (fun s => m_addr s < a -> m_size s < size) (seg_prefix (rm_slots st)))).
Proof.
  intros Hinv Hsw Hsz. destruct (rm_inv_segs _ Hinv) as (segs & k & Hsl & Hok & Hpre & H2).
  unfold rmalloc. destruct (Z.leb_spec size 0); [lia|]. rewrite Hsw. simpl orb. cbv iota.
  destruct (rmalloc_search_wf cfg st size 0 [] segs k Hok)
    as [[HF HE]|(A & b & B & -> & HF & Hb & HE)]; rewrite <- Hsl in HE; rewrite HE.
  - exists st, 0. split_and!; auto.
    left. split_and!; auto. rewrite Hpre. eapply Forall_impl; [exact HF|].
    intros s Hs. simpl in Hs. rewrite rm_fits_other in Hs by done. lia.
  - rewrite rm_fits_other in Hb by done. unfold rmalloc_at, rm_boundary. rewrite Hsw. simpl andb.
    cbv iota. simpl app. rewrite rmalloc_take_wf; [|done|lia|by rewrite Hsw].
    rewrite <- app_assoc in Hsl. simpl in Hsl. rewrite Hsl in H2.
    destruct (rm_cut_wf A b B size k) as (Hi & Hl & Hp); [done|lia|done|].
    eexists _, (m_addr b). split; [done|].
    rewrite rm_slots_set, Hl, Hsl.
    split_and!; [done|done|done|done|]. right.
    apply segs_pos in Hok as Hpos. apply Forall_app in Hpos as [_ Hpos].
    apply Forall_cons in Hpos as [[Hpb _] _]. split; [done|].
    assert (Hfr : forall x, free_at (A ++ b :: B ++ delim :: replicate k delim) x
                            <-> in_free (A ++ b :: B) x).
    { intros x. apply (free_at_wf (A ++ b :: B) k). split; [|done]. by rewrite <- app_assoc. }
    split_and!.
    + intros x Hx. apply Hfr. autorewrite with rmap. unfold in_seg. lia.
    + intros x. rewrite Hfr. unfold free_at. rewrite Hp. apply (seg_cut_free 0); [done|lia].
    + rewrite <- Hsl, Hpre. apply Forall_app. split.
      * eapply Forall_impl; [exact HF|]. intros s Hs _. simpl in Hs.
        rewrite rm_fits_other in Hs by done. lia.
      * apply segs_ok_app in Hok as [_ (_ & ? & HB)]. constructor; [lia|].
        eapply Forall_impl; [by eapply segs_pos|]. simpl. lia.
Qed.

(** C25: On a well-formed map, [rmfree] of a region none of which is free
    returns and leaves the map well formed; the free space gains exactly the
    region, less at most one segment [lost], which is given up only when every
    slot but the delimiter's was in use and which is named in the message that
    is printed. *)
Theorem rmfree_correct st size addr :
  rm_inv (rm_slots st) -> 0 < size -> 0 < addr ->
  (forall x, addr <= x < addr + size -> ~ free_at (rm_slots st) x) ->
  exists st' lost, rmfree st size addr = Ok st' /\ rm_inv (rm_slots st') /\
    length (rm_slots st') = length (rm_slots st) /\
    rm_log st' = rm_log st ++ lost_events st lost ++ wakeup_events st /\
    (length lost <= 1)%nat /\
    (lost <> [] -> length (seg_prefix (rm_slots st)) = (length (rm_slots st) - 1)%nat) /\
    forall x, free_at (rm_slots st') x <->
      (free_at (rm_slots st) x \/ addr <= x < addr + size) /\ ~ in_free lost x.
Proof. apply rmfree_spec. Qed.

Lemma overlap_dec segs addr size :
  (exists x, addr <= x < addr + size /\ in_free segs x) \/
  (forall x, addr <= x < addr + size -> ~ in_free segs x).
Proof.
  induction segs as [|s segs [(x & Hx & Hin)|IH]].
  - right. intros x _ Hx. by apply in_free_nil in Hx.
  - left. exists x. split; [done|]. apply in_free_cons. by right.
  - destruct (decide (Z.max addr (m_addr s) < Z.min (addr + size) (m_addr s + m_size s))).
    + left. exists (Z.max addr (m_addr s)). split; [lia|]. apply in_free_cons. left.
      unfold in_seg. lia.
    + right. intros x Hx [Hs|Hin]%in_free_cons; [unfold in_seg in Hs; lia|by apply (IH x)].
Qed.

(** [rmfree] catches every double free: on a well-formed map it returns
    exactly when the address and the size are positive and no part of the
    region is free already, it panics with "bad rmfree" otherwise, and it never
    touches a slot outside the array. *)
Theorem rmfree_detects_double_free st size addr :
  rm_inv (rm_slots st) ->
  ((exists st', rmfree st size addr = Ok st') <->
   (0 < addr /\ 0 < size /\ forall x, addr <= x < addr + size -> ~ free_at (rm_slots st) x)) /\
  ((exists st', rmfree st size addr = Ok st') \/ rmfree st size addr = Panic "bad rmfree").
Proof.
  intros Hinv. destruct (decide (0 < addr /\ 0 < size)) as [[Ha Hs]|Hn].
  - destruct (overlap_dec (seg_prefix (rm_slots st)) addr size) as [(x & Hx & Hin)|Hdis].
    + pose proof (rmfree_overlap st size addr x Hinv Hs Ha Hx Hin) as E. rewrite E.
      split; [|by right]. split; [intros [? [=]]|]. intros (_ & _ & Hd). by destruct (Hd x Hx).
    + destruct (rmfree_spec st size addr Hinv Hs Ha Hdis) as (st' & ? & E & _).
      split; [|left; by exists st']. split; [done|]. intros _. by exists st'.
  - assert (E : rmfree st size addr = badrmfree).
    { unfold rmfree. destruct (Z.leb_spec addr 0); [done|]. destruct (Z.leb_spec size 0); [done|].
      lia. }
    rewrite E. split; [|by right]. split; [intros [? [=]]|]. tauto.
Qed.

(** Freeing what [rmalloc] has just returned gives back the very same array
    of segments, slot for slot, with nothing lost. *)
Theorem rmalloc_rmfree_roundtrip cfg st size st1 a :
  rm_inv (rm_slots st) -> is_swapmap (m_id (rm_map st)) = false -> 0 < size ->
  rmalloc cfg st size = Ok (st1, a) -> a <> 0 ->
  exists st2, rmfree st1 size a = Ok st2 /\ rm_slots st2 = rm_slots st.
Proof.
  intros Hinv Hsw Hsz Hal Ha.
  destruct (rmalloc_spec cfg st size Hinv Hsw Hsz)
    as (st1' & a' & E & Hinv1 & Hlen1 & _ & _ & Hpost).
  rewrite Hal in E. injection E as <- <-.
  destruct Hpost as [[? _]|(Ha0 & Hblk & Hfree1 & _)]; [done|].
  destruct (rm_inv_segs _ Hinv) as (segs & k & Hsl & Hok & Hpre & H2).
  destruct Hinv1 as [H21 (segs1 & k1 & Hwf1)].
  destruct (rmfree_stored st1 size a segs1 k1) as (L & R & M & -> & Hm & Hst); try done.
  { intros x Hx Hin. by apply (free_at_wf _ k1 _ _ Hwf1), Hfree1 in Hin as [_ []]. }
  pose proof Hwf1 as [Hsl1 Hok1].
  assert (HM : M = segs).
  { apply (segs_ok_unique 0); [by eapply merged_ok|done|]. intros x.
    rewrite (merged_free _ _ _ _ _ Hm Hok1 Hsz), <- (free_at_wf _ k1 _ x Hwf1), Hfree1.
    assert (Hx : free_at (rm_slots st) x <-> in_free segs x) by (by apply (free_at_wf segs k)).
    specialize (Hblk x). rewrite Hx in *. destruct (decide (a <= x < a + size)); tauto. }
  subst M. apply (f_equal length) in Hsl as Hn. rewrite length_app in Hn. simpl in Hn.
  rewrite length_replicate in Hn.
  destruct Hst as [(k2 & Hlen2 & ->)|(M0 & lost & lst & -> & Hlen2 & _)]; [|lia].
  eexists. split; [done|]. rewrite rm_slots_done, rm_slots_set, Hsl.
  replace k2 with k by lia. done.
Qed.

(** *** [rmget] *)

Lemma rmget_find_wf addr lo pre segs k :
  segs_ok lo segs ->
  (rmget_find addr pre (segs ++ delim :: replicate k delim) = Ok None /\
   ~ in_free segs addr) \/
  (exists A b B, segs = A ++ b :: B /\ in_seg b addr /\
   rmget_find addr pre (segs ++ delim :: replicate k delim)
   = Ok (Some (pre ++ A, b, B ++ delim :: replicate k delim))).
Proof.
  revert lo pre. induction segs as [|s segs IH]; intros lo pre Hok.
  - left. split; [done|]. by intros ?%in_free_nil.
  - destruct Hok as (? & ? & Hok). cbn [app rmget_find].
    destruct (Z.eqb_spec (m_size s) 0); [lia|].
    destruct ((m_addr s <=? addr) && (addr <? m_addr s + m_size s)) eqn:E.
    + right. exists [], s, segs. rewrite app_nil_r. unfold in_seg. split; [done|]. split; [lia|done].
    + destruct (IH _ (pre ++ [s]) Hok) as [[-> Hn]|(A & b & B & -> & Hb & ->)].
      * left. split; [done|]. rewrite in_free_cons. unfold in_seg. intros [?|?]; [lia|done].
      * right. exists (s :: A), b, B. by rewrite <- app_assoc.
Qed.

Lemma delim_dist_wf lo segs k :
  segs_ok lo segs -> delim_dist (segs ++ delim :: replicate k delim) = Ok (length segs).
Proof.
  revert lo. induction segs as [|s segs IH]; intros lo Hok; [done|].
  destruct Hok as (? & ? & Hok). cbn [app delim_dist].
  destruct (Z.eqb_spec (m_size s) 0); [lia|]. by rewrite (IH _ Hok).
Qed.

Lemma shift_up_spec (l1 : list mapent) x l2 :
  exists y, shift_up (length l1) (l1 ++ x :: l2) = Ok (y :: l1 ++ l2).
Proof.
  revert x l2. induction l1 as [|e l1 IH] using rev_ind; intros x l2; [by exists x|].
  rewrite length_app. simpl length. rewrite Nat.add_1_r. cbn [shift_up].
  rewrite <- app_assoc. simpl app. rewrite list_lookup_middle by done. cbn [deref obind].
  rewrite decide_True by (rewrite length_app; simpl; lia).
  rewrite insert_app_r_alt by lia.
  replace (S (length l1) - length l1)%nat with 1%nat by lia. simpl.
  destruct (IH e (e :: l2)) as [y ->]. exists y. by rewrite <- app_assoc.
Qed.

Lemma in_seg_dec s x : {in_seg s x} + {~ in_seg s x}.
Proof. unfold in_seg. destruct (decide (m_addr s <= x < m_addr s + m_size s)); auto. Qed.

(** Replacing the segment [b] by its parts outside [addr, addr+size). *)
Lemma seg_carve lo A b B addr size C :
  segs_ok lo (A ++ b :: B) -> m_addr b <= addr -> 0 < size ->
  addr + size <= m_addr b + m_size b ->
  C = (if m_addr b =? addr then [] else [Mapent (addr - m_addr b) (m_addr b)])
      ++ (if m_addr b + m_size b =? addr + size then []
          else [Mapent (m_addr b + m_size b - (addr + size)) (addr + size)]) ->
  segs_ok lo (A ++ C ++ B) /\
  forall x, in_free (A ++ C ++ B) x <->
    in_free (A ++ b :: B) x /\ ~ (addr <= x < addr + size).
Proof.
  intros Hok H1 H2 H3 ->. apply segs_ok_app in Hok as [HA (Hb1 & Hb2 & HB)].
  split.
  - apply segs_ok_app. split; [done|].
    destruct (Z.eqb_spec (m_addr b) addr), (Z.eqb_spec (m_addr b + m_size b) (addr + size));
      simpl; repeat split; try lia;
      (eapply segs_ok_weaken; [exact HB|lia]).
  - intros x. pose proof (in_free_below _ _ x HA). pose proof (in_free_above _ _ x HB).
    destruct (Z.eqb_spec (m_addr b) addr), (Z.eqb_spec (m_addr b + m_size b) (addr + size));
      simpl; autorewrite with rmap; unfold in_seg; simpl; intuition lia.
Qed.

(** The array after the carved segments [C] have taken the place of [b]. *)
Lemma rmget_store st addr size A b B C k k' :
  rm_slots st = A ++ b :: B ++ delim :: replicate k delim ->
  segs_ok 0 (A ++ b :: B) -> m_addr b <= addr -> 0 < size ->
  addr + size <= m_addr b + m_size b -> (2 <= length (rm_slots st))%nat ->
  C = (if m_addr b =? addr then [] else [Mapent (addr - m_addr b) (m_addr b)])
      ++ (if m_addr b + m_size b =? addr + size then []
          else [Mapent (m_addr b + m_size b - (addr + size)) (addr + size)]) ->
  (length C + k' = S k)%nat ->
  let slots' := A ++ C ++ B ++ delim :: replicate k' delim in
  rm_inv slots' /\ 0 < addr /\ length slots' = length (rm_slots st) /\
  (forall x, addr <= x < addr + size -> free_at (rm_slots st) x) /\
  (forall x, free_at slots' x <-> free_at (rm_slots st) x /\ ~ (addr <= x < addr + size)).
Proof.
  intros Hsl Hok H1 Hsz H3 H2 HC Hk slots'.
  destruct (seg_carve 0 A b B addr size C Hok H1 Hsz H3 HC) as [Hok' Hfree].
  assert (Hs' : slots' = (A ++ C ++ B) ++ delim :: replicate k' delim)
    by (unfold slots'; by rewrite <- !app_assoc).
  assert (Hlen : length slots' = length (rm_slots st)).
  { rewrite Hsl. unfold slots'. rewrite !length_app. simpl. rewrite !length_app. simpl.
    rewrite !length_replicate. lia. }
  assert (Hfr : forall x, free_at (rm_slots st) x <-> in_free (A ++ b :: B) x).
  { intros x. apply (free_at_wf _ k). split; [|done]. rewrite Hsl. by rewrite <- app_assoc. }
  pose proof Hok as (_ & ? & _)%segs_ok_app.
  pose proof Hok as [?%segs_end_ge _]%segs_ok_app.
  split; [rewrite Hs'; apply rm_inv_intro; [|done]|].
  { rewrite Hs', length_app in Hlen. simpl in Hlen. rewrite length_replicate in Hlen. lia. }
  split; [lia|]. split; [done|]. split.
  - intros x Hx. apply Hfr. autorewrite with rmap. unfold in_seg. lia.
  - intros x. rewrite Hfr, Hs', free_at_intro by done. apply Hfree.
Qed.

(** What [rmget] of [addr, addr+size) may leave behind. *)
Definition rmget_post (st : rmst) (size addr : Z) (st' : rmst) (r : Z) : Prop :=
  (r = 0 /\ st' = st /\
   ((exists x, addr <= x < addr + size /\ ~ free_at (rm_slots st) x) \/
    length (seg_prefix (rm_slots st)) = (length (rm_slots st) - 1)%nat))
  \/
  (r = addr /\ 0 < addr /\ length (rm_slots st') = length (rm_slots st) /\
   (forall x, addr <= x < addr + size -> free_at (rm_slots st) x) /\
   (forall x, free_at (rm_slots st') x <->
              free_at (rm_slots st) x /\ ~ (addr <= x < addr + size))).

(** [rmget] of a positive size on a well-formed map (not the swap map)
    returns.  Either it returns 0 and changes nothing, and then part of the
    range is not free or the array has no slot for the extra segment a split
    needs; or it returns [addr], the whole range was free, the map is still
    well formed and exactly that range has been allocated. *)
Theorem rmget_correct st size addr :
  rm_inv (rm_slots st) -> is_swapmap (m_id (rm_map st)) = false -> 0 < size ->
  exists st' r, rmget st size addr = Ok (st', r) /\ rm_inv (rm_slots st') /\
    rmget_post st size addr st' r.
Proof.
  intros Hinv Hsw Hsz. destruct (rm_inv_segs _ Hinv) as (segs & k & Hsl & Hok & Hpre & H2).
  unfold rmget. destruct (Z.leb_spec size 0); [lia|]. rewrite Hsw.
  assert (Hfr : forall x, free_at (rm_slots st) x <-> in_free segs x)
    by (intros x; by apply (free_at_wf segs k)).
  destruct (rmget_find_wf addr 0 [] segs k Hok) as [[HE Hn]|(A & b & B & -> & Hb & HE)];
    rewrite <- Hsl in HE; rewrite HE; cbn [obind app].
  { exists st, 0. do 2 (split; [done|]). left. split_and!; [done|done|]. left.
    exists addr. rewrite Hfr. split; [lia|done]. }
  rewrite <- app_assoc in Hsl. simpl in Hsl. unfold in_seg in Hb.
  destruct (Z.ltb_spec (m_addr b + m_size b) (addr + size)) as [Hlt|Hge].
  { exists st, 0. do 2 (split; [done|]). left. split_and!; [done|done|]. left.
    exists (m_addr b + m_size b). rewrite Hfr. split; [lia|].
    apply segs_ok_app in Hok as [HA (? & ? & HB)]. autorewrite with rmap. unfold in_seg.
    intros [?%(in_free_below _ _ _ HA)|[?|?%(in_free_above _ _ _ HB)]]; lia. }
  assert (Hst : forall C k' slots', slots' = A ++ C ++ B ++ delim :: replicate k' delim ->
    C = (if m_addr b =? addr then [] else [Mapent (addr - m_addr b) (m_addr b)])
      ++ (if m_addr b + m_size b =? addr + size then []
          else [Mapent (m_addr b + m_size b - (addr + size)) (addr + size)]) ->
    (length C + k' = S k)%nat ->
    exists st' r, Ok (set_slots st slots', addr) = Ok (st', r) /\ rm_inv (rm_slots st') /\
      rmget_post st size addr st' r).
  { intros C k' slots' -> HC Hk.
    destruct (rmget_store st addr size A b B C k k') as (Hi & Hrest); try done; [lia|].
    eexists _, addr. split; [done|]. rewrite rm_slots_set. split; [done|]. by right. }
  destruct (Z.eqb_spec (m_addr b) addr) as [Ha|Ha],
    (Z.eqb_spec (m_addr b + m_size b) (addr + size)) as [He|He].
  - apply segs_ok_app in Hok as [_ HB]. rewrite (shift_while_wf _ _ _ _ HB). cbn [obind].
    by apply (Hst [] (S k)).
  - apply (Hst [Mapent (m_size b - size) (m_addr b + size)] k); [done| |simpl; lia].
    simpl. f_equal. f_equal; lia.
  - apply (Hst [Mapent (m_size b - size) (m_addr b)] k); [done| |simpl; lia].
    simpl. f_equal. f_equal; lia.
  - pose proof Hok as [_ HB]%segs_ok_app. apply (delim_dist_wf _ (b :: B) k) in HB.
    simpl app in HB. rewrite HB. cbn [obind].
    change (m_slots (rm_map st)) with (rm_slots st).
    assert (Hn : length (rm_slots st) = (length A + S (length B + S k))%nat).
    { rewrite Hsl, length_app. simpl. rewrite length_app. simpl. by rewrite length_replicate. }
    destruct (decide (length (rm_slots st) <= length A + length (b :: B) + 1)%nat) as [Hd|Hd];
      simpl in Hd.
    + exists st, 0. do 2 (split; [done|]). left. split_and!; [done|done|]. right.
      rewrite Hpre, Hn, length_app. simpl. lia.
    + destruct k as [|k]; [lia|]. destruct (shift_up_spec (B ++ [delim]) delim (replicate k delim)) as [y Hy].
      rewrite length_app, Nat.add_1_r, <- app_assoc in Hy. cbn [app length replicate] in Hy |- *.
      rewrite Hy. cbn [obind]. rewrite <- app_assoc.
      by apply (Hst [Mapent (addr - m_addr b) (m_addr b);
                  Mapent (m_addr b + m_size b - (addr + size)) (addr + size)] k).
Qed.

(** *** The swap map: clusters and interleaving *)

Definition seg_aligned (s : mapent) : Prop := (CLSIZE | m_addr s) /\ (CLSIZE | m_size s).

Lemma merged_aligned L size addr R M :
  merged L size addr R M -> (CLSIZE | size) -> (CLSIZE | addr) ->
  Forall seg_aligned (L ++ R) -> Forall seg_aligned M.
Proof.
  intros Hm Hs Ha HF. apply Forall_app in HF as [HL HR].
  destruct Hm; rewrite ?Forall_app, ?Forall_cons in *; unfold seg_aligned in *; simpl;
    intuition auto using Z.divide_add_r, Z.divide_sub_r.
Qed.

Lemma rem_boundary a d : 0 <= a -> 0 < d ->
  0 < d - Z.rem a d <= d /\ (a + (d - Z.rem a d)) = d * (a / d + 1).
Proof.
  intros. rewrite Z.rem_mod_nonneg by lia. pose proof (Z.mod_pos_bound a d).
  pose proof (Z.div_mod a d). lia.
Qed.

Lemma in_stripe a size d q : 0 < d -> 0 < size -> d * q <= a -> a + size <= d * (q + 1) ->
  a / d = (a + size - 1) / d.
Proof.
  intros. transitivity q.
  - symmetry. apply (Z.div_unique_pos a d q (a - d * q)); lia.
  - apply (Z.div_unique_pos _ d q (a + size - 1 - d * q)); lia.
Qed.

(** Splitting a swap segment at an interleaving boundary. *)
Lemma rmalloc_split_wf cfg st size A b B k :
  rm_slots st = A ++ b :: B ++ delim :: replicate k delim ->
  segs_ok 0 (A ++ b :: B) -> 0 < size -> (2 <= length (rm_slots st))%nat ->
  0 < dmmax cfg -> (CLSIZE | dmmax cfg) -> (CLSIZE | size) ->
  Forall seg_aligned (A ++ b :: B) ->
  rm_boundary cfg (m_id (rm_map st)) b = true ->
  rm_fits cfg (m_id (rm_map st)) size b = true ->
  let a := rm_base cfg (m_id (rm_map st)) b in
  exists st' lost, rmalloc_at cfg st size A b (B ++ delim :: replicate k delim) = Ok (st', a) /\
    rm_inv (rm_slots st') /\ Forall seg_aligned (seg_prefix (rm_slots st')) /\
    (length lost <= 1)%nat /\ m_addr b <= a /\ a + size <= m_addr b + m_size b /\
    forall x, free_at (rm_slots st') x <->
      (in_free (A ++ b :: B) x /\ ~ (a <= x < a + size)) /\ ~ in_free lost x.
Proof.
  intros Hsl Hok Hsz H2 Hd Hdal Hsal Hal Hbd Hfit a.
  pose proof Hok as [HA (Hb1 & Hb2 & HB)]%segs_ok_app. apply segs_end_ge in HA as HA'.
  unfold rm_fits in Hfit. rewrite Hbd in Hfit. simpl in Hfit.
  unfold a, rm_base, rmalloc_at. rewrite Hbd.
  destruct (rem_boundary (m_addr b) (dmmax cfg)) as [Hf1 Hf2]; [lia|done|].
  set (first := dmmax cfg - Z.rem (m_addr b) (dmmax cfg)) in *.
  unfold rm_boundary in Hbd. fold first in Hbd.
  assert (Hfl : first < m_size b /\ size <= m_size b - first) by lia. clear Hfit Hbd.
  pose proof Hal as [HalA [[Hab1 Hab2] HalB]%Forall_cons]%Forall_app.
  assert (Hfal : (CLSIZE | first)).
  { replace first with (dmmax cfg * (m_addr b / dmmax cfg + 1) - m_addr b) by lia.
    apply Z.divide_sub_r; [by apply Z.divide_mul_l|done]. }
  (* the map with the segment cut at the boundary *)
  set (st1 := set_slots st (A ++ Mapent first (m_addr b) :: B ++ delim :: replicate k delim)).
  assert (Hs1 : rm_slots st1 = (A ++ Mapent first (m_addr b) :: B) ++ delim :: replicate k delim)
    by (by rewrite <- app_assoc).
  assert (Hok1 : segs_ok 0 (A ++ Mapent first (m_addr b) :: B)).
  { apply segs_ok_app. simpl. split_and!; [done|done|lia|].
    eapply segs_ok_weaken; [exact HB|lia]. }
  assert (Hlen1 : length (rm_slots st1) = length (rm_slots st)).
  { rewrite Hsl. unfold st1. rewrite rm_slots_set, !length_app. done. }
  assert (Hal1 : Forall seg_aligned (A ++ Mapent first (m_addr b) :: B)).
  { apply Forall_app. split; [done|]. constructor; [|done]. done. }
  assert (Hcut : forall x, in_free (A ++ Mapent first (m_addr b) :: B) x <->
     in_free (A ++ b :: B) x /\ ~ (m_addr b + first <= x < m_addr b + m_size b)).
  { intros x. pose proof (in_free_below _ _ x HA). pose proof (in_free_above _ _ x HB).
    autorewrite with rmap. unfold in_seg. simpl. intuition lia. }
  unfold nz. destruct (Z.eqb_spec (m_size b - first - size) 0) as [Hz|Hz]; simpl negb; cbv iota.
  - exists st1, []. split; [done|]. rewrite Hs1.
    apply (f_equal length) in Hs1. rewrite Hlen1, length_app in Hs1. simpl in Hs1.
    rewrite length_replicate in Hs1.
    split; [apply rm_inv_intro; [lia|done]|].
    split; [by erewrite seg_prefix_wf|]. split; [simpl; lia|]. split; [lia|]. split; [lia|].
    intros x. rewrite free_at_intro, Hcut, in_free_nil by done.
    replace (m_addr b + first + size) with (m_addr b + m_size b) by lia. tauto.
  - destruct (rmfree_stored st1 (m_size b - first - size) (m_addr b + first + size)
      (A ++ Mapent first (m_addr b) :: B) k) as (L & R & M & HLR & Hm & Hst).
    { by rewrite Hlen1. } { by split. } { lia. } { lia. }
    { intros x Hx Hin. apply Hcut in Hin as [_ []]. lia. }
    rewrite HLR in Hok1. assert (Hrs : 0 < m_size b - first - size) by lia.
    destruct (stored_spec st1 M _ ltac:(by rewrite Hlen1) (merged_ok _ _ _ _ _ Hm Hok1 Hrs) Hst)
      as (st' & lost & HE & Hinv & _ & _ & Hl1 & _ & _ & Hincl & Hfree).
    exists st', lost. fold st1. rewrite HE. split; [done|]. split; [done|].
    split. { apply Forall_forall. intros s Hs. apply list_elem_of_In, Hincl, list_elem_of_In in Hs.
      revert s Hs. apply Forall_forall. rewrite HLR in Hal1.
      eapply merged_aligned; [exact Hm| | |done].
      - do 2 (apply Z.divide_sub_r; [|done]). done.
      - do 2 (apply Z.divide_add_r; [|done]). done. }
    split; [done|]. split; [lia|]. split; [lia|].
    intros x. rewrite Hfree, (merged_free _ _ _ _ _ Hm Hok1 Hrs), <- HLR, Hcut.
    pose proof (in_free_below _ _ x HA). pose proof (in_free_above _ _ x HB).
    assert (Hin : in_free (A ++ b :: B) x <-> in_free A x \/ in_seg b x \/ in_free B x)
      by (by autorewrite with rmap). rewrite Hin. unfold in_seg. intuition lia.
Qed.

(** [rmalloc] on the swap map, interleaved over several devices: with every
    segment, [dmmax] and the request a multiple of [CLSIZE] and the request at
    most [dmmax], it returns and keeps the map well formed and aligned.  It takes
    the first segment with room in one stripe, 0 when there is none; the block
    [a] lies in one stripe ([a] and [a+size-1] have the same quotient by
    [dmmax]), was free, and what is free afterwards is what was, less the block
    and less at most one segment lost to overflow. *)
Theorem rmalloc_swap_interleave cfg st size :
  rm_inv (rm_slots st) -> m_id (rm_map st) = swapmap -> 1 < nswdev cfg ->
  0 < size <= dmmax cfg -> (CLSIZE | dmmax cfg) -> (CLSIZE | size) ->
  Forall seg_aligned (seg_prefix (rm_slots st)) ->
  exists st' a, rmalloc cfg st size = Ok (st', a) /\ rm_inv (rm_slots st') /\
    Forall seg_aligned (seg_prefix (rm_slots st')) /\
    ((a = 0 /\ st' = st /\ Forall (fun s => rm_fits cfg swapmap size s = false) (seg_prefix (rm_slots st))) \/
     (0 < a /\ a / dmmax cfg = (a + size - 1) / dmmax cfg /\
      (exists A b B, seg_prefix (rm_slots st) = A ++ b :: B /\ Forall (fun s => rm_fits cfg swapmap size s = false) A /\
         rm_fits cfg swapmap size b = true /\ a = rm_base cfg swapmap b) /\
      (forall x, a <= x < a + size -> free_at (rm_slots st) x) /\
      exists lost, (length lost <= 1)%nat /\
        forall x, free_at (rm_slots st') x <->
          (free_at (rm_slots st) x /\ ~ (a <= x < a + size)) /\ ~ in_free lost x)).
Proof.
  intros Hinv Hid Hns [Hsz Hdm] Hdal Hsal Hal.
  destruct (rm_inv_segs _ Hinv) as (segs & k & Hsl & Hok & Hpre & H2).
  unfold rmalloc. destruct (Z.leb_spec size 0); [lia|]. rewrite Hid. simpl orb.
  destruct (Z.ltb_spec (dmmax cfg) size); [lia|].
  destruct (rmalloc_search_wf cfg st size 0 [] segs k Hok)
    as [[HF HE]|(A & b & B & -> & HF & Hb & HE)]; rewrite <- Hsl in HE; rewrite HE.
  { exists st, 0. do 3 (split; [done|]). left. rewrite Hpre. by rewrite Hid in HF. }
  assert (Hfr : forall x, free_at (rm_slots st) x <-> in_free (A ++ b :: B) x)
    by (intros x; by apply (free_at_wf _ k)).
  rewrite <- app_assoc in Hsl. simpl in Hsl. simpl app.
  pose proof Hok as [HA%segs_end_ge (Hb1 & Hb2 & HB)]%segs_ok_app.
  rewrite Hpre in Hal. pose proof Hal as [_ [[Hba _] _]%Forall_cons]%Forall_app.
  destruct (rem_boundary (m_addr b) (dmmax cfg)) as [Hf1 Hf2]; [lia|lia|].
  rewrite Hid in Hb, HF. assert (Hpre' := Hpre). destruct (rm_boundary cfg swapmap b) eqn:Hbd.
  - destruct (rmalloc_split_wf cfg st size A b B k) as (st' & lost & E & Hi & Ha & Hl & Hlo & Hhi & Hx);
      rewrite ?Hid; try done; try lia.
    rewrite Hid in *. exists st', (rm_base cfg swapmap b). do 3 (split; [done|]). right.
    split; [lia|]. split; [|split; [by exists A, b, B|split]].
    + unfold rm_base. rewrite Hbd, Hf2.
      apply (in_stripe _ _ _ (m_addr b / dmmax cfg + 1)); lia.
    + intros x Hxr. apply Hfr. autorewrite with rmap. unfold in_seg. lia.
    + exists lost. split; [done|]. intros x. by rewrite Hx, Hfr.
  - unfold rmalloc_at. rewrite Hid, Hbd.
    assert (Hfit : size <= m_size b) by (unfold rm_fits in Hb; blia).
    rewrite rmalloc_take_wf; [|done|lia|].
    2:{ intros _. apply Z.rem_divide; [done|]. done. }
    rewrite Hsl in H2. destruct (rm_cut_wf A b B size k) as (Hi & Hl & Hp); [done|lia|done|].
    eexists _, (m_addr b). split; [done|]. rewrite rm_slots_set, Hp.
    split; [done|]. split.
    { unfold seg_cut. rewrite !Forall_app in *. rewrite Forall_cons in Hal.
      destruct (_ =? _); [split_and!; [tauto|constructor|tauto]|]. rewrite Forall_cons. unfold seg_aligned in *. simpl.
      intuition auto using Z.divide_add_r, Z.divide_sub_r. }
    right. split; [lia|]. split; [|split; [exists A, b, B; do 3 (split; [done|]); unfold rm_base; by rewrite Hbd|split]].
    + unfold rm_boundary in Hbd. simpl in Hbd. destruct (Z.ltb_spec 1 (nswdev cfg)); [|lia].
      simpl in Hbd. apply Z.ltb_ge in Hbd.
      apply (in_stripe _ _ _ (m_addr b / dmmax cfg)); [lia|lia| |lia].
      apply Z.mul_div_le. lia.
    + intros x Hxr. apply Hfr. autorewrite with rmap. unfold in_seg. lia.
    + exists []. split; [simpl; lia|]. intros x. rewrite Hfr, in_free_nil.
      unfold free_at. rewrite Hp, (seg_cut_free 0) by (done || lia). tauto.
Qed.

(** ** Witnesses *)


(** Two free segments, [100,110) and [200,205), in an array of four slots. *)
Definition ex_slots : list mapent := [Mapent 10 100; Mapent 5 200; delim; delim].
Definition ex_st (i : mapid) : rmst := Rmst (Map i "ex" ex_slots) 1 [].
Definition ex_cfg : swapcfg := Swapcfg 2 64.

Lemma ex_inv i : rm_inv (rm_slots (ex_st i)).
Proof.
  split; [simpl; lia|]. exists [Mapent 10 100; Mapent 5 200], 1%nat.
  split; [reflexivity|simpl; lia].
Qed.

(** A swap segment that crosses the stripe boundary at 128. *)
Definition ex_swap : rmst := Rmst (Map swapmap "swap" [Mapent 40 100; delim; delim]) 0 [].

Lemma ex_swap_inv : rm_inv (rm_slots ex_swap).
Proof. split; [simpl; lia|]. exists [Mapent 40 100], 1%nat. split; [reflexivity|simpl; lia]. Qed.
Lemma ex_swap_aligned : Forall seg_aligned (seg_prefix (rm_slots ex_swap)).
Proof. repeat constructor; [exists 50|exists 20]; reflexivity. Qed.


Lemma ex_disjoint x : 150 <= x < 150 + 20 -> ~ free_at (rm_slots (ex_st kernelmap)) x.
Proof.
  intros Hx [H|[H|H]%in_free_cons]%in_free_cons; unfold in_seg in H; simpl in H; [lia|lia|].
  by apply in_free_nil in H.
Qed.

Lemma rmfree_correct_witness :
  exists st', rmfree (ex_st kernelmap) 20 150 = Ok st' /\ rm_inv (rm_slots st').
Proof.
  destruct (rmfree_correct (ex_st kernelmap) 20 150 (ex_inv _) ltac:(lia) ltac:(lia)
              ex_disjoint) as (st' & lost & H & Hi & _). exists st'. exact (conj H Hi).
Defined.

Lemma rmfree_detects_double_free_witness :
  (exists st', rmfree (ex_st othermap) 20 105 = Ok st') \/
  rmfree (ex_st othermap) 20 105 = Panic "bad rmfree".
Proof. exact (proj2 (rmfree_detects_double_free (ex_st othermap) 20 105 (ex_inv _))). Defined.

Lemma rmalloc_rmfree_roundtrip_witness :
  exists st1 st2, rmalloc ex_cfg (ex_st othermap) 10 = Ok (st1, 100) /\
    rmfree st1 10 100 = Ok st2 /\ rm_slots st2 = ex_slots.
Proof.
  eexists. destruct (rmalloc_rmfree_roundtrip ex_cfg (ex_st othermap) 10 _ 100 (ex_inv _)
    eq_refl ltac:(lia) eq_refl ltac:(lia)) as (st2 & H & E).
  exists st2. split; [reflexivity|]. exact (conj H E).
Defined.

Lemma rmget_correct_witness :
  exists st' r, rmget (ex_st othermap) 3 104 = Ok (st', r) /\ rm_inv (rm_slots st').
Proof.
  destruct (rmget_correct (ex_st othermap) 3 104 (ex_inv _) eq_refl ltac:(lia))
    as (st' & r & H & Hi & _). exists st', r. exact (conj H Hi).
Defined.

Lemma rmalloc_swap_interleave_witness :
  exists st' a, rmalloc ex_cfg ex_swap 8 = Ok (st', a) /\ rm_inv (rm_slots st').
Proof.
  destruct (rmalloc_swap_interleave ex_cfg ex_swap 8) as (st' & a & H & Hi & _).
  - exact ex_swap_inv.
  - reflexivity.
  - simpl; lia.
  - simpl; lia.
  - exists 32. reflexivity.
  - exists 4. reflexivity.
  - exact ex_swap_aligned.
  - exists st', a. exact (conj H Hi).
Defined.
