(* ===== verification/Dsort.v ===== *)
(** * Disk queue sorting: [sys/ufs/ufs_dsort.c]

    The activity queue of a drive is the chain [b_actf] / [av_forw]; it is
    modelled as the list of its requests in chain order, with [b_actl] kept
    as a separate pointer (a request's identity), as the code keeps it. *)
From S2P Require Import Prelude.

(** A request: its identity (the [struct buf *]) and [b_cylin], which is
    [b_resid]. *)
Record buf := Buf { b_id : nat; b_cylin : Z }.

Record dq := Dq { b_actf : list buf; b_actl : option nat }.

(** [insert:] puts [bp] after [ap]; the result carries [ap], for [b_actl]. *)
Definition insert_after (ap : buf) (rest : list buf) (bp : buf) : list buf * buf :=
  (ap :: bp :: rest, ap).

Definition cons_fst (ap : buf) (r : list buf * buf) : list buf * buf := (ap :: r.1, r.2).

(** The [do ... while (ap->av_forw)] in the second request list. *)
Fixpoint second_list (bp ap : buf) (rest : list buf) : list buf * buf :=
  match rest with
  | [] => insert_after ap rest bp
  | nxt :: rest' =>
      if b_cylin bp <? b_cylin nxt then insert_after ap rest bp
      else cons_fst ap (second_list bp nxt rest')
  end.

(** The search for an inversion, under [bp->b_cylin < ap->b_cylin]. *)
Fixpoint find_inversion (bp ap : buf) (rest : list buf) : list buf * buf :=
  match rest with
  | [] => insert_after ap rest bp
  | nxt :: rest' =>
      if b_cylin nxt <? b_cylin ap then second_list bp ap rest
      else cons_fst ap (find_inversion bp nxt rest')
  end.

(** The walk of the first request list. *)
Fixpoint first_list (bp ap : buf) (rest : list buf) : list buf * buf :=
  match rest with
  | [] => insert_after ap rest bp
  | nxt :: rest' =>
      if (b_cylin nxt <? b_cylin ap) || (b_cylin bp <? b_cylin nxt)
      then insert_after ap rest bp
      else cons_fst ap (first_list bp nxt rest')
  end.

Definition disksort (dp : dq) (bp : buf) : dq :=
  match b_actf dp with
  | [] => Dq [bp] (Some (b_id bp))
  | ap :: rest =>
      let r := if b_cylin bp <? b_cylin ap
               then find_inversion bp ap rest
               else first_list bp ap rest in
      Dq r.1 (if decide (Some (b_id r.2) = b_actl dp) then Some (b_id bp) else b_actl dp)
  end.

(** ** The one-way scan: two ascending runs, the second below the first *)

Fixpoint ascending (lo : Z) (l : list buf) : Prop :=
  match l with
  | [] => True
  | b :: r => lo <= b_cylin b /\ ascending (b_cylin b) r
  end.

(** [q] is [first ++ second], both ascending; the active request is the head
    of [first], and everything in [second] lies before it. *)
Definition two_runs (q : list buf) : Prop :=
  exists h first second, q = h :: first ++ second /\
    ascending (b_cylin h) first /\
    match second with [] => True | s :: r => ascending (b_cylin s) r end /\
    Forall (fun s => b_cylin s < b_cylin h) second.

Definition last_id (q : list buf) : option nat := b_id <$> last q.

Definition dq_inv (d : dq) : Prop :=
  NoDup (b_id <$> b_actf d) /\ b_actl d = last_id (b_actf d) /\
  (b_actf d = [] \/ two_runs (b_actf d)).

(** Where the new request goes, as a split of the chain. *)
Definition put_at (bp : buf) (l : list buf) (r : list buf * buf) : Prop :=
  exists A B, l = A ++ r.2 :: B /\ r.1 = A ++ r.2 :: bp :: B.

Lemma put_at_cons bp ap l r : put_at bp l r -> put_at bp (ap :: l) (cons_fst ap r).
Proof. intros (A & B & -> & E). exists (ap :: A), B. unfold cons_fst. simpl. by rewrite E. Qed.

Lemma put_at_here bp ap rest : put_at bp (ap :: rest) (insert_after ap rest bp).
Proof. by exists [], rest. Qed.

Create HintDb dsort.
#[export] Hint Resolve put_at_cons put_at_here : dsort.

Lemma second_list_put bp ap rest : put_at bp (ap :: rest) (second_list bp ap rest).
Proof. revert ap. induction rest; intros; simpl; [|case_match]; auto with dsort. Qed.

Lemma find_inversion_put bp ap rest : put_at bp (ap :: rest) (find_inversion bp ap rest).
Proof.
  revert ap. induction rest; intros; simpl; [|case_match]; auto using second_list_put with dsort.
Qed.

Lemma first_list_put bp ap rest : put_at bp (ap :: rest) (first_list bp ap rest).
Proof. revert ap. induction rest; intros; simpl; [|case_match]; auto with dsort. Qed.

(** *** Order *)

Lemma ascending_weaken lo lo' l : ascending lo l -> lo' <= lo -> ascending lo' l.
Proof. destruct l; simpl; intuition lia. Qed.

Lemma ascending_Forall lo l : ascending lo l -> Forall (fun b => lo <= b_cylin b) l.
Proof.
  revert lo. induction l as [|b l IH]; intros lo; [constructor|]. intros [H Hl].
  constructor; [done|]. eapply Forall_impl; [by apply IH|]. simpl. lia.
Qed.

Lemma first_list_ordered bp h first second :
  ascending (b_cylin h) first -> b_cylin h <= b_cylin bp ->
  Forall (fun s => b_cylin s < b_cylin h) second ->
  exists first', (first_list bp h (first ++ second)).1 = h :: first' ++ second /\
    ascending (b_cylin h) first'.
Proof.
  revert h. induction first as [|f first IH]; intros h Hasc Hle Hsec; simpl.
  - destruct second as [|s second]; simpl; [exists [bp]; simpl; auto|].
    apply Forall_cons in Hsec as [Hs _]. destruct (Z.ltb_spec (b_cylin s) (b_cylin h)); [|lia].
    exists [bp]. simpl. auto.
  - destruct Hasc as [Hf Hasc]. destruct (Z.ltb_spec (b_cylin f) (b_cylin h)); [lia|]. simpl.
    destruct (Z.ltb_spec (b_cylin bp) (b_cylin f)); simpl.
    + exists (bp :: f :: first). simpl. intuition lia.
    + destruct (IH f) as (first' & -> & ?); [done|done| |].
      { eapply Forall_impl; [done|]. simpl. lia. }
      exists (f :: first'). simpl. auto.
Qed.

Lemma second_list_ordered bp ap l :
  ascending (b_cylin ap) l -> b_cylin ap <= b_cylin bp ->
  exists l', (second_list bp ap l).1 = ap :: l' /\ ascending (b_cylin ap) l' /\
    (forall P : buf -> Prop, P bp -> Forall P l -> Forall P l').
Proof.
  revert ap. induction l as [|n l IH]; intros ap Hasc Hle; simpl.
  - exists [bp]. simpl. auto using Forall_cons_2, Forall_nil.
  - destruct Hasc as [Hn Hasc]. destruct (Z.ltb_spec (b_cylin bp) (b_cylin n)); simpl.
    + exists (bp :: n :: l). split; [done|]. split; [simpl; intuition lia|]. auto.
    + destruct (IH n Hasc) as (l' & -> & ? & HP); [lia|]. exists (n :: l'). split; [done|].
      split; [done|]. intros P ? [??]%Forall_cons. auto.
Qed.

Lemma find_inversion_ordered bp h first second :
  ascending (b_cylin h) first -> b_cylin bp < b_cylin h ->
  match second with [] => True | s :: r => ascending (b_cylin s) r end ->
  Forall (fun s => b_cylin s < b_cylin h) second ->
  exists second', (find_inversion bp h (first ++ second)).1 = h :: first ++ second' /\
    match second' with [] => True | s :: r => ascending (b_cylin s) r end /\
    (forall P : buf -> Prop, P bp -> Forall P second -> Forall P second').
Proof.
  revert h. induction first as [|f first IH]; intros h Hasc Hlt Hsec Hlow; simpl.
  - destruct second as [|s second]; simpl; [exists [bp]; auto|].
    pose proof Hlow as [Hs _]%Forall_cons.
    destruct (Z.ltb_spec (b_cylin s) (b_cylin h)); [|lia].
    destruct (Z.ltb_spec (b_cylin bp) (b_cylin s)); simpl.
    + exists (bp :: s :: second). split; [done|]. split; [simpl; intuition lia|]. auto.
    + destruct (second_list_ordered bp s second Hsec) as (l' & -> & ? & HP); [lia|].
      exists (s :: l'). split; [done|]. split; [done|]. intros P ? [??]%Forall_cons. auto.
  - destruct Hasc as [Hf Hasc]. destruct (Z.ltb_spec (b_cylin f) (b_cylin h)); [lia|]. simpl.
    destruct (IH f) as (second' & -> & ? & ?); [done|lia|done| |].
    { eapply Forall_impl; [done|]. simpl. lia. }
    by exists second'.
Qed.

(** C39: [disksort] keeps the queue a one-way scan.  On a queue made of an
    ascending run that starts at the active request followed by an ascending
    run of requests before it, with [b_actl] at the last request, the result
    is such a queue again, [b_actl] is its last request, the active request is
    still at the head, and the requests are the old ones and the new one. *)
Theorem disksort_one_way_scan dp bp :
  dq_inv dp -> b_id bp ∉ (b_id <$> b_actf dp) ->
  dq_inv (disksort dp bp) /\
  b_actf (disksort dp bp) ≡ₚ bp :: b_actf dp /\
  match b_actf dp with
  | [] => True
  | h :: _ => head (b_actf (disksort dp bp)) = Some h
  end.
Proof.
  intros (Hnd & Hl & Hq) Hfresh. unfold disksort.
  destruct (b_actf dp) as [|ap rest] eqn:Hf.
  { split; [|done]. split; [simpl; by apply NoDup_singleton|]. split; [done|]. right.
    exists bp, [], []. simpl. split_and!; auto using Forall_nil. }
  destruct Hq as [Hq|(h & first & second & [= -> ->] & Hfst & Hsnd & Hlow)]; [done|].
  set (r := if b_cylin bp <? b_cylin h then _ else _).
  assert (Hput : put_at bp (h :: first ++ second) r).
  { unfold r. destruct (_ <? _); [apply find_inversion_put|apply first_list_put]. }
  assert (Hhd : two_runs r.1 /\ head r.1 = Some h).
  { unfold r. destruct (Z.ltb_spec (b_cylin bp) (b_cylin h)).
    - destruct (find_inversion_ordered bp h first second) as (sec' & -> & ? & HP); [done..|].
      split; [|done]. exists h, first, sec'. auto.
    - destruct (first_list_ordered bp h first second) as (fst' & -> & ?); [done..|].
      split; [|done]. exists h, fst', second. auto. }
  destruct Hhd as [Hruns Hhead]. destruct Hput as (A & B & HAB & Hr). simpl.
  assert (Hperm : r.1 ≡ₚ bp :: h :: first ++ second).
  { rewrite Hr, HAB. change (r.2 :: bp :: B) with ([r.2] ++ bp :: B).
    change (r.2 :: B) with ([r.2] ++ B). rewrite !app_assoc. symmetry. apply Permutation_middle. }
  assert (Hnd' : NoDup (b_id <$> r.1)).
  { rewrite Hperm. apply NoDup_cons. by split. }
  split; [|done]. split; [done|]. split; [|by right].
  rewrite Hl. unfold last_id. rewrite HAB, Hr, !last_app_cons.
  destruct (exists_last_or_nil B) as [->|(B' & b & ->)]; simpl.
  - by rewrite decide_True, last_app_cons.
  - change (r.2 :: bp :: B' ++ [b]) with ((r.2 :: bp :: B') ++ [b]).
    rewrite app_assoc, app_comm_cons, !last_snoc. simpl.
    rewrite decide_False; [done|]. intros [= Hid]. rewrite HAB in Hnd.
    rewrite fmap_app in Hnd. simpl in Hnd. apply NoDup_app in Hnd as (_ & _ & Hnd).
    apply NoDup_cons in Hnd as [Hnd _]. apply Hnd. fold (fmap b_id (B' ++ [b])).
    rewrite fmap_app, Hid. apply elem_of_app. right. by apply list_elem_of_singleton.
Qed.

(** *** A witness *)

Definition ex_dq : dq := Dq [Buf 1 10; Buf 2 30; Buf 3 5] (Some 3%nat).

Lemma ex_dq_inv : dq_inv ex_dq.
Proof.
  split; [by_compute|]. split; [done|]. right.
  exists (Buf 1 10), [Buf 2 30], [Buf 3 5]. simpl. repeat constructor; simpl; lia.
Qed.

Lemma disksort_one_way_scan_witness :
  dq_inv (disksort ex_dq (Buf 4 7)) /\
  b_actf (disksort ex_dq (Buf 4 7)) = [Buf 1 10; Buf 2 30; Buf 3 5; Buf 4 7].
Proof.
  split; [|reflexivity].
  refine (proj1 (disksort_one_way_scan ex_dq (Buf 4 7) ex_dq_inv _)). by_compute.
Defined.
