(* ===== verification/Fragmap.v ===== *)
(** * Fragment maps: [sys/ufs/ufs_subr.c], [sys/ufs/ufs_tables.c]

    The free map of a cylinder group has one bit per fragment; a block is an
    aligned group of [fs_frag] (1, 2, 4 or 8) of them.  This file has the block
    operations on the map, the tables and the fragment accounting, and their
    meaning: [runs] counts the maximal free runs of a block, and the theorems
    say that the tables and [fragacct] compute exactly that. *)
From S2P Require Import Prelude.

Definition NBBY : Z := 8.
Definition MAXFRAG : Z := 8.

(** ** Tables *)

Definition around : list Z :=
  [0x3; 0x7; 0xf; 0x1f; 0x3f; 0x7f; 0xff; 0x1ff; 0x3ff].

Definition inside : list Z :=
  [0x0; 0x2; 0x6; 0xe; 0x1e; 0x3e; 0x7e; 0xfe; 0x1fe].

Definition fragtbl124 : list Z :=
  [0x00; 0x16; 0x16; 0x2a; 0x16; 0x16; 0x26; 0x4e;
   0x16; 0x16; 0x16; 0x3e; 0x2a; 0x3e; 0x4e; 0x8a;
   0x16; 0x16; 0x16; 0x3e; 0x16; 0x16; 0x36; 0x5e;
   0x16; 0x16; 0x16; 0x3e; 0x3e; 0x3e; 0x5e; 0x9e;
   0x16; 0x16; 0x16; 0x3e; 0x16; 0x16; 0x36; 0x5e;
   0x16; 0x16; 0x16; 0x3e; 0x3e; 0x3e; 0x5e; 0x9e;
   0x2a; 0x3e; 0x3e; 0x2a; 0x3e; 0x3e; 0x2e; 0x6e;
   0x3e; 0x3e; 0x3e; 0x3e; 0x2a; 0x3e; 0x6e; 0xaa;
   0x16; 0x16; 0x16; 0x3e; 0x16; 0x16; 0x36; 0x5e;
   0x16; 0x16; 0x16; 0x3e; 0x3e; 0x3e; 0x5e; 0x9e;
   0x16; 0x16; 0x16; 0x3e; 0x16; 0x16; 0x36; 0x5e;
   0x16; 0x16; 0x16; 0x3e; 0x3e; 0x3e; 0x5e; 0x9e;
   0x26; 0x36; 0x36; 0x2e; 0x36; 0x36; 0x26; 0x6e;
   0x36; 0x36; 0x36; 0x3e; 0x2e; 0x3e; 0x6e; 0xae;
   0x4e; 0x5e; 0x5e; 0x6e; 0x5e; 0x5e; 0x6e; 0x4e;
   0x5e; 0x5e; 0x5e; 0x7e; 0x6e; 0x7e; 0x4e; 0xce;
   0x16; 0x16; 0x16; 0x3e; 0x16; 0x16; 0x36; 0x5e;
   0x16; 0x16; 0x16; 0x3e; 0x3e; 0x3e; 0x5e; 0x9e;
   0x16; 0x16; 0x16; 0x3e; 0x16; 0x16; 0x36; 0x5e;
   0x16; 0x16; 0x16; 0x3e; 0x3e; 0x3e; 0x5e; 0x9e;
   0x16; 0x16; 0x16; 0x3e; 0x16; 0x16; 0x36; 0x5e;
   0x16; 0x16; 0x16; 0x3e; 0x3e; 0x3e; 0x5e; 0x9e;
   0x3e; 0x3e; 0x3e; 0x3e; 0x3e; 0x3e; 0x3e; 0x7e;
   0x3e; 0x3e; 0x3e; 0x3e; 0x3e; 0x3e; 0x7e; 0xbe;
   0x2a; 0x3e; 0x3e; 0x2a; 0x3e; 0x3e; 0x2e; 0x6e;
   0x3e; 0x3e; 0x3e; 0x3e; 0x2a; 0x3e; 0x6e; 0xaa;
   0x3e; 0x3e; 0x3e; 0x3e; 0x3e; 0x3e; 0x3e; 0x7e;
   0x3e; 0x3e; 0x3e; 0x3e; 0x3e; 0x3e; 0x7e; 0xbe;
   0x4e; 0x5e; 0x5e; 0x6e; 0x5e; 0x5e; 0x6e; 0x4e;
   0x5e; 0x5e; 0x5e; 0x7e; 0x6e; 0x7e; 0x4e; 0xce;
   0x8a; 0x9e; 0x9e; 0xaa; 0x9e; 0x9e; 0xae; 0xce;
   0x9e; 0x9e; 0x9e; 0xbe; 0xaa; 0xbe; 0xce; 0x8a].

Definition fragtbl8 : list Z :=
  [0x00; 0x01; 0x01; 0x02; 0x01; 0x01; 0x02; 0x04;
   0x01; 0x01; 0x01; 0x03; 0x02; 0x03; 0x04; 0x08;
   0x01; 0x01; 0x01; 0x03; 0x01; 0x01; 0x03; 0x05;
   0x02; 0x03; 0x03; 0x02; 0x04; 0x05; 0x08; 0x10;
   0x01; 0x01; 0x01; 0x03; 0x01; 0x01; 0x03; 0x05;
   0x01; 0x01; 0x01; 0x03; 0x03; 0x03; 0x05; 0x09;
   0x02; 0x03; 0x03; 0x02; 0x03; 0x03; 0x02; 0x06;
   0x04; 0x05; 0x05; 0x06; 0x08; 0x09; 0x10; 0x20;
   0x01; 0x01; 0x01; 0x03; 0x01; 0x01; 0x03; 0x05;
   0x01; 0x01; 0x01; 0x03; 0x03; 0x03; 0x05; 0x09;
   0x01; 0x01; 0x01; 0x03; 0x01; 0x01; 0x03; 0x05;
   0x03; 0x03; 0x03; 0x03; 0x05; 0x05; 0x09; 0x11;
   0x02; 0x03; 0x03; 0x02; 0x03; 0x03; 0x02; 0x06;
   0x03; 0x03; 0x03; 0x03; 0x02; 0x03; 0x06; 0x0a;
   0x04; 0x05; 0x05; 0x06; 0x05; 0x05; 0x06; 0x04;
   0x08; 0x09; 0x09; 0x0a; 0x10; 0x11; 0x20; 0x40;
   0x01; 0x01; 0x01; 0x03; 0x01; 0x01; 0x03; 0x05;
   0x01; 0x01; 0x01; 0x03; 0x03; 0x03; 0x05; 0x09;
   0x01; 0x01; 0x01; 0x03; 0x01; 0x01; 0x03; 0x05;
   0x03; 0x03; 0x03; 0x03; 0x05; 0x05; 0x09; 0x11;
   0x01; 0x01; 0x01; 0x03; 0x01; 0x01; 0x03; 0x05;
   0x01; 0x01; 0x01; 0x03; 0x03; 0x03; 0x05; 0x09;
   0x03; 0x03; 0x03; 0x03; 0x03; 0x03; 0x03; 0x07;
   0x05; 0x05; 0x05; 0x07; 0x09; 0x09; 0x11; 0x21;
   0x02; 0x03; 0x03; 0x02; 0x03; 0x03; 0x02; 0x06;
   0x03; 0x03; 0x03; 0x03; 0x02; 0x03; 0x06; 0x0a;
   0x03; 0x03; 0x03; 0x03; 0x03; 0x03; 0x03; 0x07;
   0x02; 0x03; 0x03; 0x02; 0x06; 0x07; 0x0a; 0x12;
   0x04; 0x05; 0x05; 0x06; 0x05; 0x05; 0x06; 0x04;
   0x05; 0x05; 0x05; 0x07; 0x06; 0x07; 0x04; 0x0c;
   0x08; 0x09; 0x09; 0x0a; 0x09; 0x09; 0x0a; 0x0c;
   0x10; 0x11; 0x11; 0x12; 0x20; 0x21; 0x40; 0x80].

(** The null pointers of the array are [None]. *)
Definition fragtbl : list (option (list Z)) :=
  [None; Some fragtbl124; Some fragtbl124; None; Some fragtbl124; None; None; None;
   Some fragtbl8].

Definition fragtbl_of (frag : Z) : outcome (list Z) :=
  let* t := aget fragtbl frag in deref t.

(** ** [fragacct] *)

(** The [pos] loop; [fuel] bounds its iterations ([pos] grows each time). *)
Fixpoint fragacct_pos (fuel : nat) (frag siz cnt pos field subfield fragmap : Z)
    (fraglist : list Z) : outcome (list Z) :=
  match fuel with
  | O => Fault
  | S fuel =>
      if frag <? pos then Ok fraglist
      else if Z.land fragmap field =? subfield then
        let* fraglist := aupd fraglist siz (fun n => n + cnt) in
        fragacct_pos fuel frag siz cnt (pos + siz + 1)
          (Z.shiftl (Z.shiftl field siz) 1) (Z.shiftl (Z.shiftl subfield siz) 1)
          fragmap fraglist
      else
        fragacct_pos fuel frag siz cnt (pos + 1) (Z.shiftl field 1) (Z.shiftl subfield 1)
          fragmap fraglist
  end.

(** The [siz] loop over [siz .. frag-1], [n] iterations. *)
Fixpoint fragacct_siz (n : nat) (frag cnt siz inblk fragmap : Z) (fraglist : list Z)
    : outcome (list Z) :=
  match n with
  | O => Ok fraglist
  | S n =>
      if Z.land inblk (Z.shiftl 1 (siz + frag mod NBBY)) =? 0
      then fragacct_siz n frag cnt (siz + 1) inblk fragmap fraglist
      else
        let* field := aget around siz in
        let* subfield := aget inside siz in
        let* fraglist :=
          fragacct_pos (Z.to_nat (frag + 2)) frag siz cnt siz field subfield fragmap fraglist in
        fragacct_siz n frag cnt (siz + 1) inblk fragmap fraglist
  end.

Definition fragacct (frag fragmap : Z) (fraglist : list Z) (cnt : Z) : outcome (list Z) :=
  let* tbl := fragtbl_of frag in
  let* inblk := aget tbl fragmap in
  fragacct_siz (Z.to_nat (frag - 1)) frag cnt 1 (Z.shiftl inblk 1) (Z.shiftl fragmap 1)
    fraglist.

(** ** Block operations on the map [cp] (bytes) *)

Definition badblock (fs_size bn : Z) : bool := fs_size <=? u32 bn.

Definition isblock (frag : Z) (cp : list Z) (h : Z) : outcome bool :=
  if frag =? 8 then let* b := aget cp h in Ok (b =? 0xff)
  else if frag =? 4 then
    let mask := u8 (Z.shiftl 0x0f (Z.shiftl (Z.land h 0x1) 2)) in
    let* b := aget cp (Z.shiftr h 1) in Ok (Z.land b mask =? mask)
  else if frag =? 2 then
    let mask := u8 (Z.shiftl 0x03 (Z.shiftl (Z.land h 0x3) 1)) in
    let* b := aget cp (Z.shiftr h 2) in Ok (Z.land b mask =? mask)
  else if frag =? 1 then
    let mask := u8 (Z.shiftl 0x01 (Z.land h 0x7)) in
    let* b := aget cp (Z.shiftr h 3) in Ok (Z.land b mask =? mask)
  else Panic "isblock".

Definition clrblock (frag : Z) (cp : list Z) (h : Z) : outcome (list Z) :=
  if frag =? 8 then aset cp h 0
  else if frag =? 4 then
    aupd cp (Z.shiftr h 1)
      (fun b => Z.land b (Z.lnot (Z.shiftl 0x0f (Z.shiftl (Z.land h 0x1) 2))))
  else if frag =? 2 then
    aupd cp (Z.shiftr h 2)
      (fun b => Z.land b (Z.lnot (Z.shiftl 0x03 (Z.shiftl (Z.land h 0x3) 1))))
  else if frag =? 1 then
    aupd cp (Z.shiftr h 3) (fun b => Z.land b (Z.lnot (Z.shiftl 0x01 (Z.land h 0x7))))
  else Panic "clrblock".

Definition setblock (frag : Z) (cp : list Z) (h : Z) : outcome (list Z) :=
  if frag =? 8 then aset cp h 0xff
  else if frag =? 4 then
    aupd cp (Z.shiftr h 1) (fun b => Z.lor b (Z.shiftl 0x0f (Z.shiftl (Z.land h 0x1) 2)))
  else if frag =? 2 then
    aupd cp (Z.shiftr h 2) (fun b => Z.lor b (Z.shiftl 0x03 (Z.shiftl (Z.land h 0x3) 1)))
  else if frag =? 1 then
    aupd cp (Z.shiftr h 3) (fun b => Z.lor b (Z.shiftl 0x01 (Z.land h 0x7)))
  else Panic "setblock".

(** The bit macros of [sys/h/param.h]. *)
Definition setbit (a : list Z) (i : Z) : outcome (list Z) :=
  aupd a (i / NBBY) (fun b => Z.lor b (Z.shiftl 1 (i mod NBBY))).

Definition clrbit (a : list Z) (i : Z) : outcome (list Z) :=
  aupd a (i / NBBY) (fun b => Z.land b (Z.lnot (Z.shiftl 1 (i mod NBBY)))).

Definition isset (a : list Z) (i : Z) : outcome bool :=
  let* b := aget a (i / NBBY) in Ok (nz (Z.land b (Z.shiftl 1 (i mod NBBY)))).

Definition isclr (a : list Z) (i : Z) : outcome bool :=
  let* b := aget a (i / NBBY) in Ok (Z.land b (Z.shiftl 1 (i mod NBBY)) =? 0).

(** [blkmap] of [sys/ufs/fs.h]: the bits of the block at [loc]. *)
Definition blkmap (frag : Z) (map : list Z) (loc : Z) : outcome Z :=
  let* b := aget map (loc / NBBY) in
  Ok (Z.land (Z.shiftr b (loc mod NBBY)) (Z.shiftr 0xff (NBBY - frag))).

(** [scanc]: the bytes left from the first one whose table entry meets [mask]. *)
Fixpoint scanc (size : nat) (cp table : list Z) (mask : Z) : outcome Z :=
  match size with
  | O => Ok 0
  | S size' =>
      match cp with
      | [] => Fault
      | c :: cp' =>
          let* t := aget table c in
          if Z.land t mask =? 0 then scanc size' cp' table mask else Ok (Z.of_nat size)
      end
  end.

(** ** Meaning: the bits of a block *)

Definition frag_ok (frag : Z) : Prop := frag = 1 \/ frag = 2 \/ frag = 4 \/ frag = 8.

Definition blk_full (frag : Z) : Z := 2 ^ frag - 1.

(** Blocks per byte of the map, and the block number [q] of a byte. *)
Definition per_byte (frag : Z) : Z := NBBY / frag.

Definition byte_blk (frag b q : Z) : Z := Z.land (Z.shiftr b (q * frag)) (blk_full frag).

Definition byte_at (map : list Z) (j : Z) : Z := default 0 (map !! Z.to_nat j).

(** The bits of block [h]. *)
Definition blkval (frag : Z) (map : list Z) (h : Z) : Z :=
  byte_blk frag (byte_at map (h / per_byte frag)) (h mod per_byte frag).

Definition map_ok (map : list Z) : Prop := Forall (fun b => 0 <= b < 256) map.

(** Block [h] lies in the map. *)
Definition blk_in (frag : Z) (map : list Z) (h : Z) : Prop :=
  0 <= h < Z.of_nat (length map) * per_byte frag.

(** *** Byte-level facts, by evaluation over all bytes *)

Definition bmask (frag q : Z) : Z := Z.shiftl (blk_full frag) (q * frag).

Definition check_frag (p : Z -> bool) : bool := forallb p [1; 2; 4; 8].

Lemma check_frag_elim p frag : check_frag p = true -> frag_ok frag -> p frag = true.
Proof.
  unfold check_frag. simpl. intros H. bsimp. by intros [-> | [-> | [-> | ->] ] ].
Qed.

(** A check over every fragment size, every byte and [n] further values. *)
Definition check_bytes (n : Z -> Z) (p : Z -> Z -> Z -> bool) : bool :=
  check_frag (fun frag => forall_range 0 256 (fun b => forall_range 0 (n frag) (p frag b))).

Lemma check_bytes_elim n p frag b q :
  check_bytes n p = true -> frag_ok frag -> 0 <= b < 256 -> 0 <= q < n frag ->
  p frag b q = true.
Proof.
  unfold check_bytes. intros H Hf Hb Hq. apply check_frag_elim with (frag := frag) in H; [|done].
  apply forall_range_elim with (x := b) in H; [|lia].
  apply forall_range_elim with (x := q) in H; [done|lia].
Qed.

Definition block_ops_p (frag b q : Z) : bool :=
  Bool.eqb (Z.land b (bmask frag q) =? bmask frag q) (byte_blk frag b q =? blk_full frag)
  && (0 <=? Z.lor b (bmask frag q)) && (Z.lor b (bmask frag q) <? 256)
  && (0 <=? Z.land b (Z.lnot (bmask frag q))) && (Z.land b (Z.lnot (bmask frag q)) <? 256)
  && forall_range 0 (per_byte frag) (fun q' =>
       (byte_blk frag (Z.lor b (bmask frag q)) q'
        =? (if q' =? q then blk_full frag else byte_blk frag b q'))
       && (byte_blk frag (Z.land b (Z.lnot (bmask frag q))) q'
           =? (if q' =? q then 0 else byte_blk frag b q'))).

Lemma block_ops_checked : check_bytes per_byte block_ops_p = true.
Proof. vm_compute. reflexivity. Qed.

Definition bit_ops_p (frag b p : Z) : bool :=
  let set := Z.lor b (Z.shiftl 1 p) in
  let clr := Z.land b (Z.lnot (Z.shiftl 1 p)) in
  Bool.eqb (nz (Z.land b (Z.shiftl 1 p))) (Z.testbit (byte_blk frag b (p / frag)) (p mod frag))
  && (0 <=? set) && (set <? 256) && (0 <=? clr) && (clr <? 256)
  && forall_range 0 (per_byte frag) (fun q' =>
       (byte_blk frag set q'
        =? (if q' =? p / frag then Z.lor (byte_blk frag b q') (Z.shiftl 1 (p mod frag))
            else byte_blk frag b q'))
       && (byte_blk frag clr q'
           =? (if q' =? p / frag
               then Z.land (byte_blk frag b q') (Z.lnot (Z.shiftl 1 (p mod frag)))
               else byte_blk frag b q'))).

Lemma bit_ops_checked : check_bytes (fun _ => 8) bit_ops_p = true.
Proof. vm_compute. reflexivity. Qed.

Lemma block_ops_byte frag b q :
  frag_ok frag -> 0 <= b < 256 -> 0 <= q < per_byte frag ->
  (Z.land b (bmask frag q) =? bmask frag q) = (byte_blk frag b q =? blk_full frag) /\
  0 <= Z.lor b (bmask frag q) < 256 /\ 0 <= Z.land b (Z.lnot (bmask frag q)) < 256 /\
  forall q', 0 <= q' < per_byte frag ->
    byte_blk frag (Z.lor b (bmask frag q)) q'
      = (if q' =? q then blk_full frag else byte_blk frag b q') /\
    byte_blk frag (Z.land b (Z.lnot (bmask frag q))) q'
      = (if q' =? q then 0 else byte_blk frag b q').
Proof.
  intros Hf Hb Hq. pose proof (check_bytes_elim _ _ frag b q block_ops_checked Hf Hb Hq) as H.
  unfold block_ops_p in H.
  apply andb_true_iff in H as [H Hall]. bsimp.
  split; [by apply Bool.eqb_prop|]. split; [lia|]. split; [lia|].
  intros q' Hq'. eapply forall_range_elim in Hall; [|exact Hq']. bsimp. auto.
Qed.

Lemma bit_ops_byte frag b p :
  frag_ok frag -> 0 <= b < 256 -> 0 <= p < 8 ->
  nz (Z.land b (Z.shiftl 1 p)) = Z.testbit (byte_blk frag b (p / frag)) (p mod frag) /\
  0 <= Z.lor b (Z.shiftl 1 p) < 256 /\ 0 <= Z.land b (Z.lnot (Z.shiftl 1 p)) < 256 /\
  forall q', 0 <= q' < per_byte frag ->
    byte_blk frag (Z.lor b (Z.shiftl 1 p)) q'
      = (if q' =? p / frag then Z.lor (byte_blk frag b q') (Z.shiftl 1 (p mod frag))
         else byte_blk frag b q') /\
    byte_blk frag (Z.land b (Z.lnot (Z.shiftl 1 p))) q'
      = (if q' =? p / frag then Z.land (byte_blk frag b q') (Z.lnot (Z.shiftl 1 (p mod frag)))
         else byte_blk frag b q').
Proof.
  intros Hf Hb Hp. pose proof (check_bytes_elim _ _ frag b p bit_ops_checked Hf Hb Hp) as H.
  unfold bit_ops_p in H. cbv zeta in H. apply andb_true_iff in H as [H Hall]. bsimp.
  split; [by apply Bool.eqb_prop|]. split; [lia|]. split; [lia|].
  intros q' Hq'. eapply forall_range_elim in Hall; [|exact Hq']. bsimp. auto.
Qed.

(** *** From bytes to the map *)

Lemma byte_at_insert map j j' b :
  0 <= j < Z.of_nat (length map) -> 0 <= j' ->
  byte_at (<[Z.to_nat j := b]> map) j' = if j' =? j then b else byte_at map j'.
Proof.
  intros Hj Hj'. unfold byte_at. destruct (Z.eqb_spec j' j) as [->|Hne].
  - rewrite list_lookup_insert_eq by lia. done.
  - rewrite list_lookup_insert_ne by lia. done.
Qed.

Lemma byte_at_ok map j : map_ok map -> 0 <= byte_at map j < 256.
Proof.
  intros H. unfold byte_at. destruct (map !! Z.to_nat j) eqn:E; simpl; [|lia].
  by apply (Forall_lookup_1 _ _ _ _ H E).
Qed.

Lemma aget_byte map j : 0 <= j < Z.of_nat (length map) -> aget map j = Ok (byte_at map j).
Proof.
  intros Hj. destruct (aget_range map j Hj) as [x Hx]. rewrite Hx.
  apply aget_inv in Hx as [_ Hx]. unfold byte_at. by rewrite Hx.
Qed.

Lemma aupd_byte map j f : 0 <= j < Z.of_nat (length map) ->
  aupd map j f = Ok (<[Z.to_nat j := f (byte_at map j)]> map).
Proof. intros Hj. unfold aupd. rewrite aget_byte by done. simpl. by apply aset_ok. Qed.

Lemma map_ok_insert map j b : map_ok map -> 0 <= b < 256 -> map_ok (<[j := b]> map).
Proof. intros. by apply Forall_insert. Qed.

Lemma per_byte_pos frag : frag_ok frag -> 0 < per_byte frag /\ per_byte frag * frag = 8.
Proof. intros [-> | [-> | [-> | ->] ] ]; done. Qed.

Lemma blk_in_byte frag map h : frag_ok frag -> blk_in frag map h ->
  0 <= h / per_byte frag < Z.of_nat (length map) /\ 0 <= h mod per_byte frag < per_byte frag.
Proof.
  intros Hf [H0 H1]. destruct (per_byte_pos frag Hf) as [Hp _].
  split; [split; [by apply Z.div_pos|by apply Z.div_lt_upper_bound; lia]|].
  by apply Z.mod_pos_bound.
Qed.

(** Changing one byte changes the blocks of that byte only. *)
Lemma blkval_insert frag map j b h :
  frag_ok frag -> 0 <= j < Z.of_nat (length map) -> 0 <= h ->
  blkval frag (<[Z.to_nat j := b]> map) h
  = if h / per_byte frag =? j then byte_blk frag b (h mod per_byte frag) else blkval frag map h.
Proof.
  intros Hf Hj Hh. destruct (per_byte_pos frag Hf). unfold blkval.
  rewrite byte_at_insert by (done || by apply Z.div_pos). by destruct (_ =? j).
Qed.

Lemma div_mod_eqb h h' p : 0 < p ->
  (h' =? h) = (h' / p =? h / p) && (h' mod p =? h mod p).
Proof.
  intros Hp. pose proof (Z.div_mod h p). pose proof (Z.div_mod h' p).
  destruct (Z.eqb_spec h' h) as [->|Hne]; [by rewrite !Z.eqb_refl|].
  destruct (Z.eqb_spec (h' / p) (h / p)), (Z.eqb_spec (h' mod p) (h mod p)); try done. nia.
Qed.

(** The masks the code writes for the four fragment sizes. *)
Definition mask_p (q : Z) : bool :=
  (if q <? 8 then (Z.shiftl 1 q =? bmask 1 q) && (u8 (Z.shiftl 1 q) =? bmask 1 q) else true)
  && (if q <? 4 then (Z.shiftl 3 (Z.shiftl q 1) =? bmask 2 q)
                     && (u8 (Z.shiftl 3 (Z.shiftl q 1)) =? bmask 2 q) else true)
  && (if q <? 2 then (Z.shiftl 15 (Z.shiftl q 2) =? bmask 4 q)
                     && (u8 (Z.shiftl 15 (Z.shiftl q 2)) =? bmask 4 q) else true).

Lemma mask_checked : forall_range 0 8 mask_p = true.
Proof. vm_compute. reflexivity. Qed.

Definition byte255_p (b : Z) : bool :=
  Bool.eqb (Z.land b (bmask 8 0) =? bmask 8 0) (b =? 0xff)
  && (Z.lor b (bmask 8 0) =? 0xff) && (Z.land b (Z.lnot (bmask 8 0)) =? 0).

Lemma byte255_checked : forall_range 0 256 byte255_p = true.
Proof. vm_compute. reflexivity. Qed.

Lemma land_ones_mod a n k : 0 <= n -> k = Z.ones n -> Z.land a k = a mod 2 ^ n.
Proof. intros ? ->. by apply Z.land_ones. Qed.

(** The block operations in one form for all fragment sizes. *)
Lemma block_ops_norm frag map h :
  frag_ok frag -> map_ok map -> blk_in frag map h ->
  let j := h / per_byte frag in let m := bmask frag (h mod per_byte frag) in
  isblock frag map h = Ok (Z.land (byte_at map j) m =? m) /\
  setblock frag map h = Ok (<[Z.to_nat j := Z.lor (byte_at map j) m]> map) /\
  clrblock frag map h = Ok (<[Z.to_nat j := Z.land (byte_at map j) (Z.lnot m)]> map).
Proof.
  intros Hf Hm Hin j m. destruct (blk_in_byte frag map h Hf Hin) as [Hj Hq].
  pose proof (byte_at_ok map j Hm) as Hb. unfold j, m in *. clear j m.
  destruct (per_byte_pos frag Hf) as [_ Hper].
  assert (Hq8 : 0 <= h mod per_byte frag < 0 + 8)
    by (destruct Hf as [-> | [-> | [-> | ->] ] ]; lia).
  pose proof (forall_range_elim _ _ _ _ mask_checked Hq8) as HM. unfold mask_p in HM.
  destruct Hf as [-> | [-> | [-> | ->] ] ]; unfold isblock, setblock, clrblock; simpl Z.eqb; cbv iota;
    change (per_byte 1) with 8 in *; change (per_byte 2) with 4 in *;
    change (per_byte 4) with 2 in *; change (per_byte 8) with 1 in *.
  - rewrite (land_ones_mod h 3), Z.shiftr_div_pow2 by done. change (2 ^ 3) with 8.
    destruct (Z.ltb_spec (h mod 8) 8); [|lia]. bsimp.
    rewrite aget_byte, !aupd_byte by done. cbn [obind].
    by replace (u8 (Z.shiftl 1 (h mod 8))) with (bmask 1 (h mod 8));
      replace (Z.shiftl 1 (h mod 8)) with (bmask 1 (h mod 8)).
  - rewrite (land_ones_mod h 2), Z.shiftr_div_pow2 by done. change (2 ^ 2) with 4.
    destruct (Z.ltb_spec (h mod 4) 4); [|lia]. bsimp.
    rewrite aget_byte, !aupd_byte by done. cbn [obind].
    by replace (u8 (Z.shiftl 3 (Z.shiftl (h mod 4) 1))) with (bmask 2 (h mod 4));
      replace (Z.shiftl 3 (Z.shiftl (h mod 4) 1)) with (bmask 2 (h mod 4)).
  - rewrite (land_ones_mod h 1), Z.shiftr_div_pow2 by done. change (2 ^ 1) with 2.
    destruct (Z.ltb_spec (h mod 2) 2); [|lia]. bsimp.
    rewrite aget_byte, !aupd_byte by done. cbn [obind].
    by replace (u8 (Z.shiftl 15 (Z.shiftl (h mod 2) 2))) with (bmask 4 (h mod 2));
      replace (Z.shiftl 15 (Z.shiftl (h mod 2) 2)) with (bmask 4 (h mod 2)).
  - rewrite Z.div_1_r, Z.mod_1_r in *.
    pose proof (forall_range_elim _ _ _ _ byte255_checked Hb) as HB. unfold byte255_p in HB.
    bsimp. rewrite aget_byte, !aset_ok by done. cbn [obind].
    split; [f_equal; symmetry; by apply Bool.eqb_prop|].
    by split; f_equal; f_equal.
Qed.

(** [blkval] of every block after block [h] became [v]. *)
Definition blk_updated (frag : Z) (map map' : list Z) (h v : Z) : Prop :=
  map_ok map' /\ length map' = length map /\
  forall h', 0 <= h' -> blkval frag map' h' = if h' =? h then v else blkval frag map h'.

Lemma blk_updated_intro frag map h b v :
  frag_ok frag -> map_ok map -> blk_in frag map h -> 0 <= b < 256 ->
  (forall q', 0 <= q' < per_byte frag -> byte_blk frag b q'
     = if q' =? h mod per_byte frag then v
       else byte_blk frag (byte_at map (h / per_byte frag)) q') ->
  blk_updated frag map (<[Z.to_nat (h / per_byte frag) := b]> map) h v.
Proof.
  intros Hf Hm Hin Hb Hq. destruct (per_byte_pos frag Hf) as [Hp _].
  destruct (blk_in_byte frag map h Hf Hin) as [Hj _].
  split; [by apply map_ok_insert|]. split; [apply length_insert|].
  intros h' Hh'. rewrite blkval_insert, (div_mod_eqb h h' (per_byte frag)) by done.
  destruct (Z.eqb_spec (h' / per_byte frag) (h / per_byte frag)) as [E|]; [|done].
  simpl. rewrite Hq by (by apply Z.mod_pos_bound). unfold blkval. by rewrite E.
Qed.

Lemma isblock_spec frag map h :
  frag_ok frag -> map_ok map -> blk_in frag map h ->
  isblock frag map h = Ok (blkval frag map h =? blk_full frag).
Proof.
  intros Hf Hm Hin. destruct (block_ops_norm frag map h Hf Hm Hin) as [-> _]. f_equal.
  apply block_ops_byte; [done|by apply byte_at_ok|]. by apply (blk_in_byte frag map h).
Qed.

Lemma setblock_spec frag map h :
  frag_ok frag -> map_ok map -> blk_in frag map h ->
  exists map', setblock frag map h = Ok map' /\ blk_updated frag map map' h (blk_full frag).
Proof.
  intros Hf Hm Hin. destruct (block_ops_norm frag map h Hf Hm Hin) as (_ & -> & _).
  eexists. split; [done|].
  destruct (block_ops_byte frag (byte_at map (h / per_byte frag)) (h mod per_byte frag))
    as (_ & ? & _ & Hq); [done|by apply byte_at_ok|by apply (blk_in_byte frag map h)|].
  apply blk_updated_intro; try done. intros. by apply Hq.
Qed.

Lemma clrblock_spec frag map h :
  frag_ok frag -> map_ok map -> blk_in frag map h ->
  exists map', clrblock frag map h = Ok map' /\ blk_updated frag map map' h 0.
Proof.
  intros Hf Hm Hin. destruct (block_ops_norm frag map h Hf Hm Hin) as (_ & _ & ->).
  eexists. split; [done|].
  destruct (block_ops_byte frag (byte_at map (h / per_byte frag)) (h mod per_byte frag))
    as (_ & _ & ? & Hq); [done|by apply byte_at_ok|by apply (blk_in_byte frag map h)|].
  apply blk_updated_intro; try done. intros. by apply Hq.
Qed.

(** *** Single fragments *)

Lemma frag_coords frag i : frag_ok frag ->
  i / 8 = (i / frag) / per_byte frag /\ (i mod 8) / frag = (i / frag) mod per_byte frag /\
  (i mod 8) mod frag = i mod frag.
Proof.
  intros Hf. destruct (per_byte_pos frag Hf) as [Hp H8]. rewrite <- H8.
  assert (0 < frag) by (destruct Hf as [-> | [-> | [-> | ->] ] ]; done).
  split; [rewrite Z.div_div by lia; f_equal; lia|].
  rewrite (Z.mul_comm (per_byte frag)), Z.rem_mul_r by lia. split.
  - rewrite Z.add_comm, (Z.mul_comm frag), Z.div_add_l by lia.
    rewrite (Z.div_small (i mod frag)) by (apply Z.mod_pos_bound; lia). lia.
  - rewrite (Z.mul_comm frag), Z.mod_add by lia. apply Z.mod_mod. lia.
Qed.

Lemma frag_in_byte frag map i : frag_ok frag -> blk_in frag map (i / frag) ->
  0 <= i / 8 < Z.of_nat (length map).
Proof.
  intros Hf Hin. destruct (frag_coords frag i Hf) as [-> _]. by apply blk_in_byte.
Qed.

Lemma bit_ops_spec frag map i :
  frag_ok frag -> map_ok map -> blk_in frag map (i / frag) ->
  let v := blkval frag map (i / frag) in
  isset map i = Ok (Z.testbit v (i mod frag)) /\
  isclr map i = Ok (negb (Z.testbit v (i mod frag))) /\
  (exists map', setbit map i = Ok map' /\
     blk_updated frag map map' (i / frag) (Z.lor v (Z.shiftl 1 (i mod frag)))) /\
  (exists map', clrbit map i = Ok map' /\
     blk_updated frag map map' (i / frag) (Z.land v (Z.lnot (Z.shiftl 1 (i mod frag))))).
Proof.
  intros Hf Hm Hin v. pose proof (frag_in_byte frag map i Hf Hin) as Hj.
  destruct (frag_coords frag i Hf) as (E1 & E2 & E3).
  destruct (bit_ops_byte frag (byte_at map (i / 8)) (i mod 8)) as (Hset & Hs & Hc & Hq);
    [done|by apply byte_at_ok|by apply Z.mod_pos_bound|].
  rewrite E2, E3, E1 in *. fold (blkval frag map (i / frag)) in Hset. fold v in Hset.
  unfold isset, isclr, setbit, clrbit, NBBY. rewrite E1, aget_byte, !aupd_byte by done. cbn [obind].
  rewrite Hset. split_and!; [done| | |].
  - f_equal. unfold nz in Hset. by rewrite <- Hset, negb_involutive.
  - eexists. split; [done|]. apply blk_updated_intro; try done.
    intros q' Hq'. rewrite (proj1 (Hq q' Hq')). destruct (Z.eqb_spec q' ((i / frag) mod per_byte frag)) as [->|]; done.
  - eexists. split; [done|]. apply blk_updated_intro; try done.
    intros q' Hq'. rewrite (proj2 (Hq q' Hq')). destruct (Z.eqb_spec q' ((i / frag) mod per_byte frag)) as [->|]; done.
Qed.

Lemma blkmap_spec frag map h :
  frag_ok frag -> map_ok map -> blk_in frag map h ->
  blkmap frag map (h * frag) = Ok (blkval frag map h).
Proof.
  intros Hf Hm Hin. assert (Hpos : 0 < frag) by (destruct Hf as [-> | [-> | [-> | ->] ] ]; done).
  assert (E : h * frag / frag = h) by (apply Z.div_mul; lia).
  destruct (frag_coords frag (h * frag) Hf) as (E1 & E2 & E3).
  pose proof (frag_in_byte frag map (h * frag) Hf) as Hj. rewrite E in *. specialize (Hj Hin).
  unfold blkmap, NBBY. rewrite aget_byte by done. cbn [obind]. rewrite E1. f_equal.
  unfold blkval, byte_blk. rewrite <- E2.
  assert (Hz : (h * frag) mod frag = 0) by (apply Z.mod_mul; lia).
  rewrite Hz in E3. pose proof (Z.div_mod ((h * frag) mod 8) frag).
  replace ((h * frag) mod 8 / frag * frag) with ((h * frag) mod 8) by lia. f_equal.
  by destruct Hf as [-> | [-> | [-> | ->] ] ].
Qed.

(** ** Runs of free fragments *)

(** [run_at frag v k p]: in the block [v] the fragments [p .. p+k-1] are free
    and neither neighbour inside the block is. *)
Definition run_at (frag v k p : Z) : bool :=
  (0 <=? p) && (p + k <=? frag)
  && forall_range p k (fun i => Z.testbit v i)
  && ((p =? 0) || negb (Z.testbit v (p - 1)))
  && ((p + k =? frag) || negb (Z.testbit v (p + k))).

(** The number of maximal runs of [k] free fragments in the block [v]. *)
Definition runs (frag v k : Z) : Z :=
  Z.of_nat (length (base.filter (fun p => run_at frag v k p = true) (zrange 0 (frag + 1)))).

Definition has_run (frag v k : Z) : bool := existsb (run_at frag v k) (zrange 0 (frag + 1)).

Definition byte_has_run (frag b k : Z) : bool :=
  existsb (fun q => has_run frag (byte_blk frag b q) k) (zrange 0 (per_byte frag)).

(** *** The tables

    [1 << (allocsiz - 1 + (fs_frag % NBBY))] is how [mapsearch] asks the table
    about a byte of the map. *)
Definition fragtbl_mask (frag allocsiz : Z) : Z := Z.shiftl 1 (allocsiz - 1 + frag mod NBBY).

Definition fragtbl_p (frag b k : Z) : bool :=
  match fragtbl_of frag with
  | Ok tbl =>
      match aget tbl b with
      | Ok t => Bool.eqb (nz (Z.land t (fragtbl_mask frag (k + 1)))) (byte_has_run frag b (k + 1))
      | _ => false
      end
  | _ => false
  end.

Lemma fragtbl_checked : check_bytes (fun frag => frag) fragtbl_p = true.
Proof. vm_compute. reflexivity. Qed.

Lemma fragtbl_spec frag b k :
  frag_ok frag -> 0 <= b < 256 -> 1 <= k <= frag ->
  exists tbl t, fragtbl_of frag = Ok tbl /\ aget tbl b = Ok t /\
    (Z.land t (fragtbl_mask frag k) <> 0 <->
     exists q p, 0 <= q < per_byte frag /\ run_at frag (byte_blk frag b q) k p = true).
Proof.
  intros Hf Hb Hk.
  pose proof (check_bytes_elim _ _ frag b (k - 1) fragtbl_checked Hf Hb ltac:(lia)) as H.
  unfold fragtbl_p in H. rewrite Z.sub_add in H.
  destruct (fragtbl_of frag) as [tbl| |]; [|done..]. destruct (aget tbl b) as [t| |] eqn:Et; [|done..].
  exists tbl, t. split; [done|]. split; [done|]. apply Bool.eqb_prop in H.
  transitivity (nz (Z.land t (fragtbl_mask frag k)) = true).
  { unfold nz. destruct (Z.eqb_spec (Z.land t (fragtbl_mask frag k)) 0); simpl; intuition congruence. }
  rewrite H. unfold byte_has_run. rewrite existsb_exists. split.
  - intros (q & Hq%list_elem_of_In%elem_of_zrange & (p & _ & Hp)%existsb_exists).
    exists q, p. split; [lia|done].
  - intros (q & p & Hq & Hp). exists q. split; [by apply list_elem_of_In, elem_of_zrange; lia|].
    apply existsb_exists. exists p. split; [|done].
    apply list_elem_of_In, elem_of_zrange. unfold run_at in Hp. blia.
Qed.

(** *** The pattern test of [mapsearch] *)

Definition pattern_p (frag v c : Z) : bool :=
  let k := c / 9 in let p := c mod 9 in
  if (1 <=? k) && (k <=? frag) && (p <=? frag - k) && (v <? 2 ^ frag) then
    match aget around k, aget inside k with
    | Ok fld, Ok sub =>
        Bool.eqb (Z.land (Z.shiftl v 1) (Z.shiftl fld p) =? Z.shiftl sub p) (run_at frag v k p)
    | _, _ => false
    end
  else true.

Lemma pattern_checked : check_bytes (fun _ => 81) pattern_p = true.
Proof. vm_compute. reflexivity. Qed.

Lemma blk_bound frag : frag_ok frag -> 2 ^ frag <= 256.
Proof. by intros [-> | [-> | [-> | ->] ] ]. Qed.

Lemma pattern_spec frag v k p :
  frag_ok frag -> 0 <= v < 2 ^ frag -> 1 <= k <= frag -> 0 <= p <= frag - k ->
  exists fld sub, aget around k = Ok fld /\ aget inside k = Ok sub /\
    (Z.land (Z.shiftl v 1) (Z.shiftl fld p) =? Z.shiftl sub p) = run_at frag v k p.
Proof.
  intros Hf Hv Hk Hp. pose proof (blk_bound frag Hf).
  assert (Hf8 : frag <= 8) by (destruct Hf as [-> | [-> | [-> | ->] ] ]; done).
  pose proof (check_bytes_elim _ _ frag v (k * 9 + p) pattern_checked Hf ltac:(lia) ltac:(lia)) as H1.
  unfold pattern_p in H1. rewrite Z.div_add_l, (Z.div_small p), Z.add_0_r in H1 by lia.
  rewrite (Z.add_comm (k * 9)), Z.mod_add, Z.mod_small in H1 by lia.
  destruct (_ && _) eqn:E in H1; [|blia].
  destruct (aget around k) as [fld| |]; [|done..]. destruct (aget inside k) as [sub| |]; [|done..].
  exists fld, sub. split; [done|]. split; [done|]. by apply Bool.eqb_prop.
Qed.

Lemma blkval_bound frag map h : frag_ok frag -> 0 <= blkval frag map h < 2 ^ frag.
Proof.
  intros Hf. assert (0 < frag) by (destruct Hf as [-> | [-> | [-> | ->] ] ]; done).
  unfold blkval, byte_blk. rewrite (land_ones_mod _ frag).
  - apply Z.mod_pos_bound. lia.
  - lia.
  - unfold blk_full. by rewrite Z.ones_equiv.
Qed.

(** *** [fragacct] counts runs *)

(** How often the [pos] loop adds [cnt]; [None] when the fuel runs out. *)
Fixpoint pos_count (fuel : nat) (frag siz pos field subfield fragmap : Z) : option Z :=
  match fuel with
  | O => None
  | S fuel =>
      if frag <? pos then Some 0
      else if Z.land fragmap field =? subfield then
        Z.succ <$> pos_count fuel frag siz (pos + siz + 1)
          (Z.shiftl (Z.shiftl field siz) 1) (Z.shiftl (Z.shiftl subfield siz) 1) fragmap
      else
        pos_count fuel frag siz (pos + 1) (Z.shiftl field 1) (Z.shiftl subfield 1) fragmap
  end.

(** [l'] is [l] with [cnt] times [f k] added at each index [k]. *)
Definition counts_added (l : list Z) (cnt : Z) (f : Z -> Z) (l' : list Z) : Prop :=
  length l' = length l /\
  forall k : nat, l' !! k = (fun x => x + cnt * f (Z.of_nat k)) <$> l !! k.

Lemma counts_added_0 l cnt f : (forall k, f k = 0) -> counts_added l cnt f l.
Proof.
  intros Hf. split; [done|]. intros k. rewrite Hf, Z.mul_0_r.
  destruct (l !! k); simpl; [|done]. by rewrite Z.add_0_r.
Qed.

Lemma counts_added_at l cnt i n x :
  0 <= i -> l !! Z.to_nat i = Some x ->
  counts_added l cnt (fun k => if k =? i then n else 0) (<[Z.to_nat i := x + cnt * n]> l).
Proof.
  intros Hi Hx. split; [apply length_insert|]. intros k.
  destruct (decide (k = Z.to_nat i)) as [->|Hne].
  - rewrite list_lookup_insert_eq by (by eapply lookup_lt_Some). rewrite Hx. simpl.
    rewrite Z2Nat.id, Z.eqb_refl by done. done.
  - rewrite list_lookup_insert_ne by done. destruct (Z.eqb_spec (Z.of_nat k) i); [lia|].
    rewrite Z.mul_0_r. destruct (l !! k); simpl; [|done]. by rewrite Z.add_0_r.
Qed.

Lemma counts_added_trans l cnt f g h l1 l2 :
  counts_added l cnt f l1 -> counts_added l1 cnt g l2 -> (forall k, h k = f k + g k) ->
  counts_added l cnt h l2.
Proof.
  intros [L1 H1] [L2 H2] Hh. split; [congruence|]. intros k. rewrite H2, H1.
  destruct (l !! k); simpl; [|done]. rewrite Hh. f_equal. lia.
Qed.

Lemma fragacct_pos_counts fuel frag siz cnt pos field subfield fragmap l n :
  0 <= siz < Z.of_nat (length l) ->
  pos_count fuel frag siz pos field subfield fragmap = Some n ->
  exists l', fragacct_pos fuel frag siz cnt pos field subfield fragmap l = Ok l' /\
    counts_added l cnt (fun k => if k =? siz then n else 0) l'.
Proof.
  revert pos field subfield l n. induction fuel as [|fuel IH]; intros pos field subfield l n Hsiz;
    simpl; [done|].
  destruct (frag <? pos).
  { intros [= <-]. exists l. split; [done|]. apply counts_added_0. intros k. by destruct (_ =? _). }
  destruct (_ =? subfield); [|by apply IH].
  destruct (pos_count _ _ _ _ _ _ _) as [m|] eqn:E; [|done]. intros [= <-].
  destruct (lookup_lt_is_Some_2 l (Z.to_nat siz)) as [x Hx]; [lia|].
  rewrite (aupd_ok l siz x) by (done || lia). cbn [obind].
  destruct (IH _ _ _ (<[Z.to_nat siz := x + cnt]> l) _ ltac:(rewrite length_insert; lia) E)
    as (l' & -> & Hl').
  exists l'. split; [done|]. eapply (counts_added_trans _ _ (fun k => if k =? siz then 1 else 0)).
  - pose proof (counts_added_at l cnt siz 1 x) as H. rewrite Z.mul_1_r in H. by apply H; [lia|].
  - exact Hl'.
  - intros k. cbv beta. destruct (k =? siz); lia.
Qed.

(** What the [siz] loop adds for one size. *)
Definition siz_count (frag siz inblk fragmap : Z) : option Z :=
  if Z.land inblk (Z.shiftl 1 (siz + frag mod NBBY)) =? 0 then Some 0
  else match aget around siz, aget inside siz with
       | Ok field, Ok subfield =>
           pos_count (Z.to_nat (frag + 2)) frag siz siz field subfield fragmap
       | _, _ => None
       end.

Lemma fragacct_siz_counts n frag cnt siz inblk fragmap l f :
  1 <= siz -> siz + Z.of_nat n <= Z.of_nat (length l) ->
  (forall k, siz <= k < siz + Z.of_nat n -> siz_count frag k inblk fragmap = Some (f k)) ->
  exists l', fragacct_siz n frag cnt siz inblk fragmap l = Ok l' /\
    counts_added l cnt
      (fun k => if (siz <=? k) && (k <? siz + Z.of_nat n) then f k else 0) l'.
Proof.
  revert siz l. induction n as [|n IH]; intros siz l Hs Hlen Hf; simpl.
  { exists l. split; [done|]. apply counts_added_0. intros k.
    destruct (_ && _) eqn:?; blia. }
  pose proof (Hf siz ltac:(lia)) as Hsz. unfold siz_count in Hsz.
  assert (Hstep : exists l1,
    (if Z.land inblk (Z.shiftl 1 (siz + frag mod NBBY)) =? 0
     then fragacct_siz n frag cnt (siz + 1) inblk fragmap l
     else
       let* field := aget around siz in
       let* subfield := aget inside siz in
       let* fraglist :=
         fragacct_pos (Z.to_nat (frag + 2)) frag siz cnt siz field subfield fragmap l in
       fragacct_siz n frag cnt (siz + 1) inblk fragmap fraglist)
    = fragacct_siz n frag cnt (siz + 1) inblk fragmap l1 /\
    counts_added l cnt (fun k => if k =? siz then f siz else 0) l1).
  { destruct (_ =? 0).
    - injection Hsz as Hsz. exists l. split; [done|]. apply counts_added_0. intros k.
      rewrite <- Hsz. by destruct (_ =? _).
    - destruct (aget around siz) as [fld| |]; [|done..]. destruct (aget inside siz) as [sub| |]; [|done..].
      cbn [obind]. destruct (fragacct_pos_counts (Z.to_nat (frag + 2)) frag siz cnt siz fld sub fragmap l (f siz))
        as (l1 & -> & H1); [lia|exact Hsz|]. by exists l1. }
  destruct Hstep as (l1 & -> & H1). pose proof (proj1 H1) as Hl1.
  destruct (IH (siz + 1) l1) as (l' & -> & Hl'); [lia|lia|intros; apply Hf; lia|].
  exists l'. split; [done|]. eapply counts_added_trans; [exact H1|exact Hl'|].
  intros k. cbv beta. clear.
  match goal with |- (if ?c then _ else _) = _ + (if ?d then _ else _) =>
    destruct c eqn:E1, d eqn:E2 end; destruct (Z.eqb_spec k siz) as [->|]; lia.
Qed.

Definition siz_count_p (frag v k : Z) : bool :=
  if (1 <=? k) && (v <? 2 ^ frag) then
    match fragtbl_of frag with
    | Ok tbl =>
        match aget tbl v with
        | Ok t => bool_decide (siz_count frag k (Z.shiftl t 1) (Z.shiftl v 1)
                               = Some (runs frag v k))
        | _ => false
        end
    | _ => false
    end
  else true.

Lemma siz_count_checked : check_bytes (fun frag => frag) siz_count_p = true.
Proof. vm_compute. reflexivity. Qed.

Lemma fragacct_spec frag v l cnt :
  frag_ok frag -> 0 <= v < 2 ^ frag -> length l = Z.to_nat MAXFRAG ->
  exists l', fragacct frag v l cnt = Ok l' /\
    counts_added l cnt (fun k => if (1 <=? k) && (k <? frag) then runs frag v k else 0) l'.
Proof.
  intros Hf Hv Hl. pose proof (blk_bound frag Hf). change (Z.to_nat MAXFRAG) with 8%nat in Hl.
  assert (Hf8 : 1 <= frag <= 8) by (destruct Hf as [-> | [-> | [-> | ->] ] ]; done).
  destruct (fragtbl_spec frag v 1 Hf ltac:(lia) ltac:(lia)) as (tbl & t & Htbl & Ht & _).
  unfold fragacct. rewrite Htbl. cbn [obind]. rewrite Ht. cbn [obind].
  destruct (fragacct_siz_counts (Z.to_nat (frag - 1)) frag cnt 1 (Z.shiftl t 1) (Z.shiftl v 1) l
              (runs frag v)) as (l' & -> & H'); [lia|lia| |].
  - intros k Hk.
    pose proof (check_bytes_elim _ _ frag v k siz_count_checked Hf ltac:(lia) ltac:(lia)) as Hc.
    unfold siz_count_p in Hc. rewrite Htbl, Ht in Hc.
    destruct (_ && _) eqn:E in Hc; [|blia]. by apply bool_decide_eq_true in Hc.
  - exists l'. split; [done|]. replace (1 + Z.of_nat (Z.to_nat (frag - 1))) with frag in H' by lia.
    exact H'.
Qed.

(** ** Claims *)

(** The fragment tables are right: for every fragment size, every byte of
    the map and every size of 1 to [fs_frag] fragments, the table entry meets
    the mask of that size exactly when one of the blocks in the byte has a
    maximal free run of exactly that many fragments. *)
Theorem fragtbl_correct frag b k :
  frag_ok frag -> 0 <= b < 256 -> 1 <= k <= frag ->
  exists tbl t, fragtbl_of frag = Ok tbl /\ aget tbl b = Ok t /\
    (Z.land t (fragtbl_mask frag k) <> 0 <->
     exists q p, 0 <= q < per_byte frag /\ run_at frag (byte_blk frag b q) k p = true).
Proof. apply fragtbl_spec. Qed.

Lemma fragtbl_correct_witness :
  (frag_ok 8 /\ 0 <= 0x37 < 256) /\
  exists tbl t, fragtbl_of 8 = Ok tbl /\ aget tbl 0x37 = Ok t /\
    (Z.land t (fragtbl_mask 8 3) <> 0 <->
     exists q p, 0 <= q < per_byte 8 /\ run_at 8 (byte_blk 8 0x37 q) 3 p = true).
Proof.
  split; [unfold frag_ok; lia|]. apply (fragtbl_correct 8 0x37 3); [unfold frag_ok; lia|lia|lia].
Defined.

(** [fragacct] adds [cnt] times the number of maximal runs of [k] free
    fragments of the block to [fraglist[k]], for every [k] below [fs_frag], and
    changes no other entry; it never reads outside its tables. *)
Theorem fragacct_counts_runs frag v l cnt :
  frag_ok frag -> 0 <= v < 2 ^ frag -> length l = Z.to_nat MAXFRAG ->
  exists l', fragacct frag v l cnt = Ok l' /\
    counts_added l cnt (fun k => if (1 <=? k) && (k <? frag) then runs frag v k else 0) l'.
Proof. apply fragacct_spec. Qed.

Lemma fragacct_counts_runs_witness :
  exists l', fragacct 8 0x37 [0; 0; 0; 0; 0; 0; 0; 0] 1 = Ok l' /\
    counts_added [0; 0; 0; 0; 0; 0; 0; 0] 1
      (fun k => if (1 <=? k) && (k <? 8) then runs 8 0x37 k else 0) l'.
Proof.
  apply (fragacct_counts_runs 8 0x37); [unfold frag_ok; lia|lia|reflexivity].
Defined.
