(* ===== verification/UfsAlloc.v ===== *)
(** * The file system allocator: [sys/ufs/ufs_alloc.c]

    Blocks, fragments and inodes are handed out of cylinder groups.  The state
    is the in-core super block [fs] and the cylinder group blocks [cg] (their
    buffers: a group is changed in place, whether the buffer is then written
    or only released).  The kernel is configured without [QUOTA].  The device
    is represented by what its reads answer: [bread_error] says for which
    groups reading the cylinder group block fails.  Diagnostics printed on the
    console are not modelled. *)
From S2P Require Import Prelude Fragmap.

(** ** Data of [sys/ufs/fs.h] *)

Definition NDADDR : Z := 12.
Definition NIADDR : Z := 3.
Definition NRPOS : Z := 8.
Definition MAXBSIZE : Z := 8192.
Definition DEV_BSHIFT : Z := 9.
Definition ENOSPC : Z := 28.
Definition IFMT : Z := 0xF000.
Definition IFDIR : Z := 0x4000.
Definition IUPD : Z := 0x2.
Definition ICHG : Z := 0x40.
Definition CG_MAGIC : Z := 0x090255.

Record csum := Csum { cs_ndir : Z; cs_nbfree : Z; cs_nifree : Z; cs_nffree : Z }.

(** The super block fields that the allocator only reads. *)
Record fsgeom := Fsgeom {
  fs_size : Z; fs_dsize : Z; fs_ncg : Z; fs_bsize : Z; fs_fsize : Z; fs_frag : Z;
  fs_minfree : Z; fs_rotdelay : Z; fs_rps : Z;
  fs_fmask : Z; fs_fshift : Z; fs_fragshift : Z;
  fs_maxcontig : Z; fs_maxbpg : Z; fs_nspf : Z; fs_nsect : Z; fs_spc : Z;
  fs_ipg : Z; fs_fpg : Z; fs_cpc : Z; MAXBPC : Z;
  fs_postbl : list (list Z); fs_rotbl : list Z
}.

(** The super block: its geometry and the fields that change.  [fs_csp] is the
    array the macro [fs_cs(fs, cg)] indexes. *)
Record fs := Fs {
  fs_geom : fsgeom; fs_cstotal : csum; fs_csp : list csum; fs_fmod : Z; fs_cgrotor : Z
}.

Record cg := Cg {
  cg_magic : Z; cg_time : Z; cg_cgx : Z; cg_cs : csum;
  cg_rotor : Z; cg_frotor : Z; cg_irotor : Z;
  cg_frsum : list Z; cg_btot : list Z; cg_b : list (list Z);
  cg_iused : list Z; cg_free : list Z
}.

(** The file system as the allocator sees it. *)
Record ufs := Ufs { u_fs : fs; u_cgs : list cg }.

(** *** Macros of [fs.h] *)

Definition fragoff (g : fsgeom) (loc : Z) : Z := Z.land loc (Z.lnot (fs_fmask g)).
Definition numfrags (g : fsgeom) (loc : Z) : Z := Z.shiftr loc (fs_fshift g).
Definition fragstoblks (g : fsgeom) (frags : Z) : Z := Z.shiftr frags (fs_fragshift g).
Definition blkstofrags (g : fsgeom) (blks : Z) : Z := Z.shiftl blks (fs_fragshift g).
Definition fragnum (g : fsgeom) (fsb : Z) : Z := Z.land fsb (fs_frag g - 1).
Definition blknum (g : fsgeom) (fsb : Z) : Z := Z.land fsb (Z.lnot (fs_frag g - 1)).
Definition dtog (g : fsgeom) (d : Z) : Z := Z.quot d (fs_fpg g).
Definition dtogd (g : fsgeom) (d : Z) : Z := Z.rem d (fs_fpg g).
Definition itog (g : fsgeom) (x : Z) : Z := Z.quot x (fs_ipg g).
Definition NSPF (g : fsgeom) : Z := fs_nspf g.
Definition NSPB (g : fsgeom) : Z := Z.shiftl (fs_nspf g) (fs_fragshift g).
Definition cbtocylno (g : fsgeom) (bno : Z) : Z := Z.quot (bno * NSPF g) (fs_spc g).
Definition cbtorpos (g : fsgeom) (bno : Z) : Z :=
  Z.quot (Z.rem (bno * NSPF g) (fs_nsect g) * NRPOS) (fs_nsect g).
Definition freespace (f : fs) (percentreserved : Z) : Z :=
  blkstofrags (fs_geom f) (cs_nbfree (fs_cstotal f)) + cs_nffree (fs_cstotal f)
  - Z.quot (fs_dsize (fs_geom f) * percentreserved) 100.
Definition btodb (bytes : Z) : Z := Z.shiftr (u32 bytes) DEV_BSHIFT.

(** *** Field updates *)

Definition cs_adj (ndir nbfree nifree nffree : Z) (c : csum) : csum :=
  Csum (cs_ndir c + ndir) (cs_nbfree c + nbfree) (cs_nifree c + nifree) (cs_nffree c + nffree).

(** Change the counts of group [c] in the super block: the total and the
    per-group summary. *)
Definition fs_adj (f : fs) (c : Z) (ndir nbfree nifree nffree : Z) : outcome fs :=
  let* csp := aupd (fs_csp f) c (cs_adj ndir nbfree nifree nffree) in
  Ok (Fs (fs_geom f) (cs_adj ndir nbfree nifree nffree (fs_cstotal f)) csp
        (fs_fmod f) (fs_cgrotor f)).

(** [fs->fs_fmod++], an 8-bit [char]. *)
Definition fs_touch (f : fs) : fs :=
  Fs (fs_geom f) (fs_cstotal f) (fs_csp f) (s8 (fs_fmod f + 1)) (fs_cgrotor f).

Definition set_cgrotor (f : fs) (r : Z) : fs :=
  Fs (fs_geom f) (fs_cstotal f) (fs_csp f) (fs_fmod f) r.

Definition set_time (c : cg) (t : Z) : cg :=
  Cg (cg_magic c) t (cg_cgx c) (cg_cs c) (cg_rotor c) (cg_frotor c) (cg_irotor c)
     (cg_frsum c) (cg_btot c) (cg_b c) (cg_iused c) (cg_free c).
Definition set_cs (c : cg) (s : csum) : cg :=
  Cg (cg_magic c) (cg_time c) (cg_cgx c) s (cg_rotor c) (cg_frotor c) (cg_irotor c)
     (cg_frsum c) (cg_btot c) (cg_b c) (cg_iused c) (cg_free c).
Definition set_rotor (c : cg) (r : Z) : cg :=
  Cg (cg_magic c) (cg_time c) (cg_cgx c) (cg_cs c) r (cg_frotor c) (cg_irotor c)
     (cg_frsum c) (cg_btot c) (cg_b c) (cg_iused c) (cg_free c).
Definition set_frotor (c : cg) (r : Z) : cg :=
  Cg (cg_magic c) (cg_time c) (cg_cgx c) (cg_cs c) (cg_rotor c) r (cg_irotor c)
     (cg_frsum c) (cg_btot c) (cg_b c) (cg_iused c) (cg_free c).
Definition set_irotor (c : cg) (r : Z) : cg :=
  Cg (cg_magic c) (cg_time c) (cg_cgx c) (cg_cs c) (cg_rotor c) (cg_frotor c) r
     (cg_frsum c) (cg_btot c) (cg_b c) (cg_iused c) (cg_free c).
Definition set_frsum (c : cg) (l : list Z) : cg :=
  Cg (cg_magic c) (cg_time c) (cg_cgx c) (cg_cs c) (cg_rotor c) (cg_frotor c) (cg_irotor c)
     l (cg_btot c) (cg_b c) (cg_iused c) (cg_free c).
Definition set_cylinders (c : cg) (btot : list Z) (b : list (list Z)) : cg :=
  Cg (cg_magic c) (cg_time c) (cg_cgx c) (cg_cs c) (cg_rotor c) (cg_frotor c) (cg_irotor c)
     (cg_frsum c) btot b (cg_iused c) (cg_free c).
Definition set_iused (c : cg) (l : list Z) : cg :=
  Cg (cg_magic c) (cg_time c) (cg_cgx c) (cg_cs c) (cg_rotor c) (cg_frotor c) (cg_irotor c)
     (cg_frsum c) (cg_btot c) (cg_b c) l (cg_free c).
Definition set_free (c : cg) (l : list Z) : cg :=
  Cg (cg_magic c) (cg_time c) (cg_cgx c) (cg_cs c) (cg_rotor c) (cg_frotor c) (cg_irotor c)
     (cg_frsum c) (cg_btot c) (cg_b c) (cg_iused c) l.

(** [cgp->cg_b[cylno][cbtorpos(fs, bno)] += d; cgp->cg_btot[cylno] += d]. *)
Definition cyl_adj (g : fsgeom) (c : cg) (bno d : Z) : outcome cg :=
  let cylno := cbtocylno g bno in
  let* row := aget (cg_b c) cylno in
  let* row := aupd row (cbtorpos g bno) (fun n => s16 (n + d)) in
  let* b := aset (cg_b c) cylno row in
  let* btot := aupd (cg_btot c) cylno (fun n => n + d) in
  Ok (set_cylinders c btot b).

(** [for (i = lo; i < hi; i++) setbit(cg_free, base + i)], [n] iterations. *)
Fixpoint bits_loop (op : list Z -> Z -> outcome (list Z)) (n : nat) (map : list Z) (i : Z)
    : outcome (list Z) :=
  match n with
  | O => Ok map
  | S n => let* map := op map i in bits_loop op n map (i + 1)
  end.

(** ** [mapsearch] *)

(** The [pos] loop over one block. *)
Fixpoint mapsearch_pos (n : nat) (blk field subfield pos : Z) : option Z :=
  match n with
  | O => None
  | S n =>
      if Z.land blk field =? subfield then Some pos
      else mapsearch_pos n blk (Z.shiftl field 1) (Z.shiftl subfield 1) (pos + 1)
  end.

(** [for (i = bno + NBBY; bno < i; bno += fs->fs_frag)]: [n] bounds the number
    of blocks in a byte. *)
Fixpoint mapsearch_sift (n : nat) (g : fsgeom) (map : list Z) (allocsiz i bno : Z)
    : outcome Z :=
  match n with
  | O => Fault
  | S n =>
      if bno <? i then
        let* blk := blkmap (fs_frag g) map bno in
        let* field := aget around allocsiz in
        let* subfield := aget inside allocsiz in
        match mapsearch_pos (Z.to_nat (fs_frag g - allocsiz + 1)) (Z.shiftl blk 1)
                field subfield 0 with
        | Some pos => Ok (bno + pos)
        | None => mapsearch_sift n g map allocsiz i (bno + fs_frag g)
        end
      else Panic "alloccg: block not in map"
  end.

(** The byte where a block may hold the fragments: [scanc] from [start] on, and
    then over the bytes up to and including [start]. *)
Definition mapsearch_byte (map tbl : list Z) (mask start len : Z) : outcome Z :=
  let scan start len :=
    if start <? 0 then Fault
    else scanc (Z.to_nat (u32 len)) (drop (Z.to_nat start) map) tbl mask in
  let* loc := scan start len in
  if loc =? 0 then
    let len := start + 1 in
    let* loc := scan 0 len in
    if loc =? 0 then Panic "alloccg: map corrupted" else Ok (0 + len - loc)
  else Ok (start + len - loc).

Definition mapsearch (g : fsgeom) (cgp : cg) (bpref allocsiz : Z) : outcome (cg * Z) :=
  let start := if nz bpref then Z.quot (dtogd g bpref) NBBY
               else Z.quot (cg_frotor cgp) NBBY in
  let len := howmany (fs_fpg g) NBBY - start in
  let* tbl := fragtbl_of (fs_frag g) in
  let mask := u8 (Z.shiftl 1 (allocsiz - 1 + fs_frag g mod NBBY)) in
  let* byte := mapsearch_byte (cg_free cgp) tbl mask start len in
  let bno := byte * NBBY in
  let cgp := set_frotor cgp bno in
  let* b := mapsearch_sift (S (Z.to_nat NBBY)) g (cg_free cgp) allocsiz (bno + NBBY) bno in
  Ok (cgp, b).

(** ** [alloccgblk] *)

Definition alloccgblk_gotit (f : fs) (cgp : cg) (bno : Z) : outcome (fs * cg * Z) :=
  let g := fs_geom f in
  let* free := clrblock (fs_frag g) (cg_free cgp) (fragstoblks g bno) in
  let cgp := set_cs (set_free cgp free) (cs_adj 0 (-1) 0 0 (cg_cs cgp)) in
  let* f := fs_adj f (cg_cgx cgp) 0 (-1) 0 0 in
  let* cgp := cyl_adj g cgp bno (-1) in
  Ok (fs_touch f, cgp, cg_cgx cgp * fs_fpg g + bno).

Definition alloccgblk_norot (f : fs) (cgp : cg) (bpref : Z) : outcome (fs * cg * Z) :=
  let* r := mapsearch (fs_geom f) cgp bpref (fs_frag (fs_geom f)) in
  let '(cgp, bno) := r in
  if bno <? 0 then Ok (f, cgp, 0)
  else alloccgblk_gotit f (set_rotor cgp bno) bno.

(** [for (i = lo; i < hi; i++) if (cylbp[i] > 0) break;], with [hi - lo = n]. *)
Fixpoint rpos_scan (n : nat) (cylbp : list Z) (i : Z) : outcome Z :=
  match n with
  | O => Ok i
  | S n => let* c := aget cylbp i in if 0 <? c then Ok i else rpos_scan n cylbp (i + 1)
  end.

(** The walk of [fs_rotbl]: [Some bno] when a free block was found, [None] when
    the chain ended.  [i] grows at each step and stays at most [MAXBPC]. *)
Fixpoint rotbl_walk (fuel : nat) (f : fs) (cgp : cg) (bno i : Z) : outcome (option Z) :=
  match fuel with
  | O => Fault
  | S fuel =>
      let g := fs_geom f in
      let* fr := isblock (fs_frag g) (cg_free cgp) (bno + i) in
      if fr : bool then Ok (Some (blkstofrags g (bno + i)))
      else
        let* delta := aget (fs_rotbl g) i in
        if (delta <=? 0) || (MAXBPC g - i <? delta) then Ok None
        else rotbl_walk fuel f cgp bno (i + delta)
  end.

Definition alloccgblk (f : fs) (cgp : cg) (bpref : Z) : outcome (fs * cg * Z) :=
  let g := fs_geom f in
  if bpref =? 0 then alloccgblk_norot f cgp (cg_rotor cgp)
  else
    let bpref := dtogd g (blknum g bpref) in
    let* avail := isblock (fs_frag g) (cg_free cgp) (fragstoblks g bpref) in
    if avail : bool then alloccgblk_gotit f cgp bpref
    else
      let cylno := cbtocylno g bpref in
      let* tot := aget (cg_btot cgp) cylno in
      if tot =? 0 then alloccgblk_norot f cgp bpref
      else if fs_cpc g =? 0 then
        alloccgblk_norot f cgp (howmany (fs_spc g * cylno) (NSPF g))
      else
        let* cylbp := aget (cg_b cgp) cylno in
        let pos := cbtorpos g bpref in
        let* i := rpos_scan (Z.to_nat (NRPOS - pos)) cylbp pos in
        let* i := if i =? NRPOS then rpos_scan (Z.to_nat pos) cylbp 0 else Ok i in
        let* c := aget cylbp i in
        if 0 <? c then
          let pos := Z.rem cylno (fs_cpc g) in
          let bno := Z.quot ((cylno - pos) * fs_spc g) (NSPB g) in
          let* row := aget (fs_postbl g) pos in
          let* first := aget row i in
          if first =? -1 then Panic "alloccgblk: cyl groups corrupted"
          else
            let* r := rotbl_walk (Z.to_nat (MAXBPC g + 1)) f cgp bno first in
            match r with
            | Some bno => alloccgblk_gotit f cgp bno
            | None => Panic "alloccgblk: can't find blk in cyl"
            end
        else alloccgblk_norot f cgp bpref.

Section Device.
(** Reading the block of a cylinder group may fail; [time_sec] is the clock. *)
Context (bread_error : Z -> bool) (time_sec : Z).

(** [bp->b_flags & B_ERROR || cgp->cg_magic != CG_MAGIC]. *)
Definition cg_bad (c : Z) (cgp : cg) : bool :=
  bread_error c || negb (cg_magic cgp =? CG_MAGIC).

Definition put_cg (u : ufs) (f : fs) (c : Z) (cgp : cg) : outcome ufs :=
  let* cgs := aset (u_cgs u) c cgp in Ok (Ufs f cgs).

(** ** [fragextend] *)

(** [for (i = numfrags(fs, osize); i < frags; i++) if (isclr(...)) ...]:
    whether all [n] fragments from [b] on are free. *)
Fixpoint all_free (n : nat) (map : list Z) (b : Z) : outcome bool :=
  match n with
  | O => Ok true
  | S n => let* c := isclr map b in if c : bool then Ok false else all_free n map (b + 1)
  end.

(** [for (i = frags; i < fs->fs_frag - bbase; i++) if (isclr(...)) break;] *)
Fixpoint run_end (n : nat) (map : list Z) (bno i : Z) : outcome Z :=
  match n with
  | O => Ok i
  | S n => let* c := isclr map (bno + i) in if c : bool then Ok i else run_end n map bno (i + 1)
  end.

Definition fragextend (u : ufs) (c bprev osize nsize : Z) : outcome (ufs * Z) :=
  let f := u_fs u in let g := fs_geom f in
  let* cs := aget (fs_csp f) c in
  if cs_nffree cs <? numfrags g (nsize - osize) then Ok (u, 0) else
  let frags := numfrags g nsize in
  let bbase := fragnum g bprev in
  if fragnum g (bprev + frags - 1) <? bbase then Ok (u, 0) else
  let* cgp := aget (u_cgs u) c in
  if cg_bad c cgp then Ok (u, 0) else
  let cgp := set_time cgp time_sec in
  let* u := put_cg u f c cgp in
  let bno := dtogd g bprev in
  let ofrags := numfrags g osize in
  let* ok := all_free (Z.to_nat (frags - ofrags)) (cg_free cgp) (bno + ofrags) in
  if negb ok then Ok (u, 0) else
  let* i := run_end (Z.to_nat (fs_frag g - bbase - frags)) (cg_free cgp) bno frags in
  let* frsum := aupd (cg_frsum cgp) (i - ofrags) (fun n => n - 1) in
  let* frsum := if i =? frags then Ok frsum
                else aupd frsum (i - frags) (fun n => n + 1) in
  let n := Z.max 0 (frags - ofrags) in
  let* free := bits_loop clrbit (Z.to_nat n) (cg_free cgp) (bno + ofrags) in
  let cgp := set_cs (set_free (set_frsum cgp frsum) free) (cs_adj 0 0 0 (- n) (cg_cs cgp)) in
  let* f := fs_adj f c 0 0 0 (- n) in
  let* u := put_cg u (fs_touch f) c cgp in
  Ok (u, bprev).

(** ** [alloccg] *)

(** [for (allocsiz = frags; allocsiz < fs->fs_frag; allocsiz++)
    if (cgp->cg_frsum[allocsiz] != 0) break;] *)
Fixpoint frsum_scan (n : nat) (frsum : list Z) (allocsiz : Z) : outcome Z :=
  match n with
  | O => Ok allocsiz
  | S n =>
      let* c := aget frsum allocsiz in
      if nz c then Ok allocsiz else frsum_scan n frsum (allocsiz + 1)
  end.

Definition alloccg (u : ufs) (c bpref size : Z) : outcome (ufs * Z) :=
  let f := u_fs u in let g := fs_geom f in
  let* cs := aget (fs_csp f) c in
  if (cs_nbfree cs =? 0) && (size =? fs_bsize g) then Ok (u, 0) else
  let* cgp := aget (u_cgs u) c in
  if cg_bad c cgp || ((cs_nbfree (cg_cs cgp) =? 0) && (size =? fs_bsize g))
  then Ok (u, 0) else
  let cgp := set_time cgp time_sec in
  if size =? fs_bsize g then
    let* r := alloccgblk f cgp bpref in
    let '(f, cgp, bno) := r in
    let* u := put_cg u f c cgp in
    Ok (u, bno)
  else
  let frags := numfrags g size in
  let* allocsiz := frsum_scan (Z.to_nat (fs_frag g - frags)) (cg_frsum cgp) frags in
  if allocsiz =? fs_frag g then
    (* no fragments were available: allocate a block and hack it up *)
    if cs_nbfree (cg_cs cgp) =? 0 then
      let* u := put_cg u f c cgp in Ok (u, 0)
    else
    let* r := alloccgblk f cgp bpref in
    let '(f, cgp, bno) := r in
    let bpref := dtogd g bno in
    let* free := bits_loop setbit (Z.to_nat (fs_frag g - frags)) (cg_free cgp) (bpref + frags) in
    let i := fs_frag g - frags in
    let* f := fs_adj f c 0 0 0 i in
    let* frsum := aupd (cg_frsum cgp) i (fun n => n + 1) in
    let cgp := set_frsum (set_cs (set_free cgp free) (cs_adj 0 0 0 i (cg_cs cgp))) frsum in
    let* u := put_cg u (fs_touch f) c cgp in
    Ok (u, bno)
  else
  let* r := mapsearch g cgp bpref allocsiz in
  let '(cgp, bno) := r in
  if bno <? 0 then let* u := put_cg u f c cgp in Ok (u, 0) else
  let* free := bits_loop clrbit (Z.to_nat frags) (cg_free cgp) bno in
  let* f := fs_adj f c 0 0 0 (- frags) in
  let* frsum := aupd (cg_frsum cgp) allocsiz (fun n => n - 1) in
  let* frsum := if frags =? allocsiz then Ok frsum
                else aupd frsum (allocsiz - frags) (fun n => n + 1) in
  let cgp := set_frsum (set_cs (set_free cgp free) (cs_adj 0 0 0 (- frags) (cg_cs cgp))) frsum in
  let* u := put_cg u (fs_touch f) c cgp in
  Ok (u, c * fs_fpg g + bno).

(** ** [ialloccg] *)

(** [skpc(mask, size, cp)], the VAX instruction as the inliner expands it: the
    bytes left from the first one that differs from [mask]. *)
Fixpoint skpc (mask : Z) (size : nat) (cp : list Z) : outcome Z :=
  match size with
  | O => Ok 0
  | S size' =>
      match cp with
      | [] => Fault
      | b :: cp' => if b =? mask then skpc mask size' cp' else Ok (Z.of_nat size)
      end
  end.

(** [for (i = 1; i < (1 << NBBY); i <<= 1, ipref++) if ((map & i) == 0) ...] *)
Fixpoint clear_bit_scan (n : nat) (map i ipref : Z) : option Z :=
  match n with
  | O => None
  | S n =>
      if Z.land map i =? 0 then Some ipref
      else clear_bit_scan n map (Z.shiftl i 1) (ipref + 1)
  end.

Definition ialloccg_gotit (u : ufs) (c : Z) (cgp : cg) (ipref mode : Z) : outcome (ufs * Z) :=
  let* iused := setbit (cg_iused cgp) ipref in
  let d := cbool (Z.land mode IFMT =? IFDIR) in
  let cgp := set_cs (set_iused cgp iused) (cs_adj d 0 (-1) 0 (cg_cs cgp)) in
  let* f := fs_adj (u_fs u) c d 0 (-1) 0 in
  let* u := put_cg u (fs_touch f) c cgp in
  Ok (u, c * fs_ipg (fs_geom f) + ipref).

Definition ialloccg_search (u : ufs) (c : Z) (cgp : cg) (mode : Z) : outcome (ufs * Z) :=
  let g := fs_geom (u_fs u) in
  let start := Z.quot (cg_irotor cgp) NBBY in
  let len := howmany (fs_ipg g - cg_irotor cgp) NBBY in
  let skip start len :=
    if start <? 0 then Fault
    else skpc 0xff (Z.to_nat (u16 len)) (drop (Z.to_nat start) (cg_iused cgp)) in
  let* loc := skip start len in
  let* r :=
    if loc =? 0 then
      let len := start + 1 in
      let* loc := skip 0 len in
      if loc =? 0 then Panic "ialloccg: map corrupted" else Ok (0, len, loc)
    else Ok (start, len, loc) in
  let '(start, len, loc) := r in
  let i := start + len - loc in
  let* map := aget (cg_iused cgp) i in
  match clear_bit_scan (Z.to_nat NBBY) map 1 (i * NBBY) with
  | Some ipref => ialloccg_gotit u c (set_irotor cgp ipref) ipref mode
  | None => Panic "ialloccg: block not in map"
  end.

Definition ialloccg (u : ufs) (c ipref mode : Z) : outcome (ufs * Z) :=
  let f := u_fs u in let g := fs_geom f in
  let* cs := aget (fs_csp f) c in
  if cs_nifree cs =? 0 then Ok (u, 0) else
  let* cgp := aget (u_cgs u) c in
  if cg_bad c cgp || (cs_nifree (cg_cs cgp) =? 0) then Ok (u, 0) else
  let cgp := set_time cgp time_sec in
  if nz ipref then
    let ipref := Z.rem ipref (fs_ipg g) in
    let* free := isclr (cg_iused cgp) ipref in
    if free : bool then ialloccg_gotit u c cgp ipref mode
    else ialloccg_search u c cgp mode
  else ialloccg_search u c cgp mode.

(** ** [free] *)

(** The [setbit] loop with its check for a free fragment. *)
Fixpoint free_frags (n : nat) (map : list Z) (b : Z) : outcome (list Z) :=
  match n with
  | O => Ok map
  | S n =>
      let* s := isset map b in
      if s : bool then Panic "free: freeing free frag"
      else let* map := setbit map b in free_frags n map (b + 1)
  end.

(** Count block [bno] (a fragment address in the group) as free. *)
Definition count_free_block (f : fs) (c : Z) (cgp : cg) (bno : Z) (nffree : Z)
    : outcome (fs * cg) :=
  let cgp := set_cs cgp (cs_adj 0 1 0 nffree (cg_cs cgp)) in
  let* f := fs_adj f c 0 1 0 nffree in
  let* cgp := cyl_adj (fs_geom f) cgp bno 1 in
  Ok (f, cgp).

Definition free (u : ufs) (bno size : Z) : outcome ufs :=
  let f := u_fs u in let g := fs_geom f in
  if (fs_bsize g <? u32 size) || nz (fragoff g size) then Panic "free: bad size" else
  let c := dtog g bno in
  if badblock (fs_size g) bno then Ok u else
  let* cgp := aget (u_cgs u) c in
  if cg_bad c cgp then Ok u else
  let cgp := set_time cgp time_sec in
  let bno := dtogd g bno in
  if size =? fs_bsize g then
    let* fr := isblock (fs_frag g) (cg_free cgp) (fragstoblks g bno) in
    if fr : bool then Panic "free: freeing free block" else
    let* map := setblock (fs_frag g) (cg_free cgp) (fragstoblks g bno) in
    let* r := count_free_block f c (set_free cgp map) bno 0 in
    put_cg u (fs_touch r.1) c r.2
  else
    let bbase := bno - fragnum g bno in
    let* blk := blkmap (fs_frag g) (cg_free cgp) bbase in
    let* frsum := fragacct (fs_frag g) blk (cg_frsum cgp) (-1) in
    let frags := Z.max 0 (numfrags g size) in
    let* map := free_frags (Z.to_nat frags) (cg_free cgp) bno in
    let cgp := set_cs (set_free cgp map) (cs_adj 0 0 0 frags (cg_cs cgp)) in
    let* f := fs_adj f c 0 0 0 frags in
    let* blk := blkmap (fs_frag g) map bbase in
    let* frsum := fragacct (fs_frag g) blk frsum 1 in
    let cgp := set_frsum cgp frsum in
    let* whole := isblock (fs_frag g) map (fragstoblks g bbase) in
    let* r := if whole : bool then count_free_block f c cgp bbase (- fs_frag g)
              else Ok (f, cgp) in
    put_cg u (fs_touch r.1) c r.2.

(** ** [ifree] *)

Definition ifree (u : ufs) (ino mode : Z) : outcome ufs :=
  let f := u_fs u in let g := fs_geom f in
  if fs_ipg g * fs_ncg g <=? u32 ino then Panic "ifree: range" else
  let c := itog g ino in
  let* cgp := aget (u_cgs u) c in
  if cg_bad c cgp then Ok u else
  let cgp := set_time cgp time_sec in
  let ino := Z.rem ino (fs_ipg g) in
  let* fr := isclr (cg_iused cgp) ino in
  if fr : bool then Panic "ifree: freeing free inode" else
  let* iused := clrbit (cg_iused cgp) ino in
  let cgp := set_iused cgp iused in
  let cgp := if ino <? cg_irotor cgp then set_irotor cgp ino else cgp in
  let d := cbool (Z.land mode IFMT =? IFDIR) in
  let cgp := set_cs cgp (cs_adj (- d) 0 1 0 (cg_cs cgp)) in
  let* f := fs_adj f c (- d) 0 1 0 in
  put_cg u (fs_touch f) c cgp.
End Device.

(** ** [hashalloc]

    [allocator s cg pref size] is the routine passed by address; [S] is the
    state it works on. *)
Section Hashalloc.
Context {S : Type} (allocator : S -> Z -> Z -> Z -> outcome (S * Z)).
Context (ncg : Z).

(** [for (i = 1; i < fs->fs_ncg; i *= 2)]: the state, the result (0 to go on). *)
Fixpoint quad_rehash (fuel : nat) (s : S) (cg i size : Z) : outcome (S * Z) :=
  match fuel with
  | O => Fault
  | Datatypes.S fuel =>
      if i <? ncg then
        let cg := cg + i in
        let cg := if ncg <=? cg then cg - ncg else cg in
        let* r := allocator s cg 0 size in
        if nz r.2 then Ok r else quad_rehash fuel r.1 cg (i * 2) size
      else Ok (s, 0)
  end.

(** [for (i = 2; i < fs->fs_ncg; i++)], [n] iterations. *)
Fixpoint brute_search (n : nat) (s : S) (cg size : Z) : outcome (S * Z) :=
  match n with
  | O => Ok (s, 0)
  | Datatypes.S n =>
      let* r := allocator s cg 0 size in
      if nz r.2 then Ok r
      else brute_search n r.1 (if cg + 1 =? ncg then 0 else cg + 1) size
  end.

Definition hashalloc (s : S) (cg pref size : Z) : outcome (S * Z) :=
  let icg := cg in
  let* r := allocator s cg pref size in
  if nz r.2 then Ok r else
  let* r := quad_rehash (Datatypes.S (Z.to_nat ncg)) r.1 cg 1 size in
  if nz r.2 then Ok r else
  brute_search (Z.to_nat (ncg - 2)) r.1 (Z.rem (icg + 2) ncg) size.
End Hashalloc.

(** ** Policies *)

(** The loop of [dirpref] over the groups from [c] on. *)
Fixpoint dirpref_loop (csp : list csum) (c mincg minndir avgifree : Z) : Z :=
  match csp with
  | [] => mincg
  | cs :: csp =>
      if (cs_ndir cs <? minndir) && (avgifree <=? cs_nifree cs)
      then dirpref_loop csp (c + 1) c (cs_ndir cs) avgifree
      else dirpref_loop csp (c + 1) mincg minndir avgifree
  end.

Definition dirpref (f : fs) : Z :=
  let g := fs_geom f in
  let avgifree := Z.quot (cs_nifree (fs_cstotal f)) (fs_ncg g) in
  fs_ipg g * dirpref_loop (take (Z.to_nat (fs_ncg g)) (fs_csp f)) 0 0 (fs_ipg g) avgifree.

(** The inode fields the allocator uses. *)
Record inode := Inode {
  i_number : Z; i_mode : Z; i_size : Z; i_blocks : Z; i_flag : Z
}.

(** [for (cg = c; cg < c + n; cg++) if (fs_cs(fs, cg).cs_nbfree >= avgbfree) ...] *)
Fixpoint bfree_scan (n : nat) (csp : list csum) (c avgbfree : Z) : outcome (option Z) :=
  match n with
  | O => Ok None
  | S n =>
      let* cs := aget csp c in
      if avgbfree <=? cs_nbfree cs then Ok (Some c) else bfree_scan n csp (c + 1) avgbfree
  end.

Definition blkpref (f : fs) (ip : inode) (lbn indx : Z) (bap : list Z) : outcome (fs * Z) :=
  let g := fs_geom f in
  let* fresh :=
    if Z.rem indx (fs_maxbpg g) =? 0 then Ok true
    else let* b := aget bap (indx - 1) in Ok (b =? 0) in
  if fresh : bool then
    if lbn <? NDADDR then Ok (f, fs_fpg g * itog g (i_number ip) + fs_frag g)
    else
      let avgbfree := Z.quot (cs_nbfree (fs_cstotal f)) (fs_ncg g) in
      let* r := bfree_scan (Z.to_nat (fs_ncg g - (fs_cgrotor f + 1))) (fs_csp f)
                  (fs_cgrotor f + 1) avgbfree in
      match r with
      | Some c => Ok (set_cgrotor f c, fs_fpg g * c + fs_frag g)
      | None =>
          let* r := bfree_scan (Z.to_nat (fs_cgrotor f + 1)) (fs_csp f) 0 avgbfree in
          match r with
          | Some c => Ok (set_cgrotor f c, fs_fpg g * c + fs_frag g)
          | None => Ok (f, 0)
          end
      end
  else
    let* prev := aget bap (indx - 1) in
    let nextblk := prev + fs_frag g in
    let* early :=
      if fs_maxcontig g <? indx then
        let* b := aget bap (indx - fs_maxcontig g) in
        Ok (negb (b + blkstofrags g (fs_maxcontig g) =? nextblk))
      else Ok false in
    if early : bool then Ok (f, nextblk)
    else if nz (fs_rotdelay g) then
      Ok (f, nextblk + roundup (Z.quot (fs_rotdelay g * fs_rps g * fs_nsect g) (NSPF g * 1000))
                         (fs_frag g))
    else Ok (f, nextblk).

(** ** [alloc], [realloccg], [ialloc] *)

(** What these return: the block or inode, or null with [u.u_error]. *)
Inductive ares :=
| Allocated (n : Z)   (* the buffer of block n, or the inode of that number *)
| Failed (err : Z)    (* NULL; u.u_error = err *)
| Failed_io.          (* NULL; the error was set by the failing read or by iget *)

(** [imark(ip, flags)] of [sys/ufs/ufs_inode.c] and [ip->i_blocks += n]. *)
Definition charge (ip : inode) (blocks : Z) : inode :=
  Inode (i_number ip) (i_mode ip) (i_size ip) (i_blocks ip + blocks)
    (Z.lor (i_flag ip) (Z.lor IUPD ICHG)).

Section Alloc.
Context (bread_error : Z -> bool) (time_sec : Z).
(** The user id of the caller. *)
Context (u_uid : Z).

Definition nospace (u : ufs) (ip : inode) : outcome (ufs * inode * ares) :=
  Ok (u, ip, Failed ENOSPC).

Definition alloc (u : ufs) (ip : inode) (bpref size : Z) : outcome (ufs * inode * ares) :=
  let f := u_fs u in let g := fs_geom f in
  if (fs_bsize g <? u32 size) || nz (fragoff g size) then Panic "alloc: bad size" else
  if (size =? fs_bsize g) && (cs_nbfree (fs_cstotal f) =? 0) then nospace u ip else
  if nz u_uid && (freespace f (fs_minfree g) <=? 0) then nospace u ip else
  let bpref := if fs_size g <=? bpref then 0 else bpref in
  let c := if bpref =? 0 then itog g (i_number ip) else dtog g bpref in
  let* r := hashalloc (alloccg bread_error time_sec) (fs_ncg g) u c bpref size in
  let '(u, bno) := r in
  if bno <=? 0 then nospace u ip
  else Ok (u, charge ip (btodb size), Allocated bno).

(** What the buffer cache answers to the loop
    [do { bp = bread(...); if (B_ERROR) return (NULL); } while (brealloc(bp, nsize) == 0);]:
    one entry per iteration, the read's success and [brealloc]'s result. *)
Fixpoint brealloc_loop (tries : list (bool * bool)) : outcome bool :=
  match tries with
  | [] => Fault
  | (read_ok, grown) :: tries =>
      if negb read_ok then Ok false
      else if grown : bool then Ok true else brealloc_loop tries
  end.

(** [obp_error]: reading the old fragment to copy it fails. *)
Definition realloccg (tries : list (bool * bool)) (obp_error : bool)
    (u : ufs) (ip : inode) (bprev bpref osize nsize : Z) : outcome (ufs * inode * ares) :=
  let f := u_fs u in let g := fs_geom f in
  if (fs_bsize g <? u32 osize) || nz (fragoff g osize)
     || (fs_bsize g <? u32 nsize) || nz (fragoff g nsize)
  then Panic "realloccg: bad size" else
  if nz u_uid && (freespace f (fs_minfree g) <=? 0) then nospace u ip else
  if bprev =? 0 then Panic "realloccg: bad bprev" else
  let c := dtog g bprev in
  let* r := fragextend bread_error time_sec u c bprev osize nsize in
  let '(u, bno) := r in
  if nz bno then
    let* ok := brealloc_loop tries in
    if negb ok then Ok (u, ip, Failed_io)
    else Ok (u, charge ip (btodb (nsize - osize)), Allocated bno)
  else
  let bpref := if fs_size g <=? bpref then 0 else bpref in
  let* r := hashalloc (alloccg bread_error time_sec) (fs_ncg g) u c bpref nsize in
  let '(u, bno) := r in
  if 0 <? bno then
    if obp_error : bool then Ok (u, ip, Failed_io)
    else Ok (u, charge ip (btodb (nsize - osize)), Allocated bno)
  else nospace u ip.

(** [iget ino] answers with the in-core inode, or fails. *)
Context (iget : Z -> option inode).

(** Returns the inode as it is left when it was allocated. *)
Definition ialloc (u : ufs) (ipref mode : Z) : outcome (ufs * option inode * ares) :=
  let f := u_fs u in let g := fs_geom f in
  if cs_nifree (fs_cstotal f) =? 0 then Ok (u, None, Failed ENOSPC) else
  let ipref := if fs_ncg g * fs_ipg g <=? ipref then 0 else ipref in
  let c := itog g ipref in
  let* r := hashalloc (ialloccg bread_error time_sec) (fs_ncg g) u c ipref mode in
  let '(u, ino) := r in
  if ino =? 0 then Ok (u, None, Failed ENOSPC) else
  match iget ino with
  | None =>
      let* u := ifree bread_error time_sec u ino 0 in
      Ok (u, None, Failed_io)
  | Some ip =>
      if nz (i_mode ip) then Panic "ialloc: dup alloc"
      else
        let ip := if nz (i_blocks ip)
                  then Inode (i_number ip) (i_mode ip) (i_size ip) 0 (i_flag ip) else ip in
        Ok (u, Some ip, Allocated ino)
  end.
End Alloc.
