(* ===== verification/UfsInv.v ===== *)
(** * Consistency of the allocator: the summary counts agree with the free map

    What [fsck] checks about a cylinder group, as an invariant of
    [UfsAlloc]: the free-block and free-fragment counts, the fragment size
    table [cg_frsum] and the per-cylinder tables [cg_btot] and [cg_b] are the
    ones the free map implies.  Every total is a sum over the blocks of the
    group of a function of the block's bits, and every operation changes the
    bits of one block, so each proof reduces to one fact about the bits before
    and after. *)
From S2P Require Import Prelude Fragmap UfsAlloc.

(** ** Sums over the blocks of a map *)

Definition sumZ (l : list Z) : Z := foldr Z.add 0 l.

Definition blk_sum (frag n : Z) (f : Z -> Z -> Z) (map : list Z) : Z :=
  sumZ ((fun h => f h (blkval frag map h)) <$> zrange 0 n).

Lemma sumZ_cons x l : sumZ (x :: l) = x + sumZ l.
Proof. done. Qed.

Lemma sumZ_change (l : list Z) (f g : Z -> Z) h d :
  NoDup l -> h ∈ l -> (forall x, x ∈ l -> g x = if x =? h then f x + d else f x) ->
  sumZ (g <$> l) = sumZ (f <$> l) + d.
Proof.
  induction l as [|x l IH]; intros Hnd Hh Hg; [by apply elem_of_nil in Hh|].
  apply NoDup_cons in Hnd as [Hx Hnd]. rewrite !fmap_cons. rewrite !sumZ_cons.
  rewrite Hg by left.
  apply elem_of_cons in Hh as [->|Hh].
  - rewrite Z.eqb_refl.
    assert (E : g <$> l = f <$> l).
    { apply list_fmap_ext. intros i y Hy%list_elem_of_lookup_2. rewrite Hg by by right.
      destruct (Z.eqb_spec y x) as [->|]; [done|done]. }
    rewrite E. lia.
  - destruct (Z.eqb_spec x h) as [->|]; [done|].
    rewrite IH; [lia|done|done|]. intros y Hy. apply Hg. by right.
Qed.

Lemma zrange_NoDup lo n : NoDup (zrange lo n).
Proof.
  unfold zrange. apply NoDup_fmap_2; [intros x y; lia|]. apply NoDup_seq.
Qed.

(** Changing block [h] changes a sum by the change of its own term. *)
Lemma blk_sum_update frag n f map map' h v :
  blk_updated frag map map' h v -> 0 <= h < n ->
  blk_sum frag n f map' = blk_sum frag n f map + (f h v - f h (blkval frag map h)).
Proof.
  intros (_ & _ & Hv) Hh. unfold blk_sum. apply (sumZ_change _ _ _ h).
  - apply zrange_NoDup.
  - apply elem_of_zrange. lia.
  - intros x Hx%elem_of_zrange. rewrite Hv by lia.
    destruct (Z.eqb_spec x h) as [->|]; lia.
Qed.

Lemma sumZ_nonneg l : Forall (fun x => 0 <= x) l -> 0 <= sumZ l.
Proof. induction 1; simpl; lia. Qed.

Lemma blk_sum_nonneg frag n f map :
  (forall h, 0 <= f h (blkval frag map h)) -> 0 <= blk_sum frag n f map.
Proof. intros Hf. apply sumZ_nonneg, Forall_fmap, Forall_forall. intros; apply Hf. Qed.

(** A positive sum has a positive term. *)
Lemma blk_sum_pos frag n f map :
  0 < blk_sum frag n f map -> exists h, 0 <= h < n /\ 0 < f h (blkval frag map h).
Proof.
  unfold blk_sum. intros Hs.
  assert (Hex : Exists (fun h => 0 < f h (blkval frag map h)) (zrange 0 n)).
  { induction (zrange 0 n) as [|h l IH]; [simpl in Hs; lia|]. rewrite fmap_cons, sumZ_cons in Hs.
    destruct (decide (0 < f h (blkval frag map h))); [by left|right]. apply IH. lia. }
  apply Exists_exists in Hex as (h & Hh%elem_of_zrange & Hp). exists h. split; [lia|done].
Qed.

Lemma blk_sum_le frag n f map h :
  (forall h, 0 <= f h (blkval frag map h)) -> 0 <= h < n ->
  f h (blkval frag map h) <= blk_sum frag n f map.
Proof.
  intros Hf Hh. assert (Hin : h ∈ zrange 0 n) by (apply elem_of_zrange; lia).
  unfold blk_sum. induction (zrange 0 n) as [|x l IH]; [by apply elem_of_nil in Hin|].
  rewrite fmap_cons, sumZ_cons. assert (0 <= sumZ ((fun h => f h (blkval frag map h)) <$> l))
    by (apply sumZ_nonneg, Forall_fmap, Forall_forall; intros; apply Hf).
  apply elem_of_cons in Hin as [->|Hin]; [lia|]. specialize (IH Hin). specialize (Hf x). lia.
Qed.

Lemma blk_sum_upper frag n f map :
  0 <= n -> (forall h v, f h v <= 1) -> blk_sum frag n f map <= n.
Proof.
  intros Hn Hf. unfold blk_sum. assert (Hl : Z.of_nat (length (zrange 0 n)) = n)
    by (unfold zrange; rewrite length_fmap, length_seq; lia).
  rewrite <- Hl at 2. clear Hl Hn. induction (zrange 0 n) as [|x l IH]; [simpl; lia|].
  rewrite fmap_cons, sumZ_cons. specialize (Hf x (blkval frag map x)). simpl length. lia.
Qed.

(** ** What one block contributes *)

Definition b_full (frag v : Z) : Z := cbool (v =? blk_full frag).

(** The free fragments of a block that is not wholly free. *)
Definition popcount (frag v : Z) : Z :=
  Z.of_nat (length (base.filter (fun i => Z.testbit v i = true) (zrange 0 frag))).
Definition b_frags (frag v : Z) : Z := if v =? blk_full frag then 0 else popcount frag v.

(** The block with [n] fragments from [p] on taken, or given back. *)
Definition clr_bits (v p n : Z) : Z := Z.land v (Z.lnot (Z.shiftl (Z.ones n) p)).
Definition set_bits (v p n : Z) : Z := Z.lor v (Z.shiftl (Z.ones n) p).

Lemma shl_ones_testbit n p i : 0 <= n -> 0 <= p -> 0 <= i ->
  Z.testbit (Z.shiftl (Z.ones n) p) i = (p <=? i) && (i <? p + n).
Proof.
  intros. destruct (Z.leb_spec p i); simpl.
  - rewrite Z.shiftl_spec by lia. rewrite Z.testbit_ones_nonneg by lia.
    destruct (Z.ltb_spec (i - p) n), (Z.ltb_spec i (p + n)); lia.
  - rewrite Z.shiftl_spec_low by lia. done.
Qed.

Lemma clr_bits_testbit v p n i : 0 <= n -> 0 <= p -> 0 <= i ->
  Z.testbit (clr_bits v p n) i = Z.testbit v i && negb ((p <=? i) && (i <? p + n)).
Proof. intros. unfold clr_bits. by rewrite Z.land_spec, Z.lnot_spec, shl_ones_testbit. Qed.

Lemma set_bits_testbit v p n i : 0 <= n -> 0 <= p -> 0 <= i ->
  Z.testbit (set_bits v p n) i = Z.testbit v i || ((p <=? i) && (i <? p + n)).
Proof. intros. unfold set_bits. by rewrite Z.lor_spec, shl_ones_testbit. Qed.

Lemma clr_bits_0 v p : clr_bits v p 0 = v.
Proof. unfold clr_bits. change (Z.ones 0) with 0. rewrite Z.shiftl_0_l. apply Z.land_m1_r. Qed.

Lemma set_bits_0 v p : set_bits v p 0 = v.
Proof. unfold set_bits. change (Z.ones 0) with 0. rewrite Z.shiftl_0_l. apply Z.lor_0_r. Qed.

Lemma clr_bits_step v p n : 0 <= n -> 0 <= p ->
  clr_bits (Z.land v (Z.lnot (Z.shiftl 1 p))) (p + 1) n = clr_bits v p (n + 1).
Proof.
  intros. apply Z.bits_inj'. intros i Hi. rewrite !clr_bits_testbit by lia.
  rewrite Z.land_spec, Z.lnot_spec by lia. change 1 with (Z.ones 1) at 1.
  rewrite shl_ones_testbit by lia. destruct (Z.testbit v i); simpl; [|done].
  destruct (Z.leb_spec p i), (Z.ltb_spec i (p + 1)), (Z.leb_spec (p + 1) i),
    (Z.ltb_spec i (p + 1 + n)), (Z.ltb_spec i (p + (n + 1))); simpl; try done; lia.
Qed.

Lemma set_bits_step v p n : 0 <= n -> 0 <= p ->
  set_bits (Z.lor v (Z.shiftl 1 p)) (p + 1) n = set_bits v p (n + 1).
Proof.
  intros. apply Z.bits_inj'. intros i Hi. rewrite !set_bits_testbit by lia.
  rewrite Z.lor_spec. change 1 with (Z.ones 1) at 1.
  rewrite shl_ones_testbit by lia. destruct (Z.testbit v i); simpl; [done|].
  destruct (Z.leb_spec p i), (Z.ltb_spec i (p + 1)), (Z.leb_spec (p + 1) i),
    (Z.ltb_spec i (p + 1 + n)), (Z.ltb_spec i (p + (n + 1))); simpl; try done; lia.
Qed.

(** *** Taking from a run, giving back: facts about one block

    Checked over every fragment size and every value of a block. *)

Definition check_vals (p : Z -> Z -> bool) : bool :=
  check_frag (fun frag => forall_range 0 (2 ^ frag) (p frag)).

Lemma check_vals_elim p frag v :
  check_vals p = true -> frag_ok frag -> 0 <= v < 2 ^ frag -> p frag v = true.
Proof.
  unfold check_vals. intros H Hf Hv. apply check_frag_elim with (frag := frag) in H; [|done].
  by apply forall_range_elim with (x := v) in H.
Qed.

Definition ieq (i j : Z) : Z := cbool (i =? j).

Definition take_p (frag v : Z) : bool :=
  forall_range 1 frag (fun k => forall_range 0 frag (fun p =>
    if run_at frag v k p then
      Bool.eqb (v =? blk_full frag) (k =? frag) &&
      forall_range 1 k (fun n =>
        let v' := clr_bits v p n in
        (0 <=? v') && (v' <? 2 ^ frag) && negb (v' =? blk_full frag)
        && (popcount frag v' =? popcount frag v - n)
        && forall_range 1 (frag - 1) (fun j =>
             runs frag v' j =? runs frag v j - ieq j k + ieq j (k - n)))
    else true)).

Lemma take_checked : check_vals take_p = true.
Proof. vm_compute. reflexivity. Qed.

Definition give_p (frag v : Z) : bool :=
  forall_range 0 frag (fun p => forall_range 1 (frag - p) (fun n =>
    if forall_range p n (fun i => negb (Z.testbit v i)) then
      let v' := set_bits v p n in
      (0 <=? v') && (v' <? 2 ^ frag) && negb (v =? blk_full frag)
      && (popcount frag v' =? popcount frag v + n)
    else true)).

Lemma give_checked : check_vals give_p = true.
Proof. vm_compute. reflexivity. Qed.

(** A block with its last [n] fragments free. *)
Definition tail_p (frag n : Z) : bool :=
  if n =? 0 then true else
  let v := set_bits 0 (frag - n) n in
  forall_range 1 (frag - 1) (fun j => runs frag v j =? ieq j n).

Lemma tail_checked : check_frag (fun frag => forall_range 0 frag (tail_p frag)) = true.
Proof. vm_compute. reflexivity. Qed.

Definition ends_p (frag : Z) : bool :=
  (popcount frag 0 =? 0) && (popcount frag (blk_full frag) =? frag)
  && forall_range 1 (frag - 1) (fun j => (runs frag 0 j =? 0) && (runs frag (blk_full frag) j =? 0)).

Lemma ends_checked : check_frag ends_p = true.
Proof. vm_compute. reflexivity. Qed.

Lemma take_block frag v k p n :
  frag_ok frag -> 0 <= v < 2 ^ frag -> run_at frag v k p = true -> 1 <= n <= k ->
  let v' := clr_bits v p n in
  0 <= v' < 2 ^ frag /\ (v = blk_full frag <-> k = frag) /\ v' <> blk_full frag /\
  popcount frag v' = popcount frag v - n /\
  forall j, 1 <= j < frag -> runs frag v' j = runs frag v j - ieq j k + ieq j (k - n).
Proof.
  intros Hf Hv Hrun Hn v'. pose proof (check_vals_elim _ frag v take_checked Hf Hv) as H.
  unfold take_p in H.
  assert (Hk : 1 <= k < 1 + frag /\ 0 <= p < 0 + frag) by (unfold run_at in Hrun; blia).
  apply forall_range_elim with (x := k) in H; [|lia].
  apply forall_range_elim with (x := p) in H; [|lia].
  rewrite Hrun in H. apply andb_true_iff in H as [He H]. apply Bool.eqb_prop in He.
  apply forall_range_elim with (x := n) in H; [|lia]. cbv zeta in H. fold v' in H.
  apply andb_true_iff in H as [H Hr]. bsimp. split_and!; try lia.
  intros j Hj. apply forall_range_elim with (x := j) in Hr; [|lia]. by apply Z.eqb_eq.
Qed.

Lemma give_block frag v p n :
  frag_ok frag -> 0 <= v < 2 ^ frag -> 0 <= p -> 1 <= n -> p + n <= frag ->
  (forall i, p <= i < p + n -> Z.testbit v i = false) ->
  let v' := set_bits v p n in
  0 <= v' < 2 ^ frag /\ v <> blk_full frag /\ popcount frag v' = popcount frag v + n.
Proof.
  intros Hf Hv Hp Hn Hpn Hclr v'. pose proof (check_vals_elim _ frag v give_checked Hf Hv) as H.
  unfold give_p in H.
  apply forall_range_elim with (x := p) in H; [|lia].
  apply forall_range_elim with (x := n) in H; [|lia].
  destruct (forall_range p n (fun i => negb (Z.testbit v i))) eqn:E.
  - cbv zeta in H. fold v' in H. bsimp. split_and!; lia.
  - exfalso. apply not_true_iff_false in E. apply E. unfold forall_range.
    apply forallb_forall. intros i Hi%list_elem_of_In%elem_of_zrange.
    by rewrite Hclr.
Qed.

Lemma runs_tail frag n j : frag_ok frag -> 1 <= n < frag -> 1 <= j < frag ->
  runs frag (set_bits 0 (frag - n) n) j = ieq j n.
Proof.
  intros Hf Hn Hj. pose proof (check_frag_elim _ frag tail_checked Hf) as H. cbv beta in H.
  apply forall_range_elim with (x := n) in H; [|lia]. unfold tail_p in H.
  destruct (Z.eqb_spec n 0); [lia|]. cbv zeta in H.
  apply forall_range_elim with (x := j) in H; [|lia]. by apply Z.eqb_eq.
Qed.

Lemma ends_spec frag : frag_ok frag ->
  popcount frag 0 = 0 /\ popcount frag (blk_full frag) = frag /\
  forall j, 1 <= j < frag -> runs frag 0 j = 0 /\ runs frag (blk_full frag) j = 0.
Proof.
  intros Hf. pose proof (check_frag_elim _ frag ends_checked Hf) as H. unfold ends_p in H.
  apply andb_true_iff in H as [H Hr]. bsimp. split_and!; [done|done|].
  intros j Hj. apply forall_range_elim with (x := j) in Hr; [|lia]. bsimp. auto.
Qed.

Lemma popcount_nonneg frag v : 0 <= popcount frag v.
Proof. unfold popcount. lia. Qed.

(** ** The invariant *)

(** A geometry as [newfs] makes it. *)
Record geom_ok (g : fsgeom) : Prop := {
  go_frag : frag_ok (fs_frag g);
  go_fragshift : 0 <= fs_fragshift g /\ 2 ^ fs_fragshift g = fs_frag g;
  go_fshift : 0 <= fs_fshift g /\ fs_fsize g = 2 ^ fs_fshift g;
  go_fmask : fs_fmask g = Z.lnot (fs_fsize g - 1);
  go_bsize : fs_bsize g = fs_frag g * fs_fsize g /\ fs_bsize g < 2 ^ 31;
  go_fpg : 0 < fs_fpg g /\ (fs_frag g | fs_fpg g) /\ fs_fpg g / fs_frag g < 2 ^ 15 - 1;
  go_cyl : 0 < fs_spc g /\ 0 < fs_nsect g /\ 0 < fs_nspf g /\
           forall bno, 0 <= bno < fs_fpg g -> cbtocylno g bno < 32;
  go_ncg : 0 < fs_ncg g /\ 0 < fs_ipg g;
  go_size : fs_size g <= fs_ncg g * fs_fpg g /\ fs_size g <= 2 ^ 31
}.

Definition nblk (g : fsgeom) : Z := fs_fpg g / fs_frag g.

(** What the free map of a group says, summed over its blocks. *)
Definition free_blocks (g : fsgeom) (map : list Z) : Z :=
  blk_sum (fs_frag g) (nblk g) (fun _ v => b_full (fs_frag g) v) map.
Definition free_frags_of (g : fsgeom) (map : list Z) : Z :=
  blk_sum (fs_frag g) (nblk g) (fun _ v => b_frags (fs_frag g) v) map.
Definition runs_of (g : fsgeom) (map : list Z) (k : Z) : Z :=
  blk_sum (fs_frag g) (nblk g) (fun _ v => runs (fs_frag g) v k) map.
Definition cyl_blocks (g : fsgeom) (map : list Z) (y : Z) : Z :=
  blk_sum (fs_frag g) (nblk g) (fun h v =>
    if cbtocylno g (h * fs_frag g) =? y then b_full (fs_frag g) v else 0) map.
Definition rpos_blocks (g : fsgeom) (map : list Z) (y r : Z) : Z :=
  blk_sum (fs_frag g) (nblk g) (fun h v =>
    if (cbtocylno g (h * fs_frag g) =? y) && (cbtorpos g (h * fs_frag g) =? r)
    then b_full (fs_frag g) v else 0) map.

(** The per-cylinder tables are the ones the map implies. *)
Definition cyl_ok (g : fsgeom) (map btot : list Z) (b : list (list Z)) : Prop :=
  length b = 32%nat /\
  (forall y, 0 <= y < 32 -> btot !! Z.to_nat y = Some (cyl_blocks g map y)) /\
  (forall y row, 0 <= y < 32 -> b !! Z.to_nat y = Some row -> length row = 8%nat /\
     forall r, 0 <= r < NRPOS -> row !! Z.to_nat r = Some (rpos_blocks g map y r)).

Record cg_ok (g : fsgeom) (n : Z) (c : cg) : Prop := {
  ck_cgx : cg_cgx c = n;
  ck_map : map_ok (cg_free c);
  ck_len : Z.of_nat (length (cg_free c)) = (fs_fpg g + 7) / 8;
  (* bits past the last fragment of the group are not free *)
  ck_tail : forall h, nblk g <= h -> blkval (fs_frag g) (cg_free c) h = 0;
  ck_frotor : 0 <= cg_frotor c < fs_fpg g;
  ck_rotor : 0 <= cg_rotor c < fs_fpg g;
  ck_nbfree : cs_nbfree (cg_cs c) = free_blocks g (cg_free c);
  ck_nffree : cs_nffree (cg_cs c) = free_frags_of g (cg_free c);
  ck_frsum : length (cg_frsum c) = 8%nat /\ forall k, 1 <= k < fs_frag g ->
    cg_frsum c !! Z.to_nat k = Some (runs_of g (cg_free c) k);
  ck_cyl : cyl_ok g (cg_free c) (cg_btot c) (cg_b c)
}.

(** Sums of summaries, field by field. *)
Definition cs_zero : csum := Csum 0 0 0 0.
Definition cs_add (x : csum) : csum -> csum :=
  cs_adj (cs_ndir x) (cs_nbfree x) (cs_nifree x) (cs_nffree x).
Definition cs_sum (l : list csum) : csum := foldr cs_add cs_zero l.

(** The whole file system: each group is consistent, the super block's summary
    of it is a copy of the group's, and the totals are the sums.  Fragment 0 of
    the file system (the boot block) is never free. *)
Record ufs_ok (u : ufs) : Prop := {
  uo_geom : geom_ok (fs_geom (u_fs u));
  uo_ncg : Z.of_nat (length (u_cgs u)) = fs_ncg (fs_geom (u_fs u));
  uo_cgs : forall n c, u_cgs u !! n = Some c -> cg_ok (fs_geom (u_fs u)) (Z.of_nat n) c;
  uo_csp : fs_csp (u_fs u) = cg_cs <$> u_cgs u;
  uo_total : fs_cstotal (u_fs u) = cs_sum (fs_csp (u_fs u));
  uo_boot : forall c, u_cgs u !! 0%nat = Some c ->
    Z.testbit (blkval (fs_frag (fs_geom (u_fs u))) (cg_free c) 0) 0 = false
}.
