(* ===== verification/UfsOps.v ===== *)
(** * What the operations of the allocator do to a consistent cylinder group

    Each routine of [UfsAlloc] changes the bits of one block; here are the
    lemmas that turn such a change into the consistency of the summary counts,
    and the behaviour of the searches. *)
From S2P Require Import Prelude Fragmap UfsAlloc UfsInv.
#[local] Set Default Proof Using "All".

(** ** Arithmetic of a geometry *)

Section Geometry.
Context (g : fsgeom) (G : geom_ok g).

Lemma frag_pos : 1 <= fs_frag g <= 8.
Proof. by destruct (go_frag g G) as [-> | [-> | [-> | ->] ] ]. Qed.

Lemma fpg_eq : fs_fpg g = nblk g * fs_frag g.
Proof.
  pose proof frag_pos. unfold nblk. destruct (go_fpg g G) as (_ & [q ->] & _).
  rewrite Z.div_mul by lia. done.
Qed.

Lemma nblk_range : 0 < nblk g < 2 ^ 15 - 1.
Proof.
  pose proof frag_pos. pose proof fpg_eq. pose proof (go_fpg g G) as (? & _ & ?).
  unfold nblk in *. nia.
Qed.

Lemma blk_in_group map h : Z.of_nat (length map) = (fs_fpg g + 7) / 8 -> 0 <= h < nblk g ->
  blk_in (fs_frag g) map h.
Proof.
  intros Hl Hh. pose proof (per_byte_pos _ (go_frag g G)) as [Hp H8]. pose proof frag_pos.
  unfold blk_in. rewrite Hl. split; [lia|].
  assert (h * fs_frag g < (fs_fpg g + 7) / 8 * 8).
  { pose proof fpg_eq. pose proof (Z.div_mod (fs_fpg g + 7) 8). pose proof (Z.mod_pos_bound (fs_fpg g + 7) 8).
    nia. }
  nia.
Qed.

Lemma frag_div h p : 0 <= p < fs_frag g -> (h * fs_frag g + p) / fs_frag g = h.
Proof. intros. rewrite Z.div_add_l, Z.div_small by lia. lia. Qed.

Lemma frag_mod h p : 0 <= p < fs_frag g -> (h * fs_frag g + p) mod fs_frag g = p.
Proof. intros. rewrite Z.add_comm, Z.mod_add, Z.mod_small by lia. done. Qed.

Lemma fragstoblks_spec h p : 0 <= p < fs_frag g -> fragstoblks g (h * fs_frag g + p) = h.
Proof.
  intros. unfold fragstoblks. destruct (go_fragshift g G) as [? E].
  rewrite Z.shiftr_div_pow2 by lia. rewrite E. by apply frag_div.
Qed.

Lemma blkstofrags_spec h : blkstofrags g h = h * fs_frag g.
Proof.
  unfold blkstofrags. destruct (go_fragshift g G) as [? E].
  rewrite Z.shiftl_mul_pow2 by lia. by rewrite E.
Qed.

Lemma fragnum_spec x : fragnum g x = x mod fs_frag g.
Proof.
  unfold fragnum. destruct (go_fragshift g G) as [? E]. rewrite <- E.
  rewrite (land_ones_mod x (fs_fragshift g)); [done|lia|]. rewrite Z.ones_equiv. lia.
Qed.

Lemma blknum_spec x : blknum g x = x / fs_frag g * fs_frag g.
Proof.
  unfold blknum. pose proof (fragnum_spec x) as H. unfold fragnum in H. pose proof frag_pos.
  assert (x = Z.land x (fs_frag g - 1) + Z.land x (Z.lnot (fs_frag g - 1))) as E.
  { rewrite Z.add_nocarry_lxor.
    - apply Z.bits_inj'. intros i Hi. rewrite Z.lxor_spec, !Z.land_spec, Z.lnot_spec by lia.
      by destruct (Z.testbit x i), (Z.testbit (fs_frag g - 1) i).
    - apply Z.bits_inj'. intros i Hi. rewrite !Z.land_spec, Z.lnot_spec, Z.bits_0 by lia.
      by destruct (Z.testbit x i), (Z.testbit (fs_frag g - 1) i). }
  pose proof (Z.div_mod x (fs_frag g)). lia.
Qed.

Lemma numfrags_spec n : numfrags g (n * fs_fsize g) = n.
Proof.
  unfold numfrags. destruct (go_fshift g G) as [? E]. rewrite Z.shiftr_div_pow2, E by lia.
  apply Z.div_mul. apply Z.pow_nonzero; lia.
Qed.

Lemma fsize_pos : 0 < fs_fsize g.
Proof. destruct (go_fshift g G) as [? ->]. by apply Z.pow_pos_nonneg. Qed.

Lemma size_eqb n : (n * fs_fsize g =? fs_bsize g) = (n =? fs_frag g).
Proof.
  pose proof fsize_pos. destruct (go_bsize g G) as [-> _].
  destruct (Z.eqb_spec n (fs_frag g)) as [->|]; [by rewrite Z.eqb_refl|]. apply Z.eqb_neq. nia.
Qed.

Lemma cbtorpos_range bno : 0 <= bno -> 0 <= cbtorpos g bno < NRPOS.
Proof.
  intros. unfold cbtorpos, NSPF, NRPOS. destruct (go_cyl g G) as (_ & ? & ? & _).
  rewrite Z.rem_mod_nonneg by nia. pose proof (Z.mod_pos_bound (bno * fs_nspf g) (fs_nsect g)).
  rewrite Z.quot_div_nonneg by lia.
  split; [apply Z.div_pos; lia|apply Z.div_lt_upper_bound; lia].
Qed.

Lemma cbtocylno_range bno : 0 <= bno < fs_fpg g -> 0 <= cbtocylno g bno < 32.
Proof.
  intros. destruct (go_cyl g G) as (? & _ & ? & Hc). split; [|by apply Hc].
  unfold cbtocylno, NSPF. apply Z.quot_pos; nia.
Qed.

Lemma dtogd_range d : 0 <= d -> 0 <= dtogd g d < fs_fpg g.
Proof. intros. unfold dtogd. pose proof (go_fpg g G) as (? & _). apply Z.rem_bound_pos; lia. Qed.
End Geometry.

(** ** Runs of bits *)

Lemma blk_updated_trans frag m m1 m2 h v1 v2 :
  blk_updated frag m m1 h v1 -> blk_updated frag m1 m2 h v2 -> blk_updated frag m m2 h v2.
Proof.
  intros (_ & L1 & H1) (O2 & L2 & H2). split_and!; [done|congruence|].
  intros h' Hh'. rewrite H2 by done. destruct (Z.eqb_spec h' h) as [|Hne]; [done|].
  rewrite H1 by done. destruct (Z.eqb_spec h' h); [done|done].
Qed.

Lemma blk_updated_at frag m m' h v : blk_updated frag m m' h v -> 0 <= h -> blkval frag m' h = v.
Proof. intros (_ & _ & H) Hh. by rewrite H, Z.eqb_refl. Qed.

Lemma blk_updated_same frag m h : map_ok m -> blk_updated frag m m h (blkval frag m h).
Proof. intros. split_and!; [done|done|]. intros h' _. destruct (Z.eqb_spec h' h) as [->|]; done. Qed.

Lemma blk_updated_in frag m m' h v x : blk_updated frag m m' h v -> blk_in frag m x -> blk_in frag m' x.
Proof. intros (_ & L & _). unfold blk_in. by rewrite L. Qed.

Section Bits.
Context (frag : Z) (F : frag_ok frag).

Lemma fr_div h p : 0 <= p < frag -> (h * frag + p) / frag = h.
Proof. intros. rewrite Z.div_add_l, Z.div_small by lia. lia. Qed.

Lemma fr_mod h p : 0 <= p < frag -> (h * frag + p) mod frag = p.
Proof. intros. rewrite Z.add_comm, Z.mod_add, Z.mod_small by lia. done. Qed.

Lemma bit_ops_at map h p :
  map_ok map -> blk_in frag map h -> 0 <= p < frag ->
  isset map (h * frag + p) = Ok (Z.testbit (blkval frag map h) p) /\
  isclr map (h * frag + p) = Ok (negb (Z.testbit (blkval frag map h) p)) /\
  (exists map', setbit map (h * frag + p) = Ok map' /\
     blk_updated frag map map' h (Z.lor (blkval frag map h) (Z.shiftl 1 p))) /\
  (exists map', clrbit map (h * frag + p) = Ok map' /\
     blk_updated frag map map' h (Z.land (blkval frag map h) (Z.lnot (Z.shiftl 1 p)))).
Proof.
  intros Hm Hin Hp. pose proof (bit_ops_spec frag map (h * frag + p) F Hm) as H.
  rewrite fr_div, fr_mod in H by done. by apply H.
Qed.

Lemma bits_loop_clr n map h p :
  map_ok map -> blk_in frag map h -> 0 <= p -> p + Z.of_nat n <= frag ->
  exists map', bits_loop clrbit n map (h * frag + p) = Ok map' /\
    blk_updated frag map map' h (clr_bits (blkval frag map h) p (Z.of_nat n)).
Proof.
  revert map p. induction n as [|n IH]; intros map p Hm Hin Hp Hn; cbn [bits_loop].
  - exists map. split; [done|]. rewrite clr_bits_0. by apply blk_updated_same.
  - destruct (bit_ops_at map h p Hm Hin ltac:(lia)) as (_ & _ & _ & m1 & -> & H1). cbn [obind].
    rewrite <- Z.add_assoc.
    destruct (IH m1 (p + 1)) as (m2 & -> & H2); [apply H1|by eapply blk_updated_in|lia|lia|].
    exists m2. split; [done|]. eapply blk_updated_trans; [done|].
    rewrite (blk_updated_at _ _ _ _ _ H1) in H2 by apply Hin.
    rewrite clr_bits_step in H2 by lia. by rewrite Nat2Z.inj_succ.
Qed.

Lemma bits_loop_set n map h p :
  map_ok map -> blk_in frag map h -> 0 <= p -> p + Z.of_nat n <= frag ->
  exists map', bits_loop setbit n map (h * frag + p) = Ok map' /\
    blk_updated frag map map' h (set_bits (blkval frag map h) p (Z.of_nat n)).
Proof.
  revert map p. induction n as [|n IH]; intros map p Hm Hin Hp Hn; cbn [bits_loop].
  - exists map. split; [done|]. rewrite set_bits_0. by apply blk_updated_same.
  - destruct (bit_ops_at map h p Hm Hin ltac:(lia)) as (_ & _ & (m1 & -> & H1) & _). cbn [obind].
    rewrite <- Z.add_assoc.
    destruct (IH m1 (p + 1)) as (m2 & -> & H2); [apply H1|by eapply blk_updated_in|lia|lia|].
    exists m2. split; [done|]. eapply blk_updated_trans; [done|].
    rewrite (blk_updated_at _ _ _ _ _ H1) in H2 by apply Hin.
    rewrite set_bits_step in H2 by lia. by rewrite Nat2Z.inj_succ.
Qed.

(** [free]'s loop over fragments that are in use. *)
Lemma free_frags_spec n map h p :
  map_ok map -> blk_in frag map h -> 0 <= p -> p + Z.of_nat n <= frag ->
  (forall i, p <= i < p + Z.of_nat n -> Z.testbit (blkval frag map h) i = false) ->
  exists map', free_frags n map (h * frag + p) = Ok map' /\
    blk_updated frag map map' h (set_bits (blkval frag map h) p (Z.of_nat n)).
Proof.
  revert map p. induction n as [|n IH]; intros map p Hm Hin Hp Hn Hc; cbn [free_frags].
  - exists map. split; [done|]. rewrite set_bits_0. by apply blk_updated_same.
  - destruct (bit_ops_at map h p Hm Hin ltac:(lia)) as (-> & _ & (m1 & -> & H1) & _). cbn [obind].
    rewrite Hc by lia. rewrite <- Z.add_assoc.
    pose proof (blk_updated_at _ _ _ _ _ H1 ltac:(apply Hin)) as E1.
    destruct (IH m1 (p + 1)) as (m2 & -> & H2); [apply H1|by eapply blk_updated_in|lia|lia| |].
    { intros i Hi. rewrite E1, Z.lor_spec, Hc by lia.
      change 1 with (Z.ones 1) at 1. rewrite shl_ones_testbit by lia. simpl. lia. }
    exists m2. split; [done|]. eapply blk_updated_trans; [done|].
    rewrite E1 in H2. rewrite set_bits_step in H2 by lia. by rewrite Nat2Z.inj_succ.
Qed.

(** ... and when one of them is already free. *)
Lemma free_frags_panics n map h p :
  map_ok map -> blk_in frag map h -> 0 <= p -> p + Z.of_nat n <= frag ->
  (exists i, p <= i < p + Z.of_nat n /\ Z.testbit (blkval frag map h) i = true) ->
  free_frags n map (h * frag + p) = Panic "free: freeing free frag".
Proof.
  revert map p. induction n as [|n IH]; intros map p Hm Hin Hp Hn (i & Hi & Hf); [lia|].
  cbn [free_frags].
  destruct (bit_ops_at map h p Hm Hin ltac:(lia)) as (-> & _ & (m1 & -> & H1) & _). cbn [obind].
  destruct (Z.testbit (blkval frag map h) p) eqn:E; [done|]. rewrite <- Z.add_assoc.
  apply IH; [apply H1|by eapply blk_updated_in|lia|lia|].
  assert (i <> p) by congruence. exists i. split; [lia|].
  rewrite (blk_updated_at _ _ _ _ _ H1) by apply Hin. by rewrite Z.lor_spec, Hf.
Qed.
End Bits.

(** ** The counts follow the map *)

(** The per-cylinder tables with [d] added for block [h]. *)
Definition cyl_moved (g : fsgeom) (h d : Z) (btot : list Z) (b : list (list Z))
    (btot' : list Z) (b' : list (list Z)) : Prop :=
  length b' = length b /\
  (forall y x, 0 <= y < 32 -> btot !! Z.to_nat y = Some x ->
     btot' !! Z.to_nat y = Some (x + if cbtocylno g (h * fs_frag g) =? y then d else 0)) /\
  (forall y row row', 0 <= y < 32 -> b !! Z.to_nat y = Some row -> b' !! Z.to_nat y = Some row' ->
     length row' = length row /\
     forall r x, 0 <= r < NRPOS -> row !! Z.to_nat r = Some x ->
       row' !! Z.to_nat r
       = Some (x + if (cbtocylno g (h * fs_frag g) =? y) && (cbtorpos g (h * fs_frag g) =? r)
                   then d else 0)).

Lemma cyl_moved_0 g h btot b : cyl_moved g h 0 btot b btot b.
Proof.
  split_and!; [done| |].
  - intros y x _ ->. destruct (_ =? y); f_equal; lia.
  - intros y row row' _ -> [= ->]. split; [done|]. intros r x _ ->.
    destruct (_ && _); f_equal; lia.
Qed.

(** The fragment size table with the runs of [v] replaced by those of [v']. *)
Definition frsum_moved (frag v v' : Z) (l l' : list Z) : Prop :=
  length l' = length l /\
  forall k x, 1 <= k < frag -> l !! Z.to_nat k = Some x ->
    l' !! Z.to_nat k = Some (x + (runs frag v' k - runs frag v k)).

(** The group [c'] is [c] with block [h] changed to [v'] and counted so. *)
Record cg_moved (g : fsgeom) (c c' : cg) (h v' : Z) : Prop := {
  mv_blk : 0 <= h < nblk g;
  mv_map : blk_updated (fs_frag g) (cg_free c) (cg_free c') h v';
  mv_cgx : cg_cgx c' = cg_cgx c;
  mv_frotor : 0 <= cg_frotor c' < fs_fpg g;
  mv_rotor : 0 <= cg_rotor c' < fs_fpg g;
  mv_nbfree : cs_nbfree (cg_cs c') = cs_nbfree (cg_cs c)
    + (b_full (fs_frag g) v' - b_full (fs_frag g) (blkval (fs_frag g) (cg_free c) h));
  mv_nffree : cs_nffree (cg_cs c') = cs_nffree (cg_cs c)
    + (b_frags (fs_frag g) v' - b_frags (fs_frag g) (blkval (fs_frag g) (cg_free c) h));
  mv_frsum : frsum_moved (fs_frag g) (blkval (fs_frag g) (cg_free c) h) v'
    (cg_frsum c) (cg_frsum c');
  mv_cyl : cyl_moved g h
    (b_full (fs_frag g) v' - b_full (fs_frag g) (blkval (fs_frag g) (cg_free c) h))
    (cg_btot c) (cg_b c) (cg_btot c') (cg_b c')
}.

Lemma cyl_ok_moved g m m' h v' btot b btot' b' :
  0 <= h < nblk g -> blk_updated (fs_frag g) m m' h v' ->
  cyl_moved g h (b_full (fs_frag g) v' - b_full (fs_frag g) (blkval (fs_frag g) m h))
    btot b btot' b' ->
  cyl_ok g m btot b -> cyl_ok g m' btot' b'.
Proof.
  intros Hh Hm (L & T & B) (OL & OT & OB). split_and!; [congruence| |].
  - intros y Hy. rewrite (T y _ Hy (OT y Hy)). unfold cyl_blocks.
    rewrite (blk_sum_update _ _ _ m m' h v') by done. destruct (_ =? y); f_equal; lia.
  - intros y row' Hy Hrow'.
    destruct (lookup_lt_is_Some_2 b (Z.to_nat y)) as [row Hrow]; [lia|].
    destruct (OB y row Hy Hrow) as [Lr Hr]. destruct (B y row row' Hy Hrow Hrow') as [Lr' Hr'].
    split; [lia|]. intros r Hr0. rewrite (Hr' r _ Hr0 (Hr r Hr0)). unfold rpos_blocks.
    rewrite (blk_sum_update _ _ _ m m' h v') by done. destruct (_ && _); f_equal; lia.
Qed.

Lemma cg_ok_moved g n c c' h v' : cg_moved g c c' h v' -> cg_ok g n c -> cg_ok g n c'.
Proof.
  intros M [K1 K2 K3 K4 K5 K6 K7 K8 [K9 K10] K11]. pose proof (mv_map _ _ _ _ _ M) as Hm.
  pose proof (mv_blk _ _ _ _ _ M) as Hh. destruct (mv_frsum _ _ _ _ _ M) as [L F].
  constructor.
  - by rewrite (mv_cgx _ _ _ _ _ M).
  - apply Hm.
  - destruct Hm as (_ & -> & _). done.
  - intros x Hx. destruct Hm as (_ & _ & ->); [|lia]. destruct (Z.eqb_spec x h); [lia|]. by apply K4.
  - apply (mv_frotor _ _ _ _ _ M).
  - apply (mv_rotor _ _ _ _ _ M).
  - rewrite (mv_nbfree _ _ _ _ _ M), K7. unfold free_blocks.
    rewrite (blk_sum_update _ _ _ _ _ h v' Hm) by done. lia.
  - rewrite (mv_nffree _ _ _ _ _ M), K8. unfold free_frags_of.
    rewrite (blk_sum_update _ _ _ _ _ h v' Hm) by done. lia.
  - split; [lia|]. intros k Hk. rewrite (F k _ Hk (K10 k Hk)). unfold runs_of.
    rewrite (blk_sum_update _ _ _ _ _ h v' Hm) by done. done.
  - by eapply cyl_ok_moved; [exact Hh|exact Hm|apply (mv_cyl _ _ _ _ _ M)|].
Qed.

Lemma b_full_01 frag v : 0 <= b_full frag v <= 1.
Proof. unfold b_full, cbool. destruct (_ =? _); lia. Qed.

Lemma rpos_blocks_range g m y r : geom_ok g -> 0 <= rpos_blocks g m y r <= nblk g.
Proof.
  intros G. pose proof (nblk_range g G). unfold rpos_blocks. split.
  - apply blk_sum_nonneg. intros h. destruct (_ && _); [apply b_full_01|lia].
  - apply blk_sum_upper; [lia|]. intros h v. destruct (_ && _); [apply b_full_01|lia].
Qed.

Lemma blk_frag_range g h : geom_ok g -> 0 <= h < nblk g -> 0 <= h * fs_frag g < fs_fpg g.
Proof. intros G Hh. pose proof (frag_pos g G). pose proof (fpg_eq g G). nia. Qed.

Lemma cyl_adj_spec g m c h d :
  geom_ok g -> cyl_ok g m (cg_btot c) (cg_b c) -> 0 <= h < nblk g -> -1 <= d <= 1 ->
  exists btot b, cyl_adj g c (h * fs_frag g) d = Ok (set_cylinders c btot b) /\
    cyl_moved g h d (cg_btot c) (cg_b c) btot b.
Proof.
  intros G (OL & OT & OB) Hh Hd. pose proof (blk_frag_range g h G Hh) as Hbno.
  pose proof (cbtocylno_range g G _ Hbno) as Hy. pose proof (cbtorpos_range g G _ (proj1 Hbno)) as Hr.
  unfold cyl_adj. set (y := cbtocylno g (h * fs_frag g)) in *.
  set (r := cbtorpos g (h * fs_frag g)) in *.
  destruct (lookup_lt_is_Some_2 (cg_b c) (Z.to_nat y)) as [row Hrow]; [lia|].
  destruct (OB y row Hy Hrow) as [Lr Hrv].
  rewrite (aget_ok _ y row) by (done || lia). cbn [obind].
  rewrite (aupd_ok row r _ _ ltac:(lia) (Hrv r Hr)). cbn [obind].
  rewrite aset_ok by lia. cbn [obind].
  rewrite (aupd_ok _ y _ _ ltac:(lia) (OT y Hy)). cbn [obind].
  eexists _, _. split; [done|].
  pose proof (rpos_blocks_range g m y r G) as Hrb. pose proof (nblk_range g G) as Hnb.
  split_and!; [by rewrite length_insert| |]; fold y r.
  - intros y' x Hy' Hx. destruct (Z.eqb_spec y y') as [<-|Hne].
    + rewrite list_lookup_insert_eq by (by eapply lookup_lt_Some).
      f_equal. rewrite (OT y Hy) in Hx. injection Hx as <-. lia.
    + rewrite list_lookup_insert_ne by lia. rewrite Hx. f_equal. lia.
  - intros y' row0 row' Hy' Hrow0 Hrow'. destruct (Z.eqb_spec y y') as [<-|Hne].
    + rewrite list_lookup_insert_eq in Hrow' by lia. injection Hrow' as <-.
      rewrite Hrow in Hrow0. injection Hrow0 as <-. split; [by rewrite length_insert|].
      intros r' x Hr' Hx. simpl. destruct (Z.eqb_spec r r') as [<-|Hner].
      * rewrite list_lookup_insert_eq by (unfold NRPOS in *; lia). rewrite (Hrv r Hr) in Hx.
        injection Hx as <-. f_equal. rewrite s16_small by lia. lia.
      * rewrite list_lookup_insert_ne by lia. rewrite Hx. f_equal. lia.
    + rewrite list_lookup_insert_ne in Hrow' by lia. rewrite Hrow0 in Hrow'. injection Hrow' as <-.
      split; [done|]. intros r' x _ ->. simpl. f_equal. lia.
Qed.

(** ** The super block follows the groups *)

Lemma cs_eq (x y : csum) : cs_ndir x = cs_ndir y -> cs_nbfree x = cs_nbfree y ->
  cs_nifree x = cs_nifree y -> cs_nffree x = cs_nffree y -> x = y.
Proof. destruct x, y; simpl. by intros -> -> -> ->. Qed.

Lemma cs_sum_insert l n x a b c d : l !! n = Some x ->
  cs_sum (<[n := cs_adj a b c d x]> l) = cs_adj a b c d (cs_sum l).
Proof.
  revert n. induction l as [|y l IH]; intros [|n] Hx; [done..| |]; simpl in *.
  - injection Hx as ->. apply cs_eq; simpl; lia.
  - rewrite (IH n Hx). apply cs_eq; simpl; lia.
Qed.

Lemma cs_adj_adj a b c d a' b' c' d' x :
  cs_adj a' b' c' d' (cs_adj a b c d x) = cs_adj (a + a') (b + b') (c + c') (d + d') x.
Proof. apply cs_eq; simpl; lia. Qed.

(** [f'] is [f] with the counts of group [c] changed, here and in the total. *)
Record fs_moved (f f' : fs) (c : Z) (nd nb ni nf : Z) : Prop := {
  fm_geom : fs_geom f' = fs_geom f;
  fm_total : fs_cstotal f' = cs_adj nd nb ni nf (fs_cstotal f);
  fm_csp : exists x, fs_csp f !! Z.to_nat c = Some x /\
    fs_csp f' = <[Z.to_nat c := cs_adj nd nb ni nf x]> (fs_csp f)
}.

Lemma fs_adj_spec f c nd nb ni nf x : 0 <= c -> fs_csp f !! Z.to_nat c = Some x ->
  exists f', fs_adj f c nd nb ni nf = Ok f' /\ fs_moved f f' c nd nb ni nf.
Proof.
  intros Hc Hx. unfold fs_adj. rewrite (aupd_ok _ c x) by done. cbn [obind].
  eexists. split; [done|]. split; [done|done|]. by exists x.
Qed.

Lemma fs_moved_touch f f' c nd nb ni nf :
  fs_moved f f' c nd nb ni nf -> fs_moved f (fs_touch f') c nd nb ni nf.
Proof. intros [H1 H2 H3]. by split. Qed.

Lemma fs_moved_trans f f1 f2 c a b i d a' b' i' d' :
  fs_moved f f1 c a b i d -> fs_moved f1 f2 c a' b' i' d' ->
  fs_moved f f2 c (a + a') (b + b') (i + i') (d + d').
Proof.
  intros [G1 T1 (x & X1 & C1)] [G2 T2 (y & X2 & C2)]. split.
  - congruence.
  - by rewrite T2, T1, cs_adj_adj.
  - exists x. split; [done|]. rewrite C1 in X2.
    rewrite list_lookup_insert_eq in X2 by (by eapply lookup_lt_Some). injection X2 as <-.
    by rewrite C2, C1, list_insert_insert_eq, cs_adj_adj.
Qed.

Lemma fs_moved_lookup f f' c a b i d : fs_moved f f' c a b i d ->
  exists x, fs_csp f' !! Z.to_nat c = Some x.
Proof.
  intros [_ _ (x & X & C)]. rewrite C.
  rewrite list_lookup_insert_eq by (by eapply lookup_lt_Some). eauto.
Qed.

(** Fragments of a group, and of the file system. *)
Definition frag_free (frag : Z) (map : list Z) (i : Z) : bool :=
  Z.testbit (blkval frag map (i / frag)) (i mod frag).

(** Writing back a changed group keeps the file system consistent. *)
Lemma ufs_ok_put u f' c cgp cgp' nd nb ni nf :
  ufs_ok u -> 0 <= c -> u_cgs u !! Z.to_nat c = Some cgp ->
  cg_ok (fs_geom (u_fs u)) c cgp' -> cg_cs cgp' = cs_adj nd nb ni nf (cg_cs cgp) ->
  (c = 0 -> frag_free (fs_frag (fs_geom (u_fs u))) (cg_free cgp') 0 = false) ->
  fs_moved (u_fs u) f' c nd nb ni nf ->
  put_cg u f' c cgp' = Ok (Ufs f' (<[Z.to_nat c := cgp']> (u_cgs u))) /\
  ufs_ok (Ufs f' (<[Z.to_nat c := cgp']> (u_cgs u))).
Proof.
  intros U Hc Hcg K Hcs Hboot [MG MT (x & Hx & MC)]. pose proof (lookup_lt_Some _ _ _ Hcg).
  split; [unfold put_cg; by rewrite aset_ok by lia|].
  constructor; simpl; rewrite ?MG, ?length_insert; try apply U.
  - intros n k Hk. destruct (decide (n = Z.to_nat c)) as [->|Hne].
    + rewrite list_lookup_insert_eq in Hk by done. injection Hk as <-. by rewrite Z2Nat.id.
    + rewrite list_lookup_insert_ne in Hk by done. by apply U.
  - rewrite MC, list_fmap_insert, (uo_csp u U). f_equal.
    rewrite (uo_csp u U), list_lookup_fmap, Hcg in Hx. injection Hx as <-. done.
  - by rewrite MT, MC, cs_sum_insert, (uo_total u U).
  - intros k Hk. pose proof (frag_pos _ (uo_geom u U)).
    destruct (decide (0%nat = Z.to_nat c)) as [E|Hne].
    + rewrite E in Hk. rewrite list_lookup_insert_eq in Hk by done. injection Hk as <-.
      unfold frag_free in Hboot. rewrite Z.div_0_l, Z.mod_0_l in Hboot by lia. apply Hboot. lia.
    + rewrite list_lookup_insert_ne in Hk by done. by apply U.
Qed.

Lemma ufs_group u c : ufs_ok u -> 0 <= c < fs_ncg (fs_geom (u_fs u)) ->
  exists cgp, u_cgs u !! Z.to_nat c = Some cgp /\ cg_ok (fs_geom (u_fs u)) c cgp /\
    fs_csp (u_fs u) !! Z.to_nat c = Some (cg_cs cgp).
Proof.
  intros U Hc. destruct (lookup_lt_is_Some_2 (u_cgs u) (Z.to_nat c)) as [cgp Hcg].
  { pose proof (uo_ncg u U). lia. }
  exists cgp. split; [done|]. split.
  - pose proof (uo_cgs u U _ _ Hcg) as K. by rewrite Z2Nat.id in K by lia.
  - by rewrite (uo_csp u U), list_lookup_fmap, Hcg.
Qed.

(** ** [mapsearch] *)

Lemma scanc_spec n cp tbl mask :
  (n <= length cp)%nat -> length tbl = 256%nat -> map_ok cp ->
  exists loc, scanc n cp tbl mask = Ok loc /\
    ((loc = 0 /\ forall j b t, (j < n)%nat -> cp !! j = Some b -> aget tbl b = Ok t ->
        Z.land t mask = 0) \/
     (0 < loc <= Z.of_nat n /\ exists b t, cp !! Z.to_nat (Z.of_nat n - loc) = Some b /\
        aget tbl b = Ok t /\ Z.land t mask <> 0)).
Proof.
  intros Hn Ht. revert cp Hn. induction n as [|n IH]; intros cp Hn Hm; cbn [scanc].
  { exists 0. split; [done|]. left. split; [done|]. intros; lia. }
  destruct cp as [|c cp]; [simpl in Hn; lia|]. simpl in Hn.
  apply Forall_cons in Hm as [Hc Hm].
  destruct (aget_range tbl c) as [t Et]; [lia|]. rewrite Et. cbn [obind].
  destruct (Z.eqb_spec (Z.land t mask) 0) as [E|E].
  - destruct (IH cp ltac:(lia) Hm) as (loc & -> & Hl). exists loc. split; [done|].
    destruct Hl as [[-> Hl]|(Hr & b & t' & Hb & Hbt & Hne)].
    + left. split; [done|]. intros [|j] b t' Hj Hb Hbt; [|by eapply (Hl j); [lia| |]].
      simpl in Hb. injection Hb as ->. congruence.
    + right. split; [lia|]. exists b, t'. split; [|done].
      by replace (Z.to_nat (Z.of_nat (S n) - loc)) with (S (Z.to_nat (Z.of_nat n - loc))) by lia.
  - eexists. split; [done|]. right. split; [lia|]. exists c, t.
    by replace (Z.to_nat (Z.of_nat (S n) - Z.of_nat (S n))) with O by lia.
Qed.

Lemma mapsearch_pos_spec frag v k n pos :
  frag_ok frag -> 0 <= v < 2 ^ frag -> 1 <= k <= frag -> 0 <= pos ->
  pos + Z.of_nat n = frag - k + 1 ->
  (forall fld sub, aget around k = Ok fld -> aget inside k = Ok sub ->
   match mapsearch_pos n (Z.shiftl v 1) (Z.shiftl fld pos) (Z.shiftl sub pos) pos with
   | Some p => run_at frag v k p = true
   | None => forall p, pos <= p -> run_at frag v k p = false
   end).
Proof.
  intros Hf Hv Hk. revert pos. induction n as [|n IH]; intros pos Hpos Hn fld sub Hfld Hsub;
    cbn [mapsearch_pos].
  { intros p Hp. unfold run_at. destruct (Z.leb_spec (p + k) frag); [lia|].
    by rewrite andb_false_r. }
  destruct (pattern_spec frag v k pos Hf Hv Hk ltac:(lia)) as (fld' & sub' & E1 & E2 & E).
  rewrite Hfld in E1. rewrite Hsub in E2. injection E1 as <-. injection E2 as <-. rewrite E.
  destruct (run_at frag v k pos) eqn:Er; [done|].
  rewrite !Z.shiftl_shiftl by lia. specialize (IH (pos + 1) ltac:(lia) ltac:(lia) fld sub Hfld Hsub).
  destruct (mapsearch_pos _ _ _ _ _); [done|]. intros p Hp.
  destruct (Z.eq_dec p pos) as [->|]; [done|]. apply IH. lia.
Qed.

Lemma blkval_byte frag map j q : frag_ok frag -> 0 <= q < per_byte frag ->
  blkval frag map (j * per_byte frag + q) = byte_blk frag (byte_at map j) q.
Proof.
  intros F Hq. unfold blkval. rewrite Z.div_add_l, Z.div_small, Z.add_0_r by lia.
  by rewrite Z.add_comm, Z.mod_add, Z.mod_small by lia.
Qed.

(** The run [k], [p] of block [h] of the map. *)
Definition has_run_at (frag : Z) (map : list Z) (h k p : Z) : Prop :=
  run_at frag (blkval frag map h) k p = true.

Lemma mapsearch_sift_spec g map k n h i :
  geom_ok g -> map_ok map -> 1 <= k <= fs_frag g -> 0 <= h ->
  (forall x, h <= x -> x * fs_frag g < i -> blk_in (fs_frag g) map x) ->
  (exists x p, h <= x /\ x * fs_frag g < i /\ x < h + Z.of_nat n /\ has_run_at (fs_frag g) map x k p) ->
  exists x p, mapsearch_sift n g map k i (h * fs_frag g) = Ok (x * fs_frag g + p) /\
    h <= x /\ x * fs_frag g < i /\ has_run_at (fs_frag g) map x k p.
Proof.
  intros G Hm Hk. pose proof (go_frag g G) as F. revert h.
  induction n as [|n IH]; intros h Hh Hin (x & p & Hx & Hxi & Hn & Hrun); [lia|].
  pose proof (frag_pos g G) as Hfp. cbn [mapsearch_sift].
  destruct (Z.ltb_spec (h * fs_frag g) i); [|nia].
  rewrite blkmap_spec by (done || apply Hin; lia). cbn [obind].
  destruct (pattern_spec (fs_frag g) 0 k 0 F ltac:(pose proof (Z.pow_pos_nonneg 2 (fs_frag g)); lia) Hk ltac:(lia))
    as (fld & sub & E1 & E2 & _).
  rewrite E1, E2. cbn [obind].
  pose proof (mapsearch_pos_spec (fs_frag g) (blkval (fs_frag g) map h) k
    (Z.to_nat (fs_frag g - k + 1)) 0 F (blkval_bound _ _ _ F) Hk ltac:(lia) ltac:(lia) fld sub E1 E2) as Hp.
  rewrite !Z.shiftl_0_r in Hp. destruct (mapsearch_pos _ _ _ _ _) as [pos|].
  - exists h, pos. split_and!; [done|lia|done|done].
  - assert (x <> h). { intros ->. unfold has_run_at in Hrun. rewrite Hp in Hrun; [done|].
      unfold run_at in Hrun. blia. }
    replace (h * fs_frag g + fs_frag g) with ((h + 1) * fs_frag g) by lia.
    destruct (IH (h + 1)) as (x' & p' & -> & ? & ? & ?); [lia|intros; apply Hin; lia| |].
    + exists x, p. split_and!; [lia|done|lia|done].
    + exists x', p'. split_and!; [done|lia|done|done].
Qed.

Definition tbl_p (frag : Z) : bool :=
  match fragtbl_of frag with Ok tbl => (length tbl =? 256)%nat | _ => false end
  && forall_range 1 frag (fun k => u8 (fragtbl_mask frag k) =? fragtbl_mask frag k).

Lemma tbl_checked : check_frag tbl_p = true.
Proof. vm_compute. reflexivity. Qed.

Lemma tbl_spec frag k : frag_ok frag -> 1 <= k <= frag ->
  (exists tbl, fragtbl_of frag = Ok tbl /\ length tbl = 256%nat) /\
  u8 (Z.shiftl 1 (k - 1 + frag mod NBBY)) = fragtbl_mask frag k.
Proof.
  intros F Hk. pose proof (check_frag_elim _ frag tbl_checked F) as H. unfold tbl_p in H.
  apply andb_true_iff in H as [H Hr]. split.
  - destruct (fragtbl_of frag) as [tbl| |]; [|done..]. exists tbl. split; [done|].
    by apply Nat.eqb_eq.
  - apply forall_range_elim with (x := k) in Hr; [|lia]. by apply Z.eqb_eq.
Qed.

(** A byte of the map answers to the table exactly when a block in it has a run. *)
Lemma byte_match frag map k j tbl t :
  frag_ok frag -> map_ok map -> 1 <= k <= frag -> 0 <= j ->
  fragtbl_of frag = Ok tbl -> aget tbl (byte_at map j) = Ok t ->
  (Z.land t (fragtbl_mask frag k) <> 0 <->
   exists x p, j * per_byte frag <= x < (j + 1) * per_byte frag /\ has_run_at frag map x k p).
Proof.
  intros F Hm Hk Hj Htbl Ht. pose proof (per_byte_pos frag F) as [Hpb _].
  destruct (fragtbl_spec frag (byte_at map j) k F (byte_at_ok _ _ Hm) Hk) as (tbl' & t' & E1 & E2 & E).
  rewrite Htbl in E1. injection E1 as <-. rewrite Ht in E2. injection E2 as <-. rewrite E.
  split.
  - intros (q & p & Hq & Hr). exists (j * per_byte frag + q), p. split; [lia|].
    unfold has_run_at. by rewrite blkval_byte.
  - intros (x & p & Hx & Hr). exists (x - j * per_byte frag), p. split; [lia|].
    rewrite <- blkval_byte by (done || lia).
    by replace (j * per_byte frag + (x - j * per_byte frag)) with x by lia.
Qed.

(** Where a search over the bytes [lo .. lo + n - 1] of the map stops. *)
Lemma scan_bytes g map k tbl lo n :
  geom_ok g -> map_ok map -> 1 <= k <= fs_frag g ->
  fragtbl_of (fs_frag g) = Ok tbl -> length tbl = 256%nat ->
  0 <= lo -> 0 <= n -> lo + n <= Z.of_nat (length map) ->
  exists loc, scanc (Z.to_nat n) (drop (Z.to_nat lo) map) tbl (fragtbl_mask (fs_frag g) k) = Ok loc /\
    ((loc = 0 /\ forall j x p, lo <= j < lo + n -> j * per_byte (fs_frag g) <= x < (j + 1) * per_byte (fs_frag g) ->
        ~ has_run_at (fs_frag g) map x k p) \/
     (0 < loc <= n /\ let j := lo + n - loc in
      exists x p, j * per_byte (fs_frag g) <= x < (j + 1) * per_byte (fs_frag g) /\
    has_run_at (fs_frag g) map x k p)).
Proof.
  intros G Hm Hk Htbl Ht Hlo Hn Hlen. pose proof (go_frag g G) as F.
  destruct (scanc_spec (Z.to_nat n) (drop (Z.to_nat lo) map) tbl (fragtbl_mask (fs_frag g) k))
    as (loc & Eloc & Hl); [rewrite length_drop; lia|done|by apply Forall_drop|].
  exists loc. split; [done|].
  assert (Hb : forall j b, lo <= j -> drop (Z.to_nat lo) map !! Z.to_nat (j - lo) = Some b ->
             b = byte_at map j).
  { intros j b Hj Hjb. rewrite lookup_drop in Hjb. unfold byte_at.
    replace (Z.to_nat lo + Z.to_nat (j - lo))%nat with (Z.to_nat j) in Hjb by lia. by rewrite Hjb. }
  destruct Hl as [[-> Hl]|(Hr & b & t & Eb & Et & Hne)]; [left|right].
  - split; [done|]. intros j x p Hj Hx Hrun.
    destruct (lookup_lt_is_Some_2 (drop (Z.to_nat lo) map) (Z.to_nat (j - lo))) as [b Eb].
    { rewrite length_drop. lia. }
    pose proof (Hb j b ltac:(lia) Eb) as ->. pose proof (byte_at_ok map j Hm).
    destruct (aget_range tbl (byte_at map j)) as [t Et]; [lia|].
    apply (proj2 (byte_match _ map k j tbl t F Hm Hk ltac:(lia) Htbl Et)); [by exists x, p|].
    by apply (Hl (Z.to_nat (j - lo)) (byte_at map j)); [lia| |].
  - split; [lia|]. cbv zeta. set (j := lo + n - loc).
    replace (Z.to_nat (Z.of_nat (Z.to_nat n) - loc)) with (Z.to_nat (j - lo)) in Eb by lia.
    pose proof (Hb j b ltac:(lia) Eb) as ->.
    by apply (byte_match _ map k j tbl t F Hm Hk ltac:(lia) Htbl Et).
Qed.

(** A block with a run is found: the two scans cover every byte of the map. *)
Lemma mapsearch_byte_spec g map k tbl start x0 p0 :
  geom_ok g -> map_ok map -> 1 <= k <= fs_frag g ->
  fragtbl_of (fs_frag g) = Ok tbl -> length tbl = 256%nat ->
  let L := Z.of_nat (length map) in
  0 <= start < L -> L < 2 ^ 32 -> 0 <= x0 < L * per_byte (fs_frag g) ->
  has_run_at (fs_frag g) map x0 k p0 ->
  exists j, mapsearch_byte map tbl (fragtbl_mask (fs_frag g) k) start (L - start) = Ok j /\
    0 <= j < L /\
    exists x p, j * per_byte (fs_frag g) <= x < (j + 1) * per_byte (fs_frag g) /\
      has_run_at (fs_frag g) map x k p.
Proof.
  intros G Hm Hk Htbl Hlt L Hs HL Hx0 Hrun0.
  pose proof (per_byte_pos _ (go_frag g G)) as [Hpb _].
  unfold mapsearch_byte. change (0 <? 0) with false. destruct (Z.ltb_spec start 0); [lia|].
  rewrite !u32_small by lia. cbv zeta.
  destruct (scan_bytes g map k tbl start (L - start) G Hm Hk Htbl Hlt)
    as (loc & -> & H1); [lia..|]. cbn [obind].
  destruct H1 as [[-> H1]|[Hr H1]].
  - rewrite Z.eqb_refl. cbv iota.
    destruct (scan_bytes g map k tbl 0 (start + 1) G Hm Hk Htbl Hlt)
      as (loc & -> & H2); [lia..|]. cbn [obind].
    destruct H2 as [[-> H2]|[Hr H2]].
    + exfalso. set (j := x0 / per_byte (fs_frag g)).
      assert (Hj : j * per_byte (fs_frag g) <= x0 < (j + 1) * per_byte (fs_frag g)).
      { unfold j. pose proof (Z.div_mod x0 (per_byte (fs_frag g))).
        pose proof (Z.mod_pos_bound x0 (per_byte (fs_frag g))). nia. }
      assert (0 <= j < L) by nia.
      destruct (Z.le_gt_cases start j); [by apply (H1 j x0 p0); [lia| |]|].
      by apply (H2 j x0 p0); [lia| |].
    + destruct (Z.eqb_spec loc 0); [lia|]. eexists. split; [done|]. split; [lia|]. exact H2.
  - destruct (Z.eqb_spec loc 0); [lia|]. eexists. split; [done|]. split; [lia|].
    exact H1.
Qed.

Lemma map_length_bytes g n c : geom_ok g -> cg_ok g n c ->
  let L := Z.of_nat (length (cg_free c)) in
  howmany (fs_fpg g) NBBY = L /\ fs_fpg g <= L * 8 < fs_fpg g + 8 /\ L < 2 ^ 32 /\
  (forall y, 0 <= y < fs_fpg g -> 0 <= Z.quot y NBBY < L).
Proof.
  intros G K L. pose proof (ck_len _ _ _ K) as Hlen. fold L in Hlen.
  pose proof (frag_pos g G). pose proof (fpg_eq g G). pose proof (nblk_range g G).
  pose proof (Z.div_mod (fs_fpg g + 7) 8). pose proof (Z.mod_pos_bound (fs_fpg g + 7) 8).
  assert (2 ^ 15 = 32768 /\ 2 ^ 32 = 4294967296) as [? ?] by done.
  split_and!; [|nia|nia|nia|].
  - unfold howmany, NBBY. rewrite Z.quot_div_nonneg by lia. rewrite Hlen. f_equal; lia.
  - intros y Hy. unfold NBBY. rewrite Z.quot_div_nonneg by lia.
    pose proof (Z.div_mod y 8). pose proof (Z.mod_pos_bound y 8). split; [apply Z.div_pos; lia|lia].
Qed.

Lemma mapsearch_spec g n c bpref k :
  geom_ok g -> cg_ok g n c -> 1 <= k <= fs_frag g -> 0 <= bpref ->
  (exists x p, 0 <= x < nblk g /\ has_run_at (fs_frag g) (cg_free c) x k p) ->
  exists ro x p, mapsearch g c bpref k = Ok (set_frotor c ro, x * fs_frag g + p) /\
    0 <= ro < fs_fpg g /\ 0 <= x < nblk g /\ has_run_at (fs_frag g) (cg_free c) x k p.
Proof.
  intros G K Hk Hbp (x0 & p0 & Hx0 & Hrun0). pose proof (go_frag g G) as F.
  pose proof (frag_pos g G) as Hfp. pose proof (fpg_eq g G) as Hfpg.
  pose proof (per_byte_pos _ F) as [Hpb H8]. pose proof (ck_map _ _ _ K) as Hm.
  destruct (tbl_spec (fs_frag g) k F Hk) as ((tbl & Htbl & Hlt) & Emask).
  destruct (map_length_bytes g n c G K) as (HL & HL8 & HL32 & Hq).
  set (L := Z.of_nat (length (cg_free c))) in *.
  unfold mapsearch. rewrite Htbl, HL, Emask. cbn [obind].
  set (start := if nz bpref then _ else _).
  assert (Hs : 0 <= start < L).
  { unfold start. destruct (nz bpref); apply Hq; [by apply dtogd_range|apply (ck_frotor _ _ _ K)]. }
  pose proof (mapsearch_byte_spec g (cg_free c) k tbl start x0 p0 G Hm Hk Htbl Hlt Hs HL32) as Hb.
  fold L in Hb. destruct Hb as (j & -> & Hj & x1 & p1 & Hx1 & Hrun1); [nia|done|]. cbn [obind].
  assert (Hin : forall x p, has_run_at (fs_frag g) (cg_free c) x k p -> x < nblk g).
  { intros x p Hr. destruct (Z.lt_ge_cases x (nblk g)) as [|Hge]; [done|exfalso].
    unfold has_run_at in Hr. rewrite (ck_tail _ _ _ K x Hge) in Hr. unfold run_at in Hr. bsimp.
    match goal with H : forall_range _ _ _ = true |- _ =>
      apply forall_range_elim with (x := p) in H; [|lia]; by rewrite Z.bits_0 in H end. }
  assert (E8 : j * NBBY = j * per_byte (fs_frag g) * fs_frag g) by (unfold NBBY; rewrite <- H8; ring).
  rewrite E8. cbn [cg_free set_frotor].
  destruct (mapsearch_sift_spec g (cg_free c) k (S (Z.to_nat NBBY)) (j * per_byte (fs_frag g))
    (j * per_byte (fs_frag g) * fs_frag g + NBBY) G Hm Hk ltac:(nia)) as (x & p & -> & Hx & Hxi & Hrun).
  - intros x Hx Hxi. split; [nia|]. fold L. unfold NBBY in *. nia.
  - exists x1, p1. unfold NBBY. split_and!; [lia|nia|nia|done].
  - cbn [obind]. eexists _, x, p. split; [done|]. pose proof (Hin x p Hrun).
    split_and!; [nia|nia|nia|done|done].
Qed.

(** ** [alloccgblk] *)

(** The walk [rotbl_walk] makes from index [i] of [fs_rotbl] reaches [target]. *)
Fixpoint rot_walk_to (fuel : nat) (g : fsgeom) (target i : Z) : bool :=
  match fuel with
  | O => false
  | S fuel =>
      (i =? target) ||
      match aget (fs_rotbl g) i with
      | Ok delta => (0 <? delta) && (delta <=? MAXBPC g - i) && rot_walk_to fuel g target (i + delta)
      | _ => false
      end
  end.

(** The first block of the cylinder cycle of fragment [bno]. *)
Definition rot_base (g : fsgeom) (bno : Z) : Z :=
  let cylno := cbtocylno g bno in
  Z.quot ((cylno - Z.rem cylno (fs_cpc g)) * fs_spc g) (NSPB g).

Definition rot_reaches (g : fsgeom) (h : Z) : bool :=
  let bno := h * fs_frag g in
  match aget (fs_postbl g) (Z.rem (cbtocylno g bno) (fs_cpc g)) with
  | Ok row =>
      match aget row (cbtorpos g bno) with
      | Ok first => (0 <=? first)
          && rot_walk_to (Z.to_nat (MAXBPC g + 1)) g (h - rot_base g bno) first
      | _ => false
      end
  | _ => false
  end.

(** What the rotational layout tables promise: they are absent, or from the
    table of a block's cylinder and rotational position the walk reaches it. *)
Definition rot_ok (g : fsgeom) : Prop :=
  fs_cpc g = 0 \/ (0 < fs_cpc g /\ forall h, 0 <= h < nblk g -> rot_reaches g h = true).

Definition full_p (frag : Z) : bool := run_at frag (blk_full frag) frag 0.

Lemma full_checked : check_frag full_p = true.
Proof. vm_compute. reflexivity. Qed.

Lemma full_run frag v p : frag_ok frag -> 0 <= v < 2 ^ frag ->
  run_at frag v frag p = true <-> v = blk_full frag /\ p = 0.
Proof.
  intros F Hv. split.
  - intros Hr. destruct (take_block frag v frag p 1 F Hv Hr) as (_ & E & _).
    { destruct F as [-> | [-> | [-> | ->] ] ]; lia. }
    split; [by apply E|]. unfold run_at in Hr. blia.
  - intros [-> ->]. apply (check_frag_elim _ frag full_checked F).
Qed.

Lemma full_free g n c : geom_ok g -> cg_ok g n c -> 0 < cs_nbfree (cg_cs c) ->
  exists x p, 0 <= x < nblk g /\ has_run_at (fs_frag g) (cg_free c) x (fs_frag g) p.
Proof.
  intros G K Hp. rewrite (ck_nbfree _ _ _ K) in Hp. unfold free_blocks in Hp.
  apply blk_sum_pos in Hp as (h & Hh & Hb). exists h, 0. split; [done|].
  apply full_run; [apply (go_frag g G)|by apply blkval_bound, (go_frag g G)|]. split; [|done].
  unfold b_full, cbool in Hb. destruct (Z.eqb_spec (blkval (fs_frag g) (cg_free c) h) (blk_full (fs_frag g))); lia.
Qed.

(** The block [h] of group [n] was taken. *)
Definition blk_taken (f : fs) (c : cg) (n : Z) (r : outcome (fs * cg * Z)) : Prop :=
  let g := fs_geom f in
  exists f' c' h, r = Ok (f', c', n * fs_fpg g + h * fs_frag g) /\
    blkval (fs_frag g) (cg_free c) h = blk_full (fs_frag g) /\
    cg_moved g c c' h 0 /\ cg_cs c' = cs_adj 0 (-1) 0 0 (cg_cs c) /\
    fs_moved f f' n 0 (-1) 0 0.

Lemma gotit_spec f c n h x rot frot :
  let g := fs_geom f in
  geom_ok g -> cg_ok g n c -> 0 <= n -> fs_csp f !! Z.to_nat n = Some x ->
  0 <= h < nblk g -> blkval (fs_frag g) (cg_free c) h = blk_full (fs_frag g) ->
  0 <= rot < fs_fpg g -> 0 <= frot < fs_fpg g ->
  blk_taken f c n (alloccgblk_gotit f (set_rotor (set_frotor c frot) rot) (h * fs_frag g)).
Proof.
  intros g G K Hn Hx Hh Hfull Hrot Hfrot. pose proof (go_frag g G) as F.
  destruct (clrblock_spec (fs_frag g) (cg_free c) h F (ck_map _ _ _ K)) as (m & Em & Hm).
  { apply blk_in_group; [done|apply K|done]. }
  destruct (fs_adj_spec f n 0 (-1) 0 0 x Hn Hx) as (f1 & Ef & Mf).
  unfold alloccgblk_gotit. fold g. pose proof (frag_pos g G).
  pose proof (fragstoblks_spec g G h 0 ltac:(lia)) as Efs. rewrite Z.add_0_r in Efs. rewrite Efs.
  cbn [cg_free set_rotor set_frotor]. rewrite Em. cbn [obind].
  cbn [cg_cs cg_cgx set_cs set_free set_rotor set_frotor]. rewrite (ck_cgx _ _ _ K), Ef. cbn [obind].
  destruct (cyl_adj_spec g (cg_free c)
    (set_cs (set_free (set_rotor (set_frotor c frot) rot) m) (cs_adj 0 (-1) 0 0 (cg_cs c))) h (-1) G)
    as (btot & b & -> & Hcyl); [apply (ck_cyl _ _ _ K)|done|lia|]. cbn [obind].
  unfold blk_taken. fold g. eexists _, _, h. split; [simpl; by rewrite (ck_cgx _ _ _ K)|]. split; [done|].
  pose proof (ends_spec (fs_frag g) F) as (Hp0 & _ & Hruns).
  assert (Hne : (0 =? blk_full (fs_frag g)) = false)
    by (destruct F as [-> | [-> | [-> | ->] ] ]; done).
  split_and!; [|done|by apply fs_moved_touch].
  split; cbn [cg_free cg_cgx cg_frotor cg_rotor cg_cs cg_frsum cg_btot cg_b cs_nbfree cs_nffree
              set_cylinders set_cs set_free set_rotor set_frotor cs_adj]; fold g in Hfull; rewrite ?Hfull; try done.
  - unfold b_full. rewrite Z.eqb_refl, Hne. simpl. lia.
  - unfold b_frags. rewrite Z.eqb_refl, Hne, Hp0. lia.
  - split; [done|]. intros k y Hk ->. destruct (Hruns k Hk) as [-> ->]. f_equal. lia.
  - unfold b_full. rewrite Z.eqb_refl, Hne. simpl. exact Hcyl.
Qed.

Lemma set_rotors_id c : set_rotor (set_frotor c (cg_frotor c)) (cg_rotor c) = c.
Proof. by destruct c. Qed.

Lemma rpos_scan_spec k l i : 0 <= i -> i + Z.of_nat k <= Z.of_nat (length l) ->
  exists j, rpos_scan k l i = Ok j /\ i <= j <= i + Z.of_nat k.
Proof.
  revert i. induction k as [|k IH]; intros i Hi Hl; cbn [rpos_scan]; [exists i; split; [done|lia]|].
  destruct (aget_range l i) as [y ->]; [lia|]. cbn [obind].
  destruct (0 <? y); [exists i; split; [done|lia]|].
  destruct (IH (i + 1)) as (j & -> & Hj); [lia|lia|]. exists j. split; [done|lia].
Qed.

(** A positive count in the rotational table names a free block. *)
Lemma rpos_block g c y r : 0 < rpos_blocks g (cg_free c) y r ->
  exists h, 0 <= h < nblk g /\ blkval (fs_frag g) (cg_free c) h = blk_full (fs_frag g) /\
    cbtocylno g (h * fs_frag g) = y /\ cbtorpos g (h * fs_frag g) = r.
Proof.
  unfold rpos_blocks. intros (h & Hh & Hp)%blk_sum_pos. exists h. split; [done|].
  destruct (_ && _) eqn:E; [|lia]. bsimp. unfold b_full, cbool in Hp.
  destruct (Z.eqb_spec (blkval (fs_frag g) (cg_free c) h) (blk_full (fs_frag g))); [done|lia].
Qed.

Section Alloccgblk.
Context (f : fs) (c : cg) (n : Z) (x : csum).
Let g := fs_geom f.
Context (G : geom_ok g) (K : cg_ok g n c) (Hn : 0 <= n) (Hx : fs_csp f !! Z.to_nat n = Some x).

Lemma gotit_plain h : 0 <= h < nblk g ->
  blkval (fs_frag g) (cg_free c) h = blk_full (fs_frag g) ->
  blk_taken f c n (alloccgblk_gotit f c (h * fs_frag g)).
Proof.
  intros Hh Hf. rewrite <- (set_rotors_id c) at 2.
  by apply (gotit_spec f c n h x); [..|apply (ck_rotor _ _ _ K)|apply (ck_frotor _ _ _ K)].
Qed.

Lemma norot_spec bpref : 0 < cs_nbfree (cg_cs c) -> 0 <= bpref ->
  blk_taken f c n (alloccgblk_norot f c bpref).
Proof.
  intros Hfree Hb. pose proof (frag_pos g G).
  destruct (mapsearch_spec g n c bpref (fs_frag g) G K ltac:(lia) Hb) as (ro & h & p & E & Hro & Hh & Hr).
  { by eapply full_free. }
  unfold alloccgblk_norot. fold g. rewrite E. cbn [obind].
  apply full_run in Hr as [Hv ->]; [|apply (go_frag g G)|by apply blkval_bound, (go_frag g G)].
  rewrite Z.add_0_r. pose proof (blk_frag_range g h G Hh).
  destruct (Z.ltb_spec (h * fs_frag g) 0); [lia|]. by apply (gotit_spec f c n h x).
Qed.

(** The walk through [fs_rotbl] finds a free block of the chain. *)
Lemma rotbl_walk_spec fuel bno target i :
  0 <= bno -> 0 <= i -> 0 <= bno + target < nblk g ->
  blkval (fs_frag g) (cg_free c) (bno + target) = blk_full (fs_frag g) ->
  rot_walk_to fuel g target i = true ->
  exists h, rotbl_walk fuel f c bno i = Ok (Some (h * fs_frag g)) /\ 0 <= h < nblk g /\
    blkval (fs_frag g) (cg_free c) h = blk_full (fs_frag g).
Proof.
  intros Hb Hi Ht Hv. revert i Hi.
  assert (Hle : forall fuel i, rot_walk_to fuel g target i = true -> i <= target).
  { clear. induction fuel as [|fuel IH]; intros i; cbn [rot_walk_to]; [done|].
    intros [E|E]%orb_true_iff; [lia|]. destruct (aget _ _); [|done..]. bsimp.
    match goal with H : rot_walk_to _ _ _ _ = true |- _ => apply IH in H end. lia. }
  induction fuel as [|fuel IH]; intros i Hi Hw; [done|]. pose proof (Hle _ _ Hw).
  cbn [rotbl_walk]. fold g. cbn [rot_walk_to] in Hw.
  rewrite isblock_spec; [|apply (go_frag g G)|apply (ck_map _ _ _ K)|
    apply blk_in_group; [exact G|apply (ck_len _ _ _ K)|lia]]. cbn [obind].
  destruct (Z.eqb_spec (blkval (fs_frag g) (cg_free c) (bno + i)) (blk_full (fs_frag g))) as [E|E].
  - exists (bno + i). rewrite (blkstofrags_spec g G). split_and!; [done|lia|lia|done].
  - destruct (Z.eqb_spec i target) as [->|]; [done|]. simpl in Hw.
    destruct (aget (fs_rotbl g) i) as [delta| |]; [|done..]. bsimp. cbn [obind].
    destruct ((delta <=? 0) || (MAXBPC g - i <? delta)) eqn:E2; [lia|]. apply IH; [lia|done].
Qed.

Context (R : rot_ok g).

(** The rotationally optimal choice, once the scan stopped at position [i]. *)
Lemma rot_choice y i row : 0 < cs_nbfree (cg_cs c) -> fs_cpc g <> 0 -> 0 <= y < 32 -> 0 <= i < NRPOS ->
  0 < rpos_blocks g (cg_free c) y i ->
  aget (fs_postbl g) (Z.rem y (fs_cpc g)) = Ok row ->
  blk_taken f c n
    (let* first := aget row i in
     if first =? -1 then Panic "alloccgblk: cyl groups corrupted"
     else
       let* r := rotbl_walk (Z.to_nat (MAXBPC g + 1)) f c
                   (Z.quot ((y - Z.rem y (fs_cpc g)) * fs_spc g) (NSPB g)) first in
       match r with
       | Some bno => alloccgblk_gotit f c bno
       | None => Panic "alloccgblk: can't find blk in cyl"
       end).
Proof.
  intros Hfree Hcpc Hy Hi Hpos Hrow. destruct R as [E|[Hc Hreach]]; [done|].
  destruct (rpos_block g c y i Hpos) as (h & Hh & Hv & Ecyl & Erpos).
  specialize (Hreach h Hh). unfold rot_reaches, rot_base in Hreach.
  rewrite Ecyl, Erpos, Hrow in Hreach. destruct (aget row i) as [first| |]; [|done..].
  cbn [obind]. apply andb_true_iff in Hreach as [Hfirst Hwalk]. apply Z.leb_le in Hfirst.
  destruct (Z.eqb_spec first (-1)); [lia|].
  set (base := Z.quot _ _) in *.
  assert (Hbase : 0 <= base).
  { unfold base, NSPB. destruct (go_cyl g G) as (? & _ & ? & _). destruct (go_fragshift g G) as [? _].
    rewrite Z.shiftl_mul_pow2 by lia. pose proof (Z.pow_pos_nonneg 2 (fs_fragshift g) ltac:(lia) ltac:(lia)).
    apply Z.quot_pos; [|nia]. pose proof (Z.rem_le y (fs_cpc g)). nia. }
  destruct (rotbl_walk_spec (Z.to_nat (MAXBPC g + 1)) base (h - base) first Hbase Hfirst)
    as (h' & -> & Hh' & Hv'); [lia|by rewrite Zplus_minus|done|]. cbn [obind].
  by apply gotit_plain.
Qed.
End Alloccgblk.

Lemma dtogd_blk g q : geom_ok g -> 0 <= q ->
  dtogd g (q * fs_frag g) = q mod nblk g * fs_frag g.
Proof.
  intros G Hq. pose proof (frag_pos g G). pose proof (fpg_eq g G) as E. pose proof (nblk_range g G).
  unfold dtogd. rewrite Z.rem_mod_nonneg by nia. rewrite E. by rewrite Z.mul_mod_distr_r by lia.
Qed.

Lemma norot_cyl_range g bpref : geom_ok g -> 0 <= bpref ->
  0 <= howmany (fs_spc g * cbtocylno g bpref) (NSPF g).
Proof.
  intros G Hb. unfold howmany, NSPF, cbtocylno. destruct (go_cyl g G) as (? & _ & ? & _).
  apply Z.quot_pos; [|lia]. pose proof (Z.quot_pos (bpref * fs_nspf g) (fs_spc g)). unfold NSPF in *. nia.
Qed.

Lemma alloccgblk_spec f c n x bpref :
  geom_ok (fs_geom f) -> rot_ok (fs_geom f) -> cg_ok (fs_geom f) n c -> 0 <= n ->
  fs_csp f !! Z.to_nat n = Some x -> 0 <= bpref -> 0 < cs_nbfree (cg_cs c) ->
  blk_taken f c n (alloccgblk f c bpref).
Proof.
  intros G R K Hn Hx Hb Hfree. unfold alloccgblk. set (g := fs_geom f) in *.
  destruct (Z.eqb_spec bpref 0) as [_|Hne].
  { apply (norot_spec f c n x); [done..|]. apply (ck_rotor _ _ _ K). }
  pose proof (frag_pos g G) as Hfp. pose proof (nblk_range g G) as Hnb.
  rewrite (blknum_spec g G). rewrite dtogd_blk by (done || apply Z.div_pos; lia).
  pose proof (Z.mod_pos_bound (bpref / fs_frag g) (nblk g) ltac:(lia)) as Hh.
  set (h := (bpref / fs_frag g) mod nblk g) in *. pose proof (blk_frag_range g h G Hh) as Hbno.
  pose proof (fragstoblks_spec g G h 0 ltac:(lia)) as Efs. rewrite Z.add_0_r in Efs. rewrite Efs.
  rewrite isblock_spec; [|apply (go_frag g G)|apply (ck_map _ _ _ K)|
    apply blk_in_group; [exact G|apply (ck_len _ _ _ K)|lia]]. cbn [obind].
  destruct (Z.eqb_spec (blkval (fs_frag g) (cg_free c) h) (blk_full (fs_frag g))) as [E|_].
  { by apply (gotit_plain f c n x). }
  pose proof (cbtocylno_range g G _ Hbno) as Hy. destruct (ck_cyl _ _ _ K) as (OL & OT & OB).
  set (y := cbtocylno g (h * fs_frag g)) in *.
  rewrite (aget_ok _ y _ ltac:(lia) (OT y Hy)). cbn [obind].
  destruct (_ =? 0); [by apply (norot_spec f c n x); [..|lia]|].
  destruct (Z.eqb_spec (fs_cpc g) 0) as [_|Hcpc].
  { apply (norot_spec f c n x); [done..|]. apply (norot_cyl_range g (h * fs_frag g)); [done|lia]. }
  destruct (lookup_lt_is_Some_2 (cg_b c) (Z.to_nat y)) as [row Hrow]; [lia|].
  destruct (OB y row Hy Hrow) as [Lr Hr]. rewrite (aget_ok _ y row) by (done || lia). cbn [obind].
  pose proof (cbtorpos_range g G _ (proj1 Hbno)) as Hpos. set (pos := cbtorpos g (h * fs_frag g)) in *.
  unfold NRPOS in *.
  destruct (rpos_scan_spec (Z.to_nat (8 - pos)) row pos) as (i0 & -> & Hi0); [lia|lia|]. cbn [obind].
  assert (Hi : exists i, (if i0 =? 8 then rpos_scan (Z.to_nat pos) row 0 else Ok i0) = Ok i /\ 0 <= i < 8).
  { destruct (Z.eqb_spec i0 8); [|exists i0; split; [done|lia]].
    destruct (rpos_scan_spec (Z.to_nat pos) row 0) as (i & -> & Hi); [lia|lia|].
    exists i. split; [done|lia]. }
  destruct Hi as (i & -> & Hi). cbn [obind].
  rewrite (aget_ok row i _ ltac:(lia) (Hr i ltac:(lia))). cbn [obind].
  destruct (Z.ltb_spec 0 (rpos_blocks g (cg_free c) y i)) as [Hp|_]; [|by apply (norot_spec f c n x); [..|lia] ].
  assert (Hrow' : exists prow, aget (fs_postbl g) (Z.rem y (fs_cpc g)) = Ok prow).
  { destruct R as [?|[_ Hre]]; [done|]. destruct (rpos_block g c y i Hp) as (h' & Hh' & _ & Ec & _).
    specialize (Hre h' Hh'). unfold rot_reaches in Hre. rewrite Ec in Hre.
    destruct (aget _ _) as [prow| |]; [eauto|done..]. }
  destruct Hrow' as [prow Eprow]. rewrite Eprow. cbn [obind].
  by apply (rot_choice f c n x G K Hn Hx R y i prow).
Qed.
