(* ===== verification/UfsSample.v ===== *)
(** * A checker for the allocator's invariant, and a sample file system

    [ufs_check] decides the invariant [ufs_ok] the way [fsck] would, by
    recomputing every count from the free maps.  It shows that the hypotheses of
    the allocator's theorems hold of concrete file systems. *)
From S2P Require Import Prelude Fragmap UfsAlloc UfsInv UfsOps.

Definition frag_okb (frag : Z) : bool := existsb (Z.eqb frag) [1; 2; 4; 8].

Definition geom_check (g : fsgeom) : bool :=
  frag_okb (fs_frag g)
  && (0 <=? fs_fragshift g) && (2 ^ fs_fragshift g =? fs_frag g)
  && (0 <=? fs_fshift g) && (fs_fsize g =? 2 ^ fs_fshift g)
  && (fs_fmask g =? Z.lnot (fs_fsize g - 1))
  && (fs_bsize g =? fs_frag g * fs_fsize g) && (fs_bsize g <? 2 ^ 31)
  && (0 <? fs_fpg g) && (fs_fpg g mod fs_frag g =? 0) && (fs_fpg g / fs_frag g <? 2 ^ 15 - 1)
  && (0 <? fs_spc g) && (0 <? fs_nsect g) && (0 <? fs_nspf g)
  && forall_range 0 (fs_fpg g) (fun bno => cbtocylno g bno <? 32)
  && (0 <? fs_ncg g) && (0 <? fs_ipg g)
  && (fs_size g <=? fs_ncg g * fs_fpg g) && (fs_size g <=? 2 ^ 31).

Definition is_some_z (o : option Z) (x : Z) : bool :=
  match o with Some y => y =? x | None => false end.

Definition cyl_check (g : fsgeom) (map btot : list Z) (b : list (list Z)) : bool :=
  (length b =? 32)%nat
  && forall_range 0 32 (fun y =>
       is_some_z (btot !! Z.to_nat y) (cyl_blocks g map y)
       && match b !! Z.to_nat y with
          | Some row => (length row =? 8)%nat
              && forall_range 0 NRPOS (fun r => is_some_z (row !! Z.to_nat r) (rpos_blocks g map y r))
          | None => false
          end).

Definition cg_check (g : fsgeom) (n : Z) (c : cg) : bool :=
  (cg_cgx c =? n) && forallb (fun b => (0 <=? b) && (b <? 256)) (cg_free c)
  && (Z.of_nat (length (cg_free c)) =? (fs_fpg g + 7) / 8)
  && forall_range (nblk g) (Z.of_nat (length (cg_free c)) * per_byte (fs_frag g))
       (fun h => blkval (fs_frag g) (cg_free c) h =? 0)
  && (0 <=? cg_frotor c) && (cg_frotor c <? fs_fpg g)
  && (0 <=? cg_rotor c) && (cg_rotor c <? fs_fpg g)
  && (cs_nbfree (cg_cs c) =? free_blocks g (cg_free c))
  && (cs_nffree (cg_cs c) =? free_frags_of g (cg_free c))
  && (length (cg_frsum c) =? 8)%nat
  && forall_range 1 (fs_frag g - 1) (fun k =>
       is_some_z (cg_frsum c !! Z.to_nat k) (runs_of g (cg_free c) k))
  && cyl_check g (cg_free c) (cg_btot c) (cg_b c).

Definition cs_eqb (x y : csum) : bool :=
  (cs_ndir x =? cs_ndir y) && (cs_nbfree x =? cs_nbfree y)
  && (cs_nifree x =? cs_nifree y) && (cs_nffree x =? cs_nffree y).

Fixpoint cgs_check (g : fsgeom) (n : Z) (cgs : list cg) (csp : list csum) : bool :=
  match cgs, csp with
  | [], [] => true
  | c :: cgs, s :: csp => cg_check g n c && cs_eqb s (cg_cs c) && cgs_check g (n + 1) cgs csp
  | _, _ => false
  end.

Definition ufs_check (u : ufs) : bool :=
  let g := fs_geom (u_fs u) in
  geom_check g
  && (Z.of_nat (length (u_cgs u)) =? fs_ncg g)
  && cgs_check g 0 (u_cgs u) (fs_csp (u_fs u))
  && cs_eqb (fs_cstotal (u_fs u)) (cs_sum (fs_csp (u_fs u)))
  && match u_cgs u with c :: _ => negb (Z.testbit (blkval (fs_frag g) (cg_free c) 0) 0) | [] => true end.

(** ** The checker is sound *)

Lemma frag_okb_sound frag : frag_okb frag = true -> frag_ok frag.
Proof.
  unfold frag_okb, frag_ok. intros (x & Hx & E%Z.eqb_eq)%existsb_exists. subst x. simpl in Hx. lia.
Qed.

Lemma geom_check_sound g : geom_check g = true -> geom_ok g.
Proof.
  intros H. unfold geom_check in H. bsimp.
  assert (F : frag_ok (fs_frag g)) by (by apply frag_okb_sound).
  constructor; try done; try (split_and!; done || lia).
  - split_and!; [lia| |lia]. exists (fs_fpg g / fs_frag g).
    assert (fs_frag g <> 0) by (destruct F as [-> | [-> | [-> | ->] ] ]; done).
    pose proof (Z.div_mod (fs_fpg g) (fs_frag g)). lia.
  - split_and!; [lia|lia|lia|]. intros bno Hb.
    match goal with H : forall_range 0 (fs_fpg g) _ = true |- _ =>
      apply (forall_range_elim _ _ _ bno H) in Hb; lia end.
Qed.

Lemma is_some_z_sound o x : is_some_z o x = true -> o = Some x.
Proof. destruct o; simpl; [|done]. intros E%Z.eqb_eq. by subst. Qed.

Lemma blkval_out frag map h : frag_ok frag -> Z.of_nat (length map) * per_byte frag <= h ->
  blkval frag map h = 0.
Proof.
  intros F Hh. pose proof (per_byte_pos frag F) as [Hp _]. unfold blkval, byte_at.
  assert (Z.of_nat (length map) <= h / per_byte frag) by (apply Z.div_le_lower_bound; lia).
  rewrite (proj2 (lookup_ge_None map (Z.to_nat (h / per_byte frag)))) by lia. unfold byte_blk. simpl.
  by rewrite Z.shiftr_0_l.
Qed.

Lemma cyl_check_sound g map btot b : cyl_check g map btot b = true -> cyl_ok g map btot b.
Proof.
  unfold cyl_check. intros [L H]%andb_true_iff. apply Nat.eqb_eq in L. split_and!; [done| |].
  - intros y Hy. apply (forall_range_elim _ _ _ y) in H; [|lia]. cbv beta in H. bsimp.
    by apply is_some_z_sound.
  - intros y row Hy Hrow. apply (forall_range_elim _ _ _ y) in H; [|lia]. cbv beta in H.
    rewrite Hrow in H. bsimp.
    split; [by apply Nat.eqb_eq|]. intros r Hr.
    match goal with H : forall_range 0 NRPOS _ = true |- _ =>
      apply (forall_range_elim _ _ _ r) in H; [by apply is_some_z_sound|lia] end.
Qed.

Lemma cg_check_sound g n c : geom_ok g -> cg_check g n c = true -> cg_ok g n c.
Proof.
  intros G H. unfold cg_check in H.
  repeat match goal with H : (_ && _)%bool = true |- _ => apply andb_true_iff in H as [? ?] end.
  constructor; try lia.
  - apply Forall_forall. intros b Hb%list_elem_of_In.
    match goal with H : forallb _ _ = true |- _ => apply (proj1 (forallb_forall _ _) H) in Hb end. lia.
  - intros h Hh. destruct (Z.le_gt_cases (Z.of_nat (length (cg_free c)) * per_byte (fs_frag g)) h).
    + by apply blkval_out; [apply (go_frag g G)|].
    + match goal with H : forall_range (nblk g) _ _ = true |- _ =>
        apply (forall_range_elim _ _ _ h) in H; [lia|pose proof (nblk_range g G); lia] end.
  - split; [by apply Nat.eqb_eq|]. intros k Hk.
    match goal with H : forall_range 1 _ _ = true |- _ =>
      apply (forall_range_elim _ _ _ k) in H; [by apply is_some_z_sound|lia] end.
  - by apply cyl_check_sound.
Qed.

Lemma cs_eqb_sound x y : cs_eqb x y = true -> x = y.
Proof. unfold cs_eqb. intros H. bsimp. by apply cs_eq. Qed.

Lemma cgs_check_sound g n cgs csp : geom_ok g -> cgs_check g n cgs csp = true ->
  csp = cg_cs <$> cgs /\ forall k c, cgs !! k = Some c -> cg_ok g (n + Z.of_nat k) c.
Proof.
  intros G. revert n csp. induction cgs as [|c cgs IH]; intros n [|s csp] H; simpl in H; try done.
  bsimp. destruct (IH (n + 1) csp) as [-> Hk]; [done|]. split.
  - rewrite fmap_cons. f_equal. by apply cs_eqb_sound.
  - intros [|k] c' Hc; simpl in Hc.
    + injection Hc as <-. rewrite Z.add_0_r. by apply cg_check_sound.
    + replace (n + Z.of_nat (S k)) with (n + 1 + Z.of_nat k) by lia. by apply Hk.
Qed.

Lemma ufs_check_sound u : ufs_check u = true -> ufs_ok u.
Proof.
  intros H. unfold ufs_check in H.
  repeat match goal with H : (_ && _)%bool = true |- _ => apply andb_true_iff in H as [? ?] end.
  assert (G : geom_ok (fs_geom (u_fs u))) by (by apply geom_check_sound).
  destruct (cgs_check_sound (fs_geom (u_fs u)) 0 (u_cgs u) (fs_csp (u_fs u)) G) as [Ec Hc]; [done|].
  constructor; try done; try lia.
  - by apply cs_eqb_sound.
  - intros c E. destruct (u_cgs u) as [|c' l]; [done|]. simpl in E. injection E as ->. bsimp. done.
Qed.

(** ** A sample: two groups of four blocks of four fragments *)

Definition sample_geom : fsgeom := {|
  fs_size := 32; fs_dsize := 28; fs_ncg := 2; fs_bsize := 4096; fs_fsize := 1024; fs_frag := 4;
  fs_minfree := 10; fs_rotdelay := 0; fs_rps := 60;
  fs_fmask := -1024; fs_fshift := 10; fs_fragshift := 2;
  fs_maxcontig := 1; fs_maxbpg := 256; fs_nspf := 2; fs_nsect := 16; fs_spc := 16;
  fs_ipg := 8; fs_fpg := 16; fs_cpc := 1; MAXBPC := 2;
  fs_postbl := [[0; -1; -1; -1; 1; -1; -1; -1]]; fs_rotbl := [0; 0]
|}.

Definition sample_rows (l : list (list Z)) : list (list Z) :=
  l ++ replicate (32 - length l) (replicate 8 0).

Definition sample_cg0 : cg := {|
  cg_magic := CG_MAGIC; cg_time := 0; cg_cgx := 0; cg_cs := Csum 1 1 5 3;
  cg_rotor := 0; cg_frotor := 0; cg_irotor := 0;
  cg_frsum := [0; 0; 0; 1; 0; 0; 0; 0]; cg_btot := [0; 1] ++ replicate 30 0;
  cg_b := sample_rows [replicate 8 0; [1; 0; 0; 0; 0; 0; 0; 0]];
  cg_iused := [0x07]; cg_free := [0xE0; 0x0F]
|}.

Definition sample_cg1 : cg := {|
  cg_magic := CG_MAGIC; cg_time := 0; cg_cgx := 1; cg_cs := Csum 0 4 8 0;
  cg_rotor := 0; cg_frotor := 0; cg_irotor := 0;
  cg_frsum := replicate 8 0; cg_btot := [2; 2] ++ replicate 30 0;
  cg_b := sample_rows [[1; 0; 0; 0; 1; 0; 0; 0]; [1; 0; 0; 0; 1; 0; 0; 0]];
  cg_iused := [0x00]; cg_free := [0xFF; 0xFF]
|}.

Definition sample_ufs : ufs := {|
  u_fs := {| fs_geom := sample_geom; fs_cstotal := Csum 1 5 13 3;
             fs_csp := [Csum 1 1 5 3; Csum 0 4 8 0]; fs_fmod := 0; fs_cgrotor := 0 |};
  u_cgs := [sample_cg0; sample_cg1]
|}.

Lemma sample_ok : ufs_ok sample_ufs.
Proof. apply ufs_check_sound. vm_compute. reflexivity. Qed.

Lemma sample_rot_ok : rot_ok sample_geom.
Proof.
  right. split; [done|]. intros h Hh.
  assert (H : forall_range 0 4 (rot_reaches sample_geom) = true) by (vm_compute; reflexivity).
  change (nblk sample_geom) with 4 in Hh. by apply (forall_range_elim _ _ _ h H).
Qed.
