(* ===== verification/UfsProofs.v ===== *)
(** * Correctness of the allocator: [alloccg], [fragextend], [free], [hashalloc]

    The file system is seen as the set of its free fragments ([fsb_free]); the
    theorems say which fragments each routine takes or gives back, that it
    leaves the counts consistent ([ufs_ok]), and when it fails. *)
From S2P Require Import Prelude Fragmap UfsAlloc UfsInv UfsOps UfsSample.
#[local] Set Default Proof Using "All".

(** ** The abstract view: which fragments are free *)

(** Fragment address [b] of the file system is free. *)
Definition fsb_free (u : ufs) (b : Z) : bool :=
  let g := fs_geom (u_fs u) in
  match u_cgs u !! Z.to_nat (b / fs_fpg g) with
  | Some c => frag_free (fs_frag g) (cg_free c) (b mod fs_fpg g)
  | None => false
  end.

Definition in_range (b n i : Z) : bool := (b <=? i) && (i <? b + n).

(** The [n] fragments at [b] were free and are the ones taken. *)
Definition frags_taken (u u' : ufs) (b n : Z) : Prop :=
  (forall i, b <= i < b + n -> fsb_free u i = true) /\
  (forall i, 0 <= i -> fsb_free u' i = fsb_free u i && negb (in_range b n i)).

(** The [n] fragments at [b] were in use and are the ones given back. *)
Definition frags_freed (u u' : ufs) (b n : Z) : Prop :=
  (forall i, b <= i < b + n -> fsb_free u i = false) /\
  (forall i, 0 <= i -> fsb_free u' i = fsb_free u i || in_range b n i).

(** The same free fragments (and the same magic numbers) in every group. *)
Definition frags_same (u u' : ufs) : Prop :=
  fs_geom (u_fs u') = fs_geom (u_fs u) /\
  forall n, (fun c => (cg_magic c, cg_free c)) <$> u_cgs u' !! n
          = (fun c => (cg_magic c, cg_free c)) <$> u_cgs u !! n.

Lemma frags_same_fsb u u' i : frags_same u u' -> fsb_free u' i = fsb_free u i.
Proof.
  intros [Eg H]. unfold fsb_free. rewrite Eg. specialize (H (Z.to_nat (i / fs_fpg (fs_geom (u_fs u))))).
  destruct (u_cgs u' !! _), (u_cgs u !! _); simpl in H; try done. by injection H as _ ->.
Qed.

#[global] Instance frags_same_preorder : PreOrder frags_same.
Proof.
  split; [by split|]. intros u1 u2 u3 [E1 H1] [E2 H2]. split; [congruence|].
  intros n. by rewrite H2, H1.
Qed.

Lemma frags_taken_keep u u0 u' b n : frags_same u u0 -> 0 <= b ->
  frags_taken u0 u' b n -> frags_taken u u' b n.
Proof.
  intros Hs Hb [H1 H2]. split.
  - intros i Hi. rewrite <- (frags_same_fsb u u0) by done. by apply H1.
  - intros i Hi. rewrite <- (frags_same_fsb u u0 i) by done. by apply H2.
Qed.

Lemma split_group g i : geom_ok g -> 0 <= i ->
  let c := i / fs_fpg g in let h := (i mod fs_fpg g) / fs_frag g in
  let p := (i mod fs_fpg g) mod fs_frag g in
  0 <= c /\ 0 <= h < nblk g /\ 0 <= p < fs_frag g /\
  i = c * fs_fpg g + (h * fs_frag g + p).
Proof.
  intros G Hi c h p. pose proof (frag_pos g G). pose proof (fpg_eq g G). pose proof (nblk_range g G).
  pose proof (Z.mod_pos_bound i (fs_fpg g) ltac:(nia)) as Hm.
  pose proof (Z.div_mod i (fs_fpg g) ltac:(nia)).
  pose proof (Z.div_mod (i mod fs_fpg g) (fs_frag g) ltac:(lia)).
  pose proof (Z.mod_pos_bound (i mod fs_fpg g) (fs_frag g) ltac:(lia)).
  split_and!; [apply Z.div_pos; nia|apply Z.div_pos; lia|apply Z.div_lt_upper_bound; lia|lia|lia|].
  unfold c, h, p. lia.
Qed.

Lemma in_range_group g c h p n C H P : geom_ok g ->
  0 <= h < nblk g -> 0 <= p -> 0 <= n -> p + n <= fs_frag g ->
  0 <= H < nblk g -> 0 <= P < fs_frag g ->
  in_range (c * fs_fpg g + (h * fs_frag g + p)) n (C * fs_fpg g + (H * fs_frag g + P))
  = (C =? c) && (H =? h) && in_range p n P.
Proof.
  intros G Hh Hp Hn Hpn HH HP. unfold in_range. pose proof (fpg_eq g G) as E.
  set (F := fs_frag g) in *. set (N := nblk g) in *. rewrite E.
  destruct (Z.eqb_spec C c) as [->|Hc].
  - destruct (Z.eqb_spec H h) as [->|Hhh]; simpl; [lia|].
    assert (H + 1 <= h \/ h + 1 <= H) as [?|?] by lia; [|].
    + assert ((H + 1) * F <= h * F) by (apply Z.mul_le_mono_nonneg_r; lia). lia.
    + assert ((h + 1) * F <= H * F) by (apply Z.mul_le_mono_nonneg_r; lia). lia.
  - simpl. assert ((h + 1) * F <= N * F) by (apply Z.mul_le_mono_nonneg_r; lia).
    assert ((H + 1) * F <= N * F) by (apply Z.mul_le_mono_nonneg_r; lia).
    assert (0 <= h * F) by (apply Z.mul_nonneg_nonneg; lia).
    assert (0 <= H * F) by (apply Z.mul_nonneg_nonneg; lia).
    assert (C + 1 <= c \/ c + 1 <= C) as [?|?] by lia.
    + assert ((C + 1) * (N * F) <= c * (N * F)) by (apply Z.mul_le_mono_nonneg_r; lia). lia.
    + assert ((c + 1) * (N * F) <= C * (N * F)) by (apply Z.mul_le_mono_nonneg_r; lia). lia.
Qed.

Lemma fsb_free_at g u c h p cgp :
  geom_ok g -> fs_geom (u_fs u) = g -> u_cgs u !! Z.to_nat c = Some cgp -> 0 <= c ->
  0 <= h < nblk g -> 0 <= p < fs_frag g ->
  fsb_free u (c * fs_fpg g + (h * fs_frag g + p)) = Z.testbit (blkval (fs_frag g) (cg_free cgp) h) p.
Proof.
  intros G Eg Hcg Hc Hh Hp. unfold fsb_free. rewrite Eg.
  pose proof (fpg_eq g G) as E. pose proof (frag_pos g G).
  assert (0 <= h * fs_frag g + p < fs_fpg g) by nia.
  rewrite Z.div_add_l, Z.div_small, Z.add_0_r by lia.
  rewrite Z.add_comm, Z.mod_add, Z.mod_small, Hcg by lia. unfold frag_free.
  by rewrite (frag_div g G), (frag_mod g G) by done.
Qed.

(** How a change of block [h] of group [c] shows in the abstract view. *)
Lemma fsb_free_put g u f' c cgp cgp' h v' :
  geom_ok g -> fs_geom (u_fs u) = g -> fs_geom f' = g ->
  u_cgs u !! Z.to_nat c = Some cgp -> 0 <= c -> 0 <= h < nblk g ->
  blk_updated (fs_frag g) (cg_free cgp) (cg_free cgp') h v' ->
  forall C H P, 0 <= C -> 0 <= H < nblk g -> 0 <= P < fs_frag g ->
  fsb_free (Ufs f' (<[Z.to_nat c := cgp']> (u_cgs u))) (C * fs_fpg g + (H * fs_frag g + P))
  = if (C =? c) && (H =? h) then Z.testbit v' P
    else fsb_free u (C * fs_fpg g + (H * fs_frag g + P)).
Proof.
  intros G Eg Eg' Hcg Hc Hh (_ & _ & Hm) C H P HC HH HP. pose proof (lookup_lt_Some _ _ _ Hcg).
  destruct (Z.eqb_spec C c) as [->|Hne].
  - rewrite (fsb_free_at g u c H P cgp) by done.
    rewrite (fsb_free_at g (Ufs f' _) c H P cgp'); [|done|done|by apply list_lookup_insert_eq|done..].
    simpl. rewrite Hm by lia. by destruct (H =? h).
  - simpl. unfold fsb_free. simpl. rewrite Eg, Eg'.
    pose proof (fpg_eq g G). pose proof (frag_pos g G).
    assert (0 <= H * fs_frag g + P < fs_fpg g) by nia.
    rewrite Z.div_add_l, Z.div_small, Z.add_0_r by lia.
    rewrite list_lookup_insert_ne by lia. done.
Qed.

Section Put.
Context (g : fsgeom) (u : ufs) (f' : fs) (c : Z) (cgp cgp' : cg) (h v' : Z).
Context (G : geom_ok g) (Eg : fs_geom (u_fs u) = g) (Eg' : fs_geom f' = g) (Hcg : u_cgs u !! Z.to_nat c = Some cgp)
  (Hc : 0 <= c) (Hh : 0 <= h < nblk g)
  (Hm : blk_updated (fs_frag g) (cg_free cgp) (cg_free cgp') h v').
Let u' := Ufs f' (<[Z.to_nat c := cgp']> (u_cgs u)).

Lemma frags_taken_intro p n : 0 <= p -> 1 <= n -> p + n <= fs_frag g ->
  v' = clr_bits (blkval (fs_frag g) (cg_free cgp) h) p n ->
  (forall i, p <= i < p + n -> Z.testbit (blkval (fs_frag g) (cg_free cgp) h) i = true) ->
  frags_taken u u' (c * fs_fpg g + (h * fs_frag g + p)) n.
Proof.
  intros Hp Hn Hpn -> Hset. split.
  - intros i Hi. replace i with (c * fs_fpg g + (h * fs_frag g + (i - c * fs_fpg g - h * fs_frag g))) by lia.
    rewrite (fsb_free_at g u c h _ cgp) by (done || lia). apply Hset. lia.
  - intros i Hi. destruct (split_group g i G Hi) as (HC & HH & HP & Ei). rewrite Ei.
    rewrite (in_range_group g) by (done || lia).
    rewrite (fsb_free_put g u f' c cgp cgp' h _ G Eg Eg' Hcg Hc Hh Hm) by done.
    destruct (Z.eqb_spec (i / fs_fpg g) c) as [Ec|]; simpl; [|by rewrite andb_true_r].
    destruct (Z.eqb_spec (i mod fs_fpg g / fs_frag g) h) as [Eh|]; simpl; [|by rewrite andb_true_r].
    rewrite Ec, Eh. rewrite (fsb_free_at g u c h _ cgp) by done.
    by rewrite clr_bits_testbit by lia.
Qed.

Lemma frags_freed_intro p n : 0 <= p -> 1 <= n -> p + n <= fs_frag g ->
  v' = set_bits (blkval (fs_frag g) (cg_free cgp) h) p n ->
  (forall i, p <= i < p + n -> Z.testbit (blkval (fs_frag g) (cg_free cgp) h) i = false) ->
  frags_freed u u' (c * fs_fpg g + (h * fs_frag g + p)) n.
Proof.
  intros Hp Hn Hpn -> Hclr. split.
  - intros i Hi. replace i with (c * fs_fpg g + (h * fs_frag g + (i - c * fs_fpg g - h * fs_frag g))) by lia.
    rewrite (fsb_free_at g u c h _ cgp) by (done || lia). apply Hclr. lia.
  - intros i Hi. destruct (split_group g i G Hi) as (HC & HH & HP & Ei). rewrite Ei.
    rewrite (in_range_group g) by (done || lia).
    rewrite (fsb_free_put g u f' c cgp cgp' h _ G Eg Eg' Hcg Hc Hh Hm) by done.
    destruct (Z.eqb_spec (i / fs_fpg g) c) as [Ec|]; simpl; [|by rewrite orb_false_r].
    destruct (Z.eqb_spec (i mod fs_fpg g / fs_frag g) h) as [Eh|]; simpl; [|by rewrite orb_false_r].
    rewrite Ec, Eh. rewrite (fsb_free_at g u c h _ cgp) by done.
    by rewrite set_bits_testbit by lia.
Qed.
End Put.

(** ** [alloccg] *)

Lemma aupd_moved (l : list Z) i d : 0 <= i < Z.of_nat (length l) ->
  exists l', aupd l i (fun n => n + d) = Ok l' /\ length l' = length l /\
    forall k x, 0 <= k -> l !! Z.to_nat k = Some x -> l' !! Z.to_nat k = Some (x + d * ieq k i).
Proof.
  intros Hi. destruct (lookup_lt_is_Some_2 l (Z.to_nat i)) as [y Hy]; [lia|].
  rewrite (aupd_ok l i y) by (done || lia). eexists. split; [done|]. split; [apply length_insert|].
  intros k x Hk Hx. unfold ieq, cbool. destruct (Z.eqb_spec k i) as [->|Hne].
  - rewrite list_lookup_insert_eq by lia. f_equal. rewrite Hy in Hx. injection Hx as ->. lia.
  - rewrite list_lookup_insert_ne by lia. rewrite Hx. f_equal. lia.
Qed.

(** The two updates of [cg_frsum] when [n] fragments are taken from a run of [j]. *)
Lemma frsum_take (l : list Z) j n b : length l = 8%nat -> 1 <= n <= j -> j < 8 -> b = (n =? j) ->
  exists l', (let* l1 := aupd l j (fun n => n - 1) in
              if b : bool then Ok l1 else aupd l1 (j - n) (fun n => n + 1)) = Ok l' /\
    length l' = 8%nat /\
    forall k x, 1 <= k -> l !! Z.to_nat k = Some x ->
      l' !! Z.to_nat k = Some (x - ieq k j + ieq k (j - n)).
Proof.
  intros Hl Hn Hj ->. destruct (aupd_moved l j (-1)) as (l1 & E1 & L1 & H1); [lia|].
  change (fun n0 => n0 + -1) with (fun n0 => n0 - 1) in E1. rewrite E1. cbn [obind].
  destruct (Z.eqb_spec n j) as [->|Hne].
  - exists l1. split; [done|]. split; [lia|]. intros k x Hk Hx. rewrite (H1 k x) by (done || lia).
    f_equal. unfold ieq at 3. destruct (Z.eqb_spec k (j - j)); simpl; lia.
  - destruct (aupd_moved l1 (j - n) 1) as (l2 & E2 & L2 & H2); [lia|]. rewrite E2.
    exists l2. split; [done|]. split; [lia|]. intros k x Hk Hx.
    rewrite (H2 k _ ltac:(lia) (H1 k x ltac:(lia) Hx)). f_equal. lia.
Qed.

Lemma b_full_of frag v : v <> blk_full frag -> b_full frag v = 0 /\ b_frags frag v = popcount frag v.
Proof. intros H. unfold b_full, b_frags. by destruct (Z.eqb_spec v (blk_full frag)). Qed.

(** Taking [n] fragments from a run of [j < fs_frag] in block [h]. *)
Lemma cg_moved_take g m c c' h j p n :
  geom_ok g -> cg_ok g m c -> 0 <= h < nblk g -> has_run_at (fs_frag g) (cg_free c) h j p ->
  j < fs_frag g -> 1 <= n <= j ->
  blk_updated (fs_frag g) (cg_free c) (cg_free c') h (clr_bits (blkval (fs_frag g) (cg_free c) h) p n) ->
  cg_cgx c' = cg_cgx c -> 0 <= cg_frotor c' < fs_fpg g -> cg_rotor c' = cg_rotor c ->
  cg_cs c' = cs_adj 0 0 0 (- n) (cg_cs c) ->
  length (cg_frsum c') = 8%nat ->
  (forall k x, 1 <= k -> cg_frsum c !! Z.to_nat k = Some x ->
     cg_frsum c' !! Z.to_nat k = Some (x - ieq k j + ieq k (j - n))) ->
  cg_btot c' = cg_btot c -> cg_b c' = cg_b c ->
  cg_moved g c c' h (clr_bits (blkval (fs_frag g) (cg_free c) h) p n).
Proof.
  intros G K Hh Hr Hj Hn Hm Ex Ef Er Ec Lf Hf Et Eb.
  destruct (take_block (fs_frag g) (blkval (fs_frag g) (cg_free c) h) j p n (go_frag g G)
              (blkval_bound _ _ _ (go_frag g G)) Hr Hn) as (_ & Hfull & Hnf & Hpop & Hruns).
  set (v := blkval (fs_frag g) (cg_free c) h) in *.
  assert (Hv : v <> blk_full (fs_frag g)) by (intros E; apply Hfull in E; lia).
  destruct (b_full_of _ _ Hv) as [F1 F2]. destruct (b_full_of _ _ Hnf) as [F3 F4].
  constructor; fold v; try done.
  - rewrite Er. apply (ck_rotor _ _ _ K).
  - rewrite Ec, F1, F3. simpl. lia.
  - rewrite Ec, F2, F4. simpl. lia.
  - split; [rewrite Lf; symmetry; apply (ck_frsum _ _ _ K)|]. intros k x Hk Hx.
    rewrite (Hf k x ltac:(lia) Hx), (Hruns k Hk). f_equal. lia.
  - rewrite F1, F3, Et, Eb. apply cyl_moved_0.
Qed.

Lemma frsum_scan_spec n l a : 0 <= a -> a + Z.of_nat n <= Z.of_nat (length l) ->
  exists j, frsum_scan n l a = Ok j /\ a <= j <= a + Z.of_nat n /\
    (forall k, a <= k < j -> l !! Z.to_nat k = Some 0) /\
    (j < a + Z.of_nat n -> exists x, l !! Z.to_nat j = Some x /\ x <> 0).
Proof.
  revert a. induction n as [|n IH]; intros a Ha Hl; cbn [frsum_scan].
  { exists a. split; [done|]. split; [lia|]. split; intros; lia. }
  destruct (lookup_lt_is_Some_2 l (Z.to_nat a)) as [x Hx]; [lia|].
  rewrite (aget_ok l a x) by done. cbn [obind]. unfold nz. destruct (Z.eqb_spec x 0) as [->|Hne]; simpl.
  - destruct (IH (a + 1)) as (j & -> & Hj & Hz & Hnz); [lia|lia|]. exists j. split; [done|].
    split; [lia|]. split.
    + intros k Hk. destruct (Z.eq_dec k a) as [->|]; [done|apply Hz; lia].
    + intros Hlt. apply Hnz. lia.
  - exists a. split; [done|]. split; [lia|]. split; [intros; lia|]. intros _. by exists x.
Qed.

Lemma runs_pos frag v k : 0 <= k -> 0 < runs frag v k <-> exists p, run_at frag v k p = true.
Proof.
  intros Hk. unfold runs. split.
  - intros H. destruct (base.filter _ _) as [|p l] eqn:E; [simpl in H; lia|]. exists p.
    assert (Hp : p ∈ base.filter (fun p => run_at frag v k p = true) (zrange 0 (frag + 1)))
      by (rewrite E; left). by apply list_elem_of_filter in Hp as [Hp _].
  - intros [p Hp]. assert (Hin : p ∈ base.filter (fun p => run_at frag v k p = true) (zrange 0 (frag + 1))).
    { apply list_elem_of_filter. split; [done|]. apply elem_of_zrange. unfold run_at in Hp. blia. }
    destruct (base.filter _ _); [by apply elem_of_nil in Hin|simpl; lia].
Qed.

(** A nonzero entry of the fragment size table names a run; a zero one none. *)
Lemma runs_of_spec g map k : 0 <= k ->
  (runs_of g map k <> 0 <-> exists h p, 0 <= h < nblk g /\ has_run_at (fs_frag g) map h k p).
Proof.
  intros Hk. assert (Hnn : forall h, 0 <= runs (fs_frag g) (blkval (fs_frag g) map h) k) by (intros; unfold runs; lia).
  assert (0 <= runs_of g map k) by (by apply blk_sum_nonneg). unfold runs_of in *. split.
  - intros Hne. assert (Hp : 0 < blk_sum (fs_frag g) (nblk g) (fun _ v => runs (fs_frag g) v k) map) by lia.
    apply blk_sum_pos in Hp as (h & Hh & Hp). apply runs_pos in Hp as [p Hp]; [|done]. by exists h, p.
  - intros (h & p & Hh & Hp). assert (Hr : 0 < runs (fs_frag g) (blkval (fs_frag g) map h) k)
      by (apply runs_pos; [done|by exists p]).
    pose proof (blk_sum_le (fs_frag g) (nblk g) (fun _ v => runs (fs_frag g) v k) map h Hnn Hh) as Hle.
    cbv beta in Hle. lia.
Qed.

(** No block of the map has room for [n] fragments in a row. *)
Definition no_room (g : fsgeom) (map : list Z) (n : Z) : Prop :=
  forall h k p, 0 <= h < nblk g -> n <= k -> ~ has_run_at (fs_frag g) map h k p.

Lemma no_room_intro g n c k : geom_ok g -> cg_ok g n c -> 1 <= k <= fs_frag g ->
  cs_nbfree (cg_cs c) = 0 -> (forall j, k <= j < fs_frag g -> cg_frsum c !! Z.to_nat j = Some 0) ->
  no_room g (cg_free c) k.
Proof.
  intros G K Hk Hb Hz h j p Hh Hj Hr.
  assert (Hjf : j <= fs_frag g) by (unfold has_run_at, run_at in Hr; blia).
  destruct (Z.eq_dec j (fs_frag g)) as [->|Hne].
  - apply full_run in Hr as [Hv _]; [|apply (go_frag g G)|by apply blkval_bound, (go_frag g G)].
    rewrite (ck_nbfree _ _ _ K) in Hb. unfold free_blocks in Hb.
    pose proof (blk_sum_le (fs_frag g) (nblk g) (fun _ v => b_full (fs_frag g) v) (cg_free c) h
      ltac:(intros; apply b_full_01) Hh) as Hle. cbv beta in Hle. rewrite Hv in Hle.
    unfold b_full in Hle at 1. rewrite Z.eqb_refl in Hle. simpl in Hle. lia.
  - destruct (ck_frsum _ _ _ K) as [_ HF]. specialize (HF j ltac:(lia)).
    rewrite (Hz j ltac:(lia)) in HF. injection HF as HF. symmetry in HF. revert HF. apply runs_of_spec; [lia|].
    by exists h, p.
Qed.

(** What an allocation of [n] fragments in group [c] promises; [why] is the
    condition under which it may find none. *)
Definition alloc_result (u : ufs) (c n : Z) (why : Prop) (r : outcome (ufs * Z)) : Prop :=
  let g := fs_geom (u_fs u) in
  exists u' b, r = Ok (u', b) /\ ufs_ok u' /\ fs_geom (u_fs u') = g /\
    ((b = 0 /\ frags_same u u' /\ why) \/
     (0 < b /\ b / fs_fpg g = c /\ b mod fs_frag g + n <= fs_frag g /\ frags_taken u u' b n)).

Lemma cg_ok_time g n c t : cg_ok g n c -> cg_ok g n (set_time c t).
Proof. intros [? ? ? ? ? ? ? ? ? ?]. by constructor. Qed.

Section AllocGroup.
Context (u : ufs) (c : Z) (cgp : cg) (U : ufs_ok u) (Hc : 0 <= c).
Context (Hcg : u_cgs u !! Z.to_nat c = Some cgp).
Let g := fs_geom (u_fs u).
Let G : geom_ok g := uo_geom u U.

Lemma blk_address h p : 0 <= h < nblk g -> 0 <= p < fs_frag g ->
  (c * fs_fpg g + (h * fs_frag g + p)) / fs_fpg g = c /\
  (c * fs_fpg g + (h * fs_frag g + p)) mod fs_frag g = p.
Proof.
  intros Hh Hp. pose proof (fpg_eq g G) as E. pose proof (frag_pos g G).
  assert (0 <= h * fs_frag g + p < fs_fpg g) by nia. split.
  - by rewrite Z.div_add_l, Z.div_small, Z.add_0_r by lia.
  - rewrite E. replace (c * (nblk g * fs_frag g) + (h * fs_frag g + p))
      with (p + (c * nblk g + h) * fs_frag g) by ring. by rewrite Z.mod_add, Z.mod_small by lia.
Qed.

Lemma boot_kept cgp' h p n : blk_updated (fs_frag g) (cg_free cgp) (cg_free cgp') h
    (clr_bits (blkval (fs_frag g) (cg_free cgp) h) p n) -> 0 <= p -> 0 <= n ->
  c = 0 -> frag_free (fs_frag g) (cg_free cgp') 0 = false.
Proof.
  intros (_ & _ & Hm) Hp Hn Ec. pose proof (frag_pos g G). unfold frag_free.
  rewrite Z.div_0_l, Z.mod_0_l, Hm by lia. subst c. pose proof (uo_boot u U cgp Hcg) as B. fold g in B.
  destruct (Z.eqb_spec 0 h) as [<-|]; [|done]. rewrite clr_bits_testbit by lia. by rewrite B.
Qed.

Lemma alloc_finish why f' cgp' h p n nd nb ni nf :
  cg_ok g c cgp' -> cg_cs cgp' = cs_adj nd nb ni nf (cg_cs cgp) ->
  fs_moved (u_fs u) f' c nd nb ni nf ->
  0 <= h < nblk g -> 0 <= p -> 1 <= n -> p + n <= fs_frag g ->
  blk_updated (fs_frag g) (cg_free cgp) (cg_free cgp') h
    (clr_bits (blkval (fs_frag g) (cg_free cgp) h) p n) ->
  (forall i, p <= i < p + n -> Z.testbit (blkval (fs_frag g) (cg_free cgp) h) i = true) ->
  alloc_result u c n why
    (let* u := put_cg u f' c cgp' in Ok (u, c * fs_fpg g + (h * fs_frag g + p))).
Proof.
  intros K Ecs M Hh Hp Hn Hpn Hm Hset. pose proof (fpg_eq g G). pose proof (frag_pos g G).
  destruct (ufs_ok_put u f' c cgp cgp' nd nb ni nf U Hc Hcg K Ecs) as [-> U']; [|done|].
  { by apply (boot_kept cgp' h p n); [|lia|lia]. }
  cbn [obind]. eexists _, _. split; [done|]. split; [done|]. split; [apply (fm_geom _ _ _ _ _ _ _ M)|].
  right. fold g. destruct (blk_address h p Hh ltac:(lia)) as [-> ->].
  assert (T : frags_taken u (Ufs f' (<[Z.to_nat c:=cgp']> (u_cgs u))) (c * fs_fpg g + (h * fs_frag g + p)) n).
  { eapply (frags_taken_intro g); try done. apply (fm_geom _ _ _ _ _ _ _ M). }
  split; [|split; [done|split; [lia|done] ] ].
  pose proof (go_fpg g G) as (Hf & _).
  assert (0 <= h * fs_frag g /\ 0 <= c * fs_fpg g) as [? ?]
    by (split; apply Z.mul_nonneg_nonneg; lia).
  destruct (Z.eq_dec (c * fs_fpg g + (h * fs_frag g + p)) 0) as [E0|]; [exfalso|lia].
  assert (c = 0) as Ec0 by (apply (Z.mul_eq_0_l c (fs_fpg g)); lia).
  assert (h = 0) as Eh0 by (apply (Z.mul_eq_0_l h (fs_frag g)); lia).
  assert (p = 0) as Ep0 by lia.
  pose proof (uo_boot u U cgp) as B. fold g in B. rewrite Ec0 in Hcg. rewrite Eh0, Ep0 in Hset.
  rewrite Hset in B by lia. discriminate B. exact Hcg.
Qed.

Lemma alloc_none f' cgp' n why :
  cg_ok g c cgp' -> cg_cs cgp' = cg_cs cgp -> cg_magic cgp' = cg_magic cgp ->
  cg_free cgp' = cg_free cgp -> f' = u_fs u -> why ->
  alloc_result u c n why (let* u := put_cg u f' c cgp' in Ok (u, 0)).
Proof.
  intros K Ecs Emag Ef -> Hwhy. pose proof (uo_boot u U) as B. fold g in B. pose proof (frag_pos g G).
  destruct (lookup_lt_is_Some_2 (fs_csp (u_fs u)) (Z.to_nat c)) as [x Hx].
  { rewrite (uo_csp u U), length_fmap. by eapply lookup_lt_Some. }
  assert (E0 : forall s, cs_adj 0 0 0 0 s = s) by (intros; apply cs_eq; simpl; lia).
  destruct (ufs_ok_put u (u_fs u) c cgp cgp' 0 0 0 0 U Hc Hcg K) as [-> U'].
  - by rewrite E0.
  - intros ->. unfold frag_free. rewrite Ef. fold g.
    rewrite Z.div_0_l, Z.mod_0_l by lia. by apply B.
  - split; [done|by rewrite E0|]. exists x. rewrite E0. split; [done|]. by rewrite list_insert_id.
  - cbn [obind]. eexists _, _. split; [done|]. split; [done|]. split; [done|]. left.
    split; [done|]. split; [|done]. split; [done|]. intros n'. cbn [u_cgs].
    destruct (decide (Z.to_nat c = n')) as [<-|Hne].
    + rewrite Hcg, list_lookup_insert_eq by (by eapply lookup_lt_Some). simpl. by rewrite Ef, Emag.
    + by rewrite list_lookup_insert_ne.
Qed.
End AllocGroup.

Definition full_bits_p (frag : Z) : bool :=
  forall_range 0 frag (fun i => Z.testbit (blk_full frag) i)
  && (clr_bits (blk_full frag) 0 frag =? 0)
  && forall_range 0 frag (fun k => clr_bits (blk_full frag) 0 k =? set_bits 0 k (frag - k)).

Lemma full_bits_checked : check_frag full_bits_p = true.
Proof. vm_compute. reflexivity. Qed.

Lemma full_bits frag : frag_ok frag ->
  (forall i, 0 <= i < frag -> Z.testbit (blk_full frag) i = true) /\
  clr_bits (blk_full frag) 0 frag = 0 /\
  forall k, 0 <= k < frag -> clr_bits (blk_full frag) 0 k = set_bits 0 k (frag - k).
Proof.
  intros F. pose proof (check_frag_elim _ frag full_bits_checked F) as H. unfold full_bits_p in H.
  apply andb_true_iff in H as [H H3]. apply andb_true_iff in H as [H1 H2]. split_and!.
  - intros i Hi. by apply (forall_range_elim 0 frag _ i H1).
  - by apply Z.eqb_eq.
  - intros k Hk. apply (forall_range_elim 0 frag _ k H3) in Hk. by apply Z.eqb_eq.
Qed.

Section Alloccg.
Context (time_sec : Z).
Context (u : ufs) (c : Z) (cgp : cg) (U : ufs_ok u) (R : rot_ok (fs_geom (u_fs u))).
Context (Hc : 0 <= c) (Hcg : u_cgs u !! Z.to_nat c = Some cgp).
Let g := fs_geom (u_fs u).
Let G : geom_ok g := uo_geom u U.
Let cgt := set_time cgp time_sec.

Lemma group_ok : cg_ok g c cgt /\ fs_csp (u_fs u) !! Z.to_nat c = Some (cg_cs cgp).
Proof.
  split.
  - apply cg_ok_time. pose proof (uo_cgs u U _ _ Hcg) as K. by rewrite Z2Nat.id in K by lia.
  - by rewrite (uo_csp u U), list_lookup_fmap, Hcg.
Qed.

Lemma alloccg_block bpref why : 0 <= bpref -> 0 < cs_nbfree (cg_cs cgp) ->
  alloc_result u c (fs_frag g) why
    (let* r := alloccgblk (u_fs u) cgt bpref in
     let '(f, cgp, bno) := r in let* u := put_cg u f c cgp in Ok (u, bno)).
Proof.
  intros Hb Hfree. destruct group_ok as [K Hx]. pose proof (frag_pos g G).
  destruct (alloccgblk_spec (u_fs u) cgt c _ bpref G R K Hc Hx Hb Hfree)
    as (f' & c' & h & -> & Hv & M & Ecs & MF). cbn [obind]. fold g in Hv, M |- *.
  destruct (full_bits (fs_frag g) (go_frag g G)) as (Hset & Hclr & _).
  pose proof (mv_blk _ _ _ _ _ M) as Hh. cbn [cg_free cgt set_time] in Hv.
  rewrite <- (Z.add_0_r (h * fs_frag g)).
  apply (alloc_finish u c cgp U Hc Hcg why f' c' h 0 (fs_frag g) 0 (-1) 0 0); fold g; try done; try lia.
  - by apply (cg_ok_moved g c cgt c' h 0).
  - rewrite Hv, Hclr. apply (mv_map _ _ _ _ _ M).
  - rewrite Hv. intros i Hi. apply Hset. lia.
Qed.

(** A block is taken and its last [frag - k] fragments are given back. *)
Lemma alloccg_hack bpref why k : 0 <= bpref -> 0 < cs_nbfree (cg_cs cgp) -> 1 <= k < fs_frag g ->
  alloc_result u c k why
    (let* r := alloccgblk (u_fs u) cgt bpref in
     let '(f, cgp, bno) := r in
     let bpref := dtogd g bno in
     let* free := bits_loop setbit (Z.to_nat (fs_frag g - k)) (cg_free cgp) (bpref + k) in
     let i := fs_frag g - k in
     let* f := fs_adj f c 0 0 0 i in
     let* frsum := aupd (cg_frsum cgp) i (fun n => n + 1) in
     let cgp := set_frsum (set_cs (set_free cgp free) (cs_adj 0 0 0 i (cg_cs cgp))) frsum in
     let* u := put_cg u (fs_touch f) c cgp in
     Ok (u, bno)).
Proof.
  intros Hb Hfree Hk. destruct group_ok as [K Hx]. pose proof (frag_pos g G) as Hfp.
  pose proof (go_frag g G) as F.
  destruct (alloccgblk_spec (u_fs u) cgt c _ bpref G R K Hc Hx Hb Hfree)
    as (f1 & c1 & h & -> & Hv & M & Ecs & MF). cbn [obind]. fold g in Hv, M |- *.
  destruct (full_bits (fs_frag g) F) as (Hset & _ & Hcs).
  pose proof (mv_blk _ _ _ _ _ M) as Hh. pose proof (mv_map _ _ _ _ _ M) as Hm1.
  pose proof (cg_ok_moved _ _ _ _ _ _ M K) as K1. cbn [cg_free cgt set_time] in Hv, Hm1.
  assert (Ed : dtogd g (c * fs_fpg g + h * fs_frag g) = h * fs_frag g).
  { pose proof (blk_frag_range g h G Hh). pose proof (go_fpg g G) as (? & _). unfold dtogd.
    rewrite Z.rem_mod_nonneg by nia. rewrite Z.add_comm, Z.mod_add, Z.mod_small by lia. done. }
  cbv zeta. rewrite Ed.
  assert (Hin : blk_in (fs_frag g) (cg_free c1) h)
    by (apply blk_in_group; [exact G|apply (ck_len _ _ _ K1)|done]).
  destruct (bits_loop_set (fs_frag g) F (Z.to_nat (fs_frag g - k)) (cg_free c1) h k
              (ck_map _ _ _ K1) Hin) as (m & -> & Hm2); [lia|lia|]. cbn [obind].
  rewrite (blk_updated_at _ _ _ _ _ Hm1 ltac:(lia)), Z2Nat.id in Hm2 by lia.
  destruct (fs_moved_lookup _ _ _ _ _ _ _ MF) as [y Hy].
  destruct (fs_adj_spec f1 c 0 0 0 (fs_frag g - k) y Hc Hy) as (f2 & -> & MF2). cbn [obind].
  destruct (ck_frsum _ _ _ K1) as [L1 HF1].
  destruct (aupd_moved (cg_frsum c1) (fs_frag g - k) 1) as (fr & -> & Lfr & Hfr); [lia|]. cbn [obind].
  rewrite <- (Z.add_0_r (h * fs_frag g)).
  apply (alloc_finish u c cgp U Hc Hcg why _ _ h 0 k 0 (-1) 0 (fs_frag g - k)); fold g; try done; try lia.
  - pose proof (Z.add_0_r (h * fs_frag g)).
    pose proof (runs_tail (fs_frag g) (fs_frag g - k)) as Hrt.
    pose proof (give_block (fs_frag g) 0 k (fs_frag g - k) F) as Hg.
    destruct Hg as (_ & Hz & Hpop); [pose proof (Z.pow_pos_nonneg 2 (fs_frag g)); lia|lia|lia|lia|intros; apply Z.bits_0|].
    pose proof (ends_spec (fs_frag g) F) as (Hp0 & Hpf & Hr0).
    set (v' := set_bits 0 k (fs_frag g - k)) in *.
    assert (Hnf : v' <> blk_full (fs_frag g)) by (intros E; rewrite E in Hpop; lia).
    destruct (b_full_of _ _ Hz) as [B1 B2]. destruct (b_full_of _ _ Hnf) as [B3 B4].
    assert (Ev : blkval (fs_frag g) (cg_free c1) h = 0) by (by apply (blk_updated_at _ _ _ _ _ Hm1 ltac:(lia))).
    apply (cg_ok_moved g c c1 _ h v'); [|done]. constructor; rewrite ?Ev; try done.
    + apply (ck_frotor _ _ _ K1).
    + apply (ck_rotor _ _ _ K1).
    + simpl. lia.
    + simpl. lia.
    + split; [done|]. intros j x Hj Hx'. cbn [cg_frsum set_frsum]. rewrite (Hfr j x) by (done || lia).
      destruct (Hr0 j Hj) as [-> _]. unfold v'. replace k with (fs_frag g - (fs_frag g - k)) at 2 by lia.
      rewrite Hrt by (done || lia). f_equal. lia.
    + simpl. rewrite B1, B3. apply cyl_moved_0.
  - cbn [cg_cs set_frsum set_cs]. rewrite Ecs, cs_adj_adj. done.
  - apply fs_moved_touch. by apply (fs_moved_trans _ _ _ _ _ _ _ _ _ _ _ _ MF MF2).
  - cbn [cg_free set_frsum set_cs set_free]. rewrite Hv, Hcs by lia.
    by eapply blk_updated_trans.
  - rewrite Hv. intros i Hi. apply Hset. lia.
Qed.

(** [k] fragments are taken from a run of [j], found by [mapsearch]. *)
Lemma alloccg_frag bpref why k j : 0 <= bpref -> 1 <= k <= j -> j < fs_frag g ->
  (exists x, cg_frsum cgp !! Z.to_nat j = Some x /\ x <> 0) ->
  alloc_result u c k why
    (let* r := mapsearch g cgt bpref j in
     let '(cgp, bno) := r in
     if bno <? 0 then let* u := put_cg u (u_fs u) c cgp in Ok (u, 0) else
     let* free := bits_loop clrbit (Z.to_nat k) (cg_free cgp) bno in
     let* f := fs_adj (u_fs u) c 0 0 0 (- k) in
     let* frsum := aupd (cg_frsum cgp) j (fun n => n - 1) in
     let* frsum := if k =? j then Ok frsum
                   else aupd frsum (j - k) (fun n => n + 1) in
     let cgp := set_frsum (set_cs (set_free cgp free) (cs_adj 0 0 0 (- k) (cg_cs cgp))) frsum in
     let* u := put_cg u (fs_touch f) c cgp in
     Ok (u, c * fs_fpg g + bno)).
Proof.
  intros Hb Hk Hj (x & Hx & Hne). destruct group_ok as [K Hcs]. pose proof (frag_pos g G) as Hfp.
  pose proof (go_frag g G) as F. destruct (ck_frsum _ _ _ K) as [Lf HF].
  cbn [cg_frsum cgt set_time] in Lf, HF. rewrite (HF j) in Hx by lia. injection Hx as <-.
  apply runs_of_spec in Hne; [|lia].
  destruct (mapsearch_spec g c cgt bpref j G K ltac:(lia) Hb Hne) as (ro & h & p & -> & Hro & Hh & Hr).
  cbn [obind]. pose proof Hr as Hr'. unfold has_run_at, run_at in Hr'. bsimp.
  destruct (Z.ltb_spec (h * fs_frag g + p) 0); [nia|].
  assert (Hin : blk_in (fs_frag g) (cg_free cgp) h)
    by (apply blk_in_group; [exact G|apply (ck_len _ _ _ K)|done]).
  cbn [cg_free cg_frsum cg_cs set_frotor cgt set_time].
  destruct (bits_loop_clr (fs_frag g) F (Z.to_nat k) (cg_free cgp) h p (ck_map _ _ _ K) Hin)
    as (m & -> & Hm); [lia|lia|]. cbn [obind]. rewrite Z2Nat.id in Hm by lia.
  destruct (fs_adj_spec (u_fs u) c 0 0 0 (- k) _ Hc Hcs) as (f1 & -> & MF). cbn [obind].
  destruct (frsum_take (cg_frsum cgp) j k (k =? j) Lf) as (fr & Efr & Lfr & Hfr); [lia|lia|done|].
  destruct (aupd (cg_frsum cgp) j _) as [l1| |]; [|done..]. cbn [obind] in Efr |- *. rewrite Efr.
  cbn [obind].
  apply (alloc_finish u c cgp U Hc Hcg why _ _ h p k 0 0 0 (- k)); fold g; try done; try lia.
  - eapply cg_ok_moved; [|exact K]. apply (cg_moved_take g c cgt _ h j p k); done.
  - by apply fs_moved_touch.
  - intros i Hi.
    match goal with H : forall_range p j _ = true |- _ => by apply (forall_range_elim _ _ _ i H); lia end.
Qed.
End Alloccg.

(** The size of [k] fragments. *)
Definition frag_bytes (g : fsgeom) (k : Z) : Z := k * fs_fsize g.

Lemma alloccg_spec bread_error time_sec u c cgp bpref k :
  ufs_ok u -> rot_ok (fs_geom (u_fs u)) -> 0 <= c -> u_cgs u !! Z.to_nat c = Some cgp -> 0 <= bpref ->
  1 <= k <= fs_frag (fs_geom (u_fs u)) ->
  alloc_result u c k
    (cg_bad bread_error c cgp = true \/ no_room (fs_geom (u_fs u)) (cg_free cgp) k)
    (alloccg bread_error time_sec u c bpref (frag_bytes (fs_geom (u_fs u)) k)).
Proof.
  intros U R Hc Hcg Hb Hk. set (g := fs_geom (u_fs u)) in *. pose proof (uo_geom u U : geom_ok g) as G.
  destruct (group_ok time_sec u c cgp U R Hc Hcg) as [K Hcs]. fold g in K.
  pose proof (ck_frsum _ _ _ K) as [Lf _]. cbn [cg_frsum set_time] in Lf. pose proof (frag_pos g G).
  assert (Hsame : forall why : Prop, why -> alloc_result u c k why (Ok (u, 0))).
  { intros why Hw. exists u, 0. split; [done|]. split; [done|]. split; [done|]. left. done. }
  assert (Hnb : 0 <= cs_nbfree (cg_cs cgp)).
  { pose proof (ck_nbfree _ _ _ K) as E. cbn [cg_cs set_time] in E. rewrite E.
    apply blk_sum_nonneg. intros. apply b_full_01. }
  assert (Hroom : forall j, j = fs_frag g -> cs_nbfree (cg_cs cgp) = 0 ->
            (forall i, k <= i < j -> cg_frsum cgp !! Z.to_nat i = Some 0) -> no_room g (cg_free cgp) k).
  { intros j -> H0 Hz. by apply (no_room_intro g c (set_time cgp time_sec) k G K). }
  unfold alloccg, frag_bytes. fold g. rewrite (aget_ok _ c _ Hc Hcs). cbn [obind].
  rewrite (size_eqb g G), (aget_ok _ c _ Hc Hcg), (numfrags_spec g G). cbn [obind].
  destruct ((cs_nbfree (cg_cs cgp) =? 0) && (k =? fs_frag g)) eqn:E0.
  { apply Hsame. right. bsimp. apply (Hroom _ eq_refl); [done|intros; lia]. }
  destruct (cg_bad bread_error c cgp) eqn:Ebad; [apply Hsame; by left|]. cbn [orb].
  cbv zeta. destruct (Z.eqb_spec k (fs_frag g)) as [->|Hne].
  { apply alloccg_block; try done. lia. }
  destruct (frsum_scan_spec (Z.to_nat (fs_frag g - k)) (cg_frsum cgp) k) as (j & Ej & Hj & Hz & Hnz); [lia|lia|].
  cbn [cg_frsum set_time]. rewrite Ej. cbn [obind].
  destruct (Z.eqb_spec j (fs_frag g)) as [->|Hj2].
  - cbn [cg_cs set_time]. destruct (Z.eqb_spec (cs_nbfree (cg_cs cgp)) 0) as [Ez|Ez].
    + apply (alloc_none u c cgp U Hc Hcg); try done. right. by apply (Hroom _ eq_refl).
    + apply alloccg_hack; try done; fold g; lia.
  - apply alloccg_frag; try done; fold g; [lia|lia|]. apply Hnz. lia.
Qed.

(** ** [free] *)

Definition free_result (u : ufs) (b n : Z) (r : outcome ufs) : Prop :=
  exists u', r = Ok u' /\ ufs_ok u' /\ fs_geom (u_fs u') = fs_geom (u_fs u) /\
    frags_freed u u' b n.

Lemma fragoff_frags g n : geom_ok g -> fragoff g (frag_bytes g n) = 0.
Proof.
  intros G. unfold fragoff, frag_bytes. rewrite (go_fmask g G), Z.lnot_involutive.
  destruct (go_fshift g G) as [Hs E]. rewrite (land_ones_mod _ (fs_fshift g)); [|lia|].
  - rewrite E. apply Z.mod_mul. apply Z.pow_nonzero; lia.
  - rewrite E, Z.ones_equiv. lia.
Qed.

Lemma frag_bytes_range g n : geom_ok g -> 0 <= n <= fs_frag g ->
  0 <= frag_bytes g n <= fs_bsize g /\ u32 (frag_bytes g n) = frag_bytes g n.
Proof.
  intros G Hn. unfold frag_bytes. pose proof (fsize_pos g G). destruct (go_bsize g G) as [E1 E2].
  assert (0 <= n * fs_fsize g <= fs_bsize g) by nia. split; [done|]. apply u32_small. lia.
Qed.

Lemma bits_clear_0 frag v : frag_ok frag -> 0 <= v < 2 ^ frag ->
  (forall i, 0 <= i < frag -> Z.testbit v i = false) -> v = 0.
Proof.
  intros F Hv H. assert (0 <= frag) by (destruct F as [-> | [-> | [-> | ->] ] ]; done).
  apply Z.bits_inj'. intros i Hi. rewrite Z.bits_0. destruct (Z.lt_ge_cases i frag) as [|Hge].
  - by apply H.
  - rewrite <- (Z.mod_small v (2 ^ frag)) by done. by apply Z.mod_pow2_bits_high.
Qed.

Section Free.
Context (time_sec : Z).
Context (u : ufs) (c : Z) (cgp : cg) (U : ufs_ok u).
Context (Hc : 0 <= c) (Hcg : u_cgs u !! Z.to_nat c = Some cgp).
Let g := fs_geom (u_fs u).
Let G : geom_ok g := uo_geom u U.
Context (h p n : Z) (Hh : 0 <= h < nblk g) (Hp : 0 <= p) (Hn : 1 <= n) (Hpn : p + n <= fs_frag g).
Context (Hb : 0 < c * fs_fpg g + (h * fs_frag g + p)).
Let v := blkval (fs_frag g) (cg_free cgp) h.
Context (Hclr : forall i, p <= i < p + n -> Z.testbit v i = false).
Let cgt := set_time cgp time_sec.

Lemma free_finish f' c' nd nb ni nf :
  cg_moved g cgt c' h (set_bits v p n) -> cg_cs c' = cs_adj nd nb ni nf (cg_cs cgp) ->
  fs_moved (u_fs u) f' c nd nb ni nf ->
  free_result u (c * fs_fpg g + (h * fs_frag g + p)) n (put_cg u (fs_touch f') c c').
Proof.
  intros M Ecs MF. apply fs_moved_touch in MF. pose proof (frag_pos g G).
  assert (K : cg_ok g c cgp) by (pose proof (uo_cgs u U _ _ Hcg) as K; by rewrite Z2Nat.id in K by lia).
  pose proof (cg_ok_moved g c _ _ _ _ M (cg_ok_time g c cgp time_sec K)) as K'.
  pose proof (mv_map _ _ _ _ _ M) as Hm. cbn [cg_free cgt set_time] in Hm.
  destruct (ufs_ok_put u (fs_touch f') c cgp c' nd nb ni nf U Hc Hcg K' Ecs) as [-> U']; [|done|].
  - intros Ec. destruct Hm as (_ & _ & Hm). unfold frag_free. fold g.
    rewrite Z.div_0_l, Z.mod_0_l, Hm by lia. pose proof (uo_boot u U cgp) as B. fold g in B.
    rewrite Ec in Hcg. specialize (B Hcg). destruct (Z.eqb_spec 0 h) as [Eh|]; [|done].
    rewrite set_bits_testbit by lia. unfold v. rewrite <- Eh, B. simpl.
    destruct (Z.leb_spec p 0); [|done]. exfalso. nia.
  - eexists. split; [done|]. split; [done|]. split; [apply (fm_geom _ _ _ _ _ _ _ MF)|].
    eapply (frags_freed_intro g); try done. apply (fm_geom _ _ _ _ _ _ _ MF).
Qed.

Lemma free_group : cg_ok g c cgt /\ fs_csp (u_fs u) !! Z.to_nat c = Some (cg_cs cgp).
Proof.
  split.
  - apply cg_ok_time. pose proof (uo_cgs u U _ _ Hcg) as K. by rewrite Z2Nat.id in K by lia.
  - by rewrite (uo_csp u U), list_lookup_fmap, Hcg.
Qed.

(** Counting the block as free: the summary and the per-cylinder tables. *)
Lemma count_free_block_spec f0 c0 d x :
  fs_geom f0 = g -> cyl_ok g (cg_free cgp) (cg_btot c0) (cg_b c0) ->
  fs_csp f0 !! Z.to_nat c = Some x ->
  exists f1 btot b, count_free_block f0 c c0 (h * fs_frag g) d
      = Ok (f1, set_cylinders (set_cs c0 (cs_adj 0 1 0 d (cg_cs c0))) btot b) /\
    fs_moved f0 f1 c 0 1 0 d /\ cyl_moved g h 1 (cg_btot c0) (cg_b c0) btot b.
Proof.
  intros Eg Hcyl Hx. unfold count_free_block.
  destruct (fs_adj_spec f0 c 0 1 0 d x Hc Hx) as (f1 & -> & MF). cbn [obind].
  rewrite (fm_geom _ _ _ _ _ _ _ MF), Eg.
  destruct (cyl_adj_spec g (cg_free cgp) (set_cs c0 (cs_adj 0 1 0 d (cg_cs c0))) h 1 G Hcyl Hh)
    as (btot & b & -> & Hmv); [lia|]. cbn [obind]. by exists f1, btot, b.
Qed.

Lemma free_block : p = 0 -> n = fs_frag g ->
  free_result u (c * fs_fpg g + (h * fs_frag g + p)) n
    (let* fr := isblock (fs_frag g) (cg_free cgt) (fragstoblks g (h * fs_frag g + p)) in
     if fr : bool then Panic "free: freeing free block" else
     let* map := setblock (fs_frag g) (cg_free cgt) (fragstoblks g (h * fs_frag g + p)) in
     let* r := count_free_block (u_fs u) c (set_free cgt map) (h * fs_frag g + p) 0 in
     put_cg u (fs_touch r.1) c r.2).
Proof.
  intros Ep En. destruct free_group as [K Hx]. pose proof (frag_pos g G). pose proof (go_frag g G) as F.
  assert (Hin : blk_in (fs_frag g) (cg_free cgt) h)
    by (apply blk_in_group; [exact G|apply (ck_len _ _ _ K)|done]).
  rewrite (fragstoblks_spec g G) by lia. rewrite isblock_spec by (done || apply (ck_map _ _ _ K)).
  cbn [obind]. fold v. change (blkval (fs_frag g) (cg_free cgt) h) with v.
  assert (Ev : v = 0) by (apply (bits_clear_0 (fs_frag g)); [done|by apply blkval_bound|intros; apply Hclr; lia]).
  pose proof (ends_spec (fs_frag g) F) as (Hp0 & _ & Hr0).
  destruct (full_bits (fs_frag g) F) as (_ & _ & Hset). specialize (Hset 0 ltac:(lia)).
  rewrite clr_bits_0, Z.sub_0_r in Hset.
  assert (Hne : 0 <> blk_full (fs_frag g)) by (destruct F as [-> | [-> | [-> | ->] ] ]; done).
  rewrite Ev. destruct (Z.eqb_spec 0 (blk_full (fs_frag g))); [done|].
  destruct (setblock_spec (fs_frag g) (cg_free cgt) h F (ck_map _ _ _ K) Hin) as (m & -> & Hm).
  cbn [obind].
  destruct (count_free_block_spec (u_fs u) (set_free cgt m) 0 _ eq_refl (ck_cyl _ _ _ K) Hx)
    as (f1 & btot & b & Ecount & MF & Hmv).
  rewrite Ep, Z.add_0_r, Ecount. cbn [obind fst snd].
  replace (c * fs_fpg g + h * fs_frag g) with (c * fs_fpg g + (h * fs_frag g + p)) by lia.
  eapply free_finish; [|done|exact MF].
  assert (Ev' : set_bits v p n = blk_full (fs_frag g)) by (by rewrite Ev, Ep, En).
  destruct (b_full_of (fs_frag g) 0 Hne) as [B1 B2].
  constructor; change (blkval (fs_frag g) (cg_free cgt) h) with v; rewrite ?Ev'; rewrite ?Ev; try done.
  - apply (ck_frotor _ _ _ K).
  - apply (ck_rotor _ _ _ K).
  - rewrite B1. unfold b_full. rewrite Z.eqb_refl. simpl. lia.
  - rewrite B2. unfold b_frags. rewrite Z.eqb_refl. simpl. lia.
  - split; [done|]. intros k x Hk Hlk. destruct (Hr0 k Hk) as [-> ->]. cbn in Hlk |- *. rewrite Hlk. f_equal. lia.
  - rewrite B1. unfold b_full. rewrite Z.eqb_refl. exact Hmv.
Qed.

(** The fragment size table after accounting the old block out and the new in. *)
Lemma frsum_free l v' : length l = 8%nat -> 0 <= v' < 2 ^ fs_frag g ->
  exists l', (let* frsum := fragacct (fs_frag g) v l (-1) in fragacct (fs_frag g) v' frsum 1) = Ok l' /\
    frsum_moved (fs_frag g) v v' l l'.
Proof.
  intros Hl Hv'. pose proof (go_frag g G) as F.
  destruct (fragacct_spec (fs_frag g) v l (-1) F (blkval_bound _ _ _ F)) as (l1 & -> & L1 & H1);
    [by rewrite Hl|]. cbn [obind].
  destruct (fragacct_spec (fs_frag g) v' l1 1 F Hv') as (l2 & -> & L2 & H2); [by rewrite L1, Hl|].
  exists l2. split; [done|]. split; [congruence|]. intros k x Hk Hx. rewrite H2, H1, Hx. simpl.
  rewrite Z2Nat.id by lia. destruct (Z.leb_spec 1 k), (Z.ltb_spec k (fs_frag g)); try lia. simpl.
  f_equal. lia.
Qed.

Lemma free_partial : n < fs_frag g ->
  let bno := h * fs_frag g + p in
  free_result u (c * fs_fpg g + bno) n
    (let bbase := bno - fragnum g bno in
     let* blk := blkmap (fs_frag g) (cg_free cgt) bbase in
     let* frsum := fragacct (fs_frag g) blk (cg_frsum cgt) (-1) in
     let* map := free_frags (Z.to_nat n) (cg_free cgt) bno in
     let cgp := set_cs (set_free cgt map) (cs_adj 0 0 0 n (cg_cs cgt)) in
     let* f := fs_adj (u_fs u) c 0 0 0 n in
     let* blk := blkmap (fs_frag g) map bbase in
     let* frsum := fragacct (fs_frag g) blk frsum 1 in
     let cgp := set_frsum cgp frsum in
     let* whole := isblock (fs_frag g) map (fragstoblks g bbase) in
     let* r := if whole : bool then count_free_block f c cgp bbase (- fs_frag g)
               else Ok (f, cgp) in
     put_cg u (fs_touch r.1) c r.2).
Proof.
  intros Hlt bno. destruct free_group as [K Hx]. pose proof (frag_pos g G). pose proof (go_frag g G) as F.
  assert (Hin : blk_in (fs_frag g) (cg_free cgt) h)
    by (apply blk_in_group; [exact G|apply (ck_len _ _ _ K)|done]).
  assert (Ebase : bno - fragnum g bno = h * fs_frag g).
  { rewrite (fragnum_spec g G). unfold bno. rewrite (frag_mod g G) by lia. lia. }
  cbv zeta. rewrite Ebase. rewrite blkmap_spec by (done || apply (ck_map _ _ _ K)). cbn [obind].
  change (blkval (fs_frag g) (cg_free cgt) h) with v.
  destruct (free_frags_spec (fs_frag g) F (Z.to_nat n) (cg_free cgt) h p (ck_map _ _ _ K) Hin)
    as (m & Em & Hm); [lia|lia|rewrite Z2Nat.id by lia; exact Hclr|].
  rewrite Z2Nat.id in Hm by lia. change (blkval (fs_frag g) (cg_free cgt) h) with v in Hm.
  destruct (give_block (fs_frag g) v p n F (blkval_bound _ _ _ F) Hp Hn Hpn Hclr) as (Hv' & Hvf & Hpop).
  set (v' := set_bits v p n) in *.
  destruct (frsum_free (cg_frsum cgp) v') as (fr & Efr & Hfr); [apply (ck_frsum _ _ _ K)|done|].
  change (cg_frsum cgt) with (cg_frsum cgp).
  destruct (fragacct (fs_frag g) v (cg_frsum cgp) (-1)) as [fr1| |]; [|done..].
  cbn [obind] in Efr |- *. unfold bno. rewrite Em. cbn [obind].
  destruct (fs_adj_spec (u_fs u) c 0 0 0 n _ Hc Hx) as (f1 & -> & MF). cbn [obind].
  assert (Hinm : blk_in (fs_frag g) m h) by (by eapply blk_updated_in).
  rewrite blkmap_spec by (done || apply Hm). cbn [obind].
  rewrite (blk_updated_at _ _ _ _ _ Hm ltac:(lia)). rewrite Efr. cbn [obind].
  pose proof (fragstoblks_spec g G h 0 ltac:(lia)) as Efs. rewrite Z.add_0_r in Efs. rewrite Efs.
  rewrite isblock_spec by (done || apply Hm). cbn [obind].
  rewrite (blk_updated_at _ _ _ _ _ Hm ltac:(lia)).
  destruct (b_full_of _ _ Hvf) as [B1 B2]. pose proof (ends_spec (fs_frag g) F) as (_ & Hpf & _).
  destruct (Z.eqb_spec v' (blk_full (fs_frag g))) as [Efull|Hnf].
  - destruct (fs_moved_lookup _ _ _ _ _ _ _ MF) as [y Hy].
    destruct (count_free_block_spec f1
      (set_frsum (set_cs (set_free cgt m) (cs_adj 0 0 0 n (cg_cs cgt))) fr) (- fs_frag g) y)
      as (f2 & btot & b & -> & MF2 & Hmv); [apply (fm_geom _ _ _ _ _ _ _ MF)|apply (ck_cyl _ _ _ K)|done|].
    cbn [obind fst snd]. pose proof (fs_moved_trans _ _ _ _ _ _ _ _ _ _ _ _ MF MF2) as MF'.
    eapply free_finish; [|simpl; by rewrite cs_adj_adj|exact MF'].
    assert (Hb1 : b_full (fs_frag g) v' = 1) by (unfold b_full; by rewrite Efull, Z.eqb_refl).
    assert (Hb2 : b_frags (fs_frag g) v' = 0) by (unfold b_frags; by rewrite Efull, Z.eqb_refl).
    rewrite Efull, Hpf in Hpop.
    constructor; change (blkval (fs_frag g) (cg_free cgt) h) with v; fold v'; try done.
    + apply (ck_frotor _ _ _ K).
    + apply (ck_rotor _ _ _ K).
    + rewrite B1, Hb1. simpl. lia.
    + rewrite B2, Hb2. simpl. lia.
    + rewrite B1, Hb1. exact Hmv.
  - cbn [obind fst snd]. eapply free_finish; [|done|exact MF].
    destruct (b_full_of _ _ Hnf) as [B3 B4].
    constructor; change (blkval (fs_frag g) (cg_free cgt) h) with v; fold v'; try done.
    + apply (ck_frotor _ _ _ K).
    + apply (ck_rotor _ _ _ K).
    + rewrite B1, B3. simpl. lia.
    + rewrite B2, B4. simpl. lia.
    + rewrite B1, B3. apply cyl_moved_0.
Qed.
End Free.

(** [free] at a fragment of group [c], past its checks of the arguments. *)
Lemma free_checks bread_error time_sec u c cgp h p n (P : outcome ufs -> Prop) :
  let g := fs_geom (u_fs u) in
  let cgt := set_time cgp time_sec in
  let bno := h * fs_frag g + p in
  ufs_ok u -> 0 <= c -> u_cgs u !! Z.to_nat c = Some cgp -> cg_bad bread_error c cgp = false ->
  0 <= h < nblk g -> 0 <= p -> 1 <= n -> p + n <= fs_frag g ->
  c * fs_fpg g + bno < fs_size g ->
  (n = fs_frag g -> P
     (let* fr := isblock (fs_frag g) (cg_free cgt) (fragstoblks g bno) in
      if fr : bool then Panic "free: freeing free block" else
      let* map := setblock (fs_frag g) (cg_free cgt) (fragstoblks g bno) in
      let* r := count_free_block (u_fs u) c (set_free cgt map) bno 0 in
      put_cg u (fs_touch r.1) c r.2)) ->
  (n < fs_frag g -> P
     (let bbase := bno - fragnum g bno in
      let* blk := blkmap (fs_frag g) (cg_free cgt) bbase in
      let* frsum := fragacct (fs_frag g) blk (cg_frsum cgt) (-1) in
      let* map := free_frags (Z.to_nat n) (cg_free cgt) bno in
      let cgp := set_cs (set_free cgt map) (cs_adj 0 0 0 n (cg_cs cgt)) in
      let* f := fs_adj (u_fs u) c 0 0 0 n in
      let* blk := blkmap (fs_frag g) map bbase in
      let* frsum := fragacct (fs_frag g) blk frsum 1 in
      let cgp := set_frsum cgp frsum in
      let* whole := isblock (fs_frag g) map (fragstoblks g bbase) in
      let* r := if whole : bool then count_free_block f c cgp bbase (- fs_frag g)
                else Ok (f, cgp) in
      put_cg u (fs_touch r.1) c r.2)) ->
  P (free bread_error time_sec u (c * fs_fpg g + bno) (frag_bytes g n)).
Proof.
  intros g cgt bno U Hc Hcg Hbad Hh Hp Hn Hpn Hsz HB HF. pose proof (uo_geom u U : geom_ok g) as G.
  destruct (go_size g G) as [_ Hsz32].
  destruct (frag_bytes_range g n G ltac:(lia)) as [Hr E32].
  pose proof (frag_pos g G). pose proof (fpg_eq g G). pose proof (go_fpg g G) as (? & _).
  assert (Hbno : 0 <= bno < fs_fpg g) by (unfold bno; nia).
  assert (Hcf : 0 <= c * fs_fpg g) by nia.
  unfold free. fold g. rewrite E32, fragoff_frags by done.
  destruct (Z.ltb_spec (fs_bsize g) (frag_bytes g n)); [lia|]. cbn [orb nz negb Z.eqb].
  unfold badblock. rewrite u32_small by (change (2 ^ 32) with (2 * 2 ^ 31); lia).
  destruct (Z.leb_spec (fs_size g) (c * fs_fpg g + bno)); [lia|].
  assert (Ec : dtog g (c * fs_fpg g + bno) = c).
  { unfold dtog. rewrite Z.quot_div_nonneg by lia. by rewrite Z.div_add_l, Z.div_small, Z.add_0_r by lia. }
  assert (Ed : dtogd g (c * fs_fpg g + bno) = bno).
  { unfold dtogd. rewrite Z.rem_mod_nonneg by lia. by rewrite Z.add_comm, Z.mod_add, Z.mod_small by lia. }
  rewrite Ec, Ed, (aget_ok _ c _ Hc Hcg). cbn [obind]. rewrite Hbad. cbv zeta. unfold frag_bytes.
  rewrite (size_eqb g G), (numfrags_spec g G), Z.max_r by lia.
  destruct (Z.eqb_spec n (fs_frag g)) as [En|Hne]; [by apply HB|apply HF; lia].
Qed.

(** A fragment address of the file system, taken apart. *)
Lemma address_split g b n : geom_ok g -> 0 <= b -> 1 <= n -> b mod fs_frag g + n <= fs_frag g ->
  exists h p, 0 <= h < nblk g /\ 0 <= p /\ p + n <= fs_frag g /\ b mod fs_frag g = p /\
    b = b / fs_fpg g * fs_fpg g + (h * fs_frag g + p) /\ 0 <= b / fs_fpg g.
Proof.
  intros G Hb Hn Hbn. destruct (split_group g b G Hb) as (HC & HH & HP & Eb).
  exists (b mod fs_fpg g / fs_frag g), ((b mod fs_fpg g) mod fs_frag g).
  assert (E : (b mod fs_fpg g) mod fs_frag g = b mod fs_frag g).
  { apply Z.mod_mod_divide. apply (go_fpg g G). }
  split_and!; try lia.
Qed.

(** C6: Giving fragments back: for [n] fragments of one block that are in use,
    [free] of their size returns, makes free exactly those fragments, and
    leaves every count of the group and the super block the one the new free
    map implies, including when the fragments complete a free block. *)
Theorem free_correct bread_error time_sec u b n cgp :
  let g := fs_geom (u_fs u) in
  ufs_ok u -> 0 < b < fs_size g ->
  u_cgs u !! Z.to_nat (b / fs_fpg g) = Some cgp -> cg_bad bread_error (b / fs_fpg g) cgp = false ->
  1 <= n -> b mod fs_frag g + n <= fs_frag g ->
  (forall i, b <= i < b + n -> fsb_free u i = false) ->
  exists u', free bread_error time_sec u b (frag_bytes g n) = Ok u' /\ ufs_ok u' /\
    fs_geom (u_fs u') = g /\ frags_freed u u' b n.
Proof.
  intros g U Hb Hcg Hbad Hn Hbn Huse. pose proof (uo_geom u U : geom_ok g) as G.
  destruct (address_split g b n G ltac:(lia) Hn Hbn) as (h & p & Hh & Hp & Hpn & _ & Eb & Hc).
  set (c := b / fs_fpg g) in *.
  assert (Hclr : forall i, p <= i < p + n ->
            Z.testbit (blkval (fs_frag g) (cg_free cgp) h) i = false).
  { intros i Hi. rewrite <- (fsb_free_at g u c h i cgp) by (done || lia). apply Huse. lia. }
  rewrite Eb. change (free_result u (c * fs_fpg g + (h * fs_frag g + p)) n
    (free bread_error time_sec u (c * fs_fpg g + (h * fs_frag g + p)) (frag_bytes g n))).
  apply (free_checks bread_error time_sec u c cgp h p n
    (free_result u (c * fs_fpg g + (h * fs_frag g + p)) n)); try done; [fold g; lia|..].
  - intros En. fold g in En. apply free_block; try done; fold g; lia.
  - intros Hlt. fold g in Hlt. apply free_partial; try done; fold g; lia.
Qed.

Lemma free_correct_witness :
  exists u', free (fun _ => false) 7 sample_ufs 1 (frag_bytes sample_geom 3) = Ok u' /\ ufs_ok u' /\
    fs_geom (u_fs u') = sample_geom /\ frags_freed sample_ufs u' 1 3.
Proof.
  apply (free_correct (fun _ => false) 7 sample_ufs 1 3 sample_cg0).
  - exact sample_ok.
  - simpl. lia.
  - reflexivity.
  - reflexivity.
  - lia.
  - vm_compute. discriminate.
  - intros i Hi. assert (i = 1 \/ i = 2 \/ i = 3) as [-> | [-> | ->] ] by lia; reflexivity.
Defined.

(** Double free of fragments is caught: if any of the [n] fragments (less
    than a block) is already free, [free] panics instead of changing the map. *)
Theorem free_detects_free_frag bread_error time_sec u b n cgp :
  let g := fs_geom (u_fs u) in
  ufs_ok u -> 0 <= b < fs_size g ->
  u_cgs u !! Z.to_nat (b / fs_fpg g) = Some cgp -> cg_bad bread_error (b / fs_fpg g) cgp = false ->
  1 <= n < fs_frag g -> b mod fs_frag g + n <= fs_frag g ->
  (exists i, b <= i < b + n /\ fsb_free u i = true) ->
  free bread_error time_sec u b (frag_bytes g n) = Panic "free: freeing free frag".
Proof.
  intros g U Hb Hcg Hbad Hn Hbn (i & Hi & Hfree). pose proof (uo_geom u U : geom_ok g) as G.
  destruct (address_split g b n G ltac:(lia) ltac:(lia) Hbn) as (h & p & Hh & Hp & Hpn & _ & Eb & Hc).
  set (c := b / fs_fpg g) in *. rewrite Eb.
  assert (K : cg_ok g c cgp) by (pose proof (uo_cgs u U _ _ Hcg) as K; by rewrite Z2Nat.id in K by lia).
  pose proof (go_frag g G) as F.
  assert (Hin : blk_in (fs_frag g) (cg_free cgp) h)
    by (apply blk_in_group; [exact G|apply (ck_len _ _ _ K)|done]).
  apply (free_checks bread_error time_sec u c cgp h p n
    (fun r => r = Panic "free: freeing free frag")); try done; fold g; try lia.
  intros _. cbv zeta. rewrite (fragnum_spec g G), (frag_mod g G), Z.add_simpl_r by lia.
  rewrite blkmap_spec by (done || apply (ck_map _ _ _ K)). cbn [obind].
  destruct (fragacct_spec (fs_frag g) (blkval (fs_frag g) (cg_free cgp) h) (cg_frsum cgp) (-1) F
    (blkval_bound _ _ _ F)) as (l1 & E1 & _); [by rewrite (proj1 (ck_frsum _ _ _ K))|].
  cbn [cg_free cg_frsum set_time]. rewrite E1. cbn [obind].
  rewrite (free_frags_panics (fs_frag g) F); [done|apply (ck_map _ _ _ K)|done|lia|lia|].
  exists (i - c * fs_fpg g - h * fs_frag g). split; [lia|].
  rewrite <- (fsb_free_at g u c h _ cgp) by (done || lia). rewrite <- Hfree. f_equal. lia.
Qed.

Lemma free_detects_free_frag_witness :
  free (fun _ => false) 7 sample_ufs 4 (frag_bytes sample_geom 2) = Panic "free: freeing free frag".
Proof.
  apply (free_detects_free_frag (fun _ => false) 7 sample_ufs 4 2 sample_cg0).
  - exact sample_ok.
  - simpl. lia.
  - reflexivity.
  - reflexivity.
  - simpl. lia.
  - vm_compute. discriminate.
  - exists 5. split; [lia|reflexivity].
Defined.
