(* ===== verification/UfsHash.v ===== *)
(** * [hashalloc] and the entry points [alloc], [ialloc]

    [hashalloc] is handed the routine that allocates in one group.  What it
    needs of that routine is the class [GroupAllocator]; against it the search
    is proved complete: it gives up only when every group has been tried and
    found exhausted.  [alloccg] is an instance. *)
From S2P Require Import Prelude Fragmap UfsAlloc UfsInv UfsOps UfsSample UfsProofs.
#[local] Set Default Proof Using "All".

(** ** The interface *)

(** What [hashalloc] relies on, of a routine [allocator s c pref size] for a
    fixed [size]: [keep] relates the state before and after a failed attempt,
    [exhausted s c] says that group [c] has nothing to give, [got s s' c b]
    what a successful attempt did. *)
Class GroupAllocator {S : Type} (allocator : S -> Z -> Z -> Z -> outcome (S * Z)) (ncg size : Z)
    (inv : S -> Prop) (keep : S -> S -> Prop) (exhausted : S -> Z -> Prop)
    (got : S -> S -> Z -> Z -> Prop) : Prop := {
  ga_keep : PreOrder keep;
  ga_try s c pref : inv s -> 0 <= c < ncg -> 0 <= pref ->
    exists s' b, allocator s c pref size = Ok (s', b) /\ inv s' /\
      ((b = 0 /\ keep s s' /\ exhausted s' c) \/ (b <> 0 /\ got s s' c b));
  ga_exhausted s s' c : keep s s' -> exhausted s c -> exhausted s' c;
  ga_got s s0 s' c b : keep s s0 -> got s0 s' c b -> got s s' c b
}.

Section Search.
Context {S : Type} {allocator : S -> Z -> Z -> Z -> outcome (S * Z)} {ncg size : Z}
  {inv : S -> Prop} {keep : S -> S -> Prop} {exhausted : S -> Z -> Prop}
  {got : S -> S -> Z -> Z -> Prop}.
Context {GA : GroupAllocator allocator ncg size inv keep exhausted got}.

(** The outcome of trying the groups that satisfy [tried]. *)
Definition search_result (s : S) (tried : Z -> Prop) (r : outcome (S * Z)) : Prop :=
  exists s' b, r = Ok (s', b) /\ inv s' /\
    ((b = 0 /\ keep s s' /\ forall c, tried c -> exhausted s' c) \/
     (b <> 0 /\ exists c, 0 <= c < ncg /\ got s s' c b)).

Lemma search_weaken s s0 tried tried0 r :
  keep s s0 -> (forall c, tried c -> exhausted s0 c \/ tried0 c) ->
  search_result s0 tried0 r -> search_result s tried r.
Proof.
  intros Hk Ht (s' & b & -> & Hi & H). exists s', b. split; [done|]. split; [done|].
  destruct GA as [Hpre _ Hex Hgot]. destruct H as [(-> & Hk' & He)|(Hb & c & Hc & Hg)].
  - left. split; [done|]. split; [by transitivity s0|]. intros c Hc.
    destruct (Ht c Hc) as [H|H]; [by apply (Hex s0)|by apply He].
  - right. split; [done|]. exists c. split; [done|]. by apply (Hgot s s0).
Qed.

(** One attempt, and the rest of the search if it fails. *)
Lemma search_step s c pref tried k :
  inv s -> 0 <= c < ncg -> 0 <= pref ->
  (forall s', inv s' -> search_result s' (fun x => tried x /\ x <> c) (k s')) ->
  search_result s tried
    (let* r := allocator s c pref size in if nz r.2 then Ok r else k r.1).
Proof.
  intros Hi Hc Hp Hk. pose proof GA as [Hpre Htry _ _].
  destruct (Htry s c pref Hi Hc Hp) as (s1 & b & -> & Hi1 & H). cbn [obind fst snd].
  unfold nz. destruct H as [(-> & Hk1 & He)|(Hb & Hg)].
  - simpl. eapply (search_weaken s s1); [done| |by apply Hk].
    intros x Hx. destruct (Z.eq_dec x c) as [->|]; [by left|by right].
  - destruct (Z.eqb_spec b 0); [done|]. simpl. exists s1, b. split; [done|]. split; [done|].
    right. split; [done|]. by exists c.
Qed.

Lemma search_done s tried : inv s -> (forall c, ~ tried c) -> search_result s tried (Ok (s, 0)).
Proof.
  intros Hi Ht. destruct GA as [Hpre _ _ _]. exists s, 0. split; [done|]. split; [done|]. left.
  split; [done|]. split; [done|]. intros c Hc. by destruct (Ht c).
Qed.

Lemma quad_rehash_spec fuel s c i :
  inv s -> 0 <= c < ncg -> 1 <= i -> 0 <= Z.max 0 (ncg - i) < Z.of_nat fuel ->
  search_result s (fun x => i = 1 /\ 1 < ncg /\ x = Z.rem (c + 1) ncg)
    (quad_rehash allocator ncg fuel s c i size).
Proof.
  revert s c i. induction fuel as [|fuel IH]; intros s c i Hi Hc Hi1 Hf.
  - simpl in Hf. lia.
  - cbn [quad_rehash]. destruct (Z.ltb_spec i ncg) as [Hlt|].
    + cbv zeta. set (c' := if ncg <=? c + i then c + i - ncg else c + i).
      assert (Hc' : 0 <= c' < ncg) by (unfold c'; destruct (Z.leb_spec ncg (c + i)); lia).
      apply (search_step s c' 0 _ (fun s' => quad_rehash allocator ncg fuel s' c' (i * 2) size));
        [done|done|done|]. intros s' Hs'.
      eapply (search_weaken s' s'); [| |apply (IH s' c' (i * 2)); [done|done|lia|lia] ].
      * destruct GA as [Hpre _ _ _]. reflexivity.
      * intros x [(-> & Hn & ->) Hne]. exfalso. apply Hne. unfold c'.
        rewrite Z.rem_mod_nonneg by lia. destruct (Z.leb_spec ncg (c + 1)).
        -- replace (c + 1) with ncg by lia. rewrite Z.mod_same by lia. lia.
        -- apply Z.mod_small. lia.
    + apply search_done; [done|]. intros x. lia.
Qed.

Lemma brute_search_spec n s c :
  inv s -> 0 <= c < ncg ->
  search_result s (fun x => exists j, 0 <= j < Z.of_nat n /\ x = (c + j) mod ncg)
    (brute_search allocator ncg n s c size).
Proof.
  revert s c. induction n as [|n IH]; intros s c Hi Hc; cbn [brute_search].
  - apply search_done; [done|]. intros x (j & Hj & _). simpl in Hj. lia.
  - set (c' := if c + 1 =? ncg then 0 else c + 1).
    apply (search_step s c 0 _ (fun s' => brute_search allocator ncg n s' c' size));
      [done|done|done|]. intros s' Hs'.
    assert (Hc' : 0 <= c' < ncg /\ c' mod ncg = (c + 1) mod ncg).
    { unfold c'. destruct (Z.eqb_spec (c + 1) ncg) as [->|]; [|split; [lia|done] ].
      rewrite Z.mod_same, Z.mod_0_l by lia. split; [lia|done]. }
    destruct Hc' as [Hc' E]. eapply (search_weaken s' s'); [| |by apply (IH s' c')].
    + destruct GA as [Hpre _ _ _]. reflexivity.
    + intros x [(j & Hj & ->) Hne]. right. exists (j - 1). split.
      * assert (j <> 0); [|lia]. intros ->. apply Hne. rewrite Z.add_0_r. by apply Z.mod_small.
      * rewrite <- (Z.add_mod_idemp_l c'), E, Z.add_mod_idemp_l by lia. f_equal. lia.
Qed.

(** The three strategies together leave no group out. *)
Lemma hashalloc_spec s c pref :
  inv s -> 0 <= c < ncg -> 0 <= pref ->
  search_result s (fun x => 0 <= x < ncg) (hashalloc allocator ncg s c pref size).
Proof.
  intros Hi Hc Hp. unfold hashalloc. pose proof GA as [Hpre _ Hex Hgot].
  apply (search_step s c pref _ (fun s =>
    let* r := quad_rehash allocator ncg (Datatypes.S (Z.to_nat ncg)) s c 1 size in
    if nz r.2 then Ok r
    else brute_search allocator ncg (Z.to_nat (ncg - 2)) r.1 (Z.rem (c + 2) ncg) size));
    [done|done|done|]. intros s1 Hi1.
  destruct (quad_rehash_spec (Datatypes.S (Z.to_nat ncg)) s1 c 1 Hi1 Hc ltac:(lia) ltac:(lia))
    as (s2 & b2 & -> & Hi2 & H2). cbn [obind fst snd]. unfold nz.
  destruct H2 as [(-> & Hk2 & He2)|(Hb2 & c2 & Hc2 & Hg2)]; simpl.
  - apply (search_weaken s1 s2 _ (fun x => exists j, 0 <= j < Z.of_nat (Z.to_nat (ncg - 2)) /\
               x = (Z.rem (c + 2) ncg + j) mod ncg)); [done| |].
    + intros x [Hx Hne]. destruct (Z.eq_dec x ((c + 1) mod ncg)) as [E|Hne1].
      { left. apply He2. rewrite Z.rem_mod_nonneg by lia. split_and!; [done|lia|done]. }
      right. rewrite Z.rem_mod_nonneg by lia. exists ((x - (c + 2)) mod ncg).
      rewrite Zplus_mod_idemp_l, Zplus_mod_idemp_r. replace (c + 2 + (x - (c + 2))) with x by lia.
      split; [|symmetry; by apply Z.mod_small].
      pose proof (Z.mod_pos_bound (x - (c + 2)) ncg ltac:(lia)) as Hm. split; [lia|].
      destruct (Z.le_gt_cases (ncg - 2) ((x - (c + 2)) mod ncg)) as [Hge|]; [exfalso|lia].
      pose proof (Z.div_mod (x - (c + 2)) ncg ltac:(lia)) as Hd.
      set (q := (x - (c + 2)) / ncg) in *. set (m := (x - (c + 2)) mod ncg) in *.
      clearbody q m.
      assert (m = ncg - 2 \/ m = ncg - 1) as [Em|Em] by lia.
      * apply Hne. assert (q = -1 \/ q <= -2 \/ 0 <= q) as [ -> | [? | ?] ] by lia; nia.
      * apply Hne1. apply (Z.mod_unique (c + 1) ncg (- (q + 1)) x); [left; lia|]. subst m. lia.
    + apply brute_search_spec; [done|]. rewrite Z.rem_mod_nonneg by lia.
      apply Z.mod_pos_bound. lia.
  - destruct (Z.eqb_spec b2 0); [done|]. simpl. exists s2, b2. split; [done|]. split; [done|].
    right. split; [done|]. by exists c2.
Qed.
End Search.

(** ** [alloccg] implements the interface *)

(** Group [c] cannot give [n] fragments: it cannot be read, or has no room. *)
Definition group_full (bread_error : Z -> bool) (g : fsgeom) (n : Z) (u : ufs) (c : Z) : Prop :=
  exists cgp, u_cgs u !! Z.to_nat c = Some cgp /\
    (cg_bad bread_error c cgp = true \/ no_room g (cg_free cgp) n).

Definition ufs_inv (g : fsgeom) (u : ufs) : Prop := ufs_ok u /\ fs_geom (u_fs u) = g.

(** [n] fragments of one block of group [c] were taken, at [b]. *)
Definition got_frags (g : fsgeom) (n : Z) (u u' : ufs) (c b : Z) : Prop :=
  0 < b /\ b / fs_fpg g = c /\ b mod fs_frag g + n <= fs_frag g /\ frags_taken u u' b n.

Lemma group_full_keep bread_error g n u u' c :
  frags_same u u' -> group_full bread_error g n u c -> group_full bread_error g n u' c.
Proof.
  intros [_ H] (cgp & Hcg & Hw). specialize (H (Z.to_nat c)). rewrite Hcg in H.
  destruct (u_cgs u' !! Z.to_nat c) as [cgp'|] eqn:E; [|done]. simpl in H. injection H as Em Ef.
  exists cgp'. split; [done|]. unfold cg_bad in *. by rewrite Em, Ef.
Qed.

#[global] Instance alloccg_group_allocator bread_error time_sec g n :
  rot_ok g -> 1 <= n <= fs_frag g ->
  GroupAllocator (alloccg bread_error time_sec) (fs_ncg g) (frag_bytes g n)
    (ufs_inv g) frags_same (group_full bread_error g n) (got_frags g n).
Proof.
  intros R Hn. split.
  - apply _.
  - intros u c pref [U Eg] Hc Hp. destruct (ufs_group u c U) as (cgp & Hcg & _); [by rewrite Eg|].
    pose proof (alloccg_spec bread_error time_sec u c cgp pref n U) as H. rewrite Eg in H.
    destruct (H R ltac:(lia) Hcg Hp Hn) as (u' & b & E & U' & Eg' & Hr).
    exists u', b. split; [done|]. split; [by split; [|congruence]|]. rewrite Eg in Hr.
    destruct Hr as [(-> & Hs & Hw)|(Hb & Hg)]; [left|right].
    + split; [done|]. split; [done|]. apply (group_full_keep _ _ _ u u' _ Hs). by exists cgp.
    + split; [lia|done].
  - intros u u' c. apply group_full_keep.
  - intros u u0 u' c b Hs (Hb & Hc & Hm & Ht). split_and!; try done.
    by apply (frags_taken_keep u u0); [|lia|].
Qed.

(** ** [alloc] *)

Lemma cs_sum_cons x l : cs_nbfree (cs_sum (x :: l)) = cs_nbfree (cs_sum l) + cs_nbfree x.
Proof. done. Qed.

Lemma cs_sum_nonneg l : Forall (fun x => 0 <= cs_nbfree x) l -> 0 <= cs_nbfree (cs_sum l).
Proof. induction 1; [done|]. rewrite cs_sum_cons. lia. Qed.

Lemma cs_sum_zero l : Forall (fun x => 0 <= cs_nbfree x) l -> cs_nbfree (cs_sum l) = 0 ->
  Forall (fun x => cs_nbfree x = 0) l.
Proof.
  induction 1 as [|x l Hx Hl IH]; intros H0; [constructor|]. rewrite cs_sum_cons in H0.
  pose proof (cs_sum_nonneg l Hl). constructor; [lia|apply IH; lia].
Qed.

Lemma cstotal_full u : ufs_ok u -> cs_nbfree (fs_cstotal (u_fs u)) = 0 ->
  forall c cgp, u_cgs u !! c = Some cgp -> cs_nbfree (cg_cs cgp) = 0.
Proof.
  intros U H0 c cgp Hcg. rewrite (uo_total u U), (uo_csp u U) in H0.
  apply cs_sum_zero in H0.
  - apply (Forall_lookup_1 _ _ c (cg_cs cgp) H0). by rewrite list_lookup_fmap, Hcg.
  - apply Forall_fmap, Forall_lookup_2. intros n x Hx. cbn [compose].
    rewrite (ck_nbfree _ _ _ (uo_cgs u U n x Hx)). apply blk_sum_nonneg. intros. apply b_full_01.
Qed.

(** Why [alloc] may refuse: no group has room, or the caller is not the super
    user and the reserve is reached. *)
Definition alloc_refusal (bread_error : Z -> bool) (u_uid : Z) (u : ufs) (n : Z) : Prop :=
  let g := fs_geom (u_fs u) in
  (u_uid <> 0 /\ freespace (u_fs u) (fs_minfree g) <= 0) \/
  (forall c, 0 <= c < fs_ncg g -> group_full bread_error g n u c).

(** C5: [alloc] of [n] fragments on a consistent file system never panics and
    leaves it consistent.  Either it returns the address of [n] fragments that
    lie in one block and were free, which are the only ones whose state changes,
    and charges them to the inode; or it fails with [ENOSPC], with no fragment
    taken and the inode unchanged, and then the reserve is reached (and the
    caller is not the super user) or no cylinder group that can be read has
    room for [n] fragments in a block. *)
Theorem alloc_correct bread_error time_sec u_uid u ip bpref n :
  let g := fs_geom (u_fs u) in
  ufs_ok u -> rot_ok g -> 1 <= n <= fs_frag g -> 0 <= bpref ->
  0 <= i_number ip < fs_ncg g * fs_ipg g ->
  exists u' ip' res,
    alloc bread_error time_sec u_uid u ip bpref (frag_bytes g n) = Ok (u', ip', res) /\
    ufs_ok u' /\
    ((exists b, res = Allocated b /\ ip' = charge ip (btodb (frag_bytes g n)) /\
        0 < b < fs_ncg g * fs_fpg g /\ b mod fs_frag g + n <= fs_frag g /\ frags_taken u u' b n) \/
     (res = Failed ENOSPC /\ ip' = ip /\ frags_same u u' /\
        alloc_refusal bread_error u_uid u n)).
Proof.
  intros g U R Hn Hb Hi. pose proof (uo_geom u U : geom_ok g) as G.
  destruct (frag_bytes_range g n G ltac:(lia)) as [Hr E32].
  destruct (go_ncg g G) as [Hncg Hipg]. destruct (go_size g G) as [Hsize _].
  pose proof (go_fpg g G) as (Hfpg & _).
  assert (Hrefuse : alloc_refusal bread_error u_uid u n -> exists u' ip' res,
    nospace u ip = Ok (u', ip', res) /\ ufs_ok u' /\
    ((exists b, res = Allocated b /\ ip' = charge ip (btodb (frag_bytes g n)) /\
        0 < b < fs_ncg g * fs_fpg g /\ b mod fs_frag g + n <= fs_frag g /\ frags_taken u u' b n) \/
     (res = Failed ENOSPC /\ ip' = ip /\ frags_same u u' /\ alloc_refusal bread_error u_uid u n))).
  { intros Hw. exists u, ip, (Failed ENOSPC). split; [done|]. split; [done|]. right. by split_and!. }
  unfold alloc. fold g. rewrite E32, fragoff_frags by done.
  destruct (Z.ltb_spec (fs_bsize g) (frag_bytes g n)); [lia|]. cbn [orb nz negb Z.eqb].
  destruct ((frag_bytes g n =? fs_bsize g) && (cs_nbfree (fs_cstotal (u_fs u)) =? 0)) eqn:E1.
  { apply Hrefuse. right. intros c Hc. destruct (ufs_group u c U Hc) as (cgp & Hcg & K & _).
    fold g in K. exists cgp. split; [done|]. right. bsimp. unfold frag_bytes in *.
    assert (n = fs_frag g) as -> by (apply Z.eqb_eq; rewrite <- (size_eqb g G); lia).
    apply (no_room_intro g c cgp _ G K); [lia| |intros; lia]. by apply (cstotal_full u U) in Hcg. }
  destruct (negb (u_uid =? 0) && (freespace (u_fs u) (fs_minfree g) <=? 0)) eqn:E2.
  { unfold nz. rewrite E2. apply Hrefuse. left. fold g. bsimp. done. }
  unfold nz at 1. rewrite E2.
  set (pref := if fs_size g <=? bpref then 0 else bpref).
  assert (Hpref : 0 <= pref /\ (pref <> 0 -> pref < fs_size g)).
  { unfold pref. destruct (Z.leb_spec (fs_size g) bpref); lia. }
  set (c := if pref =? 0 then itog g (i_number ip) else dtog g pref).
  assert (Hc : 0 <= c < fs_ncg g).
  { unfold c. destruct (Z.eqb_spec pref 0) as [|Hne].
    - unfold itog. rewrite Z.quot_div_nonneg by lia.
      split; [apply Z.div_pos; lia|apply Z.div_lt_upper_bound; nia].
    - unfold dtog. rewrite Z.quot_div_nonneg by lia.
      split; [apply Z.div_pos; lia|apply Z.div_lt_upper_bound; nia]. }
  pose proof (alloccg_group_allocator bread_error time_sec g n R Hn) as GA.
  destruct (hashalloc_spec u c pref (conj U eq_refl) Hc (proj1 Hpref))
    as (u' & b & -> & [U' Eg'] & Hres). cbn [obind].
  destruct Hres as [(-> & Hs & He)|(Hb0 & c0 & Hc0 & Hb1 & Ec0 & Hbm & Ht)].
  - simpl. eexists _, _, _. split; [done|]. split; [done|]. right. split_and!; try done.
    right. fold g. intros x Hx. specialize (He x Hx).
    destruct He as (cgp' & Hcg' & Hw). destruct Hs as [_ Hs]. specialize (Hs (Z.to_nat x)).
    rewrite Hcg' in Hs. destruct (u_cgs u !! Z.to_nat x) as [cgp|] eqn:E; [|done].
    simpl in Hs. injection Hs as Em Ef. exists cgp. split; [done|].
    unfold cg_bad in *. by rewrite <- Em, <- Ef.
  - destruct (Z.leb_spec b 0); [lia|]. eexists _, _, _. split; [done|]. split; [done|]. left.
    exists b. split_and!; try done. rewrite <- Ec0 in Hc0.
    pose proof (Z.div_mod b (fs_fpg g) ltac:(lia)). pose proof (Z.mod_pos_bound b (fs_fpg g) ltac:(lia)).
    nia.
Qed.

(** The inode of the sample's root directory asks for two fragments. *)
Definition sample_ip : inode := Inode 2 0x41ed 512 2 0.

Lemma alloc_correct_witness :
  exists u' ip' res,
    alloc (fun _ => false) 7 100 sample_ufs sample_ip 0 (frag_bytes sample_geom 2) = Ok (u', ip', res) /\
    ufs_ok u' /\
    ((exists b, res = Allocated b /\ ip' = charge sample_ip (btodb (frag_bytes sample_geom 2)) /\
        0 < b < fs_ncg sample_geom * fs_fpg sample_geom /\
        b mod fs_frag sample_geom + 2 <= fs_frag sample_geom /\ frags_taken sample_ufs u' b 2) \/
     (res = Failed ENOSPC /\ ip' = sample_ip /\ frags_same sample_ufs u' /\
        alloc_refusal (fun _ => false) 100 sample_ufs 2)).
Proof.
  apply (alloc_correct (fun _ => false) 7 100 sample_ufs sample_ip 0 2).
  - exact sample_ok.
  - exact sample_rot_ok.
  - simpl. lia.
  - lia.
  - simpl. lia.
Defined.

(** On the sample it takes the two fragments after the three that are in use. *)
Example alloc_sample :
  (let* r := alloc (fun _ => false) 7 100 sample_ufs sample_ip 0 (frag_bytes sample_geom 2) in
   Ok (r.2, cg_free <$> u_cgs r.1.1)) = Ok (Allocated 5, [[0x80; 0x0F]; [0xFF; 0xFF]]).
Proof. vm_compute. reflexivity. Qed.
