(* ===== verification/UfsExtend.v ===== *)
(** * [fragextend]: growing fragments in place

    [realloccg] first asks whether the fragments after the ones it has are
    free.  The theorem says exactly when they are taken. *)
From S2P Require Import Prelude Fragmap UfsAlloc UfsInv UfsOps UfsSample UfsProofs.
#[local] Set Default Proof Using "All".

Definition pop_p (frag v : Z) : bool :=
  forall_range 0 frag (fun p => forall_range 1 (frag - p) (fun n =>
    if forall_range p n (Z.testbit v) then n <=? popcount frag v else true)).

Lemma pop_checked : check_vals pop_p = true.
Proof. vm_compute. reflexivity. Qed.

Lemma forall_range_intro lo n p : (forall i, lo <= i < lo + n -> p i = true) ->
  forall_range lo n p = true.
Proof.
  intros H. apply forallb_forall. intros i Hi%list_elem_of_In%elem_of_zrange. by apply H.
Qed.

Lemma pop_lower frag v p n : frag_ok frag -> 0 <= v < 2 ^ frag -> 0 <= p -> 1 <= n -> p + n <= frag ->
  (forall i, p <= i < p + n -> Z.testbit v i = true) -> n <= popcount frag v.
Proof.
  intros F Hv Hp Hn Hpn Hb. pose proof (check_vals_elim _ frag v pop_checked F Hv) as H.
  unfold pop_p in H. apply (forall_range_elim _ _ _ p) in H; [|lia].
  apply (forall_range_elim _ _ _ n) in H; [|lia].
  cbv beta in H. rewrite forall_range_intro in H by done. by apply Z.leb_le.
Qed.

Section Scans.
Context (frag : Z) (F : frag_ok frag) (map : list Z) (h : Z).
Context (Hm : map_ok map) (Hin : blk_in frag map h).
Let v := blkval frag map h.

Lemma all_free_spec n p : 0 <= p -> p + Z.of_nat n <= frag ->
  exists r, all_free n map (h * frag + p) = Ok r /\
    (r = true <-> forall i, p <= i < p + Z.of_nat n -> Z.testbit v i = true).
Proof.
  revert p. induction n as [|n IH]; intros p Hp Hn; cbn [all_free].
  { exists true. split; [done|]. split; [intros; lia|done]. }
  destruct (bit_ops_at frag F map h p Hm Hin ltac:(lia)) as (_ & -> & _). cbn [obind]. fold v.
  destruct (Z.testbit v p) eqn:E; simpl.
  - rewrite <- Z.add_assoc. destruct (IH (p + 1)) as (r & -> & Hr); [lia|lia|]. exists r.
    split; [done|]. rewrite Hr. split; intros H i Hi.
    + destruct (Z.eq_dec i p) as [->|]; [done|]. apply H. lia.
    + apply H. lia.
  - exists false. split; [done|]. split; [done|]. intros H. rewrite H in E by lia. done.
Qed.

Lemma run_end_spec n off i : 0 <= off -> 0 <= i -> off + i + Z.of_nat n <= frag ->
  exists j, run_end n map (h * frag + off) i = Ok j /\ i <= j <= i + Z.of_nat n /\
    (forall x, off + i <= x < off + j -> Z.testbit v x = true) /\
    (j < i + Z.of_nat n -> Z.testbit v (off + j) = false).
Proof.
  revert i. induction n as [|n IH]; intros i Ho Hi Hn; cbn [run_end].
  { exists i. split; [done|]. split; [lia|]. split; intros; lia. }
  rewrite <- Z.add_assoc.
  destruct (bit_ops_at frag F map h (off + i) Hm Hin ltac:(lia)) as (_ & -> & _). cbn [obind]. fold v.
  destruct (Z.testbit v (off + i)) eqn:E; simpl.
  - destruct (IH (i + 1)) as (j & -> & Hj & Hs & He); [lia|lia|lia|]. exists j. split; [done|].
    split; [lia|]. split; [|intros; apply He; lia].
    intros x Hx. destruct (Z.eq_dec x (off + i)) as [->|]; [done|]. apply Hs. lia.
  - exists i. split; [done|]. split; [lia|]. split; [intros; lia|done].
Qed.
End Scans.

(** The fragments [b .. b + n - 1], all of one block, are free. *)
Definition frags_are_free (u : ufs) (b n : Z) : Prop :=
  forall i, b <= i < b + n -> fsb_free u i = true.

Definition extend_result (u : ufs) (b old new : Z) (bad : Prop) (r : outcome (ufs * Z)) : Prop :=
  let g := fs_geom (u_fs u) in
  exists u' x, r = Ok (u', x) /\ ufs_ok u' /\ fs_geom (u_fs u') = g /\
    ((x = b /\ frags_taken u u' (b + old) (new - old)) \/
     (x = 0 /\ frags_same u u' /\
        (bad \/ fs_frag g < b mod fs_frag g + new \/ ~ frags_are_free u (b + old) (new - old)))).

Section Extend.
Context (time_sec : Z).
Context (u : ufs) (c : Z) (cgp : cg) (U : ufs_ok u) (Hc : 0 <= c)
  (Hcg : u_cgs u !! Z.to_nat c = Some cgp).
Let g := fs_geom (u_fs u).
Let G : geom_ok g := uo_geom u U.
Let cgt := set_time cgp time_sec.
Context (h off old new : Z) (Hh : 0 <= h < nblk g) (Ho : 0 <= off) (Hof : 1 <= old < new)
  (Hoff : off + old <= fs_frag g) (Hnf : new <= fs_frag g).
Let b := c * fs_fpg g + (h * fs_frag g + off).
Let v := blkval (fs_frag g) (cg_free cgp) h.
Context (Huse : forall i, off <= i < off + old -> Z.testbit v i = false).

Lemma extend_group : cg_ok g c cgp.
Proof. pose proof (uo_cgs u U _ _ Hcg) as K. by rewrite Z2Nat.id in K by lia. Qed.

Lemma frags_are_free_bits : off + new <= fs_frag g ->
  (frags_are_free u (b + old) (new - old) <->
   forall i, off + old <= i < off + new -> Z.testbit v i = true).
Proof.
  intros Hfit. unfold frags_are_free, b. split; intros H i Hi.
  - unfold v. rewrite <- (fsb_free_at g u c h i cgp) by (done || lia). apply H. lia.
  - replace i with (c * fs_fpg g + (h * fs_frag g + (i - c * fs_fpg g - h * fs_frag g))) by lia.
    rewrite (fsb_free_at g u c h _ cgp) by (done || lia). apply H. lia.
Qed.

(** Too few free fragments in the whole group: those wanted are not free. *)
Lemma few_fragments : cs_nffree (cg_cs cgp) < new - old -> off + new <= fs_frag g ->
  ~ frags_are_free u (b + old) (new - old).
Proof.
  intros Hlt Hfit Hfree. rewrite frags_are_free_bits in Hfree by done.
  pose proof (go_frag g G) as F. pose proof (blkval_bound (fs_frag g) (cg_free cgp) h F) as Hv.
  assert (Hpop : new - old <= popcount (fs_frag g) v)
    by (apply (pop_lower _ _ (off + old)); [done|done|lia..|intros; apply Hfree; lia]).
  assert (Hne : v <> blk_full (fs_frag g)).
  { intros E. destruct (full_bits (fs_frag g) F) as (Hset & _). pose proof (Huse off ltac:(lia)) as Hu.
    rewrite E, Hset in Hu by lia. done. }
  destruct (b_full_of _ _ Hne) as [_ B2]. rewrite (ck_nffree _ _ _ extend_group) in Hlt.
  unfold free_frags_of in Hlt.
  pose proof (blk_sum_le (fs_frag g) (nblk g) (fun _ v => b_frags (fs_frag g) v) (cg_free cgp) h) as Hle.
  cbv beta in Hle. fold v in Hle. rewrite B2 in Hle. specialize (Hle ltac:(intros; unfold b_frags;
    destruct (_ =? _); [lia|apply popcount_nonneg]) Hh). lia.
Qed.

(** The fragments are there: they are taken. *)
Lemma extend_take u1 bad :
  ufs_ok u1 -> frags_same u u1 -> u_cgs u1 !! Z.to_nat c = Some cgt ->
  off + new <= fs_frag g -> u_fs u1 = u_fs u ->
  (forall i, off + old <= i < off + new -> Z.testbit v i = true) ->
  let bno := h * fs_frag g + off in
  extend_result u b old new bad
    (let* i := run_end (Z.to_nat (fs_frag g - off - new)) (cg_free cgt) bno new in
     let* frsum := aupd (cg_frsum cgt) (i - old) (fun n => n - 1) in
     let* frsum := if i =? new then Ok frsum
                   else aupd frsum (i - new) (fun n => n + 1) in
     let n := Z.max 0 (new - old) in
     let* free := bits_loop clrbit (Z.to_nat n) (cg_free cgt) (bno + old) in
     let cgp := set_cs (set_free (set_frsum cgt frsum) free) (cs_adj 0 0 0 (- n) (cg_cs cgt)) in
     let* f := fs_adj (u_fs u) c 0 0 0 (- n) in
     let* u := put_cg u1 (fs_touch f) c cgp in
     Ok (u, b)).
Proof.
  intros U1 Hs1 Hcg1 Hfit Ef Hset bno. pose proof extend_group as K0.
  pose proof (cg_ok_time g c cgp time_sec K0) as K. pose proof (go_frag g G) as F.
  assert (Hin : blk_in (fs_frag g) (cg_free cgt) h)
    by (apply blk_in_group; [exact G|apply (ck_len _ _ _ K)|done]).
  destruct (run_end_spec (fs_frag g) F (cg_free cgt) h (ck_map _ _ _ K) Hin
    (Z.to_nat (fs_frag g - off - new)) off new) as (j & Ej & Hj & Hrun & Hend); [lia|lia|lia|].
  change (blkval (fs_frag g) (cg_free cgt) h) with v in Hrun, Hend.
  unfold bno. rewrite Ej. cbn [obind]. destruct (ck_frsum _ _ _ K) as [Lf _].
  destruct (frsum_take (cg_frsum cgt) (j - old) (new - old) (j =? new) Lf) as (fr & Efr & Lfr & Hfr);
    [lia|pose proof (frag_pos g G); lia|destruct (Z.eqb_spec j new), (Z.eqb_spec (new - old) (j - old)); lia|].
  replace (j - old - (new - old)) with (j - new) in Efr by lia.
  destruct (aupd (cg_frsum cgt) (j - old) _) as [l1| |]; [|done..]. cbn [obind] in Efr |- *.
  rewrite Efr. cbn [obind]. rewrite Z.max_r by lia. rewrite <- Z.add_assoc.
  destruct (bits_loop_clr (fs_frag g) F (Z.to_nat (new - old)) (cg_free cgt) h (off + old)
    (ck_map _ _ _ K) Hin) as (m & -> & Hm); [lia|lia|]. cbn [obind]. rewrite Z2Nat.id in Hm by lia.
  assert (Hcs : fs_csp (u_fs u) !! Z.to_nat c = Some (cg_cs cgp))
    by (by rewrite (uo_csp u U), list_lookup_fmap, Hcg).
  destruct (fs_adj_spec (u_fs u) c 0 0 0 (- (new - old)) _ Hc Hcs) as (f1 & -> & MF). cbn [obind].
  assert (Hr : has_run_at (fs_frag g) (cg_free cgt) h (j - old) (off + old)).
  { unfold has_run_at, run_at. change (blkval (fs_frag g) (cg_free cgt) h) with v.
    rewrite forall_range_intro; [|intros i Hi; destruct (Z.lt_ge_cases i (off + new)); [apply Hset|apply Hrun]; lia].
    rewrite (Huse (off + old - 1)) by lia. simpl. rewrite orb_true_r, andb_true_r.
    destruct (Z.eqb_spec (off + old + (j - old)) (fs_frag g)); [lia|].
    replace (off + old + (j - old)) with (off + j) by lia. rewrite Hend by lia. simpl. lia. }
  rewrite <- Ef in MF. apply fs_moved_touch in MF.
  assert (Eg1 : fs_geom (u_fs u1) = g) by (by rewrite Ef).
  pose proof (alloc_finish u1 c cgt U1 Hc Hcg1 bad (fs_touch f1)
    (set_cs (set_free (set_frsum cgt fr) m) (cs_adj 0 0 0 (- (new - old)) (cg_cs cgt)))
    h (off + old) (new - old) 0 0 0 (- (new - old))) as Hfin. rewrite Eg1 in Hfin.
  destruct Hfin as (u2 & x & E2 & U2 & Eg2 & Hres); try done; try lia.
  - eapply cg_ok_moved; [|exact K].
    apply (cg_moved_take g c cgt _ h (j - old) (off + old)); try done; try lia. apply (ck_frotor _ _ _ K).
  - intros i Hi. apply Hset. lia.
  - destruct (put_cg u1 _ c _) as [u3| |] eqn:Eput; [|done..]. cbn [obind] in E2 |- *.
    injection E2 as -> <-. exists u2, b. split; [done|]. split; [done|].
    split; [by rewrite Eg2|]. left. split; [done|]. fold g. rewrite Eg1 in Hres.
    assert (Hpos : 0 <= c * fs_fpg g + (h * fs_frag g + (off + old)))
      by (pose proof (go_fpg g G); pose proof (frag_pos g G); nia).
    destruct Hres as [(E0 & _)|(_ & _ & _ & Ht)]; [exfalso; pose proof (go_fpg g G); pose proof (frag_pos g G); nia|].
    unfold b. rewrite <- !Z.add_assoc. by apply (frags_taken_keep u u1).
Qed.
End Extend.

Lemma crosses_block frag off n : 1 <= frag -> 0 <= off < frag -> 1 <= n <= frag ->
  ((off + n - 1) mod frag <? off) = (frag <? off + n).
Proof.
  intros. destruct (Z.ltb_spec frag (off + n)).
  - replace (off + n - 1) with (off + n - 1 - frag + 1 * frag) by lia.
    rewrite Z.mod_add, Z.mod_small by lia. lia.
  - rewrite Z.mod_small by lia. lia.
Qed.

Lemma group_same_time u c cgp t : ufs_ok u -> 0 <= c -> u_cgs u !! Z.to_nat c = Some cgp ->
  exists u1, put_cg u (u_fs u) c (set_time cgp t) = Ok u1 /\ ufs_ok u1 /\ u_fs u1 = u_fs u /\
    frags_same u u1 /\ u_cgs u1 !! Z.to_nat c = Some (set_time cgp t).
Proof.
  intros U Hc Hcg. pose proof (lookup_lt_Some _ _ _ Hcg).
  assert (K : cg_ok (fs_geom (u_fs u)) c cgp)
    by (pose proof (uo_cgs u U _ _ Hcg) as K; by rewrite Z2Nat.id in K by lia).
  destruct (alloc_none u c cgp U Hc Hcg (u_fs u) (set_time cgp t) 0 True) as (u1 & x & E & U1 & _ & Hr);
    [by apply cg_ok_time|done..|].
  unfold put_cg in *. rewrite aset_ok in E |- * by lia. cbn [obind] in E |- *. injection E as <- <-.
  destruct Hr as [(_ & Hs & _)|(Hb & _)]; [|lia]. eexists. split; [done|]. split; [done|].
  split; [done|]. split; [done|]. cbn [u_cgs]. by apply list_lookup_insert_eq.
Qed.

(** C7: [fragextend] on a consistent file system: asked to grow [old] fragments
    in use at [b] to [new] fragments, it never panics and keeps every count
    right.  It returns [b] and takes exactly the fragments that follow; or it
    returns 0, takes nothing, and then the group cannot be read, the result
    would cross into the next block, or one of the fragments is in use. *)
Theorem fragextend_correct bread_error time_sec u b old new cgp :
  let g := fs_geom (u_fs u) in let c := b / fs_fpg g in
  ufs_ok u -> 0 <= b -> u_cgs u !! Z.to_nat c = Some cgp ->
  1 <= old < new -> new <= fs_frag g -> b mod fs_frag g + old <= fs_frag g ->
  (forall i, b <= i < b + old -> fsb_free u i = false) ->
  extend_result u b old new (cg_bad bread_error c cgp = true)
    (fragextend bread_error time_sec u c b (frag_bytes g old) (frag_bytes g new)).
Proof.
  intros g c U Hb Hcg Hold Hnew Hfit Huse. pose proof (uo_geom u U : geom_ok g) as G.
  pose proof (frag_pos g G) as Hfp.
  destruct (address_split g b old G Hb ltac:(lia) Hfit) as (h & off & Hh & Ho & Hoff & Em & Eb & Hc).
  fold c in Eb, Hc.
  assert (Hbits : forall i, off <= i < off + old ->
            Z.testbit (blkval (fs_frag g) (cg_free cgp) h) i = false).
  { intros i Hi. rewrite <- (fsb_free_at g u c h i cgp) by (done || lia). apply Huse. lia. }
  assert (Hcs : fs_csp (u_fs u) !! Z.to_nat c = Some (cg_cs cgp))
    by (by rewrite (uo_csp u U), list_lookup_fmap, Hcg).
  assert (Hsame : forall bad : Prop, bad \/ fs_frag g < off + new \/ ~ frags_are_free u (b + old) (new - old) ->
            extend_result u b old new bad (Ok (u, 0))).
  { intros bad Hw. exists u, 0. split; [done|]. split; [done|]. split; [done|]. right. fold g.
    rewrite Em. by split_and!. }
  unfold fragextend. fold g. rewrite (aget_ok _ c _ Hc Hcs). cbn [obind].
  replace (frag_bytes g new - frag_bytes g old) with (frag_bytes g (new - old)) by (unfold frag_bytes; ring).
  unfold frag_bytes. rewrite !(numfrags_spec g G), (fragnum_spec g G), (fragnum_spec g G b), Em.
  assert (Ecross : ((b + new - 1) mod fs_frag g <? off) = (fs_frag g <? off + new)).
  { rewrite <- (crosses_block (fs_frag g) off new) by lia. f_equal. rewrite <- Em.
    rewrite <- !Z.add_sub_assoc, Zplus_mod_idemp_l. done. }
  rewrite Ecross.
  destruct (Z.ltb_spec (cs_nffree (cg_cs cgp)) (new - old)) as [Hfew|_].
  { apply Hsame. destruct (Z.lt_ge_cases (fs_frag g) (off + new)); [by right; left|right; right].
    rewrite Eb. apply (few_fragments time_sec u c cgp U Hc Hcg h off old new); done. }
  destruct (Z.ltb_spec (fs_frag g) (off + new)) as [|Hfit2]; [apply Hsame; by right; left|].
  rewrite (aget_ok _ c _ Hc Hcg). cbn [obind].
  destruct (cg_bad bread_error c cgp) eqn:Ebad; [apply Hsame; by left|].
  destruct (group_same_time u c cgp time_sec U Hc Hcg) as (u1 & -> & U1 & Ef & Hs1 & Hcg1). cbn [obind].
  assert (Ed : dtogd g b = h * fs_frag g + off).
  { pose proof (go_fpg g G) as (? & _). pose proof (fpg_eq g G).
    assert (0 <= h * fs_frag g + off < fs_fpg g) by nia. unfold dtogd. rewrite Eb.
    rewrite Z.rem_mod_nonneg by nia. by rewrite Z.add_comm, Z.mod_add, Z.mod_small by lia. }
  rewrite Ed. cbv zeta.
  assert (K : cg_ok g c cgp) by (pose proof (uo_cgs u U _ _ Hcg) as K; by rewrite Z2Nat.id in K by lia).
  assert (Hin : blk_in (fs_frag g) (cg_free cgp) h)
    by (apply blk_in_group; [exact G|apply (ck_len _ _ _ K)|done]).
  destruct (all_free_spec (fs_frag g) (go_frag g G) (cg_free cgp) h (ck_map _ _ _ K) Hin
    (Z.to_nat (new - old)) (off + old)) as (r & Er & Hr); [lia|lia|].
  rewrite Z.add_assoc in Er. change (cg_free (set_time cgp time_sec)) with (cg_free cgp) at 1.
  rewrite Er. cbn [obind]. rewrite Z2Nat.id in Hr by lia.
  replace (off + old + (new - old)) with (off + new) in Hr by lia.
  pose proof (frags_are_free_bits time_sec u c cgp U Hc Hcg h off old new Hh Ho Hold Hoff Hnew Hbits Hfit2) as Hbf.
  fold g in Hbf. rewrite <- Eb, <- Hr in Hbf. destruct r; cbn [negb].
  - clearbody c. subst b.
    apply (extend_take time_sec u c cgp U Hc Hcg h off old new); try done. by apply Hr.
  - exists u1, 0. split; [done|]. split; [done|]. split; [by rewrite Ef|]. right.
    split; [done|]. split; [done|]. right. right. rewrite Hbf. done.
Qed.

Lemma fragextend_correct_witness :
  extend_result sample_ufs 4 1 3 (cg_bad (fun _ => false) 0 sample_cg0 = true)
    (fragextend (fun _ => false) 7 sample_ufs 0 4 (frag_bytes sample_geom 1) (frag_bytes sample_geom 3)).
Proof.
  apply (fragextend_correct (fun _ => false) 7 sample_ufs 4 1 3 sample_cg0).
  - exact sample_ok.
  - lia.
  - reflexivity.
  - lia.
  - simpl. lia.
  - vm_compute. discriminate.
  - intros i Hi. replace i with 4 by lia. reflexivity.
Defined.
