(* ===== verification/Mbuf.v ===== *)
(** * Mbuf chains and socket buffers: [sys/sys/uipc_mbuf.c], [sys/sys/uipc_socket2.c]

    An mbuf holds the bytes from [mtod(m)] on, [m_len] of them; where they lie
    ([m_loc]) is inside the mbuf at an offset, or in a cluster.  A chain is the
    list of its mbufs, a socket buffer the list of its records.  Whether an
    allocation succeeds is a parameter, [mget_ok], of the number of the attempt.
    The theorems say that every routine treats a chain as the string of its
    bytes, and that the counts of a socket buffer stay the ones of its chains. *)
From S2P Require Import Prelude.

(** ** Data: [sys/h/mbuf.h], [sys/h/socketvar.h] *)

Definition MSIZE : Z := 128.
Definition MMINOFF : Z := 12.
Definition MTAIL : Z := 4.
Definition MMAXOFF : Z := MSIZE - MTAIL.
Definition MLEN : Z := MSIZE - MMINOFF - MTAIL.
Definition CLBYTES : Z := 1024.
Definition M_COPYALL : Z := 1000000000.
Definition MPULL_EXTRA : Z := 32.
Definition MT_DATA : Z := 1.
Definition SB_MAX : Z := 65535.
Definition SB_LOCK : Z := 0x01.
Definition SB_WAIT : Z := 0x04.
Definition SB_COLL : Z := 0x10.

(** [m_off] at most [MMAXOFF], or past the mbuf in a cluster of a type. *)
Inductive mloc := Internal (off : Z) | Cluster (cltype : Z).

Record mbuf := Mbuf { m_loc : mloc; m_type : Z; m_dat : list Z }.

Definition zlen {A} (l : list A) : Z := Z.of_nat (length l).
Definition m_len (m : mbuf) : Z := zlen (m_dat m).
Definition m_ext (m : mbuf) : bool := match m_loc m with Cluster _ => true | _ => false end.

(** [m_len -= n; m_off += n], and [m_len = n]. *)
Definition m_advance (m : mbuf) (n : Z) : mbuf :=
  Mbuf (match m_loc m with Internal off => Internal (off + n) | l => l end) (m_type m)
    (drop (Z.to_nat n) (m_dat m)).
Definition m_setlen (m : mbuf) (n : Z) : mbuf :=
  Mbuf (m_loc m) (m_type m) (take (Z.to_nat n) (m_dat m)).

Definition chain := list mbuf.

(** The bytes of a chain. *)
Definition chain_data (c : chain) : list Z := c ≫= m_dat.
Definition chain_len (c : chain) : Z := zlen (chain_data c).

(** ** [m_adj] *)

Fixpoint m_adj_front (c : chain) (len : Z) : chain :=
  match c with
  | [] => []
  | m :: c' =>
      if 0 <? len then
        if m_len m <=? len then m_setlen m 0 :: m_adj_front c' (len - m_len m)
        else m_advance m len :: c'
      else c
  end.

(** The second scan of the tail trim: [count] bytes stay.  A negative count
    would leave an mbuf of negative length. *)
Fixpoint m_adj_back (c : chain) (count : Z) : outcome chain :=
  match c with
  | [] => Ok []
  | m :: c' =>
      if count <=? m_len m then
        if count <? 0 then Fault
        else Ok (m_setlen m count :: ((fun m => m_setlen m 0) <$> c'))
      else let* c' := m_adj_back c' (count - m_len m) in Ok (m :: c')
  end.

Definition m_adj (c : chain) (len : Z) : outcome chain :=
  match last c with
  | None => Ok c
  | Some m =>
      if 0 <=? len then Ok (m_adj_front c len)
      else
        let len := - len in
        let count := chain_len c in
        if len <=? m_len m
        then Ok (take (length c - 1) c ++ [m_setlen m (m_len m - len)])
        else m_adj_back c (count - len)
  end.

(** ** [m_cat] *)

(** [m] is the last mbuf of the first chain. *)
Fixpoint m_cat_loop (m : mbuf) (n : chain) : chain :=
  match n with
  | [] => [m]
  | x :: n' =>
      match m_loc m with
      | Cluster _ => m :: n
      | Internal off =>
          if (MMAXOFF <=? off) || (MMAXOFF <? off + m_len m + m_len x) then m :: n
          else m_cat_loop (Mbuf (m_loc m) (m_type m) (m_dat m ++ m_dat x)) n'
      end
  end.

Definition m_cat (m n : chain) : outcome chain :=
  match last m with
  | None => Fault
  | Some x => Ok (take (length m - 1) m ++ m_cat_loop x n)
  end.

(** ** [m_cpytoc]: the bytes copied, and the count not transferred *)

Fixpoint m_cpytoc_skip (c : chain) (off : Z) : chain * Z :=
  match c with
  | [] => ([], off)
  | m :: c' =>
      if off =? 0 then (c, off)
      else if m_len m <=? off then m_cpytoc_skip c' (off - m_len m) else (c, off)
  end.

Fixpoint m_cpytoc_loop (c : chain) (len : Z) : list Z * Z :=
  match c with
  | [] => ([], len)
  | m :: c' =>
      if len =? 0 then ([], len)
      else let '(bs, len) := m_cpytoc_loop c' (len - m_len m) in (m_dat m ++ bs, len)
  end.

Definition m_cpytoc (c : chain) (off len : Z) : outcome (list Z * Z) :=
  match c with
  | [] => Panic "m_cpytoc"
  | _ =>
      if (off <? 0) || (len <? 0) then Panic "m_cpytoc" else
      let '(c, off) := m_cpytoc_skip c off in
      match c with
      | [] => Ok ([], len)
      | m :: c' =>
          let ml := Z.min len (m_len m - off) in
          let '(bs, len) := m_cpytoc_loop c' (len - ml) in
          Ok (take (Z.to_nat ml) (drop (Z.to_nat off) (m_dat m)) ++ bs, len)
      end
  end.

Section Alloc.
Context (mget_ok : nat -> bool).

Definition MGET (k : nat) (type : Z) : nat * option mbuf :=
  (S k, if mget_ok k then Some (Mbuf (Internal MMINOFF) type []) else None).

(** ** [m_copy] *)

Fixpoint m_copy_skip (c : chain) (off : Z) : outcome (chain * Z) :=
  if 0 <? off then
    match c with
    | [] => Panic "m_copy"
    | m :: c' => if off <? m_len m then Ok (c, off) else m_copy_skip c' (off - m_len m)
    end
  else Ok (c, off).

(** [mcldup]: where the duplicate's data lies. *)
Definition mcldup (m : mbuf) : outcome mloc :=
  match m_loc m with
  | Cluster 1 => Ok (Cluster 1)
  | Cluster 2 => Ok (Cluster 2)
  | _ => Panic "mcldup"
  end.

Fixpoint m_copy_loop (k : nat) (c : chain) (off len : Z) (top : chain)
    : outcome (nat * option chain) :=
  if 0 <? len then
    match c with
    | [] => if len =? M_COPYALL then Ok (k, Some top) else Panic "m_copy"
    | m :: c' =>
        match MGET k (m_type m) with
        | (k, None) => Ok (k, None)
        | (k, Some n) =>
            let n_len := Z.min len (m_len m - off) in
            let* loc := if m_ext m && (MLEN <? n_len) then mcldup m else Ok (m_loc n) in
            let n := Mbuf loc (m_type m) (take (Z.to_nat n_len) (drop (Z.to_nat off) (m_dat m))) in
            let len := if len =? M_COPYALL then len else len - n_len in
            m_copy_loop k c' 0 len (top ++ [n])
        end
    end
  else Ok (k, Some top).

Definition m_copy (k : nat) (c : chain) (off len : Z) : outcome (nat * option chain) :=
  if len =? 0 then Ok (k, None)
  else if (off <? 0) || (len <? 0) then Panic "m_copy"
  else let* r := m_copy_skip c off in m_copy_loop k r.1 r.2 len [].

(** ** [m_pullup] *)

(** The [do] loop: [m] is being filled from [n], with [space - m_len] left. *)
Fixpoint m_pullup_loop (n : chain) (m : mbuf) (space len : Z) : outcome (option chain) :=
  match n with
  | [] => Fault
  | x :: n' =>
      let count := Z.min (Z.min (space - m_len m) (len + MPULL_EXTRA)) (m_len x) in
      if count <? 0 then Fault else
      let len := len - count in
      let m := Mbuf (m_loc m) (m_type m) (m_dat m ++ take (Z.to_nat count) (m_dat x)) in
      let x := m_advance x count in
      if nz (m_len x) then
        (* going on with [x] would loop for ever: there is no space left *)
        if 0 <? len then Fault else Ok (Some (m :: x :: n'))
      else if 0 <? len then
        if bool_decide (n' = []) then Ok None else m_pullup_loop n' m space len
      else Ok (Some (m :: n'))
  end.

Definition m_pullup (k : nat) (c : chain) (len : Z) : outcome (nat * option chain) :=
  match c with
  | [] => Fault
  | x :: n =>
      let fit := match m_loc x with
                 | Internal off => if off + len <=? MMAXOFF then Some off else None
                 | Cluster _ => None
                 end in
      match fit, n with
      | Some off, _ :: _ =>
          let* r := m_pullup_loop n x (MMAXOFF - off) (len - m_len x) in Ok (k, r)
      | _, _ =>
          if MLEN <? len then Ok (k, None)
          else
            match MGET k (m_type x) with
            | (k, None) => Ok (k, None)
            | (k, Some m) =>
                let* r := m_pullup_loop c m (MMAXOFF - MMINOFF) len in Ok (k, r)
            end
      end
  end.
End Alloc.

(** ** Socket buffers *)

(** The records of the queue are the chains linked by [m_act];
    [sb_sel] tells whether a process selects on the buffer. *)
Record sockbuf := Sockbuf {
  sb_cc : Z; sb_hiwat : Z; sb_mbcnt : Z; sb_mbmax : Z; sb_mb : list chain; sb_flags : Z;
  sb_sel : bool
}.

Definition sbspace (sb : sockbuf) : Z :=
  Z.min (s32 (sb_hiwat sb - sb_cc sb)) (s32 (sb_mbmax sb - sb_mbcnt sb)).

(** What an mbuf costs: [MSIZE], and [CLBYTES] when it has a cluster. *)
Definition m_cost (m : mbuf) : Z := MSIZE + (if m_ext m then CLBYTES else 0).

Definition sballoc (sb : sockbuf) (m : mbuf) : sockbuf :=
  Sockbuf (u16 (sb_cc sb + m_len m)) (sb_hiwat sb) (u16 (sb_mbcnt sb + m_cost m)) (sb_mbmax sb)
    (sb_mb sb) (sb_flags sb) (sb_sel sb).
Definition sbfree (sb : sockbuf) (m : mbuf) : sockbuf :=
  Sockbuf (u16 (sb_cc sb - m_len m)) (sb_hiwat sb) (u16 (sb_mbcnt sb - m_cost m)) (sb_mbmax sb)
    (sb_mb sb) (sb_flags sb) (sb_sel sb).
Definition set_mb (sb : sockbuf) (l : list chain) : sockbuf :=
  Sockbuf (sb_cc sb) (sb_hiwat sb) (sb_mbcnt sb) (sb_mbmax sb) l (sb_flags sb)
    (sb_sel sb).
Definition add_cc (sb : sockbuf) (n : Z) : sockbuf :=
  Sockbuf (u16 (sb_cc sb + n)) (sb_hiwat sb) (sb_mbcnt sb) (sb_mbmax sb) (sb_mb sb) (sb_flags sb) (sb_sel sb).

(** The last record, and the ones before it. *)
Definition split_last {A} (l : list A) : option (list A * A) :=
  match last l with
  | Some x => Some (take (length l - 1) l, x)
  | None => None
  end.

(** [sbcompress(sb, m, n)]: [n] is always the last mbuf of the last record, so
    the model is given the records before it ([pre]) and that record ([cur],
    empty when the buffer is). *)
Definition can_merge (n m : mbuf) : bool :=
  match m_loc n, m_loc m with
  | Internal off, Internal _ => (off + m_len n + m_len m <=? MMAXOFF) && (m_type n =? m_type m)
  | _, _ => false
  end.

Fixpoint sbcompress (sb : sockbuf) (pre : list chain) (cur : chain) (m : chain) : sockbuf :=
  match m with
  | [] => set_mb sb (pre ++ (if bool_decide (cur = []) then [] else [cur]))
  | x :: m' =>
      if m_len x =? 0 then sbcompress sb pre cur m'
      else
        match split_last cur with
        | Some (cur0, n) =>
            if can_merge n x then
              sbcompress (add_cc sb (m_len x)) pre
                (cur0 ++ [Mbuf (m_loc n) (m_type n) (m_dat n ++ m_dat x)]) m'
            else sbcompress (sballoc sb x) pre (cur ++ [x]) m'
        | None => sbcompress (sballoc sb x) pre (cur ++ [x]) m'
        end
  end.

Definition sbappend (sb : sockbuf) (m : chain) : sockbuf :=
  match m with
  | [] => sb
  | _ =>
      match split_last (sb_mb sb) with
      | Some (pre, cur) => sbcompress sb pre cur m
      | None => sbcompress sb [] [] m
      end
  end.

Definition sbappendrecord (sb : sockbuf) (m0 : chain) : sockbuf :=
  match m0 with
  | [] => sb
  | x :: m => sbcompress (sballoc sb x) (sb_mb sb) [x] m
  end.

(** The [while (len > 0)] loop of [sbdrop]: the buffer's counts, the rest of the
    record being dropped and the records after it. *)
Fixpoint sbdrop_rec (sb : sockbuf) (m : chain) (len : Z) : sockbuf * chain * Z :=
  if 0 <? len then
    match m with
    | [] => (sb, [], len)
    | x :: m' =>
        if len <? m_len x then
          (Sockbuf (u16 (sb_cc sb - len)) (sb_hiwat sb) (sb_mbcnt sb) (sb_mbmax sb) (sb_mb sb)
             (sb_flags sb) (sb_sel sb), m_advance x len :: m', 0)
        else sbdrop_rec (sbfree sb x) m' (len - m_len x)
    end
  else (sb, m, len).

Fixpoint sbdrop_loop (sb : sockbuf) (m : chain) (next : list chain) (len : Z)
    : outcome (sockbuf * chain * list chain) :=
  let '(sb, m, len) := sbdrop_rec sb m len in
  if 0 <? len then
    match next with
    | [] => Panic "sbdrop"
    | m :: next => sbdrop_loop sb m next len
    end
  else Ok (sb, m, next).

(** [while (m && m->m_len == 0)]. *)
Fixpoint sbdrop_empty (sb : sockbuf) (m : chain) : sockbuf * chain :=
  match m with
  | x :: m' => if m_len x =? 0 then sbdrop_empty (sbfree sb x) m' else (sb, m)
  | [] => (sb, [])
  end.

Definition sbdrop (sb : sockbuf) (len : Z) : outcome sockbuf :=
  let '(m, next) := match sb_mb sb with m :: next => (m, next) | [] => ([], []) end in
  let* r := sbdrop_loop sb m next len in
  let '(sb, m, next) := r in
  let '(sb, m) := sbdrop_empty sb m in
  Ok (set_mb sb (match m with [] => next | _ => m :: next end)).

(** [while (sb->sb_mbcnt) sbdrop(sb, sb->sb_cc)]; [fuel] bounds the iterations. *)
Fixpoint sbflush_loop (fuel : nat) (sb : sockbuf) : outcome sockbuf :=
  match fuel with
  | O => Fault
  | S fuel =>
      if sb_mbcnt sb =? 0 then Ok sb
      else let* sb := sbdrop sb (sb_cc sb) in sbflush_loop fuel sb
  end.

Definition sbflush (sb : sockbuf) : outcome sockbuf :=
  if nz (Z.land (sb_flags sb) SB_LOCK) then Panic "sbflush" else
  let* sb := sbflush_loop (2 + length (sb_mb sb)) sb in
  if nz (sb_cc sb) || nz (sb_mbcnt sb) || negb (bool_decide (sb_mb sb = []))
  then Panic "sbflush 2" else Ok sb.

Fixpoint sbfree_chain (sb : sockbuf) (m : chain) : sockbuf :=
  match m with [] => sb | x :: m' => sbfree_chain (sbfree sb x) m' end.

Definition sbdroprecord (sb : sockbuf) : sockbuf :=
  match sb_mb sb with
  | [] => sb
  | m :: next => sbfree_chain (set_mb sb next) m
  end.

Definition sbreserve (sb : sockbuf) (cc : Z) : option sockbuf :=
  if Z.quot (SB_MAX * CLBYTES) (2 * MSIZE + CLBYTES) <? u32 cc then None
  else Some (Sockbuf (sb_cc sb) (u16 cc) (sb_mbcnt sb) (u16 (Z.min (cc * 2) SB_MAX)) (sb_mb sb)
               (sb_flags sb) (sb_sel sb)).

Definition sbrelease (sb : sockbuf) : outcome sockbuf :=
  let* sb := sbflush sb in
  Ok (Sockbuf (sb_cc sb) 0 (sb_mbcnt sb) 0 (sb_mb sb) (sb_flags sb) (sb_sel sb)).

(** [sbwakeup], the wakeups themselves left to the scheduler. *)
Definition sbwakeup (sb : sockbuf) : sockbuf :=
  let sb := if sb_sel sb
            then Sockbuf (sb_cc sb) (sb_hiwat sb) (sb_mbcnt sb) (sb_mbmax sb) (sb_mb sb)
                   (Z.land (sb_flags sb) (Z.lnot SB_COLL)) false
            else sb in
  if nz (Z.land (sb_flags sb) SB_WAIT)
  then Sockbuf (sb_cc sb) (sb_hiwat sb) (sb_mbcnt sb) (sb_mbmax sb) (sb_mb sb)
         (Z.land (sb_flags sb) (Z.lnot SB_WAIT)) (sb_sel sb)
  else sb.

(** [m_tally]'s counts of a chain, in the 16-bit fields of a [sockbuf]. *)
Definition m_tally (m : chain) : Z * Z :=
  let sb := foldl sballoc (Sockbuf 0 0 0 0 [] 0 false) m in (sb_cc sb, sb_mbcnt sb).

(** ** Chains as strings of bytes *)

Lemma zlen_app {A} (l1 l2 : list A) : zlen (l1 ++ l2) = zlen l1 + zlen l2.
Proof. unfold zlen. rewrite length_app. lia. Qed.

Lemma zlen_nonneg {A} (l : list A) : 0 <= zlen l.
Proof. unfold zlen. lia. Qed.

Lemma zlen_take {A} (l : list A) n : 0 <= n <= zlen l -> zlen (take (Z.to_nat n) l) = n.
Proof. unfold zlen. intros. rewrite length_take. lia. Qed.

Lemma zlen_drop {A} (l : list A) n : 0 <= n <= zlen l -> zlen (drop (Z.to_nat n) l) = zlen l - n.
Proof. unfold zlen. intros. rewrite length_drop. lia. Qed.

Lemma zlen_nil_inv {A} (l : list A) : zlen l = 0 -> l = [].
Proof. destruct l; [done|]. unfold zlen. simpl. lia. Qed.

Lemma drop_app_z {A} (l1 l2 : list A) n : zlen l1 <= n ->
  drop (Z.to_nat n) (l1 ++ l2) = drop (Z.to_nat (n - zlen l1)) l2.
Proof. unfold zlen. intros. rewrite drop_app_ge by lia. f_equal. lia. Qed.

Lemma drop_app_lt_z {A} (l1 l2 : list A) n : 0 <= n <= zlen l1 ->
  drop (Z.to_nat n) (l1 ++ l2) = drop (Z.to_nat n) l1 ++ l2.
Proof. unfold zlen. intros. apply drop_app_le. lia. Qed.

Lemma take_app_z {A} (l1 l2 : list A) n : zlen l1 <= n ->
  take (Z.to_nat n) (l1 ++ l2) = l1 ++ take (Z.to_nat (n - zlen l1)) l2.
Proof. unfold zlen. intros. rewrite take_app_ge by lia. do 2 f_equal. lia. Qed.

Lemma take_app_lt_z {A} (l1 l2 : list A) n : 0 <= n <= zlen l1 ->
  take (Z.to_nat n) (l1 ++ l2) = take (Z.to_nat n) l1.
Proof. unfold zlen. intros. apply take_app_le. lia. Qed.

Lemma take_all_z {A} (l : list A) n : zlen l <= n -> take (Z.to_nat n) l = l.
Proof. unfold zlen. intros. apply take_ge. lia. Qed.

Lemma chain_data_cons m c : chain_data (m :: c) = m_dat m ++ chain_data c.
Proof. done. Qed.

Lemma chain_data_app c1 c2 : chain_data (c1 ++ c2) = chain_data c1 ++ chain_data c2.
Proof. unfold chain_data. apply bind_app. Qed.

Lemma chain_len_cons m c : chain_len (m :: c) = m_len m + chain_len c.
Proof. unfold chain_len. rewrite chain_data_cons, zlen_app. done. Qed.

Lemma m_len_nonneg m : 0 <= m_len m.
Proof. apply zlen_nonneg. Qed.

Lemma chain_len_nonneg c : 0 <= chain_len c.
Proof. apply zlen_nonneg. Qed.

Lemma split_last_app {A} (l : list A) x : split_last (l ++ [x]) = Some (l, x).
Proof.
  unfold split_last. rewrite last_snoc, length_app. simpl.
  replace (length l + 1 - 1)%nat with (length l) by lia. by rewrite take_app_length.
Qed.

Lemma split_last_Some {A} (l l' : list A) x : split_last l = Some (l', x) -> l = l' ++ [x].
Proof.
  destruct (exists_last_or_nil l) as [->|(l0 & y & ->)]; [done|].
  rewrite split_last_app. by intros [= -> ->].
Qed.

Lemma split_last_None {A} (l : list A) : split_last l = None -> l = [].
Proof.
  destruct (exists_last_or_nil l) as [->|(l0 & y & ->)]; [done|]. by rewrite split_last_app.
Qed.

Lemma chain_data_zero (c : chain) : chain_data ((fun m => m_setlen m 0) <$> c) = [].
Proof. induction c as [|m c IH]; [done|]. rewrite fmap_cons, chain_data_cons, IH. done. Qed.

(** *** [m_adj] *)

Lemma m_adj_front_spec c len :
  chain_data (m_adj_front c len) = drop (Z.to_nat len) (chain_data c) /\
  length (m_adj_front c len) = length c.
Proof.
  revert len. induction c as [|m c IH]; intros len; cbn [m_adj_front].
  { split; [|done]. symmetry. apply drop_nil. }
  destruct (Z.ltb_spec 0 len) as [Hl|Hl].
  - destruct (Z.leb_spec (m_len m) len) as [Hm|Hm].
    + destruct (IH (len - m_len m)) as [E L]. split; [|simpl; by rewrite L].
      rewrite !chain_data_cons, E. simpl. rewrite drop_app_z by done. done.
    + split; [|done]. rewrite !chain_data_cons. simpl.
      rewrite drop_app_lt_z by (unfold m_len in Hm; lia). done.
  - split; [|done]. by replace (Z.to_nat len) with O by lia.
Qed.

Lemma m_adj_back_spec c count : 0 <= count <= chain_len c ->
  exists c', m_adj_back c count = Ok c' /\
    chain_data c' = take (Z.to_nat count) (chain_data c) /\ length c' = length c.
Proof.
  revert count. induction c as [|m c IH]; intros count Hc; cbn [m_adj_back].
  { exists []. split; [done|]. split; [|done]. symmetry. apply take_nil. }
  rewrite chain_len_cons in Hc. pose proof (m_len_nonneg m).
  destruct (Z.leb_spec count (m_len m)) as [Hm|Hm].
  - destruct (Z.ltb_spec count 0); [lia|]. eexists. split; [done|]. split.
    + rewrite !chain_data_cons, chain_data_zero, app_nil_r. simpl.
      rewrite take_app_lt_z by (unfold m_len in *; lia). done.
    + simpl. by rewrite length_fmap.
  - destruct (IH (count - m_len m)) as (c' & -> & E & L); [lia|]. cbn [obind].
    exists (m :: c'). split; [done|]. split; [|simpl; by rewrite L].
    rewrite !chain_data_cons, E. rewrite take_app_z by (unfold m_len in *; lia). done.
Qed.

Lemma m_adj_spec c len : - chain_len c <= len ->
  exists c', m_adj c len = Ok c' /\ length c' = length c /\
    chain_data c' = if 0 <=? len then drop (Z.to_nat len) (chain_data c)
                    else take (Z.to_nat (chain_len c + len)) (chain_data c).
Proof.
  intros Hl. unfold m_adj. destruct (exists_last_or_nil c) as [->|(c0 & m & ->)].
  { simpl. exists []. split; [done|]. split; [done|]. destruct (0 <=? len).
    - symmetry. apply drop_nil.
    - symmetry. apply take_nil. }
  rewrite last_snoc. destruct (Z.leb_spec 0 len) as [Hp|Hp].
  { destruct (m_adj_front_spec (c0 ++ [m]) len) as [E L]. eexists. done. }
  rewrite length_app. simpl. replace (length c0 + 1 - 1)%nat with (length c0) by lia.
  rewrite take_app_length. set (k := - len) in *.
  assert (Ecl : chain_len (c0 ++ [m]) = chain_len c0 + m_len m).
  { unfold chain_len. rewrite chain_data_app, zlen_app. simpl. by rewrite app_nil_r. }
  destruct (Z.leb_spec k (m_len m)) as [Hk|Hk].
  - eexists. split; [done|]. split; [by rewrite !length_app|].
    pose proof (chain_len_nonneg c0) as H0. unfold chain_len in Ecl, H0 |- *.
    rewrite !chain_data_app. simpl. rewrite !app_nil_r. rewrite zlen_app.
    rewrite take_app_z by (unfold m_len in *; lia). f_equal. f_equal. unfold m_len in *. lia.
  - destruct (m_adj_back_spec (c0 ++ [m]) (chain_len (c0 ++ [m]) - k)) as (c' & -> & E & L).
    { unfold k in *. lia. }
    exists c'. split; [done|]. split; [by rewrite L, length_app|]. rewrite E. do 2 f_equal. unfold k. lia.
Qed.

(** *** [m_copy] *)

(** The data is inside the mbuf, or in a cluster of a type the duplicator knows. *)
Definition cl_ok (m : mbuf) : Prop :=
  match m_loc m with
  | Cluster t => t = 1 \/ t = 2
  | Internal off => MMINOFF <= off /\ off + m_len m <= MMAXOFF
  end.

Section AllocSpec.
Context (mget_ok : nat -> bool).

Lemma m_copy_skip_spec c off len : 0 <= off -> 0 < len -> off + len <= chain_len c ->
  exists c' off', m_copy_skip c off = Ok (c', off') /\ 0 <= off' /\
    drop (Z.to_nat off') (chain_data c') = drop (Z.to_nat off) (chain_data c) /\
    off' + len <= chain_len c' /\ (Forall cl_ok c -> Forall cl_ok c') /\
    (exists m c1, c' = m :: c1 /\ off' <= m_len m).
Proof.
  revert off. induction c as [|m c IH]; intros off Ho Hlen Hc; cbn [m_copy_skip].
  { unfold chain_len in Hc. simpl in Hc. change (zlen (@nil Z)) with 0 in Hc. lia. }
  pose proof (m_len_nonneg m).
  destruct (Z.ltb_spec 0 off) as [Hp|Hp].
  - destruct (Z.ltb_spec off (m_len m)) as [Hm|Hm].
    + exists (m :: c), off. split_and!; try done. exists m, c. split; [done|lia].
    + rewrite chain_len_cons in Hc. destruct (IH (off - m_len m)) as (c' & off' & -> & H1 & H2 & H3 & H4 & H5); [lia..|].
      exists c', off'. split_and!; try done.
      * rewrite H2, chain_data_cons, drop_app_z by (unfold m_len in *; lia). done.
      * intros Hf. apply H4. by apply Forall_cons in Hf as [_ Hf].
  - assert (off = 0) as -> by lia. exists (m :: c), 0. split_and!; try done. exists m, c.
    split; [done|lia].
Qed.

(** The copy of [len] bytes, or nothing when an allocation fails. *)
Lemma m_copy_loop_spec k c off len top :
  0 <= off -> 0 <= len < M_COPYALL -> off + len <= chain_len c -> Forall cl_ok c ->
  (0 < len -> exists m c1, c = m :: c1 /\ off <= m_len m) ->
  exists k' r, m_copy_loop mget_ok k c off len top = Ok (k', r) /\ (k <= k')%nat /\
    match r with
    | Some t => chain_data t = chain_data top ++ take (Z.to_nat len) (drop (Z.to_nat off) (chain_data c)) /\
                (forall j, (k <= j < k')%nat -> mget_ok j = true)
    | None => exists j, (k <= j < k')%nat /\ mget_ok j = false
    end.
Proof.
  revert k off len top. induction c as [|m c IH]; intros k off len top Ho Hl Hc Hf Hne;
    cbn [m_copy_loop].
  { destruct (Z.ltb_spec 0 len) as [Hp|Hp]; [by destruct (Hne Hp) as (? & ? & ? & _)|].
    assert (len = 0) as -> by lia. eexists _, _. split; [done|]. split; [done|]. simpl.
    rewrite app_nil_r. split; [done|]. intros; lia. }
  destruct (Z.ltb_spec 0 len) as [Hp|Hp].
  2: { assert (len = 0) as -> by lia. eexists _, _. split; [done|]. split; [done|]. simpl. rewrite app_nil_r.
       split; [done|]. intros; lia. }
  destruct (Hne Hp) as (? & ? & [= <- <-] & Hm). unfold MGET. destruct (mget_ok k) eqn:Ek.
  2: { eexists _, _. split; [done|]. split; [lia|]. exists k. split; [lia|done]. }
  apply Forall_cons in Hf as [Hcl Hf]. rewrite chain_len_cons in Hc.
  pose proof (chain_len_nonneg c). set (n := Z.min len (m_len m - off)).
  assert (Hloc : exists loc, (if m_ext m && (MLEN <? n) then mcldup m else Ok (Internal MMINOFF)) = Ok loc).
  { destruct (m_ext m) eqn:E; simpl; [|eauto]. destruct (MLEN <? n); [|eauto].
    unfold mcldup, m_ext, cl_ok in *. destruct (m_loc m); [done|]. destruct Hcl as [-> | ->]; eauto. }
  destruct Hloc as [loc Eloc]. cbn [m_loc]. rewrite Eloc. cbn [obind].
  destruct (Z.eqb_spec len M_COPYALL); [lia|].
  destruct (IH (S k) 0 (len - n) (top ++ [Mbuf loc (m_type m)
    (take (Z.to_nat n) (drop (Z.to_nat off) (m_dat m)))])) as (k' & r & -> & Hk & Hr);
    [lia|unfold n; lia|unfold n; lia|done| |].
  { intros Hp'. destruct c as [|m' c'].
    - unfold chain_len in Hc. simpl in Hc. change (zlen (@nil Z)) with 0 in Hc. unfold n in Hp'. lia.
    - exists m', c'. split; [done|]. apply m_len_nonneg. }
  exists k', r. split; [done|]. split; [lia|]. destruct r as [t|].
  - destruct Hr as [Hd Hok]. split.
    + rewrite Hd, chain_data_app, <- app_assoc. f_equal.
      rewrite !chain_data_cons, app_nil_r. cbn [m_dat]. rewrite drop_app_lt_z by (unfold m_len in *; lia).
      assert (Ez : zlen (drop (Z.to_nat off) (m_dat m)) = m_len m - off) by (apply zlen_drop; unfold m_len in *; lia).
      destruct (Z.le_gt_cases len (m_len m - off)).
      * replace n with len by (unfold n; lia). rewrite Z.sub_diag. simpl.
        rewrite app_nil_r, take_app_lt_z by lia. done.
      * replace n with (m_len m - off) by (unfold n; lia). rewrite take_app_z by lia.
        rewrite take_all_z by lia. by rewrite Ez.
    + intros j Hj. destruct (decide (j = k)) as [->|]; [done|]. apply Hok. lia.
  - destruct Hr as (j & Hj & Hb). exists j. split; [lia|done].
Qed.

Lemma m_copy_spec k c off len :
  0 <= off -> 0 < len < M_COPYALL -> off + len <= chain_len c -> Forall cl_ok c ->
  exists k' r, m_copy mget_ok k c off len = Ok (k', r) /\ (k <= k')%nat /\
    match r with
    | Some t => chain_data t = take (Z.to_nat len) (drop (Z.to_nat off) (chain_data c)) /\
                (forall j, (k <= j < k')%nat -> mget_ok j = true)
    | None => exists j, (k <= j < k')%nat /\ mget_ok j = false
    end.
Proof.
  intros Ho Hl Hc Hf. unfold m_copy. destruct (Z.eqb_spec len 0); [lia|].
  destruct (Z.ltb_spec off 0), (Z.ltb_spec len 0); try lia. cbn [orb].
  destruct (m_copy_skip_spec c off len) as (c' & off' & -> & H1 & H2 & H3 & H4 & H5); [lia..|].
  cbn [obind fst snd].
  destruct (m_copy_loop_spec k c' off' len []) as (k' & r & -> & Hk & Hr); [lia..|by apply H4|done|].
  exists k', r. split; [done|]. split; [done|]. destruct r; [|done]. by rewrite <- H2.
Qed.
End AllocSpec.

(** *** [m_pullup] *)

(** The data of an mbuf inside it fits, and does not overrun the mbuf. *)
Definition m_fits (m : mbuf) : Prop :=
  match m_loc m with Internal off => 0 <= off /\ off + m_len m <= MMAXOFF | Cluster _ => True end.

Lemma m_advance_len m n : 0 <= n <= m_len m -> m_len (m_advance m n) = m_len m - n.
Proof. intros. unfold m_len, m_advance. simpl. apply zlen_drop. done. Qed.

(** The loop fills the first mbuf; it fails only when the chain is too short. *)
Lemma m_pullup_loop_spec n m space len :
  n <> [] -> m_len m + len <= space -> 0 < len ->
  exists r, m_pullup_loop n m space len = Ok r /\
    match r with
    | Some c => len <= chain_len n /\ chain_data c = m_dat m ++ chain_data n /\
                exists m' n', c = m' :: n' /\ m_loc m' = m_loc m /\ m_len m + len <= m_len m' <= space
    | None => chain_len n < len
    end.
Proof.
  revert m len. induction n as [|x n IH]; intros m len Hn Hsp Hlen; [done|]. cbn [m_pullup_loop].
  pose proof (m_len_nonneg m). pose proof (m_len_nonneg x). pose proof (chain_len_nonneg n).
  set (cnt := Z.min (Z.min (space - m_len m) (len + MPULL_EXTRA)) (m_len x)).
  assert (Hcnt : 0 <= cnt <= m_len x /\ cnt <= space - m_len m /\ (cnt < len -> cnt = m_len x)).
  { unfold cnt, MPULL_EXTRA. lia. }
  destruct (Z.ltb_spec cnt 0); [lia|]. rewrite m_advance_len by lia.
  set (m1 := Mbuf _ _ _).
  assert (Em1 : m_len m1 = m_len m + cnt).
  { unfold m1, m_len. simpl. rewrite zlen_app, zlen_take by (unfold m_len in *; lia). done. }
  rewrite chain_len_cons. unfold nz.
  destruct (Z.eqb_spec (m_len x - cnt) 0) as [E|E]; cbn [negb].
  - assert (Ex : take (Z.to_nat cnt) (m_dat x) = m_dat x) by (apply take_all_z; unfold m_len in *; lia).
    destruct (Z.ltb_spec 0 (len - cnt)).
    + destruct (decide (n = [])) as [->|Hne].
      * rewrite bool_decide_true by done. eexists. split; [done|]. simpl.
        change (chain_len []) with 0. lia.
      * rewrite bool_decide_false by done.
        destruct (IH m1 (len - cnt) Hne ltac:(lia) ltac:(lia)) as (r & -> & Hr).
        eexists. split; [done|]. destruct r as [c|]; [|lia].
        destruct Hr as (Hl & Hd & m' & n' & -> & Hloc & Hlm). split; [lia|]. split.
        -- rewrite Hd, chain_data_cons. unfold m1. cbn [m_dat]. by rewrite Ex, app_assoc.
        -- exists m', n'. split; [done|]. split; [done|lia].
    + eexists. split; [done|]. split; [lia|]. split.
      * rewrite !chain_data_cons. unfold m1. cbn [m_dat]. by rewrite Ex, app_assoc.
      * exists m1, n. split; [done|]. split; [done|lia].
  - destruct (Z.ltb_spec 0 (len - cnt)); [lia|]. eexists. split; [done|]. simpl. split; [lia|]. split.
    + rewrite <- app_assoc. f_equal. by rewrite app_assoc, take_drop.
    + exists m1, (m_advance x cnt :: n). split; [done|]. split; [done|lia].
Qed.

Lemma m_pullup_spec mget_ok k c len :
  Forall m_fits c -> c <> [] -> 0 < len ->
  (match c with m :: _ => m_len m < len | [] => True end) ->
  exists k' r, m_pullup mget_ok k c len = Ok (k', r) /\
    match r with
    | Some c' => chain_data c' = chain_data c /\ exists m n, c' = m :: n /\ len <= m_len m /\ m_fits m /\
                   m_ext m = false
    | None => chain_len c < len \/ MLEN < len \/ mget_ok k = false
    end.
Proof.
  intros Hf Hne Hlen Hfirst. destruct c as [|x n]; [done|]. pose proof (m_len_nonneg x).
  apply Forall_cons in Hf as [Hx _]. unfold m_pullup.
  assert (Halloc : exists k' r,
    (if MLEN <? len then Ok (k, None)
     else match MGET mget_ok k (m_type x) with
          | (k, Some m) => let* r := m_pullup_loop (x :: n) m (MMAXOFF - MMINOFF) len in Ok (k, r)
          | (k, None) => Ok (k, None)
          end) = Ok (k', r) /\
    match r with
    | Some c' => chain_data c' = chain_data (x :: n) /\ exists m n, c' = m :: n /\ len <= m_len m /\ m_fits m /\
                   m_ext m = false
    | None => chain_len (x :: n) < len \/ MLEN < len \/ mget_ok k = false
    end).
  { destruct (Z.ltb_spec MLEN len); [eexists _, _; split; [done|]; by right; left|].
    unfold MGET. destruct (mget_ok k) eqn:Ek; [|eexists _, _; split; [done|]; by right; right].
    destruct (m_pullup_loop_spec (x :: n) (Mbuf (Internal MMINOFF) (m_type x) []) (MMAXOFF - MMINOFF) len)
      as (r & -> & Hr); [done|unfold m_len, MLEN, MMAXOFF, MSIZE, MTAIL, MMINOFF in *; simpl; change (zlen (@nil Z)) with 0; lia|done|].
    cbn [obind]. eexists _, _. split; [done|]. destruct r as [c'|]; [|by left].
    destruct Hr as (_ & Hd & m' & n' & -> & Hloc & Hm). split; [done|]. exists m', n'.
    split; [done|]. unfold m_len at 1 in Hm. simpl in Hm. change (zlen (@nil Z)) with 0 in Hm.
    split; [lia|]. unfold m_fits, m_ext. rewrite Hloc. simpl. split; [|done].
    unfold MMAXOFF, MMINOFF, MSIZE, MTAIL in *. lia. }
  destruct (m_loc x) as [off|t] eqn:Eloc; [|exact Halloc].
  destruct (Z.leb_spec (off + len) MMAXOFF) as [Hfit|]; [|exact Halloc].
  destruct n as [|y n]; [exact Halloc|].
  unfold m_fits in Hx. rewrite Eloc in Hx.
  destruct (m_pullup_loop_spec (y :: n) x (MMAXOFF - off) (len - m_len x)) as (r & -> & Hr); [done|lia|lia|].
  cbn [obind]. eexists _, _. split; [done|]. destruct r as [c'|]; [|left; rewrite chain_len_cons; lia].
  destruct Hr as (_ & Hd & m' & n' & -> & Hloc & Hm). split; [done|]. exists m', n'. split; [done|].
  split; [lia|]. unfold m_fits, m_ext. rewrite Hloc, Eloc. split; [lia|done].
Qed.

(** *** [m_cat] *)

Lemma m_cat_loop_spec n x : chain_data (m_cat_loop x n) = m_dat x ++ chain_data n.
Proof.
  revert x. induction n as [|y n IH]; intros x; cbn [m_cat_loop]; [by rewrite chain_data_cons|].
  destruct (m_loc x) eqn:E; [|done]. destruct (_ || _); [done|]. rewrite IH. cbn [m_dat].
  by rewrite chain_data_cons, app_assoc.
Qed.

Lemma m_cat_spec m n : m <> [] -> exists c, m_cat m n = Ok c /\
  chain_data c = chain_data m ++ chain_data n.
Proof.
  intros Hm. unfold m_cat. destruct (exists_last_or_nil m) as [->|(m0 & x & ->)]; [done|].
  rewrite last_snoc, length_app. simpl. replace (length m0 + 1 - 1)%nat with (length m0) by lia.
  rewrite take_app_length. eexists. split; [done|].
  rewrite !chain_data_app, m_cat_loop_spec, chain_data_cons. by rewrite <- !app_assoc.
Qed.

(** ** Socket buffers: the counts are those of the chains *)

Definition rec_data (l : list chain) : list Z := l ≫= chain_data.
Definition sb_bytes (sb : sockbuf) : list Z := rec_data (sb_mb sb).
Definition chain_cost (c : chain) : Z := foldr (fun m n => m_cost m + n) 0 c.
Definition rec_cost (l : list chain) : Z := foldr (fun c n => chain_cost c + n) 0 l.

Definition counted (sb : sockbuf) (l : list chain) : Prop :=
  sb_cc sb = zlen (rec_data l) /\ sb_mbcnt sb = rec_cost l /\
  sb_cc sb < 2 ^ 16 /\ sb_mbcnt sb < 2 ^ 16.

Definition sb_ok (sb : sockbuf) : Prop :=
  counted sb (sb_mb sb) /\ Forall (fun c => c <> []) (sb_mb sb).

Lemma u16_small x : 0 <= x < 2 ^ 16 -> u16 x = x.
Proof. apply Z.mod_small. Qed.

Lemma rec_data_app l1 l2 : rec_data (l1 ++ l2) = rec_data l1 ++ rec_data l2.
Proof. apply bind_app. Qed.

Lemma rec_data_one c : rec_data [c] = chain_data c.
Proof. unfold rec_data. simpl. apply app_nil_r. Qed.

Lemma rec_data_cons c l : rec_data (c :: l) = chain_data c ++ rec_data l.
Proof. done. Qed.

Lemma chain_cost_app c1 c2 : chain_cost (c1 ++ c2) = chain_cost c1 + chain_cost c2.
Proof. induction c1 as [|m c IH]; simpl; [done|]. rewrite IH. lia. Qed.

Lemma m_cost_pos m : 0 < m_cost m.
Proof. unfold m_cost, MSIZE, CLBYTES. destruct (m_ext m); lia. Qed.

Lemma chain_cost_nonneg c : 0 <= chain_cost c.
Proof. induction c as [|m c IH]; simpl; [lia|]. pose proof (m_cost_pos m). lia. Qed.

Lemma rec_cost_nonneg l : 0 <= rec_cost l.
Proof. induction l as [|c l IH]; simpl; [lia|]. pose proof (chain_cost_nonneg c). lia. Qed.

Lemma rec_cost_app l1 l2 : rec_cost (l1 ++ l2) = rec_cost l1 + rec_cost l2.
Proof. induction l1 as [|c l IH]; simpl; [done|]. rewrite IH. lia. Qed.

(** The counts of [sb] are those of [pre] and the current record [cur]. *)
Definition counted2 (sb : sockbuf) (pre : list chain) (cur : chain) : Prop :=
  sb_cc sb = zlen (rec_data pre ++ chain_data cur) /\ sb_mbcnt sb = rec_cost pre + chain_cost cur.

(** The fields an operation on the data leaves alone. *)
Definition sb_same (sb sb' : sockbuf) : Prop :=
  sb_hiwat sb' = sb_hiwat sb /\ sb_mbmax sb' = sb_mbmax sb /\ sb_flags sb' = sb_flags sb /\
  sb_sel sb' = sb_sel sb.

Lemma sb_same_trans a b c : sb_same a b -> sb_same b c -> sb_same a c.
Proof. intros (? & ? & ? & ?) (? & ? & ? & ?). repeat split; congruence. Qed.

Lemma sbcompress_spec sb pre cur m :
  counted2 sb pre cur ->
  sb_cc sb + chain_len m < 2 ^ 16 -> sb_mbcnt sb + chain_cost m < 2 ^ 16 ->
  (cur = [] -> pre = []) -> Forall (fun c => c <> []) pre ->
  let sb' := sbcompress sb pre cur m in
  sb_ok sb' /\ sb_bytes sb' = rec_data pre ++ chain_data cur ++ chain_data m /\
  sb_same sb sb' /\
  sb_cc sb' = sb_cc sb + chain_len m /\ sb_mbcnt sb' <= sb_mbcnt sb + chain_cost m.
Proof.
  revert sb cur. induction m as [|x m IH]; intros sb cur [Hcc Hmb] Bcc Bmb Hcur Hpre sb'; subst sb'.
  - unfold chain_len in *. simpl in *. change (zlen (@nil Z)) with 0 in *.
    assert (Ed : rec_data (pre ++ (if bool_decide (cur = []) then [] else [cur])) = rec_data pre ++ chain_data cur).
    { rewrite rec_data_app. f_equal. case_bool_decide as E; [by rewrite E|apply rec_data_one]. }
    assert (Ec : rec_cost (pre ++ (if bool_decide (cur = []) then [] else [cur])) = rec_cost pre + chain_cost cur).
    { rewrite rec_cost_app. f_equal. case_bool_decide as E; [by rewrite E|simpl; lia]. }
    unfold sb_ok, counted, sb_bytes. cbn [sb_mb sb_cc sb_mbcnt set_mb sb_hiwat sb_mbmax sb_flags].
    rewrite Ed, Ec, app_nil_r. split_and!; try done; try lia.
    apply Forall_app. split; [done|]. case_bool_decide; [done|]. by apply Forall_singleton.
  - rewrite chain_len_cons in Bcc |- *. cbn [chain_cost foldr] in Bmb |- *. fold (chain_cost m) in Bmb |- *.
    pose proof (m_len_nonneg x). pose proof (chain_len_nonneg m). pose proof (chain_cost_nonneg m).
    pose proof (m_cost_pos x). pose proof (zlen_nonneg (rec_data pre ++ chain_data cur)).
    pose proof (rec_cost_nonneg pre). pose proof (chain_cost_nonneg cur).
    cbn [sbcompress]. destruct (Z.eqb_spec (m_len x) 0) as [E0|E0].
    { assert (m_dat x = []) as Ex by (by apply zlen_nil_inv).
      destruct (IH sb cur) as (G1 & G2 & G3 & G6 & G7); try done; try lia.
      split; [done|]. split; [by rewrite G2, chain_data_cons, Ex|]. split; [done|]. lia. }
    assert (Hnew : forall sb1 cur1,
      counted2 sb1 pre cur1 -> cur1 <> [] -> chain_data cur1 = chain_data cur ++ m_dat x ->
      sb_cc sb1 = sb_cc sb + m_len x -> sb_mbcnt sb1 <= sb_mbcnt sb + m_cost x ->
      sb_same sb sb1 ->
      let sb' := sbcompress sb1 pre cur1 m in
      sb_ok sb' /\ sb_bytes sb' = rec_data pre ++ chain_data cur ++ m_dat x ++ chain_data m /\
      sb_same sb sb' /\
      sb_cc sb' = sb_cc sb + (m_len x + chain_len m) /\
      sb_mbcnt sb' <= sb_mbcnt sb + (m_cost x + chain_cost m)).
    { intros sb1 cur1 C1 N1 D1 A1 B1 S1. cbv zeta.
      destruct (IH sb1 cur1) as (H1' & H2' & H3' & H6' & H7'); try done; try lia.
      split; [done|]. split; [by rewrite H2', D1, <- app_assoc|]. split; [by eapply sb_same_trans|]. lia. }
    assert (Halloc : counted2 (sballoc sb x) pre (cur ++ [x])).
    { unfold counted2. cbn [sb_cc sb_mbcnt sballoc].
      rewrite !u16_small by lia. rewrite chain_data_app, chain_cost_app, app_assoc, zlen_app, <- Hcc.
      unfold m_len. simpl. rewrite app_nil_r. lia. }
    assert (Hpush : let sb' := sbcompress (sballoc sb x) pre (cur ++ [x]) m in
      sb_ok sb' /\ sb_bytes sb' = rec_data pre ++ chain_data cur ++ m_dat x ++ chain_data m /\
      sb_same sb sb' /\
      sb_cc sb' = sb_cc sb + (m_len x + chain_len m) /\
      sb_mbcnt sb' <= sb_mbcnt sb + (m_cost x + chain_cost m)).
    { apply Hnew; try done.
      - by destruct cur.
      - rewrite chain_data_app. simpl. by rewrite app_nil_r.
      - simpl. by rewrite u16_small by lia.
      - simpl. rewrite u16_small by lia. lia. }
    rewrite chain_data_cons. destruct (split_last cur) as [[cur0 n]|] eqn:Esp; [|exact Hpush].
    apply split_last_Some in Esp. destruct (can_merge n x); [|exact Hpush].
    apply Hnew; try done.
    + unfold counted2. simpl. rewrite u16_small by lia. subst cur.
      rewrite chain_data_app, chain_cost_app in *. simpl in *. rewrite app_nil_r in *.
      rewrite Hcc, Hmb. unfold m_len in *. rewrite !zlen_app. split; [lia|].
      unfold m_cost, m_ext. simpl. lia.
    + by destruct cur0.
    + subst cur. rewrite !chain_data_app. simpl. by rewrite !app_nil_r, app_assoc.
    + simpl. by rewrite u16_small by lia.
    + simpl. lia.
Qed.

(** *** [sbappend], [sbappendrecord] *)

Lemma sb_ok_nonneg sb : sb_ok sb -> 0 <= sb_cc sb /\ 0 <= sb_mbcnt sb.
Proof.
  intros [(E1 & E2 & _) _]. pose proof (zlen_nonneg (rec_data (sb_mb sb))).
  pose proof (rec_cost_nonneg (sb_mb sb)). lia.
Qed.

Lemma sbappend_spec sb m :
  sb_ok sb -> sb_cc sb + chain_len m < 2 ^ 16 -> sb_mbcnt sb + chain_cost m < 2 ^ 16 ->
  let sb' := sbappend sb m in
  sb_ok sb' /\ sb_bytes sb' = sb_bytes sb ++ chain_data m /\ sb_same sb sb' /\
  sb_cc sb' = sb_cc sb + chain_len m /\ sb_mbcnt sb' <= sb_mbcnt sb + chain_cost m.
Proof.
  intros Hok Bc Bm. cbv zeta. unfold sbappend. destruct m as [|x m].
  { split; [done|]. split; [by rewrite app_nil_r|]. split; [done|]. change (chain_len []) with 0.
    simpl. lia. }
  destruct Hok as [(E1 & E2 & E3 & E4) Hne].
  destruct (split_last (sb_mb sb)) as [[pre cur]|] eqn:E.
  - apply split_last_Some in E. rewrite E in *. apply Forall_app in Hne as [Hp Hc].
    apply Forall_cons in Hc as [Hc _]. rewrite rec_data_app, rec_data_one in E1.
    rewrite rec_cost_app in E2. simpl in E2.
    destruct (sbcompress_spec sb pre cur (x :: m)) as (G1 & G2 & G3); [split; [done|lia]|done|done|by intros ->|done|].
    split; [done|]. split; [|done]. rewrite G2. unfold sb_bytes.
    by rewrite E, rec_data_app, rec_data_one, app_assoc.
  - apply split_last_None in E. rewrite E in *.
    destruct (sbcompress_spec sb [] [] (x :: m)) as (G1 & G2 & G3);
      [by split|done..|].
    split; [done|]. split; [|done]. rewrite G2. unfold sb_bytes. by rewrite E.
Qed.

Lemma sbappendrecord_spec sb m :
  sb_ok sb -> sb_cc sb + chain_len m < 2 ^ 16 -> sb_mbcnt sb + chain_cost m < 2 ^ 16 ->
  let sb' := sbappendrecord sb m in
  sb_ok sb' /\ sb_bytes sb' = sb_bytes sb ++ chain_data m /\ sb_same sb sb' /\
  sb_cc sb' = sb_cc sb + chain_len m /\ sb_mbcnt sb' <= sb_mbcnt sb + chain_cost m.
Proof.
  intros Hok Bc Bm. cbv zeta. unfold sbappendrecord. destruct m as [|x m].
  { split; [done|]. split; [by rewrite app_nil_r|]. split; [done|]. change (chain_len []) with 0.
    simpl. lia. }
  pose proof (sb_ok_nonneg sb Hok) as [N1 N2].
  destruct Hok as [(E1 & E2 & E3 & E4) Hne]. rewrite chain_len_cons in *.
  cbn [chain_cost foldr] in *. fold (chain_cost m) in *.
  pose proof (m_len_nonneg x). pose proof (chain_len_nonneg m). pose proof (chain_cost_nonneg m).
  pose proof (m_cost_pos x).
  assert (F1 : sb_cc (sballoc sb x) = sb_cc sb + m_len x) by (simpl; by rewrite u16_small by lia).
  assert (F2 : sb_mbcnt (sballoc sb x) = sb_mbcnt sb + m_cost x) by (simpl; by rewrite u16_small by lia).
  destruct (sbcompress_spec (sballoc sb x) (sb_mb sb) [x] m) as (G1 & G2 & G3 & G6 & G7);
    [|lia|lia|done|done|].
  { split; [rewrite F1, zlen_app, <- E1|rewrite F2, E2; simpl; lia].
    by rewrite chain_data_cons, app_nil_r. }
  split; [done|]. split; [rewrite G2; by rewrite !chain_data_cons, app_nil_r|]. split; [done|].
  rewrite F1 in G6. rewrite F2 in G7. lia.
Qed.

(** A stream buffer: one record at most, its mbufs well formed. *)
Definition sb_stream (sb : sockbuf) : Prop :=
  (length (sb_mb sb) <= 1)%nat /\ Forall (Forall cl_ok) (sb_mb sb).

Lemma can_merge_cl_ok n x : cl_ok n -> can_merge n x = true ->
  cl_ok (Mbuf (m_loc n) (m_type n) (m_dat n ++ m_dat x)).
Proof.
  unfold cl_ok, can_merge, m_len. cbn [m_loc m_dat]. destruct (m_loc n) as [off|]; [|done].
  destruct (m_loc x); [|done]. rewrite zlen_app. intros. bsimp. lia.
Qed.

Lemma sbcompress_stream sb cur m : Forall cl_ok cur -> Forall cl_ok m ->
  sb_stream (sbcompress sb [] cur m).
Proof.
  revert sb cur. induction m as [|x m IH]; intros sb cur Hc Hm; cbn [sbcompress].
  - unfold sb_stream. cbn [sb_mb set_mb app]. case_bool_decide; (split; [simpl; lia|]); by constructor.
  - apply Forall_cons in Hm as [Hx Hm]. destruct (_ =? _); [by apply IH|].
    assert (Hpush : sb_stream (sbcompress (sballoc sb x) [] (cur ++ [x]) m)).
    { apply IH; [|done]. apply Forall_app. split; [done|]. by constructor. }
    destruct (split_last cur) as [[cur0 n]|] eqn:E; [|done].
    apply split_last_Some in E. subst cur. apply Forall_app in Hc as [H0 Hn].
    apply Forall_cons in Hn as [Hn _]. destruct (can_merge n x) eqn:Em; [|done].
    apply IH; [|done]. apply Forall_app. split; [done|]. constructor; [|done]. by apply can_merge_cl_ok.
Qed.

Lemma sbappend_stream sb m : sb_stream sb -> Forall cl_ok m -> sb_stream (sbappend sb m).
Proof.
  intros [Hl Hf] Hm. unfold sbappend. destruct m as [|x m]; [done|].
  destruct (sb_mb sb) as [|cur [|? ?]]; [by apply sbcompress_stream| |simpl in Hl; lia].
  apply Forall_cons in Hf as [Hf _]. by apply sbcompress_stream.
Qed.

(** *** [sbdrop], [sbflush] *)

Definition counted3 (sb : sockbuf) (m : chain) (next : list chain) : Prop :=
  sb_cc sb = chain_len m + zlen (rec_data next) /\ sb_mbcnt sb = chain_cost m + rec_cost next /\
  sb_cc sb < 2 ^ 16 /\ sb_mbcnt sb < 2 ^ 16.

Lemma counted3_free sb x m next : counted3 sb (x :: m) next ->
  counted3 (sbfree sb x) m next /\ sb_same sb (sbfree sb x).
Proof.
  intros (E1 & E2 & B1 & B2). rewrite chain_len_cons in E1. cbn [chain_cost foldr] in E2.
  fold (chain_cost m) in E2. pose proof (m_len_nonneg x). pose proof (chain_len_nonneg m).
  pose proof (chain_cost_nonneg m). pose proof (m_cost_pos x). pose proof (rec_cost_nonneg next).
  pose proof (zlen_nonneg (rec_data next)).
  split; [|done]. unfold counted3. simpl. rewrite !u16_small by lia. lia.
Qed.

Lemma sbdrop_rec_spec sb m next len : counted3 sb m next -> 0 <= len ->
  exists sb' m', sbdrop_rec sb m len = (sb', m', Z.max 0 (len - chain_len m)) /\
    counted3 sb' m' next /\ sb_same sb sb' /\ (chain_len m < len -> m' = []) /\
    chain_data m' = drop (Z.to_nat len) (chain_data m).
Proof.
  revert sb len. induction m as [|x m IH]; intros sb len Hc Hl; cbn [sbdrop_rec].
  { change (chain_len []) with 0. exists sb, []. change (chain_data []) with (@nil Z). rewrite drop_nil.
    destruct (Z.ltb_spec 0 len); (split; [do 2 f_equal; lia|]); done. }
  pose proof (m_len_nonneg x). pose proof (chain_len_nonneg m). rewrite chain_len_cons.
  destruct (Z.ltb_spec 0 len) as [Hp|Hp].
  2: { exists sb, (x :: m). split; [do 2 f_equal; lia|]. replace (Z.to_nat len) with O by lia.
       split; [done|]. split; [done|]. split; [lia|done]. }
  destruct (Z.ltb_spec len (m_len x)) as [Hx|Hx].
  - eexists _, _. split; [do 2 f_equal; lia|]. destruct Hc as (E1 & E2 & B1 & B2).
    rewrite chain_len_cons in E1. pose proof (zlen_nonneg (rec_data next)).
    pose proof (rec_cost_nonneg next). pose proof (chain_cost_nonneg (x :: m)).
    split; [|split; [done|split; [lia|]]].
    + unfold counted3. cbn [sb_cc sb_mbcnt]. rewrite chain_len_cons, m_advance_len by lia.
      rewrite u16_small by lia. repeat split; try lia. rewrite E2. simpl. unfold m_cost, m_ext. simpl.
      by destruct (m_loc x).
    + rewrite !chain_data_cons. simpl. unfold m_len in Hx. by rewrite drop_app_lt_z by lia.
  - destruct (counted3_free sb x m next Hc) as [Hf Hs].
    destruct (IH (sbfree sb x) (len - m_len x) Hf) as (sb' & m' & -> & F1 & F2 & F4 & F3); [lia|].
    exists sb', m'. split; [do 2 f_equal; lia|]. split; [done|]. split; [by eapply sb_same_trans|].
    split; [intros; apply F4; lia|]. rewrite F3, chain_data_cons. unfold m_len in *. by rewrite drop_app_z.
Qed.

Lemma sbdrop_loop_spec sb m next len : counted3 sb m next -> 0 <= len ->
  Forall (fun c => c <> []) next ->
  if len <=? chain_len m + zlen (rec_data next) then
    exists sb' m' next', sbdrop_loop sb m next len = Ok (sb', m', next') /\
      counted3 sb' m' next' /\ sb_same sb sb' /\ Forall (fun c => c <> []) next' /\
      (length next' <= length next)%nat /\
      chain_data m' ++ rec_data next' = drop (Z.to_nat len) (chain_data m ++ rec_data next)
  else sbdrop_loop sb m next len = Panic "sbdrop".
Proof.
  revert sb m len. induction next as [|c next IH]; intros sb m len Hc Hl Hne; cbn [sbdrop_loop];
    destruct (sbdrop_rec_spec sb m _ len Hc Hl) as (sb' & m' & -> & F1 & F2 & F4 & F3).
  - change (zlen (rec_data [])) with 0. rewrite Z.add_0_r.
    destruct (Z.leb_spec len (chain_len m)).
    + destruct (Z.ltb_spec 0 (Z.max 0 (len - chain_len m))); [lia|].
      exists sb', m', []. split; [done|]. split; [done|]. split; [done|]. split; [done|]. split; [done|].
      by rewrite F3, !app_nil_r.
    + by destruct (Z.ltb_spec 0 (Z.max 0 (len - chain_len m))); [|lia].
  - rewrite rec_data_cons, zlen_app. apply Forall_cons in Hne as [Hc0 Hne].
    change (zlen (chain_data c)) with (chain_len c). pose proof (chain_len_nonneg c).
    pose proof (chain_len_nonneg m). pose proof (zlen_nonneg (rec_data next)).
    destruct (Z.ltb_spec 0 (Z.max 0 (len - chain_len m))) as [Hp|Hp].
    + rewrite (F4 ltac:(lia)) in *. change (chain_data []) with (@nil Z) in F3.
      assert (counted3 sb' c next) as Hc'.
      { destruct F1 as (E1 & E2 & B1 & B2). unfold counted3. cbn [rec_cost foldr chain_cost] in E2.
        fold (rec_cost next) in E2. rewrite rec_data_cons, zlen_app in E1. change (chain_len []) with 0 in E1.
        unfold chain_len at 1. lia. }
      replace (Z.max 0 (len - chain_len m)) with (len - chain_len m) by lia.
      specialize (IH sb' c (len - chain_len m) Hc' ltac:(lia) Hne).
      replace (len <=? chain_len m + (chain_len c + zlen (rec_data next)))
        with (len - chain_len m <=? chain_len c + zlen (rec_data next)) by lia.
      destruct (len - chain_len m <=? chain_len c + zlen (rec_data next)).
      * destruct IH as (sb2 & m2 & next2 & -> & G1 & G2 & G3 & G4 & G5).
        exists sb2, m2, next2. split; [done|]. split; [done|]. split; [by eapply sb_same_trans|].
        split; [done|]. split; [simpl; lia|]. rewrite G5, (drop_app_z (chain_data m)); [done|].
        unfold chain_len in Hp. lia.
      * done.
    + destruct (Z.leb_spec len (chain_len m + (chain_len c + zlen (rec_data next)))); [|lia].
      exists sb', m', (c :: next). split; [done|]. split; [done|]. split; [done|].
      split; [by constructor|]. split; [done|]. rewrite F3, drop_app_lt_z; [done|].
      unfold chain_len in Hp. lia.
Qed.

Lemma sbdrop_empty_spec sb m next : counted3 sb m next ->
  exists sb' m', sbdrop_empty sb m = (sb', m') /\ counted3 sb' m' next /\ sb_same sb sb' /\
    chain_data m' = chain_data m /\ (m' = [] \/ exists x m1, m' = x :: m1 /\ 0 < m_len x).
Proof.
  revert sb. induction m as [|x m IH]; intros sb Hc; cbn [sbdrop_empty].
  { exists sb, []. split; [done|]. split; [done|]. split; [done|]. split; [done|]. by left. }
  pose proof (m_len_nonneg x). destruct (Z.eqb_spec (m_len x) 0) as [E|E].
  - destruct (counted3_free sb x m next Hc) as [Hf Hs].
    destruct (IH _ Hf) as (sb' & m' & -> & F1 & F2 & F3 & F4). exists sb', m'. split; [done|].
    split; [done|]. split; [by eapply sb_same_trans|]. split; [|done].
    rewrite F3, chain_data_cons. by rewrite (zlen_nil_inv (m_dat x) E).
  - exists sb, (x :: m). split; [done|]. split; [done|]. split; [done|]. split; [done|].
    right. exists x, m. split; [done|lia].
Qed.

Lemma sbdrop_spec sb len : sb_ok sb -> 0 <= len ->
  if len <=? sb_cc sb then
    exists sb', sbdrop sb len = Ok sb' /\ sb_ok sb' /\ sb_same sb sb' /\
      sb_bytes sb' = drop (Z.to_nat len) (sb_bytes sb) /\ sb_cc sb' = sb_cc sb - len /\
      (length (sb_mb sb') <= length (sb_mb sb))%nat /\
      (len = sb_cc sb -> (length (sb_mb sb') <= pred (length (sb_mb sb)))%nat)
  else sbdrop sb len = Panic "sbdrop".
Proof.
  intros [(E1 & E2 & B1 & B2) Hne] Hl. unfold sbdrop.
  set (m := match sb_mb sb with m :: _ => m | [] => [] end).
  set (next := match sb_mb sb with _ :: next => next | [] => [] end).
  replace (match sb_mb sb with m :: next => (m, next) | [] => ([], []) end) with (m, next)
    by (unfold m, next; by destruct (sb_mb sb)).
  assert (Hd : sb_bytes sb = chain_data m ++ rec_data next) by (unfold sb_bytes, m, next; by destruct (sb_mb sb)).
  assert (Hc : counted3 sb m next).
  { split; [rewrite E1; fold (sb_bytes sb); by rewrite Hd, zlen_app|]. split; [|done].
    rewrite E2. unfold m, next. by destruct (sb_mb sb). }
  assert (Hn : Forall (fun c => c <> []) next).
  { unfold next. destruct (sb_mb sb); [done|]. by apply Forall_cons in Hne as [_ ?]. }
  assert (Hlen : length next = pred (length (sb_mb sb))) by (unfold next; by destruct (sb_mb sb)).
  pose proof (sbdrop_loop_spec sb m next len Hc Hl Hn) as H. rewrite (proj1 Hc).
  destruct (Z.leb_spec len (chain_len m + zlen (rec_data next))) as [Hle|]; [|by rewrite H].
  destruct H as (sb1 & m1 & next1 & -> & C1 & S1 & N1 & L1 & D1). cbn [obind].
  destruct (sbdrop_empty_spec sb1 m1 next1 C1) as (sb2 & m2 & -> & C2 & S2 & D2 & Z2).
  set (l := match m2 with [] => next1 | _ => m2 :: next1 end).
  assert (Fl : rec_data l = chain_data m2 ++ rec_data next1 /\ rec_cost l = chain_cost m2 + rec_cost next1 /\
               Forall (fun c => c <> []) l).
  { unfold l. destruct m2; [done|]. split; [done|]. split; [done|]. by constructor. }
  destruct Fl as (Fd & Fc & Ff). destruct C2 as (C2a & C2b & C2c & C2d).
  assert (Hb : sb_bytes (set_mb sb2 l) = drop (Z.to_nat len) (sb_bytes sb)).
  { unfold sb_bytes at 1. cbn [sb_mb set_mb]. by rewrite Fd, D2, D1, Hd. }
  assert (Hz : zlen (sb_bytes sb) = chain_len m + zlen (rec_data next)) by (rewrite Hd; apply zlen_app).
  assert (Hcc : sb_cc sb2 = zlen (sb_bytes (set_mb sb2 l))).
  { unfold sb_bytes. cbn [sb_mb set_mb]. rewrite Fd, zlen_app. done. }
  eexists. split; [done|]. split; [|split; [|split; [done|split; [|split]]]].
  - split; [|done]. unfold counted. cbn [sb_cc sb_mbcnt sb_mb set_mb]. rewrite Hcc at 1.
    split; [done|]. split; [lia|done].
  - change (sb_same sb sb2). by eapply sb_same_trans.
  - cbn [sb_cc set_mb]. rewrite Hcc, Hb, zlen_drop by lia. lia.
  - cbn [sb_mb set_mb]. unfold l. destruct m2 as [|y m2]; [lia|]. simpl.
    destruct (sb_mb sb) as [|c l0] eqn:El; [|simpl in Hlen; simpl; lia].
    exfalso. subst m next. simpl in *. assert (next1 = []) as -> by (destruct next1; [done|simpl in L1; lia]).
    destruct Z2 as [|(? & ? & [= <- <-] & Hx)]; [done|].
    assert (m_dat y ++ chain_data m2 = []) as Ez.
    { transitivity (chain_data m1); [exact D2|]. change (rec_data []) with (@nil Z) in D1. rewrite app_nil_r in D1. rewrite D1.
      apply drop_nil. }
    apply app_eq_nil in Ez as [Ez _]. unfold m_len in Hx.
    by rewrite Ez in Hx.
  - intros ->. cbn [sb_mb set_mb]. unfold l. destruct Z2 as [->|(x & m3 & -> & Hx)]; [lia|].
    rewrite Hcc, Hb, zlen_drop in C2a by lia. rewrite chain_len_cons in C2a.
    pose proof (chain_len_nonneg m3). pose proof (zlen_nonneg (rec_data next1)). lia.
Qed.

Lemma m_advance_cl_ok m n : 0 <= n <= m_len m -> cl_ok m -> cl_ok (m_advance m n).
Proof.
  intros Hn. unfold cl_ok. rewrite m_advance_len by done. unfold m_advance. simpl.
  destruct (m_loc m); [lia|done].
Qed.

Lemma sbdrop_rec_cl sb m len : Forall cl_ok m ->
  Forall cl_ok (sbdrop_rec sb m len).1.2.
Proof.
  revert sb len. induction m as [|x m IH]; intros sb len Hm; cbn [sbdrop_rec]; destruct (Z.ltb_spec 0 len); try done.
  apply Forall_cons in Hm as [Hx Hm]. destruct (Z.ltb_spec len (m_len x)); [|by apply IH].
  constructor; [|done]. apply m_advance_cl_ok; [lia|done].
Qed.

Lemma sbdrop_loop_cl sb m next len sb' m' next' : Forall cl_ok m -> Forall (Forall cl_ok) next ->
  sbdrop_loop sb m next len = Ok (sb', m', next') -> Forall cl_ok m' /\ Forall (Forall cl_ok) next'.
Proof.
  revert sb m len. induction next as [|c next IH]; intros sb m len Hm Hn; cbn [sbdrop_loop];
    pose proof (sbdrop_rec_cl sb m len Hm) as Hr; destruct (sbdrop_rec sb m len) as [[sb1 m1] len1];
    simpl in Hr; destruct (0 <? len1); try done.
  - by intros [= <- <- <-].
  - apply Forall_cons in Hn as [Hc Hn]. by apply IH.
  - by intros [= <- <- <-].
Qed.

(** Nothing is charged that was not. *)
Lemma sbdrop_rec_cost sb m len : chain_cost (sbdrop_rec sb m len).1.2 <= chain_cost m.
Proof.
  revert sb len. induction m as [|x m IH]; intros sb len; cbn [sbdrop_rec]; destruct (Z.ltb_spec 0 len); try done.
  pose proof (m_cost_pos x). destruct (Z.ltb_spec len (m_len x)); [by destruct x as [[?|?] ? ?]|].
  specialize (IH (sbfree sb x) (len - m_len x)).
  cbn [chain_cost foldr]. fold (chain_cost m). lia.
Qed.

Lemma sbdrop_loop_cost sb m next len sb' m' next' : sbdrop_loop sb m next len = Ok (sb', m', next') ->
  chain_cost m' + rec_cost next' <= chain_cost m + rec_cost next.
Proof.
  revert sb m len. induction next as [|c next IH]; intros sb m len; cbn [sbdrop_loop];
    pose proof (sbdrop_rec_cost sb m len) as Hr; destruct (sbdrop_rec sb m len) as [[sb1 m1] len1];
    cbn [fst snd] in Hr; destruct (0 <? len1); try done.
  - intros [= <- <- <-]. lia.
  - intros E%IH. pose proof (chain_cost_nonneg m). cbn [rec_cost foldr]. fold (rec_cost next). lia.
  - intros [= <- <- <-]. lia.
Qed.

Lemma sbdrop_cost sb len sb' : sbdrop sb len = Ok sb' -> rec_cost (sb_mb sb') <= rec_cost (sb_mb sb).
Proof.
  intros E. unfold sbdrop in E. destruct (match sb_mb sb with m :: next => (m, next) | [] => ([], []) end) as [m next] eqn:Em.
  inv_ok. destruct r as [[sb1 m1] next1]. apply sbdrop_loop_cost in E0.
  assert (Hs : chain_cost m + rec_cost next = rec_cost (sb_mb sb)) by (destruct (sb_mb sb); by injection Em as <- <-).
  assert (He : forall sb m, chain_cost (sbdrop_empty sb m).2 <= chain_cost m).
  { clear. intros sb m. revert sb. induction m as [|x m IH]; intros sb; cbn [sbdrop_empty]; [done|].
    pose proof (m_cost_pos x). destruct (m_len x =? 0); [|done]. specialize (IH (sbfree sb x)).
    cbn [chain_cost foldr]. fold (chain_cost m). lia. }
  specialize (He sb1 m1). destruct (sbdrop_empty sb1 m1) as [sb2 m2]. inv_ok. cbn [sb_mb set_mb snd] in *.
  destruct m2 as [|y m2]; [|cbn [rec_cost foldr]; fold (rec_cost next1); lia]. change (chain_cost []) with 0 in He. lia.
Qed.

Lemma sbdrop_stream sb len sb' : sb_ok sb -> 0 <= len -> sb_stream sb -> sbdrop sb len = Ok sb' ->
  sb_stream sb'.
Proof.
  intros Hok Hl [Hlen Hf] E. split.
  - pose proof (sbdrop_spec sb len Hok Hl) as H. destruct (len <=? sb_cc sb); [|congruence].
    destruct H as (sb2 & E2 & _ & _ & _ & _ & H & _). assert (sb2 = sb') as <- by congruence. lia.
  - unfold sbdrop in E. inv_ok. destruct (match sb_mb sb with m :: next => (m, next) | [] => ([], []) end) as [m next] eqn:Em.
    inv_ok. destruct r as [[sb1 m1] next1]. 
    assert (Forall cl_ok m /\ Forall (Forall cl_ok) next) as [F1 F2].
    { destruct (sb_mb sb); injection Em as <- <-; [by split|by apply Forall_cons in Hf]. }
    apply sbdrop_loop_cl in E0 as [G1 G2]; [|done|done].
    assert (He : forall sb m, Forall cl_ok m -> Forall cl_ok (sbdrop_empty sb m).2).
    { clear. intros sb m. revert sb. induction m as [|x m IH]; intros sb Hm; [done|]. cbn [sbdrop_empty].
      destruct (m_len x =? 0); [|done]. apply Forall_cons in Hm as [_ Hm]. by apply IH. }
    specialize (He sb1 m1 G1). destruct (sbdrop_empty sb1 m1) as [sb2 m2]. inv_ok. cbn [sb_mb set_mb].
    simpl in He. destruct m2; [done|]. by constructor.
Qed.

Lemma sb_ok_empty sb : sb_ok sb -> sb_mbcnt sb = 0 -> sb_mb sb = [] /\ sb_cc sb = 0.
Proof.
  intros [(E1 & E2 & _) Hne] E. destruct (sb_mb sb) as [|c l] eqn:El; [done|]. exfalso.
  apply Forall_cons in Hne as [Hc _]. destruct c as [|x c]; [done|].
  simpl in E2. pose proof (m_cost_pos x). pose proof (chain_cost_nonneg c). pose proof (rec_cost_nonneg l).
  lia.
Qed.

Lemma sbflush_loop_spec fuel sb : sb_ok sb -> (length (sb_mb sb) < fuel)%nat ->
  exists sb', sbflush_loop fuel sb = Ok sb' /\ sb_ok sb' /\ sb_same sb sb' /\ sb_mbcnt sb' = 0.
Proof.
  revert sb. induction fuel as [|fuel IH]; intros sb Hok Hf; [lia|]. cbn [sbflush_loop].
  destruct (Z.eqb_spec (sb_mbcnt sb) 0) as [E|E]; [by exists sb|].
  pose proof (sb_ok_nonneg sb Hok) as [N1 N2]. pose proof (sbdrop_spec sb (sb_cc sb) Hok N1) as H.
  rewrite Z.leb_refl in H. destruct H as (sb1 & -> & Ok1 & S1 & _ & _ & _ & L1). cbn [obind].
  specialize (L1 eq_refl). destruct (IH sb1 Ok1) as (sb2 & -> & Ok2 & S2 & Z2).
  { destruct (sb_mb sb) eqn:El; [|simpl in *; lia]. exfalso. apply E. destruct Hok as [(_ & -> & _) _].
    by rewrite El. }
  exists sb2. split; [done|]. split; [done|]. split; [by eapply sb_same_trans|done].
Qed.

Lemma sbflush_spec sb : sb_ok sb ->
  sbflush sb = if nz (Z.land (sb_flags sb) SB_LOCK) then Panic "sbflush"
               else Ok (Sockbuf 0 (sb_hiwat sb) 0 (sb_mbmax sb) [] (sb_flags sb) (sb_sel sb)).
Proof.
  intros Hok. unfold sbflush. destruct (nz _); [done|].
  destruct (sbflush_loop_spec (2 + length (sb_mb sb)) sb Hok) as (sb' & -> & Ok' & (S1 & S2 & S3 & S4) & Z'); [lia|].
  cbn [obind]. destruct (sb_ok_empty sb' Ok' Z') as [E1 E2]. rewrite E1, E2, Z'. simpl.
  destruct sb'; simpl in *. by subst.
Qed.

(** *** [m_cpytoc] *)

Lemma m_cpytoc_loop_spec c len : 0 <= len ->
  exists bs r, m_cpytoc_loop c len = (bs, r) /\ r = len - zlen bs /\
    (exists rest, chain_data c = bs ++ rest) /\ Z.min len (chain_len c) <= zlen bs /\ (len = 0 -> bs = []).
Proof.
  assert (G : forall c len, exists bs r, m_cpytoc_loop c len = (bs, r) /\ r = len - zlen bs /\
    (exists rest, chain_data c = bs ++ rest) /\ (0 <= len -> Z.min len (chain_len c) <= zlen bs) /\ (len = 0 -> bs = [])).
  { clear. induction c as [|m c IH]; intros len; cbn [m_cpytoc_loop].
    - exists [], len. split; [done|]. split; [change (zlen (@nil Z)) with 0; lia|]. split; [by exists []|].
      change (chain_len []) with 0. change (zlen (@nil Z)) with 0. split; [lia|done].
    - destruct (Z.eqb_spec len 0) as [E|E].
      + exists [], len. split; [done|]. split; [change (zlen (@nil Z)) with 0; lia|]. split; [by eexists|].
        change (zlen (@nil Z)) with 0. subst len. pose proof (chain_len_nonneg (m :: c)). split; [lia|done].
      + destruct (IH (len - m_len m)) as (bs & r & -> & -> & [rest Hr] & Hl & _). exists (m_dat m ++ bs).
        eexists. split; [done|]. rewrite zlen_app. split; [unfold m_len; lia|]. split.
        * exists rest. by rewrite chain_data_cons, Hr, app_assoc.
        * split; [|done]. intros Hn. rewrite chain_len_cons. pose proof (zlen_nonneg bs). unfold m_len in *. lia. }
  intros Hl. destruct (G c len) as (bs & r & ? & ? & ? & H & ?). exists bs, r. specialize (H Hl).
  by repeat split.
Qed.

Lemma m_cpytoc_skip_spec c off : 0 <= off ->
  exists c' off', m_cpytoc_skip c off = (c', off') /\
    drop (Z.to_nat off') (chain_data c') = drop (Z.to_nat off) (chain_data c) /\ 0 <= off' /\
    match c' with [] => True | m :: _ => off' <= m_len m end.
Proof.
  revert off. induction c as [|m c IH]; intros off Ho; cbn [m_cpytoc_skip].
  { exists [], off. split_and!; try done; lia. }
  pose proof (m_len_nonneg m). destruct (Z.eqb_spec off 0) as [->|E].
  { exists (m :: c), 0. split_and!; try done. }
  destruct (Z.leb_spec (m_len m) off) as [Hm|Hm].
  - destruct (IH (off - m_len m)) as (c' & off' & -> & H1 & H2 & H3); [lia|]. exists c', off'.
    split; [done|]. split; [|done]. rewrite H1, chain_data_cons. unfold m_len in *. by rewrite drop_app_z.
  - exists (m :: c), off. split_and!; try done. lia.
Qed.

Lemma m_cpytoc_spec c off len : c <> [] -> 0 <= off -> 0 <= len ->
  exists bs, m_cpytoc c off len = Ok (bs, len - zlen bs) /\
    (exists rest, drop (Z.to_nat off) (chain_data c) = bs ++ rest) /\
    Z.min len (zlen (drop (Z.to_nat off) (chain_data c))) <= zlen bs.
Proof.
  intros Hc Ho Hl. unfold m_cpytoc. destruct c as [|m0 c0] eqn:Ec; [done|]. rewrite <- Ec. clear Hc.
  destruct (Z.ltb_spec off 0), (Z.ltb_spec len 0); try lia. cbn [orb].
  destruct (m_cpytoc_skip_spec c off Ho) as (c' & off' & -> & <- & H2 & H3).
  destruct c' as [|m c'].
  - exists []. change (zlen (@nil Z)) with 0. split; [do 2 f_equal; lia|].
    change (chain_data []) with (@nil Z). rewrite drop_nil. split; [by exists []|]. change (zlen (@nil Z)) with 0. lia.
  - set (ml := Z.min len (m_len m - off')).
    destruct (m_cpytoc_loop_spec c' (len - ml)) as (bs & r & -> & -> & [rest Hr] & Hb & Hb0); [lia|].
    assert (Ez : zlen (drop (Z.to_nat off') (m_dat m)) = m_len m - off') by (apply zlen_drop; unfold m_len in *; lia).
    exists (take (Z.to_nat ml) (drop (Z.to_nat off') (m_dat m)) ++ bs).
    assert (0 <= ml <= m_len m - off') by (unfold ml; lia).
    rewrite zlen_app, zlen_take by lia. split; [do 2 f_equal; lia|].
    rewrite chain_data_cons, drop_app_lt_z by (unfold m_len in *; lia).
    rewrite (zlen_app (drop _ _)), Ez. change (zlen (chain_data c')) with (chain_len c').
    pose proof (chain_len_nonneg c'). pose proof (zlen_nonneg bs).
    split; [|unfold ml in *; lia]. rewrite Hr. unfold ml in *.
    destruct (Z.le_gt_cases (m_len m - off') len).
    + exists rest. rewrite take_all_z by lia. by rewrite app_assoc.
    + rewrite Hb0 by lia. rewrite app_nil_r, Z.min_l by lia.
      exists (drop (Z.to_nat len) (drop (Z.to_nat off') (m_dat m)) ++ rest).
      by rewrite (app_assoc (take _ _)), take_drop.
Qed.

(** ** Properties *)


(** [m_adj] trims exactly the bytes asked for, from the front when the
    count is positive and from the tail when it is negative, keeps every mbuf
    of the chain, and never leaves an mbuf of negative length. *)
Theorem m_adj_correct c len : - chain_len c <= len ->
  exists c', m_adj c len = Ok c' /\ length c' = length c /\
    chain_data c' = if 0 <=? len then drop (Z.to_nat len) (chain_data c)
                    else take (Z.to_nat (chain_len c + len)) (chain_data c).
Proof. apply m_adj_spec. Qed.

(** [m_pullup] keeps the bytes of the chain and makes the first [len] of
    them contiguous in an mbuf that is not a cluster and does not overrun; it
    refuses only a chain that is too short, a length larger than an mbuf, or
    for want of an mbuf; and its loop always ends. *)
Theorem m_pullup_correct mget_ok k c len :
  Forall m_fits c -> c <> [] -> 0 < len ->
  (match c with m :: _ => m_len m < len | [] => True end) ->
  exists k' r, m_pullup mget_ok k c len = Ok (k', r) /\
    match r with
    | Some c' => chain_data c' = chain_data c /\ exists m n, c' = m :: n /\ len <= m_len m /\ m_fits m /\
                   m_ext m = false
    | None => chain_len c < len \/ MLEN < len \/ mget_ok k = false
    end.
Proof. apply m_pullup_spec. Qed.

(** [m_cpytoc] copies a run of bytes that starts at [off], no fewer than
    were asked for and are there, and returns what is left to transfer.  The
    run may be longer than [len]: the copy goes on to the end of an mbuf, and
    the count returned is then negative. *)
Theorem m_cpytoc_correct c off len : c <> [] -> 0 <= off -> 0 <= len ->
  exists bs, m_cpytoc c off len = Ok (bs, len - zlen bs) /\
    (exists rest, drop (Z.to_nat off) (chain_data c) = bs ++ rest) /\
    Z.min len (zlen (drop (Z.to_nat off) (chain_data c))) <= zlen bs.
Proof. apply m_cpytoc_spec. Qed.

(** [sbappend] adds the bytes of the chain at the end of the buffer's
    stream whether or not it can merge them into the last mbuf, leaves the
    limits and the flags alone, and keeps [sb_cc] and [sb_mbcnt] the counts of
    what the buffer holds, with no empty record. *)
Theorem sbappend_correct sb m :
  sb_ok sb -> sb_cc sb + chain_len m < 2 ^ 16 -> sb_mbcnt sb + chain_cost m < 2 ^ 16 ->
  let sb' := sbappend sb m in
  sb_ok sb' /\ sb_bytes sb' = sb_bytes sb ++ chain_data m /\ sb_same sb sb' /\
  sb_cc sb' = sb_cc sb + chain_len m /\ sb_mbcnt sb' <= sb_mbcnt sb + chain_cost m.
Proof. apply sbappend_spec. Qed.

(** C37: [sbdrop] removes exactly the first [len] bytes, over record
    boundaries, and keeps the counts; it panics exactly when the buffer holds
    fewer bytes. *)
Theorem sbdrop_correct sb len : sb_ok sb -> 0 <= len ->
  if len <=? sb_cc sb then
    exists sb', sbdrop sb len = Ok sb' /\ sb_ok sb' /\ sb_same sb sb' /\
      sb_bytes sb' = drop (Z.to_nat len) (sb_bytes sb) /\ sb_cc sb' = sb_cc sb - len
  else sbdrop sb len = Panic "sbdrop".
Proof.
  intros Hok Hl. pose proof (sbdrop_spec sb len Hok Hl) as H. destruct (len <=? sb_cc sb); [|done].
  destruct H as (sb' & ? & ? & ? & ? & ? & _). exists sb'. do 4 (split; [done|]). done.
Qed.

(** [sbflush] of an unlocked buffer terminates, empties it and never
    reaches its second panic, even when records without bytes are queued; of a
    locked one it panics. *)
Theorem sbflush_correct sb : sb_ok sb ->
  sbflush sb = if nz (Z.land (sb_flags sb) SB_LOCK) then Panic "sbflush"
               else Ok (Sockbuf 0 (sb_hiwat sb) 0 (sb_mbmax sb) [] (sb_flags sb) (sb_sel sb)).
Proof. apply sbflush_spec. Qed.

(** *** The hypotheses can hold *)

Definition sample_chain : chain :=
  [Mbuf (Internal 12) MT_DATA [1; 2]; Mbuf (Cluster 1) MT_DATA [3; 4; 5]; Mbuf (Internal 20) MT_DATA [6]].
Definition sample_sb : sockbuf := Sockbuf 6 2048 1408 4096 [sample_chain] 0 false.

Lemma sample_sb_ok : sb_ok sample_sb.
Proof.
  split; [by repeat split|]. by apply Forall_singleton.
Qed.

(** Three bytes are asked for; four are copied, and the count is negative. *)
Example m_cpytoc_overruns :
  m_cpytoc [Mbuf (Internal 12) MT_DATA [1; 2]; Mbuf (Internal 12) MT_DATA [3; 4]] 0 3 =
  Ok ([1; 2; 3; 4], -1).
Proof. reflexivity. Qed.


Lemma m_adj_correct_witness : exists c',
  m_adj sample_chain (-3) = Ok c' /\ length c' = length sample_chain /\
  chain_data c' = take 3 (chain_data sample_chain).
Proof. apply (m_adj_correct sample_chain (-3)). vm_compute. congruence. Defined.

Lemma m_pullup_correct_witness : exists k' r,
  m_pullup (fun _ => true) 0 sample_chain 4 = Ok (k', r) /\
    match r with
    | Some c' => chain_data c' = chain_data sample_chain /\ exists m n, c' = m :: n /\ 4 <= m_len m /\
                   m_fits m /\ m_ext m = false
    | None => chain_len sample_chain < 4 \/ MLEN < 4 \/ true = false
    end.
Proof.
  apply (m_pullup_correct (fun _ => true) 0 sample_chain 4).
  - repeat constructor; vm_compute; congruence.
  - discriminate.
  - lia.
  - reflexivity.
Defined.

Lemma m_cpytoc_correct_witness : exists bs,
  m_cpytoc sample_chain 1 3 = Ok (bs, 3 - zlen bs) /\
  (exists rest, drop 1 (chain_data sample_chain) = bs ++ rest) /\
  Z.min 3 (zlen (drop 1 (chain_data sample_chain))) <= zlen bs.
Proof. apply (m_cpytoc_correct sample_chain 1 3); [discriminate|lia|lia]. Defined.

Lemma sbappend_correct_witness :
  let sb' := sbappend sample_sb sample_chain in
  sb_ok sb' /\ sb_bytes sb' = sb_bytes sample_sb ++ chain_data sample_chain /\ sb_same sample_sb sb' /\
  sb_cc sb' = sb_cc sample_sb + chain_len sample_chain /\
  sb_mbcnt sb' <= sb_mbcnt sample_sb + chain_cost sample_chain.
Proof. apply (sbappend_correct sample_sb sample_chain); [exact sample_sb_ok|reflexivity|reflexivity]. Defined.

Lemma sbdrop_correct_witness : exists sb',
  sbdrop sample_sb 3 = Ok sb' /\ sb_ok sb' /\ sb_same sample_sb sb' /\
  sb_bytes sb' = drop 3 (sb_bytes sample_sb) /\ sb_cc sb' = sb_cc sample_sb - 3.
Proof. apply (sbdrop_correct sample_sb 3 sample_sb_ok). lia. Defined.

Lemma sbflush_correct_witness : sbflush sample_sb = Ok (Sockbuf 0 2048 0 4096 [] 0 false).
Proof. apply (sbflush_correct sample_sb sample_sb_ok). Defined.
