(* ===== verification/Socket.v ===== *)
(** * Sockets: [sys/h/socketvar.h], [sys/sys/uipc_socket.c], [uipc_socket2.c]

    The state of a socket the protocols work on, and the queues [so_q0] and
    [so_q] of the accepting sockets: [so_q0len] and [so_qlen] are the lengths of
    the lists.  A socket is named by its address, [so_id].  The wakeups of
    processes and the signals are left to the scheduler; what they change in
    the buffers is here. *)
From S2P Require Import Prelude Mbuf.

Definition SS_NOFDREF : Z := 0x001.
Definition SS_ISCONNECTED : Z := 0x002.
Definition SS_ISCONNECTING : Z := 0x004.
Definition SS_ISDISCONNECTING : Z := 0x008.
Definition SS_CANTSENDMORE : Z := 0x010.
Definition SS_CANTRCVMORE : Z := 0x020.
Definition SS_RCVATMARK : Z := 0x040.
Definition SO_KEEPALIVE : Z := 0x0008.
Definition SO_LINGER : Z := 0x0080.
Definition SO_OOBINLINE : Z := 0x0100.
Definition ENOBUFS : Z := 55.

Record socket := Socket {
  so_id : Z; so_options : Z; so_linger : Z; so_state : Z; so_pcb : bool; so_head : option Z;
  so_rcv : sockbuf; so_snd : sockbuf; so_error : Z; so_oobmark : Z
}.

#[export] Instance socket_settable : Settable socket := fun so =>
  Socket (so_id so) (so_options so) (so_linger so) (so_state so) (so_pcb so) (so_head so)
    (so_rcv so) (so_snd so) (so_error so) (so_oobmark so).

(** The queues of an accepting socket. *)
Record sockq := Sockq { so_q0 : list Z; so_q : list Z; so_qlimit : Z }.
Abbreviation queues := (gmap Z sockq).

(** [flags |= b], [flags &= ~b]. *)
Definition bis (flags b : Z) : Z := Z.lor flags b.
Definition bic (flags b : Z) : Z := Z.land flags (Z.lnot b).
Definition has (flags b : Z) : bool := nz (Z.land flags b).

(** ** Wakeups *)

Definition sorwakeup (so : socket) : socket := so <| so_rcv := sbwakeup (so_rcv so) |>.
Definition sowwakeup (so : socket) : socket := so <| so_snd := sbwakeup (so_snd so) |>.

Definition sohasoutofband (so : socket) : socket :=
  let sb := so_rcv so in
  if sb_sel sb
  then so <| so_rcv := Sockbuf (sb_cc sb) (sb_hiwat sb) (sb_mbcnt sb) (sb_mbmax sb) (sb_mb sb)
                         (bic (sb_flags sb) SB_COLL) false |>
  else so.

(** ** The queues *)

Definition soqinsque (qs : queues) (head : Z) (so : socket) (q : bool) : outcome (queues * socket) :=
  let* h := deref (qs !! head) in
  let h := if q then Sockq (so_q0 h) (so_id so :: so_q h) (so_qlimit h)
           else Sockq (so_id so :: so_q0 h) (so_q h) (so_qlimit h) in
  Ok (<[head := h]> qs, so <| so_head := Some head |>).

(** The list without its first [x]; [None] when there is none. *)
Fixpoint unlink (l : list Z) (x : Z) : option (list Z) :=
  match l with
  | [] => None
  | y :: l' => if y =? x then Some l' else cons y <$> unlink l' x
  end.

Definition soqremque (qs : queues) (so : socket) (q : bool) : outcome (queues * socket * bool) :=
  let* head := deref (so_head so) in
  let* h := deref (qs !! head) in
  match unlink (if q then so_q h else so_q0 h) (so_id so) with
  | None => Ok (qs, so, false)
  | Some l =>
      let h := if q then Sockq (so_q0 h) l (so_qlimit h) else Sockq l (so_q h) (so_qlimit h) in
      Ok (<[head := h]> qs, so <| so_head := None |>, true)
  end.

(** ** Changes of state *)

Definition soisconnecting (so : socket) : socket :=
  so <| so_state := bis (bic (so_state so) (Z.lor SS_ISCONNECTED SS_ISDISCONNECTING)) SS_ISCONNECTING |>.

Definition soisconnected (qs : queues) (so : socket) : outcome (queues * socket) :=
  let* r := match so_head so with
            | Some head =>
                let* r := soqremque qs so false in
                let '(qs, so, found) := r in
                if negb found then Panic "soisconnected" else soqinsque qs head so true
            | None => Ok (qs, so)
            end in
  let so := r.2 in
  let so := so <| so_state := bis (bic (so_state so) (Z.lor SS_ISCONNECTING SS_ISDISCONNECTING)) SS_ISCONNECTED |> in
  Ok (r.1, sowwakeup (sorwakeup so)).

Definition soisdisconnecting (so : socket) : socket :=
  sorwakeup (sowwakeup (so <| so_state := bis (bic (so_state so) SS_ISCONNECTING)
    (Z.lor SS_ISDISCONNECTING (Z.lor SS_CANTRCVMORE SS_CANTSENDMORE)) |>)).

Definition soisdisconnected (so : socket) : socket :=
  sorwakeup (sowwakeup (so <| so_state :=
    bis (bic (so_state so) (Z.lor SS_ISCONNECTING (Z.lor SS_ISCONNECTED SS_ISDISCONNECTING)))
        (Z.lor SS_CANTRCVMORE SS_CANTSENDMORE) |>)).

Definition socantsendmore (so : socket) : socket :=
  sowwakeup (so <| so_state := bis (so_state so) SS_CANTSENDMORE |>).
Definition socantrcvmore (so : socket) : socket :=
  sorwakeup (so <| so_state := bis (so_state so) SS_CANTRCVMORE |>).

(** ** Reservation and release *)

Definition soreserve (so : socket) (sndcc rcvcc : Z) : outcome (Z * socket) :=
  match sbreserve (so_snd so) sndcc with
  | None => Ok (ENOBUFS, so)
  | Some snd =>
      match sbreserve (so_rcv so) rcvcc with
      | None => let* snd := sbrelease snd in Ok (ENOBUFS, so <| so_snd := snd |>)
      | Some rcv => Ok (0, so <| so_snd := snd |> <| so_rcv := rcv |>)
      end
  end.

(** [sorflush] of a socket that nobody has locked: the copy of the buffer it
    releases carries the lock it has just given up. *)
Definition sorflush (so : socket) : outcome socket :=
  let so := socantrcvmore so in
  let* _ := sbrelease (so_rcv so) in
  Ok (so <| so_rcv := Sockbuf 0 0 0 0 [] 0 false |>).

(** [sofree]: the socket that stays, or [None] when it is freed. *)
Definition sofree (qs : queues) (so : socket) : outcome (queues * option socket) :=
  let* r := match so_head so with
            | Some _ =>
                let* r := soqremque qs so false in
                let '(qs, so, found) := r in
                if found then Ok (qs, so)
                else
                  let* r := soqremque qs so true in
                  let '(qs, so, found) := r in
                  if found then Ok (qs, so) else Panic "sofree dq"
            | None => Ok (qs, so)
            end in
  let '(qs, so) := r in
  if so_pcb so || negb (has (so_state so) SS_NOFDREF) then Ok (qs, Some so)
  else
    let* snd := sbrelease (so_snd so) in
    let* _ := sorflush (so <| so_snd := snd |>) in
    Ok (qs, None).

(** ** The queues under [soisconnected] *)

Definition sockq_members (h : sockq) : list Z := so_q0 h ++ so_q h.

Lemma unlink_Some l x : x ∈ l -> exists l1 l2, l = l1 ++ x :: l2 /\ (x ∉ l1) /\
  unlink l x = Some (l1 ++ l2).
Proof.
  induction l as [|y l IH]; intros Hx; [by apply elem_of_nil in Hx|]. simpl.
  destruct (Z.eqb_spec y x) as [->|Hne].
  - exists [], l. split; [done|]. split; [apply not_elem_of_nil|done].
  - apply elem_of_cons in Hx as [Hx|Hx]; [congruence|]. destruct (IH Hx) as (l1 & l2 & -> & Hn & ->).
    exists (y :: l1), l2. split; [done|]. split; [|done]. apply not_elem_of_cons. done.
Qed.

Lemma unlink_None l x : x ∉ l -> unlink l x = None.
Proof.
  induction l as [|y l IH]; intros Hx; [done|]. simpl. apply not_elem_of_cons in Hx as [Hne Hx].
  destruct (Z.eqb_spec y x) as [->|]; [done|]. by rewrite IH.
Qed.

(** [soisconnected] of a socket that waits on its accepting socket's
    [so_q0] moves it to the front of [so_q]: the two queues keep their members
    and their total length, the other accepting sockets are untouched, and the
    socket is connected.  A socket that is not on [so_q0] is a panic. *)
Theorem soisconnected_correct qs so head h :
  so_head so = Some head -> qs !! head = Some h ->
  (so_id so ∈ so_q0 h -> exists h' so', soisconnected qs so = Ok (<[head := h']> qs, so') /\
     so_q h' = so_id so :: so_q h /\ sockq_members h' ≡ₚ sockq_members h /\
     length (so_q0 h') = pred (length (so_q0 h)) /\ so_qlimit h' = so_qlimit h /\
     so_head so' = Some head /\ has (so_state so') SS_ISCONNECTED = true) /\
  (so_id so ∉ so_q0 h -> soisconnected qs so = Panic "soisconnected").
Proof.
  intros Hh Hq. unfold soisconnected, soqremque. rewrite Hh. cbn [deref obind]. rewrite Hq. cbn [deref obind].
  split; intros Hin.
  - destruct (unlink_Some _ _ Hin) as (l1 & l2 & E & _ & Eu). rewrite Eu. cbn [obind negb].
    unfold soqinsque. rewrite lookup_insert_eq. cbn [deref obind fst snd]. rewrite insert_insert_eq.
    eexists _, _. split; [done|]. cbn [Socket.so_q Socket.so_q0 Socket.so_qlimit].
    split; [done|]. split.
    { unfold sockq_members. simpl. rewrite E, <- Permutation_middle, <- !app_assoc. simpl. apply Permutation_middle. }
    split; [rewrite E, !length_app; simpl; lia|]. split; [done|]. split; [done|].
    unfold has, nz, bis. simpl. rewrite Z.land_lor_distr_l. 
    apply negb_true_iff, Z.eqb_neq. intros E0. apply (f_equal (fun x => Z.testbit x 1)) in E0.
    rewrite Z.lor_spec, orb_true_r in E0. done.
  - by rewrite (unlink_None _ _ Hin).
Qed.

Definition sample_socket : socket :=
  Socket 7 0 0 0 true (Some 3) sample_sb (Sockbuf 0 4096 0 8192 [] 0 false) 0 0.

Lemma soisconnected_correct_witness : exists h' so',
  soisconnected {[ 3 := Sockq [5; 7; 6] [4] 5 ]} sample_socket
    = Ok (<[3 := h']> ({[ 3 := Sockq [5; 7; 6] [4] 5 ]}), so') /\ so_q h' = [7; 4].
Proof.
  destruct (soisconnected_correct ({[ 3 := Sockq [5; 7; 6] [4] 5 ]}) sample_socket 3 (Sockq [5; 7; 6] [4] 5)
              eq_refl (lookup_singleton_eq 3 _)) as [H _].
  destruct H as (h' & so' & E & Eq & _).
  - by_compute.
  - exists h', so'. by split.
Defined.
