(* ===== verification/In.v ===== *)
(** * Internet addresses and interfaces: [sys/netinet/in.c], [in.h], [in_var.h]

    An address is the 32-bit value of [s_addr], in network order; [ntohl] and
    [htonl] swap its bytes.  The list [in_ifaddr] of the interfaces' addresses
    is an argument.  The ioctl handler [in_control] is not modelled. *)
From S2P Require Import Prelude.

(** ** Data *)

Definition IFF_BROADCAST : Z := 0x2.
Definition IFF_LOOPBACK : Z := 0x8.
Definition INADDR_ANY : Z := 0.
Definition INADDR_BROADCAST : Z := 0xffffffff.

Definition IFF_POINTOPOINT : Z := 0x10.
Definition AF_INET : Z := 2.

Record sockaddr_in := SockaddrIn { sin_family : Z; sin_port : Z; sin_addr : Z }.

Record ifnet := Ifnet { if_unit : Z; if_mtu : Z; if_flags : Z }.

Record in_ifaddr := InIfaddr {
  ia_addr : sockaddr_in; ia_broadaddr : sockaddr_in; ia_dstaddr : sockaddr_in; ia_ifp : ifnet;
  ia_net : Z; ia_netmask : Z; ia_subnet : Z; ia_subnetmask : Z
}.

#[export] Instance sockaddr_in_eq_dec : EqDecision sockaddr_in.
Proof. solve_decision. Defined.
#[export] Instance ifnet_eq_dec : EqDecision ifnet.
Proof. solve_decision. Defined.

(** The bytes of a 32-bit value, in the other order; of a 16-bit one. *)
Definition ntohl (x : Z) : Z :=
  Z.lor (Z.lor (Z.shiftl (Z.land x 0xff) 24) (Z.shiftl (Z.land (Z.shiftr x 8) 0xff) 16))
        (Z.lor (Z.shiftl (Z.land (Z.shiftr x 16) 0xff) 8) (Z.land (Z.shiftr x 24) 0xff)).
Definition htonl (x : Z) : Z := ntohl x.
Definition ntohs (x : Z) : Z := Z.lor (Z.shiftl (Z.land x 0xff) 8) (Z.land (Z.shiftr x 8) 0xff).
Definition htons (x : Z) : Z := ntohs x.

(** ** Classes *)

Definition IN_CLASSA (i : Z) : bool := Z.land i 0x80000000 =? 0.
Definition IN_CLASSB (i : Z) : bool := Z.land i 0xc0000000 =? 0x80000000.
Definition IN_CLASSA_NET : Z := 0xff000000.
Definition IN_CLASSB_NET : Z := 0xffff0000.
Definition IN_CLASSC_NET : Z := 0xffffff00.
Definition IN_CLASSA_HOST : Z := 0x00ffffff.
Definition IN_CLASSB_HOST : Z := 0x0000ffff.
Definition IN_CLASSC_HOST : Z := 0x000000ff.

Definition class_net (i : Z) : Z :=
  if IN_CLASSA i then Z.land i IN_CLASSA_NET
  else if IN_CLASSB i then Z.land i IN_CLASSB_NET
  else Z.land i IN_CLASSC_NET.

Definition class_hostmask (i : Z) : Z :=
  if IN_CLASSA i then IN_CLASSA_HOST
  else if IN_CLASSB i then IN_CLASSB_HOST
  else IN_CLASSC_HOST.

(** ** Operations *)

Definition in_mainnetof (inp : Z) : Z := class_net (ntohl inp).

Definition lnot32 (x : Z) : Z := Z.lxor x 0xffffffff.

Section Interfaces.
Context (ifaddrs : list in_ifaddr).

Definition in_makeaddr (net host : Z) : Z :=
  let mask := match list_find (fun ia => Z.land (ia_netmask ia) net = ia_net ia) ifaddrs with
              | Some (_, ia) => lnot32 (ia_subnetmask ia)
              | None => class_hostmask net
              end in
  htonl (Z.lor net (Z.land host mask)).

Definition in_netof (inp : Z) : Z :=
  let i := ntohl inp in
  let net := class_net i in
  match list_find (fun ia => net = ia_net ia) ifaddrs with
  | Some (_, ia) => Z.land i (ia_subnetmask ia)
  | None => net
  end.

Definition in_lnaof (inp : Z) : Z :=
  let i := ntohl inp in
  let net := class_net i in
  let host := Z.land i (class_hostmask i) in
  match list_find (fun ia => net = ia_net ia) ifaddrs with
  | Some (_, ia) => Z.land host (lnot32 (ia_subnetmask ia))
  | None => host
  end.

Definition subnetsarelocal : Z := 1.

(** The test is [net == subnetsarelocal ? ia->ia_net : ia->ia_subnet], which
    C groups as [(net == subnetsarelocal) ? ... : ...]. *)
Definition in_localaddr (inp : Z) : bool :=
  let net := class_net (ntohl inp) in
  existsb (fun ia => nz (if net =? subnetsarelocal then ia_net ia else ia_subnet ia)) ifaddrs.

Definition in_iaonnetof (net : Z) : option in_ifaddr :=
  snd <$> list_find (fun ia => ia_subnet ia = net) ifaddrs.

Definition in_broadcast (inp : Z) : bool :=
  existsb (fun ia => (sin_addr (ia_broadaddr ia) =? inp) && nz (Z.land (if_flags (ia_ifp ia)) IFF_BROADCAST))
    ifaddrs.

(** [ifa_ifwithaddr] and [ifa_ifwithdstaddr] of [sys/net/if.c], over the
    Internet addresses; [equal] compares the ports as well. *)
Definition sa_equal (a b : sockaddr_in) : bool :=
  (sin_port a =? sin_port b) && (sin_addr a =? sin_addr b).

Definition ifa_ifwithaddr (sa : sockaddr_in) : option in_ifaddr :=
  snd <$> list_find (fun ia => sin_family (ia_addr ia) = sin_family sa /\
    (sa_equal (ia_addr ia) sa
     || nz (Z.land (if_flags (ia_ifp ia)) IFF_BROADCAST) && sa_equal (ia_broadaddr ia) sa) = true) ifaddrs.

Definition ifa_ifwithdstaddr (sa : sockaddr_in) : option in_ifaddr :=
  snd <$> list_find (fun ia => sin_family (ia_addr ia) = sin_family sa /\
    (nz (Z.land (if_flags (ia_ifp ia)) IFF_POINTOPOINT) && sa_equal (ia_dstaddr ia) sa) = true) ifaddrs.
End Interfaces.

Definition inet_netmatch (ifaddrs : list in_ifaddr) (a b : Z) : bool :=
  in_netof ifaddrs a =? in_netof ifaddrs b.

(** ** Properties *)

(** A class net has its low byte zero, so it is never 1. *)
Lemma class_net_not_1 i : class_net i <> 1.
Proof.
  unfold class_net. intros E. apply (f_equal (fun x => Z.testbit x 0)) in E. revert E.
  destruct (IN_CLASSA i); [|destruct (IN_CLASSB i)];
    rewrite Z.land_spec, andb_comm; simpl; discriminate.
Qed.

(** [in_localaddr] does not look at its argument: grouped as C does, its
    test is that some interface has a subnet number, so once an interface is
    configured every address of the Internet is ``local''. *)
Theorem in_localaddr_ignores_address ifaddrs a :
  in_localaddr ifaddrs a = existsb (fun ia => nz (ia_subnet ia)) ifaddrs.
Proof.
  unfold in_localaddr, subnetsarelocal. destruct (Z.eqb_spec (class_net (ntohl a)) 1) as [E|]; [|done].
  by apply class_net_not_1 in E.
Qed.

(** An interface of 128.105.0.0, and the address 10.0.0.78. *)
Definition sample_ifaddr : in_ifaddr :=
  InIfaddr (SockaddrIn AF_INET 0 (htonl 0x80690101)) (SockaddrIn AF_INET 0 (htonl 0x8069ffff))
    (SockaddrIn 0 0 0) (Ifnet 0 1500 IFF_BROADCAST)
    0x80690000 IN_CLASSB_NET 0x80690000 IN_CLASSB_NET.

Example in_localaddr_arpanet : in_localaddr [sample_ifaddr] (htonl 0x0a00004e) = true.
Proof. reflexivity. Qed.
Example in_netof_sample : in_netof [sample_ifaddr] (htonl 0x80690907) = 0x80690000.
Proof. reflexivity. Qed.
Example in_makeaddr_sample : in_makeaddr [sample_ifaddr] 0x80690000 0x0907 = htonl 0x80690907.
Proof. reflexivity. Qed.
