(* ===== verification/Inpcb.v ===== *)
(** * Internet protocol control blocks: [sys/netinet/in_pcb.c], [in_pcb.h]

    A chain of control blocks is the list of its members in order; a block is
    identified by its place.  What the socket contributes ([so_options], the
    protocol's flags) and the routing tables ([rtlookup], the entry [rtalloc]
    finds) are arguments.  The reference counts of routes are not modelled.
    The theorems: the lookup finds the most specific match, and the search for
    a free port ends with a free port of the range. *)
From S2P Require Import Prelude In.

(** ** Data *)

Definition EACCES : Z := 13.
Definition EINVAL : Z := 22.
Definition EAFNOSUPPORT : Z := 47.
Definition EADDRINUSE : Z := 48.
Definition EADDRNOTAVAIL : Z := 49.
Definition SO_ACCEPTCONN : Z := 0x0002.
Definition SO_REUSEADDR : Z := 0x0004.
Definition SO_DONTROUTE : Z := 0x0010.
Definition PR_CONNREQUIRED : Z := 0x04.
Definition IPPORT_RESERVED : Z := 1024.
Definition IPPORT_USERRESERVED : Z := 5000.
Definition RTF_DYNAMIC : Z := 0x10.

Record rtentry := Rtentry { rt_ifp : option ifnet; rt_flags : Z }.
Record route := Route { ro_rt : option rtentry; ro_dst : Z }.

Record inpcb := Inpcb {
  inp_faddr : Z; inp_fport : Z; inp_laddr : Z; inp_lport : Z;
  inp_route : route; inp_options : option (list Z)
}.

#[export] Instance inpcb_settable : Settable inpcb := fun i =>
  Inpcb (inp_faddr i) (inp_fport i) (inp_laddr i) (inp_lport i) (inp_route i) (inp_options i).

(** ** [in_pcblookup] *)

(** How many wildcards the match of a block takes; [None] is the loop's
    [continue]. *)
Definition pcb_wildcard (inp : inpcb) (faddr fport laddr lport : Z) : option Z :=
  if negb (inp_lport inp =? lport) then None else
  let lw := if nz (inp_laddr inp) then
              if laddr =? INADDR_ANY then Some 1
              else if negb (inp_laddr inp =? laddr) then None else Some 0
            else if nz laddr then Some 1 else Some 0 in
  match lw with
  | None => None
  | Some lw =>
      if nz (inp_faddr inp) then
        if faddr =? INADDR_ANY then Some (lw + 1)
        else if negb (inp_faddr inp =? faddr) || negb (inp_fport inp =? fport) then None
        else Some lw
      else if nz faddr then Some (lw + 1) else Some lw
  end.

(** The loop, at place [i] of the chain. *)
Fixpoint pcblookup_loop (l : list inpcb) (i : nat) (faddr fport laddr lport : Z) (wildok : bool)
    (best : option nat) (matchwild : Z) : option nat :=
  match l with
  | [] => best
  | inp :: l' =>
      match pcb_wildcard inp faddr fport laddr lport with
      | None => pcblookup_loop l' (S i) faddr fport laddr lport wildok best matchwild
      | Some wildcard =>
          if nz wildcard && negb wildok
          then pcblookup_loop l' (S i) faddr fport laddr lport wildok best matchwild
          else if wildcard <? matchwild then
            if wildcard =? 0 then Some i
            else pcblookup_loop l' (S i) faddr fport laddr lport wildok (Some i) wildcard
          else pcblookup_loop l' (S i) faddr fport laddr lport wildok best matchwild
      end
  end.

Definition in_pcblookup (head : list inpcb) (faddr fport laddr lport : Z) (wildok : bool) : option nat :=
  pcblookup_loop head 0 faddr fport laddr lport wildok None 3.

(** ** [in_pcbbind] *)

(** One step of the port search: the next [head->inp_lport]. *)
Definition next_lport (hport : Z) : Z :=
  let h := u16 (hport + 1) in
  if (hport <? IPPORT_RESERVED) || (IPPORT_USERRESERVED <? h) then IPPORT_RESERVED else h.

(** The [do] loop; [fuel] bounds the ports tried. *)
Fixpoint bind_port (fuel : nat) (head : list inpcb) (hport laddr : Z) : outcome (Z * Z) :=
  match fuel with
  | O => Fault
  | S fuel =>
      let hport := next_lport hport in
      let lport := htons hport in
      match in_pcblookup head 0 0 laddr lport false with
      | Some _ => bind_port fuel head hport laddr
      | None => Ok (hport, lport)
      end
  end.

(** One more than the number of ports of the range. *)
Definition bind_fuel : nat := S (Z.to_nat (IPPORT_USERRESERVED - IPPORT_RESERVED + 1)).

(** A name from the user: the length of its mbuf, and what the mbuf holds. *)
Record mbuf_nam := Nam { nam_len : Z; nam_sin : sockaddr_in }.
Definition sizeof_sockaddr_in : Z := 16.

(** The error, the block and [head->inp_lport] after [in_pcbbind(inp, nam)]. *)
Definition in_pcbbind (ifaddrs : list in_ifaddr) (head : list inpcb) (hport : Z)
    (uid so_options pr_flags : Z) (inp : inpcb) (nam : option mbuf_nam)
    : outcome (Z * inpcb * Z) :=
  match ifaddrs with
  | [] => Ok (EADDRNOTAVAIL, inp, hport)
  | _ =>
      if nz (inp_lport inp) || nz (inp_laddr inp) then Ok (EINVAL, inp, hport) else
      let noname inp lport :=
        if lport =? 0 then
          let* r := bind_port bind_fuel head hport (inp_laddr inp) in
          Ok (0, inp <| inp_lport := r.2 |>, r.1)
        else Ok (0, inp <| inp_lport := lport |>, hport) in
      match nam with
      | None => noname inp 0
      | Some nam =>
          let sin := nam_sin nam in
          if negb (nam_len nam =? sizeof_sockaddr_in) then Ok (EINVAL, inp, hport) else
          if nz (sin_addr sin) &&
             negb (bool_decide (is_Some
               (ifa_ifwithaddr ifaddrs (SockaddrIn (sin_family sin) 0 (sin_addr sin)))))
          then Ok (EADDRNOTAVAIL, inp, hport)
          else
            let lport := sin_port sin in
            if nz lport then
              if (ntohs lport <? IPPORT_RESERVED) && nz uid then Ok (EACCES, inp, hport)
              else
                let wild := (Z.land so_options SO_REUSEADDR =? 0) &&
                            ((Z.land pr_flags PR_CONNREQUIRED =? 0)
                             || (Z.land so_options SO_ACCEPTCONN =? 0)) in
                match in_pcblookup head 0 0 (sin_addr sin) lport wild with
                | Some _ => Ok (EADDRINUSE, inp, hport)
                | None => noname (inp <| inp_laddr := sin_addr sin |>) lport
                end
            else noname (inp <| inp_laddr := sin_addr sin |>) lport
      end
  end.

(** ** [in_pcbsetaddr], [in_pcbconnect] *)

Section Routing.
Context (rtlookup : Z -> option rtentry).

(** [rtalloc] of a route without an interface. *)
Definition rtalloc (ro : route) : route :=
  match rtlookup (ro_dst ro) with
  | Some rt => Route (Some rt) (ro_dst ro)
  | None => ro
  end.

Definition route_ifp (ro : route) : option ifnet := ro_rt ro ≫= rt_ifp.

(** The destination: [INADDR_ANY] and [INADDR_BROADCAST] stand for addresses
    of the primary interface. *)
Definition setaddr_dst (ifaddrs : list in_ifaddr) (sin : sockaddr_in) : Z :=
  match ifaddrs with
  | [] => sin_addr sin
  | ia :: _ =>
      if sin_addr sin =? INADDR_ANY then sin_addr (ia_addr ia)
      else if (sin_addr sin =? INADDR_BROADCAST) && nz (Z.land (if_flags (ia_ifp ia)) IFF_BROADCAST)
      then sin_addr (ia_broadaddr ia)
      else sin_addr sin
  end.

Definition setaddr_route (so_options : Z) (ro : route) (dst : Z) : route :=
  let ro := match ro_rt ro with
            | Some _ => if negb (ro_dst ro =? dst) then Route None (ro_dst ro) else ro
            | None => ro
            end in
  if (Z.land so_options SO_DONTROUTE =? 0) && negb (bool_decide (is_Some (route_ifp ro)))
  then rtalloc (Route (ro_rt ro) dst)
  else ro.

(** The address of the interface the connection goes out of. *)
Definition setaddr_src (ifaddrs : list in_ifaddr) (ro : route) (sin : sockaddr_in) : option in_ifaddr :=
  let ia := match route_ifp ro with
            | Some ifp =>
                if Z.land (if_flags ifp) IFF_LOOPBACK =? 0
                then snd <$> list_find (fun ia => ia_ifp ia = ifp) ifaddrs
                else None
            | None => None
            end in
  match ia with
  | Some ia => Some ia
  | None =>
      match ifa_ifwithdstaddr ifaddrs sin with
      | Some ia => Some ia
      | None =>
          match in_iaonnetof ifaddrs (in_netof ifaddrs (sin_addr sin)) with
          | Some ia => Some ia
          | None => head ifaddrs
          end
      end
  end.

Definition in_pcbsetaddr (ifaddrs : list in_ifaddr) (hd : list inpcb) (hport : Z)
    (uid so_options pr_flags : Z) (inp : inpcb) (sin : sockaddr_in) : outcome (Z * inpcb * Z) :=
  if negb (sin_family sin =? AF_INET) then Ok (EAFNOSUPPORT, inp, hport)
  else if sin_port sin =? 0 then Ok (EADDRNOTAVAIL, inp, hport)
  else
    let sin := SockaddrIn (sin_family sin) (sin_port sin) (setaddr_dst ifaddrs sin) in
    let finish inp laddr hport :=
      match in_pcblookup hd (sin_addr sin) (sin_port sin) laddr (inp_lport inp) false with
      | Some _ => Ok (EADDRINUSE, inp, hport)
      | None =>
          let* r := if inp_laddr inp =? INADDR_ANY then
                      let* r := if inp_lport inp =? 0
                                then in_pcbbind ifaddrs hd hport uid so_options pr_flags inp None
                                else Ok (0, inp, hport) in
                      Ok (r.1.2 <| inp_laddr := laddr |>, r.2)
                    else Ok (inp, hport) in
          Ok (0, r.1 <| inp_faddr := sin_addr sin |> <| inp_fport := sin_port sin |>, r.2)
      end in
    if inp_laddr inp =? INADDR_ANY then
      let inp := inp <| inp_route := setaddr_route so_options (inp_route inp) (sin_addr sin) |> in
      match setaddr_src ifaddrs (inp_route inp) sin with
      | None => Ok (EADDRNOTAVAIL, inp, hport)
      | Some ia => finish inp (sin_addr (ia_addr ia)) hport
      end
    else finish inp (inp_laddr inp) hport.

Definition in_pcbconnect (ifaddrs : list in_ifaddr) (hd : list inpcb) (hport : Z)
    (uid so_options pr_flags : Z) (inp : inpcb) (nam : mbuf_nam) : outcome (Z * inpcb * Z) :=
  if negb (nam_len nam =? sizeof_sockaddr_in) then Ok (EINVAL, inp, hport)
  else in_pcbsetaddr ifaddrs hd hport uid so_options pr_flags inp (nam_sin nam).

(** [in_pcbdisconnect], but for the detachment of an unreferenced socket. *)
Definition in_pcbdisconnect (inp : inpcb) : inpcb :=
  inp <| inp_faddr := INADDR_ANY |> <| inp_fport := 0 |>.

Definition in_setsockaddr (inp : inpcb) : sockaddr_in :=
  SockaddrIn AF_INET (inp_lport inp) (inp_laddr inp).
Definition in_setpeeraddr (inp : inpcb) : sockaddr_in :=
  SockaddrIn AF_INET (inp_fport inp) (inp_faddr inp).

(** [in_losing] and [in_rtchange] forget the cached route; the deletion of a
    dynamic route from the tables is the routing component's. *)
Definition in_losing (inp : inpcb) : inpcb :=
  match ro_rt (inp_route inp) with
  | Some _ => inp <| inp_route := Route None (ro_dst (inp_route inp)) |>
  | None => inp
  end.
Definition in_rtchange (inp : inpcb) : inpcb :=
  match ro_rt (inp_route inp) with
  | Some _ => inp <| inp_route := Route None (ro_dst (inp_route inp)) |>
  | None => inp
  end.
End Routing.

(** ** The lookup finds the best match *)

Lemma pcb_wildcard_range inp fa fp la lp w : pcb_wildcard inp fa fp la lp = Some w -> 0 <= w <= 2.
Proof. unfold pcb_wildcard. repeat case_match; intros; simplify_eq; lia. Qed.

(** The blocks the lookup may return, with their count of wildcards. *)
Definition pcb_candidate (l : list inpcb) (fa fp la lp : Z) (wildok : bool) (j : nat) (w : Z) : Prop :=
  exists inp, l !! j = Some inp /\ pcb_wildcard inp fa fp la lp = Some w /\ (w = 0 \/ wildok = true).

Definition pcb_best (l : list inpcb) (fa fp la lp : Z) (wildok : bool) (j : nat) (w : Z) : Prop :=
  pcb_candidate l fa fp la lp wildok j w /\
  forall j' w', pcb_candidate l fa fp la lp wildok j' w' -> w <= w' /\ ((j' < j)%nat -> w < w').

Lemma pcblookup_loop_spec l i fa fp la lp wildok best mw :
  let r := pcblookup_loop l i fa fp la lp wildok best mw in
  (r = best /\ forall j w, pcb_candidate l fa fp la lp wildok j w -> mw <= w) \/
  (exists j w, r = Some (i + j)%nat /\ w < mw /\ pcb_best l fa fp la lp wildok j w).
Proof.
  revert i best mw. induction l as [|inp l IH]; intros i best mw; cbn [pcblookup_loop].
  { left. split; [done|]. by intros j w (x & Hx & _). }
  assert (Hskip : forall b m,
    (forall w, pcb_candidate (inp :: l) fa fp la lp wildok 0 w -> m <= w) ->
    let r := pcblookup_loop l (S i) fa fp la lp wildok b m in
    (r = b /\ forall j w, pcb_candidate (inp :: l) fa fp la lp wildok j w -> m <= w) \/
    (exists j w, r = Some (i + j)%nat /\ w < m /\ pcb_best (inp :: l) fa fp la lp wildok j w)).
  { intros b m H0. cbv zeta. destruct (IH (S i) b m) as [[-> H]|(j & w & -> & Hw & Hc & Hb)].
    - left. split; [done|]. intros [|j] w Hc; [by apply H0|by apply (H j)].
    - right. exists (S j), w. split; [f_equal; lia|]. split; [done|]. split; [done|].
      intros [|j'] w' Hc'; [specialize (H0 w' Hc'); lia|]. destruct (Hb j' w' Hc') as [H1 H2].
      split; [done|]. intros; apply H2; lia. }
  destruct (pcb_wildcard inp fa fp la lp) as [w|] eqn:Ew.
  2: { apply Hskip. intros w (x & [= <-] & E & _). congruence. }
  pose proof (pcb_wildcard_range _ _ _ _ _ _ Ew) as Hr.
  destruct (nz w && negb wildok) eqn:En.
  { apply Hskip. intros w' (x & [= <-] & E & Ho). bsimp. unfold nz in *. assert (w' = w) as -> by congruence.
    destruct Ho; [lia|congruence]. }
  assert (Hcand : pcb_candidate (inp :: l) fa fp la lp wildok 0 w).
  { exists inp. split; [done|]. split; [done|]. unfold nz in En. destruct (Z.eqb_spec w 0); [by left|].
    right. by destruct wildok. }
  assert (Huniq : forall w', pcb_candidate (inp :: l) fa fp la lp wildok 0 w' -> w' = w).
  { intros w' (x & [= <-] & E & _). congruence. }
  destruct (Z.ltb_spec w mw) as [Hlt|Hge].
  2: { apply Hskip. intros w' Hc. rewrite (Huniq w' Hc). lia. }
  destruct (Z.eqb_spec w 0) as [->|Hz].
  - right. exists O, 0. split; [f_equal; lia|]. split; [done|]. split; [done|].
    intros j' w' (x & _ & E & _). pose proof (pcb_wildcard_range _ _ _ _ _ _ E). lia.
  - destruct (Hskip (Some i) w) as [[-> H]|(j & w' & -> & Hw & Hb)].
    + intros w' Hc. rewrite (Huniq w' Hc). lia.
    + right. exists O, w. split; [f_equal; lia|]. split; [done|]. split; [done|].
      intros j' w' Hc. split; [by apply (H j')|lia].
    + right. exists j, w'. split; [done|]. split; [lia|done].
Qed.

Lemma in_pcblookup_spec hd fa fp la lp wildok :
  match in_pcblookup hd fa fp la lp wildok with
  | Some j => exists w, pcb_best hd fa fp la lp wildok j w
  | None => forall j w, ~ pcb_candidate hd fa fp la lp wildok j w
  end.
Proof.
  unfold in_pcblookup. destruct (pcblookup_loop_spec hd 0 fa fp la lp wildok None 3) as [[-> H]|(j & w & -> & _ & H)].
  - intros j w Hc. specialize (H j w Hc). destruct Hc as (x & _ & E & _).
    pose proof (pcb_wildcard_range _ _ _ _ _ _ E). lia.
  - by exists w.
Qed.

(** ** The search for a free port *)

Definition port_free (hd : list inpcb) (laddr p : Z) : Prop :=
  in_pcblookup hd 0 0 laddr (htons p) false = None.

Definition port_in_range (p : Z) : Prop := IPPORT_RESERVED <= p <= IPPORT_USERRESERVED.

(** Steps of the search from [h] to [f]. *)
Definition port_dist (h f : Z) : Z :=
  if h <? f then f - h else (IPPORT_USERRESERVED - h) + 1 + (f - IPPORT_RESERVED).

Lemma next_lport_range h : 0 <= h <= IPPORT_USERRESERVED -> port_in_range (next_lport h).
Proof.
  unfold next_lport, port_in_range, IPPORT_RESERVED, IPPORT_USERRESERVED, u16. intros Hh.
  rewrite Z.mod_small by lia. destruct (Z.ltb_spec h 1024), (Z.ltb_spec 5000 (h + 1)); simpl; lia.
Qed.

Lemma bind_port_spec fuel hd h laddr f :
  port_in_range f -> port_free hd laddr f -> port_in_range h ->
  port_dist h f <= Z.of_nat fuel ->
  exists p, bind_port fuel hd h laddr = Ok (p, htons p) /\ port_in_range p /\ port_free hd laddr p.
Proof.
  intros Hf Hfree. revert h. induction fuel as [|fuel IH]; intros h Hh Hd.
  { unfold port_dist, port_in_range, IPPORT_RESERVED, IPPORT_USERRESERVED in *. destruct (Z.ltb_spec h f); lia. }
  cbn [bind_port]. assert (Hn : port_in_range (next_lport h)).
  { apply next_lport_range. unfold port_in_range, IPPORT_RESERVED, IPPORT_USERRESERVED in *. lia. }
  destruct (in_pcblookup hd 0 0 laddr (htons (next_lport h)) false) eqn:E.
  - assert (next_lport h <> f) by (intros Ef; unfold port_free in Hfree; congruence).
    apply IH; [done|]. unfold port_dist, port_in_range, next_lport, IPPORT_RESERVED, IPPORT_USERRESERVED, u16 in *.
    rewrite Z.mod_small in * by lia.
    destruct (Z.ltb_spec h 1024), (Z.ltb_spec 5000 (h + 1)); simpl in *; try lia;
      destruct (Z.ltb_spec h f); try lia; (case_match eqn:E2; bsimp; lia).
  - by exists (next_lport h).
Qed.

(** A block with the same four numbers is found. *)
Lemma pcb_wildcard_same o : pcb_wildcard o (inp_faddr o) (inp_fport o) (inp_laddr o) (inp_lport o) = Some 0.
Proof.
  unfold pcb_wildcard, nz, INADDR_ANY. rewrite !Z.eqb_refl. simpl.
  destruct (Z.eqb_spec (inp_laddr o) 0) as [|]; simpl;
    destruct (Z.eqb_spec (inp_faddr o) 0) as [|]; simpl; done.
Qed.

Definition same_ends (a b : inpcb) : Prop :=
  inp_faddr a = inp_faddr b /\ inp_fport a = inp_fport b /\
  inp_laddr a = inp_laddr b /\ inp_lport a = inp_lport b.

Lemma lookup_none_unique hd i : in_pcblookup hd (inp_faddr i) (inp_fport i) (inp_laddr i) (inp_lport i) false = None ->
  forall o, o ∈ hd -> ~ same_ends o i.
Proof.
  intros E o Ho (H1 & H2 & H3 & H4). apply list_elem_of_lookup in Ho as [j Hj].
  pose proof (in_pcblookup_spec hd (inp_faddr i) (inp_fport i) (inp_laddr i) (inp_lport i) false) as H.
  rewrite E in H. apply (H j 0). exists o. split; [done|]. split; [|by left].
  rewrite <- H1, <- H2, <- H3, <- H4. apply pcb_wildcard_same.
Qed.

(** ** Properties *)

(** [in_pcblookup] returns, of the blocks that match (exactly, or with
    wildcards where they are allowed), the first with the fewest wildcards; it
    returns none exactly when no block matches. *)
Theorem in_pcblookup_correct hd fa fp la lp wildok :
  match in_pcblookup hd fa fp la lp wildok with
  | Some j => exists w, pcb_best hd fa fp la lp wildok j w
  | None => forall j w, ~ pcb_candidate hd fa fp la lp wildok j w
  end.
Proof. apply in_pcblookup_spec. Qed.

(** When some port between 1024 and 5000 is free for the block's address,
    [in_pcbbind] without a name ends, from any position of the port counter,
    with a free port of the range in the block. *)
Theorem in_pcbbind_finds_port ia ifaddrs hd hport uid so_options pr_flags inp f :
  0 <= hport <= IPPORT_USERRESERVED -> inp_lport inp = 0 -> inp_laddr inp = INADDR_ANY ->
  port_in_range f -> port_free hd (inp_laddr inp) f ->
  exists p, in_pcbbind (ia :: ifaddrs) hd hport uid so_options pr_flags inp None
              = Ok (0, inp <| inp_lport := htons p |>, p) /\
            port_in_range p /\ port_free hd (inp_laddr inp) p.
Proof.
  intros Hh Hp Ha Hf Hfree. unfold in_pcbbind. rewrite Hp, Ha. cbn [nz Z.eqb negb orb INADDR_ANY].
  unfold bind_fuel. set (fuel := Z.to_nat _).
  assert (Hfu : Z.of_nat fuel = 3977) by (unfold fuel, IPPORT_USERRESERVED, IPPORT_RESERVED; lia).
  clearbody fuel. cbn [bind_port]. cbv zeta.
  pose proof (next_lport_range hport Hh) as Hn. rewrite Ha in Hfree. unfold INADDR_ANY in *.
  destruct (in_pcblookup hd 0 0 0 (htons (next_lport hport)) false) eqn:E.
  - destruct (bind_port_spec fuel hd (next_lport hport) 0 f) as (p & -> & H1 & H2); [done..| |by exists p].
    unfold port_dist, port_in_range, IPPORT_RESERVED, IPPORT_USERRESERVED in *.
    destruct (Z.ltb_spec (next_lport hport) f); lia.
  - by exists (next_lport hport).
Qed.

(** After [in_pcbconnect] succeeds on a bound block, no other block of the
    chain has the same four addresses and ports, and the block has the
    destination asked for. *)
Theorem in_pcbconnect_unique rtlookup ifaddrs hd hport uid so_options pr_flags inp nam inp' hport' :
  let sin := nam_sin nam in inp_lport inp <> 0 ->
  in_pcbconnect rtlookup ifaddrs hd hport uid so_options pr_flags inp nam = Ok (0, inp', hport') ->
  (forall o, o ∈ hd -> ~ same_ends o inp') /\
  inp_lport inp' = inp_lport inp /\ inp_faddr inp' = setaddr_dst ifaddrs sin /\
  inp_fport inp' = sin_port sin /\ (inp_laddr inp <> INADDR_ANY -> inp_laddr inp' = inp_laddr inp).
Proof.
  intros sin Hl. unfold in_pcbconnect, in_pcbsetaddr. fold sin. destruct (negb (nam_len nam =? _)); [done|].
  destruct (sin_family sin =? AF_INET); [|done].
  destruct (sin_port sin =? 0); [done|]. cbn [negb]. cbv zeta. cbn [Inpcb.inp_lport sin_addr sin_port sin_family].
  assert (El : (inp_lport inp =? 0) = false) by lia.
  destruct (Z.eqb_spec (inp_laddr inp) INADDR_ANY) as [E|E].
  - case_match; [|done]. case_match eqn:Ek; [done|].
    change (inp_laddr (inp <| inp_route := _ |>)) with (inp_laddr inp).
    change (inp_lport (inp <| inp_route := _ |>)) with (inp_lport inp) in *.
    rewrite E, Z.eqb_refl, El. cbn [obind]. intros [= <- <-].
    split; [exact (lookup_none_unique hd (Inpcb _ _ _ _ (Route None 0) None) Ek)|done].
  - case_match eqn:Ek; [done|]. cbn [obind]. intros [= <- <-].
    split; [exact (lookup_none_unique hd (Inpcb _ _ _ _ (Route None 0) None) Ek)|done].
Qed.

(** *** The hypotheses can hold *)

Definition sample_pcb (faddr fport laddr lport : Z) : inpcb :=
  Inpcb faddr fport laddr lport (Route None 0) None.

(** A listener on every address, one on the address, a connection. *)
Definition sample_chain : list inpcb :=
  [sample_pcb 0 0 0 (htons 23); sample_pcb 0 0 7 (htons 23); sample_pcb 9 50 7 (htons 23)].

Example lookup_connection : in_pcblookup sample_chain 9 50 7 (htons 23) true = Some 2%nat.
Proof. reflexivity. Qed.
Example lookup_listener : in_pcblookup sample_chain 9 51 7 (htons 23) true = Some 1%nat.
Proof. reflexivity. Qed.
Example lookup_wild : in_pcblookup sample_chain 9 51 8 (htons 23) true = Some 0%nat.
Proof. reflexivity. Qed.

Lemma in_pcbbind_finds_port_witness :
  exists p, in_pcbbind [sample_ifaddr] sample_chain 5000 1 0 PR_CONNREQUIRED (sample_pcb 0 0 0 0) None
              = Ok (0, (sample_pcb 0 0 0 0) <| inp_lport := htons p |>, p) /\
            port_in_range p /\ port_free sample_chain 0 p.
Proof.
  apply (in_pcbbind_finds_port sample_ifaddr [] sample_chain 5000 1 0 PR_CONNREQUIRED (sample_pcb 0 0 0 0) 1024).
  - by vm_compute.
  - reflexivity.
  - reflexivity.
  - by vm_compute.
  - reflexivity.
Defined.

Lemma in_pcbconnect_unique_witness :
  let r := in_pcbconnect (fun _ => None) [sample_ifaddr] sample_chain 1024 1 0 PR_CONNREQUIRED
             (sample_pcb 0 0 0 (htons 1024)) (Nam 16 (SockaddrIn AF_INET 50 9)) in
  exists inp' hport', r = Ok (0, inp', hport') /\ forall o, o ∈ sample_chain -> ~ same_ends o inp'.
Proof.
  eexists _, _. split; [reflexivity|].
  refine (proj1 (in_pcbconnect_unique (fun _ => None) [sample_ifaddr] sample_chain 1024 1 0 PR_CONNREQUIRED
    (sample_pcb 0 0 0 (htons 1024)) (Nam 16 (SockaddrIn AF_INET 50 9)) _ _ _ _)).
  - by vm_compute.
  - reflexivity.
Defined.
