(* ===== verification/TcpSeq.v ===== *)
(** * Sequence numbers and timer values: [sys/netinet/tcp_seq.h], [tcp_timer.h]

    A [tcp_seq] is an unsigned 32-bit integer; the comparisons look at the sign
    of the 32-bit difference.  The lemmas move between sequence numbers and
    offsets from a base: within half the space the macros order offsets. *)
From S2P Require Import Prelude.

(** ** [tcp_seq.h] *)

Definition SEQ_LT (a b : Z) : bool := s32 (a - b) <? 0.
Definition SEQ_LEQ (a b : Z) : bool := s32 (a - b) <=? 0.
Definition SEQ_GT (a b : Z) : bool := 0 <? s32 (a - b).
Definition SEQ_GEQ (a b : Z) : bool := 0 <=? s32 (a - b).

Definition TCP_ISSINCR : Z := 125 * 1024.

(** [a op b] for two [int]s or [tcp_seq]s, as a [tcp_seq] and as an [int]. *)
Definition seq_add (a n : Z) : Z := u32 (a + n).
Definition seq_int (a b : Z) : Z := s32 (a - b).

(** ** Constants of [tcp_timer.h], with [PR_SLOWHZ] *)

Definition PR_SLOWHZ : Z := 2.
Definition TCPT_NTIMERS : Z := 4.
Definition TCPTV_MSL : Z := 15 * PR_SLOWHZ.
Definition TCPTV_SRTTDFLT : Z := 3 * PR_SLOWHZ.
Definition TCPTV_KEEP : Z := 45 * PR_SLOWHZ.
Definition TCPTV_PERSMIN : Z := 5 * PR_SLOWHZ.
Definition TCPTV_MAXIDLE : Z := 8 * TCPTV_KEEP.
Definition TCPTV_MIN : Z := 1 * PR_SLOWHZ.
Definition TCPTV_MAX : Z := 30 * PR_SLOWHZ.
Definition TCP_LINGERTIME : Z := 120.
Definition TCP_MAXRXTSHIFT : Z := 12.

(** [TCPT_RANGESET]: the value goes through the [short] it is stored in. *)
Definition TCPT_RANGESET (value tvmin tvmax : Z) : Z :=
  let tv := s16 value in
  let tv := if tv <? tvmin then tvmin else tv in
  if tvmax <? tv then tvmax else tv.

(** ** The floating point of the round-trip estimate

    [t_srtt] is a VAX [float] (24 bits of mantissa); the compiler evaluates in
    [double] (56 bits).  A number is [fl_m * 2 ^ fl_e], never negative here;
    [fl_round] keeps the given number of bits and rounds half up.  The range of
    the exponent is not modelled: no value comes near its ends. *)
Record vfloat := Vfloat { fl_m : Z; fl_e : Z }.

Definition fl_round (bits : Z) (x : vfloat) : vfloat :=
  let excess := Z.log2 (fl_m x) + 1 - bits in
  if 0 <? excess
  then Vfloat (Z.shiftr (fl_m x + Z.shiftl 1 (excess - 1)) excess) (fl_e x + excess)
  else x.

Definition fl_of_int (n : Z) : vfloat := Vfloat n 0.
Definition fl_zero (x : vfloat) : bool := fl_m x =? 0.
Definition fl_mul (x y : vfloat) : vfloat :=
  fl_round 56 (Vfloat (fl_m x * fl_m y) (fl_e x + fl_e y)).
(** Both brought to the lower exponent. *)
Definition fl_align (x : vfloat) (e : Z) : Z := Z.shiftl (fl_m x) (fl_e x - e).
Definition fl_add (x y : vfloat) : vfloat :=
  let e := Z.min (fl_e x) (fl_e y) in fl_round 56 (Vfloat (fl_align x e + fl_align y e) e).
Definition fl_sub (x y : vfloat) : vfloat :=
  let e := Z.min (fl_e x) (fl_e y) in fl_round 56 (Vfloat (fl_align x e - fl_align y e) e).
Definition fl_to_int (x : vfloat) : Z := Z.shiftl (fl_m x) (fl_e x).
(** Stored in a [float]. *)
Definition fl_float (x : vfloat) : vfloat := fl_round 24 x.

(** [TCP_ALPHA] is 0.9, as a [float]; [TCP_BETA] is 2.0. *)
Definition tcp_alpha : vfloat := Vfloat 15099494 (-24).
Definition tcp_beta : vfloat := Vfloat 1 1.

(** [tcp_alpha * t_srtt + (1 - tcp_alpha) * t_rtt]. *)
Definition srtt_update (srtt : vfloat) (rtt : Z) : vfloat :=
  if fl_zero srtt then fl_float (fl_of_int rtt)
  else fl_float (fl_add (fl_mul tcp_alpha srtt)
                        (fl_mul (fl_sub (fl_of_int 1) tcp_alpha) (fl_of_int rtt))).

Example srtt_sample : fl_to_int (srtt_update (fl_of_int 100) 50) = 95.
Proof. reflexivity. Qed.

(** ** Offsets *)


Lemma u32_u32 x : u32 (u32 x) = u32 x.
Proof. apply Zmod_mod. Qed.

Lemma u32_add_l x y : u32 (u32 x + y) = u32 (x + y).
Proof. unfold u32. by rewrite Zplus_mod_idemp_l. Qed.

Lemma u32_sub_l x y : u32 (u32 x - y) = u32 (x - y).
Proof. unfold u32. by rewrite Zminus_mod_idemp_l. Qed.

Lemma u32_sub_r x y : u32 (x - u32 y) = u32 (x - y).
Proof. unfold u32. by rewrite Zminus_mod_idemp_r. Qed.

Lemma s32_sub_r x y : s32 (x - u32 y) = s32 (x - y).
Proof. by rewrite <- s32_u32, u32_sub_r, s32_u32. Qed.

Lemma s32_add_sub x n y : s32 (u32 x + n - u32 y) = s32 (x + n - y).
Proof.
  rewrite s32_sub_r. replace (u32 x + n - y) with (u32 x + (n - y)) by lia.
  rewrite <- s32_u32, u32_add_l, s32_u32. f_equal. lia.
Qed.

Lemma s32_sub_u32 x y : s32 (u32 x - u32 y) = s32 (x - y).
Proof. rewrite <- s32_u32. unfold u32. rewrite <- Zminus_mod. apply s32_u32. Qed.

(** The distance between two offsets of a base is their difference. *)
Lemma seq_dist b x y : - 2 ^ 31 <= x - y < 2 ^ 31 -> s32 (u32 (b + x) - u32 (b + y)) = x - y.
Proof. intros H. rewrite s32_sub_u32. rewrite s32_small; lia. Qed.

Lemma seq_dist_l b x : 0 <= b < 2 ^ 32 -> - 2 ^ 31 <= x < 2 ^ 31 -> s32 (u32 (b + x) - b) = x.
Proof. intros Hb H. rewrite <- (u32_small b) at 2 by done. rewrite s32_sub_u32, s32_small; lia. Qed.

Lemma seq_offset a b : 0 <= a < 2 ^ 32 -> 0 <= b < 2 ^ 32 -> a = u32 (b + s32 (a - b)).
Proof.
  intros Ha Hb. rewrite Z.add_comm, <- u32_add_l, u32_s32, u32_add_l.
  rewrite <- (u32_small a) at 1 by done. f_equal. lia.
Qed.

Lemma SEQ_LT_spec a b : SEQ_LT a b = true <-> s32 (a - b) < 0.
Proof. unfold SEQ_LT. lia. Qed.

Lemma TCPT_RANGESET_range v lo hi : lo <= hi -> lo <= TCPT_RANGESET v lo hi <= hi.
Proof.
  intros. unfold TCPT_RANGESET. destruct (Z.ltb_spec (s16 v) lo).
  - destruct (Z.ltb_spec hi lo); lia.
  - destruct (Z.ltb_spec hi (s16 v)); lia.
Qed.
