(* ===== verification/TcpVar.v ===== *)
(** * The TCP control block: [sys/netinet/tcp_var.h], [tcp_subr.c]

    One connection is its [tcpcb], its [inpcb] and its socket, which point at
    each other one to one; the rest of the kernel it touches is a [world]: the
    initial sequence counter, the packets handed to IP, the other control
    blocks of the chain and the queues of the accepting sockets.  Whether an
    allocation or [ip_output] succeeds, what the interfaces and the routing
    tables are, is an [env]. *)
From S2P Require Import Prelude TcpSeq Mbuf Socket In Inpcb.

(** ** Constants: [tcp_fsm.h], [tcp.h], [tcp_var.h] *)

Definition TCPS_CLOSED : Z := 0.
Definition TCPS_LISTEN : Z := 1.
Definition TCPS_SYN_SENT : Z := 2.
Definition TCPS_SYN_RECEIVED : Z := 3.
Definition TCPS_ESTABLISHED : Z := 4.
Definition TCPS_CLOSE_WAIT : Z := 5.
Definition TCPS_FIN_WAIT_1 : Z := 6.
Definition TCPS_CLOSING : Z := 7.
Definition TCPS_LAST_ACK : Z := 8.
Definition TCPS_FIN_WAIT_2 : Z := 9.
Definition TCPS_TIME_WAIT : Z := 10.
Definition TCPS_HAVERCVDSYN (s : Z) : bool := TCPS_SYN_RECEIVED <=? s.
Definition TCPS_HAVERCVDFIN (s : Z) : bool := TCPS_TIME_WAIT <=? s.

Definition TH_FIN : Z := 0x01.
Definition TH_SYN : Z := 0x02.
Definition TH_RST : Z := 0x04.
Definition TH_PUSH : Z := 0x08.
Definition TH_ACK : Z := 0x10.
Definition TH_URG : Z := 0x20.

Definition tcp_outflags (state : Z) : outcome Z :=
  aget [Z.lor TH_RST TH_ACK; 0; TH_SYN; Z.lor TH_SYN TH_ACK; TH_ACK; TH_ACK;
        Z.lor TH_FIN TH_ACK; Z.lor TH_FIN TH_ACK; Z.lor TH_FIN TH_ACK; TH_ACK; TH_ACK] state.

Definition TF_ACKNOW : Z := 0x01.
Definition TF_DELACK : Z := 0x02.
Definition TF_NODELAY : Z := 0x04.
Definition TF_NOOPT : Z := 0x08.
Definition TF_SENTFIN : Z := 0x10.
Definition TCPOOB_HAVEDATA : Z := 0x01.
Definition TCPOOB_HADDATA : Z := 0x02.

Definition TCPOPT_EOL : Z := 0.
Definition TCPOPT_NOP : Z := 1.
Definition TCPOPT_MAXSEG : Z := 2.
Definition IP_MSS : Z := 576.
Definition sizeof_tcphdr : Z := 20.
Definition sizeof_ip : Z := 20.
Definition sizeof_tcpiphdr : Z := sizeof_ip + sizeof_tcphdr.
Definition TCP_MSS : Z := Z.min 512 (IP_MSS - sizeof_tcpiphdr).
Definition TCP_TTL : Z := 30.
Definition MT_HEADER : Z := 2.

Definition ECONNABORTED : Z := 53.
Definition ECONNRESET : Z := 54.
Definition ETIMEDOUT : Z := 60.
Definition ECONNREFUSED : Z := 61.

(** ** Data *)

(** A received segment, its header in host order, [ti_m] the text after it. *)
Record tcpiphdr := Tcpiphdr {
  ti_src : Z; ti_dst : Z; ti_sport : Z; ti_dport : Z; ti_seq : Z; ti_ack : Z; ti_flags : Z;
  ti_len : Z; ti_win : Z; ti_urp : Z; ti_m : chain
}.

#[export] Instance tcpiphdr_settable : Settable tcpiphdr := fun ti =>
  Tcpiphdr (ti_src ti) (ti_dst ti) (ti_sport ti) (ti_dport ti) (ti_seq ti) (ti_ack ti)
    (ti_flags ti) (ti_len ti) (ti_win ti) (ti_urp ti) (ti_m ti).

(** The fields of a template that are not constants. *)
Record template := Template { n_src : Z; n_dst : Z; n_sport : Z; n_dport : Z }.

(** [t_timer[TCPT_REXMT]] to [t_timer[TCPT_2MSL]] are [t_rexmt] to [t_2msl]. *)
Record tcpcb := Tcpcb {
  seg_q : list tcpiphdr; t_state : Z; t_rexmt : Z; t_persist : Z; t_keep : Z; t_2msl : Z;
  t_rxtshift : Z; t_tcpopt : option (list Z); t_maxseg : Z; t_force : bool; t_flags : Z;
  t_template : option template; snd_una : Z; snd_nxt : Z; snd_up : Z; snd_wl1 : Z; snd_wl2 : Z;
  iss : Z; snd_wnd : Z; rcv_wnd : Z; rcv_nxt : Z; rcv_up : Z; irs : Z; rcv_adv : Z; snd_max : Z;
  snd_cwnd : Z; t_idle : Z; t_rtt : Z; max_rcvd : Z; t_rtseq : Z; t_srtt : vfloat;
  max_sndwnd : Z; t_oobflags : Z; t_iobc : Z
}.

#[export] Instance tcpcb_settable : Settable tcpcb := fun tp =>
  Tcpcb (seg_q tp) (t_state tp) (t_rexmt tp) (t_persist tp) (t_keep tp) (t_2msl tp)
    (t_rxtshift tp) (t_tcpopt tp) (t_maxseg tp) (t_force tp) (t_flags tp) (t_template tp)
    (snd_una tp) (snd_nxt tp) (snd_up tp) (snd_wl1 tp) (snd_wl2 tp) (iss tp) (snd_wnd tp)
    (rcv_wnd tp) (rcv_nxt tp) (rcv_up tp) (irs tp) (rcv_adv tp) (snd_max tp) (snd_cwnd tp)
    (t_idle tp) (t_rtt tp) (max_rcvd tp) (t_rtseq tp) (t_srtt tp) (max_sndwnd tp)
    (t_oobflags tp) (t_iobc tp).

(** A packet given to [ip_output]. *)
Record packet := Packet {
  pk_src : Z; pk_dst : Z; pk_sport : Z; pk_dport : Z; pk_seq : Z; pk_ack : Z; pk_off : Z;
  pk_flags : Z; pk_win : Z; pk_urp : Z; pk_opt : list Z; pk_data : list Z; pk_iplen : Z
}.

Record conn := Conn { c_tp : tcpcb; c_inp : inpcb; c_so : socket }.
#[export] Instance conn_settable : Settable conn := fun c => Conn (c_tp c) (c_inp c) (c_so c).

(** [tcp_iss]; the number of allocations tried; the packets sent, the last one
    first; the accepting sockets; the other blocks of [tcb] and its port
    counter. *)
Record world := World {
  w_iss : Z; w_allocs : nat; w_sent : list packet; w_queues : queues; w_pcbs : list inpcb;
  w_lport : Z
}.
#[export] Instance world_settable : Settable world := fun w =>
  World (w_iss w) (w_allocs w) (w_sent w) (w_queues w) (w_pcbs w) (w_lport w).

(** [e_mget k]: the [k]-th allocation succeeds.  [e_ipout k]: the error of
    [ip_output] for the [k]-th packet.  [e_junk]: what an mbuf holds that
    nothing was written to. *)
Record env := Env {
  e_mget : nat -> bool; e_ipout : nat -> Z; e_ifaddrs : list in_ifaddr;
  e_rtlookup : Z -> option rtentry; e_nodelack : bool; e_uid : Z; e_junk : Z
}.

(** Read the fields of assigned records. *)
Ltac tsimp := cbn [set_field seg_q t_state t_rexmt t_persist t_keep t_2msl t_rxtshift t_tcpopt t_maxseg
  t_force t_flags t_template snd_una snd_nxt snd_up snd_wl1 snd_wl2 iss snd_wnd rcv_wnd rcv_nxt rcv_up irs
  rcv_adv snd_max snd_cwnd t_idle t_rtt max_rcvd t_rtseq t_srtt max_sndwnd t_oobflags t_iobc
  ti_src ti_dst ti_sport ti_dport ti_seq ti_ack ti_flags ti_len ti_win ti_urp ti_m
  c_tp c_inp c_so w_iss w_allocs w_sent w_queues w_pcbs w_lport
  so_id so_options so_linger so_state so_pcb so_head so_rcv so_snd so_error so_oobmark
  pk_seq pk_ack pk_flags pk_win pk_data pk_iplen fst snd].
Ltac tsimp_in H := cbn [set_field seg_q t_state t_rexmt t_persist t_keep t_2msl t_rxtshift t_tcpopt t_maxseg
  t_force t_flags t_template snd_una snd_nxt snd_up snd_wl1 snd_wl2 iss snd_wnd rcv_wnd rcv_nxt rcv_up irs
  rcv_adv snd_max snd_cwnd t_idle t_rtt max_rcvd t_rtseq t_srtt max_sndwnd t_oobflags t_iobc
  ti_src ti_dst ti_sport ti_dport ti_seq ti_ack ti_flags ti_len ti_win ti_urp ti_m
  c_tp c_inp c_so w_iss w_allocs w_sent w_queues w_pcbs w_lport
  so_id so_options so_linger so_state so_pcb so_head so_rcv so_snd so_error so_oobmark
  pk_seq pk_ack pk_flags pk_win pk_data pk_iplen fst snd] in H.

(** What a function that returns a [struct tcpcb *] leaves: the connection, or
    a null pointer and the socket, unless that has been freed. *)
Inductive connection := Open (c : conn) | Closed (so : option socket).

(** The [struct tcpcb] [tp] of a connection, changed. *)
Definition on_tp (f : tcpcb -> tcpcb) (c : conn) : conn := c <| c_tp := f (c_tp c) |>.
Definition on_so (f : socket -> socket) (c : conn) : conn := c <| c_so := f (c_so c) |>.

(** ** [tcp_seq.h]: [tcp_rcvseqinit], [tcp_sendseqinit] *)

Definition tcp_rcvseqinit (tp : tcpcb) : tcpcb :=
  tp <| rcv_nxt := seq_add (irs tp) 1 |> <| rcv_adv := seq_add (irs tp) 1 |>.
Definition tcp_sendseqinit (tp : tcpcb) : tcpcb :=
  tp <| snd_una := iss tp |> <| snd_nxt := iss tp |> <| snd_max := iss tp |> <| snd_up := iss tp |>.

Definition tcp_canceltimers (tp : tcpcb) : tcpcb :=
  tp <| t_rexmt := 0 |> <| t_persist := 0 |> <| t_keep := 0 |> <| t_2msl := 0 |>.

Section Subr.
Context (e : env).

(** An mbuf's worth of memory. *)
Definition m_get (w : world) : world * bool :=
  (w <| w_allocs := S (w_allocs w) |>, e_mget e (w_allocs w)).

Definition ip_output (w : world) (p : packet) : world * Z :=
  (w <| w_sent := p :: w_sent w |>, e_ipout e (length (w_sent w))).

(** ** [tcp_template], [tcp_respond] *)

Definition tcp_template (w : world) (c : conn) : world * option template :=
  let inp := c_inp c in
  let n := Template (inp_laddr inp) (inp_faddr inp) (inp_lport inp) (inp_fport inp) in
  match t_template (c_tp c) with
  | Some _ => (w, Some n)
  | None => let '(w, ok) := m_get w in (w, if ok then Some n else None)
  end.

(** The window of a reply. *)
Definition respond_win (c : option conn) : Z :=
  match c with Some c => sbspace (so_rcv (c_so c)) | None => 0 end.

(** With [flags == 0]: a copy of the template, and a byte of garbage. *)
Definition tcp_respond_probe (w : world) (c : conn) (n : template) (ack seq : Z) : world :=
  let '(w, ok) := m_get w in
  if ok then
    (ip_output w (Packet (n_src n) (n_dst n) (n_sport n) (n_dport n) seq ack
      (Z.shiftr sizeof_tcphdr 2) TH_ACK (u16 (respond_win (Some c))) 0 [] [e_junk e]
      (sizeof_tcpiphdr + 1))).1
  else w.

(** With flags: a reply to the segment [ti], in its own mbuf. *)
Definition tcp_respond (w : world) (c : option conn) (ti : tcpiphdr) (ack seq flags : Z) : world :=
  (ip_output w (Packet (ti_dst ti) (ti_src ti) (ti_dport ti) (ti_sport ti) seq ack
    (Z.shiftr sizeof_tcphdr 2) flags (u16 (respond_win c)) 0 [] [] sizeof_tcpiphdr)).1.

(** ** [tcp_mss] *)

(** The route it leaves, and the size.  [mss] may be negative. *)
Definition tcp_mss (inp : inpcb) : inpcb * Z :=
  let inp := match route_ifp (inp_route inp) with
             | Some _ => inp
             | None =>
                 if nz (inp_faddr inp)
                 then inp <| inp_route :=
                        rtalloc (e_rtlookup e) (Route (ro_rt (inp_route inp)) (inp_faddr inp)) |>
                 else inp
             end in
  match route_ifp (inp_route inp) with
  | None => (inp, TCP_MSS)
  | Some ifp =>
      let mss := if_mtu ifp - sizeof_tcpiphdr in
      let mss := if CLBYTES <? mss then Z.land mss (Z.lnot (CLBYTES - 1)) else mss in
      (inp, if in_localaddr (e_ifaddrs e) (inp_faddr inp) then mss else Z.min mss TCP_MSS)
  end.

(** [tp->t_maxseg = MIN(tp->t_maxseg, tcp_mss(tp))], the field 16 bits wide. *)
Definition set_maxseg (c : conn) : conn :=
  let '(inp, mss) := tcp_mss (c_inp c) in
  Conn ((c_tp c) <| t_maxseg := u16 (Z.min (t_maxseg (c_tp c)) mss) |>) inp (c_so c).

(** ** [tcp_newtcpcb], [tcp_close] *)

Definition zero_tcpcb : tcpcb :=
  Tcpcb [] 0 0 0 0 0 0 None 0 false 0 None 0 0 0 0 0 0 0 0 0 0 0 0 0 0 0 0 0 0 (Vfloat 0 0) 0 0 0.

Definition tcp_newtcpcb (w : world) (so : socket) : world * option tcpcb :=
  let '(w, ok) := m_get w in
  (w, if ok then Some (zero_tcpcb <| t_maxseg := TCP_MSS |>
                         <| snd_cwnd := u16 (sbspace (so_snd so)) |>)
      else None).

(** [in_pcbdetach], for a block that goes away with its route and options. *)
Definition in_pcbdetach (w : world) (so : socket) : outcome (world * option socket) :=
  let* r := sofree (w_queues w) (so <| so_pcb := false |>) in
  Ok (w <| w_queues := r.1 |>, r.2).

Definition tcp_close (w : world) (c : conn) : outcome (world * connection) :=
  let* r := in_pcbdetach w (soisdisconnected (c_so c)) in
  Ok (r.1, Closed r.2).

(** [tcp_quench]: the product and the quotient are unsigned. *)
Definition tcp_quench (tp : tcpcb) : tcpcb :=
  tp <| snd_cwnd := u16 (Z.max (Z.quot (u32 (8 * (snd_nxt tp - snd_una tp))) 10) (t_maxseg tp)) |>.
End Subr.
