(* ===== verification/TcpReass.v ===== *)
(** * The TCP sequencing queue: [tcp_reass] of [sys/netinet/tcp_input.c]

    [seg_q] is the queue that hangs off the [tcpcb], in order.  The theorem is
    about the byte stream the peer sends: whatever order, overlap and
    duplication the segments arrive in, the queue stays sorted and disjoint,
    what reaches the socket is the stream itself from the old [rcv_nxt] to the
    new one, and no byte that arrived is lost. *)
From S2P Require Import Prelude TcpSeq Mbuf Socket TcpVar.

(** ** Operations *)

(** The queue before and from the first segment that begins after [ti]. *)
Fixpoint reass_find (q : list tcpiphdr) (seqno : Z) : list tcpiphdr * list tcpiphdr :=
  match q with
  | [] => ([], [])
  | p :: q' =>
      if SEQ_GT (ti_seq p) seqno then ([], q)
      else let '(before, after) := reass_find q' seqno in (p :: before, after)
  end.

(** Trim [n] bytes from the front of a segment. *)
Definition seg_trim (ti : tcpiphdr) (n : Z) : outcome tcpiphdr :=
  let* m := m_adj (ti_m ti) n in
  Ok (ti <| ti_m := m |> <| ti_len := s16 (ti_len ti - n) |> <| ti_seq := seq_add (ti_seq ti) n |>).

(** What the segment before already provides; [None] when it is everything. *)
Definition reass_before (before : list tcpiphdr) (ti : tcpiphdr) : outcome (option tcpiphdr) :=
  match last before with
  | None => Ok (Some ti)
  | Some p =>
      let i := seq_int (ti_seq p + ti_len p) (ti_seq ti) in
      if 0 <? i then
        if ti_len ti <=? i then Ok None
        else let* ti := seg_trim ti i in Ok (Some ti)
      else Ok (Some ti)
  end.

(** The succeeding segments, trimmed or dequeued while they overlap. *)
Fixpoint reass_after (after : list tcpiphdr) (ti : tcpiphdr) : outcome (list tcpiphdr) :=
  match after with
  | [] => Ok []
  | q :: after' =>
      let i := seq_int (ti_seq ti + ti_len ti) (ti_seq q) in
      if i <=? 0 then Ok after
      else if i <? ti_len q then let* q := seg_trim q i in Ok (q :: after')
      else reass_after after' ti
  end.

(** The [do] loop of [present], the first segment being next. *)
Fixpoint reass_present (q : list tcpiphdr) (nxt : Z) (so : socket) (flags : Z)
    : list tcpiphdr * Z * socket * Z :=
  match q with
  | [] => ([], nxt, so, flags)
  | ti :: q' =>
      if ti_seq ti =? nxt then
        let so := if has (so_state so) SS_CANTRCVMORE then so
                  else so <| so_rcv := sbappend (so_rcv so) (ti_m ti) |> in
        reass_present q' (seq_add nxt (ti_len ti)) so (Z.land (ti_flags ti) TH_FIN)
      else (q, nxt, so, flags)
  end.

Definition tcp_present (tp : tcpcb) (so : socket) : tcpcb * socket * Z :=
  if negb (TCPS_HAVERCVDSYN (t_state tp)) then (tp, so, 0) else
  match seg_q tp with
  | [] => (tp, so, 0)
  | ti :: _ =>
      if negb (ti_seq ti =? rcv_nxt tp) then (tp, so, 0)
      else if (t_state tp =? TCPS_SYN_RECEIVED) && nz (ti_len ti) then (tp, so, 0)
      else
        let '(q, nxt, so, flags) := reass_present (seg_q tp) (rcv_nxt tp) so 0 in
        (tp <| seg_q := q |> <| rcv_nxt := nxt |>, sorwakeup so, flags)
  end.

(** [tcp_reass(tp, ti)]; [None] is a null [ti]. *)
Definition tcp_reass (tp : tcpcb) (so : socket) (ti : option tcpiphdr) : outcome (tcpcb * socket * Z) :=
  match ti with
  | None => Ok (tcp_present tp so)
  | Some ti =>
      let '(before, after) := reass_find (seg_q tp) (ti_seq ti) in
      let* r := reass_before before ti in
      match r with
      | None => Ok (tp, so, 0)
      | Some ti =>
          let* after := reass_after after ti in
          Ok (tcp_present (tp <| seg_q := before ++ ti :: after |>) so)
      end
  end.

(** The macro [TCP_REASS], with its inline case. *)
Definition TCP_REASS (tp : tcpcb) (so : socket) (ti : tcpiphdr) : outcome (tcpcb * socket * Z) :=
  if (ti_seq ti =? rcv_nxt tp) && bool_decide (seg_q tp = []) && (t_state tp =? TCPS_ESTABLISHED)
  then Ok (tp <| rcv_nxt := seq_add (rcv_nxt tp) (ti_len ti) |>,
           sorwakeup (so <| so_rcv := sbappend (so_rcv so) (ti_m ti) |>),
           Z.land (ti_flags ti) TH_FIN)
  else tcp_reass tp so (Some ti).

(** ** The stream *)

(** Bytes [a], [a + 1], ... of a stream, [n] of them; positions are unbounded. *)
Definition stream (byte : Z -> Z) (a n : Z) : list Z := byte <$> zrange a n.

Lemma length_zrange a n : zlen (zrange a n) = Z.max 0 n.
Proof. unfold zlen, zrange. rewrite length_fmap, length_seq. lia. Qed.

Lemma zlen_stream byte a n : zlen (stream byte a n) = Z.max 0 n.
Proof. unfold stream, zlen. rewrite length_fmap. apply length_zrange. Qed.

Lemma zrange_app a n m : 0 <= n -> 0 <= m -> zrange a (n + m) = zrange a n ++ zrange (a + n) m.
Proof.
  intros. unfold zrange. rewrite Z2Nat.inj_add by lia. rewrite seq_app, fmap_app. f_equal.
  rewrite Nat.add_0_l, <- (Nat.add_0_r (Z.to_nat n)) at 1. rewrite <- fmap_add_seq, <- list_fmap_compose.
  apply list_fmap_ext. intros i x _. simpl. lia.
Qed.

Lemma stream_app byte a n m : 0 <= n -> 0 <= m ->
  stream byte a (n + m) = stream byte a n ++ stream byte (a + n) m.
Proof. intros. unfold stream. by rewrite zrange_app, fmap_app. Qed.

Lemma drop_stream byte a n i : 0 <= i <= n -> drop (Z.to_nat i) (stream byte a n) = stream byte (a + i) (n - i).
Proof.
  intros. replace n with (i + (n - i)) at 1 by lia. rewrite stream_app by lia.
  rewrite drop_app_z; rewrite zlen_stream; [|lia]. replace (Z.to_nat (i - Z.max 0 i)) with O by lia. done.
Qed.

(** A segment carries the stream from position [a]. *)
Definition seg_at (byte : Z -> Z) (a : Z) (ti : tcpiphdr) : Prop :=
  ti_seq ti = u32 a /\ 0 <= ti_len ti < 2 ^ 15 /\ chain_data (ti_m ti) = stream byte a (ti_len ti).

(** A queue between the positions [lo] and [hi]: sorted, disjoint, true to the
    stream. *)
Fixpoint queue_at (byte : Z -> Z) (lo hi : Z) (q : list tcpiphdr) : Prop :=
  match q with
  | [] => lo <= hi
  | ti :: q' => exists a, lo <= a /\ seg_at byte a ti /\ queue_at byte (a + ti_len ti) hi q'
  end.

(** The queue holds the byte at position [x]. *)
Definition covered (q : list tcpiphdr) (x : Z) : Prop :=
  exists ti, ti ∈ q /\ 0 <= s32 (x - ti_seq ti) < ti_len ti.

Definition queue_cost (q : list tcpiphdr) : Z := foldr (fun ti n => chain_cost (ti_m ti) + n) 0 q.

(** Positions of a connection are within this of each other. *)
Definition WINDOW : Z := 2 ^ 30.

Lemma queue_at_le byte lo hi q : queue_at byte lo hi q -> lo <= hi.
Proof.
  revert lo. induction q as [|ti q IH]; intros lo; [done|]. intros (a & Ha & (_ & Hl & _) & Hq).
  specialize (IH _ Hq). lia.
Qed.

Lemma queue_at_weaken byte lo lo' hi q : lo' <= lo -> queue_at byte lo hi q -> queue_at byte lo' hi q.
Proof. destruct q as [|ti q]; simpl; [lia|]. intros ? (a & ? & ?). exists a. split; [lia|done]. Qed.

Lemma seg_int byte a ti x : seg_at byte a ti -> - 2 ^ 31 <= x - a < 2 ^ 31 -> s32 (x - ti_seq ti) = x - a.
Proof.
  intros (-> & _) H. rewrite s32_sub_r. by apply s32_small.
Qed.

(** ** Trimming *)

Lemma m_adj_cost c len c' : m_adj c len = Ok c' -> 0 <= len -> chain_cost c' = chain_cost c.
Proof.
  unfold m_adj. intros E Hl. destruct (last c); [|by injection E as <-].
  destruct (Z.leb_spec 0 len); [|lia]. injection E as <-. clear. revert len.
  induction c as [|m c IH]; intros len; cbn [m_adj_front]; [done|].
  destruct (0 <? len); [|done]. destruct (m_len m <=? len); simpl.
  - by rewrite IH.
  - f_equal. unfold m_cost, m_ext. simpl. by destruct (m_loc m).
Qed.

Lemma seg_trim_spec byte a ti n : seg_at byte a ti -> 0 <= n <= ti_len ti ->
  exists ti', seg_trim ti n = Ok ti' /\ seg_at byte (a + n) ti' /\ ti_len ti' = ti_len ti - n /\
    ti_flags ti' = ti_flags ti /\ chain_cost (ti_m ti') = chain_cost (ti_m ti).
Proof.
  intros (Hs & Hl & Hd) Hn. unfold seg_trim.
  destruct (m_adj_spec (ti_m ti) n) as (m & E & _ & Hm); [pose proof (chain_len_nonneg (ti_m ti)); lia|].
  rewrite E. cbn [obind]. eexists. split; [done|]. unfold seg_at.
  cbn [set_field ti_len ti_seq ti_m ti_flags]. 
  assert (E16 : s16 (ti_len ti - n) = ti_len ti - n) by (unfold s16; rewrite Z.mod_small; lia).
  rewrite E16. split; [|split; [done|split; [done|]]].
  - split; [unfold seq_add; rewrite Hs; apply u32_add_l|]. split; [lia|].
    destruct (Z.leb_spec 0 n); [|lia]. rewrite Hm, Hd. by apply drop_stream.
  - eapply m_adj_cost; [exact E|lia].
Qed.

(** ** Queues *)

Lemma queue_at_app byte lo hi q1 q2 :
  queue_at byte lo hi (q1 ++ q2) <-> exists mid, queue_at byte lo mid q1 /\ queue_at byte mid hi q2.
Proof.
  revert lo. induction q1 as [|ti q1 IH]; intros lo; cbn [app queue_at].
  - split; [intros; by exists lo|]. intros (mid & ? & ?). by apply (queue_at_weaken _ mid).
  - split.
    + intros (a & ? & ? & Hq). apply IH in Hq as (mid & ? & ?). exists mid. split; [by exists a|done].
    + intros (mid & (a & ? & ? & ?) & ?). exists a. split; [done|]. split; [done|]. apply IH. by exists mid.
Qed.

Lemma covered_nil x : ~ covered [] x.
Proof. intros (ti & H & _). by apply elem_of_nil in H. Qed.

Lemma covered_cons ti q x : covered (ti :: q) x <-> 0 <= s32 (x - ti_seq ti) < ti_len ti \/ covered q x.
Proof.
  split.
  - intros (t & [->|H]%elem_of_cons & Hx); [by left|]. right. by exists t.
  - intros [Hx|(t & H & Hx)]; [exists ti|exists t]; (split; [|done]); apply elem_of_cons; auto.
Qed.

Lemma covered_app q1 q2 x : covered (q1 ++ q2) x <-> covered q1 x \/ covered q2 x.
Proof.
  split.
  - intros (t & [H|H]%elem_of_app & Hx); [left|right]; by exists t.
  - intros [(t & H & Hx)|(t & H & Hx)]; exists t; (split; [|done]); apply elem_of_app; auto.
Qed.

Lemma covered_seg byte a ti q x : seg_at byte a ti -> - 2 ^ 31 <= x - a < 2 ^ 31 ->
  covered (ti :: q) x <-> a <= x < a + ti_len ti \/ covered q x.
Proof. intros Hs Hx. rewrite covered_cons, (seg_int byte a) by done. intuition lia. Qed.

(** ** The position of a new segment *)

Lemma reass_find_spec byte lo hi q a :
  queue_at byte lo hi q -> hi - lo <= WINDOW -> lo - WINDOW < a < hi ->
  let r := reass_find q (u32 a) in
  q = r.1 ++ r.2 /\
  exists mid, queue_at byte lo mid r.1 /\ queue_at byte (Z.max mid (a + 1)) hi r.2 /\
    (r.1 = [] /\ mid = lo \/
     exists l p b, r.1 = l ++ [p] /\ lo <= b <= a /\ seg_at byte b p /\ mid = b + ti_len p).
Proof.
  unfold WINDOW in *. revert lo. induction q as [|p q IH]; intros lo Hq Hw Ha; cbn [reass_find].
  { split; [done|]. exists lo. simpl in *. split; [lia|]. split; [lia|]. by left. }
  destruct Hq as (b & Hb & Hseg & Hq). pose proof (queue_at_le _ _ _ _ Hq) as Hle.
  pose proof Hseg as (Es & Hl & _). unfold SEQ_GT. rewrite Es, s32_sub_u32, s32_small by lia.
  destruct (Z.ltb_spec 0 (b - a)) as [Hgt|Hba].
  - split; [done|]. exists lo. simpl. split; [lia|]. split; [exists b; split; [lia|done]|]. by left.
  - specialize (IH _ Hq ltac:(lia) ltac:(lia)). destruct (reass_find q (u32 a)) as [q1 q2]. simpl in *.
    destruct IH as (-> & mid & H1 & H2 & H3). split; [done|]. exists mid.
    split; [by exists b|]. split; [done|]. right. destruct H3 as [[-> ->]|(l & p' & b' & -> & ? & ? & ?)].
    + exists [], p, b. split; [done|]. split; [lia|done].
    + exists (p :: l), p', b'. split; [done|]. split; [lia|done].
Qed.

(** What the segment before leaves of the new one begins at the end of it. *)
Lemma reass_before_spec byte lo mid hi q1 a ti :
  queue_at byte lo mid q1 ->
  (q1 = [] /\ mid = lo \/
   exists l p b, q1 = l ++ [p] /\ lo <= b <= a /\ seg_at byte b p /\ mid = b + ti_len p) ->
  seg_at byte a ti -> lo <= a -> a + ti_len ti <= hi -> mid <= hi -> hi - lo <= WINDOW ->
  exists r, reass_before q1 ti = Ok r /\
    match r with
    | None => forall x, a <= x < a + ti_len ti -> covered q1 x
    | Some ti' => exists a', a' = Z.max a mid /\ seg_at byte a' ti' /\ a' + ti_len ti' = a + ti_len ti /\
                    ti_flags ti' = ti_flags ti /\ chain_cost (ti_m ti') = chain_cost (ti_m ti) /\
                    (forall x, a <= x < a' -> covered q1 x)
    end.
Proof.
  unfold WINDOW. intros Hq Hlast Hseg Ha Hhi Hm Hw. unfold reass_before.
  destruct Hlast as [[-> ->]|(l & p & b & -> & Hb & Hp & Em)].
  { simpl. eexists. split; [done|]. exists a. split; [lia|]. split; [done|]. do 3 (split; [done|]). lia. }
  assert (Hcov : forall x, a <= x < mid -> covered (l ++ [p]) x).
  { intros x Hx. apply covered_app. right. rewrite (covered_seg byte b) by (done || lia). left. lia. }
  rewrite last_snoc. pose proof Hp as (Ep & Hlp & _). pose proof Hseg as (Es & Hls & _).
  unfold seq_int. rewrite Ep, Es.
  replace (s32 (u32 b + ti_len p - u32 a)) with (mid - a).
  2: { rewrite s32_add_sub, s32_small; lia. }
  destruct (Z.ltb_spec 0 (mid - a)) as [Hi|Hi].
  - destruct (Z.leb_spec (ti_len ti) (mid - a)) as [Hc|Hc].
    + eexists. split; [done|]. intros x Hx. apply Hcov. lia.
    + destruct (seg_trim_spec byte a ti (mid - a) Hseg) as (ti' & -> & S' & L' & F' & C'); [lia|].
      cbn [obind]. eexists. split; [done|]. exists mid. split; [lia|].
      replace (a + (mid - a)) with mid in S' by lia. split; [done|]. split; [lia|]. done.
  - eexists. split; [done|]. exists a. split; [lia|]. split; [done|]. do 3 (split; [done|]). lia.
Qed.

(** The sequence number after a segment. *)
Definition seg_end (ti : tcpiphdr) : Z := u32 (ti_seq ti + ti_len ti).

Lemma seg_end_at byte a ti : seg_at byte a ti -> seg_end ti = u32 (a + ti_len ti).
Proof. intros (E & _). unfold seg_end. by rewrite E, u32_add_l. Qed.

(** The segments after give way to the new one. *)
Lemma reass_after_spec byte lo hi q a ti :
  queue_at byte lo hi q -> seg_at byte a ti -> a <= lo -> a + ti_len ti <= hi -> hi - a <= WINDOW ->
  exists q', reass_after q ti = Ok q' /\ queue_at byte (a + ti_len ti) hi q' /\
    queue_cost q' <= queue_cost q /\
    (forall t, t ∈ q' -> exists t0, t0 ∈ q /\ ti_flags t = ti_flags t0 /\ seg_end t = seg_end t0) /\
    (forall x, hi - WINDOW <= x < hi -> a <= x < a + ti_len ti \/ covered q' x <-> a <= x < a + ti_len ti \/ covered q x).
Proof.
  unfold WINDOW. intros Hq Hseg Ha Hhi Hw. pose proof Hseg as (Es & Hl & _). revert lo Hq Ha.
  induction q as [|p q IH]; intros lo Hq Ha; cbn [reass_after].
  { exists []. split; [done|]. split; [done|]. split; [done|]. split; [|done]. by intros t ?%elem_of_nil. }
  destruct Hq as (b & Hb & Hp & Hq). pose proof (queue_at_le _ _ _ _ Hq) as Hle.
  pose proof Hp as (Ep & Hlp & _). unfold seq_int. rewrite Es, Ep.
  replace (s32 (u32 a + ti_len ti - u32 b)) with (a + ti_len ti - b).
  2: { rewrite s32_add_sub, s32_small; lia. }
  destruct (Z.leb_spec (a + ti_len ti - b) 0) as [Hi|Hi].
  { exists (p :: q). split; [done|]. split; [exists b; split; [lia|done]|]. split; [done|].
    split; [|done]. intros t Ht. by exists t. }
  destruct (Z.ltb_spec (a + ti_len ti - b) (ti_len p)) as [Hc|Hc].
  - destruct (seg_trim_spec byte b p (a + ti_len ti - b) Hp) as (p' & -> & S' & L' & F' & C'); [lia|].
    cbn [obind]. exists (p' :: q). split; [done|]. replace (b + (a + ti_len ti - b)) with (a + ti_len ti) in S' by lia.
    split; [|split].
    + exists (a + ti_len ti). split; [lia|]. split; [done|].
      replace (a + ti_len ti + ti_len p') with (b + ti_len p) by lia. done.
    + simpl. lia.
    + split.
      { intros t [->|Ht]%elem_of_cons; [|exists t; split; [apply elem_of_cons; by right|done]].
        exists p. split; [apply elem_of_cons; by left|]. split; [done|].
        rewrite (seg_end_at _ _ _ S'), (seg_end_at _ _ _ Hp). f_equal. lia. }
      intros x Hx. rewrite (covered_seg byte (a + ti_len ti)), (covered_seg byte b) by (done || lia). intuition lia.
  - destruct (IH _ Hq ltac:(lia)) as (q' & -> & H1 & H2 & H4 & H3). exists q'. split; [done|]. split; [done|].
    split; [pose proof (chain_cost_nonneg (ti_m p)); simpl; lia|].
    split; [intros t (t0 & ? & ?)%H4; exists t0; split; [apply elem_of_cons; by right|done]|].
    intros x Hx. rewrite (H3 x Hx), (covered_seg byte b p) by (done || lia). intuition lia.
Qed.

(** ** Presenting data to the user *)

(** Room in the 16-bit counts of the receive buffer for what may be appended. *)
Definition rcv_room (so : socket) (n cost : Z) : Prop :=
  sb_ok (so_rcv so) /\ sb_cc (so_rcv so) + n < 2 ^ 16 /\ sb_mbcnt (so_rcv so) + cost < 2 ^ 16.

(** The socket after [n] more bytes of the stream from [P] came in. *)
Definition delivered (byte : Z -> Z) (P n : Z) (so so' : socket) : Prop :=
  so' = so <| so_rcv := so_rcv so' |> /\ sb_ok (so_rcv so') /\
  sb_bytes (so_rcv so') =
    sb_bytes (so_rcv so) ++ (if has (so_state so) SS_CANTRCVMORE then [] else stream byte P n).

Lemma delivered_refl byte P so : sb_ok (so_rcv so) -> delivered byte P 0 so so.
Proof.
  intros H. split; [by destruct so|]. split; [done|]. destruct (has _ _); by rewrite ?app_nil_r.
Qed.

Lemma has_state_rcv so sb b : has (so_state (so <| so_rcv := sb |>)) b = has (so_state so) b.
Proof. done. Qed.

(** One segment appended, or freed when nobody reads any more. *)
Lemma deliver_one byte P n so m cost :
  rcv_room so (n + zlen (chain_data m)) (chain_cost m + cost) -> 0 <= n -> 0 <= cost ->
  chain_data m = stream byte P (zlen (chain_data m)) ->
  let so' := if has (so_state so) SS_CANTRCVMORE then so
             else so <| so_rcv := sbappend (so_rcv so) m |> in
  rcv_room so' n cost /\ delivered byte P (zlen (chain_data m)) so so'.
Proof.
  intros (Hok & Hc & Hm) Hn Hcost Hd. pose proof (zlen_nonneg (chain_data m)). pose proof (chain_cost_nonneg m).
  destruct (has (so_state so) SS_CANTRCVMORE) eqn:E; cbv zeta.
  - split; [split; [done|lia]|]. split; [by destruct so|]. split; [done|]. by rewrite E, app_nil_r.
  - destruct (sbappend_spec (so_rcv so) m Hok) as (O & B & _ & C & M); [unfold chain_len; lia|lia|].
    unfold chain_len in C. split; [split; [exact O|]; cbn [set_field so_rcv]; lia|].
    split; [done|]. split; [exact O|]. cbn [set_field so_rcv]. rewrite E, B. by rewrite Hd at 1.
Qed.

Lemma delivered_trans byte P n m so so1 so2 : 0 <= n -> 0 <= m ->
  delivered byte P n so so1 -> delivered byte (P + n) m so1 so2 -> delivered byte P (n + m) so so2.
Proof.
  intros Hn Hm (E1 & O1 & B1) (E2 & O2 & B2). split; [rewrite E2, E1; done|]. split; [done|].
  rewrite B2, B1, <- app_assoc. f_equal. rewrite E1, has_state_rcv.
  destruct (has (so_state so) SS_CANTRCVMORE); [done|]. by rewrite stream_app.
Qed.

Lemma reass_present_spec byte P hi q so f :
  queue_at byte P hi q -> hi - P <= WINDOW -> rcv_room so (hi - P) (queue_cost q) ->
  exists P' q' so' f', reass_present q (u32 P) so f = (q', u32 P', so', f') /\
    P <= P' /\ queue_at byte P' hi q' /\ delivered byte P (P' - P) so so' /\
    rcv_room so' (hi - P') (queue_cost q') /\
    (forall x, P <= x < hi -> covered q x <-> P <= x < P' \/ covered q' x) /\
    match q' with [] => True | ti :: _ => ti_seq ti <> u32 P' end /\
    (P' = P /\ q' = q /\ f' = f \/ exists ti a, ti ∈ q /\ seg_at byte a ti /\ a + ti_len ti = P' /\
                                  f' = Z.land (ti_flags ti) TH_FIN).
Proof.
  unfold WINDOW. intros Hq Hw Hroom. revert P Hq Hw so f Hroom. induction q as [|ti q IH]; intros P Hq Hw so f Hroom;
    cbn [reass_present].
  { exists P, [], so, f. rewrite Z.sub_diag. split; [done|]. split; [lia|]. split; [done|].
    split; [by apply delivered_refl, Hroom|]. split; [done|]. split; [|split; [done|by left]].
    intros x Hx. pose proof (covered_nil x). intuition lia. }
  pose proof Hq as (a & Ha & Hseg & Hq'). pose proof (queue_at_le _ _ _ _ Hq') as Hle.
  pose proof Hseg as (Es & Hl & Hd). destruct (Z.eqb_spec (ti_seq ti) (u32 P)) as [E|E].
  2: { exists P, (ti :: q), so, f. rewrite Z.sub_diag. split; [done|]. split; [lia|]. split; [done|].
       split; [by apply delivered_refl, Hroom|]. split; [done|]. split; [|split; [done|by left]].
       intros x Hx. intuition lia. }
  assert (a = P) as ->.
  { assert (s32 (ti_seq ti - u32 P) = 0) as E0 by (rewrite E, Z.sub_diag; done).
    rewrite Es, s32_sub_u32, s32_small in E0; lia. }
  assert (Hz : zlen (chain_data (ti_m ti)) = ti_len ti) by (rewrite Hd, zlen_stream; lia).
  assert (Hqc : 0 <= queue_cost q).
  { clear. induction q as [|t q IHq]; simpl; [lia|]. pose proof (chain_cost_nonneg (ti_m t)). lia. }
  destruct (deliver_one byte P (hi - (P + ti_len ti)) so (ti_m ti) (queue_cost q)) as [R1 D1].
  { rewrite Hz. replace (hi - (P + ti_len ti) + ti_len ti) with (hi - P) by lia. exact Hroom. }
  { lia. } { done. } { by rewrite Hz. }
  set (so1 := if has _ _ then _ else _) in *. rewrite Hz in D1.
  unfold seq_add. rewrite u32_add_l.
  destruct (IH _ Hq' ltac:(lia) so1 (Z.land (ti_flags ti) TH_FIN) R1)
    as (P' & q' & so' & f' & -> & H1 & H2 & H3 & H4 & H5 & H6 & H7).
  exists P', q', so', f'. split; [done|]. split; [lia|]. split; [done|].
  split; [replace (P' - P) with (ti_len ti + (P' - (P + ti_len ti))) by lia; apply (delivered_trans _ _ _ _ _ so1); (done || lia)|].
  split; [done|]. split.
  - intros x Hx. rewrite (covered_seg byte P ti) by (done || lia).
    destruct (Z.lt_ge_cases x (P + ti_len ti)).
    + intuition lia.
    + rewrite (H5 x) by lia. intuition lia.
  - split; [done|]. right. destruct H7 as [(-> & -> & ->)|(t & a & ? & ? & ? & ?)].
    + exists ti, P. split; [apply elem_of_cons; by left|]. split; [done|done].
    + exists t, a. split; [apply elem_of_cons; by right|done].
Qed.

(** [tcp_present] on a queue that begins at [rcv_nxt]; it waits for the
    handshake, and in SYN_RECEIVED takes nothing but an empty first segment. *)
Definition may_present (tp : tcpcb) : bool :=
  TCPS_HAVERCVDSYN (t_state tp) &&
  negb ((t_state tp =? TCPS_SYN_RECEIVED) && match seg_q tp with ti :: _ => nz (ti_len ti) | [] => false end).

Definition reassembled (byte : Z -> Z) (P hi : Z) (tp tp' : tcpcb) (so so' : socket) (fin : Z) : Prop :=
  exists P', rcv_nxt tp' = u32 P' /\ P <= P' /\ queue_at byte P' hi (seg_q tp') /\
    tp' = tp <| seg_q := seg_q tp' |> <| rcv_nxt := u32 P' |> /\
    (exists so1, delivered byte P (P' - P) so so1 /\ (so' = so1 \/ so' = sorwakeup so1)) /\
    (forall x, P <= x < hi -> covered (seg_q tp) x <-> P <= x < P' \/ covered (seg_q tp') x) /\
    (may_present tp = true ->
       match seg_q tp' with [] => True | ti :: _ => ti_seq ti <> rcv_nxt tp' end) /\
    (fin = 0 \/ exists ti a, ti ∈ seg_q tp /\ seg_at byte a ti /\ a + ti_len ti = P' /\
                   fin = Z.land (ti_flags ti) TH_FIN).

Lemma tcp_present_spec byte P hi tp so :
  queue_at byte P hi (seg_q tp) -> rcv_nxt tp = u32 P -> hi - P <= WINDOW ->
  rcv_room so (hi - P) (queue_cost (seg_q tp)) ->
  let '(tp', so', fin) := tcp_present tp so in reassembled byte P hi tp tp' so so' fin.
Proof.
  intros Hq Hn Hw Hroom. unfold tcp_present.
  assert (Hnone : (may_present tp = true ->
            match seg_q tp with [] => True | ti :: _ => ti_seq ti <> rcv_nxt tp end) ->
            reassembled byte P hi tp tp so so 0).
  { intros Hh. exists P. split; [done|]. split; [lia|]. split; [done|].
    split; [rewrite <- Hn; by destruct tp|]. split.
    { exists so. rewrite Z.sub_diag. split; [by apply delivered_refl, Hroom|by left]. }
    split; [|split; [done|by left]]. intros x Hx. intuition lia. }
  unfold may_present in *. destruct (TCPS_HAVERCVDSYN _) eqn:Es; cbn [negb andb] in *; [|by apply Hnone].
  destruct (seg_q tp) as [|ti q] eqn:Eq; [by apply Hnone|].
  destruct (Z.eqb_spec (ti_seq ti) (rcv_nxt tp)) as [E|E]; cbn [negb]; [|by apply Hnone].
  destruct (_ && _) eqn:Ee; [by apply Hnone|]. rewrite Hn.
  destruct (reass_present_spec byte P hi (ti :: q) so 0 Hq Hw Hroom)
    as (P' & q' & so' & f' & -> & H1 & H2 & H3 & H4 & H5 & H6 & H7).
  exists P'. cbn [set_field seg_q rcv_nxt]. split; [done|]. split; [done|]. split; [done|]. split; [done|].
  split; [exists so'; split; [done|by right]|]. rewrite Eq. split; [done|]. split; [done|].
  destruct H7 as [(_ & _ & ->)|H7]; [by left|by right].
Qed.

Lemma queue_cost_app q1 q2 : queue_cost (q1 ++ q2) = queue_cost q1 + queue_cost q2.
Proof. induction q1 as [|t q1 IH]; simpl; [done|]. rewrite IH. lia. Qed.

Lemma queue_cost_nonneg q : 0 <= queue_cost q.
Proof. induction q as [|t q IH]; simpl; [lia|]. pose proof (chain_cost_nonneg (ti_m t)). lia. Qed.

Lemma fin_flags t : nz (Z.land (ti_flags t) TH_FIN) = true -> Z.land (ti_flags t) TH_FIN = TH_FIN.
Proof.
  unfold nz, TH_FIN. change 1 with (Z.ones 1). rewrite Z.land_ones by lia. change (2 ^ 1) with 2.
  pose proof (Z.mod_pos_bound (ti_flags t) 2). change (Z.ones 1) with 1. lia.
Qed.

(** The queue with the new segment in it, before presenting. *)
Lemma tcp_reass_queued byte P hi a tp so ti :
  queue_at byte P hi (seg_q tp) -> hi - P <= WINDOW ->
  seg_at byte a ti -> P <= a -> a + ti_len ti < hi ->
  (tcp_reass tp so (Some ti) = Ok (tp, so, 0) /\ forall x, a <= x < a + ti_len ti -> covered (seg_q tp) x) \/
  exists q, tcp_reass tp so (Some ti) = Ok (tcp_present (tp <| seg_q := q |>) so) /\
    queue_at byte P hi q /\ queue_cost q <= queue_cost (seg_q tp) + chain_cost (ti_m ti) /\
    (forall x, P <= x < hi -> covered q x <-> covered (seg_q tp) x \/ a <= x < a + ti_len ti) /\
    (forall t, t ∈ q -> exists t0, (t0 = ti \/ t0 ∈ seg_q tp) /\ ti_flags t = ti_flags t0 /\ seg_end t = seg_end t0).
Proof.
  intros Hq Hw Hseg Ha Hhi. pose proof Hseg as (Es & Hl & _). unfold tcp_reass, WINDOW in *.
  destruct (reass_find_spec byte P hi (seg_q tp) a) as (Eq & mid & Q1 & Q2 & Hlast); [done|done|unfold WINDOW; lia|].
  rewrite Es. destruct (reass_find (seg_q tp) (u32 a)) as [q1 q2]. cbn [fst snd] in *.
  pose proof (queue_at_le _ _ _ _ Q1). pose proof (queue_at_le _ _ _ _ Q2).
  destruct (reass_before_spec byte P mid hi q1 a ti) as (r & -> & Hr); [done..|lia|lia|done|]. cbn [obind].
  destruct r as [ti'|].
  2: { left. split; [done|]. intros x Hx. rewrite Eq. apply covered_app. left. by apply Hr. }
  right. destruct Hr as (a' & Ea' & S' & L' & F' & C' & Hcov).
  destruct (reass_after_spec byte (Z.max mid (a + 1)) hi q2 a' ti') as (q2' & -> & Q2' & C2 & M2 & Cov2);
    [done|done|lia|lia|unfold WINDOW; lia|]. cbn [obind].
  exists (q1 ++ ti' :: q2'). split; [done|]. split.
  { apply queue_at_app. exists mid. split; [done|]. exists a'. split; [lia|]. split; [done|].
    done. }
  split; [rewrite Eq, !queue_cost_app; simpl; lia|]. split.
  - intros x Hx. rewrite Eq, !covered_app. rewrite (covered_seg byte a' ti') by (done || lia).
    specialize (Cov2 x ltac:(unfold WINDOW; lia)). rewrite L' in *.
    assert (Hx1 : a <= x < a' -> covered q1 x) by apply Hcov. clear - Cov2 Hx1 Ea' Hl. destruct (Z.lt_ge_cases x a'); intuition lia.
  - intros t [Ht|[->|Ht]%elem_of_cons]%elem_of_app.
    + exists t. split; [right; rewrite Eq; apply elem_of_app; by left|done].
    + exists ti. split; [by left|]. split; [done|]. rewrite (seg_end_at _ _ _ S'), (seg_end_at _ _ _ Hseg).
      f_equal. lia.
    + destruct (M2 t Ht) as (t0 & ? & ?). exists t0. split; [right; rewrite Eq; apply elem_of_app; by right|done].
Qed.

(** ** Properties *)

(** C1: [tcp_reass] of a segment that lies in the window, on a sorted queue of
    segments of the stream: it never fails; the queue stays sorted, disjoint and
    true to the stream; the bytes given to the socket are the stream's, from the
    old [rcv_nxt] to the new one, each once and in order; every byte of the
    segment and of the queue is delivered or still queued; and a FIN is
    reported only when everything up to the end of its segment is delivered. *)
Theorem tcp_reass_correct byte P hi a tp so ti :
  queue_at byte P hi (seg_q tp) -> rcv_nxt tp = u32 P -> hi - P <= WINDOW ->
  seg_at byte a ti -> P <= a -> a + ti_len ti < hi ->
  rcv_room so (hi - P) (queue_cost (seg_q tp) + chain_cost (ti_m ti)) ->
  exists tp' so' fin P', tcp_reass tp so (Some ti) = Ok (tp', so', fin) /\
    rcv_nxt tp' = u32 P' /\ P <= P' /\ queue_at byte P' hi (seg_q tp') /\
    (exists so1, delivered byte P (P' - P) so so1 /\ (so' = so1 \/ so' = sorwakeup so1)) /\
    (forall x, P <= x < hi ->
       covered (seg_q tp) x \/ a <= x < a + ti_len ti <-> P <= x < P' \/ covered (seg_q tp') x) /\
    (nz fin = true -> exists t, (t = ti \/ t ∈ seg_q tp) /\ has (ti_flags t) TH_FIN = true /\
                                seg_end t = u32 P').
Proof.
  intros Hq Hn Hw Hseg Ha Hhi (Hr1 & Hr2 & Hr3).
  destruct (tcp_reass_queued byte P hi a tp so ti Hq Hw Hseg Ha Hhi) as [[E Hc]|(q & E & Q & C & Cov & M)].
  - exists tp, so, 0, P. split; [done|]. split; [done|]. split; [lia|]. split; [done|].
    split; [exists so; rewrite Z.sub_diag; split; [by apply delivered_refl|by left]|].
    split; [|done]. intros x Hx. specialize (Hc x). clear - Hx Hc. intuition lia.
  - set (tp1 := tp <| seg_q := q |>) in *.
    pose proof (tcp_present_spec byte P hi tp1 so) as H. specialize (H Q Hn Hw).
    change (seg_q tp1) with q in H. specialize (H ltac:(split; [done|lia])).
    destruct (tcp_present tp1 so) as [[tp' so'] fin] eqn:Et.
    destruct H as (P' & H1 & H2 & H3 & _ & H5 & H6 & _ & H8).
    exists tp', so', fin, P'. split; [by rewrite E|]. split; [done|]. split; [done|]. split; [done|]. split; [done|].
    split.
    + intros x Hx. rewrite <- (H6 x Hx). symmetry. apply (Cov x Hx).
    + intros Hf. destruct H8 as [->|(t & b & Ht & St & Eb & ->)]; [done|].
      destruct (M t Ht) as (t0 & H0 & F0 & E0). exists t0. split; [done|].
      rewrite <- F0, <- E0, (seg_end_at _ _ _ St), Eb. done.
Qed.

(** C40: the inline case of the macro [TCP_REASS] does what [tcp_reass] does, as
    long as the user still receives.  (After [SS_CANTRCVMORE] it appends the text
    that [tcp_reass] would free.) *)
Theorem TCP_REASS_inline tp so ti :
  has (so_state so) SS_CANTRCVMORE = false -> TCP_REASS tp so ti = tcp_reass tp so (Some ti).
Proof.
  intros Hso. unfold TCP_REASS. destruct (_ && _) eqn:E; [|done].
  apply andb_true_iff in E as [E H1%Z.eqb_eq]. apply andb_true_iff in E as [H%Z.eqb_eq H2%bool_decide_eq_true].
  unfold tcp_reass. rewrite H2. cbn [reass_find reass_before last obind reass_after app].
  unfold tcp_present. cbn [set_field seg_q rcv_nxt t_state]. rewrite H1.
  cbn [TCPS_HAVERCVDSYN TCPS_SYN_RECEIVED TCPS_ESTABLISHED Z.leb Z.compare Pos.compare Pos.compare_cont negb].
  rewrite H, Z.eqb_refl. cbn [negb Z.eqb andb Pos.eqb reass_present]. rewrite H, Z.eqb_refl, Hso.
  cbn [reass_present]. destruct tp; simpl in *. by subst.
Qed.

(** *** The hypotheses can hold *)

(** A segment of three bytes after a gap of two: it stays queued. *)
Definition sample_tp : tcpcb := Eval cbv in
  zero_tcpcb <| t_state := TCPS_ESTABLISHED |> <| rcv_nxt := u32 (2 ^ 32 - 1) |>.
Definition sample_seg : tcpiphdr :=
  Tcpiphdr 1 2 3 4 (u32 (2 ^ 32 + 1)) 0 (Z.lor TH_ACK TH_FIN) 3 0 0
    [Mbuf (Internal MMINOFF) MT_DATA [2; 3; 4]].

Lemma tcp_reass_correct_witness :
  let P := 2 ^ 32 - 1 in let hi := P + 100 in
  exists tp' so' fin P', tcp_reass sample_tp sample_socket (Some sample_seg) = Ok (tp', so', fin) /\
    rcv_nxt tp' = u32 P' /\ P <= P' /\ queue_at (fun x => x - P) P' hi (seg_q tp').
Proof.
  destruct (tcp_reass_correct (fun x => x - (2 ^ 32 - 1)) (2 ^ 32 - 1) (2 ^ 32 + 99) (2 ^ 32 + 1)
              sample_tp sample_socket sample_seg) as (tp' & so' & fin & P' & H1 & H2 & H3 & H4 & _).
  - simpl. lia.
  - reflexivity.
  - vm_compute. congruence.
  - split; [reflexivity|]. split; [simpl; lia|reflexivity].
  - lia.
  - simpl. lia.
  - split; [exact sample_sb_ok|]. split; reflexivity.
  - exists tp', so', fin, P'. repeat split; assumption.
Defined.

(** The gap filled, everything is delivered and the FIN reported. *)
Example tcp_reass_fills_gap :
  match tcp_reass sample_tp sample_socket (Some sample_seg) with
  | Ok (tp, so, _) =>
      match tcp_reass tp so (Some (Tcpiphdr 1 2 3 4 (2 ^ 32 - 1) 0 TH_ACK 3 0 0
                                     [Mbuf (Internal MMINOFF) MT_DATA [0; 1; 2]])) with
      | Ok (tp, so, fin) => Some (rcv_nxt tp, drop 6 (sb_bytes (so_rcv so)), fin)
      | _ => None
      end
  | _ => None
  end = Some (4, [0; 1; 2; 3; 4], TH_FIN).
Proof. reflexivity. Qed.

Lemma TCP_REASS_inline_witness :
  TCP_REASS sample_tp sample_socket sample_seg = tcp_reass sample_tp sample_socket (Some sample_seg).
Proof. apply (TCP_REASS_inline sample_tp sample_socket sample_seg). reflexivity. Defined.
