(* ===== verification/TcpOutput.v ===== *)
(** * TCP output: [sys/netinet/tcp_output.c], and [tcp_drop] of [tcp_subr.c]

    [tcp_output] is one pass over the decision what to send, [output_pass],
    repeated while [sendalot] asks for it; the pass is cut where the code has
    its labels.  [IP] hands back an error or none; it does not change the
    route. *)
From S2P Require Import Prelude TcpSeq Mbuf Socket In Inpcb TcpVar.

(** ** [tcp_setpersist] *)

Definition tcp_setpersist (tp : tcpcb) : outcome tcpcb :=
  if nz (t_rexmt tp) then Panic "tcp_output REXMT" else
  let shift := s16 (t_rxtshift tp + 1) in
  Ok (tp <| t_persist := TCPT_RANGESET (s32 (Z.shiftl (fl_to_int (fl_mul tcp_beta (t_srtt tp))) (t_rxtshift tp)))
                           TCPTV_PERSMIN TCPTV_MAX |>
         <| t_rxtshift := if TCP_MAXRXTSHIFT <=? shift then 0 else shift |>).

(** ** What should be sent *)

(** The decisions of a pass: [off], [len], the flags, [sendalot], the window
    [win] of the receive buffer. *)
Record plan := Plan { o_off : Z; o_len : Z; o_flags : Z; o_sendalot : bool; o_win : Z }.

(** The window to send in, after [t_force] has been looked at. *)
Definition output_win (tp : tcpcb) : tcpcb * Z :=
  let win := Z.min (snd_wnd tp) (snd_cwnd tp) in
  if t_force tp then
    if win =? 0 then (tp, 1) else (tp <| t_persist := 0 |> <| t_rxtshift := 0 |>, win)
  else (tp, win).

(** At most one segment, and more to follow when not retransmitting; no FIN
    while data remains. *)
Definition output_plan (tp : tcpcb) (so : socket) (off len flags : Z) : plan :=
  let '(len, sendalot) := if t_maxseg tp <? len then (t_maxseg tp, t_rxtshift tp =? 0) else (len, false) in
  let flags := if SEQ_LT (snd_nxt tp + len) (snd_una tp + sb_cc (so_snd so)) then bic flags TH_FIN else flags in
  Plan off len flags sendalot (sbspace (so_rcv so)).

(** From [again] to the decision; [None] is the early [return (0)]. *)
Definition output_len (tp : tcpcb) (so : socket) : outcome (tcpcb * option plan) :=
  let off := seq_int (snd_nxt tp) (snd_una tp) in
  let '(tp, win) := output_win tp in
  let cc := sb_cc (so_snd so) in
  let len := Z.min cc win - off in
  let* flags := tcp_outflags (t_state tp) in
  let r :=
    if len <? 0 then
      if has flags TH_FIN then
        if has (t_flags tp) TF_ACKNOW then (tp, Some 0) else (tp, None)
      else if win =? 0 then (tp <| t_rexmt := 0 |> <| snd_nxt := snd_una tp |>, Some 0)
      else (tp, None)
    else (tp, Some len) in
  match r with
  | (tp, None) => Ok (tp, None)
  | (tp, Some len) => Ok (tp, Some (output_plan tp so off len flags))
  end.

(** The tests that lead to [send].  The last one is made of unsigned integers. *)
Definition output_due (tp : tcpcb) (so : socket) (idle : bool) (p : plan) : bool :=
  let len := o_len p in
  (has (o_flags p) TH_FIN && (negb (has (t_flags tp) TF_SENTFIN) || (snd_nxt tp =? snd_una tp)))
  || has (t_flags tp) TF_ACKNOW
  || has (o_flags p) (Z.lor TH_SYN TH_RST)
  || SEQ_GT (snd_up tp) (snd_una tp)
  || (nz len &&
      ((len =? t_maxseg tp) || (TCP_MSS <=? len)
       || ((idle || has (t_flags tp) TF_NODELAY) && (sb_cc (so_snd so) <=? len + o_off p))
       || t_force tp
       || (Z.quot (max_sndwnd tp) 2 <=? len)
       || SEQ_LT (snd_nxt tp) (snd_max tp)))
  || ((0 <? o_win p) &&
      (35 <=? u32 (100 * (o_win p - (rcv_adv tp - rcv_nxt tp))) / sb_hiwat (so_rcv so))).

(** No reason to send: start the persist timer when data waits. *)
Definition output_persist (tp : tcpcb) (so : socket) : outcome tcpcb :=
  if nz (sb_cc (so_snd so)) && (t_rexmt tp =? 0) && (t_persist tp =? 0)
  then tcp_setpersist (tp <| t_rxtshift := 0 |>)
  else Ok tp.

(** [sb_mb]: the first record's chain. *)
Definition sb_first (sb : sockbuf) : chain := match sb_mb sb with c :: _ => c | [] => [] end.

Section Output.
Context (e : env).

(** ** Sending *)

(** The copy of the data, or none; [len] falls to 0 when it cannot be made. *)
Definition output_data (w : world) (so : socket) (p : plan) : outcome (world * Z * chain) :=
  if nz (o_len p) then
    let* r := m_copy (e_mget e) (w_allocs w) (sb_first (so_snd so)) (o_off p) (o_len p) in
    let w := w <| w_allocs := r.1 |> in
    match r.2 with
    | Some m => Ok (w, o_len p, m)
    | None => Ok (w, 0, [])
    end
  else Ok (w, 0, []).

(** The options of the segment: the initial [TCPOPT_MAXSEG], or those of
    [t_tcpopt]. *)
Definition output_opt (c : conn) : inpcb * option (list Z) :=
  let tp := c_tp c in
  if (t_state tp <? TCPS_ESTABLISHED) && negb (has (t_flags tp) TF_NOOPT) then
    let '(inp, mss) := tcp_mss e (c_inp c) in
    let mss := u16 (Z.min (Z.quot (sb_hiwat (so_rcv (c_so c))) 2) mss) in
    (inp, if IP_MSS - sizeof_tcpiphdr <? mss
          then Some [TCPOPT_MAXSEG; 4; Z.shiftr mss 8; Z.land mss 0xff] else None)
  else (c_inp c, t_tcpopt tp).

(** Padded with [TCPOPT_EOL] to a multiple of four. *)
Definition pad_opt (opt : list Z) : list Z :=
  opt ++ replicate (Z.to_nat ((4 - zlen opt mod 4) mod 4)) TCPOPT_EOL.

(** The window the segment advertises. *)
Definition output_rcvwin (tp : tcpcb) (so : socket) (win : Z) : Z :=
  let win := if (win <? Z.quot (sb_hiwat (so_rcv so)) 4) && (win <? t_maxseg tp) then 0 else win in
  let adv := seq_int (rcv_adv tp) (rcv_nxt tp) in
  if win <? adv then adv else win.

(** In transmit state: advance [snd_nxt], time the segment, start the
    retransmit timer.  In persist state only [snd_max] moves. *)
Definition output_advance (tp : tcpcb) (flags len : Z) : tcpcb :=
  if negb (t_force tp) || (t_persist tp =? 0) then
    let tp := if has flags TH_SYN then tp <| snd_nxt := seq_add (snd_nxt tp) 1 |> else tp in
    let tp := if has flags TH_FIN
              then tp <| snd_nxt := seq_add (snd_nxt tp) 1 |> <| t_flags := bis (t_flags tp) TF_SENTFIN |>
              else tp in
    let tp := tp <| snd_nxt := seq_add (snd_nxt tp) len |> in
    let tp := if SEQ_GT (snd_nxt tp) (snd_max tp) then
                let tp := tp <| snd_max := snd_nxt tp |> in
                if t_rtt tp =? 0
                then tp <| t_rtt := 1 |> <| t_rtseq := u32 (snd_nxt tp - len) |> else tp
              else tp in
    if (t_rexmt tp =? 0) && negb (snd_nxt tp =? snd_una tp) then
      let srtt := if fl_zero (t_srtt tp) then fl_of_int TCPTV_SRTTDFLT else t_srtt tp in
      tp <| t_rexmt := TCPT_RANGESET (fl_to_int (fl_mul tcp_beta srtt)) TCPTV_MIN TCPTV_MAX |>
         <| t_rxtshift := 0 |> <| t_persist := 0 |>
    else tp
  else
    if SEQ_GT (snd_nxt tp + len) (snd_max tp)
    then tp <| snd_max := seq_add (snd_nxt tp) len |> else tp.

(** A FIN that is sent again goes out under its old number. *)
Definition output_refin (tp : tcpcb) (flags : Z) : tcpcb :=
  if has flags TH_FIN && has (t_flags tp) TF_SENTFIN && negb (snd_nxt tp =? snd_una tp)
  then tp <| snd_nxt := u32 (snd_nxt tp - 1) |> else tp.

(** What the block looks like after the segment is sent. *)
Definition output_sent (tp : tcpcb) (win : Z) : tcpcb :=
  let tp := if (0 <? win) && SEQ_GT (rcv_nxt tp + win) (rcv_adv tp)
            then tp <| rcv_adv := seq_add (rcv_nxt tp) win |> else tp in
  tp <| t_flags := bic (t_flags tp) (Z.lor TF_ACKNOW TF_DELACK) |>.

(** From the header on, with [len] bytes of data: the packet, and what sending
    it does to the block.  [true] is [goto again]. *)
Definition output_emit (w : world) (c : conn) (n : template) (p : plan) (len : Z) (data : chain)
    : world * conn * Z * bool :=
  let flags := o_flags p in
  let tp := output_refin (c_tp c) flags in
  let seqno := snd_nxt tp in
  let '(inp, opt) := output_opt (c <| c_tp := tp |>) in
  let '(w, ok) := match opt with Some _ => m_get e w | None => (w, true) end in
  if negb ok then (w, Conn tp inp (c_so c), ENOBUFS, false) else
  let opt := match opt with Some o => pad_opt o | None => [] end in
  let win := output_rcvwin tp (c_so c) (o_win p) in
  let urg := SEQ_GT (snd_up tp) (snd_nxt tp) in
  let urp := if urg then u16 (snd_up tp - snd_nxt tp) else 0 in
  let pflags := if urg then bis flags TH_URG else flags in
  let pflags := if nz len && (o_off p + len =? sb_cc (so_snd (c_so c)))
                then bis pflags TH_PUSH else pflags in
  let tp := if urg then tp else tp <| snd_up := snd_una tp |> in
  let tp := output_advance tp flags len in
  let '(w, error) := ip_output e w
    (Packet (n_src n) (n_dst n) (n_sport n) (n_dport n) seqno (rcv_nxt tp)
       (Z.shiftr (sizeof_tcphdr + zlen opt) 2) pflags (u16 win) urp opt (chain_data data)
       (sizeof_tcpiphdr + zlen opt + len)) in
  if nz error then (w, Conn tp inp (c_so c), error, false)
  else (w, Conn (output_sent tp win) inp (c_so c), 0, o_sendalot p).

(** [send]: a header mbuf, and a copy of the data. *)
Definition output_send (w : world) (c : conn) (p : plan) : outcome (world * conn * Z * bool) :=
  let '(w, ok) := m_get e w in
  if negb ok then Ok (w, c, ENOBUFS, false) else
  let* r := output_data w (c_so c) p in
  let '(w, len, data) := r in
  match t_template (c_tp c) with
  | None => Panic "tcp_output"
  | Some n => Ok (output_emit w c n p len data)
  end.

(** ** [tcp_output] *)

Definition output_pass (w : world) (c : conn) (idle : bool) : outcome (world * conn * Z * bool) :=
  let* r := output_len (c_tp c) (c_so c) in
  let '(tp, plan) := r in
  match plan with
  | None => Ok (w, c <| c_tp := tp |>, 0, false)
  | Some p =>
      if output_due tp (c_so c) idle p then output_send w (c <| c_tp := tp |>) p
      else let* tp := output_persist tp (c_so c) in Ok (w, c <| c_tp := tp |>, 0, false)
  end.

(** [fuel] bounds the passes: a block may have 65535 bytes to send, in
    segments of a byte.  Out of fuel stands for a loop that goes on. *)
Fixpoint output_loop (fuel : nat) (w : world) (c : conn) (idle : bool) : outcome (world * conn * Z) :=
  match fuel with
  | O => Fault
  | S fuel =>
      let* r := output_pass w c idle in
      let '(w, c, error, again) := r in
      if again then output_loop fuel w c idle else Ok (w, c, error)
  end.

Definition output_fuel : nat := Z.to_nat (2 ^ 17).

Definition tcp_output (w : world) (c : conn) : outcome (world * conn * Z) :=
  output_loop output_fuel w c (snd_max (c_tp c) =? snd_una (c_tp c)).

(** ** [tcp_drop] *)

Definition tcp_drop (w : world) (c : conn) (errno : Z) : outcome (world * connection) :=
  let* r := if TCPS_HAVERCVDSYN (t_state (c_tp c))
            then let* r := tcp_output w (on_tp (fun tp => tp <| t_state := TCPS_CLOSED |>) c) in Ok r.1
            else Ok (w, c) in
  tcp_close r.1 (on_so (fun so => so <| so_error := errno |>) r.2).
End Output.
