(* ===== verification/TcpOutSeq.v ===== *)
(** * The send sequence under [tcp_output]

    How one pass moves [snd_nxt] and [snd_max]: [snd_una <= snd_nxt <= snd_max],
    and [snd_max] never runs past the data of the send buffer, the SYN and the
    FIN.  Sequence numbers are positions past [snd_una] here. *)
From S2P Require Import Prelude TcpSeq Mbuf Socket In Inpcb TcpVar TcpOutput.

(** ** The send sequence *)

(** [snd_nxt] and [snd_max] are [n] and [m] past [snd_una]: at most the data of
    the send buffer, the SYN, and the FIN once it has been sent. *)
Definition seq_pos (tp : tcpcb) (cc n m : Z) : Prop :=
  0 <= n <= m /\ snd_nxt tp = u32 (snd_una tp + n) /\ snd_max tp = u32 (snd_una tp + m) /\
  m <= cc + 1 + (if has (t_flags tp) TF_SENTFIN then 1 else 0).

Definition snd_ok (tp : tcpcb) (so : socket) : Prop :=
  0 <= snd_una tp < 2 ^ 32 /\ 0 <= snd_wnd tp < 2 ^ 16 /\ 0 <= snd_cwnd tp < 2 ^ 16 /\
  0 <= t_maxseg tp < 2 ^ 16 /\ TCPS_CLOSED <= t_state tp <= TCPS_TIME_WAIT /\
  sb_ok (so_snd so) /\ sb_stream (so_snd so) /\
  exists n m, seq_pos tp (sb_cc (so_snd so)) n m.

(** What output leaves alone in a block. *)
Definition out_same (tp tp' : tcpcb) : Prop :=
  t_state tp' = t_state tp /\ snd_una tp' = snd_una tp /\ t_maxseg tp' = t_maxseg tp /\
  snd_wnd tp' = snd_wnd tp /\ snd_cwnd tp' = snd_cwnd tp /\ t_template tp' = t_template tp /\
  t_force tp' = t_force tp /\ rcv_nxt tp' = rcv_nxt tp /\ seg_q tp' = seg_q tp.

Lemma out_same_trans a b c : out_same a b -> out_same b c -> out_same a c.
Proof. unfold out_same. intuition congruence. Qed.

(** A retransmit timer is off, or between the bounds. *)
Definition rexmt_ok (t : Z) : Prop := t = 0 \/ TCPTV_MIN <= t <= TCPTV_MAX.

Lemma sentfin_bis flags : has (bis flags TF_SENTFIN) TF_SENTFIN = true.
Proof.
  unfold has, bis, nz. apply negb_true_iff, Z.eqb_neq. intros E.
  apply (f_equal (fun x => Z.testbit x 4)) in E. rewrite Z.land_spec, Z.lor_spec, Z.bits_0 in E.
  by rewrite orb_true_r in E.
Qed.

Lemma output_advance_spec tp flags len n m :
  snd_nxt tp = u32 (snd_una tp + n) -> snd_max tp = u32 (snd_una tp + m) ->
  0 <= n <= m -> 0 <= len -> n + len + 2 < 2 ^ 30 -> m < 2 ^ 30 ->
  let tp' := output_advance tp flags len in
  exists n' m', snd_nxt tp' = u32 (snd_una tp + n') /\ snd_max tp' = u32 (snd_una tp + m') /\ n' <= m' /\
    (t_force tp && negb (t_persist tp =? 0) = false /\
       n' = n + cbool (has flags TH_SYN) + cbool (has flags TH_FIN) + len /\ m' = Z.max m n' /\
       t_flags tp' = (if has flags TH_FIN then bis (t_flags tp) TF_SENTFIN else t_flags tp)
     \/ t_force tp && negb (t_persist tp =? 0) = true /\ n' = n /\ m' = Z.max m (n + len) /\
       t_flags tp' = t_flags tp) /\
    out_same tp tp' /\ (rexmt_ok (t_rexmt tp) -> rexmt_ok (t_rexmt tp')) /\ rcv_adv tp' = rcv_adv tp.
Proof.
  intros Hn Hm Hnm Hl B1 B2. unfold output_advance.
  assert (Hc : negb (t_force tp) || (t_persist tp =? 0) = negb (t_force tp && negb (t_persist tp =? 0))).
  { by destruct (t_force tp), (t_persist tp =? 0). }
  rewrite Hc. destruct (t_force tp && negb (t_persist tp =? 0)) eqn:Ef; cbn [negb].
  - unfold SEQ_GT. rewrite Hn, Hm, s32_add_sub, s32_small by lia.
    exists n, (Z.max m (n + len)). destruct (Z.ltb_spec 0 (snd_una tp + n + len - (snd_una tp + m))); tsimp.
    + split; [done|]. split; [unfold seq_add; rewrite u32_add_l; f_equal; lia|]. split; [lia|].
      split; [by right|]. done.
    + split; [done|]. split; [rewrite Hm; f_equal; lia|]. split; [lia|]. split; [by right|]. done.
  - set (tp1 := if has flags TH_SYN then _ else tp).
    assert (H1 : tp1 = tp <| snd_nxt := u32 (snd_una tp + (n + cbool (has flags TH_SYN))) |>).
    { unfold tp1, seq_add. destruct (has flags TH_SYN); cbn [cbool].
      - rewrite Hn, u32_add_l. by rewrite Z.add_assoc.
      - rewrite Z.add_0_r, <- Hn. by destruct tp. }
    set (tp2 := if has flags TH_FIN then _ else tp1).
    assert (H2 : tp2 = tp <| snd_nxt := u32 (snd_una tp + (n + cbool (has flags TH_SYN) + cbool (has flags TH_FIN))) |>
       <| t_flags := if has flags TH_FIN then bis (t_flags tp) TF_SENTFIN else t_flags tp |>).
    { unfold tp2, seq_add. rewrite H1. destruct (has flags TH_FIN); cbn [cbool]; tsimp.
      - rewrite u32_add_l. set (k := n + _). replace (snd_una tp + k + 1) with (snd_una tp + (k + 1)) by lia.
        reflexivity.
      - rewrite Z.add_0_r. by destruct tp. }
    clearbody tp1 tp2. subst tp2. unfold seq_add. tsimp. rewrite u32_add_l.
    set (n' := n + cbool (has flags TH_SYN) + cbool (has flags TH_FIN) + len).
    replace (snd_una tp + (n + cbool (has flags TH_SYN) + cbool (has flags TH_FIN)) + len)
      with (snd_una tp + n') by (unfold n'; lia).
    assert (Hn' : n <= n' < 2 ^ 30) by (unfold n', cbool in *; destruct (has flags TH_SYN), (has flags TH_FIN); lia).
    exists n', (Z.max m n'). unfold SEQ_GT. rewrite Hm, s32_sub_u32, s32_small by lia.
    set (fl := if has flags TH_FIN then bis (t_flags tp) TF_SENTFIN else t_flags tp).
    destruct (Z.ltb_spec 0 (snd_una tp + n' - (snd_una tp + m)));
      [destruct (t_rtt tp =? 0)|]; tsimp;
      (destruct ((t_rexmt tp =? 0) && negb (u32 (snd_una tp + n') =? snd_una tp)); tsimp;
       (split; [done|]; split; [rewrite ?Hm; f_equal; lia|]; split; [lia|]; split; [by left|];
        split; [done|]; split; [|done])); try done;
      intros _; right; apply TCPT_RANGESET_range; unfold TCPTV_MIN, TCPTV_MAX, PR_SLOWHZ; lia.
Qed.

(** ** The plan of a pass *)

Lemma tcp_outflags_spec s : TCPS_CLOSED <= s <= TCPS_TIME_WAIT ->
  exists f, tcp_outflags s = Ok f /\ has f TH_SYN && has f TH_FIN = false.
Proof.
  intros Hs. assert (H : forall_range 0 11 (fun s => match tcp_outflags s with
    | Ok f => negb (has f TH_SYN && has f TH_FIN) | _ => false end) = true) by by_compute.
  pose proof (forall_range_elim _ _ _ s H) as Hx. unfold TCPS_CLOSED, TCPS_TIME_WAIT in Hs.
  specialize (Hx ltac:(lia)). cbv beta in Hx. destruct (tcp_outflags s) as [f| |]; [|done|done].
  exists f. split; [done|]. by apply negb_true_iff in Hx.
Qed.

Lemma bic_has f b c : has (bic f b) c = true -> has f c = true.
Proof.
  unfold has, bic, nz. rewrite !negb_true_iff, !Z.eqb_neq. intros H E. apply H.
  rewrite <- Z.land_assoc, (Z.land_comm (Z.lnot b)), Z.land_assoc, E. done.
Qed.

Lemma bic_hasnt f b : has (bic f b) b = false.
Proof.
  unfold has, bic, nz. by rewrite <- Z.land_assoc, (Z.land_comm (Z.lnot b)), Z.land_lnot_diag, Z.land_0_r.
Qed.

(** What the plan [p] promises, [snd_nxt] being [n] past [snd_una]. *)
Record plan_ok (tp : tcpcb) (so : socket) (n : Z) (p : plan) : Prop := {
  po_len : 0 <= o_len p <= t_maxseg tp;
  po_data : 0 < o_len p -> o_off p = n /\ n + o_len p <= sb_cc (so_snd so) /\
            n + o_len p <= Z.max 1 (Z.min (snd_wnd tp) (snd_cwnd tp));
  po_more : o_sendalot p = true -> o_len p = t_maxseg tp /\ n + o_len p < sb_cc (so_snd so) /\
            has (o_flags p) TH_FIN = false /\ (t_force tp = true -> 0 < t_maxseg tp -> t_persist tp = 0);
  po_fin : has (o_flags p) TH_FIN = true -> sb_cc (so_snd so) <= n + o_len p;
  po_syn : has (o_flags p) TH_SYN = true -> n + o_len p <= sb_cc (so_snd so) /\ has (o_flags p) TH_FIN = false
}.

Lemma output_win_spec tp : 0 <= snd_wnd tp -> 0 <= snd_cwnd tp ->
  exists tp1 win, output_win tp = (tp1, win) /\ out_same tp tp1 /\ snd_nxt tp1 = snd_nxt tp /\
    snd_max tp1 = snd_max tp /\ t_flags tp1 = t_flags tp /\ t_rexmt tp1 = t_rexmt tp /\ rcv_adv tp1 = rcv_adv tp /\
    0 <= win <= Z.max 1 (Z.min (snd_wnd tp) (snd_cwnd tp)) /\
    (t_force tp = true -> win <= 1 \/ t_persist tp1 = 0).
Proof.
  intros. unfold output_win. destruct (t_force tp).
  - destruct (Z.eqb_spec (Z.min (snd_wnd tp) (snd_cwnd tp)) 0); eexists _, _; (split; [done|]);
      do 6 (split; [done|]); (split; [lia|]); intros _; [left; lia|by right].
  - eexists _, _. split; [done|]. do 6 (split; [done|]). split; [lia|done].
Qed.

Lemma output_plan_spec tp so n n1 len f win :
  has f TH_SYN && has f TH_FIN = false ->
  0 <= n < 2 ^ 17 -> 0 <= n1 < 2 ^ 17 -> 0 <= sb_cc (so_snd so) < 2 ^ 16 -> 0 <= t_maxseg tp ->
  snd_nxt tp = u32 (snd_una tp + n1) ->
  0 <= len -> (0 < len -> n1 = n /\ n + len <= Z.min (sb_cc (so_snd so)) win) ->
  (has f TH_FIN = false -> n1 + len <= sb_cc (so_snd so)) ->
  win <= Z.max 1 (Z.min (snd_wnd tp) (snd_cwnd tp)) -> (t_force tp = true -> win <= 1 \/ t_persist tp = 0) ->
  plan_ok tp so n1 (output_plan tp so n len f).
Proof.
  intros Hf Hn Hn1 Hcc Hms Hnx Hl Hdata Hfin Hw Hforce. unfold output_plan.
  set (l2 := if t_maxseg tp <? len then (t_maxseg tp, t_rxtshift tp =? 0) else (len, false)).
  assert (Hl2 : 0 <= l2.1 <= t_maxseg tp /\ l2.1 <= len /\
                (l2.2 = true -> l2.1 = t_maxseg tp /\ t_maxseg tp < len)).
  { unfold l2. destruct (Z.ltb_spec (t_maxseg tp) len); simpl; (split; [lia|]); (split; [lia|]); [|done].
    intros. lia. }
  destruct l2 as [len2 more]. cbn [fst snd] in Hl2. destruct Hl2 as (H1 & H2 & H3).
  assert (Hlt : SEQ_LT (snd_nxt tp + len2) (snd_una tp + sb_cc (so_snd so)) = (n1 + len2 <? sb_cc (so_snd so))).
  { unfold SEQ_LT. rewrite Hnx. rewrite <- s32_sub_r.
    rewrite s32_add_sub. rewrite s32_small by lia. lia. }
  rewrite Hlt. constructor; cbn [o_len o_off o_flags o_sendalot].
  - done.
  - intros Hp. destruct Hdata as [-> Hd]; [lia|]. lia.
  - intros Hm. destruct (H3 Hm) as [-> Hlen]. destruct Hdata as [-> Hd]; [lia|].
    split; [done|]. split; [lia|]. destruct (Z.ltb_spec (n + t_maxseg tp) (sb_cc (so_snd so))); [|lia].
    split; [apply bic_hasnt|]. intros Ht Hz. destruct (Hforce Ht); [lia|done].
  - destruct (Z.ltb_spec (n1 + len2) (sb_cc (so_snd so))); [by rewrite bic_hasnt|done].
  - intros Hs. assert (Hs' : has f TH_SYN = true).
    { destruct (n1 + len2 <? sb_cc (so_snd so)); [by eapply bic_has|done]. }
    rewrite Hs' in Hf. cbn [andb] in Hf. specialize (Hfin Hf). split; [lia|].
    destruct (n1 + len2 <? sb_cc (so_snd so)); [apply bic_hasnt|done].
Qed.

Lemma output_plan_len tp so off len f : 0 <= len -> o_len (output_plan tp so off len f) <= len.
Proof.
  intros. unfold output_plan. destruct (Z.ltb_spec (t_maxseg tp) len); simpl; lia.
Qed.

Lemma output_len_spec tp so n m :
  0 <= snd_una tp < 2 ^ 32 -> 0 <= snd_wnd tp -> 0 <= snd_cwnd tp -> 0 <= t_maxseg tp < 2 ^ 16 ->
  TCPS_CLOSED <= t_state tp <= TCPS_TIME_WAIT -> 0 <= sb_cc (so_snd so) < 2 ^ 16 ->
  0 <= n <= m -> m < 2 ^ 17 -> snd_nxt tp = u32 (snd_una tp + n) ->
  exists tp1 r n1, output_len tp so = Ok (tp1, r) /\ out_same tp tp1 /\ snd_max tp1 = snd_max tp /\
    t_flags tp1 = t_flags tp /\ (rexmt_ok (t_rexmt tp) -> rexmt_ok (t_rexmt tp1)) /\ rcv_adv tp1 = rcv_adv tp /\
    snd_nxt tp1 = u32 (snd_una tp + n1) /\ (n1 = n \/ n1 = 0) /\
    match r with None => True | Some p => plan_ok tp1 so n1 p /\ (0 < o_len p -> n1 = n) end.
Proof.
  intros Hu Hw Hcw Hms Hst Hcc Hn Hm Hnx. unfold output_len.
  destruct (output_win_spec tp Hw Hcw) as (tp1 & win & -> & S1 & N1 & M1 & F1 & R1 & A1 & W1 & P1).
  destruct S1 as (Z1 & Z2 & Z3 & Z4 & Z5 & Z6 & Z7 & Z8 & Z9).
  destruct (tcp_outflags_spec (t_state tp1)) as (f & -> & Hf); [congruence|]. cbn [obind].
  unfold seq_int. rewrite Hnx, seq_dist_l by lia.
  pose proof (fun tp2 n2 len => output_plan_spec tp2 so n n2 len f win Hf) as Hplan.
  set (len := Z.min (sb_cc (so_snd so)) win - n) in *.
  destruct (Z.ltb_spec len 0) as [Hneg|Hpos].
  - destruct (has f TH_FIN) eqn:Ef.
    + destruct (has (t_flags tp1) TF_ACKNOW); eexists _, _, n; (split; [done|]); (split; [done|]);
        do 3 (split; [done || congruence|]); (split; [done|]); (split; [by rewrite N1|]); (split; [by left|]); [|done].
      split; [apply Hplan; (lia || congruence || auto)|done].
    + destruct (Z.eqb_spec win 0) as [Ew|Ew].
      * eexists _, _, 0. split; [done|]. split; [done|]. tsimp. do 2 (split; [done|]).
        split; [by left|]. split; [done|]. split; [rewrite Z.add_0_r, Z2, u32_small; done|]. split; [by right|].
        split; [apply Hplan; tsimp; try (lia || congruence || auto)|].
        { rewrite Z.add_0_r, u32_small; [done|congruence]. }
        match goal with |- 0 < o_len (output_plan ?t ?s ?o 0 ?g) -> _ => pose proof (output_plan_len t s o 0 g) end. lia.
      * eexists _, _, n. split; [done|]. split; [done|]. do 2 (split; [done|]).
        split; [congruence|]. split; [done|]. split; [by rewrite N1|]. split; [by left|]. done.
  - eexists _, _, n. split; [done|]. split; [done|]. do 2 (split; [done|]). split; [congruence|]. split; [done|].
    split; [by rewrite N1|]. split; [by left|]. split; [apply Hplan; (lia || congruence || auto)|done].
Qed.

(** ** Sending *)

Lemma sent_flags f : has (bic f (Z.lor TF_ACKNOW TF_DELACK)) TF_SENTFIN = has f TF_SENTFIN.
Proof.
  unfold has, bic, nz. rewrite <- Z.land_assoc. by replace (Z.land (Z.lnot (Z.lor TF_ACKNOW TF_DELACK)) TF_SENTFIN) with TF_SENTFIN.
Qed.

Lemma has_bis_other f b c : Z.land b c = 0 -> has (bis f b) c = has f c.
Proof. intros H. unfold has, bis. by rewrite Z.land_lor_distr_l, H, Z.lor_0_r. Qed.

Lemma output_refin_spec tp cc n m flags : 0 <= snd_una tp < 2 ^ 32 -> cc < 2 ^ 16 -> seq_pos tp cc n m ->
  exists n0, output_refin tp flags = tp <| snd_nxt := u32 (snd_una tp + n0) |> /\
    (n0 = n \/ n0 = n - 1 /\ 1 <= n /\ has flags TH_FIN = true /\ has (t_flags tp) TF_SENTFIN = true) /\
    (has flags TH_FIN = true -> has (t_flags tp) TF_SENTFIN = true -> n0 = n - 1 \/ n = 0).
Proof.
  intros Hu Hcc (Hnm & Hn & Hm & Hb). unfold output_refin. rewrite Hn.
  assert (Hbig : n < 2 ^ 31) by (destruct (has (t_flags tp) TF_SENTFIN); lia).
  destruct (has flags TH_FIN) eqn:E1, (has (t_flags tp) TF_SENTFIN) eqn:E2; cbn [andb];
    try (exists n; split; [rewrite <- Hn; by destruct tp|]; split; [by left|done]).
  assert (Hz : u32 (snd_una tp + n) = snd_una tp -> n = 0).
  { intros E. assert (s32 (u32 (snd_una tp + n) - snd_una tp) = 0) as E0 by (rewrite E, Z.sub_diag; done).
    rewrite seq_dist_l in E0; lia. }
  destruct (Z.eqb_spec (u32 (snd_una tp + n)) (snd_una tp)) as [E|E]; cbn [negb].
  - exists n. split; [rewrite <- Hn; by destruct tp|]. split; [by left|]. intros _ _. right. by apply Hz.
  - exists (n - 1). assert (n <> 0) by (intros ->; apply E; rewrite Z.add_0_r; by apply u32_small).
    split; [rewrite u32_sub_l; do 2 f_equal; lia|]. split; [right; repeat split; lia|].
    intros _ _. by left.
Qed.

(** The positions after the segment: they stay within the buffer, the SYN and
    the FIN. *)
Lemma output_advance_pos tp so n m p n0 len :
  0 <= sb_cc (so_snd so) < 2 ^ 16 -> 0 <= t_maxseg tp < 2 ^ 16 -> seq_pos tp (sb_cc (so_snd so)) n m ->
  plan_ok tp so n p ->
  (n0 = n \/ n0 = n - 1 /\ 1 <= n /\ has (o_flags p) TH_FIN = true /\ has (t_flags tp) TF_SENTFIN = true) ->
  (has (o_flags p) TH_FIN = true -> has (t_flags tp) TF_SENTFIN = true -> n0 = n - 1 \/ n = 0) ->
  (len = 0 \/ len = o_len p) ->
  let tp' := output_advance (tp <| snd_nxt := u32 (snd_una tp + n0) |>) (o_flags p) len in
  out_same tp tp' /\ (rexmt_ok (t_rexmt tp) -> rexmt_ok (t_rexmt tp')) /\ rcv_adv tp' = rcv_adv tp /\
  exists n' m', seq_pos tp' (sb_cc (so_snd so)) n' m' /\
    (o_sendalot p = true -> 0 < t_maxseg tp -> n + len <= n' /\
       has (t_flags tp') TF_SENTFIN = has (t_flags tp) TF_SENTFIN).
Proof.
  intros Hcc Hms (Hnm & Hn & Hm & Hb) [Pl Pd Pm Pf Ps] Hn0 Hn0' Hlen. cbv zeta.
  assert (Hs1 : has (t_flags tp) TF_SENTFIN = true \/ has (t_flags tp) TF_SENTFIN = false)
    by (destruct (has _ _); auto).
  assert (Hbm : m <= sb_cc (so_snd so) + 2) by (destruct Hs1 as [E|E]; rewrite E in Hb; lia).
  assert (Hdl : 0 < len -> n + len <= sb_cc (so_snd so)).
  { intros Hp. destruct Hlen as [->| ->]; [lia|]. destruct (Pd Hp). lia. }
  assert (0 <= len < 2 ^ 16) by lia.
  destruct (output_advance_spec (tp <| snd_nxt := u32 (snd_una tp + n0) |>) (o_flags p) len n0 m)
    as (n' & m' & E1 & E2 & E3 & Hcase & Hsame & Hrex & Hadv); tsimp; try (done || lia).
  split; [exact Hsame|]. split; [exact Hrex|]. split; [exact Hadv|]. tsimp_in Hcase.
  tsimp_in E1. tsimp_in E2. destruct Hsame as (_ & Su & _). tsimp_in Su.
  set (tp' := output_advance _ _ _) in *. exists n', m'.
  destruct Hcase as [(Hfc & En' & Em' & Ef)|(Hfc & En' & Em' & Ef)].
  - destruct (has (o_flags p) TH_FIN) eqn:Efin.
    + assert (Esyn : has (o_flags p) TH_SYN = false).
      { destruct (has (o_flags p) TH_SYN); [|done]. by destruct Ps. }
      rewrite Esyn in En'. cbn [cbool] in En'. assert (Hsf : has (t_flags tp') TF_SENTFIN = true).
      { rewrite Ef. apply sentfin_bis. }
      split.
      * split; [lia|]. split; [congruence|]. split; [congruence|]. rewrite Hsf.
        destruct Hs1 as [E|E]; rewrite E in Hb; [destruct (Hn0' eq_refl E); lia|].
        assert (n0 = n) by (destruct Hn0 as [?|(_ & _ & _ & ?)]; congruence). lia.
      * intros Hso. destruct (Pm Hso) as (_ & _ & ? & _). congruence.
    + assert (n0 = n) as -> by (destruct Hn0 as [?|(_ & _ & ? & _)]; congruence).
      cbn [cbool] in En'. assert (Hsf : has (t_flags tp') TF_SENTFIN = has (t_flags tp) TF_SENTFIN) by (by rewrite Ef).
      destruct (has (o_flags p) TH_SYN) eqn:Esyn; cbn [cbool] in En'.
      * destruct (Ps eq_refl) as [Hps _].
        split; [|intros _ _; split; [lia|done]].
        split; [lia|]. split; [congruence|]. split; [congruence|]. rewrite Hsf. destruct (has _ _); lia.
      * split; [|intros _ _; split; [lia|done]].
        split; [lia|]. split; [congruence|]. split; [congruence|]. rewrite Hsf. destruct (has _ _); lia.
  - split.
    + split; [lia|]. split; [congruence|]. split; [congruence|]. rewrite Ef. destruct (has _ _); lia.
    + intros Hso Hpos. destruct (Pm Hso) as (_ & _ & _ & Hp). bsimp. rewrite Hp in * by done. done.
Qed.
