(* ===== verification/TcpOutSend.v ===== *)
(** * What [tcp_output] sends

    A pass never fails and sends a piece of the send buffer; the passes end; the
    theorems of [tcp_output].  Two of them show where the code goes wrong: a
    retransmission that ends in a FIN, and a peer that asks for segments of size
    zero. *)
From S2P Require Import Prelude TcpSeq Mbuf Socket In Inpcb TcpVar TcpOutput TcpOutSeq.

(** What a packet of the connection is: a piece of the send buffer, inside the
    window and the segment size, under the sequence number of its place there;
    one lower when a FIN that was sent before goes out again behind data that is
    not at the front of the buffer. *)
Definition refin_shift (tp : tcpcb) (pk : packet) (off : Z) : Z :=
  cbool (has (pk_flags pk) TH_FIN && has (t_flags tp) TF_SENTFIN && negb (off =? 0)).
Definition packet_ok (tp : tcpcb) (so : socket) (pk : packet) : Prop :=
  exists off, 0 <= off /\
    pk_data pk = take (length (pk_data pk)) (drop (Z.to_nat off) (sb_bytes (so_snd so))) /\
    zlen (pk_data pk) <= t_maxseg tp /\
    pk_iplen pk = sizeof_tcpiphdr + zlen (pk_opt pk) + zlen (pk_data pk) /\ pk_ack pk = rcv_nxt tp /\
    (pk_data pk <> [] -> off + zlen (pk_data pk) <= sb_cc (so_snd so) /\
       off + zlen (pk_data pk) <= Z.max 1 (Z.min (snd_wnd tp) (snd_cwnd tp)) /\
       pk_seq pk = u32 (snd_una tp + off - refin_shift tp pk off)).

Section OutputSpec.
Context (e : env).

Lemma output_data_spec w so p : sb_ok (so_snd so) -> sb_stream (so_snd so) -> 0 <= o_len p ->
  (0 < o_len p -> 0 <= o_off p /\ o_off p + o_len p <= sb_cc (so_snd so)) ->
  exists w1 len data, output_data e w so p = Ok (w1, len, data) /\ w_sent w1 = w_sent w /\
    (w_allocs w <= w_allocs w1)%nat /\ (len = 0 \/ len = o_len p) /\
    ((forall k, (w_allocs w <= k)%nat -> e_mget e k = true) -> len = o_len p) /\
    zlen (chain_data data) = len /\
    (0 < len -> chain_data data = take (Z.to_nat len) (drop (Z.to_nat (o_off p)) (sb_bytes (so_snd so)))).
Proof.
  intros Hok [Hs1 Hs2] Hl Hoff. unfold output_data, nz. destruct (Z.eqb_spec (o_len p) 0) as [E|E]; cbn [negb].
  { exists w, 0, []. rewrite E. split_and!; try done; by left. }
  set (c := sb_first (so_snd so)).
  assert (Hc : sb_bytes (so_snd so) = chain_data c /\ Forall cl_ok c).
  { unfold sb_bytes, c, sb_first. destruct (sb_mb (so_snd so)) as [|c0 [|? ?]]; [done| |simpl in Hs1; lia].
    apply Forall_cons in Hs2 as [Hs2 _]. split; [apply rec_data_one|done]. }
  destruct Hc as [Hb Hcl]. destruct Hoff as [H0 H1]; [lia|].
  destruct Hok as [(Ecc & _ & Bcc & _) _]. change (rec_data (sb_mb (so_snd so))) with (sb_bytes (so_snd so)) in Ecc.
  rewrite Hb in Ecc. change (zlen (chain_data c)) with (chain_len c) in Ecc.
  destruct (m_copy_spec (e_mget e) (w_allocs w) c (o_off p) (o_len p)) as (k' & r & -> & Hk & Hr);
    [lia|unfold M_COPYALL; lia|lia|done|].
  cbn [obind fst snd]. destruct r as [t|]; eexists _, _, _; (split; [done|]); (split; [done|]); (split; [done|]).
  - destruct Hr as [Hd _]. split; [by right|]. split; [done|]. rewrite Hd, Hb. split; [|done].
    apply zlen_take. rewrite zlen_drop; unfold chain_len in *; lia.
  - split; [by left|]. split; [|by split].
    intros Hall. destruct Hr as (j & Hj & Hf). rewrite Hall in Hf by lia. done.
Qed.

Lemma m_get_spec w : w_sent (m_get e w).1 = w_sent w /\ w_allocs (m_get e w).1 = S (w_allocs w).
Proof. done. Qed.

(** What a pass does to the world: perhaps a packet. *)
Definition sends_at_most_one (tp : tcpcb) (so : socket) (w w' : world) : Prop :=
  w_sent w' = w_sent w \/ exists pk, w_sent w' = pk :: w_sent w /\ packet_ok tp so pk.

Lemma output_sent_spec tp win : out_same tp (output_sent tp win) /\ snd_nxt (output_sent tp win) = snd_nxt tp /\
  snd_max (output_sent tp win) = snd_max tp /\ t_rexmt (output_sent tp win) = t_rexmt tp /\
  has (t_flags (output_sent tp win)) TF_SENTFIN = has (t_flags tp) TF_SENTFIN.
Proof.
  unfold output_sent. destruct (_ && _); tsimp; (split; [done|]); rewrite sent_flags; done.
Qed.

Lemma output_emit_spec w c nt p len data n m :
  let tp := c_tp c in let so := c_so c in
  0 <= snd_una tp < 2 ^ 32 -> 0 <= sb_cc (so_snd so) < 2 ^ 16 -> 0 <= t_maxseg tp < 2 ^ 16 ->
  seq_pos tp (sb_cc (so_snd so)) n m -> plan_ok tp so n p -> (len = 0 \/ len = o_len p) ->
  zlen (chain_data data) = len ->
  (0 < len -> chain_data data = take (Z.to_nat len) (drop (Z.to_nat (o_off p)) (sb_bytes (so_snd so)))) ->
  let '(w', c', err, again) := output_emit e w c nt p len data in
  c_so c' = so /\ out_same tp (c_tp c') /\ (rexmt_ok (t_rexmt tp) -> rexmt_ok (t_rexmt (c_tp c'))) /\
  sends_at_most_one tp so w w' /\ (w_allocs w <= w_allocs w')%nat /\
  exists n' m', seq_pos (c_tp c') (sb_cc (so_snd so)) n' m' /\
    (again = true -> o_sendalot p = true /\ (0 < t_maxseg tp -> n + len <= n' /\
       has (t_flags (c_tp c')) TF_SENTFIN = has (t_flags tp) TF_SENTFIN)).
Proof.
  intros tp so Hu Hcc Hms Hpos Hplan Hlen Hzl Hdata. unfold output_emit. fold tp.
  destruct (output_refin_spec tp (sb_cc (so_snd so)) n m (o_flags p)) as (n0 & E0 & Hn0 & Hn0'); [done|lia|done|].
  rewrite E0. set (tp0 := tp <| snd_nxt := u32 (snd_una tp + n0) |>) in *.
  assert (Hsame0 : out_same tp tp0) by done.
  destruct (output_opt e (c <| c_tp := tp0 |>)) as [inp opt].
  set (r := match opt with Some _ => m_get e w | None => (w, true) end).
  assert (Hr : w_sent r.1 = w_sent w /\ (w_allocs w <= w_allocs r.1)%nat).
  { unfold r. destruct opt; [|done]. split; [done|]. simpl. lia. }
  destruct r as [w1 ok]. cbn [fst] in Hr. destruct Hr as [Hs1 Ha1].
  assert (Hpos0 : exists m', seq_pos tp0 (sb_cc (so_snd so)) n0 m').
  { exists m. destruct Hpos as (H1 & H2 & H3 & H4). split; [|done]. destruct Hn0 as [->|(-> & ? & _)]; lia. }
  destruct ok; cbn [negb].
  2: { split; [done|]. split; [done|]. split; [done|]. split; [by left|]. split; [done|].
       destruct Hpos0 as [m' Hp]. exists n0, m'. split; [done|]. done. }
  set (urg := SEQ_GT (snd_up tp0) (snd_nxt tp0)).
  set (pf := if nz len && _ then _ else _).
  assert (Hpf : has pf TH_FIN = has (o_flags p) TH_FIN).
  { unfold pf. destruct (_ && _); rewrite ?has_bis_other by done; destruct urg; by rewrite ?has_bis_other. }
  clearbody pf. set (tps := if urg then tp else tp <| snd_up := snd_una tp |>).
  assert (Htps : seq_pos tps (sb_cc (so_snd so)) n m /\ plan_ok tps so n p /\ out_same tp tps /\
    t_rexmt tps = t_rexmt tp /\ t_flags tps = t_flags tp /\
    (if urg then tp0 else tp0 <| snd_up := snd_una tp0 |>) = tps <| snd_nxt := u32 (snd_una tps + n0) |>).
  { unfold tps. destruct urg; [done|]. split; [exact Hpos|]. split; [by destruct Hplan|]. done. }
  destruct Htps as (Hps & Hpl & Hsm & Hrx & Hfl & ->).
  destruct (output_advance_pos tps so n m p n0 len) as (Ha & Hb & Hc & n' & m' & Hp' & Hm');
    [done|by destruct Hsm as (_ & _ & -> & _)|done|done|by rewrite Hfl|by rewrite Hfl|done|].
  set (tp2 := output_advance _ _ _) in *. rewrite Hfl in Hm'. replace (t_maxseg tps) with (t_maxseg tp) in Hm' by (by destruct Hsm as (_ & _ & -> & _)).
  assert (Hs2 : out_same tp tp2) by (by eapply out_same_trans).
  unfold ip_output.
  set (pk := Packet _ _ _ _ _ _ _ _ _ _ _ _ _).
  assert (Hpk : packet_ok tp so pk).
  { exists (if 0 <? len then o_off p else 0). unfold pk; cbn [pk_data pk_iplen pk_opt pk_ack pk_flags pk_seq].
    destruct Hplan as [Pl Pd _ _ _]. pose proof (zlen_nonneg (chain_data data)).
    destruct Hpos as (Hnm & Hn & _ & _). destruct Hs2 as (_ & _ & _ & _ & _ & _ & _ & Hrn & _).
    destruct (Z.ltb_spec 0 len) as [Hp|Hp].
    - assert (Ho : len = o_len p) by lia. destruct Pd as (Ho1 & Ho2 & Ho3); [lia|].
      split; [lia|]. split; [rewrite Hdata at 1 by done; f_equal; unfold zlen in Hzl; lia|]. split; [lia|].
      split; [lia|]. split; [done|]. intros _. split; [lia|]. split; [lia|]. unfold refin_shift. cbn [pk_flags]. rewrite Hpf.
      change (snd_nxt tp0) with (u32 (snd_una tp + n0)). f_equal. rewrite Ho1.
      destruct (Z.eqb_spec n 0), Hn0 as [->|(-> & ? & -> & ->)]; cbn [andb negb cbool]; rewrite ?andb_false_r; cbn [cbool]; try lia.
      destruct (has (o_flags p) TH_FIN), (has (t_flags tp) TF_SENTFIN); cbn [andb cbool]; lia.
    - assert (chain_data data = []) as -> by (apply zlen_nil_inv; lia).
      split; [lia|]. split; [done|]. change (zlen (@nil Z)) with 0. split; [lia|]. split; [lia|]. split; [done|].
      done. }
  clearbody pk. cbv iota beta. 
  destruct (nz (e_ipout e (length (w_sent w1)))); tsimp.
  - split; [done|]. split; [done|]. split; [by rewrite <- Hrx|].
    split; [right; exists pk; by rewrite <- Hs1|]. split; [done|]. exists n', m'. split; [done|]. done.
  - match goal with |- context [output_sent tp2 ?v] =>
      destruct (output_sent_spec tp2 v) as (Q1 & Q2 & Q3 & Q4 & Q5) end.
    split; [done|]. split; [by eapply out_same_trans|]. split; [rewrite Q4; by rewrite <- Hrx|].
    split; [right; exists pk; by rewrite <- Hs1|]. split; [done|]. exists n', m'. split.
    + destruct Hp' as (R1 & R2 & R3 & R4). destruct Q1 as (_ & Qu & _). split; [done|].
      rewrite Q2, Q3, Qu, Q5. done.
    + intros Hso. split; [done|]. rewrite Q5. by apply Hm'.
Qed.

Lemma packet_ok_same tp tp1 so pk : out_same tp tp1 -> has (t_flags tp1) TF_SENTFIN = has (t_flags tp) TF_SENTFIN ->
  packet_ok tp1 so pk -> packet_ok tp so pk.
Proof.
  intros (_ & E2 & E3 & E4 & E5 & _ & _ & E8 & _) Ef. unfold packet_ok, refin_shift. by rewrite E2, E3, E4, E5, E8, Ef.
Qed.

Lemma snd_ok_same tp tp1 so n m : out_same tp tp1 -> snd_ok tp so ->
  seq_pos tp1 (sb_cc (so_snd so)) n m -> snd_ok tp1 so.
Proof.
  intros (E1 & E2 & E3 & E4 & E5 & _) (H1 & H2 & H3 & H4 & H5 & H6 & H7 & _) Hp. unfold snd_ok.
  rewrite E1, E2, E3, E4, E5. do 7 (split; [done|]). by exists n, m.
Qed.

(** The data not yet sent. *)
Definition out_left (tp : tcpcb) (so : socket) : Z :=
  Z.max 0 (sb_cc (so_snd so) - seq_int (snd_nxt tp) (snd_una tp)).

Lemma out_left_pos tp so n m : 0 <= snd_una tp < 2 ^ 32 -> sb_cc (so_snd so) < 2 ^ 16 ->
  seq_pos tp (sb_cc (so_snd so)) n m -> out_left tp so = Z.max 0 (sb_cc (so_snd so) - n).
Proof.
  intros Hu Hc (H1 & H2 & H3 & H4). unfold out_left, seq_int. rewrite H2, seq_dist_l; [done|done|].
  destruct (has _ _); lia.
Qed.

Lemma output_persist_spec tp so : exists tp', output_persist tp so = Ok tp' /\ out_same tp tp' /\
  snd_nxt tp' = snd_nxt tp /\ snd_max tp' = snd_max tp /\ t_flags tp' = t_flags tp /\ t_rexmt tp' = t_rexmt tp.
Proof.
  unfold output_persist. destruct (_ && _) eqn:E; [|by exists tp]. apply andb_true_iff in E as [E _].
  apply andb_true_iff in E as [_ E%Z.eqb_eq]. unfold tcp_setpersist. tsimp. rewrite E. simpl.
  eexists. split; [done|]. by rewrite <- E.
Qed.

Lemma output_pass_spec w c idle :
  let tp := c_tp c in let so := c_so c in
  snd_ok tp so -> t_template tp <> None ->
  exists w' c' err again, output_pass e w c idle = Ok (w', c', err, again) /\
    c_so c' = so /\ out_same tp (c_tp c') /\ (rexmt_ok (t_rexmt tp) -> rexmt_ok (t_rexmt (c_tp c'))) /\
    sends_at_most_one tp so w w' /\ snd_ok (c_tp c') so /\ (w_allocs w <= w_allocs w')%nat /\
    (again = true -> 0 < t_maxseg tp -> (w_allocs w < w_allocs w')%nat /\
       has (t_flags (c_tp c')) TF_SENTFIN = has (t_flags tp) TF_SENTFIN /\
       out_left (c_tp c') so <= out_left tp so /\
       ((forall k, (w_allocs w <= k)%nat -> e_mget e k = true) -> out_left (c_tp c') so < out_left tp so)).
Proof.
  intros tp so Hok Htmpl. pose proof Hok as (Hu & Hw & Hcw & Hms & Hst & Hsb & Hstr & n & m & Hpos).
  pose proof Hsb as [(_ & _ & Hcc & _) _]. pose proof (proj1 (sb_ok_nonneg _ Hsb)) as Hcc0.
  pose proof Hpos as (Hnm & Hn & Hm & Hb). assert (Hm17 : m < 2 ^ 17) by (destruct (has _ _) in Hb; lia).
  unfold output_pass. fold tp so.
  destruct (output_len_spec tp so n m) as (tp1 & r & n1 & -> & S1 & M1 & F1 & R1 & A1 & N1 & Hn1 & Hr);
    [done|lia|lia|done|done|lia|done|done|done|]. cbn [obind].
  assert (Hpos1 : seq_pos tp1 (sb_cc (so_snd so)) n1 m).
  { destruct S1 as (_ & Su & _). split; [lia|]. rewrite Su, M1, F1. split; [done|]. done. }
  assert (Hok1 : snd_ok tp1 so) by (by eapply snd_ok_same).
  destruct r as [p|].
  2: { eexists _, _, _, _. split; [done|]. tsimp. split; [done|]. split; [done|]. split; [done|].
       split; [by left|]. split; [done|]. split; [done|]. done. }
  destruct Hr as [Hplan Hn1'].
  destruct (output_due tp1 so idle p).
  2: { destruct (output_persist_spec tp1 so) as (tp2 & -> & S2 & Q1 & Q2 & Q3 & Q4). cbn [obind].
       eexists _, _, _, _. split; [done|]. tsimp. split; [done|]. split; [by eapply out_same_trans|].
       split; [by rewrite Q4|]. split; [by left|]. split; [|done].
       apply (snd_ok_same tp1 tp2 so n1 m); [done|done|]. destruct S2 as (_ & Su & _).
       unfold seq_pos. rewrite Q1, Q2, Q3, Su. done. }
  unfold output_send. destruct (m_get e w) as [w1 ok] eqn:Eg.
  assert (Hw1 : w_sent w1 = w_sent w /\ w_allocs w1 = S (w_allocs w)).
  { pose proof (m_get_spec w) as H. by rewrite Eg in H. }
  destruct Hw1 as [Hs1 Ha1]. destruct ok; cbn [negb].
  2: { eexists _, _, _, _. split; [done|]. tsimp. split; [done|]. split; [done|]. split; [done|].
       split; [by left|]. split; [done|]. split; [lia|]. done. }
  tsimp. fold so.
  destruct (output_data_spec w1 so p Hsb Hstr (proj1 (po_len _ _ _ _ Hplan)))
    as (w2 & len & data & -> & D1 & D2 & D3 & D4 & D5 & D6).
  { intros Hp. destruct (po_data _ _ _ _ Hplan Hp) as (Ho & ? & _). lia. }
  cbn [obind]. replace (t_template tp1) with (t_template tp) by (by destruct S1 as (_ & _ & _ & _ & _ & -> & _)).
  destruct (t_template tp) as [nt|]; [|done].
  pose proof (output_emit_spec w2 (c <| c_tp := tp1 |>) nt p len data n1 m) as H. cbv zeta in H.
  tsimp_in H. fold so in H. replace (snd_una tp1) with (snd_una tp) in H by (by destruct S1 as (_ & -> & _)).
  replace (t_maxseg tp1) with (t_maxseg tp) in H by (by destruct S1 as (_ & _ & -> & _)).
  specialize (H Hu ltac:(lia) Hms Hpos1 Hplan D3 D5 D6).
  destruct (output_emit e w2 (c <| c_tp := tp1 |>) nt p len data) as [[[w' c'] err] again].
  destruct H as (G1 & G2 & G3 & G4 & G5 & n' & m' & G6 & G7).
  assert (S2 : out_same tp (c_tp c')) by (by eapply out_same_trans).
  exists w', c', err, again. split; [done|]. split; [done|]. split; [done|]. split; [auto|].
  split.
  { unfold sends_at_most_one in *. rewrite D1, Hs1 in G4. destruct G4 as [G4|(pk & G4 & Gp)]; [by left|].
    right. exists pk. split; [done|]. eapply packet_ok_same; [exact S1|by rewrite F1|done]. }
  split; [by eapply snd_ok_same|]. split; [lia|]. intros Hag Hmsp. destruct (G7 Hag) as [Hmore G8].
  destruct (G8 Hmsp) as [G9 G10]. split; [lia|]. split; [by rewrite G10, F1|].
  assert (Su' : snd_una (c_tp c') = snd_una tp) by (by destruct S2 as (_ & -> & _)).
  rewrite (out_left_pos (c_tp c') so n' m') by (rewrite ?Su'; done).
  rewrite (out_left_pos tp so n m) by done.
  destruct (po_more _ _ _ _ Hplan Hmore) as (Hlm & Hlt & _ & _).
  replace (t_maxseg tp1) with (t_maxseg tp) in Hlm by (by destruct S1 as (_ & _ & -> & _)).
  rewrite (Hn1' ltac:(lia)) in *.
  split; [destruct D3; lia|]. intros Hall. rewrite D4 in G9 by (intros k Hk; apply Hall; lia). lia.
Qed.

(** The passes end: each failed allocation is one of finitely many, each other
    pass that asks for another one sends data. *)
Lemma output_loop_spec fuel w c idle K :
  let tp := c_tp c in let so := c_so c in
  snd_ok tp so -> t_template tp <> None -> 0 < t_maxseg tp ->
  (forall k, (K <= k)%nat -> e_mget e k = true) ->
  Z.of_nat (K - w_allocs w) + out_left tp so < Z.of_nat fuel ->
  exists w' c' err, output_loop e fuel w c idle = Ok (w', c', err) /\
    c_so c' = so /\ out_same tp (c_tp c') /\ (rexmt_ok (t_rexmt tp) -> rexmt_ok (t_rexmt (c_tp c'))) /\
    snd_ok (c_tp c') so /\ exists new, w_sent w' = new ++ w_sent w /\ Forall (packet_ok tp so) new.
Proof.
  revert w c. induction fuel as [|fuel IH]; intros w c tp so Hok Ht Hms HK Hf.
  { unfold out_left in Hf. lia. }
  cbn [output_loop].
  destruct (output_pass_spec w c idle Hok Ht) as (w1 & c1 & err & again & -> & E1 & E2 & E3 & E4 & E5 & E6 & E7).
  fold so in E1, E4, E5, E7. fold tp in E2, E3, E4, E7.
  cbn [obind]. assert (Hone : exists new, w_sent w1 = new ++ w_sent w /\ Forall (packet_ok tp so) new).
  { destruct E4 as [E4|(pk & E4 & Ep)]; [by exists []|]. exists [pk]. split; [done|]. by constructor. }
  destruct again.
  2: { exists w1, c1, err. split; [done|]. do 4 (split; [done|]). done. }
  destruct (E7 eq_refl Hms) as (G1 & G2 & G3 & G4). destruct Hone as (new1 & N1 & P1).
  destruct (IH w1 c1) as (w2 & c2 & err2 & -> & H1 & H2 & H3 & H4 & new2 & N2 & P2).
  - by rewrite E1.
  - by destruct E2 as (_ & _ & _ & _ & _ & -> & _).
  - by destruct E2 as (_ & _ & -> & _).
  - done.
  - rewrite E1. destruct (Nat.le_gt_cases K (w_allocs w)).
    + specialize (G4 ltac:(intros k Hk; apply HK; lia)). lia.
    + lia.
  - rewrite E1 in *. exists w2, c2, err2. split; [done|]. split; [done|]. split; [by eapply out_same_trans|].
    split; [auto|]. split; [done|]. exists (new2 ++ new1). split; [by rewrite N2, N1, app_assoc|].
    apply Forall_app. split; [|done]. eapply Forall_impl; [exact P2|]. intros pk. cbv beta. by apply packet_ok_same.
Qed.

Lemma output_fuel_value : Z.of_nat output_fuel = 2 ^ 17.
Proof. unfold output_fuel. by rewrite Z2Nat.id. Qed.

Lemma tcp_output_spec w c K :
  snd_ok (c_tp c) (c_so c) -> t_template (c_tp c) <> None -> 0 < t_maxseg (c_tp c) ->
  (forall k, (K <= k)%nat -> e_mget e k = true) -> Z.of_nat (K - w_allocs w) <= 2 ^ 15 ->
  exists w' c' err, tcp_output e w c = Ok (w', c', err) /\
    c_so c' = c_so c /\ out_same (c_tp c) (c_tp c') /\
    (rexmt_ok (t_rexmt (c_tp c)) -> rexmt_ok (t_rexmt (c_tp c'))) /\ snd_ok (c_tp c') (c_so c) /\
    exists new, w_sent w' = new ++ w_sent w /\ Forall (packet_ok (c_tp c) (c_so c)) new.
Proof.
  intros Hok Ht Hms HK Hb. unfold tcp_output. pose proof output_fuel_value as Hfu.
  set (fuel := output_fuel) in *. clearbody fuel.
  apply (output_loop_spec fuel w c _ K); [exact Hok|exact Ht|exact Hms|exact HK|].
  pose proof Hok as (Hu & _ & _ & _ & _ & Hsb & _ & n & m & Hpos).
  pose proof Hsb as [(_ & _ & Hcc & _) _]. rewrite (out_left_pos _ _ n m) by done.
  destruct Hpos as (Hn & _). lia.
Qed.
End OutputSpec.

(** ** Properties *)

(** C2: [tcp_output] never panics and always returns, when segments are not of
    size zero and not more than 32768 of the allocations to come fail.  It keeps
    [snd_una <= snd_nxt <= snd_max] within the buffer, the SYN and the FIN, the
    retransmit timer off or in its bounds, and the socket as it is.  Every
    packet it sends is a piece of the send buffer, not larger than a segment,
    inside the window (or one byte of probe), with the acknowledgement
    [rcv_nxt], and under the sequence number of the piece; only where a FIN that
    was sent before is on it again, behind data that is not the first of the
    buffer, is the number one lower (the code counts the FIN back although the
    data comes before it). *)
Theorem tcp_output_correct e w c K :
  snd_ok (c_tp c) (c_so c) -> t_template (c_tp c) <> None -> 0 < t_maxseg (c_tp c) ->
  (forall k, (K <= k)%nat -> e_mget e k = true) -> Z.of_nat (K - w_allocs w) <= 2 ^ 15 ->
  exists w' c' err, tcp_output e w c = Ok (w', c', err) /\
    c_so c' = c_so c /\ out_same (c_tp c) (c_tp c') /\
    (rexmt_ok (t_rexmt (c_tp c)) -> rexmt_ok (t_rexmt (c_tp c'))) /\ snd_ok (c_tp c') (c_so c) /\
    exists new, w_sent w' = new ++ w_sent w /\ Forall (packet_ok (c_tp c) (c_so c)) new.
Proof. apply tcp_output_spec. Qed.

(** *** The hypotheses can hold *)

(** Three bytes to send, none sent; a peer's window of ten. *)
Definition sample_out_tp : tcpcb := Eval cbv in
  zero_tcpcb <| t_state := TCPS_ESTABLISHED |> <| t_maxseg := 2 |> <| snd_una := 100 |> <| snd_nxt := 100 |>
    <| snd_max := 100 |> <| snd_wnd := 10 |> <| snd_cwnd := 10 |>
    <| t_template := Some (Template 1 2 3 4) |> <| snd_up := 100 |>.
Definition sample_snd : sockbuf :=
  Sockbuf 3 4096 MSIZE 8192 [[Mbuf (Internal MMINOFF) MT_DATA [7; 8; 9]]] 0 false.
Definition sample_out_so : socket :=
  Socket 7 0 0 SS_ISCONNECTED true None (Sockbuf 0 4096 0 8192 [] 0 false) sample_snd 0 0.
Definition sample_conn : conn := Conn sample_out_tp (Inpcb 2 4 1 3 (Route None 0) None) sample_out_so.
Definition sample_world : world := World 1 0 [] ∅ [] 0.
Definition sample_env : env :=
  Env (fun _ => true) (fun _ => 0) [sample_ifaddr] (fun _ => None) false 0 0.

Lemma sample_snd_sb_ok : sb_ok sample_snd /\ sb_stream sample_snd.
Proof.
  split; [split; [by repeat split|by apply Forall_singleton]|].
  split; [simpl; lia|]. apply Forall_singleton, Forall_singleton. by split.
Qed.

Lemma sample_snd_ok : snd_ok sample_out_tp sample_out_so.
Proof.
  unfold snd_ok. cbn [snd_una snd_wnd snd_cwnd t_maxseg t_state sample_out_tp so_snd sample_out_so].
  unfold TCPS_CLOSED, TCPS_TIME_WAIT. do 5 (split; [lia|]).
  split; [apply sample_snd_sb_ok|]. split; [apply sample_snd_sb_ok|].
  exists 0, 0. split; [lia|]. split; [reflexivity|]. split; [reflexivity|].
  cbn [sample_out_tp t_flags sample_snd sb_cc]. change (has 0 TF_SENTFIN) with false. lia.
Qed.

(** The two segments it takes. *)
Example tcp_output_sample :
  match tcp_output sample_env sample_world sample_conn with
  | Ok (w, c, err) => Some (pk_seq <$> w_sent w, pk_data <$> w_sent w, snd_nxt (c_tp c), err)
  | _ => None
  end = Some ([102; 100], [[9]; [7; 8]], 103, 0).
Proof. vm_compute. reflexivity. Qed.

Lemma tcp_output_correct_witness : exists w' c' err,
  tcp_output sample_env sample_world sample_conn = Ok (w', c', err) /\
  exists new, w_sent w' = new ++ [] /\ Forall (packet_ok sample_out_tp sample_out_so) new.
Proof.
  destruct (tcp_output_correct sample_env sample_world sample_conn 0) as (w' & c' & err & H & _ & _ & _ & _ & Hn).
  - exact sample_snd_ok.
  - discriminate.
  - reflexivity.
  - reflexivity.
  - simpl. lia.
  - exact (ex_intro _ w' (ex_intro _ c' (ex_intro _ err (conj H Hn)))).
Defined.

(** ** Where the code goes wrong *)

(** All three bytes and the FIN were sent; the first segment has been sent
    again.  The second one, of the byte 9 at sequence number 102, now takes the
    FIN along, and goes out as 101: the test for a FIN that is sent again does
    not ask whether data goes with it. *)
Example tcp_output_refin_misplaces_data :
  let tp := sample_out_tp <| t_state := TCPS_FIN_WAIT_1 |> <| t_flags := TF_SENTFIN |>
              <| snd_nxt := 102 |> <| snd_max := 104 |> in
  match tcp_output sample_env sample_world (sample_conn <| c_tp := tp |>) with
  | Ok (w, _, _) => Some ((fun pk => (pk_seq pk, pk_data pk, has (pk_flags pk) TH_FIN)) <$> w_sent w)
  | _ => None
  end = Some [(101, [9], true)].
Proof. vm_compute. reflexivity. Qed.

(** A connection whose peer has asked for segments of no bytes, with urgent
    data in the send buffer. *)
Definition zero_mss_conn : conn := Eval cbv in
  on_tp (fun tp => tp <| t_maxseg := 0 |> <| snd_up := 103 |> <| rcv_adv := 4096 |>) sample_conn.

Lemma zero_mss_pass w idle : exists w1 pk,
  output_pass sample_env w zero_mss_conn idle = Ok (w1, zero_mss_conn, 0, true) /\
  w_sent w1 = pk :: w_sent w /\ pk_data pk = [].
Proof. eexists _, _. split; [vm_compute; reflexivity|]. split; reflexivity. Qed.

(** when the peer has set the segment size to zero and urgent data is
    pending, [tcp_output] sends empty segments for ever: [len] is cut to zero,
    [sendalot] is set, and every pass leaves the connection as it was, sends a
    packet without data and asks for another pass; no number of passes is
    enough. *)
Theorem tcp_output_zero_maxseg_diverges fuel w idle :
  output_loop sample_env fuel w zero_mss_conn idle = Fault /\
  exists w1 pk, output_pass sample_env w zero_mss_conn idle = Ok (w1, zero_mss_conn, 0, true) /\
    w_sent w1 = pk :: w_sent w /\ pk_data pk = [].
Proof.
  split; [|apply zero_mss_pass]. revert w. induction fuel as [|fuel IH]; intros w; [done|].
  cbn [output_loop]. destruct (zero_mss_pass w idle) as (w1 & pk & -> & _). apply IH.
Qed.
