(* ===== verification/TcpInput.v ===== *)
(** * TCP input: [tcp_input] of [sys/netinet/tcp_input.c], for a connection

    A segment that has found its control block goes through the stages of the
    code, in its order; a stage goes on to the next one or ends at one of the
    labels [drop], [dropafterack], [dropwithreset].  [tiflags] is a variable
    beside the header's own [ti_flags], as in the code. *)
From S2P Require Import Prelude TcpSeq Mbuf Socket In Inpcb TcpVar TcpReass TcpOutput.

(** The segment under way: [tiflags], [needoutput]; and where a stage leads. *)
Record istate := Istate { i_w : world; i_c : conn; i_ti : tcpiphdr; i_flags : Z; i_out : bool }.
#[export] Instance istate_settable : Settable istate := fun s =>
  Istate (i_w s) (i_c s) (i_ti s) (i_flags s) (i_out s).

Inductive verdict :=
| Go (s : istate)
| Drop (w : world) (k : connection)
| DropAfterAck (s : istate)
| DropWithReset (w : world) (k : connection) (ti : tcpiphdr) (flags : Z).

Definition i_tp (s : istate) : tcpcb := c_tp (i_c s).
Definition i_so (s : istate) : socket := c_so (i_c s).
Definition upd_tp (s : istate) (f : tcpcb -> tcpcb) : istate := s <| i_c := on_tp f (i_c s) |>.
Definition upd_so (s : istate) (f : socket -> socket) : istate := s <| i_c := on_so f (i_c s) |>.
Definition upd_ti (s : istate) (f : tcpiphdr -> tcpiphdr) : istate := s <| i_ti := f (i_ti s) |>.
Definition drop_it (s : istate) : verdict := Drop (i_w s) (Open (i_c s)).
Definition reset_it (s : istate) : verdict :=
  DropWithReset (i_w s) (Open (i_c s)) (i_ti s) (i_flags s).

(** One stage after another. *)
Definition vbind (r : outcome verdict) (k : istate -> outcome verdict) : outcome verdict :=
  let* v := r in match v with Go s => k s | _ => Ok v end.

(** The last [n] bytes, or the first, of the segment's text trimmed. *)
Definition trim_text (s : istate) (n : Z) : outcome istate :=
  let* m := m_adj (ti_m (i_ti s)) n in Ok (upd_ti s (fun ti => ti <| ti_m := m |>)).

Section Input.
Context (e : env).

(** ** [tcp_dooptions] *)

(** [cp] is the memory from the option on; [cnt] bytes of it are options. *)
Fixpoint dooptions_loop (fuel : nat) (c : conn) (cp : list Z) (cnt : Z) (syn : bool) : outcome conn :=
  match fuel with
  | O => Ok c
  | S fuel =>
      if 0 <? cnt then
        let* opt := aget cp 0 in
        if opt =? TCPOPT_EOL then Ok c
        else
          let* optlen := if opt =? TCPOPT_NOP then Ok 1 else aget cp 1 in
          if optlen <=? 0 then Ok c
          else
            let* c := if (opt =? TCPOPT_MAXSEG) && (optlen =? 4) && syn then
                        let* hi := aget cp 2 in
                        let* lo := aget cp 3 in
                        Ok (set_maxseg e (on_tp (fun tp => tp <| t_maxseg := hi * 256 + lo |>) c))
                      else Ok c in
            dooptions_loop fuel c (drop (Z.to_nat optlen) cp) (cnt - optlen) syn
      else Ok c
  end.

Definition tcp_dooptions (c : conn) (om : list Z * Z) (ti : tcpiphdr) : outcome conn :=
  dooptions_loop (Z.to_nat om.2) c om.1 om.2 (has (ti_flags ti) TH_SYN).

(** The options, unless they have been done; [om] is then null. *)
Definition input_options (c : conn) (om : option (list Z * Z)) (ti : tcpiphdr) : outcome conn :=
  match om with Some om => tcp_dooptions c om ti | None => Ok c end.

(** ** Up to the switch on the state *)

Definition input_begin (c : conn) (om : option (list Z * Z)) (ti : tcpiphdr) : outcome conn :=
  let c := on_tp (fun tp => tp <| t_idle := 0 |> <| t_keep := TCPTV_KEEP |>) c in
  let* c := if t_state (c_tp c) =? TCPS_LISTEN then Ok c else input_options c om ti in
  let win := Z.max 0 (sbspace (so_rcv (c_so c))) in
  Ok (on_tp (fun tp => tp <| rcv_wnd := u16 (Z.max win (seq_int (rcv_adv tp) (rcv_nxt tp))) |>) c).

(** ** LISTEN *)

Definition listen_refuses (s : istate) : option verdict :=
  if has (i_flags s) TH_RST then Some (drop_it s)
  else if has (i_flags s) TH_ACK then Some (reset_it s)
  else if negb (has (i_flags s) TH_SYN) then Some (drop_it s)
  else if in_broadcast (e_ifaddrs e) (ti_dst (i_ti s)) then Some (drop_it s)
  else None.

(** The foreign address goes into the block; the error of [in_pcbconnect]. *)
Definition listen_connect (s : istate) : outcome (istate * Z) :=
  let inp := c_inp (i_c s) in
  let laddr := inp_laddr inp in
  let ti := i_ti s in
  let inp := if laddr =? INADDR_ANY then inp <| inp_laddr := ti_dst ti |> else inp in
  let* r := in_pcbconnect (e_rtlookup e) (e_ifaddrs e) (w_pcbs (i_w s)) (w_lport (i_w s)) (e_uid e)
              (so_options (i_so s)) PR_CONNREQUIRED inp (Nam sizeof_sockaddr_in (SockaddrIn AF_INET (ti_sport ti) (ti_src ti))) in
  let '(error, inp, hport) := r in
  let inp := if nz error then inp <| inp_laddr := laddr |> else inp in
  Ok (s <| i_w := (i_w s) <| w_lport := hport |> |> <| i_c := (i_c s) <| c_inp := inp |> |>, error).

(** The sequence numbers of both directions, and SYN_RECEIVED. *)
Definition listen_accept (s : istate) : istate :=
  let iss0 := w_iss (i_w s) in
  let s := s <| i_w := (i_w s) <| w_iss := seq_add iss0 (Z.quot TCP_ISSINCR 2) |> |> in
  upd_tp s (fun tp =>
    let tp := tp <| iss := iss0 |> <| irs := ti_seq (i_ti s) |> in
    let tp := tcp_rcvseqinit (tcp_sendseqinit tp) in
    tp <| t_flags := bis (t_flags tp) TF_ACKNOW |> <| t_state := TCPS_SYN_RECEIVED |>
       <| t_keep := TCPTV_KEEP |>).

Definition input_listen (s : istate) (om : option (list Z * Z)) : outcome verdict :=
  match listen_refuses s with
  | Some v => Ok v
  | None =>
      let '(w, ok) := m_get e (i_w s) in
      let s := s <| i_w := w |> in
      if negb ok then Ok (drop_it s) else
      let* r := listen_connect s in
      let '(s, error) := r in
      if nz error then Ok (drop_it s) else
      let '(w, n) := tcp_template e (i_w s) (i_c s) in
      let s := s <| i_w := w |> in
      match n with
      | None =>
          let* r := tcp_drop e (i_w s) (on_tp (fun tp => tp <| t_template := None |>) (i_c s)) ENOBUFS in
          Ok (Drop r.1 r.2)
      | Some n =>
          let s := upd_tp s (fun tp => tp <| t_template := Some n |>) in
          let* c := input_options (i_c s) om (i_ti s) in
          Ok (Go (listen_accept (s <| i_c := c |>)))
      end
  end.

(** ** SYN_SENT *)

(** The connection is made: [soisconnected], ESTABLISHED, the segment size,
    and the text that came before. *)
Definition input_established (s : istate) : outcome istate :=
  let* r := soisconnected (w_queues (i_w s)) (i_so s) in
  let s := s <| i_w := (i_w s) <| w_queues := r.1 |> |> <| i_c := (i_c s) <| c_so := r.2 |> |> in
  let s := upd_tp s (fun tp => tp <| t_state := TCPS_ESTABLISHED |>) in
  let s := s <| i_c := set_maxseg e (i_c s) |> in
  let* r := tcp_reass (i_tp s) (i_so s) None in
  let '(tp, so, _) := r in
  Ok (s <| i_c := (i_c s) <| c_tp := tp |> <| c_so := so |> |>).

Definition snd_una_advance (tp : tcpcb) (una : Z) : tcpcb :=
  let tp := tp <| snd_una := una |> in
  if SEQ_LT (snd_nxt tp) (snd_una tp) then tp <| snd_nxt := snd_una tp |> else tp.

Definition input_syn_sent (s : istate) : outcome verdict :=
  let tp := i_tp s in
  let ack := ti_ack (i_ti s) in
  let flags := i_flags s in
  if has flags TH_ACK && (SEQ_LEQ ack (iss tp) || SEQ_GT ack (snd_max tp)) then Ok (reset_it s)
  else if has flags TH_RST then
    if has flags TH_ACK then
      let* r := tcp_drop e (i_w s) (i_c s) ECONNREFUSED in Ok (Drop r.1 r.2)
    else Ok (drop_it s)
  else if negb (has flags TH_SYN) then Ok (drop_it s)
  else
    let s := upd_tp s (fun tp =>
      let tp := snd_una_advance tp ack in
      let tp := tcp_rcvseqinit (tp <| t_rexmt := 0 |> <| irs := ti_seq (i_ti s) |>) in
      tp <| t_flags := bis (t_flags tp) TF_ACKNOW |>) in
    if SEQ_GT (snd_una (i_tp s)) (iss (i_tp s))
    then let* s := input_established s in Ok (Go s)
    else Ok (Go (upd_tp s (fun tp => tp <| t_state := TCPS_SYN_RECEIVED |>))).

(** [trimthenstep6]: past the SYN, and no further than the window. *)
Definition input_trim (s : istate) : outcome istate :=
  let s := upd_ti s (fun ti => ti <| ti_seq := seq_add (ti_seq ti) 1 |>) in
  let wnd := rcv_wnd (i_tp s) in
  let* s := if wnd <? ti_len (i_ti s) then
              let* s := trim_text s (- (ti_len (i_ti s) - wnd)) in
              Ok ((upd_ti s (fun ti => ti <| ti_len := s16 wnd |>)) <| i_flags := bic (i_flags s) TH_FIN |>)
            else Ok s in
  Ok (upd_tp s (fun tp => tp <| snd_wl1 := u32 (ti_seq (i_ti s) - 1) |> <| rcv_up := ti_seq (i_ti s) |>)).

(** ** The window *)

(** A SYN in front of the window is dropped with its number. *)
Definition drop_syn (s : istate) (todrop : Z) : istate * Z :=
  if has (i_flags s) TH_SYN then
    let s := s <| i_flags := bic (i_flags s) TH_SYN |> in
    let s := upd_ti s (fun ti => ti <| ti_seq := seq_add (ti_seq ti) 1 |>) in
    let s := if 1 <? ti_urp (i_ti s) then upd_ti s (fun ti => ti <| ti_urp := ti_urp ti - 1 |>)
             else s <| i_flags := bic (i_flags s) TH_URG |> in
    (s, todrop - 1)
  else (s, todrop).

(** Text before [rcv_nxt]. *)
Definition trim_front (s : istate) : outcome verdict :=
  let todrop := seq_int (rcv_nxt (i_tp s)) (ti_seq (i_ti s)) in
  if 0 <? todrop then
    let '(s, todrop) := drop_syn s todrop in
    let len := ti_len (i_ti s) in
    if (len <? todrop) || ((todrop =? len) && negb (has (i_flags s) TH_FIN)) then Ok (DropAfterAck s)
    else
      let* s := trim_text s todrop in
      let s := upd_ti s (fun ti => ti <| ti_seq := seq_add (ti_seq ti) todrop |> <| ti_len := s16 (ti_len ti - todrop) |>) in
      Ok (Go (if todrop <? ti_urp (i_ti s)
              then upd_ti s (fun ti => ti <| ti_urp := u16 (ti_urp ti - todrop) |>)
              else upd_ti (s <| i_flags := bic (i_flags s) TH_URG |>) (fun ti => ti <| ti_urp := 0 |>)))
  else Ok (Go s).

(** Text after the window. *)
Definition trim_back (s : istate) : outcome verdict :=
  let todrop := seq_int (ti_seq (i_ti s) + ti_len (i_ti s)) (rcv_nxt (i_tp s) + rcv_wnd (i_tp s)) in
  if 0 <? todrop then
    if ti_len (i_ti s) <=? todrop then Ok (DropAfterAck s)
    else
      let* s := trim_text s (- todrop) in
      let s := upd_ti s (fun ti => ti <| ti_len := s16 (ti_len ti - todrop) |>) in
      Ok (Go (s <| i_flags := bic (i_flags s) (Z.lor TH_PUSH TH_FIN) |>))
  else Ok (Go s).

(** A closed window takes segments at its edge, without their text. *)
Definition closed_window (s : istate) : outcome verdict :=
  if negb (rcv_nxt (i_tp s) =? ti_seq (i_ti s)) then Ok (DropAfterAck s)
  else if 0 <? ti_len (i_ti s) then
    let* s := trim_text s (ti_len (i_ti s)) in
    let s := upd_ti s (fun ti => ti <| ti_len := 0 |>) in
    Ok (Go (s <| i_flags := bic (i_flags s) (Z.lor TH_PUSH TH_FIN) |>))
  else Ok (Go s).

Definition input_window (s : istate) : outcome verdict :=
  if rcv_wnd (i_tp s) =? 0 then closed_window s else vbind (trim_front s) trim_back.

(** Text for a connection whose user has gone. *)
Definition input_nofdref (s : istate) : outcome verdict :=
  if has (so_state (i_so s)) SS_NOFDREF && (TCPS_CLOSE_WAIT <? t_state (i_tp s)) && nz (ti_len (i_ti s)) then
    let* r := tcp_close (i_w s) (i_c s) in Ok (DropWithReset r.1 r.2 (i_ti s) (i_flags s))
  else Ok (Go s).

(** ** RST, SYN, no ACK *)

Definition input_rst (s : istate) : outcome verdict :=
  let state := t_state (i_tp s) in
  if has (i_flags s) TH_RST then
    if state =? TCPS_SYN_RECEIVED then
      let* r := tcp_drop e (i_w s) (i_c s) ECONNREFUSED in Ok (Drop r.1 r.2)
    else if (state =? TCPS_ESTABLISHED) || (state =? TCPS_FIN_WAIT_1) || (state =? TCPS_FIN_WAIT_2)
            || (state =? TCPS_CLOSE_WAIT) then
      let* r := tcp_drop e (i_w s) (i_c s) ECONNRESET in Ok (Drop r.1 r.2)
    else if (state =? TCPS_CLOSING) || (state =? TCPS_LAST_ACK) || (state =? TCPS_TIME_WAIT) then
      let* r := tcp_close (i_w s) (i_c s) in Ok (Drop r.1 r.2)
    else Ok (Go s)
  else Ok (Go s).

Definition input_syn_noack (s : istate) : outcome verdict :=
  if has (i_flags s) TH_SYN then
    let* r := tcp_drop e (i_w s) (i_c s) ECONNRESET in
    Ok (DropWithReset r.1 r.2 (i_ti s) (i_flags s))
  else if negb (has (i_flags s) TH_ACK) then Ok (drop_it s)
  else Ok (Go s).


(** ** ACK processing *)

(** SYN_RECEIVED: an acceptable ACK opens the connection. *)
Definition ack_syn_received (s : istate) : outcome verdict :=
  if t_state (i_tp s) =? TCPS_SYN_RECEIVED then
    let ack := ti_ack (i_ti s) in
    if SEQ_GT (snd_una (i_tp s)) ack || SEQ_GT ack (snd_max (i_tp s)) then Ok (reset_it s)
    else
      let s := upd_tp s (fun tp => (snd_una_advance tp (seq_add (snd_una tp) 1)) <| t_rexmt := 0 |>) in
      let* s := input_established s in
      Ok (Go (upd_tp s (fun tp => tp <| snd_wl1 := u32 (ti_seq (i_ti s) - 1) |>)))
  else Ok (Go s).

(** The round trip timed, when [ack] covers the sequence number timed. *)
Definition ack_rtt (tp : tcpcb) (ack : Z) : tcpcb :=
  if nz (t_rtt tp) && SEQ_GT ack (t_rtseq tp)
  then tp <| t_srtt := srtt_update (t_srtt tp) (t_rtt tp) |> <| t_rtt := 0 |>
  else tp.

(** The retransmit timer: off when all is acknowledged, else started again. *)
Definition ack_rexmt (tp : tcpcb) (ack : Z) : tcpcb :=
  if ack =? snd_max tp then tp <| t_rexmt := 0 |>
  else if t_persist tp =? 0
  then tp <| t_rexmt := TCPT_RANGESET (fl_to_int (fl_mul tcp_beta (t_srtt tp))) TCPTV_MIN TCPTV_MAX |>
          <| t_rxtshift := 0 |>
  else tp.

(** The congestion window opens by a tenth. *)
Definition ack_cwnd (tp : tcpcb) (acked : Z) : tcpcb :=
  if 0 <? acked then tp <| snd_cwnd := u16 (Z.min (Z.quot (11 * snd_cwnd tp) 10) 65535) |> else tp.

(** The data acknowledged leaves the send buffer; what [acked] counts beyond
    the buffer is taken for our FIN ([ourfinisacked]). *)
Definition ack_drop (s : istate) (acked : Z) : outcome (istate * bool) :=
  let cc := sb_cc (so_snd (i_so s)) in
  let n := if cc <? acked then cc else acked in
  let* snd := sbdrop (so_snd (i_so s)) n in
  let s := upd_tp s (fun tp => tp <| snd_wnd := u16 (snd_wnd tp - n) |>) in
  let so := (i_so s) <| so_snd := snd |> in
  let so := if nz (Z.land (sb_flags snd) SB_WAIT) || sb_sel snd then sowwakeup so else so in
  Ok (upd_so s (fun _ => so), cc <? acked).

(** The changes of state when our FIN is acknowledged. *)
Definition ack_state (s : istate) (ourfinisacked : bool) : outcome verdict :=
  let state := t_state (i_tp s) in
  if state =? TCPS_FIN_WAIT_1 then
    if ourfinisacked then
      let s := if has (so_state (i_so s)) SS_CANTRCVMORE
               then upd_tp (upd_so s soisdisconnected) (fun tp => tp <| t_2msl := TCPTV_MAXIDLE |>)
               else s in
      Ok (Go (upd_tp s (fun tp => tp <| t_state := TCPS_FIN_WAIT_2 |>)))
    else Ok (Go s)
  else if state =? TCPS_CLOSING then
    if ourfinisacked then
      let s := upd_tp s (fun tp =>
        (tcp_canceltimers (tp <| t_state := TCPS_TIME_WAIT |>)) <| t_2msl := 2 * TCPTV_MSL |>) in
      Ok (Go (upd_so s soisdisconnected))
    else Ok (Go s)
  else if state =? TCPS_LAST_ACK then
    if ourfinisacked then let* r := tcp_close (i_w s) (i_c s) in Ok (Drop r.1 r.2)
    else Ok (drop_it s)
  else if state =? TCPS_TIME_WAIT then
    Ok (DropAfterAck (upd_tp s (fun tp => tp <| t_2msl := 2 * TCPTV_MSL |>)))
  else Ok (Go s).

(** The states whose case is ESTABLISHED's. *)
Definition ack_states (state : Z) : bool := TCPS_ESTABLISHED <=? state.

Definition input_ack_new (s : istate) : outcome verdict :=
  let ack := ti_ack (i_ti s) in
  if negb (ack_states (t_state (i_tp s))) then Ok (Go s)
  else if SEQ_LEQ ack (snd_una (i_tp s)) then Ok (Go s)
  else if SEQ_GT ack (snd_max (i_tp s)) then Ok (DropAfterAck s)
  else
    let acked := seq_int ack (snd_una (i_tp s)) in
    let s := upd_tp s (fun tp => ack_cwnd (ack_rexmt (ack_rtt tp ack) ack) acked) in
    let s := if ack =? snd_max (i_tp s) then s <| i_out := true |> else s in
    let* r := ack_drop s acked in
    let '(s, ourfinisacked) := r in
    ack_state (upd_tp s (fun tp => snd_una_advance tp ack)) ourfinisacked.

Definition input_ack (s : istate) : outcome verdict := vbind (ack_syn_received s) input_ack_new.

(** ** Step 6: the window, urgent data, the text, the FIN *)

Definition window_update (tp : tcpcb) (ti : tcpiphdr) : bool :=
  SEQ_LT (snd_wl1 tp) (ti_seq ti) ||
  ((snd_wl1 tp =? ti_seq ti) &&
   (SEQ_LT (snd_wl2 tp) (ti_ack ti) || ((snd_wl2 tp =? ti_ack ti) && (snd_wnd tp <? ti_win ti)))).

Definition input_wnd (s : istate) : istate :=
  let ti := i_ti s in
  if has (i_flags s) TH_ACK && window_update (i_tp s) ti then
    let s := upd_tp s (fun tp =>
      let tp := tp <| snd_wnd := ti_win ti |> <| snd_wl1 := ti_seq ti |> <| snd_wl2 := ti_ack ti |> in
      if max_sndwnd tp <? snd_wnd tp then tp <| max_sndwnd := snd_wnd tp |> else tp) in
    s <| i_out := true |>
  else s.

(** [tcp_pulloutofband]: byte [cnt] of the chain out of it, and the chain. *)
Fixpoint pull_byte (c : chain) (cnt : Z) : option (Z * chain) :=
  match c with
  | [] => None
  | m :: c' =>
      if cnt <? m_len m then
        match m_dat m !! Z.to_nat cnt with
        | Some b => Some (b, Mbuf (m_loc m) (m_type m)
                               (take (Z.to_nat cnt) (m_dat m) ++ drop (S (Z.to_nat cnt)) (m_dat m)) :: c')
        | None => None
        end
      else match pull_byte c' (cnt - m_len m) with
           | Some (b, c') => Some (b, m :: c')
           | None => None
           end
  end.

Definition tcp_pulloutofband (s : istate) : outcome istate :=
  match pull_byte (ti_m (i_ti s)) (ti_urp (i_ti s) - 1) with
  | Some (b, m) =>
      let s := upd_tp s (fun tp => tp <| t_iobc := s8 b |> <| t_oobflags := bis (t_oobflags tp) TCPOOB_HAVEDATA |>) in
      Ok (upd_ti s (fun ti => ti <| ti_m := m |>))
  | None => Panic "tcp_pulloutofband"
  end.

(** The urgent pointer advances: the mark in the data stream. *)
Definition urg_advance (s : istate) : istate :=
  let up := seq_add (ti_seq (i_ti s)) (ti_urp (i_ti s)) in
  if SEQ_GT up (rcv_up (i_tp s)) then
    let s := upd_tp s (fun tp => tp <| rcv_up := up |>) in
    let mark := u16 (sb_cc (so_rcv (i_so s)) + (up - rcv_nxt (i_tp s)) - 1) in
    let s := upd_so s (fun so =>
      let so := so <| so_oobmark := mark |> in
      sohasoutofband (if mark =? 0 then so <| so_state := bis (so_state so) SS_RCVATMARK |> else so)) in
    upd_tp s (fun tp => tp <| t_oobflags := bic (t_oobflags tp) (Z.lor TCPOOB_HAVEDATA TCPOOB_HADDATA) |>)
  else s.

Definition input_urg (s : istate) : outcome istate :=
  let ti := i_ti s in
  if has (i_flags s) TH_URG && nz (ti_urp ti) && negb (TCPS_HAVERCVDFIN (t_state (i_tp s))) then
    if SB_MAX <? ti_urp ti + sb_cc (so_rcv (i_so s)) then
      Ok ((upd_ti s (fun ti => ti <| ti_urp := 0 |>)) <| i_flags := bic (i_flags s) TH_URG |>)
    else
      let s := urg_advance s in
      if (ti_urp ti <=? ti_len ti) && negb (has (so_options (i_so s)) SO_OOBINLINE)
      then tcp_pulloutofband s else Ok s
  else
    Ok (if SEQ_GT (rcv_nxt (i_tp s)) (rcv_up (i_tp s))
        then upd_tp s (fun tp => tp <| rcv_up := rcv_nxt tp |>) else s).

(** [max_rcvd], from [hiwat - (rcv_nxt - rcv_adv)]. *)
Definition note_rcvd (tp : tcpcb) (so : socket) : tcpcb :=
  let len := s32 (sb_hiwat (so_rcv so) - (rcv_nxt tp - rcv_adv tp)) in
  if max_rcvd tp <? len then tp <| max_rcvd := u16 len |> else tp.

Definition input_data (s : istate) : outcome istate :=
  if (nz (ti_len (i_ti s)) || has (i_flags s) TH_FIN) && negb (TCPS_HAVERCVDFIN (t_state (i_tp s))) then
    let* r := TCP_REASS (i_tp s) (i_so s) (i_ti s) in
    let '(tp, so, flags) := r in
    let tp := tp <| t_flags := bis (t_flags tp) (if e_nodelack e then TF_ACKNOW else TF_DELACK) |> in
    Ok (s <| i_c := (i_c s) <| c_tp := note_rcvd tp so |> <| c_so := so |> |> <| i_flags := flags |>)
  else Ok (s <| i_flags := bic (i_flags s) TH_FIN |>).

Definition fin_state (s : istate) : istate :=
  let state := t_state (i_tp s) in
  if (state =? TCPS_SYN_RECEIVED) || (state =? TCPS_ESTABLISHED)
  then upd_tp s (fun tp => tp <| t_state := TCPS_CLOSE_WAIT |>)
  else if state =? TCPS_FIN_WAIT_1 then upd_tp s (fun tp => tp <| t_state := TCPS_CLOSING |>)
  else if state =? TCPS_FIN_WAIT_2 then
    upd_so (upd_tp s (fun tp =>
      (tcp_canceltimers (tp <| t_state := TCPS_TIME_WAIT |>)) <| t_2msl := 2 * TCPTV_MSL |>)) soisdisconnected
  else if state =? TCPS_TIME_WAIT then upd_tp s (fun tp => tp <| t_2msl := 2 * TCPTV_MSL |>)
  else s.

Definition input_fin (s : istate) : istate :=
  if has (i_flags s) TH_FIN then
    let s := if TCPS_HAVERCVDFIN (t_state (i_tp s)) then s
             else upd_tp (upd_so s socantrcvmore) (fun tp =>
                    tp <| t_flags := bis (t_flags tp) TF_ACKNOW |> <| rcv_nxt := seq_add (rcv_nxt tp) 1 |>) in
    fin_state s
  else s.

Definition input_output (s : istate) : outcome (world * connection) :=
  if i_out s || has (t_flags (i_tp s)) TF_ACKNOW
  then let* r := tcp_output e (i_w s) (i_c s) in Ok (r.1.1, Open r.1.2)
  else Ok (i_w s, Open (i_c s)).

Definition step6 (s : istate) : outcome (world * connection) :=
  let* s := input_urg (input_wnd s) in
  let* s := input_data s in
  input_output (input_fin s).

(** ** The labels at the end *)

(** [soabort] of the socket made for a SYN that is not accepted. *)
Definition abort_temporary (dropsocket : bool) (w : world) (k : connection) : outcome (world * connection) :=
  match k with
  | Open c => if dropsocket then tcp_drop e w c ECONNABORTED else Ok (w, k)
  | Closed _ => Ok (w, k)
  end.

Definition the_conn (k : connection) : option conn := match k with Open c => Some c | Closed _ => None end.

(** What a reset answers to the segment. *)
Definition respond_reset (w : world) (k : connection) (ti : tcpiphdr) (flags : Z) : world :=
  if has flags TH_ACK then tcp_respond e w (the_conn k) ti 0 (ti_ack ti) TH_RST
  else
    let ti := if has flags TH_SYN then ti <| ti_len := s16 (ti_len ti + 1) |> else ti in
    tcp_respond e w (the_conn k) ti (seq_add (ti_seq ti) (ti_len ti)) 0 (Z.lor TH_RST TH_ACK).

(** [dropsocket]: the socket is still the temporary one. *)
Definition input_end (dropsocket : bool) (v : verdict) : outcome (world * connection) :=
  match v with
  | Go s => step6 s
  | Drop w k => abort_temporary dropsocket w k
  | DropAfterAck s =>
      if has (i_flags s) TH_RST then Ok (i_w s, Open (i_c s))
      else
        let tp := i_tp s in
        Ok (tcp_respond e (i_w s) (Some (i_c s)) (i_ti s) (rcv_nxt tp) (snd_nxt tp) TH_ACK, Open (i_c s))
  | DropWithReset w k ti flags =>
      let w := if has flags TH_RST || in_broadcast (e_ifaddrs e) (ti_dst ti) then w
               else respond_reset w k ti flags in
      abort_temporary dropsocket w k
  end.

(** The states past SYN_SENT, and CLOSED. *)
Definition input_general (s : istate) : outcome verdict :=
  vbind (input_nofdref s) (fun s =>
  vbind (input_window s) (fun s =>
  vbind (input_rst s) (fun s =>
  vbind (input_syn_noack s) input_ack))).

(** [tcp_input] of a segment whose block is [c], with its options. *)
Definition tcp_input (w : world) (c : conn) (om : option (list Z * Z)) (ti : tcpiphdr)
    : outcome (world * connection) :=
  let* c := input_begin c om ti in
  let s := Istate w c ti (ti_flags ti) false in
  let state := t_state (c_tp c) in
  if state =? TCPS_LISTEN then
    let* v := input_listen s om in
    match v with
    | Go s => let* s := input_trim s in step6 s
    | _ => input_end true v
    end
  else if state =? TCPS_SYN_SENT then
    let* v := input_syn_sent s in
    match v with
    | Go s => let* s := input_trim s in step6 s
    | _ => input_end false v
    end
  else
    let* v := input_general s in input_end false v.

(** A segment that finds no block is answered by a reset. *)
Definition tcp_input_closed (w : world) (ti : tcpiphdr) : world :=
  if has (ti_flags ti) TH_RST || in_broadcast (e_ifaddrs e) (ti_dst ti) then w
  else respond_reset w (Closed None) ti (ti_flags ti).
End Input.
