(* ===== verification/TcpUser.v ===== *)
(** * TCP timers and user requests: [sys/netinet/tcp_timer.c], [tcp_usrreq.c]

    The timer routines for one control block ([tcp_slowtimo] and [tcp_fasttimo]
    visit each in turn), and the requests the socket layer makes of TCP.  The
    four timers are the fields [t_rexmt], [t_persist], [t_keep] and [t_2msl] of
    the block, in the order of [TCPT_REXMT] to [TCPT_2MSL].  Traces are left
    out. *)
From S2P Require Import Prelude TcpSeq Mbuf Socket In Inpcb TcpVar TcpOutput.

Definition EWOULDBLOCK : Z := 35.
Definition EOPNOTSUPP : Z := 45.
Definition EISCONN : Z := 56.

Inductive timer := TCPT_REXMT | TCPT_PERSIST | TCPT_KEEP | TCPT_2MSL.

Definition t_timer (tp : tcpcb) (i : timer) : Z :=
  match i with
  | TCPT_REXMT => t_rexmt tp | TCPT_PERSIST => t_persist tp
  | TCPT_KEEP => t_keep tp | TCPT_2MSL => t_2msl tp
  end.

Definition set_timer (tp : tcpcb) (i : timer) (v : Z) : tcpcb :=
  match i with
  | TCPT_REXMT => tp <| t_rexmt := v |> | TCPT_PERSIST => tp <| t_persist := v |>
  | TCPT_KEEP => tp <| t_keep := v |> | TCPT_2MSL => tp <| t_2msl := v |>
  end.

Definition tcp_backoff : list Z := [1; 2; 4; 6; 8; 10; 15; 20; 30; 30; 30; 30; 30].

Section User.
Context (e : env).

(** ** [tcp_timers] *)

(** The interval until the next retransmission. *)
Definition rexmt_interval (tp : tcpcb) : outcome Z :=
  let rexmt := if fl_zero (t_srtt tp) then fl_to_int (fl_mul tcp_beta (fl_of_int TCPTV_SRTTDFLT))
               else fl_to_int (fl_mul tcp_beta (t_srtt tp)) in
  let* b := aget tcp_backoff (t_rxtshift tp - 1) in
  Ok (s32 (s32 rexmt * b)).

Definition timer_rexmt (w : world) (c : conn) : outcome (world * connection) :=
  let c := on_tp (fun tp => tp <| t_rxtshift := s16 (t_rxtshift tp + 1) |>) c in
  if TCP_MAXRXTSHIFT <? t_rxtshift (c_tp c) then tcp_drop e w c ETIMEDOUT
  else
    let* rexmt := rexmt_interval (c_tp c) in
    let c := on_tp (fun tp => tp <| t_rexmt := TCPT_RANGESET rexmt TCPTV_MIN TCPTV_MAX |>) c in
    let c := if (Z.quot TCP_MAXRXTSHIFT 4 <=? t_rxtshift (c_tp c)) || (10 * PR_SLOWHZ <=? rexmt)
             then c <| c_inp := in_losing (c_inp c) |> else c in
    let c := on_tp (fun tp =>
      let tp := tp <| snd_nxt := snd_una tp |> in
      if nz (t_rtt tp) && negb (fl_zero (t_srtt tp)) then tp <| t_rtt := 0 |> else tp) c in
    let* r := tcp_output e w c in
    Ok (r.1.1, Open r.1.2).

Definition timer_persist (w : world) (c : conn) : outcome (world * connection) :=
  let* tp := tcp_setpersist (c_tp c) in
  let* r := tcp_output e w (c <| c_tp := tp <| t_force := true |> |>) in
  Ok (r.1.1, Open (on_tp (fun tp => tp <| t_force := false |>) r.1.2)).

(** The template a probe is made of. *)
Definition keep_probe (w : world) (c : conn) : outcome world :=
  let tp := c_tp c in
  let* n := deref (t_template tp) in
  Ok (tcp_respond_probe e w c n (u32 (rcv_nxt tp - 1)) (u32 (snd_una tp - 1))).

Definition timer_keep (w : world) (c : conn) : outcome (world * connection) :=
  let tp := c_tp c in
  let rearm w := Ok (w, Open (on_tp (fun tp => tp <| t_keep := TCPTV_KEEP |>) c)) in
  if t_state tp <? TCPS_ESTABLISHED then tcp_drop e w c ETIMEDOUT
  else if has (so_options (c_so c)) SO_KEEPALIVE && (t_state tp <=? TCPS_CLOSE_WAIT) then
    if TCPTV_MAXIDLE <=? t_idle tp then tcp_drop e w c ETIMEDOUT
    else let* w := keep_probe w c in rearm w
  else rearm w.

Definition timer_2msl (w : world) (c : conn) : outcome (world * connection) :=
  let tp := c_tp c in
  if negb (t_state tp =? TCPS_TIME_WAIT) && (t_idle tp <=? TCPTV_MAXIDLE)
  then Ok (w, Open (on_tp (fun tp => tp <| t_2msl := TCPTV_KEEP |>) c))
  else tcp_close w c.

Definition tcp_timers (w : world) (c : conn) (i : timer) : outcome (world * connection) :=
  match i with
  | TCPT_2MSL => timer_2msl w c
  | TCPT_REXMT => timer_rexmt w c
  | TCPT_PERSIST => timer_persist w c
  | TCPT_KEEP => timer_keep w c
  end.

(** ** [tcp_slowtimo], [tcp_fasttimo] *)

(** The loop over the timers, which ends when the block is gone. *)
Fixpoint slowtimo_loop (l : list timer) (w : world) (c : conn) : outcome (world * connection) :=
  match l with
  | [] =>
      Ok (w, Open (on_tp (fun tp =>
        let tp := tp <| t_idle := s16 (t_idle tp + 1) |> in
        if nz (t_rtt tp) then tp <| t_rtt := s16 (t_rtt tp + 1) |> else tp) c))
  | i :: l =>
      if nz (t_timer (c_tp c) i) then
        let v := s16 (t_timer (c_tp c) i - 1) in
        let c := on_tp (fun tp => set_timer tp i v) c in
        if v =? 0 then
          let* r := tcp_timers w c i in
          match r.2 with
          | Open c => slowtimo_loop l r.1 c
          | Closed so => Ok (r.1, Closed so)
          end
        else slowtimo_loop l w c
      else slowtimo_loop l w c
  end.

Definition tcp_slowtimo_conn (w : world) (c : conn) : outcome (world * connection) :=
  slowtimo_loop [TCPT_REXMT; TCPT_PERSIST; TCPT_KEEP; TCPT_2MSL] w c.

(** The end of [tcp_slowtimo]: the initial sequence number moves. *)
Definition slowtimo_iss (w : world) : world :=
  let iss := seq_add (w_iss w) (Z.quot TCP_ISSINCR PR_SLOWHZ) in
  w <| w_iss := if s32 iss <? 0 then 0 else iss |>.

Definition tcp_fasttimo_conn (w : world) (c : conn) : outcome (world * conn) :=
  if has (t_flags (c_tp c)) TF_DELACK then
    let* r := tcp_output e w (on_tp (fun tp =>
      tp <| t_flags := bis (bic (t_flags tp) TF_DELACK) TF_ACKNOW |>) c) in
    Ok r.1
  else Ok (w, c).

(** ** [tcp_attach], [tcp_disconnect], [tcp_usrclosed] *)

Definition tcp_sendspace : Z := 1024 * 4.
Definition tcp_recvspace : Z := 1024 * 4.

(** [in_pcballoc]: a zeroed block in the chain. *)
Definition in_pcballoc (w : world) (so : socket) : world * option (inpcb * socket) :=
  let '(w, ok) := m_get e w in
  (w, if ok then Some (Inpcb 0 0 0 0 (Route None 0) None, so <| so_pcb := true |>) else None).

Definition tcp_attach (w : world) (so : socket) : outcome (world * (conn + socket) * Z) :=
  let* r := soreserve so tcp_sendspace tcp_recvspace in
  let '(error, so) := r in
  if nz error then Ok (w, inr so, error) else
  let '(w, r) := in_pcballoc w so in
  match r with
  | None => Ok (w, inr so, ENOBUFS)
  | Some (inp, so) =>
      let '(w, tp) := tcp_newtcpcb e w so in
      match tp with
      | None =>
          let nofd := Z.land (so_state so) SS_NOFDREF in
          let* r := in_pcbdetach w (so <| so_state := bic (so_state so) SS_NOFDREF |>) in
          let* so := deref r.2 in
          Ok (r.1, inr (so <| so_state := bis (so_state so) nofd |>), ENOBUFS)
      | Some tp => Ok (w, inl (Conn (tp <| t_state := TCPS_CLOSED |>) inp so), 0)
      end
  end.

Definition tcp_usrclosed (w : world) (c : conn) : outcome (world * connection) :=
  let state := t_state (c_tp c) in
  let to st := on_tp (fun tp => tp <| t_state := st |>) c in
  let settle c := if TCPS_FIN_WAIT_2 <=? t_state (c_tp c) then on_so soisdisconnected c else c in
  if (state =? TCPS_CLOSED) || (state =? TCPS_LISTEN) || (state =? TCPS_SYN_SENT)
  then tcp_close w (to TCPS_CLOSED)
  else if (state =? TCPS_SYN_RECEIVED) || (state =? TCPS_ESTABLISHED)
  then Ok (w, Open (settle (to TCPS_FIN_WAIT_1)))
  else if state =? TCPS_CLOSE_WAIT then Ok (w, Open (settle (to TCPS_LAST_ACK)))
  else Ok (w, Open (settle c)).

(** [if (tp) tcp_output(tp)], and its error. *)
Definition output_if_open (w : world) (k : connection) : outcome (world * connection * Z) :=
  match k with
  | Open c => let* r := tcp_output e w c in Ok (r.1.1, Open r.1.2, r.2)
  | Closed _ => Ok (w, k, 0)
  end.

Definition tcp_disconnect (w : world) (c : conn) : outcome (world * connection) :=
  if t_state (c_tp c) <? TCPS_ESTABLISHED then tcp_close w c
  else if has (so_options (c_so c)) SO_LINGER && (so_linger (c_so c) =? 0) then tcp_drop e w c 0
  else
    let c := on_so soisdisconnecting c in
    let* rcv := sbflush (so_rcv (c_so c)) in
    let* r := tcp_usrclosed w (on_so (fun so => so <| so_rcv := rcv |>) c) in
    let* r := output_if_open r.1 r.2 in
    Ok r.1.

(** ** [tcp_usrreq] *)

Inductive usrreq :=
| PRU_ATTACH
| PRU_DETACH
| PRU_BIND (nam : mbuf_nam)
| PRU_LISTEN
| PRU_CONNECT (nam : mbuf_nam)
| PRU_CONNECT2
| PRU_DISCONNECT
| PRU_ACCEPT
| PRU_SHUTDOWN
| PRU_RCVD
| PRU_SEND (m : chain)
| PRU_ABORT
| PRU_SENSE
| PRU_RCVOOB (peek : bool)
| PRU_SENDOOB (m : chain)
| PRU_SOCKADDR
| PRU_PEERADDR
| PRU_SLOWTIMO (i : timer).

(** What a request gives back besides its error. *)
Inductive reply := NoReply | Name (sin : sockaddr_in) | Oob (byte : Z) | Blksize (n : Z).

Definition pcbbind (w : world) (c : conn) (nam : option mbuf_nam) : outcome (world * conn * Z) :=
  let* r := in_pcbbind (e_ifaddrs e) (w_pcbs w) (w_lport w) (e_uid e) (so_options (c_so c)) PR_CONNREQUIRED
              (c_inp c) nam in
  let '(error, inp, hport) := r in
  Ok (w <| w_lport := hport |>, c <| c_inp := inp |>, error).

(** Bound if it was not. *)
Definition ensure_bound (w : world) (c : conn) : outcome (world * conn * Z) :=
  if inp_lport (c_inp c) =? 0 then pcbbind w c None else Ok (w, c, 0).

Definition pcbconnect (w : world) (c : conn) (nam : mbuf_nam) : outcome (world * conn * Z) :=
  let* r := in_pcbconnect (e_rtlookup e) (e_ifaddrs e) (w_pcbs w) (w_lport w) (e_uid e)
              (so_options (c_so c)) PR_CONNREQUIRED (c_inp c) nam in
  let '(error, inp, hport) := r in
  Ok (w <| w_lport := hport |>, c <| c_inp := inp |>, error).

Definition req_listen (w : world) (c : conn) : outcome (world * conn * Z) :=
  let* r := ensure_bound w c in
  let '(w, c, error) := r in
  Ok (w, if error =? 0 then on_tp (fun tp => tp <| t_state := TCPS_LISTEN |>) c else c, error).

(** SYN_SENT: a fresh send sequence, and the first segment. *)
Definition connect_start (w : world) (c : conn) : world * conn :=
  let c := on_so soisconnecting c in
  let c := on_tp (fun tp => tcp_sendseqinit
             (tp <| t_state := TCPS_SYN_SENT |> <| t_keep := TCPTV_KEEP |> <| iss := w_iss w |>)) c in
  (w <| w_iss := seq_add (w_iss w) (Z.quot TCP_ISSINCR 2) |>, c).

Definition req_connect (w : world) (c : conn) (nam : mbuf_nam) : outcome (world * conn * Z) :=
  let* r := ensure_bound w c in
  let '(w, c, error) := r in
  if nz error then Ok (w, c, error) else
  let* r := pcbconnect w c nam in
  let '(w, c, error) := r in
  if nz error then Ok (w, c, error) else
  let '(w, n) := tcp_template e w c in
  let c := on_tp (fun tp => tp <| t_template := n |>) c in
  match n with
  | None => Ok (w, c <| c_inp := in_pcbdisconnect (c_inp c) |>, ENOBUFS)
  | Some _ => let '(w, c) := connect_start w c in tcp_output e w c
  end.

Definition req_send (w : world) (c : conn) (m : chain) : outcome (world * conn * Z) :=
  let* r := tcp_output e w (on_so (fun so => so <| so_snd := sbappend (so_snd so) m |>) c) in
  Ok (r.1, if r.2 =? ENOBUFS then 0 else r.2).

Definition req_sendoob (w : world) (c : conn) (m : chain) : outcome (world * conn * Z) :=
  if sbspace (so_snd (c_so c)) <? - 512 then Ok (w, c, ENOBUFS) else
  let c := on_so (fun so => so <| so_snd := sbappend (so_snd so) m |>) c in
  let c := on_tp (fun tp => tp <| snd_up := seq_add (snd_una tp) (sb_cc (so_snd (c_so c))) |>
                               <| t_force := true |>) c in
  let* r := tcp_output e w c in
  Ok (r.1.1, on_tp (fun tp => tp <| t_force := false |>) r.1.2, r.2).

Definition req_rcvoob (c : conn) (peek : bool) : conn * Z * reply :=
  let so := c_so c in
  let tp := c_tp c in
  if ((so_oobmark so =? 0) && negb (has (so_state so) SS_RCVATMARK)) || has (so_options so) SO_OOBINLINE
     || has (t_oobflags tp) TCPOOB_HADDATA
  then (c, EINVAL, NoReply)
  else if negb (has (t_oobflags tp) TCPOOB_HAVEDATA) then (c, EWOULDBLOCK, NoReply)
  else (if peek then c
        else on_tp (fun tp => tp <| t_oobflags := Z.lxor (t_oobflags tp) (Z.lor TCPOOB_HAVEDATA TCPOOB_HADDATA) |>) c,
        0, Oob (t_iobc tp)).

(** A request that leaves the block there, with its error. *)
Definition stays (r : outcome (world * conn * Z)) : outcome (world * connection * Z * reply) :=
  let* r := r in Ok (r.1.1, Open r.1.2, r.2, NoReply).

(** A request that may close it. *)
Definition ends (r : outcome (world * connection)) : outcome (world * connection * Z * reply) :=
  let* r := r in Ok (r.1, r.2, 0, NoReply).

(** [tcp_usrreq] of an attached socket, without rights. *)
Definition tcp_usrreq (w : world) (c : conn) (req : usrreq) : outcome (world * connection * Z * reply) :=
  match req with
  | PRU_ATTACH => Ok (w, Open c, EISCONN, NoReply)
  | PRU_DETACH =>
      ends (if TCPS_LISTEN <? t_state (c_tp c) then tcp_disconnect w c else tcp_close w c)
  | PRU_BIND nam => stays (pcbbind w c (Some nam))
  | PRU_LISTEN => stays (req_listen w c)
  | PRU_CONNECT nam => stays (req_connect w c nam)
  | PRU_CONNECT2 => Ok (w, Open c, EOPNOTSUPP, NoReply)
  | PRU_DISCONNECT => ends (tcp_disconnect w c)
  | PRU_ACCEPT | PRU_PEERADDR => Ok (w, Open c, 0, Name (in_setpeeraddr (c_inp c)))
  | PRU_SHUTDOWN =>
      let* r := tcp_usrclosed w (on_so socantsendmore c) in
      let* r := output_if_open r.1 r.2 in
      Ok (r.1, r.2, NoReply)
  | PRU_RCVD => stays (let* r := tcp_output e w c in Ok (r.1, 0))
  | PRU_SEND m => stays (req_send w c m)
  | PRU_ABORT => ends (tcp_drop e w c ECONNABORTED)
  | PRU_SENSE => Ok (w, Open c, 0, Blksize (sb_hiwat (so_snd (c_so c))))
  | PRU_RCVOOB peek => let '(c, error, b) := req_rcvoob c peek in Ok (w, Open c, error, b)
  | PRU_SENDOOB m => stays (req_sendoob w c m)
  | PRU_SOCKADDR => Ok (w, Open c, 0, Name (in_setsockaddr (c_inp c)))
  | PRU_SLOWTIMO i => ends (tcp_timers w c i)
  end.
End User.

(** ** [tcp_ctloutput], at level [IPPROTO_TCP] *)

(** The integer option in the mbuf, when there is one of its size. *)
Definition setopt_nodelay (tp : tcpcb) (m : option Z) : tcpcb * Z :=
  match m with
  | None => (tp, EINVAL)
  | Some v => (tp <| t_flags := if nz v then bis (t_flags tp) TF_NODELAY else bic (t_flags tp) TF_NODELAY |>, 0)
  end.

Definition TCP_NODELAY : Z := 0x01.
Definition TCP_MAXSEG : Z := 0x02.

Definition tcp_setopt (tp : tcpcb) (optname : Z) (m : option Z) : tcpcb * Z :=
  if optname =? TCP_NODELAY then setopt_nodelay tp m else (tp, EINVAL).

Definition tcp_getopt (tp : tcpcb) (optname : Z) : option Z * Z :=
  if optname =? TCP_NODELAY then (Some (Z.land (t_flags tp) TF_NODELAY), 0)
  else if optname =? TCP_MAXSEG then (Some (t_maxseg tp), 0)
  else (None, EINVAL).
