(* ===== verification/TcpInv.v ===== *)
(** * The invariant of a TCP connection

    What holds of every control block, its socket and the kernel around it
    between two calls of TCP, and that the subroutines of TCP keep it: the send
    sequence fits the send buffer, the buffers' counts are right, the timers are
    in bounds and never both retransmit and persist, what waits on the sequencing
    queue fits the receive buffer, and a socket that waits to be accepted is on
    its queue. *)
From S2P Require Import Prelude TcpSeq Mbuf Socket In Inpcb TcpVar TcpReass TcpOutput TcpOutSeq TcpOutSend TcpUser.

Create HintDb tcp.

(** ** Buffers and sockets *)

Definition unlocked (sb : sockbuf) : Prop := Z.land (sb_flags sb) SB_LOCK = 0.

(** The same contents, whatever happened to the flags of waiting and selecting. *)
Definition buf_same (sb sb' : sockbuf) : Prop :=
  sb_cc sb' = sb_cc sb /\ sb_mbcnt sb' = sb_mbcnt sb /\ sb_mb sb' = sb_mb sb /\
  (unlocked sb -> unlocked sb').

Definition so_same (so so' : socket) : Prop :=
  buf_same (so_rcv so) (so_rcv so') /\ buf_same (so_snd so) (so_snd so') /\
  so_id so' = so_id so /\ so_head so' = so_head so.

#[export] Instance buf_same_preorder : PreOrder buf_same.
Proof.
  split; [by intros ?|]. intros a b c (A1 & A2 & A3 & A4) (B1 & B2 & B3 & B4).
  split_and!; [congruence..|auto].
Qed.

#[export] Instance so_same_preorder : PreOrder so_same.
Proof.
  split; [by intros ?|]. intros a b c (A1 & A2 & A3 & A4) (B1 & B2 & B3 & B4).
  split_and!; [by etrans|by etrans|congruence..].
Qed.

Lemma unlocked_bic f b : Z.land f SB_LOCK = 0 -> Z.land (Z.land f (Z.lnot b)) SB_LOCK = 0.
Proof. intros H. by rewrite <- Z.land_assoc, (Z.land_comm (Z.lnot b)), Z.land_assoc, H. Qed.

Lemma sbwakeup_same sb : buf_same sb (sbwakeup sb).
Proof.
  unfold sbwakeup. set (sb1 := if sb_sel sb then _ else _).
  assert (buf_same sb sb1) as ->.
  { unfold sb1. destruct (sb_sel sb); [|done]. split_and!; try done. intros. by apply unlocked_bic. }
  destruct (nz _); [|done]. split_and!; try done. intros. by apply unlocked_bic.
Qed.

Lemma sorwakeup_same so : so_same so (sorwakeup so).
Proof. split; [apply sbwakeup_same|]. split; [|done]. split_and!; done. Qed.
Lemma sowwakeup_same so : so_same so (sowwakeup so).
Proof. split; [split_and!; done|]. split; [apply sbwakeup_same|done]. Qed.
Lemma so_state_same so st : so_same so (so <| so_state := st |>).
Proof. repeat split; auto. Qed.

Lemma soisdisconnected_same so : so_same so (soisdisconnected so).
Proof. unfold soisdisconnected. etrans; [apply so_state_same|]. etrans; [apply sowwakeup_same|apply sorwakeup_same]. Qed.
Lemma soisdisconnecting_same so : so_same so (soisdisconnecting so).
Proof. unfold soisdisconnecting. etrans; [apply so_state_same|]. etrans; [apply sowwakeup_same|apply sorwakeup_same]. Qed.
Lemma socantrcvmore_same so : so_same so (socantrcvmore so).
Proof. unfold socantrcvmore. etrans; [apply so_state_same|apply sorwakeup_same]. Qed.
Lemma socantsendmore_same so : so_same so (socantsendmore so).
Proof. unfold socantsendmore. etrans; [apply so_state_same|apply sowwakeup_same]. Qed.
Lemma soisconnecting_same so : so_same so (soisconnecting so).
Proof. apply so_state_same. Qed.

Lemma sohasoutofband_same so : so_same so (sohasoutofband so).
Proof.
  unfold sohasoutofband. destruct (sb_sel (so_rcv so)); [|done].
  split; [|by repeat split]. split_and!; try done. intros. by apply unlocked_bic.
Qed.

#[export] Hint Resolve sorwakeup_same sowwakeup_same so_state_same soisdisconnected_same
  soisdisconnecting_same socantrcvmore_same socantsendmore_same soisconnecting_same
  sohasoutofband_same : tcp.

Lemma sb_ok_same sb sb' : buf_same sb sb' -> sb_ok sb -> sb_ok sb'.
Proof.
  intros (E1 & E2 & E3 & _) [(C1 & C2 & C3 & C4) F]. unfold sb_ok, counted. rewrite E1, E2, E3.
  done.
Qed.

Lemma sb_stream_same sb sb' : buf_same sb sb' -> sb_stream sb -> sb_stream sb'.
Proof. intros (_ & _ & E3 & _). unfold sb_stream. by rewrite E3. Qed.

Lemma snd_ok_buf tp so so' : buf_same (so_snd so) (so_snd so') -> snd_ok tp so -> snd_ok tp so'.
Proof.
  intros Hs (A1 & A2 & A3 & A4 & A5 & A6 & A7 & A8). pose proof Hs as (E & _).
  unfold snd_ok. rewrite E. do 5 (split; [done|]). split; [by eapply sb_ok_same|].
  split; [by eapply sb_stream_same|done].
Qed.

Lemma snd_ok_so tp so so' : so_same so so' -> snd_ok tp so -> snd_ok tp so'.
Proof. intros (_ & Hs & _). by apply snd_ok_buf. Qed.

(** ** The receive side *)

(** A segment that waits: its text may lack the byte of out-of-band data. *)
Definition seg_wf (ti : tcpiphdr) : Prop :=
  0 <= ti_len ti < 2 ^ 15 /\ ti_len ti - 1 <= chain_len (ti_m ti) <= ti_len ti.

Definition queue_text (q : list tcpiphdr) : Z := foldr (fun ti n => chain_len (ti_m ti) + n) 0 q.

(** The receive buffer, with room in its 16-bit counts for the queue. *)
Definition rcv_ok (q : list tcpiphdr) (so : socket) : Prop :=
  Forall seg_wf q /\ rcv_room so (queue_text q) (queue_cost q).

Lemma rcv_room_same so so' n m : so_same so so' -> rcv_room so n m -> rcv_room so' n m.
Proof.
  intros (Hr & _) (A & B & C). pose proof Hr as (E1 & E2 & _). unfold rcv_room. rewrite E1, E2.
  split; [by eapply sb_ok_same|done].
Qed.

Lemma rcv_ok_same q so so' : so_same so so' -> rcv_ok q so -> rcv_ok q so'.
Proof. intros H [A B]. split; [done|by eapply rcv_room_same]. Qed.

Lemma queue_text_app q1 q2 : queue_text (q1 ++ q2) = queue_text q1 + queue_text q2.
Proof. induction q1 as [|t q1 IH]; simpl; [done|]. rewrite IH. lia. Qed.

Lemma queue_text_nonneg q : 0 <= queue_text q.
Proof. induction q as [|t q IH]; simpl; [lia|]. pose proof (chain_len_nonneg (ti_m t)). lia. Qed.

Lemma chain_len_m_adj c n c' : m_adj c n = Ok c' -> 0 <= n ->
  chain_len c' = Z.max 0 (chain_len c - n).
Proof.
  intros E Hn. destruct (m_adj_spec c n) as (c1 & E1 & _ & D); [pose proof (chain_len_nonneg c); lia|].
  rewrite E in E1. injection E1 as <-. destruct (Z.leb_spec 0 n); [|lia].
  unfold chain_len. rewrite D. unfold zlen. rewrite length_drop. lia.
Qed.

Lemma seg_trim_wf ti n : seg_wf ti -> 0 <= n < ti_len ti ->
  exists ti', seg_trim ti n = Ok ti' /\ seg_wf ti' /\
    chain_len (ti_m ti') <= chain_len (ti_m ti) /\ chain_cost (ti_m ti') = chain_cost (ti_m ti).
Proof.
  intros [Hl Hc] Hn. unfold seg_trim.
  destruct (m_adj_spec (ti_m ti) n) as (m & E & _ & _); [pose proof (chain_len_nonneg (ti_m ti)); lia|].
  rewrite E. cbn [obind]. pose proof (chain_len_m_adj _ _ _ E ltac:(lia)) as El.
  eexists. split; [done|]. unfold seg_wf. tsimp.
  rewrite s16_small by lia.
  split; [lia|]. split; [lia|]. eapply m_adj_cost; [exact E|lia].
Qed.

(** What reassembly does to the socket: the receive buffer grows. *)
Definition rcv_step (so so' : socket) : Prop :=
  buf_same (so_snd so) (so_snd so') /\ so_id so' = so_id so /\ so_head so' = so_head so /\
  (unlocked (so_rcv so) -> unlocked (so_rcv so')).

#[export] Instance rcv_step_preorder : PreOrder rcv_step.
Proof.
  split; [by intros ?|]. intros a b c (A1 & A2 & A3 & A4) (B1 & B2 & B3 & B4).
  split_and!; [by etrans|congruence..|auto].
Qed.

Lemma so_same_step so so' : so_same so so' -> rcv_step so so'.
Proof. intros ((_ & _ & _ & Hu) & Hs & Hi & Hh). by split_and!. Qed.

Lemma rcv_append so m n k : rcv_room so (chain_len m + n) (chain_cost m + k) -> 0 <= n -> 0 <= k ->
  let so' := so <| so_rcv := sbappend (so_rcv so) m |> in rcv_room so' n k /\ rcv_step so so'.
Proof.
  intros (Hok & Hc & Hm) Hn Hk.
  destruct (sbappend_spec (so_rcv so) m Hok) as (O & _ & (_ & _ & Sf & _) & C & M); [lia|lia|].
  split; [split; [exact O|]; tsimp; lia|]. split; [split_and!; done|]. do 2 (split; [done|]).
  unfold unlocked. tsimp. by rewrite Sf.
Qed.

Lemma reass_find_app q s : (reass_find q s).1 ++ (reass_find q s).2 = q.
Proof.
  induction q as [|p q IH]; [done|]. cbn [reass_find]. destruct (SEQ_GT _ _); [done|].
  destruct (reass_find q s). simpl in *. by f_equal.
Qed.

Lemma reass_before_wf before ti : seg_wf ti ->
  exists r, reass_before before ti = Ok r /\
    match r with
    | None => True
    | Some ti' => seg_wf ti' /\ chain_len (ti_m ti') <= chain_len (ti_m ti) /\
                  chain_cost (ti_m ti') = chain_cost (ti_m ti)
    end.
Proof.
  intros Hwf. unfold reass_before. destruct (last before) as [p|]; [|by exists (Some ti)].
  destruct (Z.ltb_spec 0 (seq_int (ti_seq p + ti_len p) (ti_seq ti))) as [Hi|]; [|by exists (Some ti)].
  destruct (Z.leb_spec (ti_len ti) (seq_int (ti_seq p + ti_len p) (ti_seq ti))); [by exists None|].
  destruct (seg_trim_wf ti (seq_int (ti_seq p + ti_len p) (ti_seq ti))) as (ti' & -> & H'); [done|lia|].
  by exists (Some ti').
Qed.

Lemma reass_after_wf after ti : Forall seg_wf after ->
  exists q, reass_after after ti = Ok q /\ Forall seg_wf q /\ queue_text q <= queue_text after /\
    queue_cost q <= queue_cost after.
Proof.
  induction after as [|p q IH]; intros Hf; cbn [reass_after]; [by exists []|].
  apply Forall_cons in Hf as [Hp Hf]. set (i := seq_int _ _).
  destruct (Z.leb_spec i 0); [exists (p :: q); split; [done|]; split; [by constructor|done]|].
  destruct (Z.ltb_spec i (ti_len p)) as [Hi|Hi].
  - destruct (seg_trim_wf p i Hp) as (p' & -> & W & L & C); [lia|]. exists (p' :: q). split; [done|].
    split; [by constructor|]. simpl. lia.
  - destruct (IH Hf) as (q' & -> & F & T & C). exists q'. split; [done|]. split; [done|].
    pose proof (chain_len_nonneg (ti_m p)). pose proof (chain_cost_nonneg (ti_m p)). simpl. lia.
Qed.

Lemma reass_present_wf q nxt so f n k : Forall seg_wf q -> 0 <= n -> 0 <= k ->
  rcv_room so (queue_text q + n) (queue_cost q + k) ->
  let '(q', _, so', _) := reass_present q nxt so f in
  Forall seg_wf q' /\ rcv_room so' (queue_text q' + n) (queue_cost q' + k) /\ rcv_step so so'.
Proof.
  intros Hf Hn Hk. revert nxt so f Hf. induction q as [|ti q IH]; intros nxt so f Hf Hr; cbn [reass_present]; [by split|].
  destruct (_ =? _); [|by split]. apply Forall_cons in Hf as [Hti Hf].
  assert (H : let so' := if has (so_state so) SS_CANTRCVMORE then so
                         else so <| so_rcv := sbappend (so_rcv so) (ti_m ti) |> in
              rcv_room so' (queue_text q + n) (queue_cost q + k) /\ rcv_step so so').
  { pose proof (chain_len_nonneg (ti_m ti)). pose proof (chain_cost_nonneg (ti_m ti)).
    pose proof (queue_text_nonneg q). pose proof (queue_cost_nonneg q). simpl in Hr.
    destruct (has _ _).
    - split; [|done]. destruct Hr as (A & B & C). split; [done|lia].
    - apply rcv_append; [by rewrite !Z.add_assoc|lia..]. }
  cbv zeta in H. set (so1 := if has _ _ then _ else _) in *. destruct H as [H1 H2].
  specialize (IH (seq_add nxt (ti_len ti)) so1 (Z.land (ti_flags ti) TH_FIN) Hf H1).
  destruct (reass_present q _ so1 _) as [[[q' nxt'] so'] f']. destruct IH as (I0 & I1 & I2).
  split; [done|]. split; [done|by etrans].
Qed.

Lemma tcp_present_room tp so n k : Forall seg_wf (seg_q tp) -> 0 <= n -> 0 <= k ->
  rcv_room so (queue_text (seg_q tp) + n) (queue_cost (seg_q tp) + k) ->
  exists q nxt so' f, tcp_present tp so = (tp <| seg_q := q |> <| rcv_nxt := nxt |>, so', f) /\
    Forall seg_wf q /\ rcv_room so' (queue_text q + n) (queue_cost q + k) /\ rcv_step so so'.
Proof.
  intros Hf Hn Hk Hr. unfold tcp_present.
  assert (Hsame : exists q nxt so' f, (tp, so, 0) = (tp <| seg_q := q |> <| rcv_nxt := nxt |>, so', f) /\
    Forall seg_wf q /\ rcv_room so' (queue_text q + n) (queue_cost q + k) /\ rcv_step so so')
    by (exists (seg_q tp), (rcv_nxt tp), so, 0; split; [by destruct tp|by split]).
  destruct (negb _); [done|]. destruct (seg_q tp) as [|ti q] eqn:Eq; [done|].
  destruct (negb _); [done|]. destruct (_ && _); [done|].
  pose proof (reass_present_wf (ti :: q) (rcv_nxt tp) so 0 n k Hf Hn Hk Hr) as H.
  destruct (reass_present _ _ _ _) as [[[q' nxt'] so'] f']. destruct H as (H0 & H1 & H2).
  exists q', nxt', (sorwakeup so'), f'. split; [done|]. split; [done|].
  split; [by eapply rcv_room_same; [apply sorwakeup_same|]|].
  etrans; [exact H2|]. apply so_same_step, sorwakeup_same.
Qed.

Lemma tcp_present_wf tp so : rcv_ok (seg_q tp) so ->
  exists q nxt so' f, tcp_present tp so = (tp <| seg_q := q |> <| rcv_nxt := nxt |>, so', f) /\
    rcv_ok q so' /\ rcv_step so so'.
Proof.
  intros [Hf Hr]. destruct (tcp_present_room tp so 0 0 Hf) as (q & nxt & so' & f & E & F & R & S);
    [done|done|by rewrite !Z.add_0_r|]. rewrite !Z.add_0_r in R. exists q, nxt, so', f. done.
Qed.

Lemma tcp_reass_wf tp so ti : rcv_ok (seg_q tp) so -> seg_wf ti ->
  rcv_room so (queue_text (seg_q tp) + chain_len (ti_m ti)) (queue_cost (seg_q tp) + chain_cost (ti_m ti)) ->
  exists q nxt so' f, tcp_reass tp so (Some ti) = Ok (tp <| seg_q := q |> <| rcv_nxt := nxt |>, so', f) /\
    rcv_ok q so' /\ rcv_step so so'.
Proof.
  intros [Hf Hr] Hti Hroom. unfold tcp_reass. pose proof (reass_find_app (seg_q tp) (ti_seq ti)) as Eq.
  destruct (reass_find _ _) as [q1 q2]. simpl in Eq. rewrite <- Eq in Hf, Hroom.
  apply Forall_app in Hf as [F1 F2]. rewrite queue_text_app, queue_cost_app in Hroom.
  destruct (reass_before_wf q1 ti Hti) as (r & -> & Hb). cbn [obind]. destruct r as [ti'|].
  2: { exists (seg_q tp), (rcv_nxt tp), so, 0. split; [by destruct tp|]. split; [|done].
       split; [rewrite <- Eq; by apply Forall_app|done]. }
  destruct Hb as (W & L & C). destruct (reass_after_wf q2 ti' F2) as (q2' & -> & G1 & G2 & G3). cbn [obind].
  destruct (tcp_present_wf (tp <| seg_q := q1 ++ ti' :: q2' |>) so) as (q & nxt & so' & f & -> & H).
  - split; [tsimp; apply Forall_app; split; [done|by constructor]|]. tsimp.
    rewrite queue_text_app, queue_cost_app. simpl. destruct Hroom as (A & B & D). split; [done|lia].
  - by exists q, nxt, so', f.
Qed.

Lemma TCP_REASS_wf tp so ti : rcv_ok (seg_q tp) so -> seg_wf ti ->
  rcv_room so (queue_text (seg_q tp) + chain_len (ti_m ti)) (queue_cost (seg_q tp) + chain_cost (ti_m ti)) ->
  exists q nxt so' f, TCP_REASS tp so ti = Ok (tp <| seg_q := q |> <| rcv_nxt := nxt |>, so', f) /\
    rcv_ok q so' /\ rcv_step so so'.
Proof.
  intros Hok Hti Hroom. unfold TCP_REASS. destruct (_ && _) eqn:E; [|by apply tcp_reass_wf].
  apply andb_true_iff in E as [E _]. apply andb_true_iff in E as [_ E%bool_decide_eq_true].
  destruct (rcv_append so (ti_m ti) 0 0) as [R S]; [|lia..|].
  { rewrite E in Hroom. destruct Hroom as (A & B & C). simpl in *. split; [done|lia]. }
  eexists (seg_q tp), _, _, _. split; [by destruct tp|]. rewrite E. split.
  - eapply rcv_ok_same; [apply sorwakeup_same|]. split; [done|exact R].
  - etrans; [exact S|]. apply so_same_step, sorwakeup_same.
Qed.

(** ** The queues of the accepting socket *)

(** A socket that waits for its handshake is on [so_q0]; later it may be on
    [so_q] too. *)
Definition queue_ok (qs : queues) (state : Z) (so : socket) : Prop :=
  match so_head so with
  | None => True
  | Some h => exists sq, qs !! h = Some sq /\
                (so_id so ∈ so_q0 sq \/ TCPS_ESTABLISHED <= state /\ so_id so ∈ so_q sq)
  end.

Lemma queue_ok_same qs s so so' : so_same so so' -> queue_ok qs s so -> queue_ok qs s so'.
Proof. intros (_ & _ & Ei & Eh). unfold queue_ok. by rewrite Ei, Eh. Qed.

Lemma queue_ok_step qs s so so' : rcv_step so so' -> queue_ok qs s so -> queue_ok qs s so'.
Proof. intros (_ & Ei & Eh & _). unfold queue_ok. by rewrite Ei, Eh. Qed.

Lemma queue_ok_later qs s s' so : queue_ok qs s so -> s <= s' -> queue_ok qs s' so.
Proof.
  unfold queue_ok. destruct (so_head so); [|done]. intros (sq & E & [H|[H1 H2]]) Hs; exists sq; (split; [done|]);
    [by left|right]. split; [lia|done].
Qed.

Lemma soisconnected_ok qs s so : queue_ok qs s so -> s < TCPS_ESTABLISHED ->
  exists qs' so', soisconnected qs so = Ok (qs', so') /\ so_same so so' /\
    queue_ok qs' TCPS_ESTABLISHED so'.
Proof.
  intros Hq Hs. unfold soisconnected, queue_ok in *. destruct (so_head so) as [h|] eqn:Eh; cbn [obind].
  2: { eexists _, _. split; [done|]. cbn [fst snd]. set (so' := sowwakeup _).
       assert (Hsame : so_same so so').
       { etrans; [apply so_state_same|]. etrans; [apply sorwakeup_same|apply sowwakeup_same]. }
       split; [exact Hsame|]. destruct Hsame as (_ & _ & _ & ->). by rewrite Eh. }
  destruct Hq as (sq & El & [Hin|[? _]]); [|lia]. unfold soqremque. rewrite Eh. cbn [deref obind].
  rewrite El. cbn [deref obind]. destruct (unlink_Some _ _ Hin) as (l1 & l2 & _ & _ & ->).
  cbn [obind negb]. unfold soqinsque. rewrite lookup_insert_eq. cbn [deref obind].
  eexists _, _. split; [done|]. cbn [fst snd].
  set (so1 := _ <| so_head := Some h |>).
  assert (Hsame : so_same so (sowwakeup (sorwakeup (so1 <| so_state := bis (bic (so_state so1)
    (Z.lor SS_ISCONNECTING SS_ISDISCONNECTING)) SS_ISCONNECTED |>)))).
  { etrans; [|etrans; [apply sorwakeup_same|apply sowwakeup_same]].
    split; [by split_and!|]. split; [by split_and!|]. unfold so1. tsimp. done. }
  split; [exact Hsame|]. destruct Hsame as (_ & _ & -> & ->). rewrite Eh.
  eexists. rewrite lookup_insert_eq. split; [done|]. right. split; [done|]. cbn [so_q so_id set_field].
  apply elem_of_cons. by left.
Qed.

Definition bufs_ok (so : socket) : Prop :=
  sb_ok (so_snd so) /\ sb_ok (so_rcv so) /\ unlocked (so_snd so) /\ unlocked (so_rcv so).

Lemma bufs_ok_same so so' : so_same so so' -> bufs_ok so -> bufs_ok so'.
Proof.
  intros (Hr & Hs & _) (A & B & C & D). split_and!; [by eapply sb_ok_same|by eapply sb_ok_same|..].
  - by apply Hs.
  - by apply Hr.
Qed.

Lemma sbrelease_ok sb : sb_ok sb -> unlocked sb -> exists sb', sbrelease sb = Ok sb'.
Proof. intros Hok Hu. unfold sbrelease. rewrite (sbflush_spec sb Hok). unfold unlocked in Hu. rewrite Hu. by eexists. Qed.

Lemma soqremque_ok qs so h sq (q : bool) : so_head so = Some h -> qs !! h = Some sq ->
  exists qs' so' found, soqremque qs so q = Ok (qs', so', found) /\
    so_snd so' = so_snd so /\ so_rcv so' = so_rcv so /\ so_state so' = so_state so /\
    (found = false -> qs' = qs /\ so' = so) /\
    (so_id so ∈ (if q then so_q sq else so_q0 sq) -> found = true).
Proof.
  intros Eh El. unfold soqremque. rewrite Eh. cbn [deref obind]. rewrite El. cbn [deref obind].
  destruct (unlink _ _) as [l|] eqn:Eu; eexists _, _, _; (split; [done|]); [done|].
  do 3 (split; [done|]). split; [done|]. intros Hin.
  destruct (unlink_Some _ _ Hin) as (? & ? & _ & _ & E). congruence.
Qed.

Lemma sofree_ok qs s so : bufs_ok so -> queue_ok qs s so -> exists r, sofree qs so = Ok r.
Proof.
  intros Hb Hq. unfold sofree.
  assert (H : exists qs' so', match so_head so with
    | Some _ => let* r := soqremque qs so false in let '(qs, so, found) := r in
        if found : bool then Ok (qs, so) else
        let* r := soqremque qs so true in let '(qs, so, found) := r in
        if found : bool then Ok (qs, so) else Panic "sofree dq"
    | None => Ok (qs, so) end = Ok (qs', so') /\ so_snd so' = so_snd so /\ so_rcv so' = so_rcv so).
  { unfold queue_ok in Hq. destruct (so_head so) as [h|] eqn:Eh; [|by eexists _, _].
    destruct Hq as (sq & El & Hin). destruct (soqremque_ok qs so h sq false Eh El) as (qs1 & so1 & f1 & -> & S1 & R1 & _ & Hno & H1).
    cbn [obind]. destruct f1; [by eexists _, _|]. destruct (Hno eq_refl) as [-> ->].
    destruct (soqremque_ok qs so h sq true Eh El) as (qs2 & so2 & f2 & -> & S2 & R2 & _ & _ & H2).
    cbn [obind]. destruct f2; [by eexists _, _|]. exfalso. destruct Hin as [Hin|[_ Hin]]; [by specialize (H1 Hin)|by specialize (H2 Hin)]. }
  destruct H as (qs' & so' & -> & Es & Er). cbn [obind]. destruct (so_pcb so' || _); [by eexists|].
  destruct Hb as (B1 & B2 & B3 & B4). rewrite Es. destruct (sbrelease_ok _ B1 B3) as [snd ->]. cbn [obind].
  unfold sorflush. set (so2 := socantrcvmore _).
  assert (so_same (so' <| so_snd := snd |>) so2) as (Hr & _) by apply socantrcvmore_same.
  destruct (sbrelease_ok (so_rcv so2)) as [rcv ->]; [|apply Hr; tsimp; by rewrite Er|by eexists].
  eapply sb_ok_same; [exact Hr|]. tsimp. by rewrite Er.
Qed.

Lemma tcp_close_ok w c s : bufs_ok (c_so c) -> queue_ok (w_queues w) s (c_so c) ->
  exists w' so, tcp_close w c = Ok (w', Closed so).
Proof.
  intros Hb Hq. unfold tcp_close, in_pcbdetach.
  destruct (sofree_ok (w_queues w) s ((soisdisconnected (c_so c)) <| so_pcb := false |>)) as [r ->].
  - exact (bufs_ok_same _ _ (soisdisconnected_same _) Hb).
  - exact (queue_ok_same _ _ _ _ (soisdisconnected_same _) Hq).
  - by eexists _, _.
Qed.

(** ** Timers and routes *)

(** Never both the retransmit and the persist timer; each within its bounds. *)
Definition timers_ok (tp : tcpcb) : Prop :=
  (t_rexmt tp = 0 \/ t_persist tp = 0) /\ 0 <= t_rexmt tp <= TCPTV_MAX /\
  0 <= t_persist tp <= TCPTV_MAX /\ 0 <= t_keep tp <= TCPTV_KEEP /\
  0 <= t_2msl tp <= TCPTV_MAXIDLE /\ 0 <= t_rxtshift tp <= TCP_MAXRXTSHIFT.

(** An interface takes more than the headers. *)
Definition mtu_ok (r : option ifnet) : Prop :=
  match r with Some ifp => sizeof_tcpiphdr < if_mtu ifp | None => True end.
Definition route_ok (c : conn) : Prop := mtu_ok (route_ifp (inp_route (c_inp c))).

(** At most the first 32768 allocations fail; the routes are usable. *)
Definition env_ok (e : env) : Prop :=
  (exists K, Z.of_nat K <= 2 ^ 15 /\ forall k, (K <= k)%nat -> e_mget e k = true) /\
  (forall dst, match e_rtlookup e dst with Some rt => mtu_ok (rt_ifp rt) | None => True end).

(** What a call leaves of the kernel around a connection. *)
Definition world_same (w w' : world) : Prop :=
  w_iss w' = w_iss w /\ w_queues w' = w_queues w /\ w_pcbs w' = w_pcbs w /\ w_lport w' = w_lport w.

#[export] Instance world_same_preorder : PreOrder world_same.
Proof. split; [by intros ?|]. unfold world_same. intros a b c ? ?. intuition congruence. Qed.

Lemma rtalloc_ok e ro : env_ok e -> mtu_ok (route_ifp ro) -> mtu_ok (route_ifp (rtalloc (e_rtlookup e) ro)).
Proof.
  intros [_ He] Hr. unfold rtalloc. specialize (He (ro_dst ro)). destruct (e_rtlookup e (ro_dst ro)) as [rt|]; [|done].
  exact He.
Qed.

Lemma tcp_mss_ok e inp : env_ok e -> mtu_ok (route_ifp (inp_route inp)) ->
  mtu_ok (route_ifp (inp_route (tcp_mss e inp).1)) /\ 0 < (tcp_mss e inp).2.
Proof.
  intros He Hr. unfold tcp_mss.
  assert (H1 : mtu_ok (route_ifp (inp_route (match route_ifp (inp_route inp) with Some _ => inp
    | None => if nz (inp_faddr inp) then inp <| inp_route := rtalloc (e_rtlookup e)
                (Route (ro_rt (inp_route inp)) (inp_faddr inp)) |> else inp end)))).
  { destruct (route_ifp (inp_route inp)) as [ifp|] eqn:E; [by rewrite E|].
    destruct (nz _); [|by rewrite E]. apply rtalloc_ok; [done|]. unfold route_ifp in *. cbn [ro_rt]. by rewrite E. }
  set (inp1 := match route_ifp (inp_route inp) with Some _ => _ | None => _ end) in *.
  destruct (route_ifp (inp_route inp1)) as [ifp|] eqn:E1; cbn [fst snd]; rewrite E1; (split; [done|]).
  2: reflexivity.
  assert (H2 : 0 < if_mtu ifp - sizeof_tcpiphdr) by (simpl in H1; lia).
  set (mss := if CLBYTES <? _ then _ else _). assert (0 < mss).
  { unfold mss. destruct (Z.ltb_spec CLBYTES (if_mtu ifp - sizeof_tcpiphdr)) as [H|]; [|done].
    unfold CLBYTES in *. change (1024 - 1) with (Z.ones 10). rewrite <- Z.ldiff_land, Z.ldiff_ones_r by lia.
    rewrite Z.shiftl_mul_pow2, Z.shiftr_div_pow2 by lia.
    assert (1 <= (if_mtu ifp - sizeof_tcpiphdr) / 2 ^ 10) by (apply Z.div_le_lower_bound; lia). lia. }
  destruct (in_localaddr _ _); [done|]. unfold TCP_MSS, IP_MSS, sizeof_tcpiphdr, sizeof_ip, sizeof_tcphdr. lia.
Qed.

Lemma set_maxseg_ok e c : env_ok e -> route_ok c -> 0 < t_maxseg (c_tp c) < 2 ^ 16 ->
  route_ok (set_maxseg e c) /\ c_so (set_maxseg e c) = c_so c /\
  exists mss, c_tp (set_maxseg e c) = (c_tp c) <| t_maxseg := mss |> /\ 0 < mss < 2 ^ 16.
Proof.
  intros He Hr Hm. unfold set_maxseg. destruct (tcp_mss_ok e (c_inp c) He Hr) as [H1 H2].
  destruct (tcp_mss e (c_inp c)) as [inp mss]. cbn [fst snd] in *. split; [done|]. split; [done|].
  eexists. split; [done|]. rewrite u16_small by lia. lia.
Qed.

(** ** [tcp_output] keeps the timers, the routes and the kernel around *)

Lemma tcp_setpersist_ok tp : t_rexmt tp = 0 -> timers_ok tp ->
  exists tp', tcp_setpersist tp = Ok tp' /\ timers_ok tp' /\ out_same tp tp' /\
    snd_nxt tp' = snd_nxt tp /\ snd_max tp' = snd_max tp /\ t_flags tp' = t_flags tp.
Proof.
  intros E (H1 & H2 & H3 & H4 & H5 & H6). unfold tcp_setpersist. rewrite E. cbn [nz Z.eqb negb].
  eexists. split; [done|]. split; [|done]. unfold timers_ok. tsimp. rewrite E.
  match goal with |- context [TCPT_RANGESET ?v _ _] =>
    pose proof (TCPT_RANGESET_range v TCPTV_PERSMIN TCPTV_MAX ltac:(done)) end.
  unfold TCPTV_PERSMIN, TCPTV_MAX, PR_SLOWHZ, TCP_MAXRXTSHIFT in *.
  rewrite s16_small by lia. destruct (Z.leb_spec 12 (t_rxtshift tp + 1)); lia.
Qed.

Lemma output_len_timers tp so tp' p : output_len tp so = Ok (tp', p) -> timers_ok tp -> timers_ok tp'.
Proof.
  unfold output_len, output_win. intros E H.
  assert (H1 : timers_ok (tp <| t_persist := 0 |> <| t_rxtshift := 0 |>)).
  { destruct H as (_ & ? & _ & ? & ? & _). unfold timers_ok. tsimp. split; [by right|]. unfold TCPTV_MAX, PR_SLOWHZ, TCP_MAXRXTSHIFT in *. lia. }
  assert (H2 : forall t n, timers_ok t -> timers_ok (t <| t_rexmt := 0 |> <| snd_nxt := n |>)).
  { intros t n (_ & _ & ? & ? & ? & ?). unfold timers_ok. tsimp. split; [by left|]. unfold TCPTV_MAX, PR_SLOWHZ in *. lia. }
  repeat (case_match || inv_ok); simplify_eq; auto.
Qed.

(** Starting the retransmit timer stops the persist timer. *)
Lemma timers_rexmt tp v : timers_ok tp ->
  timers_ok (tp <| t_rexmt := TCPT_RANGESET v TCPTV_MIN TCPTV_MAX |> <| t_rxtshift := 0 |> <| t_persist := 0 |>).
Proof.
  intros (A & B & C & D & E & F). pose proof (TCPT_RANGESET_range v TCPTV_MIN TCPTV_MAX ltac:(done)).
  unfold timers_ok. tsimp. unfold TCPTV_MIN, TCPTV_MAX, PR_SLOWHZ, TCP_MAXRXTSHIFT in *.
  split; [by right|]. lia.
Qed.

(** One [let] of an assignment sequence, named. *)
Ltac name_let P y :=
  lazymatch goal with
  | |- P (let x := ?a in @?b x) => pose (y := a); change (P (b y)); cbv beta
  end.

Lemma output_advance_timers tp flags len : timers_ok tp -> timers_ok (output_advance tp flags len).
Proof.
  intros H. cbv beta delta [output_advance]. destruct (_ || _); [|by destruct (SEQ_GT _ _)].
  name_let timers_ok tp1. assert (H1 : timers_ok tp1) by (unfold tp1; by destruct (has _ _)). clearbody tp1.
  name_let timers_ok tp2. assert (H2 : timers_ok tp2) by (unfold tp2; by destruct (has _ _)). clearbody tp2.
  name_let timers_ok tp3. assert (H3 : timers_ok tp3) by exact H2. clearbody tp3.
  name_let timers_ok tp4.
  assert (H4 : timers_ok tp4) by (unfold tp4; destruct (SEQ_GT _ _); cbv zeta; [destruct (_ =? 0)|]; exact H3).
  clearbody tp4. destruct (_ && _); [by apply timers_rexmt|done].
Qed.

(** What output does not touch: the initial send sequence number, the two long
    timers, the state. *)
Definition fixed (tp : tcpcb) : Z * Z * Z * Z := (iss tp, t_keep tp, t_2msl tp, t_state tp).

Lemma output_advance_fixed tp flags len : fixed (output_advance tp flags len) = fixed tp.
Proof.
  unfold output_advance. destruct (_ || _); [|by destruct (SEQ_GT _ _)].
  destruct (has flags TH_SYN), (has flags TH_FIN); (destruct (_ && _); destruct (SEQ_GT _ _)); by try destruct (_ =? 0).
Qed.

Lemma output_len_fixed tp so tp' p : output_len tp so = Ok (tp', p) -> fixed tp' = fixed tp.
Proof. unfold output_len, output_win. intros E. repeat (case_match || inv_ok); simplify_eq; done. Qed.

Lemma output_sent_frame tp win : (timers_ok tp -> timers_ok (output_sent tp win)) /\
  fixed (output_sent tp win) = fixed tp.
Proof. unfold output_sent. by destruct (_ && _). Qed.

Definition out_frame (w : world) (c : conn) (w' : world) (c' : conn) : Prop :=
  world_same w w' /\ ((timers_ok (c_tp c) -> timers_ok (c_tp c')) /\ fixed (c_tp c') = fixed (c_tp c)) /\
  (route_ok c -> route_ok c').

Lemma out_frame_refl w c : out_frame w c w c.
Proof. by split. Qed.

Lemma out_frame_trans w1 c1 w2 c2 w3 c3 :
  out_frame w1 c1 w2 c2 -> out_frame w2 c2 w3 c3 -> out_frame w1 c1 w3 c3.
Proof. intros (A & [B B'] & C) (D & [E E'] & F). split; [by etrans|]. split; [split; [auto|congruence]|auto]. Qed.

Lemma output_opt_ok e c : env_ok e -> route_ok c ->
  mtu_ok (route_ifp (inp_route (output_opt e c).1)).
Proof.
  intros He Hr. unfold output_opt. destruct (_ && _); [|done].
  destruct (tcp_mss_ok e (c_inp c) He Hr) as [H _]. by destruct (tcp_mss e (c_inp c)).
Qed.

(** One [let] of a call's body, named, in [body = result -> P]. *)
Ltac name_body y :=
  lazymatch goal with
  | |- (let x := ?a in @?b x) = ?r -> ?P => pose (y := a); change (b y = r -> P); cbv beta
  end.

Lemma output_emit_frame e w c n p len data w' c' err again : env_ok e ->
  output_emit e w c n p len data = (w', c', err, again) -> out_frame w c w' c'.
Proof.
  intros He. cbv beta delta [output_emit]. name_body flags. name_body tp.
  assert (Ht : (timers_ok (c_tp c) -> timers_ok tp) /\ fixed tp = fixed (c_tp c))
    by (unfold tp, output_refin; by destruct (_ && _)).
  name_body seqno. pose proof (output_opt_ok e (c <| c_tp := tp |>) He) as Ho.
  destruct (output_opt e _) as [inp opt]. cbn [fst snd] in Ho.
  destruct (match opt with Some _ => m_get e w | None => (w, true) end) as [w1 ok] eqn:Ew.
  assert (Hw : world_same w w1) by (unfold m_get in Ew; destruct opt; by inversion Ew). clear Ew.
  destruct (negb ok); [intros [= <- <- _ _]; split; [done|by split]|].
  name_body opt1. name_body win. name_body urg. name_body urp. name_body pf1. name_body pf2. name_body tp1.
  assert (H1 : (timers_ok (c_tp c) -> timers_ok tp1) /\ fixed tp1 = fixed (c_tp c)) by (unfold tp1; by destruct urg).
  clearbody tp1. name_body tp2. assert (H2 : (timers_ok (c_tp c) -> timers_ok tp2) /\ fixed tp2 = fixed (c_tp c)).
  { destruct H1 as [H1 E1]. split; [|by rewrite <- E1; apply output_advance_fixed].
    intros H. apply output_advance_timers. auto. }
  clearbody tp2. unfold ip_output. destruct (nz (e_ipout e _)).
  - intros [= <- <- _ _]. split; [exact Hw|]. split; [exact H2|exact Ho].
  - intros [= <- <- _ _]. split; [exact Hw|]. split; [|exact Ho]. destruct H2 as [H2 E2].
    destruct (output_sent_frame tp2 win) as [H3 E3]. split; [auto|tsimp; congruence].
Qed.

Lemma output_data_frame e w so p r : output_data e w so p = Ok r -> world_same w r.1.1.
Proof. unfold output_data. intros E. repeat (case_match || inv_ok); simplify_eq; done. Qed.

Lemma output_pass_frame e w c idle w' c' err again : env_ok e ->
  output_pass e w c idle = Ok (w', c', err, again) -> out_frame w c w' c'.
Proof.
  intros He. unfold output_pass. intros E. inv_ok. destruct r as [tp plan].
  pose proof (output_len_timers _ _ _ _ E0) as Ht. pose proof (output_len_fixed _ _ _ _ E0) as Hi.
  assert (H0 : out_frame w c w (c <| c_tp := tp |>)) by (split; [done|]; split; [by split|done]).
  destruct plan as [p|]; [|inv_ok; simplify_eq; done]. destruct (output_due _ _ _ _).
  - unfold output_send, m_get in E. destruct (e_mget e (w_allocs w)); cbn [negb] in E; [|inv_ok; simplify_eq; done].
    inv_ok. pose proof (output_data_frame _ _ _ _ _ E1) as Hw. destruct r as [[w1 len] data]. cbn [fst] in Hw.
    destruct (t_template _); [|done]. inv_ok.
    eapply out_frame_trans; [exact H0|]. eapply (out_frame_trans _ _ w1); [split; [exact Hw|done]|].
    eapply output_emit_frame; [done|by symmetry].
  - inv_ok. simplify_eq. split; [done|]. split; [|done]. unfold output_persist in E1.
    destruct (_ && _) eqn:Eb; [|injection E1 as <-; split; [done|unfold fixed; tsimp; congruence]].
    apply andb_true_iff in Eb as [Eb Ep]. apply andb_true_iff in Eb as [_ Er]. apply Z.eqb_eq in Er.
    split.
    + intros HT. specialize (Ht HT). tsimp.
      destruct (tcp_setpersist_ok (tp <| t_rxtshift := 0 |>)) as (tp' & E' & T & _); [done| |congruence].
      destruct Ht as (A & B & C & D & F & G). unfold timers_ok. tsimp.
      unfold TCPTV_MAX, PR_SLOWHZ, TCP_MAXRXTSHIFT in *. split; [done|]. lia.
    + unfold tcp_setpersist in E1. destruct (nz _); [done|]. injection E1 as <-. unfold fixed in *. tsimp. congruence.
Qed.

Lemma output_loop_frame e fuel w c idle w' c' err : env_ok e ->
  output_loop e fuel w c idle = Ok (w', c', err) -> out_frame w c w' c'.
Proof.
  intros He. revert w c. induction fuel as [|fuel IH]; intros w c E; [done|]. cbn [output_loop] in E.
  inv_ok. destruct r as [[[w1 c1] err1] again]. pose proof (output_pass_frame _ _ _ _ _ _ _ _ He E0) as H.
  destruct again; [|inv_ok; simplify_eq; done]. eapply out_frame_trans; [exact H|by apply IH].
Qed.

Lemma tcp_output_frame e w c w' c' err : env_ok e ->
  tcp_output e w c = Ok (w', c', err) -> out_frame w c w' c'.
Proof. intros He. unfold tcp_output. generalize output_fuel. intros fuel. by apply output_loop_frame. Qed.

(** ** The invariant *)

(** Before a connection is asked for, nothing waits to be sent. *)
Definition idle (tp : tcpcb) : Prop :=
  t_rexmt tp = 0 /\ t_persist tp = 0 /\ has (t_flags tp) TF_DELACK = false.

(** The send side is a stream, the segment size positive, there is a template
    as soon as there is something to send. *)
Record tcp_inv (w : world) (c : conn) : Prop := TcpInv {
  inv_snd : snd_ok (c_tp c) (c_so c);
  inv_mss : 0 < t_maxseg (c_tp c);
  inv_template : TCPS_LISTEN < t_state (c_tp c) -> t_template (c_tp c) <> None;
  inv_synsent : t_state (c_tp c) = TCPS_SYN_SENT -> snd_una (c_tp c) = iss (c_tp c);
  inv_timers : timers_ok (c_tp c);
  inv_rcv : rcv_ok (seg_q (c_tp c)) (c_so c);
  inv_locks : unlocked (so_snd (c_so c)) /\ unlocked (so_rcv (c_so c));
  inv_queue : queue_ok (w_queues w) (t_state (c_tp c)) (c_so c);
  inv_route : route_ok c;
  inv_iss : 0 <= w_iss w < 2 ^ 32;
  inv_idle : t_state (c_tp c) <= TCPS_LISTEN -> idle (c_tp c)
}.

(** After a call the connection keeps the invariant, or is gone. *)
Definition kept (w : world) (k : connection) : Prop :=
  match k with Open c => tcp_inv w c | Closed _ => True end.

Lemma inv_bufs w c : tcp_inv w c -> bufs_ok (c_so c).
Proof.
  intros I. destruct (inv_snd _ _ I) as (_ & _ & _ & _ & _ & A & _), (inv_rcv _ _ I) as [_ (B & _)], (inv_locks _ _ I) as [C D].
  by split_and!.
Qed.

Lemma inv_state w c : tcp_inv w c -> TCPS_CLOSED <= t_state (c_tp c) <= TCPS_TIME_WAIT.
Proof. intros I. destruct (inv_snd _ _ I) as (_ & _ & _ & _ & A & _). done. Qed.

Lemma tcp_close_inv w c : tcp_inv w c -> exists w' so, tcp_close w c = Ok (w', Closed so).
Proof. intros I. eapply tcp_close_ok; [by eapply inv_bufs|apply I]. Qed.

(** [tcp_output] in a state that may send. *)
Lemma tcp_output_inv e w c : env_ok e -> tcp_inv w c -> TCPS_LISTEN < t_state (c_tp c) ->
  exists w' c' err, tcp_output e w c = Ok (w', c', err) /\ tcp_inv w' c' /\
    out_same (c_tp c) (c_tp c') /\ c_so c' = c_so c /\ world_same w w'.
Proof.
  intros He I Hs. pose proof (inv_template _ _ I Hs) as Htm. pose proof He as ((K & HK & Hall) & _).
  destruct (tcp_output_spec e w c K) as (w' & c' & err & E & Eso & Hsame & _ & Hsnd & _);
    [apply I|done|apply I|done|lia|].
  exists w', c', err. split; [done|].
  pose proof (tcp_output_frame _ _ _ _ _ _ He E) as ((Wi & Wq & _) & [Ft Fi] & Fr).
  pose proof Hsame as (S1 & S2 & S3 & S4 & S5 & S6 & S7 & S8 & S9). injection Fi as Fi _ _ _.
  split; [|split; [done|]; split; [done|]; by pose proof (tcp_output_frame _ _ _ _ _ _ He E) as (? & _)].
  split; try (rewrite ?Eso, ?S1, ?S2, ?S3, ?S6, ?S9, ?Wq, ?Wi, ?Fi; apply I).
  - by rewrite Eso.
  - apply Ft, I.
  - apply Fr, I.
  - rewrite S1. lia.
Qed.

(** The timers do not matter to a connection that is dropped. *)
Lemma tcp_drop_ok e w c c0 errno : env_ok e -> tcp_inv w c0 -> c_so c = c_so c0 -> c_inp c = c_inp c0 ->
  (exists shift, c_tp c = (c_tp c0) <| t_rxtshift := shift |>) ->
  exists w' so, tcp_drop e w c errno = Ok (w', Closed so).
Proof.
  intros He I Es Ei [shift Et]. unfold tcp_drop. destruct (TCPS_HAVERCVDSYN _) eqn:Est; cbn [obind].
  2: { apply (tcp_close_ok _ _ (t_state (c_tp c0))); cbn [on_so c_so set_field fst snd]; rewrite Es;
       [exact (inv_bufs _ _ I)|exact (inv_queue _ _ I)]. }
  pose proof He as ((K & HK & Hall) & _). rewrite Et in Est. change (TCPS_HAVERCVDSYN (t_state (c_tp c0)) = true) in Est.
  assert (Htm : t_template (c_tp c0) <> None) by (apply I; unfold TCPS_HAVERCVDSYN, TCPS_SYN_RECEIVED, TCPS_LISTEN in *; lia).
  destruct (tcp_output_spec e w (on_tp (fun tp => tp <| t_state := TCPS_CLOSED |>) c) K)
    as (w' & c' & err & E & Eso & _); [|unfold on_tp; rewrite Et; exact Htm|unfold on_tp; rewrite Et; exact (inv_mss _ _ I)|done|lia|].
  { destruct (inv_snd _ _ I) as (A1 & A2 & A3 & A4 & A5 & A6). unfold snd_ok, on_tp. tsimp. rewrite Et, Es.
    do 4 (split; [done|]). split; [done|exact A6]. }
  rewrite E. cbn [obind fst snd]. apply (eq_trans (z := c_so c0)) in Eso; [|exact Es].
  pose proof (tcp_output_frame _ _ _ _ _ _ He E) as ((_ & Wq & _) & _).
  apply (tcp_close_ok _ _ (t_state (c_tp c0))); cbn [on_so c_so set_field]; rewrite Eso.
  - exact (inv_bufs _ _ I).
  - rewrite Wq. exact (inv_queue _ _ I).
Qed.

Lemma tcp_drop_inv e w c errno : env_ok e -> tcp_inv w c ->
  exists w' so, tcp_drop e w c errno = Ok (w', Closed so).
Proof.
  intros He I. apply (tcp_drop_ok e w c c errno He I eq_refl eq_refl).
  exists (t_rxtshift (c_tp c)). by destruct (c_tp c).
Qed.

(** A connection in order: the one of the sample of [tcp_output]. *)
Lemma sample_inv : tcp_inv sample_world sample_conn.
Proof.
  split; try done.
  - exact sample_snd_ok.
  - unfold timers_ok. by_compute.
Qed.
