(* ===== verification/TcpSafe.v ===== *)
(** * [tcp_input] keeps the invariant

    Each stage of [tcp_input], from a connection in order and a segment as IP
    hands it over, goes on or ends with the connection in order or closed; no
    stage panics or leaves its objects; and the state moves along the arrows of
    the protocol's diagram only. *)
From S2P Require Import Prelude TcpSeq Mbuf Socket In Inpcb TcpVar TcpReass TcpOutput TcpOutSeq TcpOutSend.
From S2P Require Import TcpInput TcpUser TcpInv.

(** ** The state diagram *)

(** The arrows of the diagram of RFC 793, with its text's arrow from
    SYN_RECEIVED to CLOSE_WAIT. *)
Definition tcp_arrows : list (Z * Z) :=
  [(TCPS_CLOSED, TCPS_LISTEN); (TCPS_CLOSED, TCPS_SYN_SENT);
   (TCPS_LISTEN, TCPS_SYN_RECEIVED); (TCPS_SYN_SENT, TCPS_SYN_RECEIVED);
   (TCPS_SYN_SENT, TCPS_ESTABLISHED); (TCPS_SYN_RECEIVED, TCPS_ESTABLISHED);
   (TCPS_SYN_RECEIVED, TCPS_CLOSE_WAIT); (TCPS_SYN_RECEIVED, TCPS_FIN_WAIT_1);
   (TCPS_ESTABLISHED, TCPS_CLOSE_WAIT); (TCPS_ESTABLISHED, TCPS_FIN_WAIT_1);
   (TCPS_CLOSE_WAIT, TCPS_LAST_ACK); (TCPS_FIN_WAIT_1, TCPS_CLOSING);
   (TCPS_FIN_WAIT_1, TCPS_FIN_WAIT_2); (TCPS_CLOSING, TCPS_TIME_WAIT);
   (TCPS_FIN_WAIT_2, TCPS_TIME_WAIT)].

Definition tcp_arrow (a b : Z) : Prop := (a, b) ∈ tcp_arrows.

(** Any number of arrows. *)
Abbreviation moves := (rtc tcp_arrow).

Lemma moves_arrow a b : bool_decide ((a, b) ∈ tcp_arrows) = true -> moves a b.
Proof. intros H. apply rtc_once. by apply bool_decide_eq_true in H. Qed.

(** Where a connection, or what is left of it, has moved. *)
Definition kmoves (st : Z) (k : connection) : Prop :=
  match k with Open c => moves st (t_state (c_tp c)) | Closed _ => True end.

(** ** Segments *)

(** What IP hands over: the text is as long as the header says, and the fields
    have their widths. *)
Record seg_in (ti : tcpiphdr) : Prop := SegIn {
  si_len : 0 <= ti_len ti < 2 ^ 15;
  si_text : chain_len (ti_m ti) = ti_len ti;
  si_seq : 0 <= ti_seq ti < 2 ^ 32;
  si_ack : 0 <= ti_ack ti < 2 ^ 32;
  si_win : 0 <= ti_win ti < 2 ^ 16;
  si_urp : 0 <= ti_urp ti < 2 ^ 16
}.

(** The 16-bit counts of the receive buffer have room for the segment beside
    what waits. *)
Definition seg_room (c : conn) (ti : tcpiphdr) : Prop :=
  rcv_room (c_so c) (queue_text (seg_q (c_tp c)) + chain_len (ti_m ti))
    (queue_cost (seg_q (c_tp c)) + chain_cost (ti_m ti)).

(** Options that end inside their memory and do not ask for segments of size
    zero: [cp] is the memory, [cnt] bytes of it are options. *)
Inductive opts_wf : list Z -> Z -> Prop :=
| opts_done cp cnt : cnt <= 0 -> opts_wf cp cnt
| opts_eol cp cnt : opts_wf (TCPOPT_EOL :: cp) cnt
| opts_nop cp cnt : opts_wf cp (cnt - 1) -> opts_wf (TCPOPT_NOP :: cp) cnt
| opts_mss hi lo cp cnt : 0 <= hi < 256 -> 0 <= lo < 256 -> 0 < hi * 256 + lo ->
    opts_wf cp (cnt - 4) -> opts_wf (TCPOPT_MAXSEG :: 4 :: hi :: lo :: cp) cnt
| opts_other k len cp cnt : TCPOPT_MAXSEG < k -> 1 <= len ->
    opts_wf (drop (Z.to_nat len) (k :: len :: cp)) (cnt - len) -> opts_wf (k :: len :: cp) cnt.

Definition om_wf (om : option (list Z * Z)) : Prop :=
  match om with Some (cp, cnt) => opts_wf cp cnt | None => True end.

(** ** The invariant under assignments *)

(** Assignments to fields the invariant does not speak of. *)
Ltac keep_inv I :=
  pose proof (inv_snd _ _ I); pose proof (inv_mss _ _ I); pose proof (inv_template _ _ I);
  pose proof (inv_synsent _ _ I); pose proof (inv_timers _ _ I); pose proof (inv_rcv _ _ I);
  pose proof (inv_locks _ _ I); pose proof (inv_queue _ _ I); pose proof (inv_route _ _ I);
  pose proof (inv_iss _ _ I); pose proof (inv_idle _ _ I); constructor; try assumption.

(** The stages hold on to the connection, the segment and the room for it. *)
Record going (st : Z) (s : istate) : Prop := Going {
  go_inv : tcp_inv (i_w s) (i_c s);
  go_seg : seg_in (i_ti s);
  go_room : seg_room (i_c s) (i_ti s);
  go_moves : moves st (t_state (i_tp s));
  go_wnd : 0 <= rcv_wnd (i_tp s) < 2 ^ 16
}.

Definition verdict_ok (st : Z) (v : verdict) : Prop :=
  match v with
  | Go s => going st s
  | Drop w k => kept w k /\ kmoves st k
  | DropAfterAck s => tcp_inv (i_w s) (i_c s) /\ moves st (t_state (i_tp s))
  | DropWithReset w k _ _ => kept w k /\ kmoves st k
  end.

(** The block with another segment size and route. *)
Lemma inv_maxseg w c mss inp : tcp_inv w c -> 0 < mss < 2 ^ 16 -> mtu_ok (route_ifp (inp_route inp)) ->
  tcp_inv w (Conn ((c_tp c) <| t_maxseg := mss |>) inp (c_so c)).
Proof.
  intros I Hm Hr. keep_inv I; [|cbn; lia]. destruct (inv_snd _ _ I) as (A1 & A2 & A3 & A4 & A5). unfold snd_ok. tsimp.
  do 3 (split; [done|]). split; [lia|exact A5].
Qed.

Lemma inv_mss_range w c : tcp_inv w c -> 0 < t_maxseg (c_tp c) < 2 ^ 16.
Proof. intros I. pose proof (inv_mss _ _ I). destruct (inv_snd _ _ I) as (_ & _ & _ & A & _). lia. Qed.

Lemma set_maxseg_inv e w c : env_ok e -> tcp_inv w c -> tcp_inv w (set_maxseg e c).
Proof.
  intros He I. destruct (set_maxseg_ok e c He (inv_route _ _ I) (inv_mss_range _ _ I)) as (Hr & Es & mss & Et & Hm).
  destruct (set_maxseg e c) as [tp inp so]. simpl in *. subst. by apply inv_maxseg.
Qed.

(** ** [tcp_dooptions] *)

(** What the options may change. *)
Definition opts_same (c c' : conn) : Prop :=
  c_so c' = c_so c /\ exists mss, c_tp c' = (c_tp c) <| t_maxseg := mss |>.

Lemma opts_same_trans a b c : opts_same a b -> opts_same b c -> opts_same a c.
Proof.
  intros (A & m1 & B) (C & m2 & D). split; [congruence|]. exists m2. by rewrite D, B.
Qed.

Lemma set_maxseg_same e c : opts_same c (set_maxseg e c).
Proof. unfold set_maxseg. destruct (tcp_mss e (c_inp c)). split; [done|by eexists]. Qed.

Lemma dooptions_ok e w fuel c cp cnt syn : env_ok e -> opts_wf cp cnt -> tcp_inv w c ->
  exists c', dooptions_loop e fuel c cp cnt syn = Ok c' /\ tcp_inv w c' /\ opts_same c c'.
Proof.
  intros He Hw. assert (Hrefl : forall c, opts_same c c).
  { intros [tp inp so]. split; [done|]. exists (t_maxseg tp). by destruct tp. }
  revert fuel c. induction Hw as [cp cnt Hc|cp cnt|cp cnt Hw IH|hi lo cp cnt Hh Hl Hm Hw IH|k len cp cnt Hk Hl Hw IH];
    intros fuel c I; (destruct fuel as [|fuel]; [by exists c|]); cbn [dooptions_loop];
    (destruct (Z.ltb_spec 0 cnt); [|by exists c]).
  - lia.
  - by exists c.
  - destruct (IH fuel c I) as (c' & E & H'). exists c'. split; [|exact H']. rewrite <- E. reflexivity.
  - change (aget (TCPOPT_MAXSEG :: 4 :: hi :: lo :: cp) 0) with (Ok TCPOPT_MAXSEG).
    change (aget (TCPOPT_MAXSEG :: 4 :: hi :: lo :: cp) 1) with (Ok 4).
    change (aget (TCPOPT_MAXSEG :: 4 :: hi :: lo :: cp) 2) with (Ok hi).
    change (aget (TCPOPT_MAXSEG :: 4 :: hi :: lo :: cp) 3) with (Ok lo).
    cbn [obind TCPOPT_MAXSEG TCPOPT_EOL TCPOPT_NOP Z.eqb Pos.eqb Z.leb Z.compare andb].
    change (drop (Z.to_nat 4) (TCPOPT_MAXSEG :: 4 :: hi :: lo :: cp)) with cp. destruct syn; cbn [obind].
    + assert (I1 : tcp_inv w (set_maxseg e (on_tp (fun tp => tp <| t_maxseg := hi * 256 + lo |>) c))).
      { apply set_maxseg_inv; [done|]. apply inv_maxseg; [done|lia|apply I]. }
      destruct (IH fuel _ I1) as (c' & -> & I' & S'). exists c'. split; [done|]. split; [done|].
      eapply opts_same_trans; [|exact S']. eapply opts_same_trans; [|apply set_maxseg_same].
      split; [done|by eexists].
    + by apply IH.
  - change (aget (k :: len :: cp) 0) with (Ok k). unfold TCPOPT_EOL, TCPOPT_NOP, TCPOPT_MAXSEG in *. cbn [obind].
    destruct (Z.eqb_spec k 0); [lia|]. destruct (Z.eqb_spec k 1); [lia|]. destruct (Z.eqb_spec k 2); [lia|].
    change (aget (k :: len :: cp) 1) with (Ok len). cbn [obind andb]. destruct (Z.leb_spec len 0); [lia|]. by apply IH.
Qed.

Lemma input_options_ok e w c om ti : env_ok e -> om_wf om -> tcp_inv w c ->
  exists c', input_options e c om ti = Ok c' /\ tcp_inv w c' /\ opts_same c c'.
Proof.
  intros He Hom I. destruct om as [[cp cnt]|]; [by apply dooptions_ok|].
  exists c. split; [done|]. split; [done|]. destruct c as [tp inp so]. split; [done|]. exists (t_maxseg tp). by destruct tp.
Qed.

Lemma opts_same_fields c c' : opts_same c c' ->
  t_state (c_tp c') = t_state (c_tp c) /\ seg_q (c_tp c') = seg_q (c_tp c) /\ c_so c' = c_so c.
Proof. intros (E & m & E'). by rewrite E'. Qed.

(** ** The stages before the window *)

(** The bounds of assigned timers. *)
Ltac timers :=
  unfold timers_ok in *; tsimp;
  unfold TCPTV_MAXIDLE, TCPTV_KEEP, TCPTV_MAX, TCPTV_MIN, TCPTV_MSL, TCPTV_PERSMIN, PR_SLOWHZ,
    TCP_MAXRXTSHIFT in *; lia.

Lemma timers_keep tp : timers_ok tp -> timers_ok (tp <| t_keep := TCPTV_KEEP |>).
Proof. intros. timers. Qed.

Lemma input_begin_ok e w c om ti : env_ok e -> om_wf om -> tcp_inv w c ->
  exists c', input_begin e c om ti = Ok c' /\ tcp_inv w c' /\
    t_state (c_tp c') = t_state (c_tp c) /\ seg_q (c_tp c') = seg_q (c_tp c) /\ c_so c' = c_so c /\
    snd_una (c_tp c') = snd_una (c_tp c) /\ snd_max (c_tp c') = snd_max (c_tp c) /\
    0 <= rcv_wnd (c_tp c') < 2 ^ 16 /\ (t_state (c_tp c) = TCPS_LISTEN -> c_inp c' = c_inp c).
Proof.
  intros He Hom I. unfold input_begin.
  set (c1 := on_tp (fun tp => tp <| t_idle := 0 |> <| t_keep := TCPTV_KEEP |>) c).
  assert (I1 : tcp_inv w c1) by (keep_inv I; by apply timers_keep).
  assert (H : exists c2, (if t_state (c_tp c1) =? TCPS_LISTEN then Ok c1 else input_options e c1 om ti) = Ok c2 /\
                tcp_inv w c2 /\ opts_same c1 c2 /\ (t_state (c_tp c) = TCPS_LISTEN -> c_inp c2 = c_inp c)).
  { destruct (Z.eqb_spec (t_state (c_tp c1)) TCPS_LISTEN) as [E|E].
    - exists c1. split; [done|]. split; [done|]. split; [|done]. split; [done|]. exists (t_maxseg (c_tp c)). cbn. by destruct (c_tp c).
    - destruct (input_options_ok e w c1 om ti He Hom I1) as (c2 & E2 & I2 & S2). exists c2. split; [done|].
      split; [done|]. split; [done|]. by intros E'. }
  destruct H as (c2 & -> & I2 & (E3 & m & E) & Hi). cbn [obind]. eexists. split; [done|]. split; [keep_inv I2|].
  unfold on_tp. tsimp. rewrite E, E3. do 5 (split; [done|]). split; [apply Z.mod_pos_bound; done|exact Hi].
Qed.

(** *** LISTEN *)

Lemma setaddr_route_ok e so_options ro dst : env_ok e -> mtu_ok (route_ifp ro) ->
  mtu_ok (route_ifp (setaddr_route (e_rtlookup e) so_options ro dst)).
Proof.
  intros He Hr. unfold setaddr_route.
  set (ro1 := match ro_rt ro with Some _ => _ | None => ro end).
  assert (H1 : mtu_ok (route_ifp ro1)) by (unfold ro1; destruct (ro_rt ro); [destruct (negb _)|]; done).
  clearbody ro1. destruct (_ && _) eqn:E; [|done]. apply rtalloc_ok; [done|].
  unfold route_ifp in *. cbn [ro_rt]. exact H1.
Qed.

Lemma in_pcbconnect_safe e hd hport so_options inp nam : env_ok e ->
  mtu_ok (route_ifp (inp_route inp)) -> inp_lport inp <> 0 ->
  exists error inp' hport',
    in_pcbconnect (e_rtlookup e) (e_ifaddrs e) hd hport (e_uid e) so_options PR_CONNREQUIRED inp nam
      = Ok (error, inp', hport') /\ mtu_ok (route_ifp (inp_route inp')).
Proof.
  intros He Hr Hb. unfold in_pcbconnect, in_pcbsetaddr. set (sin := nam_sin nam). do 2 (destruct (negb _); [by eexists _, _, _|]).
  destruct (sin_port sin =? 0); [by eexists _, _, _|]. cbv zeta. cbn [sin_addr sin_port].
  assert (Hl : (inp_lport inp =? 0) = false) by lia.
  set (dst := setaddr_dst _ _). destruct (inp_laddr inp =? INADDR_ANY) eqn:Ea.
  - cbn [set_field inp_laddr inp_lport inp_route]. rewrite Ea, Hl.
    pose proof (setaddr_route_ok e so_options (inp_route inp) dst He Hr) as Hr1.
    destruct (setaddr_src _ _ _) as [ia|]; [|by eexists _, _, _].
    destruct (in_pcblookup _ _ _ _ _ _); [by eexists _, _, _|]. cbn [obind]. by eexists _, _, _.
  - destruct (in_pcblookup _ _ _ _ _ _); [by eexists _, _, _|]. cbn [obind]. by eexists _, _, _.
Qed.

Lemma going_drop st s : going st s -> verdict_ok st (drop_it s).
Proof. intros [I _ _ M _]. by split. Qed.
Lemma going_reset st s : going st s -> verdict_ok st (reset_it s).
Proof. intros [I _ _ M _]. by split. Qed.
#[local] Hint Resolve going_drop going_reset : tcp.

Lemma listen_connect_ok e st s : env_ok e -> going st s -> inp_lport (c_inp (i_c s)) <> 0 ->
  exists s' error, listen_connect e s = Ok (s', error) /\ going st s' /\ i_tp s' = i_tp s /\ i_so s' = i_so s.
Proof.
  intros He [I Hs Hr M W] Hl. unfold listen_connect. set (inp1 := if inp_laddr _ =? _ then _ else _).
  assert (H1 : inp_lport inp1 <> 0 /\ mtu_ok (route_ifp (inp_route inp1))).
  { unfold inp1. pose proof (inv_route _ _ I). by destruct (_ =? _). }
  clearbody inp1. destruct H1 as [Hl1 Hr1].
  destruct (in_pcbconnect_safe e (w_pcbs (i_w s)) (w_lport (i_w s)) (so_options (i_so s)) inp1
              (Nam sizeof_sockaddr_in (SockaddrIn AF_INET (ti_sport (i_ti s)) (ti_src (i_ti s))))) as (error & inp2 & hport & -> & Hr2); [done..|].
  cbn [obind]. eexists _, _. split; [done|]. split; [|by split].
  split; [|exact Hs|exact Hr|exact M|exact W]. keep_inv I. unfold route_ok. cbn [i_c set_field c_inp].
  by destruct (nz error).
Qed.

(** A send sequence that begins: nothing sent, nothing acknowledged. *)
Lemma snd_ok_init tp tp' so : snd_ok tp so ->
  0 <= snd_una tp' < 2 ^ 32 -> snd_nxt tp' = snd_una tp' -> snd_max tp' = snd_una tp' ->
  TCPS_CLOSED <= t_state tp' <= TCPS_TIME_WAIT ->
  snd_wnd tp' = snd_wnd tp -> snd_cwnd tp' = snd_cwnd tp -> t_maxseg tp' = t_maxseg tp -> snd_ok tp' so.
Proof.
  intros (A1 & A2 & A3 & A4 & A5 & A6 & A7 & _) Hu Hn Hm Hst Ew Ec Em. unfold snd_ok. rewrite Ew, Ec, Em.
  do 5 (split; [done|]). split; [done|]. split; [done|]. exists 0, 0. unfold seq_pos.
  rewrite Hn, Hm, Z.add_0_r, u32_small by lia. pose proof (sb_ok_nonneg _ A6). split; [lia|].
  do 2 (split; [done|]). destruct (has _ _); lia.
Qed.

Lemma listen_accept_ok st s : going st s -> t_state (i_tp s) = TCPS_LISTEN -> t_template (i_tp s) <> None ->
  going st (listen_accept s).
Proof.
  intros [I Hs Hr M W] Est Ht. unfold listen_accept. split; [|exact Hs|exact Hr| |exact W].
  - constructor.
    + eapply (snd_ok_init (i_tp s)); [exact (inv_snd _ _ I)|exact (inv_iss _ _ I)|done..].
    + exact (inv_mss _ _ I).
    + intros _. exact Ht.
    + done.
    + pose proof (inv_timers _ _ I) as T. change (timers_ok (i_tp s)) in T.
      exact (timers_keep _ T).
    + exact (inv_rcv _ _ I).
    + exact (inv_locks _ _ I).
    + eapply (queue_ok_later _ TCPS_LISTEN); [|done]. rewrite <- Est. exact (inv_queue _ _ I).
    + exact (inv_route _ _ I).
    + apply u32_range.
    + done.
  - etrans; [exact M|]. rewrite Est. by apply moves_arrow.
Qed.

Lemma seg_room_same c c' ti : seg_q (c_tp c') = seg_q (c_tp c) -> c_so c' = c_so c ->
  seg_room c ti -> seg_room c' ti.
Proof. intros E1 E2. unfold seg_room. by rewrite E1, E2. Qed.

Lemma input_listen_ok e st s om : env_ok e -> going st s -> om_wf om ->
  t_state (i_tp s) = TCPS_LISTEN -> inp_lport (c_inp (i_c s)) <> 0 ->
  exists v, input_listen e s om = Ok v /\ verdict_ok st v /\
    match v with Go s' => t_state (i_tp s') = TCPS_SYN_RECEIVED | _ => True end.
Proof.
  intros He G Hom Est Hl. unfold input_listen.
  destruct (listen_refuses e s) as [v|] eqn:Er.
  { exists v. split; [done|]. unfold listen_refuses in Er. pose proof (going_drop _ _ G). pose proof (going_reset _ _ G).
    repeat case_match; simplify_eq; rewrite <- Er; by split. }
  unfold m_get. set (s1 := s <| i_w := (i_w s) <| w_allocs := S (w_allocs (i_w s)) |> |>).
  assert (G1 : going st s1) by (destruct G as [I Hs Hr M W]; split; [keep_inv I|done..]).
  destruct (e_mget e (w_allocs (i_w s))); cbn [negb].
  2: { eexists. split; [done|]. split; [by apply going_drop|done]. }
  destruct (listen_connect_ok e st s1 He G1 Hl) as (s2 & error & -> & G2 & Et2 & Es2). cbn [obind].
  destruct (nz error); [eexists; split; [done|]; split; [by apply going_drop|done]|].
  destruct (tcp_template e (i_w s2) (i_c s2)) as [w3 n] eqn:En.
  assert (Hw3 : world_same (i_w s2) w3).
  { unfold tcp_template, m_get in En. destruct (t_template _); injection En as <- _; done. }
  set (s3 := s2 <| i_w := w3 |>).
  assert (G3 : going st s3).
  { destruct G2 as [I Hs Hr M W]. destruct Hw3 as (Wi & Wq & _). split; [|done..].
    keep_inv I; [change (w_queues (i_w s3)) with (w_queues w3); by rewrite Wq|change (w_iss (i_w s3)) with (w_iss w3); by rewrite Wi]. }
  destruct n as [n|].
  2: { assert (I4 : tcp_inv (i_w s3) (on_tp (fun tp => tp <| t_template := None |>) (i_c s3))).
       { pose proof (go_inv _ _ G3) as I. keep_inv I. intros Hlt. exfalso. revert Hlt.
         change (TCPS_LISTEN < t_state (i_tp s2) -> False). rewrite Et2. change (i_tp s1) with (i_tp s). rewrite Est. lia. }
       destruct (tcp_drop_inv e _ _ ENOBUFS He I4) as (w' & so & ->). cbn [obind]. eexists. split; [done|]. by split. }
  set (s4 := upd_tp s3 (fun tp => tp <| t_template := Some n |>)).
  assert (G4 : going st s4).
  { destruct G3 as [I Hs Hr M W]. split; [|done..]. keep_inv I. done. }
  destruct (input_options_ok e (i_w s4) (i_c s4) om (i_ti s4) He Hom (go_inv _ _ G4)) as (c5 & -> & I5 & S5).
  cbn [obind]. destruct (opts_same_fields _ _ S5) as (E1 & E2 & E3).
  assert (E0 : t_state (c_tp (i_c s4)) = TCPS_LISTEN).
  { change (t_state (i_tp s2) = TCPS_LISTEN). rewrite Et2. exact Est. }
  eexists. split; [done|]. split; [|done]. apply listen_accept_ok.
  - destruct G4 as [I Hs Hr M W]. split; [exact I5|exact Hs|by apply (seg_room_same (i_c s4))| |].
    + change (moves st (t_state (c_tp c5))). rewrite E1. exact M.
    + change (0 <= rcv_wnd (c_tp c5) < 2 ^ 16). destruct S5 as (_ & m & ->). exact W.
  - change (t_state (c_tp c5) = TCPS_LISTEN). congruence.
  - change (t_template (c_tp c5) <> None). destruct S5 as (_ & m & ->). done.
Qed.

(** *** SYN_SENT, and the change to ESTABLISHED *)

(** The socket of a connection, changed by nothing the invariant speaks of. *)
Lemma inv_so w c so' : tcp_inv w c -> so_same (c_so c) so' -> tcp_inv w (c <| c_so := so' |>).
Proof.
  intros I Hs. pose proof (inv_locks _ _ I) as [L1 L2]. keep_inv I.
  - by eapply snd_ok_so.
  - by eapply rcv_ok_same.
  - destruct Hs as ((_ & _ & _ & Hr) & (_ & _ & _ & Hs) & _). split; auto.
  - by eapply queue_ok_same.
Qed.

Lemma going_so st s so' : going st s -> so_same (i_so s) so' -> going st (upd_so s (fun _ => so')).
Proof.
  intros [I Hs Hr M W] H. split; [by apply inv_so|done| |done|done]. by eapply rcv_room_same.
Qed.

(** The state before does not matter. *)
Lemma input_established_state e s state :
  input_established e (upd_tp s (fun tp => tp <| t_state := state |>)) = input_established e s.
Proof. by destruct s as [w [tp inp so] ti flags out], tp. Qed.

Lemma input_established_ok e st s : env_ok e -> going st s ->
  t_state (i_tp s) = TCPS_SYN_SENT \/ t_state (i_tp s) = TCPS_SYN_RECEIVED ->
  exists s', input_established e s = Ok s' /\ going st s' /\ t_state (i_tp s') = TCPS_ESTABLISHED /\
    i_ti s' = i_ti s /\ i_flags s' = i_flags s.
Proof.
  intros He [I Hs Hr M W] Hst. unfold input_established.
  destruct (soisconnected_ok (w_queues (i_w s)) _ (i_so s) (inv_queue _ _ I)) as (qs & so1 & -> & Hsame & Hq).
  { unfold i_tp, TCPS_SYN_SENT, TCPS_SYN_RECEIVED, TCPS_ESTABLISHED in *. lia. }
  cbn [obind fst snd].
  set (s1 := upd_tp _ (fun tp => tp <| t_state := TCPS_ESTABLISHED |>)).
  assert (I1 : tcp_inv (i_w s1) (i_c s1)).
  { pose proof (inv_so _ _ _ I Hsame) as I0. pose proof (inv_snd _ _ I0) as (A1 & A2 & A3 & A4 & _ & A6).
    keep_inv I0; try done.
    intros _. apply (inv_template _ _ I). unfold i_tp, TCPS_SYN_SENT, TCPS_SYN_RECEIVED, TCPS_LISTEN in *. lia. }
  pose proof (set_maxseg_inv e _ _ He I1) as I2. pose proof (set_maxseg_same e (i_c s1)) as S2.
  destruct (opts_same_fields _ _ S2) as (E1 & E2 & E3). set (c2 := set_maxseg e (i_c s1)) in *. clearbody c2.
  pose proof (rcv_room_same _ _ _ _ Hsame Hr) as Hr1.
  unfold tcp_reass. cbn [obind].
  match goal with |- context [tcp_present ?a ?b] => change (tcp_present a b) with (tcp_present (c_tp c2) (c_so c2)) end.
  change (seg_q (c_tp (i_c s1))) with (seg_q (i_tp s)) in E2.
  destruct (tcp_present_room (c_tp c2) (c_so c2) (chain_len (ti_m (i_ti s))) (chain_cost (ti_m (i_ti s))))
    as (q & nxt & so2 & f & -> & F & R & St).
  { apply I2. } { apply chain_len_nonneg. } { apply chain_cost_nonneg. }
  { rewrite E2, E3. exact Hr1. }
  eexists. split; [done|]. split; [|split; [exact E1|done]].
  destruct St as (B1 & B2 & B3 & B4).
  split; [|exact Hs|exact R| |].
  - keep_inv I2.
    + by eapply snd_ok_buf.
    + assert (R0 : rcv_room so2 (queue_text q) (queue_cost q)); [|by split].
      destruct R as (R1 & R2 & R3). pose proof (chain_len_nonneg (ti_m (i_ti s))).
      pose proof (chain_cost_nonneg (ti_m (i_ti s))). split; [done|]. lia.
    + destruct (inv_locks _ _ I2). split; [by apply B1|by apply B4].
    + apply (queue_ok_step _ _ (c_so c2)); [by split_and!|apply I2].
  - etrans; [exact M|]. change (moves (t_state (i_tp s)) (t_state (c_tp c2))). rewrite E1.
    destruct Hst as [->| ->]; by apply moves_arrow.
  - change (0 <= rcv_wnd (c_tp c2) < 2 ^ 16). destruct S2 as (_ & m & ->). exact W.
Qed.

(** *** Trimming *)

Lemma m_adj_same_cost c n c' : m_adj c n = Ok c' -> chain_cost c' = chain_cost c.
Proof.
  intros E. destruct (Z.leb_spec 0 n) as [Hn|Hn]; [by eapply m_adj_cost|]. revert E. unfold m_adj.
  destruct (exists_last_or_nil c) as [->|(c0 & x & ->)]; [by intros [= <-]|]. rewrite last_snoc.
  destruct (Z.leb_spec 0 n); [lia|].
  assert (Hset : forall m k, m_cost (m_setlen m k) = m_cost m) by done.
  assert (Hall : forall c1, chain_cost ((fun m => m_setlen m 0) <$> c1) = chain_cost c1).
  { induction c1 as [|m c1 IH]; [done|]. exact (f_equal (Z.add (m_cost m)) IH). }
  destruct (_ <=? _).
  - intros [= <-]. rewrite length_app. cbn [length]. rewrite Nat.add_sub, take_app_length.
    by rewrite !chain_cost_app.
  - generalize (chain_len (c0 ++ [x]) - - n). generalize (c0 ++ [x]). intros l. revert c'.
    induction l as [|m l IH]; intros c' k; cbn [m_adj_back]; [by intros [= <-]|].
    destruct (k <=? m_len m).
    + destruct (k <? 0); [done|]. intros [= <-]. exact (f_equal (Z.add (m_cost m)) (Hall l)).
    + intros E. inv_ok. exact (f_equal (Z.add (m_cost m)) (IH _ _ E0)).
Qed.

Lemma trim_text_ok s n : seg_in (i_ti s) -> Z.abs n <= ti_len (i_ti s) ->
  exists m, trim_text s n = Ok (upd_ti s (fun ti => ti <| ti_m := m |>)) /\
    chain_len m = ti_len (i_ti s) - Z.abs n /\ chain_cost m = chain_cost (ti_m (i_ti s)) /\
    chain_data m = if 0 <=? n then drop (Z.to_nat n) (chain_data (ti_m (i_ti s)))
                   else take (Z.to_nat (ti_len (i_ti s) + n)) (chain_data (ti_m (i_ti s))).
Proof.
  intros Hs Hn. pose proof (si_text _ Hs) as Et. pose proof (si_len _ Hs). unfold trim_text.
  destruct (m_adj_spec (ti_m (i_ti s)) n) as (m & E & _ & D); [lia|]. rewrite E. cbn [obind].
  exists m. split; [done|]. split; [|split; [by eapply m_adj_same_cost|by rewrite D, Et]].
  unfold chain_len in *. rewrite D. destruct (Z.leb_spec 0 n).
  - unfold zlen in *. rewrite length_drop. lia.
  - unfold zlen in *. rewrite length_take. lia.
Qed.

(** Going on with a shorter segment. *)
Lemma going_seg st s ti flags : going st s -> seg_in ti ->
  chain_len (ti_m ti) <= chain_len (ti_m (i_ti s)) -> chain_cost (ti_m ti) = chain_cost (ti_m (i_ti s)) ->
  going st (s <| i_ti := ti |> <| i_flags := flags |>).
Proof.
  intros [I Hs Hr M W] Hs' Hl Hc. split; [done|done| |done|done].
  destruct Hr as (A & B & C). unfold seg_room, rcv_room. cbn [i_c i_ti set_field]. rewrite Hc.
  split; [done|]. split; [lia|done].
Qed.

Lemma going_tp st s f : going st s -> tcp_inv (i_w s) (on_tp f (i_c s)) ->
  seg_q (f (i_tp s)) = seg_q (i_tp s) -> moves st (t_state (f (i_tp s))) -> rcv_wnd (f (i_tp s)) = rcv_wnd (i_tp s) ->
  going st (upd_tp s f).
Proof.
  intros [I Hs Hr M W] I' Eq Hm Ew. split; [done|done| |done|].
  - by apply (seg_room_same (i_c s)).
  - change (0 <= rcv_wnd (f (i_tp s)) < 2 ^ 16). by rewrite Ew.
Qed.

(** ** The send sequence moves up to an acknowledgement *)

Lemma snd_una_advance_eq tp una : exists nx, snd_una_advance tp una = tp <| snd_una := una |> <| snd_nxt := nx |>.
Proof. unfold snd_una_advance. destruct (SEQ_LT _ _); eexists; [done|]. by destruct tp. Qed.

Lemma seq_pos_advance tp cc cc' n m a :
  seq_pos tp cc n m -> m < 2 ^ 30 -> 0 <= a <= m ->
  m - a <= cc' + 1 + (if has (t_flags tp) TF_SENTFIN then 1 else 0) ->
  seq_pos (snd_una_advance tp (u32 (snd_una tp + a))) cc' (Z.max 0 (n - a)) (m - a).
Proof.
  intros (Hnm & Hn & Hm & Hb) Hbig Ha Hcc. unfold snd_una_advance, SEQ_LT. tsimp.
  rewrite Hn, s32_sub_u32, s32_small by lia. unfold seq_pos.
  assert (Em : snd_max tp = u32 (u32 (snd_una tp + a) + (m - a))).
  { rewrite u32_add_l, Hm. f_equal. lia. }
  destruct (Z.ltb_spec (snd_una tp + n - (snd_una tp + a)) 0); tsimp.
  - split; [lia|]. split; [|by split]. rewrite Z.max_l, Z.add_0_r by lia. by rewrite u32_u32.
  - split; [lia|]. split; [|by split]. rewrite u32_add_l, Hn. f_equal. lia.
Qed.

Lemma seq_pos_small tp so n m : snd_ok tp so -> seq_pos tp (sb_cc (so_snd so)) n m -> m < 2 ^ 17.
Proof.
  intros (_ & _ & _ & _ & _ & [(_ & _ & B & _) _] & _) (_ & _ & _ & Hb). destruct (has _ _); lia.
Qed.

(** An acknowledgement between [snd_una] and [snd_max]. *)
Lemma ack_pos tp so ack : snd_ok tp so -> 0 <= ack < 2 ^ 32 -> 0 <= s32 (ack - snd_una tp) ->
  SEQ_GT ack (snd_max tp) = false ->
  exists n m, seq_pos tp (sb_cc (so_snd so)) n m /\ ack = u32 (snd_una tp + s32 (ack - snd_una tp)) /\
    s32 (ack - snd_una tp) <= m.
Proof.
  intros Hok Ha Hd Hmax. pose proof Hok as (Hu & _ & _ & _ & _ & _ & _ & n & m & Hp). exists n, m. split; [done|].
  pose proof (seq_pos_small _ _ _ _ Hok Hp) as Hs. pose proof (seq_offset ack (snd_una tp) Ha Hu) as Eo.
  split; [done|]. pose proof (s32_range (ack - snd_una tp)) as Hr. set (a := s32 _) in *.
  destruct Hp as (Hnm & _ & Hm & _). unfold SEQ_GT in Hmax. rewrite Hm, Eo, seq_dist in Hmax by lia. lia.
Qed.

(** The block with [snd_una] moved up, over the same send buffer. *)
Lemma snd_ok_advance tp so ack : snd_ok tp so -> 0 <= ack < 2 ^ 32 -> 0 <= s32 (ack - snd_una tp) ->
  SEQ_GT ack (snd_max tp) = false -> snd_ok (snd_una_advance tp ack) so.
Proof.
  intros Hok Ha Hd Hmax. destruct (ack_pos tp so ack Hok Ha Hd Hmax) as (n & m & Hp & Ea & Hm).
  pose proof (seq_pos_small _ _ _ _ Hok Hp). pose proof Hok as (A1 & A2 & A3 & A4 & A5 & A6 & A7 & _).
  assert (Hp' : seq_pos (snd_una_advance tp ack) (sb_cc (so_snd so)) (Z.max 0 (n - s32 (ack - snd_una tp)))
                  (m - s32 (ack - snd_una tp))).
  { rewrite Ea at 1. apply (seq_pos_advance _ (sb_cc (so_snd so))); [done|lia|done|]. destruct Hp as (_ & _ & _ & Hb). lia. }
  destruct (snd_una_advance_eq tp ack) as [nx E]. rewrite E in *. unfold snd_ok. tsimp.
  do 5 (split; [done|]). split; [done|]. split; [done|]. by eexists _, _.
Qed.

(** ** SYN_SENT *)

(** A SYN that answers ours acknowledges it. *)
Definition syn_acks (s : istate) : Prop :=
  has (i_flags s) TH_SYN = true -> has (i_flags s) TH_ACK = true.

Lemma timers_norexmt tp : timers_ok tp -> timers_ok (tp <| t_rexmt := 0 |>).
Proof. intros. timers. Qed.

Lemma input_syn_sent_ok e st s : env_ok e -> going st s -> t_state (i_tp s) = TCPS_SYN_SENT -> syn_acks s ->
  exists v, input_syn_sent e s = Ok v /\ verdict_ok st v /\
    match v with Go s' => t_state (i_tp s') = TCPS_ESTABLISHED | _ => True end.
Proof.
  intros He G Est Hsyn. pose proof G as [I Hs Hr M W]. unfold input_syn_sent.
  pose proof (inv_synsent _ _ I Est) as Eiss. change (snd_una (i_tp s) = iss (i_tp s)) in Eiss.
  destruct (has (i_flags s) TH_ACK && _) eqn:Ebad; [eexists; split; [done|split; [by apply going_reset|done]]|].
  destruct (has (i_flags s) TH_RST).
  { destruct (has (i_flags s) TH_ACK); [|eexists; split; [done|split; [by apply going_drop|done]]].
    destruct (tcp_drop_inv e _ _ ECONNREFUSED He I) as (w' & so & ->). cbn [obind]. eexists. split; [done|]. split; [by split|done]. }
  destruct (has (i_flags s) TH_SYN) eqn:Ef; cbn [negb]; [|eexists; split; [done|split; [by apply going_drop|done]]].
  rewrite (Hsyn Ef) in Ebad. cbn [andb] in Ebad. apply orb_false_iff in Ebad as [E1 E2].
  set (tp1 := snd_una_advance (i_tp s) (ti_ack (i_ti s))).
  assert (Hok : snd_ok tp1 (i_so s)).
  { apply snd_ok_advance; [apply I|apply Hs| |exact E2]. rewrite Eiss. unfold SEQ_LEQ in E1. lia. }
  destruct (snd_una_advance_eq (i_tp s) (ti_ack (i_ti s))) as [nx Etp]. fold tp1 in Etp.
  set (f := fun tp : tcpcb => _). set (s1 := upd_tp s f).
  assert (Hgo : SEQ_GT (snd_una (i_tp s1)) (iss (i_tp s1)) = true).
  { change (SEQ_GT (snd_una tp1) (iss tp1) = true). rewrite Etp. tsimp. unfold SEQ_LEQ, SEQ_GT in *. lia. }
  rewrite Hgo. set (s2 := upd_tp s1 (fun tp => tp <| t_state := TCPS_SYN_RECEIVED |>)).
  rewrite <- (input_established_state e s1 TCPS_SYN_RECEIVED). fold s2.
  assert (G2 : going st s2).
  { apply (going_tp st s (fun tp => (f tp) <| t_state := TCPS_SYN_RECEIVED |>)); [done| |..].
    - keep_inv I.
      + destruct Hok as (A1 & A2 & A3 & A4 & _ & A5). unfold snd_ok.
        change (0 <= snd_una tp1 < 2 ^ 32 /\ 0 <= snd_wnd tp1 < 2 ^ 16 /\ 0 <= snd_cwnd tp1 < 2 ^ 16 /\
          0 <= t_maxseg tp1 < 2 ^ 16 /\ TCPS_CLOSED <= TCPS_SYN_RECEIVED <= TCPS_TIME_WAIT /\
          sb_ok (so_snd (i_so s)) /\ sb_stream (so_snd (i_so s)) /\
          exists n m, 0 <= n <= m /\ snd_nxt tp1 = u32 (snd_una tp1 + n) /\ snd_max tp1 = u32 (snd_una tp1 + m) /\
            m <= sb_cc (so_snd (i_so s)) + 1 + (if has (bis (t_flags tp1) TF_ACKNOW) TF_SENTFIN then 1 else 0)).
        rewrite has_bis_other by done. done.
      + change (0 < t_maxseg tp1). rewrite Etp. exact (inv_mss _ _ I).
      + intros _. change (t_template tp1 <> None). rewrite Etp. apply (inv_template _ _ I).
        unfold i_tp in Est. rewrite Est. done.
      + done.
      + assert (T1 : timers_ok tp1) by (rewrite Etp; exact (inv_timers _ _ I)).
        pose proof (timers_norexmt _ T1) as T2. clear - T2. exact T2.
      + change (rcv_ok (seg_q tp1) (i_so s)). rewrite Etp. exact (inv_rcv _ _ I).
      + apply (queue_ok_later _ TCPS_SYN_SENT); [|done]. rewrite <- Est. exact (inv_queue _ _ I).
      + done.
    - change (seg_q tp1 = seg_q (i_tp s)). by rewrite Etp.
    - etrans; [exact M|]. rewrite Est. by apply moves_arrow.
    - change (rcv_wnd tp1 = rcv_wnd (i_tp s)). by rewrite Etp. }
  destruct (input_established_ok e st s2 He G2) as (s' & -> & G' & E' & _); [by right|]. cbn [obind].
  eexists. split; [done|]. by split.
Qed.

(** *** The text up to the window after a SYN *)

Lemma seg_in_trim ti m len urp seqno : seg_in ti -> chain_len m = len -> 0 <= len <= ti_len ti ->
  0 <= urp < 2 ^ 16 -> 0 <= seqno < 2 ^ 32 ->
  seg_in (ti <| ti_m := m |> <| ti_len := len |> <| ti_urp := urp |> <| ti_seq := seqno |>).
Proof. intros [A B C D E F] Hm Hl Hu Hq. split; tsimp; (done || lia). Qed.

Lemma input_trim_ok st s : going st s -> t_state (i_tp s) <> TCPS_SYN_SENT ->
  exists s', input_trim s = Ok s' /\ going st s' /\ t_state (i_tp s') = t_state (i_tp s).
Proof.
  intros G Hst. pose proof G as [I Hs Hr M W]. pose proof (si_len _ Hs). pose proof (si_text _ Hs) as Et. unfold input_trim.
  set (s1 := upd_ti s (fun ti => ti <| ti_seq := seq_add (ti_seq ti) 1 |>)).
  assert (Hs1 : seg_in (i_ti s1)).
  { destruct Hs as [A B C D E F]. split; try done. exact (u32_range _). }
  assert (H2 : exists s2, (if rcv_wnd (i_tp s1) <? ti_len (i_ti s1) then
      let* s := trim_text s1 (- (ti_len (i_ti s1) - rcv_wnd (i_tp s1))) in
      Ok ((upd_ti s (fun ti => ti <| ti_len := s16 (rcv_wnd (i_tp s1)) |>)) <| i_flags := bic (i_flags s) TH_FIN |>)
    else Ok s1) = Ok s2 /\ going st s2 /\ i_tp s2 = i_tp s).
  { change (rcv_wnd (i_tp s1)) with (rcv_wnd (i_tp s)). change (ti_len (i_ti s1)) with (ti_len (i_ti s)).
    destruct (Z.ltb_spec (rcv_wnd (i_tp s)) (ti_len (i_ti s))) as [Hlt|Hge].
    - destruct (trim_text_ok s1 (- (ti_len (i_ti s) - rcv_wnd (i_tp s))) Hs1) as (m & -> & Hm & Hc & _).
      { change (ti_len (i_ti s1)) with (ti_len (i_ti s)). lia. }
      cbn [obind]. eexists. split; [done|]. change (ti_len (i_ti s1)) with (ti_len (i_ti s)) in Hm.
      split; [|done]. rewrite s16_small by lia.
      apply (going_seg st s ((i_ti s1) <| ti_m := m |> <| ti_len := rcv_wnd (i_tp s) |>)); [done| |tsimp; lia|tsimp; by rewrite Hc].
      destruct Hs1 as [A B C D E F]. split; tsimp; (done || lia).
    - exists s1. split; [done|]. split; [|done]. apply (going_seg st s (i_ti s1) (i_flags s)); done. }
  destruct H2 as (s2 & -> & G2 & E2). cbn [obind]. eexists. split; [done|]. split; [|by rewrite <- E2].
  apply going_tp; [done| |done|rewrite E2; apply M|done]. pose proof (go_inv _ _ G2) as I2. keep_inv I2.
Qed.

(** Read the fields of a segment under way. *)
Ltac isimp := cbn [set_field upd_ti upd_tp upd_so i_w i_c i_ti i_flags i_out on_tp on_so]; tsimp.

Lemma has_bic_other f b c : Z.land (Z.lnot b) c = c -> has (bic f b) c = has f c.
Proof. intros H. unfold has, bic. by rewrite <- Z.land_assoc, H. Qed.

Lemma has_bic_false f b c : has f c = false -> has (bic f b) c = false.
Proof.
  unfold has, bic, nz. rewrite !negb_false_iff, !Z.eqb_eq. intros H.
  by rewrite <- Z.land_assoc, (Z.land_comm (Z.lnot b)), Z.land_assoc, H.
Qed.
