(* ===== verification/TcpWindow.v ===== *)
(** * The window check of [tcp_input] trims a segment to the window

    What is left of a segment that has come to [input_window]: exactly its bytes
    inside the receive window, with the flags and the urgent pointer that go
    with them; or an acknowledgement, when the segment lies outside. *)
From S2P Require Import Prelude TcpSeq Mbuf Socket In Inpcb TcpVar TcpReass TcpOutput TcpOutSeq TcpOutSend.
From S2P Require Import TcpInput TcpUser TcpInv TcpSafe.

(** ** Positions *)

(** Where a segment lies: [a] is the position of its first sequence number,
    [P] that of [rcv_nxt]. *)
Definition placed (s : istate) (a P : Z) : Prop :=
  ti_seq (i_ti s) = u32 a /\ rcv_nxt (i_tp s) = u32 P /\ - 2 ^ 30 <= P - a < 2 ^ 30.

(** The same connection, under another segment. *)
Definition same_conn (s s' : istate) : Prop := i_w s' = i_w s /\ i_c s' = i_c s /\ i_out s' = i_out s.

(** What trimming leaves of a segment whose text begins at [b]: the bytes of
    [[P, P + W)], their number, the FIN if the text ended in there, an urgent
    pointer that still points where it did. *)
Record trimmed (s s' : istate) (b P W : Z) : Prop := Trimmed {
  tr_conn : same_conn s s';
  tr_seg : seg_in (i_ti s');
  tr_cost : chain_cost (ti_m (i_ti s')) = chain_cost (ti_m (i_ti s));
  tr_hdr : ti_ack (i_ti s') = ti_ack (i_ti s) /\ ti_win (i_ti s') = ti_win (i_ti s);
  tr_seq : ti_seq (i_ti s') = u32 (Z.max b P);
  tr_text : chain_data (ti_m (i_ti s')) =
    take (Z.to_nat (P + W - Z.max b P)) (drop (Z.to_nat (P - b)) (chain_data (ti_m (i_ti s))));
  tr_fin : has (i_flags s') TH_FIN = has (i_flags s) TH_FIN && (b + ti_len (i_ti s) <=? P + W);
  tr_urg : has (i_flags s') TH_URG = true -> has (i_flags s) TH_URG = true /\
    u32 (ti_seq (i_ti s') + ti_urp (i_ti s')) = u32 (ti_seq (i_ti s) + ti_urp (i_ti s));
  tr_ctl : has (i_flags s') TH_ACK = has (i_flags s) TH_ACK /\ has (i_flags s') TH_RST = has (i_flags s) TH_RST
}.

Lemma zlen_chain ti : seg_in ti -> zlen (chain_data (ti_m ti)) = ti_len ti.
Proof. apply si_text. Qed.

(** Nothing to trim. *)
Lemma trimmed_refl s b P W : seg_in (i_ti s) -> ti_seq (i_ti s) = u32 b -> P <= b ->
  b + ti_len (i_ti s) <= P + W -> trimmed s s b P W.
Proof.
  intros Hs Eq Hb Hw. pose proof (zlen_chain _ Hs) as El. unfold zlen in El. split; try done.
  - by rewrite Z.max_l by lia.
  - replace (Z.to_nat (P - b)) with 0%nat by lia. rewrite drop_0, take_ge by lia. done.
  - by rewrite (proj2 (Z.leb_le _ _) Hw), andb_true_r.
Qed.

(** The front, then the back. *)
Lemma trimmed_trans s1 s2 s3 b P W1 W2 : trimmed s1 s2 b P W1 -> trimmed s2 s3 (Z.max b P) P W2 ->
  seg_in (i_ti s1) -> P <= b + ti_len (i_ti s1) <= P + W1 -> 0 <= W2 <= W1 -> trimmed s1 s3 b P W2.
Proof.
  assert (Em : Z.max (Z.max b P) P = Z.max b P) by lia.
  intros [(A1 & A2 & A3) A B [C1 C2] D E F G [H1 H2]] [(A1' & A2' & A3') A' B' [C1' C2'] D' E' F' G' [H1' H2']] Hs Hp HW.
  pose proof (zlen_chain _ Hs) as L1. pose proof (zlen_chain _ A) as L2.
  rewrite Em in D', E'. set (L := ti_len (i_ti s1)) in *. set (L' := ti_len (i_ti s2)) in *.
  assert (EL : Z.max b P + L' = b + L).
  { rewrite <- L2, E. unfold zlen in *. rewrite length_take, length_drop. clear - L1 Hp HW. lia. }
  split; [split_and!; by etrans|done|by etrans|split; by etrans|done|..|split; by etrans].
  - rewrite E', E. replace (Z.to_nat (P - Z.max b P)) with 0%nat by (clear; lia).
    rewrite drop_0, take_take. f_equal. clear - HW. lia.
  - rewrite F', F, <- andb_assoc, EL. f_equal. clear - HW. lia.
  - intros Hu. destruct (G' Hu) as [Hu2 E2]. destruct (G Hu2) as [Hu1 E1]. split; [done|by etrans].
Qed.
Lemma drop_syn_spec s todrop : seg_in (i_ti s) ->
  let syn := has (i_flags s) TH_SYN in
  exists s', drop_syn s todrop = (s', todrop - cbool syn) /\ same_conn s s' /\ seg_in (i_ti s') /\
    ti_m (i_ti s') = ti_m (i_ti s) /\ ti_len (i_ti s') = ti_len (i_ti s) /\
    ti_ack (i_ti s') = ti_ack (i_ti s) /\ ti_win (i_ti s') = ti_win (i_ti s) /\
    ti_seq (i_ti s') = u32 (ti_seq (i_ti s) + cbool syn) /\ has (i_flags s') TH_SYN = false /\
    (forall c, Z.land (Z.lnot (Z.lor TH_SYN TH_URG)) c = c -> has (i_flags s') c = has (i_flags s) c) /\
    (has (i_flags s') TH_URG = true -> has (i_flags s) TH_URG = true /\
      u32 (ti_seq (i_ti s') + ti_urp (i_ti s')) = u32 (ti_seq (i_ti s) + ti_urp (i_ti s))).
Proof.
  intros Hs. unfold drop_syn. destruct (has (i_flags s) TH_SYN) eqn:Es; cbn [cbool].
  - pose proof Hs as [A B C D E F]. cbn [i_ti upd_ti set_field ti_urp].
    assert (Hc : forall c, Z.land (Z.lnot (Z.lor TH_SYN TH_URG)) c = c ->
      Z.land (Z.lnot TH_SYN) c = c /\ Z.land (Z.lnot TH_URG) c = c).
    { intros c Hc. rewrite <- Hc, !Z.land_assoc. by split. }
    destruct (Z.ltb_spec 1 (ti_urp (i_ti s))).
    + eexists. split; [done|]. split; [done|]. split; [split; isimp; try done; [apply u32_range|lia]|].
      do 5 (split; [done|]). split; [apply bic_hasnt|]. split; [intros c [H1 H2]%Hc; by apply has_bic_other|].
      intros Hu. split; [exact (bic_has _ _ _ Hu)|]. isimp. unfold seq_add. rewrite u32_add_l. f_equal. lia.
    + eexists. split; [done|]. split; [done|]. split; [split; isimp; try done; apply u32_range|].
      do 5 (split; [done|]). split; [apply has_bic_false, bic_hasnt|].
      split; [intros c [H1 H2]%Hc; etrans; by apply has_bic_other|]. cbn [i_flags set_field]. by rewrite bic_hasnt.
  - exists s. rewrite Z.sub_0_r. split; [done|]. split; [done|]. split; [done|].
    do 4 (split; [done|]). split; [by rewrite Z.add_0_r, u32_small by apply Hs|]. by rewrite Es.
Qed.

Lemma cbool_range b : 0 <= cbool b <= 1.
Proof. by destruct b. Qed.

(** The number of the first byte of text; a SYN in front of the window has one
    of its own. *)
Definition text_at (s : istate) (a P : Z) : Z := if P <=? a then a else a + cbool (has (i_flags s) TH_SYN).

Lemma trim_front_spec s a P : seg_in (i_ti s) -> placed s a P ->
  exists v, trim_front s = Ok v /\
    match v with
    | Go s' => P <= text_at s a P + ti_len (i_ti s) /\ trimmed s s' (text_at s a P) P (2 ^ 31) /\
        has (i_flags s') TH_SYN = has (i_flags s) TH_SYN && (P <=? a)
    | DropAfterAck s' => same_conn s s' /\ text_at s a P + ti_len (i_ti s) <= P
    | _ => False
    end.
Proof.
  intros Hs (Ea & EP & Hd). unfold trim_front, text_at, seq_int. rewrite Ea, EP, s32_sub_u32, s32_small by lia.
  pose proof (si_len _ Hs) as Hl. destruct (Z.ltb_spec 0 (P - a)) as [Hlt|Hge].
  2: { assert (E : (P <=? a) = true) by lia. rewrite E, andb_true_r. exists (Go s). split; [done|]. split; [lia|].
       split; [|done]. apply trimmed_refl; [done|done|lia|lia]. }
  assert (E : (P <=? a) = false) by lia. rewrite E, andb_false_r. clear E.
  destruct (drop_syn_spec s (P - a) Hs) as (s1 & -> & Hc & Hs1 & Em & El & Eack & Ewin & Eq & Esyn & Hf & Hu).
  set (b := a + cbool (has (i_flags s) TH_SYN)) in *. rewrite El.
  assert (Eb : ti_seq (i_ti s1) = u32 b) by (rewrite Eq, Ea; apply u32_add_l). clear Eq.
  assert (Hb : b <= P) by (pose proof (cbool_range (has (i_flags s) TH_SYN)); lia).
  replace (P - a - cbool (has (i_flags s) TH_SYN)) with (P - b) by (unfold b; lia). clearbody b.
  destruct (Z.ltb_spec (ti_len (i_ti s)) (P - b)) as [Hlt'|Hge]; cbn [orb].
  { eexists. split; [done|]. split; [done|lia]. }
  destruct ((P - b =? ti_len (i_ti s)) && _) eqn:E.
  { apply andb_true_iff in E as [E _]. eexists. split; [done|]. split; [done|lia]. }
  clear E. destruct (trim_text_ok s1 (P - b) Hs1) as (m & -> & Hm & Hcost & Hdat); [lia|]. cbn [obind].
  rewrite (proj2 (Z.leb_le 0 _)), Em in Hdat by lia. rewrite Em in Hcost. rewrite El, Z.abs_eq in Hm by lia.
  assert (H : forall urp flags, 0 <= urp < 2 ^ 16 ->
    has flags TH_FIN = has (i_flags s1) TH_FIN ->
    (has flags TH_URG = true -> has (i_flags s1) TH_URG = true /\ urp = ti_urp (i_ti s1) - (P - b)) ->
    has flags TH_ACK = has (i_flags s1) TH_ACK -> has flags TH_RST = has (i_flags s1) TH_RST ->
    trimmed s (s1 <| i_ti := (i_ti s1) <| ti_m := m |> <| ti_seq := seq_add (ti_seq (i_ti s1)) (P - b) |>
      <| ti_len := s16 (ti_len (i_ti s1) - (P - b)) |> <| ti_urp := urp |> |> <| i_flags := flags |>) b P (2 ^ 31)).
  { intros urp flags Hurp H1 H2 H3 H4. pose proof Hs1 as [A B C D E F]. rewrite El, s16_small by lia. split; isimp.
    - exact Hc.
    - split; isimp; try done; [lia|apply u32_range].
    - exact Hcost.
    - done.
    - rewrite Eb. unfold seq_add. rewrite u32_add_l. f_equal. lia.
    - rewrite Hdat, take_ge; [done|]. rewrite length_drop. pose proof (zlen_chain _ Hs) as Z1. unfold zlen in Z1. lia.
    - rewrite H1, Hf by done. rewrite (proj2 (Z.leb_le _ _)), andb_true_r by lia. done.
    - intros [U1 ->]%H2. destruct (Hu U1) as [U2 U3]. split; [done|]. rewrite <- U3. unfold seq_add.
      rewrite u32_add_l. f_equal. lia.
    - rewrite H3, H4, !Hf by done. done. }
  pose proof (si_urp _ Hs1) as Hurp. destruct (Z.ltb_spec (P - b) (ti_urp (i_ti s1))) as [Hx|Hx].
  - exists (Go (s1 <| i_ti := (i_ti s1) <| ti_m := m |> <| ti_seq := seq_add (ti_seq (i_ti s1)) (P - b) |>
      <| ti_len := s16 (ti_len (i_ti s1) - (P - b)) |> <| ti_urp := u16 (ti_urp (i_ti s1) - (P - b)) |> |>
      <| i_flags := i_flags s1 |>)).
    split; [isimp; by rewrite (proj2 (Z.ltb_lt _ _) Hx)|]. split; [lia|]. split; [|exact Esyn].
    rewrite u16_small by lia. apply H; (done || lia).
  - exists (Go (s1 <| i_ti := (i_ti s1) <| ti_m := m |> <| ti_seq := seq_add (ti_seq (i_ti s1)) (P - b) |>
      <| ti_len := s16 (ti_len (i_ti s1) - (P - b)) |> <| ti_urp := 0 |> |>
      <| i_flags := bic (i_flags s1) TH_URG |>)).
    split; [isimp; by rewrite (proj2 (Z.ltb_ge _ _) Hx)|]. split; [lia|]. split; [|by apply has_bic_false].
    apply H; [done|by apply has_bic_other|by rewrite bic_hasnt|by apply has_bic_other..].
Qed.

(** Going on with the first [k] bytes, without PUSH and FIN. *)
Lemma trimmed_cut s m k b P W : seg_in (i_ti s) -> ti_seq (i_ti s) = u32 b -> P <= b ->
  0 <= k < ti_len (i_ti s) -> k = Z.max 0 (P + W - b) ->
  chain_data m = take (Z.to_nat k) (chain_data (ti_m (i_ti s))) ->
  chain_cost m = chain_cost (ti_m (i_ti s)) ->
  trimmed s ((upd_ti (upd_ti s (fun ti => ti <| ti_m := m |>)) (fun ti => ti <| ti_len := k |>))
    <| i_flags := bic (i_flags s) (Z.lor TH_PUSH TH_FIN) |>) b P W.
Proof.
  intros Hs Eb Hb Hk Ek Hdat Hcost. pose proof Hs as [A B C D E F].
  pose proof (zlen_chain _ Hs) as Z1. unfold zlen in Z1. split; isimp; try done.
  - split; isimp; try done; [lia|]. unfold chain_len, zlen. rewrite Hdat, length_take. lia.
  - by rewrite Z.max_l by lia.
  - rewrite Hdat, Z.max_l by lia. replace (Z.to_nat (P - b)) with 0%nat by lia. rewrite drop_0. f_equal. lia.
  - rewrite (proj2 (Z.leb_gt _ _)), andb_false_r by lia.
    assert (H : bic (i_flags s) (Z.lor TH_PUSH TH_FIN) = bic (bic (i_flags s) TH_PUSH) TH_FIN)
      by (unfold bic; by rewrite <- Z.land_assoc).
    rewrite H. apply bic_hasnt.
  - intros Hu. split; [by eapply bic_has|done].
  - split; by apply has_bic_other.
Qed.

Lemma trim_back_spec s b P W : seg_in (i_ti s) -> ti_seq (i_ti s) = u32 b ->
  rcv_nxt (i_tp s) = u32 P -> rcv_wnd (i_tp s) = W -> 0 <= W < 2 ^ 16 -> P <= b <= P + 2 ^ 30 ->
  exists v, trim_back s = Ok v /\
    match v with
    | Go s' => trimmed s s' b P W /\ has (i_flags s') TH_SYN = has (i_flags s) TH_SYN
    | DropAfterAck s' => s' = s /\ P + W <= b
    | _ => False
    end.
Proof.
  intros Hs Eb EP EW HW Hb. pose proof (si_len _ Hs) as Hl. unfold trim_back, seq_int.
  assert (Ed : s32 (ti_seq (i_ti s) + ti_len (i_ti s) - (rcv_nxt (i_tp s) + rcv_wnd (i_tp s)))
               = b + ti_len (i_ti s) - (P + W)).
  { rewrite Eb, EP, EW, Z.sub_add_distr.
    replace (u32 b + ti_len (i_ti s) - u32 P - W) with (u32 b + (ti_len (i_ti s) - W) - u32 P) by lia.
    rewrite s32_add_sub, s32_small; lia. }
  rewrite Ed. clear Ed. destruct (Z.ltb_spec 0 (b + ti_len (i_ti s) - (P + W))) as [Hlt|Hge].
  2: { exists (Go s). split; [done|]. split; [|done]. apply trimmed_refl; (done || lia). }
  destruct (Z.leb_spec (ti_len (i_ti s)) (b + ti_len (i_ti s) - (P + W))) as [Hle|Hgt].
  { eexists. split; [done|]. split; [done|lia]. }
  destruct (trim_text_ok s (- (b + ti_len (i_ti s) - (P + W))) Hs) as (m & -> & Hm & Hcost & Hdat); [lia|]. cbn [obind].
  rewrite (proj2 (Z.leb_gt 0 _)) in Hdat by lia. set (k := ti_len (i_ti s) - (b + ti_len (i_ti s) - (P + W))).
  exists (Go ((upd_ti (upd_ti s (fun ti => ti <| ti_m := m |>)) (fun ti => ti <| ti_len := k |>))
    <| i_flags := bic (i_flags s) (Z.lor TH_PUSH TH_FIN) |>)).
  split; [unfold upd_ti; isimp; by rewrite s16_small by lia|]. split; [|by apply has_bic_other].
  apply trimmed_cut; try done; try lia.
Qed.

Lemma closed_window_spec s a P : seg_in (i_ti s) -> placed s a P ->
  exists v, closed_window s = Ok v /\
    match v with
    | Go s' => a = P /\ trimmed s s' a P 0 /\ has (i_flags s') TH_SYN = has (i_flags s) TH_SYN
    | DropAfterAck s' => s' = s /\ a <> P
    | _ => False
    end.
Proof.
  intros Hs (Ea & EP & Hd). pose proof (si_len _ Hs) as Hl. unfold closed_window.
  assert (Eq : (rcv_nxt (i_tp s) =? ti_seq (i_ti s)) = (P =? a)).
  { destruct (Z.eqb_spec P a) as [->|Hne]; [rewrite Ea, EP; lia|]. apply Z.eqb_neq. rewrite Ea, EP. intros E.
    assert (s32 (u32 P - u32 a) = 0) by (rewrite E, Z.sub_diag; done). rewrite s32_sub_u32, s32_small in H; lia. }
  rewrite Eq. destruct (Z.eqb_spec P a) as [->|Hne]; cbn [negb]; [|eexists; split; [done|]; split; [done|lia]].
  destruct (Z.ltb_spec 0 (ti_len (i_ti s))) as [Hlt|Hge].
  2: { exists (Go s). split; [done|]. split; [done|]. split; [|done]. apply trimmed_refl; (done || lia). }
  destruct (trim_text_ok s (ti_len (i_ti s)) Hs) as (m & -> & Hm & Hcost & Hdat); [lia|]. cbn [obind].
  rewrite (proj2 (Z.leb_le 0 _)) in Hdat by lia. eexists. split; [done|]. split; [done|]. split; [|by apply has_bic_other].
  apply (trimmed_cut s m 0); try done; try lia. rewrite Hdat, drop_ge; [done|]. pose proof (zlen_chain _ Hs) as Z1. unfold zlen in Z1. lia.
Qed.

(** What the stage makes of a segment that begins at [a]: its bytes in the
    window; it goes on unless it lies in front of the window or after it. *)
Lemma input_window_spec s a P W : seg_in (i_ti s) -> placed s a P -> rcv_wnd (i_tp s) = W -> 0 <= W < 2 ^ 16 ->
  exists v, input_window s = Ok v /\
    match v with
    | Go s' => trimmed s s' (text_at s a P) P W /\ has (i_flags s') TH_SYN = has (i_flags s) TH_SYN && (P <=? a)
    | DropAfterAck s' => same_conn s s' /\
        (text_at s a P + ti_len (i_ti s) <= P \/ P + W <= text_at s a P \/ W = 0 /\ a <> P)
    | _ => False
    end.
Proof.
  intros Hs Hp EW HW. pose proof Hp as (Ea & EP & Hd). pose proof (si_len _ Hs) as Hl. unfold input_window. rewrite EW.
  destruct (Z.eqb_spec W 0) as [->|HW0].
  { destruct (closed_window_spec s a P Hs Hp) as (v & -> & Hv). exists v. split; [done|].
    destruct v as [s'| |s'|]; try done; [|destruct Hv as [-> Hne]; split; [done|auto]].
    destruct Hv as (-> & Ht & ->). unfold text_at. by rewrite Z.leb_refl, andb_true_r. }
  destruct (trim_front_spec s a P Hs Hp) as (v & -> & Hv). unfold vbind at 1. cbn [obind].
  set (b := text_at s a P) in *. assert (Hb : a <= b <= P + 2 ^ 30).
  { unfold b, text_at. pose proof (cbool_range (has (i_flags s) TH_SYN)). destruct (Z.leb_spec P a); lia. }
  clearbody b. destruct v as [s1| |s1|]; try done; [|eexists; split; [done|]; destruct Hv; split; [done|lia]].
  destruct Hv as (HPb & T1 & E1). pose proof T1 as [(_ & C2 & _) A _ _ D _ _ _ _].
  destruct (trim_back_spec s1 (Z.max b P) P W A D) as (v & -> & Hv); [unfold i_tp; by rewrite C2..|done|clear - Hb HPb; lia|].
  exists v. split; [done|]. destruct v as [s2| |s2|]; try done.
  - destruct Hv as [T2 E2]. split; [|by rewrite E2]. eapply trimmed_trans; [exact T1|exact T2|done|clear - Hb HPb Hl; lia|clear - HW; lia].
  - destruct Hv as [-> Hv]. split; [exact (tr_conn _ _ _ _ _ T1)|]. clear - Hv Hb HPb HW HW0 Hl. lia.
Qed.

(** ** The stage keeps the invariant

    Whatever the sequence number: half the space away from the window the
    comparisons have no meaning, and the stage is still safe. *)

(** The same connection, with no more text. *)
Definition shrunk (s s' : istate) : Prop :=
  same_conn s s' /\ seg_in (i_ti s') /\ chain_len (ti_m (i_ti s')) <= chain_len (ti_m (i_ti s)) /\
  chain_cost (ti_m (i_ti s')) = chain_cost (ti_m (i_ti s)).

Lemma shrunk_refl s : seg_in (i_ti s) -> shrunk s s.
Proof. done. Qed.

Lemma shrunk_trans a b c : shrunk a b -> shrunk b c -> shrunk a c.
Proof.
  intros ((A1 & A2 & A3) & B & C & D) ((A1' & A2' & A3') & B' & C' & D').
  split; [split_and!; by etrans|]. split; [done|]. split; [by etrans|by etrans].
Qed.

Lemma going_shrunk st s s' : going st s -> shrunk s s' -> going st s'.
Proof.
  intros [I Hs (R1 & R2 & R3) M W] ((E1 & E2 & E3) & Hs' & L & C). unfold i_tp in *.
  split; [by rewrite E1, E2|done| |by unfold i_tp; rewrite E2|by unfold i_tp; rewrite E2].
  rewrite E2. split; [done|]. lia.
Qed.

(** What the trims leave. *)
Definition shrunk_verdict (s : istate) (v : verdict) : Prop :=
  match v with Go s' => shrunk s s' | DropAfterAck s' => same_conn s s' | _ => False end.

(** A trim, with the length and the header fields that go with it. *)
Lemma trim_shrunk s n (f : tcpiphdr -> tcpiphdr) flags : seg_in (i_ti s) -> Z.abs n <= ti_len (i_ti s) ->
  (forall m, chain_len m = ti_len (i_ti s) - Z.abs n -> seg_in (f ((i_ti s) <| ti_m := m |>))) ->
  (forall ti, ti_m (f ti) = ti_m ti) ->
  exists s1, trim_text s n = Ok s1 /\ shrunk s ((upd_ti s1 f) <| i_flags := flags |>) /\ i_flags s1 = i_flags s.
Proof.
  intros Hs Hn Hf Hm. destruct (trim_text_ok s n Hs Hn) as (m & -> & L & C & _). eexists. split; [done|].
  split; [|done]. split; [done|]. split; [by apply Hf|]. unfold upd_ti. isimp. rewrite !Hm. isimp.
  split; [rewrite L, (si_text _ Hs); lia|done].
Qed.

Lemma trim_front_shrunk s : seg_in (i_ti s) ->
  exists v, trim_front s = Ok v /\ shrunk_verdict s v.
Proof.
  intros Hs. unfold trim_front. set (todrop0 := seq_int _ _).
  destruct (Z.ltb_spec 0 todrop0); [|exists (Go s); split; [done|by apply shrunk_refl]].
  destruct (drop_syn_spec s todrop0 Hs) as (s1 & -> & Hc & Hs1 & Em & El & _).
  set (todrop := todrop0 - _). assert (Ht : 0 <= todrop) by (pose proof (cbool_range (has (i_flags s) TH_SYN)); lia).
  assert (S1 : shrunk s s1) by (split; [done|]; split; [done|]; by rewrite Em).
  destruct (_ || _) eqn:E; [eexists; split; [done|exact Hc]|]. apply orb_false_iff in E as [E _].
  pose proof (si_len _ Hs1). pose proof (si_urp _ Hs1).
  set (f := fun ti => ti <| ti_seq := seq_add (ti_seq ti) todrop |> <| ti_len := s16 (ti_len ti - todrop) |>).
  destruct (trim_shrunk s1 todrop (fun ti => (f ti) <| ti_urp := if todrop <? ti_urp (i_ti s1) then u16 (ti_urp ti - todrop) else 0 |>)
    (if todrop <? ti_urp (i_ti s1) then i_flags s1 else bic (i_flags s1) TH_URG) Hs1) as (s2 & E2 & S2 & F2); [lia| |done|].
  { intros m Hm. destruct Hs1 as [A B C D F G]. unfold f. split; isimp; try done.
    - rewrite s16_small; lia.
    - rewrite s16_small; lia.
    - apply u32_range.
    - destruct (Z.ltb_spec todrop (ti_urp (i_ti s1))); [apply Z.mod_pos_bound|]; lia. }
  rewrite E2. cbn [obind]. unfold trim_text in E2. inv_ok. eexists. split; [done|].
  eapply shrunk_trans; [exact S1|]. unfold upd_ti, f in *. revert S2. isimp. by destruct (todrop <? _).
Qed.

Lemma trim_back_shrunk s : seg_in (i_ti s) -> exists v, trim_back s = Ok v /\ shrunk_verdict s v.
Proof.
  intros Hs. unfold trim_back. set (todrop := seq_int _ _).
  destruct (Z.ltb_spec 0 todrop); [|exists (Go s); split; [done|by apply shrunk_refl]].
  destruct (Z.leb_spec (ti_len (i_ti s)) todrop); [by eexists|]. pose proof (si_len _ Hs).
  destruct (trim_shrunk s (- todrop) (fun ti => ti <| ti_len := s16 (ti_len ti - todrop) |>)
    (bic (i_flags s) (Z.lor TH_PUSH TH_FIN)) Hs) as (s2 & -> & S2 & F2); [lia| |done|].
  { intros m Hm. destruct Hs. split; isimp; try done; rewrite s16_small; lia. }
  cbn [obind]. rewrite <- F2 in S2. eexists. by split.
Qed.

Lemma closed_window_shrunk s : seg_in (i_ti s) -> exists v, closed_window s = Ok v /\ shrunk_verdict s v.
Proof.
  intros Hs. unfold closed_window. destruct (negb _); [by eexists|]. pose proof (si_len _ Hs).
  destruct (Z.ltb_spec 0 (ti_len (i_ti s))); [|exists (Go s); split; [done|by apply shrunk_refl]].
  destruct (trim_shrunk s (ti_len (i_ti s)) (fun ti => ti <| ti_len := 0 |>)
    (bic (i_flags s) (Z.lor TH_PUSH TH_FIN)) Hs) as (s2 & -> & S2 & F2); [lia| |done|].
  { intros m Hm. destruct Hs. split; isimp; try done; lia. }
  cbn [obind]. rewrite <- F2 in S2. eexists. by split.
Qed.

Lemma input_window_shrunk s : seg_in (i_ti s) -> exists v, input_window s = Ok v /\ shrunk_verdict s v.
Proof.
  intros Hs. unfold input_window. destruct (_ =? 0); [by apply closed_window_shrunk|].
  destruct (trim_front_shrunk s Hs) as (v & -> & Hv). unfold vbind at 1. cbn [obind].
  destruct v as [s1| |s1|]; try done; [|by eexists].
  destruct (trim_back_shrunk s1) as (v & -> & Hv'); [apply Hv|]. exists v. split; [done|].
  destruct v as [s2| |s2|]; try done; [by eapply shrunk_trans|].
  destruct Hv as ((A1 & A2 & A3) & _), Hv' as (B1 & B2 & B3). split_and!; by etrans.
Qed.

Lemma input_window_ok st s : going st s ->
  exists v, input_window s = Ok v /\ verdict_ok st v /\
    match v with Go s' => i_c s' = i_c s /\ i_w s' = i_w s | _ => True end.
Proof.
  intros G. destruct (input_window_shrunk s (go_seg _ _ G)) as (v & -> & Hv). exists v. split; [done|].
  destruct v as [s'| |s'|]; try done.
  - split; [by eapply going_shrunk|]. destruct Hv as ((E1 & E2 & _) & _). by split.
  - split; [|done]. destruct Hv as (E1 & E2 & _). unfold verdict_ok, i_tp. rewrite E1, E2.
    split; [apply G|apply (go_moves _ _ G)].
Qed.

(** ** The property *)

(** C26: [input_window] never fails.  A segment whose text begins at position
    [text_at s a P] (behind its SYN, if that lies in front of the window) goes
    on as [trimmed] says: with exactly its bytes of [[P, P + W)], the sequence
    number of the first of them, the FIN if and only if all the text was inside,
    and an urgent pointer that still points at the same number.  It is answered
    by an acknowledgement only when none of its text lies in the window, or the
    window is closed and the segment not at its edge. *)
Theorem input_window_correct s a P W :
  seg_in (i_ti s) -> placed s a P -> rcv_wnd (i_tp s) = W -> 0 <= W < 2 ^ 16 ->
  exists v, input_window s = Ok v /\
    match v with
    | Go s' => trimmed s s' (text_at s a P) P W /\
        has (i_flags s') TH_SYN = has (i_flags s) TH_SYN && (P <=? a)
    | DropAfterAck s' => same_conn s s' /\
        (text_at s a P + ti_len (i_ti s) <= P \/ P + W <= text_at s a P \/ W = 0 /\ a <> P)
    | _ => False
    end.
Proof. apply input_window_spec. Qed.

(** Six bytes behind a SYN, from 98; the window is [[100, 103)]. *)
Definition sample_window : istate :=
  Istate sample_world (on_tp (fun tp => tp <| rcv_nxt := 100 |> <| rcv_wnd := 3 |>) sample_conn)
    (Tcpiphdr 3 1 4 2 97 100 (Z.lor TH_ACK TH_FIN) 6 9 0
       [Mbuf (Internal MMINOFF) MT_DATA [1; 2; 3; 4]; Mbuf (Internal MMINOFF) MT_DATA [5; 6]])
    (Z.lor (Z.lor TH_ACK TH_SYN) TH_FIN) false.

Lemma input_window_correct_witness : exists s',
  input_window sample_window = Ok (Go s') /\ ti_seq (i_ti s') = 100 /\
  chain_data (ti_m (i_ti s')) = [3; 4; 5] /\ i_flags s' = TH_ACK.
Proof.
  destruct (input_window_correct sample_window 97 100 3) as (v & E & H).
  - split; vm_compute; (reflexivity || (split; [discriminate|reflexivity])).
  - split; [reflexivity|]. split; [reflexivity|]. lia.
  - reflexivity.
  - lia.
  - vm_compute in E. injection E as <-. eexists. split; [vm_compute; reflexivity|].
    destruct H as [T _]. split; [exact (tr_seq _ _ _ _ _ T)|]. split; [exact (tr_text _ _ _ _ _ T)|reflexivity].
Defined.
