(* ===== verification/TcpAck.v ===== *)
(** * Acknowledgements in [tcp_input]

    The stages from the window to the end of the switch on the acknowledgement:
    resets, SYNs in the window, the acknowledgement of our SYN, of data and of
    our FIN.  They keep the invariant and move the state along the diagram;
    an acknowledgement takes exactly the bytes it covers out of the send
    buffer. *)
From S2P Require Import Prelude TcpSeq Mbuf Socket In Inpcb TcpVar TcpReass TcpOutput TcpOutSeq TcpOutSend.
From S2P Require Import TcpInput TcpUser TcpInv TcpSafe TcpWindow.

(** ** Connections that end *)

Lemma verdict_close st s (f : world -> connection -> verdict) : going st s ->
  (forall w k, kept w k -> kmoves st k -> verdict_ok st (f w k)) ->
  exists v, (let* r := tcp_close (i_w s) (i_c s) in Ok (f r.1 r.2)) = Ok v /\ verdict_ok st v /\
    forall s', v = Go s' -> exists w k, f w k = Go s'.
Proof.
  intros G Hf. destruct (tcp_close_inv _ _ (go_inv _ _ G)) as (w' & so & ->). cbn [obind fst snd].
  eexists. split; [done|]. split; [by apply Hf|]. intros s' E. by exists w', (Closed so).
Qed.

Lemma verdict_drop e st s errno (f : world -> connection -> verdict) : env_ok e -> going st s ->
  (forall w k, kept w k -> kmoves st k -> verdict_ok st (f w k)) ->
  exists v, (let* r := tcp_drop e (i_w s) (i_c s) errno in Ok (f r.1 r.2)) = Ok v /\ verdict_ok st v /\
    forall s', v = Go s' -> exists w k, f w k = Go s'.
Proof.
  intros He G Hf. destruct (tcp_drop_inv e _ _ errno He (go_inv _ _ G)) as (w' & so & ->). cbn [obind fst snd].
  eexists. split; [done|]. split; [by apply Hf|]. intros s' E. by exists w', (Closed so).
Qed.

(** Where a stage that lets the segment through leads. *)
Definition passes (st : Z) (s : istate) (v : verdict) : Prop :=
  verdict_ok st v /\ forall s', v = Go s' -> s' = s.

Lemma passes_go st s : going st s -> passes st s (Go s).
Proof. intros G. split; [done|]. by intros s' [= <-]. Qed.

Lemma passes_drop st s : going st s -> passes st s (drop_it s).
Proof. intros G. split; [by apply going_drop|done]. Qed.

Lemma input_nofdref_ok st s : going st s -> exists v, input_nofdref s = Ok v /\ passes st s v.
Proof.
  intros G. unfold input_nofdref. destruct (_ && _); [|eexists; split; [done|by apply passes_go]].
  destruct (verdict_close st s (fun w k => DropWithReset w k (i_ti s) (i_flags s)) G) as (v & -> & Hv & Hg); [done|].
  exists v. split; [done|]. split; [done|]. intros s' (w & k & E)%Hg. done.
Qed.

Lemma input_rst_ok e st s : env_ok e -> going st s -> exists v, input_rst e s = Ok v /\ passes st s v.
Proof.
  intros He G. unfold input_rst.
  assert (Hd : forall errno, exists v, (let* r := tcp_drop e (i_w s) (i_c s) errno in Ok (Drop r.1 r.2)) = Ok v /\ passes st s v).
  { intros errno. destruct (verdict_drop e st s errno Drop He G) as (v & -> & Hv & Hg); [done|].
    exists v. split; [done|]. split; [done|]. by intros s' (w & k & E)%Hg. }
  destruct (has _ _); [|eexists; split; [done|by apply passes_go]].
  destruct (_ =? _); [apply Hd|]. destruct (_ || _); [apply Hd|].
  destruct (_ || _); [|eexists; split; [done|by apply passes_go]].
  destruct (verdict_close st s Drop G) as (v & -> & Hv & Hg); [done|].
  exists v. split; [done|]. split; [done|]. by intros s' (w & k & E)%Hg.
Qed.

Lemma input_syn_noack_ok e st s : env_ok e -> going st s -> exists v, input_syn_noack e s = Ok v /\ passes st s v.
Proof.
  intros He G. unfold input_syn_noack.
  destruct (has _ _).
  - destruct (verdict_drop e st s ECONNRESET (fun w k => DropWithReset w k (i_ti s) (i_flags s)) He G) as (v & -> & Hv & Hg); [done|].
    exists v. split; [done|]. split; [done|]. by intros s' (w & k & E)%Hg.
  - destruct (negb _); eexists; (split; [done|]); [by apply passes_drop|by apply passes_go].
Qed.

(** ** SYN_RECEIVED *)

(** [snd_una] moved up to an acknowledgement, the retransmit timer off. *)
Lemma inv_advance w c ack : tcp_inv w c -> 0 <= ack < 2 ^ 32 -> 0 <= s32 (ack - snd_una (c_tp c)) ->
  SEQ_GT ack (snd_max (c_tp c)) = false -> t_state (c_tp c) <> TCPS_SYN_SENT ->
  tcp_inv w (on_tp (fun tp => (snd_una_advance tp ack) <| t_rexmt := 0 |>) c).
Proof.
  intros I Ha Hd Hm Hst. pose proof (snd_ok_advance _ _ ack (inv_snd _ _ I) Ha Hd Hm) as Hok.
  destruct (snd_una_advance_eq (c_tp c) ack) as [nx E]. rewrite E in Hok.
  unfold on_tp. rewrite E. keep_inv I; [by intros ?|..].
  - pose proof (inv_timers _ _ I) as T. exact (timers_norexmt _ T).
  - intros Hs. by destruct (inv_idle _ _ I Hs) as (_ & ? & ?).
Qed.

(** The acknowledgement finds our SYN sent. *)
Definition syn_sent_out (tp : tcpcb) : Prop := t_state tp = TCPS_SYN_RECEIVED -> snd_max tp <> snd_una tp.

Lemma ack_syn_received_ok e st s : env_ok e -> going st s -> syn_sent_out (i_tp s) ->
  exists v, ack_syn_received e s = Ok v /\ verdict_ok st v /\
    forall s', v = Go s' -> i_ti s' = i_ti s /\ i_flags s' = i_flags s /\
      t_state (i_tp s') = if t_state (i_tp s) =? TCPS_SYN_RECEIVED then TCPS_ESTABLISHED else t_state (i_tp s).
Proof.
  intros He G Hsyn. unfold ack_syn_received. destruct (Z.eqb_spec (t_state (i_tp s)) TCPS_SYN_RECEIVED) as [Est|Hst].
  2: { eexists. split; [done|]. split; [done|]. by intros s' [= <-]. }
  destruct (_ || _) eqn:Eb; [eexists; split; [done|]; split; [by apply going_reset|done]|].
  pose proof G as [I Hs Hr M W]. pose proof (inv_snd _ _ I) as Hok.
  pose proof Hok as (Hu & _ & _ & _ & _ & _ & _ & n & m & Hp). pose proof (seq_pos_small _ _ _ _ Hok Hp) as Hsm.
  set (una1 := seq_add (snd_una (i_tp s)) 1).
  assert (Hm1 : 1 <= m).
  { destruct Hp as (Hnm & _ & Em & _). specialize (Hsyn Est). assert (m <> 0); [|lia]. intros ->. apply Hsyn.
    unfold i_tp. by rewrite Em, Z.add_0_r, u32_small. }
  assert (E1 : s32 (una1 - snd_una (i_tp s)) = 1) by (apply seq_dist_l; [done|lia]).
  assert (E2 : SEQ_GT una1 (snd_max (i_tp s)) = false).
  { destruct Hp as (_ & _ & Em & _). unfold SEQ_GT, una1, seq_add, i_tp. rewrite Em, seq_dist by lia. lia. }
  pose proof (inv_advance _ _ una1 I (u32_range _) ltac:(unfold i_tp in E1; lia) E2) as I1.
  set (f := fun tp => (snd_una_advance tp (seq_add (snd_una tp) 1)) <| t_rexmt := 0 |>).
  destruct (snd_una_advance_eq (i_tp s) una1) as [nx Etp].
  assert (Ef : f (i_tp s) = (i_tp s) <| snd_una := una1 |> <| snd_nxt := nx |> <| t_rexmt := 0 |>) by (unfold f; by rewrite <- Etp).
  assert (G1 : going st (upd_tp s f)).
  { apply going_tp; [done|..]; try (rewrite Ef; done).
    apply I1. unfold i_tp in Est. by rewrite Est. }
  destruct (input_established_ok e st (upd_tp s f) He G1) as (s1 & -> & G2 & E3 & E4 & E5).
  { right. change (t_state (f (i_tp s)) = TCPS_SYN_RECEIVED). by rewrite Ef. }
  cbn [obind]. eexists. split; [done|]. split.
  - apply going_tp; try done; [|apply G2]. pose proof (go_inv _ _ G2) as I2. keep_inv I2.
  - intros s' [= <-]. split; [exact E4|]. split; [exact E5|exact E3].
Qed.

(** ** New data acknowledged *)

(** The control block before the data is dropped: the round trip, the
    retransmit timer and the congestion window. *)
Lemma ack_fields tp ack a : timers_ok tp ->
  exists srtt rtt rexmt shift cwnd,
    ack_cwnd (ack_rexmt (ack_rtt tp ack) ack) a =
      tp <| t_srtt := srtt |> <| t_rtt := rtt |> <| t_rexmt := rexmt |> <| t_rxtshift := shift |> <| snd_cwnd := cwnd |> /\
    timers_ok (tp <| t_rexmt := rexmt |> <| t_rxtshift := shift |>) /\ (cwnd = snd_cwnd tp \/ 0 <= cwnd < 2 ^ 16) /\
    (ack = snd_max tp -> rexmt = 0) /\ (ack <> snd_max tp -> t_persist tp = 0 -> TCPTV_MIN <= rexmt <= TCPTV_MAX).
Proof.
  intros T.
  assert (E1 : exists srtt rtt, ack_rtt tp ack = tp <| t_srtt := srtt |> <| t_rtt := rtt |>).
  { unfold ack_rtt. destruct (_ && _); [by eexists _, _|]. exists (t_srtt tp), (t_rtt tp). by destruct tp. }
  destruct E1 as (srtt & rtt & ->). set (tp1 := tp <| t_srtt := srtt |> <| t_rtt := rtt |>).
  assert (E2 : exists rexmt shift, ack_rexmt tp1 ack = tp1 <| t_rexmt := rexmt |> <| t_rxtshift := shift |> /\
    timers_ok (tp <| t_rexmt := rexmt |> <| t_rxtshift := shift |>) /\
    (ack = snd_max tp -> rexmt = 0) /\ (ack <> snd_max tp -> t_persist tp = 0 -> TCPTV_MIN <= rexmt <= TCPTV_MAX)).
  { unfold ack_rexmt. change (snd_max tp1) with (snd_max tp). change (t_persist tp1) with (t_persist tp).
    destruct (Z.eqb_spec ack (snd_max tp)).
    - exists 0, (t_rxtshift tp). split; [done|]. split; [timers|done].
    - destruct (Z.eqb_spec (t_persist tp) 0) as [E|E].
      + eexists _, 0. split; [done|].
        pose proof (TCPT_RANGESET_range (fl_to_int (fl_mul tcp_beta (t_srtt tp1))) TCPTV_MIN TCPTV_MAX ltac:(done)).
        split; [timers|done].
      + exists (t_rexmt tp), (t_rxtshift tp). split; [by destruct tp|]. by destruct tp. }
  destruct E2 as (rexmt & shift & -> & T2 & H1 & H2). unfold ack_cwnd.
  exists srtt, rtt, rexmt, shift. destruct (0 <? a).
  - eexists. split; [done|]. split; [done|]. split; [right; apply Z.mod_pos_bound; done|done].
  - exists (snd_cwnd tp). split; [by destruct tp|]. split; [done|]. split; [by left|done].
Qed.

(** What is left of the send buffer. *)
Lemma ack_drop_ok s a : snd_ok (i_tp s) (i_so s) -> 0 <= a ->
  let n := Z.min a (sb_cc (so_snd (i_so s))) in
  exists snd so, ack_drop s a =
      Ok (upd_so (upd_tp s (fun tp => tp <| snd_wnd := u16 (snd_wnd tp - n) |>)) (fun _ => so), sb_cc (so_snd (i_so s)) <? a) /\
    so_same ((i_so s) <| so_snd := snd |>) so /\ (unlocked (so_snd (i_so s)) -> unlocked snd) /\
    sb_ok snd /\ sb_stream snd /\
    sb_cc snd = sb_cc (so_snd (i_so s)) - n /\ sb_bytes snd = drop (Z.to_nat n) (sb_bytes (so_snd (i_so s))).
Proof.
  intros (_ & _ & _ & _ & _ & Hok & Hst & _) Ha. cbv zeta. unfold ack_drop. set (cc := sb_cc (so_snd (i_so s))).
  pose proof (sb_ok_nonneg _ Hok) as [Hcc _]. fold cc in Hcc.
  replace (if cc <? a then cc else a) with (Z.min a cc) by (destruct (Z.ltb_spec cc a); lia).
  set (n := Z.min a cc). pose proof (sbdrop_spec (so_snd (i_so s)) n Hok ltac:(lia)) as H.
  fold cc in H. rewrite (proj2 (Z.leb_le n cc)) in H by lia. destruct H as (snd & E & O & (_ & _ & Sf & _) & D & C & _).
  pose proof (sbdrop_stream _ n _ Hok ltac:(lia) Hst E) as St. rewrite E. cbn [obind]. eexists snd, _. split; [done|].
  split; [destruct (_ || _); [apply sowwakeup_same|done]|]. split; [unfold unlocked; by rewrite Sf|]. done.
Qed.

(** An acknowledgement of data: where it leaves the connection before the
    switch on the state.  [a] numbers are acknowledged. *)
Definition acked (s s' : istate) (a : Z) : Prop :=
  let ack := ti_ack (i_ti s) in
  let cc := sb_cc (so_snd (i_so s)) in
  snd_una (i_tp s') = ack /\ sb_bytes (so_snd (i_so s')) = drop (Z.to_nat a) (sb_bytes (so_snd (i_so s))) /\
  sb_cc (so_snd (i_so s')) = Z.max 0 (cc - a) /\
  (i_out s' = (ack =? snd_max (i_tp s)) || i_out s) /\ (ack = snd_max (i_tp s) -> t_rexmt (i_tp s') = 0) /\
  (ack <> snd_max (i_tp s) -> t_persist (i_tp s) = 0 -> TCPTV_MIN <= t_rexmt (i_tp s') <= TCPTV_MAX) /\
  t_state (i_tp s') = t_state (i_tp s) /\ i_ti s' = i_ti s /\ i_flags s' = i_flags s /\
  snd_max (i_tp s') = snd_max (i_tp s).

(** The block and the send buffer changed, in a state past SYN_RECEIVED. *)
Lemma going_send st s tp so snd out : going st s -> snd_ok tp so -> timers_ok tp ->
  t_maxseg tp = t_maxseg (i_tp s) -> t_template tp = t_template (i_tp s) -> t_state tp = t_state (i_tp s) ->
  seg_q tp = seg_q (i_tp s) -> rcv_wnd tp = rcv_wnd (i_tp s) -> TCPS_ESTABLISHED <= t_state (i_tp s) ->
  so_same ((i_so s) <| so_snd := snd |>) so -> (unlocked (so_snd (i_so s)) -> unlocked snd) ->
  going st (Istate (i_w s) (Conn tp (c_inp (i_c s)) so) (i_ti s) (i_flags s) out).
Proof.
  intros [I Hs Hr M W] Hok T E1 E2 E3 E4 E5 Hst Hsame Hun. pose proof (inv_locks _ _ I) as [L1 L2].
  split; [constructor|done|..]; unfold i_tp, i_so in *; isimp; try done.
  - rewrite E1. apply I.
  - intros _. rewrite E2. apply I. unfold TCPS_ESTABLISHED, TCPS_LISTEN in *. lia.
  - rewrite E3. intros E. unfold TCPS_ESTABLISHED, TCPS_SYN_SENT in *. lia.
  - rewrite E4. apply (rcv_ok_same _ ((c_so (i_c s)) <| so_snd := snd |>)); [done|]. exact (inv_rcv _ _ I).
  - destruct Hsame as ((_ & _ & _ & Hr') & (_ & _ & _ & Hs') & _). split; auto.
  - rewrite E3. apply (queue_ok_same _ _ ((c_so (i_c s)) <| so_snd := snd |>)); [done|]. exact (inv_queue _ _ I).
  - exact (inv_route _ _ I).
  - exact (inv_iss _ _ I).
  - rewrite E3. unfold TCPS_ESTABLISHED, TCPS_LISTEN in *. lia.
  - unfold seg_room in *. tsimp. rewrite E4. apply (rcv_room_same ((c_so (i_c s)) <| so_snd := snd |>)); [done|exact Hr].
  - rewrite E3. exact M.
  - rewrite E5. exact W.
Qed.

Lemma ack_new_mid st s ack a : going st s -> ack = ti_ack (i_ti s) -> a = s32 (ack - snd_una (i_tp s)) -> 0 < a ->
  SEQ_GT ack (snd_max (i_tp s)) = false -> TCPS_ESTABLISHED <= t_state (i_tp s) ->
  let s1 := upd_tp s (fun tp => ack_cwnd (ack_rexmt (ack_rtt tp ack) ack) a) in
  let s1 := if ack =? snd_max (i_tp s1) then s1 <| i_out := true |> else s1 in
  exists s2, ack_drop s1 a = Ok (s2, sb_cc (so_snd (i_so s)) <? a) /\
    let s3 := upd_tp s2 (fun tp => snd_una_advance tp ack) in going st s3 /\ acked s s3 a.
Proof.
  intros G Eack Ea Hpos Hmax Hst. pose proof G as [I Hs Hr M W]. pose proof (inv_snd _ _ I) as Hok.
  assert (Hack : 0 <= ack < 2 ^ 32) by (rewrite Eack; apply Hs).
  destruct (ack_pos (i_tp s) (i_so s) ack Hok Hack ltac:(lia) Hmax) as (n & m & Hp & Eadv & Ham). rewrite <- Ea in Eadv, Ham.
  pose proof (seq_pos_small _ _ _ _ Hok Hp) as Hsm.
  destruct (ack_fields (i_tp s) ack a (inv_timers _ _ I)) as (srtt & rtt & rexmt & shift & cwnd & Ef & T & Hcw & Hr1 & Hr2).
  cbv zeta. set (f := fun tp => ack_cwnd (ack_rexmt (ack_rtt tp ack) ack) a). set (tp1 := f (i_tp s)).
  assert (E1 : tp1 = (i_tp s) <| t_srtt := srtt |> <| t_rtt := rtt |> <| t_rexmt := rexmt |> <| t_rxtshift := shift |>
     <| snd_cwnd := cwnd |>) by exact Ef.
  set (s1 := if ack =? _ then _ else _).
  assert (Es1 : s1 = Istate (i_w s) ((i_c s) <| c_tp := tp1 |>) (i_ti s) (i_flags s) ((ack =? snd_max (i_tp s)) || i_out s)).
  { unfold s1. change (snd_max (i_tp (upd_tp s f))) with (snd_max tp1).
    replace (snd_max tp1) with (snd_max (i_tp s)) by (by rewrite E1). destruct (ack =? snd_max (i_tp s)); reflexivity. }
  clearbody tp1. rewrite Es1. clear s1 Es1 f Ef.
  pose proof Hok as (A1 & A2 & A3 & A4 & A5 & A6 & A7 & _).
  assert (Hok1 : snd_ok tp1 (i_so s)).
  { rewrite E1. unfold snd_ok. tsimp. do 2 (split; [done|]). split; [destruct Hcw as [->|]; done|].
    do 4 (split; [done|]). exists n, m. exact Hp. }
  set (s1 := Istate _ _ _ _ _).
  destruct (ack_drop_ok s1 a Hok1 ltac:(lia)) as (snd & so & -> & Hsame & Hun & O & St & Ccc & D).
  change (i_so s1) with (i_so s) in *. set (cc := sb_cc (so_snd (i_so s))) in *.
  eexists. split; [done|]. set (tp2 := tp1 <| snd_wnd := u16 (snd_wnd tp1 - Z.min a cc) |>).
  assert (Hp2 : seq_pos (snd_una_advance tp2 ack) (sb_cc snd) (Z.max 0 (n - a)) (m - a)).
  { assert (Eu : snd_una (i_tp s) = snd_una tp2) by (unfold tp2; by rewrite E1).
    rewrite Eadv at 1. rewrite Eu. apply (seq_pos_advance tp2 cc); [unfold tp2; rewrite E1; exact Hp|lia|lia|].
    unfold tp2. rewrite E1, Ccc. destruct Hp as (_ & _ & _ & Hb). tsimp. fold cc in Hb.
    destruct (has (t_flags (i_tp s)) TF_SENTFIN); lia. }
  destruct (snd_una_advance_eq tp2 ack) as [nx E3]. rewrite E3 in Hp2.
  match goal with |- going st ?s3 /\ _ =>
    assert (Es3 : s3 = Istate (i_w s) (Conn (tp2 <| snd_una := ack |> <| snd_nxt := nx |>) (c_inp (i_c s)) so) (i_ti s)
      (i_flags s) ((ack =? snd_max (i_tp s)) || i_out s)) by (unfold upd_tp at 1, on_tp; rewrite <- E3; reflexivity) end.
  rewrite Es3. clear Es3.
  assert (Etp : tp2 <| snd_una := ack |> <| snd_nxt := nx |> = (i_tp s) <| t_srtt := srtt |> <| t_rtt := rtt |>
     <| t_rexmt := rexmt |> <| t_rxtshift := shift |> <| snd_cwnd := cwnd |>
     <| snd_wnd := u16 (snd_wnd (i_tp s) - Z.min a cc) |> <| snd_una := ack |> <| snd_nxt := nx |>)
    by (unfold tp2; by rewrite E1).
  rewrite Etp in *. clear E3 Etp tp2 E1 Hok1 s1 tp1.
  set (tp' := (i_tp s) <| t_srtt := srtt |> <| t_rtt := rtt |> <| t_rexmt := rexmt |> <| t_rxtshift := shift |>
    <| snd_cwnd := cwnd |> <| snd_wnd := _ |> <| snd_una := ack |> <| snd_nxt := nx |>) in *.
  pose proof Hsame as (_ & (Sc & _ & Sm & _) & _). tsimp_in Sc. tsimp_in Sm.
  assert (Hok' : snd_ok tp' so).
  { apply (snd_ok_buf tp' ((i_so s) <| so_snd := snd |>)); [apply Hsame|]. split; [exact Hack|].
    split; [apply Z.mod_pos_bound; done|]. split; [destruct Hcw as [->|]; done|]. do 4 (split; [done|]). by eexists _, _. }
  split; [by apply (going_send st s tp' so snd)|].
  unfold acked, i_tp, i_so. isimp. rewrite <- Eack, Sc, Ccc.
  split; [done|]. split; [|split; [fold (i_so s); fold cc; lia|done]]. unfold sb_bytes in *. rewrite Sm, D.
  destruct (Z.le_gt_cases a cc) as [Hle|Hgt]; [by rewrite Z.min_l|]. rewrite Z.min_r by lia.
  destruct A6 as [(Ec & _) _]. unfold zlen in Ec. unfold i_so.
  assert (El : Z.of_nat (length (rec_data (sb_mb (so_snd (c_so (i_c s)))))) = cc) by exact (eq_sym Ec).
  rewrite !drop_ge by lia. done.
Qed.

(** ** The switch on the state *)

(** A later state and other timers. *)
Lemma inv_later w c state rexmt persist keep msl : tcp_inv w c ->
  TCPS_SYN_RECEIVED <= t_state (c_tp c) <= state -> state <= TCPS_TIME_WAIT ->
  let tp := (c_tp c) <| t_state := state |> <| t_rexmt := rexmt |> <| t_persist := persist |> <| t_keep := keep |>
              <| t_2msl := msl |> in
  timers_ok tp -> tcp_inv w (c <| c_tp := tp |>).
Proof.
  intros I Hst Hle tp T. pose proof (inv_snd _ _ I) as (A1 & A2 & A3 & A4 & A5 & A6).
  unfold TCPS_SYN_RECEIVED in Hst. keep_inv I; try done.
  - do 4 (split; [done|]). split; [|exact A6]. unfold tp, TCPS_CLOSED. tsimp. lia.
  - intros _. apply (inv_template _ _ I). unfold TCPS_LISTEN. lia.
  - unfold tp, TCPS_SYN_SENT. tsimp. lia.
  - apply (queue_ok_later _ (t_state (c_tp c))); [apply I|apply Hst].
  - unfold tp, TCPS_LISTEN. tsimp. lia.
Qed.

Lemma going_later st s state rexmt persist keep msl : going st s ->
  TCPS_SYN_RECEIVED <= t_state (i_tp s) <= state -> state <= TCPS_TIME_WAIT -> moves (t_state (i_tp s)) state ->
  let f tp := tp <| t_state := state |> <| t_rexmt := rexmt tp |> <| t_persist := persist tp |>
               <| t_keep := keep tp |> <| t_2msl := msl tp |> in
  timers_ok (f (i_tp s)) -> going st (upd_tp s f).
Proof.
  intros G Hst Hle Hm f T. apply going_tp; try done.
  - exact (inv_later _ _ _ _ _ _ _ (go_inv _ _ G) Hst Hle T).
  - etrans; [apply G|exact Hm].
Qed.

Lemma going_state st s state : going st s -> TCPS_SYN_RECEIVED <= t_state (i_tp s) <= state -> state <= TCPS_TIME_WAIT ->
  moves (t_state (i_tp s)) state -> going st (upd_tp s (fun tp => tp <| t_state := state |>)).
Proof.
  intros G Hst Hle Hm. pose proof (inv_timers _ _ (go_inv _ _ G)) as T.
  pose proof (going_later st s state t_rexmt t_persist t_keep t_2msl G Hst Hle Hm) as H.
  assert (E : upd_tp s (fun tp => tp <| t_state := state |>) = upd_tp s (fun tp => tp <| t_state := state |>
    <| t_rexmt := t_rexmt tp |> <| t_persist := t_persist tp |> <| t_keep := t_keep tp |> <| t_2msl := t_2msl tp |>)).
  { unfold upd_tp, on_tp. by destruct (c_tp (i_c s)). }
  rewrite E. apply H. exact T.
Qed.

Lemma timers_cancelled tp msl : 0 <= msl <= TCPTV_MAXIDLE -> timers_ok tp ->
  timers_ok ((tcp_canceltimers tp) <| t_2msl := msl |>).
Proof. intros. unfold tcp_canceltimers. timers. Qed.

(** The TIME_WAIT state, from one where our FIN and the peer's have met. *)
Lemma going_time_wait st s : going st s -> t_state (i_tp s) = TCPS_CLOSING \/ t_state (i_tp s) = TCPS_FIN_WAIT_2 ->
  going st (upd_so (upd_tp s (fun tp =>
    (tcp_canceltimers (tp <| t_state := TCPS_TIME_WAIT |>)) <| t_2msl := 2 * TCPTV_MSL |>)) soisdisconnected).
Proof.
  intros G Hst. apply going_so; [|apply soisdisconnected_same].
  apply (going_later st s TCPS_TIME_WAIT (fun _ => 0) (fun _ => 0) (fun _ => 0) (fun _ => 2 * TCPTV_MSL)).
  - done.
  - destruct Hst as [->| ->]; done.
  - done.
  - destruct Hst as [->| ->]; by apply moves_arrow.
  - apply (timers_cancelled ((i_tp s) <| t_state := TCPS_TIME_WAIT |>)); [done|]. exact (inv_timers _ _ (go_inv _ _ G)).
Qed.

Lemma going_2msl st s v : going st s -> 0 <= v <= TCPTV_MAXIDLE -> going st (upd_tp s (fun tp => tp <| t_2msl := v |>)).
Proof.
  intros G Hv. apply going_tp; try done; [|apply G]. pose proof (go_inv _ _ G) as I. keep_inv I.
  unfold on_tp. timers.
Qed.

(** The arrows that an acknowledgement may take. *)
Lemma ack_state_ok st s fin : going st s -> TCPS_ESTABLISHED <= t_state (i_tp s) ->
  exists v, ack_state s fin = Ok v /\ verdict_ok st v /\
    forall s', v = Go s' -> TCPS_ESTABLISHED <= t_state (i_tp s') /\ i_ti s' = i_ti s /\ i_flags s' = i_flags s.
Proof.
  intros G Hst. unfold ack_state.
  assert (Hgo : exists v, Ok (Go s) = Ok v /\ verdict_ok st v /\ forall s', v = Go s' ->
    TCPS_ESTABLISHED <= t_state (i_tp s') /\ i_ti s' = i_ti s /\ i_flags s' = i_flags s).
  { eexists. split; [done|]. split; [done|]. by intros s' [= <-]. }
  destruct (Z.eqb_spec (t_state (i_tp s)) TCPS_FIN_WAIT_1) as [E|_].
  { destruct fin; [|done]. eexists. split; [done|]. set (s1 := if has _ _ then _ else _).
    assert (H1 : going st s1 /\ t_state (i_tp s1) = TCPS_FIN_WAIT_1 /\ i_ti s1 = i_ti s /\ i_flags s1 = i_flags s).
    { unfold s1. destruct (has _ _); [|done]. split; [|done]. apply going_2msl; [|done].
      apply (going_so st s (soisdisconnected (i_so s))); [done|]. apply soisdisconnected_same. }
    clearbody s1. destruct H1 as (G1 & E1 & E2 & E3). split.
    - apply going_state; [done|by rewrite E1|done|rewrite E1; by apply moves_arrow].
    - intros s' [= <-]. done. }
  destruct (Z.eqb_spec (t_state (i_tp s)) TCPS_CLOSING) as [E|_].
  { destruct fin; [|done]. eexists. split; [done|]. split; [apply going_time_wait; auto|]. by intros s' [= <-]. }
  destruct (_ =? _).
  { destruct fin; [|eexists; split; [done|]; split; [by apply going_drop|done]].
    destruct (verdict_close st s Drop G) as (v & -> & Hv & Hg); [done|]. exists v. split; [done|]. split; [done|].
    by intros s' (w & k & E)%Hg. }
  destruct (_ =? _); [|done].
  eexists. split; [done|]. split; [|done].
  destruct (going_2msl st s (2 * TCPTV_MSL) G ltac:(done)). by split.
Qed.

Lemma input_ack_new_ok st s : going st s -> TCPS_SYN_RECEIVED <= t_state (i_tp s) ->
  exists v, input_ack_new s = Ok v /\ verdict_ok st v /\
    forall s', v = Go s' -> TCPS_SYN_RECEIVED <= t_state (i_tp s') /\ i_ti s' = i_ti s /\ i_flags s' = i_flags s.
Proof.
  intros G Hc. unfold input_ack_new, ack_states.
  assert (Hgo : exists v, Ok (Go s) = Ok v /\ verdict_ok st v /\ forall s', v = Go s' ->
    TCPS_SYN_RECEIVED <= t_state (i_tp s') /\ i_ti s' = i_ti s /\ i_flags s' = i_flags s).
  { eexists. split; [done|]. split; [done|]. by intros s' [= <-]. }
  destruct (Z.leb_spec TCPS_ESTABLISHED (t_state (i_tp s))) as [Hst|]; cbn [negb]; [|done].
  destruct (SEQ_LEQ _ _) eqn:E1; [done|].
  destruct (SEQ_GT _ _) eqn:E2; [eexists; split; [done|]; split; [|done]; split; [apply G|apply G]|].
  unfold SEQ_LEQ in E1. apply Z.leb_gt in E1. cbv zeta.
  destruct (ack_new_mid st s _ _ G eq_refl eq_refl E1 E2 Hst) as (s2 & E & G3 & H3). cbv zeta in E, G3, H3.
  fold (seq_int (ti_ack (i_ti s)) (snd_una (i_tp s))) in E. rewrite E. cbn [obind].
  destruct H3 as (_ & _ & _ & _ & _ & _ & E3 & E4 & E5 & _).
  destruct (ack_state_ok st _ (sb_cc (so_snd (i_so s)) <? seq_int (ti_ack (i_ti s)) (snd_una (i_tp s))) G3) as (v & -> & Hv & Hs'); [by rewrite E3|].
  exists v. split; [done|]. split; [done|]. intros s' (H1 & H2 & H4)%Hs'.
  split; [unfold TCPS_ESTABLISHED, TCPS_SYN_RECEIVED in *; lia|]. split; by etrans.
Qed.

Lemma input_ack_ok e st s : env_ok e -> going st s -> syn_sent_out (i_tp s) -> TCPS_SYN_RECEIVED <= t_state (i_tp s) ->
  exists v, input_ack e s = Ok v /\ verdict_ok st v /\
    forall s', v = Go s' -> TCPS_SYN_RECEIVED <= t_state (i_tp s').
Proof.
  intros He G Hsyn Hc. unfold input_ack. destruct (ack_syn_received_ok e st s He G Hsyn) as (v & -> & Hv & Hg).
  unfold vbind. cbn [obind]. destruct v as [s1| |s1|]; try (eexists; split; [done|]; split; [done|]; done).
  destruct (Hg s1 eq_refl) as (E1 & E2 & E3). destruct (input_ack_new_ok st s1 Hv) as (v & -> & Hv' & Hg').
  { rewrite E3. by destruct (_ =? _). }
  exists v. split; [done|]. split; [done|]. intros s' (? & _)%Hg'. done.
Qed.

Lemma input_general_ok e st s : env_ok e -> going st s -> syn_sent_out (i_tp s) -> TCPS_SYN_RECEIVED <= t_state (i_tp s) ->
  exists v, input_general e s = Ok v /\ verdict_ok st v /\
    forall s', v = Go s' -> TCPS_SYN_RECEIVED <= t_state (i_tp s').
Proof.
  intros He G Hsyn Hc. unfold input_general.
  destruct (input_nofdref_ok st s G) as (v & -> & Hv & Hg). unfold vbind at 1. cbn [obind].
  destruct v as [s1| |s1|]; try (eexists; split; [done|]; split; done). pose proof (Hg s1 eq_refl) as ->.
  destruct (input_window_ok st s G) as (v & -> & Hv' & Hc'). unfold vbind at 1. cbn [obind].
  destruct v as [s2| |s2|]; try (eexists; split; [done|]; split; done). destruct Hc' as [Ec _].
  assert (Etp : i_tp s2 = i_tp s) by (unfold i_tp; by rewrite Ec).
  destruct (input_rst_ok e st s2 He Hv') as (v & -> & Hv'' & Hg''). unfold vbind at 1. cbn [obind].
  destruct v as [s3| |s3|]; try (eexists; split; [done|]; split; done). pose proof (Hg'' s3 eq_refl) as ->.
  destruct (input_syn_noack_ok e st s2 He Hv') as (v & -> & Hv3 & Hg3). unfold vbind at 1. cbn [obind].
  destruct v as [s4| |s4|]; try (eexists; split; [done|]; split; done). pose proof (Hg3 s4 eq_refl) as ->.
  apply input_ack_ok; [done|done|by rewrite Etp|by rewrite Etp].
Qed.

(** ** Properties *)

(** The connection of the sample of output after its two segments went out, and
    a segment that acknowledges the first two bytes of three. *)
Definition sample_ack (state flags max ack : Z) (snd : sockbuf) : istate :=
  Istate sample_world
    (Conn (sample_out_tp <| t_state := state |> <| t_flags := flags |> <| snd_nxt := max |> <| snd_max := max |> <| t_rexmt := 6 |>)
       (Inpcb 2 4 1 3 (Route None 0) None) (sample_out_so <| so_snd := snd |>))
    (Tcpiphdr 4 2 3 1 0 ack TH_ACK 0 10 0 []) TH_ACK false.

Lemma sample_ack_going state flags max ack snd : TCPS_ESTABLISHED <= state <= TCPS_TIME_WAIT -> 100 <= max < 2 ^ 32 ->
  0 <= ack < 2 ^ 32 -> sb_ok snd -> sb_stream snd -> unlocked snd -> max - 100 <= sb_cc snd + 1 + (if has flags TF_SENTFIN then 1 else 0) ->
  going state (sample_ack state flags max ack snd).
Proof.
  intros Hst Hmax Hack Hok Hs Hu Hcc. unfold TCPS_ESTABLISHED, TCPS_TIME_WAIT in Hst. split.
  - pose proof sample_inv as I. keep_inv I; try done.
    + split; [done|]. do 3 (split; [done|]). split; [change (0 <= state <= 10); lia|]. split; [exact Hok|]. split; [exact Hs|].
      exists (max - 100), (max - 100). unfold seq_pos. change (snd_una (c_tp (i_c (sample_ack state flags max ack snd)))) with 100.
      change (snd_nxt (c_tp (i_c (sample_ack state flags max ack snd)))) with max.
      change (snd_max (c_tp (i_c (sample_ack state flags max ack snd)))) with max.
      replace (100 + (max - 100)) with max by lia. rewrite u32_small by lia. split; [lia|]. split; [done|]. split; [done|].
      exact Hcc.
    + intros Hl. change (state = 2) in Hl. lia.
    + apply (timers_rexmt sample_out_tp 6). exact (inv_timers _ _ sample_inv).
    + intros Hl. change (state <= 1) in Hl. lia.
  - by split.
  - done.
  - done.
  - done.
Qed.

(** C27: in ESTABLISHED and CLOSE_WAIT an acknowledgement of [a] new numbers
    ([snd_una < ack <= snd_max]) moves [snd_una] to it, takes exactly the first
    [a] bytes out of the send buffer, stops the retransmit timer and asks for
    output if nothing is outstanding, and keeps it running otherwise; the
    connection stays in order.  An old one changes nothing, and one beyond
    [snd_max] is answered and changes nothing. *)
Theorem input_ack_correct st s : going st s ->
  t_state (i_tp s) = TCPS_ESTABLISHED \/ t_state (i_tp s) = TCPS_CLOSE_WAIT ->
  let ack := ti_ack (i_ti s) in
  let a := seq_int ack (snd_una (i_tp s)) in
  if a <=? 0 then input_ack_new s = Ok (Go s)
  else if SEQ_GT ack (snd_max (i_tp s)) then input_ack_new s = Ok (DropAfterAck s)
  else exists s', input_ack_new s = Ok (Go s') /\ going st s' /\ acked s s' a.
Proof.
  intros G Hst ack a. unfold input_ack_new.
  assert (Hse : TCPS_ESTABLISHED <= t_state (i_tp s)) by (destruct Hst as [-> | ->]; done).
  assert (He : ack_states (t_state (i_tp s)) = true) by (by apply Z.leb_le). rewrite He. cbn [negb].
  fold ack. unfold SEQ_LEQ. fold (seq_int ack (snd_una (i_tp s))). fold a.
  destruct (Z.leb_spec a 0) as [|Hpos]; [done|]. destruct (SEQ_GT ack (snd_max (i_tp s))) eqn:E2; [done|]. cbv zeta.
  destruct (ack_new_mid st s ack a G eq_refl eq_refl Hpos E2 Hse) as (s2 & E & G3 & H3). cbv zeta in E, G3, H3.
  rewrite E. cbn [obind]. pose proof H3 as (_ & _ & _ & _ & _ & _ & E3 & _). unfold ack_state. rewrite E3.
  destruct Hst as [-> | ->]; by eexists.
Qed.

(** in FIN_WAIT_1 with an empty send buffer any new acknowledgement is taken
    for the acknowledgement of our FIN, even one short of [snd_max], with the FIN
    still outstanding: the state becomes FIN_WAIT_2.  The numbers may be those of our SYN, when the
    user closed before it was acknowledged. *)
Theorem fin_wait_1_any_ack st s : going st s -> t_state (i_tp s) = TCPS_FIN_WAIT_1 -> sb_cc (so_snd (i_so s)) = 0 ->
  SEQ_GT (ti_ack (i_ti s)) (snd_una (i_tp s)) = true ->
  SEQ_GT (ti_ack (i_ti s)) (snd_max (i_tp s)) = false ->
  exists s', input_ack_new s = Ok (Go s') /\ t_state (i_tp s') = TCPS_FIN_WAIT_2 /\
    snd_una (i_tp s') = ti_ack (i_ti s) /\ snd_max (i_tp s') = snd_max (i_tp s).
Proof.
  intros G Est Ecc E1 E2. unfold input_ack_new. rewrite Est. change (negb (ack_states TCPS_FIN_WAIT_1)) with false. cbv iota.
  unfold SEQ_GT in E1. assert (E1' : SEQ_LEQ (ti_ack (i_ti s)) (snd_una (i_tp s)) = false) by (unfold SEQ_LEQ; lia).
  rewrite E1', E2. cbv zeta.
  destruct (ack_new_mid st s _ _ G eq_refl eq_refl ltac:(lia) E2) as (s2 & E & G3 & H3); [by rewrite Est|]. cbv zeta in E, G3, H3.
  fold (seq_int (ti_ack (i_ti s)) (snd_una (i_tp s))) in E. rewrite E. cbn [obind]. rewrite Ecc.
  destruct H3 as (Eu & _ & _ & _ & _ & _ & E3 & _ & _ & Em). unfold ack_state. rewrite E3, Est.
  change (TCPS_FIN_WAIT_1 =? TCPS_FIN_WAIT_1) with true. cbv iota.
  assert (Ea : (0 <? seq_int (ti_ack (i_ti s)) (snd_una (i_tp s))) = true) by (unfold seq_int; lia).
  rewrite Ea. eexists. split; [done|]. split; [done|]. by destruct (has _ _).
Qed.

Definition sample_acks : istate := sample_ack TCPS_ESTABLISHED 0 103 102 sample_snd.

Lemma sample_acks_going : going TCPS_ESTABLISHED sample_acks.
Proof. apply sample_ack_going; try apply sample_snd_sb_ok; done. Qed.

Lemma input_ack_correct_witness : exists s',
  input_ack_new sample_acks = Ok (Go s') /\ sb_bytes (so_snd (i_so s')) = [9] /\ snd_una (i_tp s') = 102.
Proof.
  pose proof (input_ack_correct TCPS_ESTABLISHED sample_acks sample_acks_going (or_introl eq_refl)) as H.
  cbv zeta in H. change (seq_int (ti_ack (i_ti sample_acks)) (snd_una (i_tp sample_acks)) <=? 0) with false in H.
  change (SEQ_GT (ti_ack (i_ti sample_acks)) (snd_max (i_tp sample_acks))) with false in H. cbv iota in H.
  destruct H as (s' & E & _ & (Hu & Hb & _)). exists s'. split; [exact E|]. split; [exact Hb|exact Hu].
Defined.

(** SYN and FIN sent, the SYN acknowledged. *)
Definition sample_fin : istate := sample_ack TCPS_FIN_WAIT_1 TF_SENTFIN 102 101 (Sockbuf 0 4096 0 8192 [] 0 false).

Lemma sample_fin_going : going TCPS_FIN_WAIT_1 sample_fin.
Proof. apply sample_ack_going; try done. split; [simpl; lia|by constructor]. Qed.

Lemma fin_wait_1_any_ack_witness : exists s', input_ack_new sample_fin = Ok (Go s') /\
  t_state (i_tp s') = TCPS_FIN_WAIT_2 /\ snd_una (i_tp s') = 101 /\ snd_max (i_tp s') = 102.
Proof. exact (fin_wait_1_any_ack TCPS_FIN_WAIT_1 sample_fin sample_fin_going eq_refl eq_refl eq_refl eq_refl). Defined.
