(* ===== verification/TcpText.v ===== *)
(** * The end of [tcp_input]: urgent data, text, FIN, output

    Step 6 of [tcp_input] and its labels keep the invariant, and with the
    earlier stages the whole of [tcp_input] does: from a connection in order a
    segment leaves one in order, or none, and never reaches a panic. *)
From S2P Require Import Prelude TcpSeq Mbuf Socket In Inpcb TcpVar TcpReass TcpOutput TcpOutSeq TcpOutSend.
From S2P Require Import TcpInput TcpUser TcpInv TcpSafe TcpWindow TcpAck.

(** ** The byte of out-of-band data *)

Lemma pull_byte_spec c cnt : 0 <= cnt < chain_len c ->
  exists b c', pull_byte c cnt = Some (b, c') /\ chain_data c !! Z.to_nat cnt = Some b /\
    chain_data c' = take (Z.to_nat cnt) (chain_data c) ++ drop (S (Z.to_nat cnt)) (chain_data c) /\
    chain_cost c' = chain_cost c.
Proof.
  revert cnt. induction c as [|m c IH]; intros cnt Hc; [change (chain_len []) with 0 in Hc; lia|].
  rewrite chain_len_cons in Hc. cbn [pull_byte]. rewrite chain_data_cons.
  destruct (Z.ltb_spec cnt (m_len m)) as [Hlt|Hge]; unfold m_len, zlen in *.
  - destruct (lookup_lt_is_Some_2 (m_dat m) (Z.to_nat cnt)) as [b Hb]; [lia|]. rewrite Hb. eexists b, _. split; [done|].
    split; [by rewrite lookup_app_l by lia|]. split; [|done].
    rewrite chain_data_cons. cbn [m_dat]. rewrite take_app_le, drop_app_le by lia. by rewrite app_assoc.
  - destruct (IH (cnt - Z.of_nat (length (m_dat m)))) as (b & c' & -> & Hb & Hd & Hcost); [lia|].
    eexists b, _. split; [done|]. replace (Z.to_nat cnt) with (length (m_dat m) + Z.to_nat (cnt - Z.of_nat (length (m_dat m))))%nat by lia.
    set (k := Z.to_nat _) in *. split; [by rewrite lookup_app_r, Nat.add_comm, Nat.add_sub by lia|].
    split; [|exact (f_equal (Z.add (m_cost m)) Hcost)].
    rewrite chain_data_cons, Hd, take_app_add, <- Nat.add_succ_r, drop_app_add. by rewrite app_assoc.
Qed.

Lemma pull_byte_none c cnt : chain_len c <= cnt -> pull_byte c cnt = None.
Proof.
  revert cnt. induction c as [|m c IH]; intros cnt Hc; [done|]. rewrite chain_len_cons in Hc. cbn [pull_byte].
  pose proof (chain_len_nonneg c). destruct (Z.ltb_spec cnt (m_len m)); [lia|]. by rewrite IH by lia.
Qed.

Lemma has_bis_same f b : b <> 0 -> has (bis f b) b = true.
Proof.
  intros Hb. unfold has, bis, nz. rewrite Z.land_comm, Z.land_lor_distr_r, Z.land_diag.
  apply negb_true_iff, Z.eqb_neq. intros E. apply Z.lor_eq_0_iff in E as [_ E]. done.
Qed.

(** ** What the stages of step 6 keep *)

(** The text may lack the byte of out-of-band data that its length counts. *)
Record texting (st : Z) (s : istate) : Prop := Texting {
  te_inv : tcp_inv (i_w s) (i_c s);
  te_seg : seg_wf (i_ti s);
  te_room : seg_room (i_c s) (i_ti s);
  te_moves : moves st (t_state (i_tp s));
  te_wnd : 0 <= rcv_wnd (i_tp s) < 2 ^ 16;
  te_state : TCPS_SYN_RECEIVED <= t_state (i_tp s)
}.

Lemma going_texting st s : going st s -> TCPS_SYN_RECEIVED <= t_state (i_tp s) -> texting st s.
Proof.
  intros [I Hs Hr M W] Hst. split; try done. pose proof (si_len _ Hs). pose proof (si_text _ Hs). split; [done|]. lia.
Qed.

Lemma texting_tp st s f : texting st s -> tcp_inv (i_w s) (on_tp f (i_c s)) ->
  seg_q (f (i_tp s)) = seg_q (i_tp s) -> t_state (f (i_tp s)) = t_state (i_tp s) ->
  rcv_wnd (f (i_tp s)) = rcv_wnd (i_tp s) -> texting st (upd_tp s f).
Proof.
  intros [I Hs Hr M W Hst] I' Eq Em Ew.
  split; [done|done| |by rewrite <- Em in M|by rewrite <- Ew in W|by rewrite <- Em in Hst].
  by apply (seg_room_same (i_c s)).
Qed.

Lemma input_wnd_ok st s : going st s -> TCPS_SYN_RECEIVED <= t_state (i_tp s) ->
  going st (input_wnd s) /\ TCPS_SYN_RECEIVED <= t_state (i_tp (input_wnd s)).
Proof.
  intros G Hst. unfold input_wnd. destruct (_ && _); [|done]. pose proof (si_win _ (go_seg _ _ G)) as Hw.
  set (f := fun tp : tcpcb => _). set (s1 := upd_tp s f).
  assert (Ef : exists mw, f (i_tp s) = (i_tp s) <| snd_wnd := ti_win (i_ti s) |> <| snd_wl1 := ti_seq (i_ti s) |>
     <| snd_wl2 := ti_ack (i_ti s) |> <| max_sndwnd := mw |>).
  { unfold f. destruct (_ <? _); [by eexists|]. exists (max_sndwnd (i_tp s)). by destruct (i_tp s). }
  destruct Ef as [mw Ef].
  assert (G1 : going st s1 /\ TCPS_SYN_RECEIVED <= t_state (i_tp s1)).
  { split; [|change (TCPS_SYN_RECEIVED <= t_state (f (i_tp s))); by rewrite Ef].
    apply going_tp; [done|..]; try (rewrite Ef; done); [|rewrite Ef; apply G].
    pose proof (go_inv _ _ G) as I. unfold on_tp. fold (i_tp s). rewrite Ef.
    pose proof (inv_snd _ _ I) as (A1 & A2 & A3 & A4). keep_inv I. by split. }
  destruct G1 as [[I Hs Hr M W] H1]. by split.
Qed.

Lemma tcp_pulloutofband_ok st s : texting st s -> chain_len (ti_m (i_ti s)) = ti_len (i_ti s) ->
  0 < ti_urp (i_ti s) <= ti_len (i_ti s) ->
  exists s', tcp_pulloutofband s = Ok s' /\ texting st s'.
Proof.
  intros T El Hu. unfold tcp_pulloutofband.
  destruct (pull_byte_spec (ti_m (i_ti s)) (ti_urp (i_ti s) - 1)) as (b & m & -> & Hb & Hd & Hc); [lia|].
  eexists. split; [done|]. set (f := fun tp : tcpcb => _).
  assert (T1 : texting st (upd_tp s f)).
  { apply texting_tp; try done. pose proof (te_inv _ _ T) as I. keep_inv I. }
  assert (Em : chain_len m = ti_len (i_ti s) - 1).
  { unfold chain_len in *. rewrite Hd. unfold zlen in *. rewrite length_app, length_take, length_drop. lia. }
  destruct T1 as [I [Hs1 Hs2] Hr M W Hst]. split; try done; isimp.
  - split; isimp; [exact Hs1|]. lia.
  - destruct Hr as (R1 & R2 & R3). unfold seg_room, rcv_room in *. isimp.
    change (ti_m (i_ti (upd_tp s f))) with (ti_m (i_ti s)) in *. rewrite Em, Hc. split; [done|].
    change (i_c (upd_tp s f)) with (on_tp f (i_c s)) in *. lia.
Qed.

Lemma urg_advance_ok st s : going st s -> going st (urg_advance s) /\ i_ti (urg_advance s) = i_ti s /\
  t_state (i_tp (urg_advance s)) = t_state (i_tp s).
Proof.
  intros G. unfold urg_advance. destruct (SEQ_GT _ _); [|done]. split; [|done].
  set (s1 := upd_tp s _). assert (G1 : going st s1).
  { apply going_tp; try done; [|apply G]. pose proof (go_inv _ _ G) as I. keep_inv I. }
  match goal with |- going st (upd_tp (upd_so s1 ?g) ?f) => assert (G2 : going st (upd_so s1 g)) end.
  { apply (going_so st s1 (_ (i_so s1))); [done|]. etrans; [|apply sohasoutofband_same].
    destruct (_ =? 0); [|by repeat split]. etrans; [|apply so_state_same]. by repeat split. }
  apply going_tp; try done; [|apply G2]. pose proof (go_inv _ _ G2) as I. keep_inv I.
Qed.

Lemma input_urg_ok st s : going st s -> TCPS_SYN_RECEIVED <= t_state (i_tp s) ->
  exists s', input_urg s = Ok s' /\ texting st s'.
Proof.
  intros G Hst. pose proof (go_seg _ _ G) as Hs. unfold input_urg. destruct (_ && _) eqn:E.
  - apply andb_true_iff in E as [E _]. apply andb_true_iff in E as [_ E]. unfold nz in E.
    pose proof (si_urp _ Hs) as Hu. destruct (_ <? _).
    { eexists. split; [done|]. apply going_texting; [|done]. apply going_seg; try done. destruct Hs. split; isimp; (done || lia). }
    destruct (urg_advance_ok st s G) as (G1 & E1 & E2).
    assert (T1 : texting st (urg_advance s)) by (apply going_texting; [done|by rewrite E2]).
    destruct (_ && _) eqn:Ep; [|by eexists]. apply andb_true_iff in Ep as [Ep _].
    apply tcp_pulloutofband_ok; [done|rewrite E1; apply Hs|rewrite E1; lia].
  - eexists. split; [done|]. destruct (SEQ_GT _ _); [|by apply going_texting].
    apply texting_tp; try done; [by apply going_texting|]. pose proof (go_inv _ _ G) as I. keep_inv I.
Qed.

(** What is left after the text has gone to the queue. *)
Definition no_text : tcpiphdr := Tcpiphdr 0 0 0 0 0 0 0 0 0 0 [].
Definition after_text (st : Z) (s : istate) : Prop :=
  going st (s <| i_ti := no_text |>) /\ TCPS_SYN_RECEIVED <= t_state (i_tp s).

Lemma no_text_seg : seg_in no_text.
Proof. by split. Qed.

Lemma after_text_intro st s : tcp_inv (i_w s) (i_c s) -> moves st (t_state (i_tp s)) -> 0 <= rcv_wnd (i_tp s) < 2 ^ 16 ->
  TCPS_SYN_RECEIVED <= t_state (i_tp s) -> after_text st s.
Proof.
  intros I M W Hst. split; [|done]. split; [done|exact no_text_seg| |done|done].
  destruct (inv_rcv _ _ I) as [_ Hr]. unfold seg_room. isimp. change (chain_len (ti_m no_text)) with 0.
  change (chain_cost (ti_m no_text)) with 0. by rewrite !Z.add_0_r.
Qed.

Lemma note_rcvd_eq tp so : exists n, note_rcvd tp so = tp <| max_rcvd := n |>.
Proof. unfold note_rcvd. cbv zeta. destruct (_ <? _); [by eexists|]. exists (max_rcvd tp). by destruct tp. Qed.

Lemma ack_flags_sentfin f b : has (bis f (if b : bool then TF_ACKNOW else TF_DELACK)) TF_SENTFIN = has f TF_SENTFIN.
Proof. destruct b; by apply has_bis_other. Qed.

(** The block with other flags, but the same TF_SENTFIN. *)
Lemma inv_flags w c f : tcp_inv w c -> has f TF_SENTFIN = has (t_flags (c_tp c)) TF_SENTFIN ->
  (has f TF_DELACK = true -> TCPS_LISTEN < t_state (c_tp c)) ->
  tcp_inv w (on_tp (fun tp => tp <| t_flags := f |>) c).
Proof.
  intros I Hf Hd. pose proof (inv_snd _ _ I) as (A1 & A2 & A3 & A4 & A5 & A6 & A7 & n & m & B1 & B2 & B3 & B4).
  keep_inv I.
  - do 7 (split; [done|]). exists n, m. split; [done|]. do 2 (split; [done|]). unfold on_tp. tsimp. by rewrite Hf.
  - intros Hs. destruct (inv_idle _ _ I Hs) as (? & ? & _). split; [done|]. split; [done|]. unfold on_tp in *. tsimp_in Hs. tsimp.
    destruct (has f TF_DELACK); [specialize (Hd eq_refl); lia|done].
Qed.

Lemma input_data_ok e st s : texting st s -> exists s', input_data e s = Ok s' /\ after_text st s'.
Proof.
  intros [I Hs Hr M W Hst]. unfold input_data.
  destruct (_ && _); [|eexists; split; [done|]; by apply after_text_intro].
  destruct (TCP_REASS_wf (i_tp s) (i_so s) (i_ti s) (inv_rcv _ _ I) Hs Hr) as (q & nxt & so' & fl & -> & Hok & Hstep).
  cbn [obind]. eexists. split; [done|].
  set (tp1 := _ <| t_flags := _ |>). destruct (note_rcvd_eq tp1 so') as [n En].
  apply after_text_intro; unfold i_tp; isimp; rewrite ?En; [|exact M|exact W|exact Hst].
  set (c1 := Conn ((i_tp s) <| seg_q := q |> <| rcv_nxt := nxt |>) (c_inp (i_c s)) so').
  assert (I1 : tcp_inv (i_w s) c1).
  { destruct Hstep as (B1 & B2 & B3 & B4). keep_inv I.
    - apply (snd_ok_buf _ (i_so s)); [done|]. exact (inv_snd _ _ I).
    - destruct (inv_locks _ _ I). split; [by apply B1|by apply B4].
    - apply (queue_ok_step _ _ (i_so s)); [by split_and!|exact (inv_queue _ _ I)]. }
  assert (I2 : tcp_inv (i_w s) (on_tp (fun tp => tp <| t_flags := t_flags tp1 |>) c1))
    by (apply inv_flags; [done|apply ack_flags_sentfin|intros _; exact (Z.lt_le_trans TCPS_LISTEN TCPS_SYN_RECEIVED _ eq_refl Hst)]).
  keep_inv I2.
Qed.

Lemma fin_state_ok st s : going st s -> TCPS_SYN_RECEIVED <= t_state (i_tp s) ->
  going st (fin_state s) /\ TCPS_SYN_RECEIVED <= t_state (i_tp (fin_state s)).
Proof.
  intros G Hst. unfold fin_state.
  destruct (_ || _) eqn:E.
  { split; [|done]. apply going_state; [done| |done|].
    - apply orb_true_iff in E as [E|E]; apply Z.eqb_eq in E; by rewrite E.
    - apply orb_true_iff in E as [E|E]; apply Z.eqb_eq in E; rewrite E; by apply moves_arrow. }
  clear E. destruct (Z.eqb_spec (t_state (i_tp s)) TCPS_FIN_WAIT_1) as [E|_].
  { split; [|done]. apply going_state; [done|by rewrite E|done|rewrite E; by apply moves_arrow]. }
  destruct (Z.eqb_spec (t_state (i_tp s)) TCPS_FIN_WAIT_2) as [E|_].
  { split; [apply going_time_wait; auto|done]. }
  destruct (_ =? _); [|done]. split; [by apply going_2msl|done].
Qed.

(** The segment does not matter any more. *)
Lemma fin_state_seg s ti : fin_state (s <| i_ti := ti |>) = (fin_state s) <| i_ti := ti |>.
Proof.
  unfold fin_state. change (i_tp (s <| i_ti := ti |>)) with (i_tp s).
  destruct (_ || _); [done|]. destruct (_ =? _); [done|]. destruct (_ =? _); [done|]. by destruct (_ =? _).
Qed.

Lemma input_fin_ok st s : after_text st s -> after_text st (input_fin s).
Proof.
  intros [G Hst]. unfold input_fin. destruct (has _ _); [|done].
  set (s1 := if TCPS_HAVERCVDFIN _ then s else _).
  assert (H1 : going st (s1 <| i_ti := no_text |>) /\ TCPS_SYN_RECEIVED <= t_state (i_tp s1)).
  { unfold s1. destruct (TCPS_HAVERCVDFIN _); [done|]. split; [|done].
    assert (G1 : going st (upd_so (s <| i_ti := no_text |>) socantrcvmore)).
    { apply (going_so st _ (socantrcvmore (i_so s))); [done|]. apply socantrcvmore_same. }
    set (f := fun tp : tcpcb => _). apply (going_tp st _ f) in G1; [exact G1|..]; try done; [|apply G1].
    pose proof (inv_flags _ _ (bis (t_flags (i_tp s)) TF_ACKNOW) (go_inv _ _ G1)) as I.
    rewrite !has_bis_other in I by done. specialize (I eq_refl).
    assert (I' := I (fun _ => Z.lt_le_trans TCPS_LISTEN TCPS_SYN_RECEIVED _ eq_refl Hst)). keep_inv I'. }
  destruct H1 as [G1 H1]. destruct (fin_state_ok st (s1 <| i_ti := no_text |>) G1 H1) as [G2 H2].
  rewrite fin_state_seg in G2, H2. by split.
Qed.

(** A call that ends well. *)
Definition ends_well (st : Z) (r : outcome (world * connection)) : Prop :=
  exists w k, r = Ok (w, k) /\ kept w k /\ kmoves st k.

Lemma tcp_output_ends e w c st : env_ok e -> tcp_inv w c -> moves st (t_state (c_tp c)) -> TCPS_LISTEN < t_state (c_tp c) ->
  exists w' c' err, tcp_output e w c = Ok (w', c', err) /\ tcp_inv w' c' /\ moves st (t_state (c_tp c')).
Proof.
  intros He I M Hst. destruct (tcp_output_inv e w c He I Hst) as (w' & c' & err & E & I' & Hs & _).
  exists w', c', err. split; [done|]. split; [done|]. destruct Hs as (-> & _). done.
Qed.

Lemma input_output_ok e st s : env_ok e -> after_text st s -> ends_well st (input_output e s).
Proof.
  intros He [G Hst]. unfold input_output. pose proof (go_inv _ _ G) as I. pose proof (go_moves _ _ G) as M.
  destruct (_ || _); [|by eexists _, _].
  destruct (tcp_output_ends e (i_w s) (i_c s) st He I M) as (w' & c' & err & -> & I' & M').
  { unfold TCPS_LISTEN, TCPS_SYN_RECEIVED, i_tp in *. lia. }
  cbn [obind fst snd]. by eexists _, _.
Qed.

Lemma step6_ok e st s : env_ok e -> going st s -> TCPS_SYN_RECEIVED <= t_state (i_tp s) -> ends_well st (step6 e s).
Proof.
  intros He G Hst. unfold step6. destruct (input_wnd_ok st s G Hst) as [G1 H1].
  destruct (input_urg_ok st _ G1 H1) as (s2 & -> & T2). cbn [obind].
  destruct (input_data_ok e st s2 T2) as (s3 & -> & A3). cbn [obind].
  apply input_output_ok; [done|]. by apply input_fin_ok.
Qed.

(** ** The labels *)

Lemma abort_temporary_ok e st b w k : env_ok e -> kept w k -> kmoves st k -> ends_well st (abort_temporary e b w k).
Proof.
  intros He K M. unfold abort_temporary. destruct k as [c|so]; [|by eexists _, _]. destruct b; [|by eexists _, _].
  destruct (tcp_drop_inv e w c ECONNABORTED He K) as (w' & so & ->). by eexists _, _.
Qed.

(** Packets sent do not concern the invariant. *)
Lemma inv_world w w' c : tcp_inv w c -> world_same w w' -> tcp_inv w' c.
Proof. intros I (E1 & E2 & _). keep_inv I; [by rewrite E2|by rewrite E1]. Qed.

Lemma kept_world w w' k : kept w k -> world_same w w' -> kept w' k.
Proof. destruct k; [apply inv_world|done]. Qed.

Lemma respond_same e w c ti ack seq flags : world_same w (tcp_respond e w c ti ack seq flags).
Proof. done. Qed.

Lemma respond_reset_same e w k ti flags : world_same w (respond_reset e w k ti flags).
Proof. unfold respond_reset. by destruct (has _ _). Qed.

Lemma input_end_ok e st b v : env_ok e -> verdict_ok st v ->
  match v with Go s => TCPS_SYN_RECEIVED <= t_state (i_tp s) | _ => True end -> ends_well st (input_end e b v).
Proof.
  intros He Hv Hg. destruct v as [s|w k|s|w k ti flags]; cbn [input_end].
  - by apply step6_ok.
  - destruct Hv. by apply abort_temporary_ok.
  - destruct Hv as [I M]. destruct (has _ _); eexists _, _; (split; [done|]); split; try done.
    by eapply inv_world.
  - destruct Hv as [K M]. apply abort_temporary_ok; [done| |done]. eapply kept_world; [exact K|].
    destruct (_ || _); [done|]. apply respond_reset_same.
Qed.

(** ** [tcp_input] *)

(** What a segment must not do for the code to be safe: come to a block that is
    closed or has no port, answer our SYN with a SYN without ACK, or come
    before our SYN has gone out. *)
Definition input_guard (c : conn) (ti : tcpiphdr) : Prop :=
  t_state (c_tp c) <> TCPS_CLOSED /\
  (t_state (c_tp c) = TCPS_LISTEN -> inp_lport (c_inp c) <> 0) /\
  (t_state (c_tp c) = TCPS_SYN_SENT -> has (ti_flags ti) TH_SYN = true -> has (ti_flags ti) TH_ACK = true) /\
  (t_state (c_tp c) = TCPS_SYN_RECEIVED -> snd_max (c_tp c) <> snd_una (c_tp c)).

Lemma tcp_input_ok e w c om ti : env_ok e -> tcp_inv w c -> om_wf om -> seg_in ti -> seg_room c ti -> input_guard c ti ->
  ends_well (t_state (c_tp c)) (tcp_input e w c om ti).
Proof.
  intros He I Hom Hs Hr (H1 & H2 & H3 & H4). unfold tcp_input.
  destruct (input_begin_ok e w c om ti He Hom I) as (c1 & -> & I1 & E1 & E2 & E3 & E4 & E5 & W & E6). cbn [obind].
  set (s := Istate w c1 ti (ti_flags ti) false).
  assert (G : going (t_state (c_tp c)) s).
  { split; [done|done|by apply (seg_room_same c)| |done]. change (moves (t_state (c_tp c)) (t_state (c_tp c1))). by rewrite E1. }
  assert (Htrim : forall s', going (t_state (c_tp c)) s' -> TCPS_SYN_RECEIVED <= t_state (i_tp s') ->
    ends_well (t_state (c_tp c)) (let* s0 := input_trim s' in step6 e s0)).
  { intros s' G' Hst. destruct (input_trim_ok _ s' G') as (s2 & -> & G2 & Es2).
    { unfold TCPS_SYN_RECEIVED, TCPS_SYN_SENT in *. lia. }
    cbn [obind]. apply step6_ok; [done|done|by rewrite Es2]. }
  destruct (Z.eqb_spec (t_state (c_tp c1)) TCPS_LISTEN) as [El|Hl].
  { destruct (input_listen_ok e _ s om He G Hom El) as (v & -> & Hv & Hg).
    - change (inp_lport (c_inp c1) <> 0). rewrite E6; [apply H2|]; congruence.
    - cbn [obind]. destruct v as [s'| | |]; try by apply input_end_ok. apply Htrim; [done|]. by rewrite Hg. }
  destruct (Z.eqb_spec (t_state (c_tp c1)) TCPS_SYN_SENT) as [Ee|Hss].
  { destruct (input_syn_sent_ok e _ s He G Ee) as (v & -> & Hv & Hg); [exact (H3 (eq_trans (eq_sym E1) Ee))|].
    cbn [obind]. destruct v as [s'| | |]; try by apply input_end_ok. apply Htrim; [done|]. by rewrite Hg. }
  pose proof (inv_state _ _ I1) as Hrange.
  destruct (input_general_ok e _ s He G) as (v & -> & Hv & Hg).
  - unfold syn_sent_out. change (i_tp s) with (c_tp c1). rewrite E1, E4, E5. exact H4.
  - change (i_tp s) with (c_tp c1). rewrite E1 in *. unfold TCPS_SYN_RECEIVED, TCPS_LISTEN, TCPS_SYN_SENT, TCPS_CLOSED in *. lia.
  - cbn [obind]. apply input_end_ok; [done|done|]. destruct v; try done. by apply Hg.
Qed.

(** ** Property *)

(** [tcp_pulloutofband] takes exactly the byte before the urgent pointer out
    of the text, leaves the bytes before and after it and the length field as
    they were, and keeps the byte for the user; it panics only when the pointer
    is outside the text. *)
Theorem tcp_pulloutofband_correct s : 1 <= ti_urp (i_ti s) ->
  let k := Z.to_nat (ti_urp (i_ti s) - 1) in
  let text := chain_data (ti_m (i_ti s)) in
  match text !! k with
  | Some b => exists s', tcp_pulloutofband s = Ok s' /\ t_iobc (i_tp s') = s8 b /\
      has (t_oobflags (i_tp s')) TCPOOB_HAVEDATA = true /\
      chain_data (ti_m (i_ti s')) = take k text ++ drop (S k) text /\ ti_len (i_ti s') = ti_len (i_ti s) /\
      i_so s' = i_so s
  | None => tcp_pulloutofband s = Panic "tcp_pulloutofband"
  end.
Proof.
  intros Hu k text. unfold tcp_pulloutofband.
  destruct (Z.lt_ge_cases (ti_urp (i_ti s) - 1) (chain_len (ti_m (i_ti s)))) as [Hlt|Hge].
  - destruct (pull_byte_spec (ti_m (i_ti s)) (ti_urp (i_ti s) - 1)) as (b & m & -> & Hb & Hd & _); [lia|].
    unfold text, k. rewrite Hb. eexists. split; [done|]. split; [done|]. split; [by apply has_bis_same|done].
  - assert (E : text !! k = None).
    { apply lookup_ge_None. unfold text, k, chain_len, zlen in *. lia. }
    rewrite E, pull_byte_none by lia. done.
Qed.

Lemma tcp_pulloutofband_correct_witness : exists s',
  tcp_pulloutofband (upd_ti sample_acks (fun ti => ti <| ti_urp := 2 |> <| ti_len := 3 |>
    <| ti_m := [Mbuf (Internal MMINOFF) MT_DATA [1]; Mbuf (Internal MMINOFF) MT_DATA [2; 3]] |>)) = Ok s' /\
  chain_data (ti_m (i_ti s')) = [1; 3] /\ t_iobc (i_tp s') = 2.
Proof.
  destruct (tcp_pulloutofband_correct (upd_ti sample_acks (fun ti => ti <| ti_urp := 2 |> <| ti_len := 3 |>
    <| ti_m := [Mbuf (Internal MMINOFF) MT_DATA [1]; Mbuf (Internal MMINOFF) MT_DATA [2; 3]] |>))) as (s' & E & Hb & _ & Hd & _).
  - by_compute.
  - exists s'. split; [exact E|]. split; [exact Hd|exact Hb].
Defined.
