(* ===== verification/TcpCalls.v ===== *)
(** * The timers and the user's requests keep the invariant

    [tcp_slowtimo], [tcp_fasttimo] and [tcp_usrreq] on a connection in order:
    no timer that goes off finds the block unready for what it does, and every
    request leaves the connection in order or closes it. *)
From S2P Require Import Prelude TcpSeq Mbuf Socket In Inpcb TcpVar TcpReass TcpOutput TcpOutSeq TcpOutSend.
From S2P Require Import TcpInput TcpUser TcpInv TcpSafe TcpWindow TcpAck TcpText.

(** ** The timers *)

Lemma ends_close st w c : tcp_inv w c -> ends_well st (tcp_close w c).
Proof. intros I. destruct (tcp_close_inv _ _ I) as (w' & so & ->). by eexists _, _. Qed.

Lemma ends_drop e st w c errno : env_ok e -> tcp_inv w c -> ends_well st (tcp_drop e w c errno).
Proof. intros He I. destruct (tcp_drop_inv e w c errno He I) as (w' & so & ->). by eexists _, _. Qed.

Lemma ends_output e st w c : env_ok e -> tcp_inv w c -> moves st (t_state (c_tp c)) -> TCPS_LISTEN < t_state (c_tp c) ->
  ends_well st (let* r := tcp_output e w c in Ok (r.1.1, Open r.1.2)).
Proof.
  intros He I M Hst. destruct (tcp_output_ends e w c st He I M Hst) as (w' & c' & err & -> & I' & M'). by eexists _, _.
Qed.

(** A timer's value. *)
Lemma set_timer_inv w c i v : tcp_inv w c -> 0 <= v <= t_timer (c_tp c) i ->
  tcp_inv w (on_tp (fun tp => set_timer tp i v) c).
Proof.
  intros I Hv. pose proof (inv_timers _ _ I) as T. destruct i; cbn [set_timer t_timer] in *; keep_inv I.
  all: try (unfold on_tp; timers).
  - intros Hs. destruct (inv_idle _ _ I Hs) as (E & ? & ?). unfold idle, on_tp. tsimp. lia.
  - intros Hs. destruct (inv_idle _ _ I Hs) as (? & E & ?). unfold idle, on_tp. tsimp. lia.
Qed.

Lemma in_losing_route inp : mtu_ok (route_ifp (inp_route inp)) -> mtu_ok (route_ifp (inp_route (in_losing inp))).
Proof. intros H. unfold in_losing. repeat case_match; done. Qed.

(** The send sequence goes back to what is acknowledged. *)
Lemma snd_ok_back tp so tp' : snd_ok tp so -> snd_una tp' = snd_una tp -> snd_nxt tp' = snd_una tp ->
  snd_max tp' = snd_max tp -> snd_wnd tp' = snd_wnd tp -> snd_cwnd tp' = snd_cwnd tp -> t_maxseg tp' = t_maxseg tp ->
  t_state tp' = t_state tp -> t_flags tp' = t_flags tp -> snd_ok tp' so.
Proof.
  intros (A1 & A2 & A3 & A4 & A5 & A6 & A7 & n & m & B1 & B2 & B3 & B4) E1 E2 E3 E4 E5 E6 E7 E8.
  unfold snd_ok, seq_pos. rewrite E1, E2, E3, E4, E5, E6, E7, E8. do 7 (split; [done|]). exists 0, m.
  split; [lia|]. by rewrite Z.add_0_r, u32_small.
Qed.

Lemma rexmt_interval_ok tp : 1 <= t_rxtshift tp <= 12 -> exists v, rexmt_interval tp = Ok v.
Proof.
  intros Hs. unfold rexmt_interval. destruct (aget_range tcp_backoff (t_rxtshift tp - 1)) as [b ->]; [|by eexists].
  change (Z.of_nat (length tcp_backoff)) with 13. lia.
Qed.

Lemma timer_rexmt_ok e st w c : env_ok e -> tcp_inv w c -> moves st (t_state (c_tp c)) -> TCPS_LISTEN < t_state (c_tp c) ->
  t_persist (c_tp c) = 0 -> ends_well st (timer_rexmt e w c).
Proof.
  intros He I M Hst Ep. unfold timer_rexmt. pose proof (inv_timers _ _ I) as T.
  assert (Hsh : 0 <= t_rxtshift (c_tp c) <= 12) by (unfold timers_ok, TCP_MAXRXTSHIFT in T; lia).
  set (c1 := on_tp _ c). assert (Es : t_rxtshift (c_tp c1) = t_rxtshift (c_tp c) + 1) by (apply s16_small; lia).
  rewrite Es. destruct (Z.ltb_spec TCP_MAXRXTSHIFT (t_rxtshift (c_tp c) + 1)) as [Hgt|Hle].
  { destruct (tcp_drop_ok e w c1 c ETIMEDOUT He I) as (w' & so & ->); [done|done|by eexists|]. by eexists _, _. }
  unfold TCP_MAXRXTSHIFT in Hle. destruct (rexmt_interval_ok (c_tp c1)) as [v ->]; [lia|]. cbn [obind].
  set (c2 := on_tp (fun tp => tp <| t_rexmt := _ |>) c1). set (c3 := if _ || _ then _ else c2).
  assert (H3 : c_tp c3 = c_tp c2 /\ c_so c3 = c_so c /\ mtu_ok (route_ifp (inp_route (c_inp c3)))).
  { unfold c3. pose proof (inv_route _ _ I) as Hr. destruct (_ || _); [|done]. split; [done|]. split; [done|].
    exact (in_losing_route _ Hr). }
  clearbody c3. destruct H3 as (E1 & E2 & E3). set (f := fun tp : tcpcb => _).
  assert (Ef : exists rtt, c_tp (on_tp f c3) = (c_tp c2) <| snd_nxt := snd_una (c_tp c2) |> <| t_rtt := rtt |>).
  { unfold f, on_tp. tsimp. rewrite E1. destruct (_ && _); [by eexists|]. exists (t_rtt (c_tp c2)). by destruct (c_tp c2). }
  destruct Ef as [rtt Ef]. apply ends_output; [done| |rewrite Ef; exact M|rewrite Ef; exact Hst].
  pose proof (TCPT_RANGESET_range v TCPTV_MIN TCPTV_MAX ltac:(done)) as Hv.
  constructor; rewrite ?Ef; try exact (inv_iss _ _ I).
  - change (c_so (on_tp f c3)) with (c_so c3). rewrite E2. eapply snd_ok_back; [exact (inv_snd _ _ I)|done..].
  - exact (inv_mss _ _ I).
  - exact (inv_template _ _ I).
  - exact (inv_synsent _ _ I).
  - unfold c2, c1, on_tp, timers_ok in *. tsimp. rewrite s16_small by lia.
    unfold TCP_MAXRXTSHIFT, TCPTV_MAX, TCPTV_MIN, PR_SLOWHZ in *. split; [by right|]. lia.
  - change (c_so (on_tp f c3)) with (c_so c3). rewrite E2. exact (inv_rcv _ _ I).
  - change (c_so (on_tp f c3)) with (c_so c3). rewrite E2. exact (inv_locks _ _ I).
  - change (c_so (on_tp f c3)) with (c_so c3). rewrite E2. exact (inv_queue _ _ I).
  - exact E3.
  - intros Hl. exfalso. revert Hl. change (t_state (c_tp c) <= TCPS_LISTEN -> False). lia.
Qed.

(** A field the invariant does not speak of. *)
Lemma inv_force w c b : tcp_inv w c -> tcp_inv w (on_tp (fun tp => tp <| t_force := b |>) c).
Proof. intros I. keep_inv I. Qed.

Lemma inv_setpersist w c tp : tcp_inv w c -> t_rexmt (c_tp c) = 0 -> TCPS_LISTEN < t_state (c_tp c) ->
  tcp_setpersist (c_tp c) = Ok tp -> tcp_inv w (c <| c_tp := tp |>) /\ t_state tp = t_state (c_tp c).
Proof.
  intros I E0 Hst E. destruct (tcp_setpersist_ok (c_tp c) E0 (inv_timers _ _ I)) as (tp' & E' & T & _).
  rewrite E in E'. injection E' as <-. unfold tcp_setpersist in E. destruct (nz _); [done|]. injection E as <-.
  split; [|done]. keep_inv I. intros Hl. exfalso. change (t_state (c_tp c) <= TCPS_LISTEN) in Hl. lia.
Qed.

Lemma timer_persist_ok e st w c : env_ok e -> tcp_inv w c -> moves st (t_state (c_tp c)) -> TCPS_LISTEN < t_state (c_tp c) ->
  t_rexmt (c_tp c) = 0 -> ends_well st (timer_persist e w c).
Proof.
  intros He I M Hst E0. unfold timer_persist.
  destruct (tcp_setpersist_ok (c_tp c) E0 (inv_timers _ _ I)) as (tp & E & _). rewrite E. cbn [obind].
  destruct (inv_setpersist w c tp I E0 Hst E) as [I1 E1]. apply (inv_force _ _ true) in I1.
  destruct (tcp_output_ends e w _ st He I1) as (w' & c' & err & E2 & I2 & M2); [by rewrite <- E1 in M|by rewrite <- E1 in Hst|].
  change (on_tp (fun tp0 => tp0 <| t_force := true |>) (c <| c_tp := tp |>)) with (c <| c_tp := tp <| t_force := true |> |>) in E2.
  rewrite E2. cbn [obind fst snd]. eexists _, _. split; [done|]. split; [by apply inv_force|exact M2].
Qed.

Lemma inv_keep w c : tcp_inv w c -> tcp_inv w (on_tp (fun tp => tp <| t_keep := TCPTV_KEEP |>) c).
Proof. intros I. pose proof (inv_timers _ _ I) as T. keep_inv I. exact (timers_keep _ T). Qed.

Lemma timer_keep_ok e st w c : env_ok e -> tcp_inv w c -> moves st (t_state (c_tp c)) -> ends_well st (timer_keep e w c).
Proof.
  intros He I M. unfold timer_keep.
  assert (Hrearm : forall w', world_same w w' ->
    ends_well st (Ok (w', Open (on_tp (fun tp => tp <| t_keep := TCPTV_KEEP |>) c)))).
  { intros w' Hw. eexists _, _. split; [done|]. split; [|exact M]. eapply inv_world; [by apply inv_keep|done]. }
  destruct (Z.ltb_spec (t_state (c_tp c)) TCPS_ESTABLISHED) as [|Hst]; [by apply ends_drop|].
  destruct (_ && _); [|by apply Hrearm]. destruct (_ <=? _); [by apply ends_drop|].
  unfold keep_probe. destruct (t_template (c_tp c)) as [n|] eqn:En.
  - cbn [obind deref]. apply Hrearm. unfold tcp_respond_probe, m_get. by destruct (e_mget _ _).
  - exfalso. apply (inv_template _ _ I); [|done]. unfold TCPS_ESTABLISHED, TCPS_LISTEN in *. lia.
Qed.

Lemma timer_2msl_ok st w c : tcp_inv w c -> moves st (t_state (c_tp c)) -> ends_well st (timer_2msl w c).
Proof.
  intros I M. unfold timer_2msl. destruct (_ && _); [|by apply ends_close].
  eexists _, _. split; [done|]. split; [|exact M]. pose proof (inv_timers _ _ I) as T. keep_inv I. unfold on_tp. timers.
Qed.

(** What a timer finds when it goes off: it has just run down. *)
Lemma tcp_timers_ok e st w c i : env_ok e -> tcp_inv w c -> moves st (t_state (c_tp c)) ->
  match i with
  | TCPT_REXMT => TCPS_LISTEN < t_state (c_tp c) /\ t_persist (c_tp c) = 0
  | TCPT_PERSIST => TCPS_LISTEN < t_state (c_tp c) /\ t_rexmt (c_tp c) = 0
  | _ => True
  end -> ends_well st (tcp_timers e w c i).
Proof.
  intros He I M Hi. destruct i; cbn [tcp_timers].
  - destruct Hi. by apply timer_rexmt_ok.
  - destruct Hi. by apply timer_persist_ok.
  - by apply timer_keep_ok.
  - by apply timer_2msl_ok.
Qed.

(** A timer that runs is found ready. *)
Lemma timer_ready w c i v : tcp_inv w c -> t_timer (c_tp c) i <> 0 ->
  let c' := on_tp (fun tp => set_timer tp i v) c in
  match i with
  | TCPT_REXMT => TCPS_LISTEN < t_state (c_tp c') /\ t_persist (c_tp c') = 0
  | TCPT_PERSIST => TCPS_LISTEN < t_state (c_tp c') /\ t_rexmt (c_tp c') = 0
  | _ => True
  end.
Proof.
  intros I Hi. pose proof (inv_timers _ _ I) as T. pose proof (inv_idle _ _ I) as Hidle. unfold idle, timers_ok in *.
  destruct i; cbn [t_timer set_timer] in *; try done; unfold on_tp; tsimp; (split; [|lia]);
    destruct (Z.le_gt_cases (t_state (c_tp c)) TCPS_LISTEN) as [Hl|]; [specialize (Hidle Hl); lia|lia|specialize (Hidle Hl); lia|lia].
Qed.

Lemma slowtimo_loop_ok e st l w c : env_ok e -> tcp_inv w c -> moves st (t_state (c_tp c)) ->
  ends_well st (slowtimo_loop e l w c).
Proof.
  intros He. revert w c. induction l as [|i l IH]; intros w c I M; cbn [slowtimo_loop].
  { eexists _, _. split; [done|]. unfold on_tp, kept, kmoves. destruct (nz _); (split; [keep_inv I|exact M]). }
  destruct (nz (t_timer (c_tp c) i)) eqn:En; [|by apply IH]. unfold nz in En.
  assert (Hpos : 1 <= t_timer (c_tp c) i < 2 ^ 15).
  { pose proof (inv_timers _ _ I) as T. unfold timers_ok, TCPTV_MAX, TCPTV_KEEP, TCPTV_MAXIDLE, TCPTV_KEEP, PR_SLOWHZ in T.
    destruct i; cbn [t_timer] in *; lia. }
  rewrite s16_small by lia. set (v := t_timer (c_tp c) i - 1).
  pose proof (set_timer_inv w c i v I ltac:(unfold v; lia)) as I1.
  assert (M1 : moves st (t_state (c_tp (on_tp (fun tp => set_timer tp i v) c)))) by by destruct i.
  destruct (v =? 0); [|by apply IH].
  destruct (tcp_timers_ok e st w _ i He I1 M1) as (w' & k & -> & K & M2).
  { apply (timer_ready w c i v I). lia. }
  cbn [obind fst snd]. destruct k as [c2|so]; [by apply IH|]. by eexists _, _.
Qed.

Lemma tcp_slowtimo_conn_ok e w c : env_ok e -> tcp_inv w c -> ends_well (t_state (c_tp c)) (tcp_slowtimo_conn e w c).
Proof. intros He I. by apply slowtimo_loop_ok. Qed.

Lemma slowtimo_iss_inv w c : tcp_inv w c -> tcp_inv (slowtimo_iss w) c.
Proof. intros I. keep_inv I. unfold slowtimo_iss. cbn [w_iss set_field]. destruct (_ <? _); [lia|apply u32_range]. Qed.

Lemma tcp_fasttimo_conn_ok e w c : env_ok e -> tcp_inv w c ->
  exists w' c', tcp_fasttimo_conn e w c = Ok (w', c') /\ tcp_inv w' c' /\ t_state (c_tp c') = t_state (c_tp c).
Proof.
  intros He I. unfold tcp_fasttimo_conn. destruct (has (t_flags (c_tp c)) TF_DELACK) eqn:Ed; [|by eexists _, _].
  assert (Hst : TCPS_LISTEN < t_state (c_tp c)).
  { destruct (Z.le_gt_cases (t_state (c_tp c)) TCPS_LISTEN) as [Hl|]; [|lia].
    destruct (inv_idle _ _ I Hl) as (_ & _ & E). congruence. }
  pose proof (inv_flags w c (bis (bic (t_flags (c_tp c)) TF_DELACK) TF_ACKNOW) I) as I1.
  rewrite !has_bis_other, !has_bic_other in I1 by done. specialize (I1 eq_refl (fun _ => Hst)).
  destruct (tcp_output_inv e w _ He I1 Hst) as (w' & c' & err & E & I2 & (Es & _) & _). 
  change (tcp_output e w (on_tp (fun tp => tp <| t_flags := bis (bic (t_flags tp) TF_DELACK) TF_ACKNOW |>) c) = Ok (w', c', err)) in E.
  rewrite E. cbn [obind fst]. eexists _, _. split; [done|]. by split.
Qed.

(** ** The user's requests *)

(** [moves] from a state to one of the two a close leads to. *)
Lemma tcp_usrclosed_ok st w c : tcp_inv w c -> moves st (t_state (c_tp c)) -> TCPS_SYN_SENT < t_state (c_tp c) ->
  exists c', tcp_usrclosed w c = Ok (w, Open c') /\ tcp_inv w c' /\ moves st (t_state (c_tp c')) /\ TCPS_LISTEN < t_state (c_tp c').
Proof.
  intros I M Hst. pose proof (inv_state _ _ I) as Hr. unfold tcp_usrclosed.
  set (settle := fun c => if TCPS_FIN_WAIT_2 <=? t_state (c_tp c) then on_so soisdisconnected c else c).
  assert (Hset : forall c, tcp_inv w c -> tcp_inv w (settle c) /\ c_tp (settle c) = c_tp c).
  { intros c1 I1. unfold settle. destruct (_ <=? _); [|done]. split; [|done].
    apply (inv_so w c1 (soisdisconnected (c_so c1)) I1). apply soisdisconnected_same. }
  assert (Hto : forall st', TCPS_SYN_RECEIVED <= t_state (c_tp c) <= st' -> st' <= TCPS_TIME_WAIT -> moves (t_state (c_tp c)) st' ->
    TCPS_LISTEN < st' ->
    exists c', Ok (w, Open (settle (on_tp (fun tp => tp <| t_state := st' |>) c))) = Ok (w, Open c') /\
      tcp_inv w c' /\ moves st (t_state (c_tp c')) /\ TCPS_LISTEN < t_state (c_tp c')).
  { intros st' H1 H2 H3 H4. eexists. split; [done|].
    assert (I1 : tcp_inv w (on_tp (fun tp => tp <| t_state := st' |>) c)).
    { pose proof (inv_later w c st' (t_rexmt (c_tp c)) (t_persist (c_tp c)) (t_keep (c_tp c)) (t_2msl (c_tp c)) I H1 H2) as H.
      pose proof (inv_timers _ _ I) as T. unfold on_tp.
      assert (E : (c_tp c) <| t_state := st' |> = (c_tp c) <| t_state := st' |> <| t_rexmt := t_rexmt (c_tp c) |>
        <| t_persist := t_persist (c_tp c) |> <| t_keep := t_keep (c_tp c) |> <| t_2msl := t_2msl (c_tp c) |>) by (by destruct (c_tp c)).
      rewrite E. apply H. exact T. }
    destruct (Hset _ I1) as [I2 E2]. split; [done|]. rewrite E2. split; [by etrans|exact H4]. }
  unfold TCPS_CLOSED, TCPS_LISTEN, TCPS_SYN_SENT, TCPS_SYN_RECEIVED, TCPS_ESTABLISHED, TCPS_TIME_WAIT in *.
  destruct (_ || _) eqn:E1; [lia|]. clear E1.
  destruct (_ || _) eqn:E2.
  { apply Hto; [unfold TCPS_FIN_WAIT_1; lia|done| |done].
    apply orb_true_iff in E2 as [E|E]; apply Z.eqb_eq in E; rewrite E; by apply moves_arrow. }
  destruct (Z.eqb_spec (t_state (c_tp c)) TCPS_CLOSE_WAIT) as [E|_].
  { apply Hto; [rewrite E; done|done|rewrite E; by apply moves_arrow|done]. }
  exists (settle c). split; [done|]. destruct (Hset _ I) as [I2 E]. split; [done|]. rewrite E. split; [done|lia].
Qed.

(** *** Ports *)

(** The counter is a port number and, whatever the address, a port is left. *)
Definition ports_left (w : world) : Prop :=
  0 <= w_lport w <= IPPORT_USERRESERVED /\
  forall laddr, exists f, port_in_range f /\ port_free (w_pcbs w) laddr f.

Lemma htons_port p : port_in_range p -> htons p <> 0.
Proof.
  intros Hp. assert (H : forall_range IPPORT_RESERVED (IPPORT_USERRESERVED - IPPORT_RESERVED + 1) (fun p => nz (htons p)) = true)
    by (vm_compute; reflexivity).
  apply (forall_range_elim _ _ _ p) in H; [unfold nz in H; lia|]. unfold port_in_range in Hp. lia.
Qed.

Lemma bind_port_ok w laddr : ports_left w ->
  exists p, bind_port bind_fuel (w_pcbs w) (w_lport w) laddr = Ok (p, htons p) /\ port_in_range p.
Proof.
  intros [Hh Hf]. destruct (Hf laddr) as (f & Hr & Hfree). unfold bind_fuel. set (fuel := Z.to_nat _).
  assert (Hfu : Z.of_nat fuel = 3977) by (unfold fuel, IPPORT_USERRESERVED, IPPORT_RESERVED; lia).
  clearbody fuel. cbn [bind_port]. cbv zeta. pose proof (next_lport_range (w_lport w) Hh) as Hn.
  destruct (in_pcblookup _ _ _ _ _ _) eqn:E; [|by eexists].
  destruct (bind_port_spec fuel (w_pcbs w) (next_lport (w_lport w)) laddr f) as (p & -> & H1 & H2); [done..| |by exists p].
  unfold port_dist, port_in_range, IPPORT_RESERVED, IPPORT_USERRESERVED in *.
  destruct (Z.ltb_spec (next_lport (w_lport w)) f); lia.
Qed.

(** The block bound, or an error. *)
Lemma pcbbind_ok e w c nam : ports_left w -> tcp_inv w c ->
  exists w' c' error, pcbbind e w c nam = Ok (w', c', error) /\ tcp_inv w' c' /\ c_tp c' = c_tp c /\ c_so c' = c_so c /\
    (error = 0 -> inp_lport (c_inp c') <> 0).
Proof.
  intros Hp I. unfold pcbbind.
  assert (Hall : exists error inp hport, in_pcbbind (e_ifaddrs e) (w_pcbs w) (w_lport w) (e_uid e) (so_options (c_so c))
      PR_CONNREQUIRED (c_inp c) nam = Ok (error, inp, hport) /\ inp_route inp = inp_route (c_inp c) /\
      (error = 0 -> inp_lport inp <> 0)).
  { unfold in_pcbbind. destruct (e_ifaddrs e); [by eexists _, _, _|]. destruct (_ || _); [by eexists _, _, _|].
    set (noname := fun inp lport => if lport =? 0 then
        let* r := bind_port bind_fuel (w_pcbs w) (w_lport w) (inp_laddr inp) in Ok (0, inp <| inp_lport := r.2 |>, r.1)
      else Ok (0, inp <| inp_lport := lport |>, w_lport w)).
    assert (Hn : forall inp lport, inp_route inp = inp_route (c_inp c) -> exists error inp' hport,
      noname inp lport = Ok (error, inp', hport) /\ inp_route inp' = inp_route (c_inp c) /\ (error = 0 -> inp_lport inp' <> 0)).
    { intros inp lport Hr. unfold noname. destruct (Z.eqb_spec lport 0); [|by eexists _, _, _].
      destruct (bind_port_ok w (inp_laddr inp) Hp) as (p & -> & Hpr). cbn [obind fst snd]. eexists _, _, _. split; [done|].
      split; [done|]. intros _. by apply htons_port. }
    destruct nam as [nam|]; [|by apply Hn]. destruct (negb (nam_len nam =? _)); [by eexists _, _, _|].
    destruct (_ && _); [by eexists _, _, _|].
    destruct (nz _); [|by apply Hn]. destruct (_ && _); [by eexists _, _, _|].
    destruct (in_pcblookup _ _ _ _ _ _); [by eexists _, _, _|]. by apply Hn. }
  destruct Hall as (error & inp & hport & -> & Hr & Hl). cbn [obind]. eexists _, _, _. split; [done|].
  split; [|done]. keep_inv I. unfold route_ok. cbn [c_inp set_field]. by rewrite Hr.
Qed.

Lemma ensure_bound_ok e w c : ports_left w -> tcp_inv w c ->
  exists w' c' error, ensure_bound e w c = Ok (w', c', error) /\ tcp_inv w' c' /\ c_tp c' = c_tp c /\ c_so c' = c_so c /\
    (error = 0 -> inp_lport (c_inp c') <> 0).
Proof.
  intros Hp I. unfold ensure_bound. destruct (Z.eqb_spec (inp_lport (c_inp c)) 0); [by apply pcbbind_ok|].
  by eexists _, _, _.
Qed.

(** *** LISTEN and CONNECT, of a closed block *)

Lemma inv_template_set w c n : tcp_inv w c -> t_state (c_tp c) = TCPS_CLOSED ->
  tcp_inv w (on_tp (fun tp => tp <| t_template := n |>) c).
Proof.
  intros I E. keep_inv I. intros Hl. exfalso. revert Hl. change (TCPS_LISTEN < t_state (c_tp c) -> False). by rewrite E.
Qed.

Lemma req_listen_ok e w c : ports_left w -> tcp_inv w c -> t_state (c_tp c) = TCPS_CLOSED ->
  exists w' c' error, req_listen e w c = Ok (w', c', error) /\ tcp_inv w' c' /\ moves TCPS_CLOSED (t_state (c_tp c')).
Proof.
  intros Hp I Hst. unfold req_listen. destruct (ensure_bound_ok e w c Hp I) as (w1 & c1 & error & -> & I1 & E1 & E2 & _).
  cbn [obind]. eexists _, _, _. split; [done|]. destruct (error =? 0).
  - split; [|by apply moves_arrow]. pose proof (inv_idle _ _ I1) as Hidle. rewrite E1, Hst in Hidle.
    specialize (Hidle ltac:(done)). destruct (inv_snd _ _ I1) as (A1 & A2 & A3 & A4 & A5 & A6).
    keep_inv I1.
    + by do 5 (split; [done|]).
    + by intros Hl.
    + done.
    + apply (queue_ok_later _ (t_state (c_tp c1))); [done|]. by rewrite E1, Hst.
    + intros _. unfold idle, on_tp. tsimp. by rewrite E1.
  - split; [done|]. by rewrite E1, Hst.
Qed.

Lemma connect_start_ok w c w' c' : tcp_inv w c -> t_state (c_tp c) = TCPS_CLOSED -> t_template (c_tp c) <> None ->
  connect_start w c = (w', c') -> tcp_inv w' c' /\ t_state (c_tp c') = TCPS_SYN_SENT.
Proof.
  intros I Est Ht. unfold connect_start. intros [= <- <-]. split; [|done].
  pose proof (inv_idle _ _ I) as Hidle. rewrite Est in Hidle. destruct (Hidle ltac:(done)) as (Hr & Hpz & _).
  assert (Hsame : so_same (c_so c) (soisconnecting (c_so c))) by apply soisconnecting_same.
  pose proof (inv_so _ _ _ I Hsame) as I1. pose proof (inv_timers _ _ I) as T.
  constructor.
  - eapply (snd_ok_init (c_tp c)); [exact (inv_snd _ _ I1)|exact (inv_iss _ _ I)|done..].
  - exact (inv_mss _ _ I).
  - intros _. exact Ht.
  - done.
  - exact (timers_keep _ T).
  - exact (inv_rcv _ _ I1).
  - exact (inv_locks _ _ I1).
  - apply (queue_ok_later _ (t_state (c_tp c))); [exact (inv_queue _ _ I1)|by rewrite Est].
  - exact (inv_route _ _ I).
  - apply u32_range.
  - done.
Qed.

Lemma pcbconnect_ok e w c nam : env_ok e -> tcp_inv w c -> inp_lport (c_inp c) <> 0 ->
  exists w' c' error, pcbconnect e w c nam = Ok (w', c', error) /\ tcp_inv w' c' /\ c_tp c' = c_tp c.
Proof.
  intros He I Hl. unfold pcbconnect.
  destruct (in_pcbconnect_safe e (w_pcbs w) (w_lport w) (so_options (c_so c)) (c_inp c) nam He (inv_route _ _ I) Hl)
    as (error & inp & hport & -> & Hr). cbn [obind]. eexists _, _, _. split; [done|]. split; [|done]. keep_inv I.
Qed.

Lemma req_connect_ok e w c nam : env_ok e -> ports_left w -> tcp_inv w c -> t_state (c_tp c) = TCPS_CLOSED ->
  exists w' c' error, req_connect e w c nam = Ok (w', c', error) /\ tcp_inv w' c' /\ moves TCPS_CLOSED (t_state (c_tp c')).
Proof.
  intros He Hp I Hst. unfold req_connect.
  destruct (ensure_bound_ok e w c Hp I) as (w1 & c1 & error & -> & I1 & E1 & _ & Hl). cbn [obind].
  destruct (nz error) eqn:En; [eexists _, _, _; split; [done|]; split; [done|]; by rewrite E1, Hst|].
  unfold nz in En. destruct (pcbconnect_ok e w1 c1 nam He I1 (Hl ltac:(lia))) as (w2 & c2 & error2 & -> & I2 & E2). cbn [obind].
  assert (Est : t_state (c_tp c2) = TCPS_CLOSED) by (by rewrite E2, E1).
  destruct (nz error2); [eexists _, _, _; split; [done|]; split; [done|]; by rewrite Est|].
  destruct (tcp_template e w2 c2) as [w3 n] eqn:Et.
  assert (Hw3 : world_same w2 w3) by (unfold tcp_template, m_get in Et; destruct (t_template _); by injection Et as <- _).
  apply (inv_world _ w3) in I2; [|done]. pose proof (inv_template_set _ _ n I2 Est) as I3.
  destruct n as [n|].
  - destruct (connect_start w3 _) as [w4 c4] eqn:Es.
    destruct (connect_start_ok _ _ _ _ I3 Est ltac:(done) Es) as [I4 E4].
    destruct (tcp_output_ends e w4 c4 TCPS_CLOSED He I4) as (w5 & c5 & err & -> & I5 & M5); [rewrite E4; by apply moves_arrow|by rewrite E4|].
    by eexists _, _, _.
  - eexists _, _, _. split; [done|]. split; [|by rewrite <- Est]. keep_inv I3.
Qed.

(** *** Sending *)

(** Data the send buffer has room for in its 16-bit counts. *)
Definition send_room (c : conn) (m : chain) : Prop :=
  sb_cc (so_snd (c_so c)) + chain_len m < 2 ^ 16 /\ sb_mbcnt (so_snd (c_so c)) + chain_cost m < 2 ^ 16 /\
  Forall cl_ok m.

Lemma inv_append w c m : tcp_inv w c -> send_room c m ->
  tcp_inv w (on_so (fun so => so <| so_snd := sbappend (so_snd so) m |>) c).
Proof.
  intros I (H1 & H2 & H3). pose proof (inv_snd _ _ I) as (A1 & A2 & A3 & A4 & A5 & A6 & A7 & n & mx & B1 & B2 & B3 & B4).
  destruct (sbappend_spec _ _ A6 H1 H2) as (O & _ & (_ & _ & Sf & _) & C & _).
  pose proof (sbappend_stream _ _ A7 H3) as St. keep_inv I.
  - do 5 (split; [done|]). split; [exact O|]. split; [exact St|]. exists n, mx. split; [done|]. do 2 (split; [done|]).
    unfold on_so. tsimp. rewrite C. pose proof (chain_len_nonneg m). lia.
  - destruct (inv_locks _ _ I) as [L1 L2]. split; [|exact L2]. unfold unlocked, on_so in *. tsimp. by rewrite Sf.
Qed.

Lemma req_send_ok e st w c m : env_ok e -> tcp_inv w c -> moves st (t_state (c_tp c)) -> TCPS_LISTEN < t_state (c_tp c) ->
  send_room c m -> exists w' c' error, req_send e w c m = Ok (w', c', error) /\ tcp_inv w' c' /\ moves st (t_state (c_tp c')).
Proof.
  intros He I M Hst Hroom. unfold req_send.
  destruct (tcp_output_ends e w _ st He (inv_append w c m I Hroom) M Hst) as (w' & c' & err & -> & I' & M').
  cbn [obind fst snd]. by eexists _, _, _.
Qed.

Lemma req_sendoob_ok e st w c m : env_ok e -> tcp_inv w c -> moves st (t_state (c_tp c)) -> TCPS_LISTEN < t_state (c_tp c) ->
  send_room c m -> exists w' c' error, req_sendoob e w c m = Ok (w', c', error) /\ tcp_inv w' c' /\ moves st (t_state (c_tp c')).
Proof.
  intros He I M Hst Hroom. unfold req_sendoob. destruct (_ <? _); [by eexists _, _, _|].
  pose proof (inv_append w c m I Hroom) as I1. set (c1 := on_so _ c) in *. set (f := fun tp : tcpcb => _).
  assert (I2 : tcp_inv w (on_tp f c1)) by keep_inv I1.
  destruct (tcp_output_ends e w _ st He I2 M Hst) as (w' & c' & err & -> & I' & M'). cbn [obind fst snd].
  eexists _, _, _. split; [done|]. split; [by apply inv_force|done].
Qed.

(** *** Closing *)

Lemma output_if_open_ok e st w c : env_ok e -> tcp_inv w c -> moves st (t_state (c_tp c)) -> TCPS_LISTEN < t_state (c_tp c) ->
  exists w' k err, output_if_open e w (Open c) = Ok (w', k, err) /\ kept w' k /\ kmoves st k.
Proof.
  intros He I M Hst. destruct (tcp_output_ends e w c st He I M Hst) as (w' & c' & err & E & I' & M').
  cbn [output_if_open]. rewrite E. by eexists _, _, _.
Qed.

Lemma sbflush_inv w c : tcp_inv w c -> exists rcv, sbflush (so_rcv (c_so c)) = Ok rcv /\
  tcp_inv w (on_so (fun so => so <| so_rcv := rcv |>) c).
Proof.
  intros I. destruct (inv_locks _ _ I) as [L1 L2], (inv_rcv _ _ I) as [F (R1 & R2 & R3)].
  rewrite (sbflush_spec _ R1). unfold unlocked in L2. rewrite L2. eexists. split; [done|].
  pose proof (sb_ok_nonneg _ R1). keep_inv I.
  split; [exact F|]. split; [by repeat split|]. unfold on_so. tsimp. cbn [sb_cc sb_mbcnt]. lia.
Qed.

Lemma tcp_disconnect_ok e st w c : env_ok e -> tcp_inv w c -> moves st (t_state (c_tp c)) ->
  ends_well st (tcp_disconnect e w c).
Proof.
  intros He I M. unfold tcp_disconnect.
  destruct (Z.ltb_spec (t_state (c_tp c)) TCPS_ESTABLISHED) as [|Hst]; [by apply ends_close|].
  destruct (_ && _); [by apply ends_drop|]. cbv zeta.
  pose proof (inv_so w c _ I (soisdisconnecting_same (c_so c))) as I1.
  destruct (sbflush_inv w _ I1) as (rcv & E & I2).
  change (sbflush (so_rcv (c_so (on_so soisdisconnecting c))) = Ok rcv) in E. rewrite E. cbn [obind].
  destruct (tcp_usrclosed_ok st w _ I2 M) as (c3 & E3 & I3 & M3 & H3).
  { unfold TCPS_ESTABLISHED, TCPS_SYN_SENT in *. unfold on_so. tsimp. lia. }
  change (tcp_usrclosed w (on_so (fun so => so <| so_rcv := rcv |>) (on_so soisdisconnecting c)) = Ok (w, Open c3)) in E3.
  rewrite E3. cbn [obind fst snd].
  destruct (output_if_open_ok e st w c3 He I3 M3 H3) as (w' & k & err & -> & K & M'). by eexists _, _.
Qed.

Lemma req_shutdown_ok e st w c : env_ok e -> tcp_inv w c -> moves st (t_state (c_tp c)) ->
  exists w' k err, (let* r := tcp_usrclosed w (on_so socantsendmore c) in output_if_open e r.1 r.2) = Ok (w', k, err) /\
    kept w' k /\ kmoves st k.
Proof.
  intros He I M. pose proof (inv_so w c _ I (socantsendmore_same (c_so c))) as I1.
  destruct (Z.le_gt_cases (t_state (c_tp c)) TCPS_SYN_SENT) as [Hst|Hst].
  - assert (E : tcp_usrclosed w (on_so socantsendmore c) =
      tcp_close w (on_tp (fun tp => tp <| t_state := TCPS_CLOSED |>) (on_so socantsendmore c))).
    { pose proof (inv_state _ _ I). unfold tcp_usrclosed. change (t_state (c_tp (on_so socantsendmore c))) with (t_state (c_tp c)).
      unfold TCPS_CLOSED, TCPS_SYN_SENT, TCPS_LISTEN in *.
      assert (t_state (c_tp c) = 0 \/ t_state (c_tp c) = 1 \/ t_state (c_tp c) = 2) as [-> | [-> | ->]] by lia; done. }
    rewrite E. destruct (tcp_close_ok w (on_tp (fun tp => tp <| t_state := TCPS_CLOSED |>) (on_so socantsendmore c)) (t_state (c_tp c)))
      as (w' & so & ->); [exact (inv_bufs _ _ I1)|exact (inv_queue _ _ I1)|]. cbn [obind fst snd output_if_open]. by eexists _, _, _.
  - destruct (tcp_usrclosed_ok st w _ I1 M Hst) as (c3 & E3 & I3 & M3 & H3).
    change (tcp_usrclosed w (on_so socantsendmore c) = Ok (w, Open c3)) in E3. rewrite E3. cbn [obind fst snd].
    by apply output_if_open_ok.
Qed.

(** *** Every request *)

(** What the socket layer sees to before it makes a request. *)
Definition user_guard (w : world) (c : conn) (req : usrreq) : Prop :=
  match req with
  | PRU_BIND _ => ports_left w
  | PRU_LISTEN | PRU_CONNECT _ => ports_left w /\ t_state (c_tp c) = TCPS_CLOSED
  | PRU_RCVD => TCPS_LISTEN < t_state (c_tp c)
  | PRU_SEND m | PRU_SENDOOB m => TCPS_LISTEN < t_state (c_tp c) /\ send_room c m
  | PRU_SLOWTIMO _ => False
  | _ => True
  end.

Definition req_well (st : Z) (r : outcome (world * connection * Z * reply)) : Prop :=
  exists w k err rep, r = Ok (w, k, err, rep) /\ kept w k /\ kmoves st k.

Lemma stays_ok st r : (exists w c err, r = Ok (w, c, err) /\ tcp_inv w c /\ moves st (t_state (c_tp c))) -> req_well st (stays r).
Proof. intros (w & c & err & -> & I & M). by eexists _, _, _, _. Qed.

Lemma ends_ok st r : ends_well st r -> req_well st (ends r).
Proof. intros (w & k & -> & K & M). by eexists _, _, _, _. Qed.

Lemma tcp_usrreq_ok e w c req : env_ok e -> tcp_inv w c -> user_guard w c req ->
  req_well (t_state (c_tp c)) (tcp_usrreq e w c req).
Proof.
  intros He I Hg. assert (Hdone : forall err rep, req_well (t_state (c_tp c)) (Ok (w, Open c, err, rep)))
    by (intros; eexists _, _, _, _; split; [done|]; split; [exact I|apply rtc_refl]).
  destruct req; cbn [tcp_usrreq user_guard] in *; try apply Hdone.
  - apply ends_ok. destruct (_ <? _); [by apply tcp_disconnect_ok|by apply ends_close].
  - apply stays_ok. destruct (pcbbind_ok e w c (Some nam) Hg I) as (w' & c' & err & -> & I' & E & _).
    eexists _, _, _. split; [done|]. split; [done|]. by rewrite E.
  - destruct Hg as [Hp Hst]. apply stays_ok. rewrite Hst. apply (req_listen_ok e w c Hp I Hst).
  - destruct Hg as [Hp Hst]. apply stays_ok. rewrite Hst. by apply req_connect_ok.
  - apply ends_ok. by apply tcp_disconnect_ok.
  - destruct (req_shutdown_ok e (t_state (c_tp c)) w c He I) as (w' & k & err & E & K & M); [done|].
    apply obind_ok in E as (r & -> & E). cbn [obind]. rewrite E. by eexists _, _, _, _.
  - apply stays_ok. destruct (tcp_output_ends e w c (t_state (c_tp c)) He I) as (w' & c' & err & -> & I' & M'); [done|done|].
    by eexists _, _, _.
  - destruct Hg as [Hst Hr]. apply stays_ok. by apply req_send_ok.
  - apply ends_ok. by apply ends_drop.
  - unfold req_rcvoob. destruct (_ || _); [apply Hdone|]. destruct (negb _); [apply Hdone|]. destruct peek; [apply Hdone|].
    eexists _, _, _, _. split; [done|]. split; [keep_inv I|apply rtc_refl].
  - destruct Hg as [Hst Hr]. apply stays_ok. by apply req_sendoob_ok.
  - done.
Qed.
