(* ===== verification/TcpReach.v ===== *)
(** * The life of a TCP connection

    A connection is attached by a user or made for a listener; then segments,
    clock ticks, requests and the rest of the kernel act on it, in any order.
    Every state it reaches by steps that [guard] permits satisfies the invariant
    of [TcpInv], no such step panics, and the protocol state moves along the
    arrows of the diagram only. *)
From S2P Require Import Prelude TcpSeq Mbuf Socket In Inpcb TcpVar TcpReass TcpOutput TcpOutSeq TcpOutSend.
From S2P Require Import TcpInput TcpUser TcpInv TcpSafe TcpWindow TcpAck TcpText TcpCalls.

(** ** Beginnings *)

(** A socket with nothing in it; if it is one that will be accepted, it waits on
    the listener's queue. *)
Definition fresh (qs : queues) (so : socket) : Prop :=
  so_snd so = Sockbuf 0 0 0 0 [] 0 false /\ so_rcv so = Sockbuf 0 0 0 0 [] 0 false /\ queue_ok qs TCPS_CLOSED so.

(** The block [tcp_input] makes for the segment [ti] to a listener. *)
Definition accept_block (c : conn) (ti : tcpiphdr) : conn :=
  (on_tp (fun tp => tp <| t_state := TCPS_LISTEN |>) c)
    <| c_inp := (c_inp c) <| inp_laddr := ti_dst ti |> <| inp_lport := ti_dport ti |> |>.

Lemma soreserve_fresh so : so_snd so = Sockbuf 0 0 0 0 [] 0 false -> so_rcv so = Sockbuf 0 0 0 0 [] 0 false ->
  soreserve so tcp_sendspace tcp_recvspace =
    Ok (0, so <| so_snd := Sockbuf 0 4096 0 8192 [] 0 false |> <| so_rcv := Sockbuf 0 4096 0 8192 [] 0 false |>).
Proof. intros Es Er. unfold soreserve. rewrite Es, Er. reflexivity. Qed.

Lemma empty_sb_ok : sb_ok (Sockbuf 0 4096 0 8192 [] 0 false).
Proof. by repeat split. Qed.

Lemma attach_inv e w0 so w c : fresh (w_queues w0) so -> 0 <= w_iss w0 < 2 ^ 32 ->
  tcp_attach e w0 so = Ok (w, inl c, 0) ->
  tcp_inv w c /\ t_state (c_tp c) = TCPS_CLOSED /\ c_inp c = Inpcb 0 0 0 0 (Route None 0) None.
Proof.
  intros (Es & Er & Hq) Hiss E. unfold tcp_attach in E. rewrite (soreserve_fresh so Es Er) in E. cbn [obind] in E.
  change (nz 0) with false in E. cbv iota in E. unfold in_pcballoc, m_get in E. destruct (e_mget _ _); [|done].
  unfold tcp_newtcpcb, m_get in E. destruct (e_mget _ _); [|by inv_ok].
  injection E as <- <-. split; [|done].
  constructor; tsimp; try done.
  - split; [done|]. split; [done|]. split; [apply Z.mod_pos_bound; done|]. split; [done|]. split; [done|].
    split; [apply empty_sb_ok|]. split; [split; [simpl; lia|by constructor]|]. exists 0, 0. unfold seq_pos. tsimp. by vm_compute.
  - unfold timers_ok. by_compute.
Qed.

Lemma accept_inv w c ti : tcp_inv w c -> t_state (c_tp c) = TCPS_CLOSED -> tcp_inv w (accept_block c ti).
Proof.
  intros I Est. pose proof (inv_idle _ _ I) as Hidle. rewrite Est in Hidle. specialize (Hidle ltac:(done)).
  destruct (inv_snd _ _ I) as (A1 & A2 & A3 & A4 & A5 & A6). keep_inv I; try done.
  apply (queue_ok_later _ (t_state (c_tp c))); [done|]. by rewrite Est.
Qed.

(** ** Steps *)

Inductive event :=
| Segment (om : option (list Z * Z)) (ti : tcpiphdr)
| SlowTick
| FastTick
| Request (req : usrreq)
| SetOption (optname : Z) (m : option Z)
(** [soreceive] takes [n] bytes. *)
| Receive (n : Z)
(** The other connections and sockets. *)
| Elsewhere (w : world).

Definition tcp_step (e : env) (w : world) (c : conn) (ev : event) : outcome (world * connection) :=
  match ev with
  | Segment om ti => tcp_input e w c om ti
  | SlowTick => let* r := tcp_slowtimo_conn e w c in Ok (slowtimo_iss r.1, r.2)
  | FastTick => let* r := tcp_fasttimo_conn e w c in Ok (r.1, Open r.2)
  | Request req => let* r := tcp_usrreq e w c req in Ok r.1.1
  | SetOption optname m => Ok (w, Open (on_tp (fun tp => (tcp_setopt tp optname m).1) c))
  | Receive n =>
      let* rcv := sbdrop (so_rcv (c_so c)) n in Ok (w, Open (on_so (fun so => so <| so_rcv := rcv |>) c))
  | Elsewhere w' => Ok (w', Open c)
  end.

(** The steps that are permitted.  Part of this the layers around see to: that a
    segment is well-formed and has room in the 16-bit counts, that a port is left,
    that the user takes what there is.  The rest they do not: [tcp_input] and
    [tcp_usrreq] also take a segment to a closed block, a SYN without ACK in
    SYN_SENT, a segment before our SYN has gone out, an option that asks for
    segments of no bytes, and a listen or connect on a block that is not closed;
    with some of these the code goes wrong (the last section, and
    [TcpOutSend.tcp_output_zero_maxseg_diverges]). *)
Definition guard (w : world) (c : conn) (ev : event) : Prop :=
  match ev with
  | Segment om ti => om_wf om /\ seg_in ti /\ seg_room c ti /\ input_guard c ti
  | Request req => user_guard w c req
  | Receive n => 0 <= n <= sb_cc (so_rcv (c_so c))
  | Elsewhere w' => 0 <= w_iss w' < 2 ^ 32 /\ queue_ok (w_queues w') (t_state (c_tp c)) (c_so c)
  | _ => True
  end.

Inductive reachable (e : env) : world -> connection -> Prop :=
| reach_attach w0 so w c : fresh (w_queues w0) so -> 0 <= w_iss w0 < 2 ^ 32 ->
    tcp_attach e w0 so = Ok (w, inl c, 0) -> reachable e w (Open c)
| reach_accept w0 so w c ti : fresh (w_queues w0) so -> 0 <= w_iss w0 < 2 ^ 32 ->
    tcp_attach e w0 so = Ok (w, inl c, 0) -> reachable e w (Open (accept_block c ti))
| reach_step w c ev w' k : reachable e w (Open c) -> guard w c ev -> tcp_step e w c ev = Ok (w', k) ->
    reachable e w' k.

Lemma setopt_inv w c optname m : tcp_inv w c -> tcp_inv w (on_tp (fun tp => (tcp_setopt tp optname m).1) c).
Proof.
  intros I. unfold tcp_setopt. destruct (_ =? _); [|destruct c; exact I]. destruct m as [v|]; [|destruct c; exact I].
  cbn [setopt_nodelay fst].
  assert (H : forall f, has f TF_SENTFIN = has (t_flags (c_tp c)) TF_SENTFIN -> has f TF_DELACK = has (t_flags (c_tp c)) TF_DELACK ->
    tcp_inv w (on_tp (fun tp => tp <| t_flags := f |>) c)).
  { intros f H1 H2. apply inv_flags; [done|done|]. rewrite H2. intros Hd.
    destruct (Z.le_gt_cases (t_state (c_tp c)) TCPS_LISTEN) as [Hl|]; [|lia].
    destruct (inv_idle _ _ I Hl) as (_ & _ & E). congruence. }
  destruct (nz v); apply H; (by apply has_bis_other) || (by apply has_bic_other).
Qed.

Lemma receive_inv w c n : tcp_inv w c -> 0 <= n <= sb_cc (so_rcv (c_so c)) ->
  exists rcv, sbdrop (so_rcv (c_so c)) n = Ok rcv /\ tcp_inv w (on_so (fun so => so <| so_rcv := rcv |>) c).
Proof.
  intros I Hn. destruct (inv_locks _ _ I) as [L1 L2], (inv_rcv _ _ I) as [F (R1 & R2 & R3)].
  pose proof (sbdrop_spec _ n R1 ltac:(lia)) as H. rewrite (proj2 (Z.leb_le _ _)) in H by lia.
  destruct H as (rcv & E & O & (_ & _ & Sf & _) & _ & C & _). exists rcv. split; [done|].
  apply sbdrop_cost in E. pose proof (proj1 R1) as (_ & M1 & _). pose proof (proj1 O) as (_ & M2 & _).
  keep_inv I; [|split; [exact L1|unfold unlocked, on_so in *; tsimp; by rewrite Sf]].
  split; [exact F|]. split; [exact O|]. unfold on_so. tsimp. lia.
Qed.

(** A step from a connection in order. *)
Lemma tcp_step_ok e w c ev : env_ok e -> tcp_inv w c -> guard w c ev ->
  exists w' k, tcp_step e w c ev = Ok (w', k) /\ kept w' k /\ kmoves (t_state (c_tp c)) k.
Proof.
  intros He I Hg. destruct ev as [om ti| | |req|optname m|n|w'].
  - destruct Hg as (Hom & Hs & Hr & Hi). by apply tcp_input_ok.
  - destruct (tcp_slowtimo_conn_ok e w c He I) as (w' & k & E & K & M). cbn [tcp_step]. rewrite E. cbn [obind fst snd].
    eexists _, _. split; [done|]. split; [|done]. destruct k; [by apply slowtimo_iss_inv|done].
  - destruct (tcp_fasttimo_conn_ok e w c He I) as (w' & c' & E & I' & Est). cbn [tcp_step]. rewrite E. cbn [obind fst snd].
    eexists _, _. split; [done|]. split; [done|]. unfold kmoves. by rewrite Est.
  - destruct (tcp_usrreq_ok e w c req He I Hg) as (w' & k & err & rep & E & K & M). cbn [tcp_step]. rewrite E.
    by eexists _, _.
  - eexists _, _. split; [done|]. split; [by apply setopt_inv|]. unfold kmoves, tcp_setopt, on_tp. tsimp.
    destruct (_ =? _); [|done]. by destruct m.
  - destruct (receive_inv w c n I Hg) as (rcv & E & I'). cbn [tcp_step]. rewrite E. cbn [obind]. eexists _, _. split; [done|]. split; [done|apply rtc_refl].
  - destruct Hg as [H1 H2]. eexists _, _. split; [done|]. split; [keep_inv I|apply rtc_refl].
Qed.

Lemma reachable_inv e w k : env_ok e -> reachable e w k -> kept w k.
Proof.
  intros He. induction 1 as [w0 so w c Hf Hi E|w0 so w c ti Hf Hi E|w c ev w' k _ IH Hg E].
  - by eapply attach_inv.
  - destruct (attach_inv _ _ _ _ _ Hf Hi E) as (I & Est & _). by apply accept_inv.
  - destruct (tcp_step_ok e w c ev He IH Hg) as (w2 & k2 & E2 & K & _). rewrite E in E2. by injection E2 as -> ->.
Qed.

(** ** Properties *)

(** C3: whatever segments, clock ticks and requests that [guard] permits have come,
    in whatever order (no segment to a closed block or before our SYN is out, no
    SYN without ACK in SYN_SENT, no option for segments of no bytes, no listen or
    connect but on a closed block), an open connection is in order: [snd_una <= snd_nxt <= snd_max] within the
    send buffer, the SYN and the FIN; the counts of both buffers true and within
    their 16 bits, with room for the sequencing queue; the timers in their bounds
    and never both the retransmit and the persist timer; a template as soon as
    something may be sent; a socket to be accepted on its queue. *)
Theorem tcp_reachable_invariant e w c : env_ok e -> reachable e w (Open c) -> tcp_inv w c.
Proof. intros He H. exact (reachable_inv e w _ He H). Qed.

(** C4: in every state a connection reaches, every step that [guard]
    permits ends without a panic and inside its objects, closes the connection
    or leaves it open, and moves the protocol state along arrows of the state
    diagram only. *)
Theorem tcp_steps_safe e w c ev : env_ok e -> reachable e w (Open c) -> guard w c ev ->
  exists w' k, tcp_step e w c ev = Ok (w', k) /\ reachable e w' k /\ kmoves (t_state (c_tp c)) k.
Proof.
  intros He H Hg. destruct (tcp_step_ok e w c ev He (reachable_inv e w _ He H) Hg) as (w' & k & E & _ & M).
  exists w', k. split; [done|]. split; [|done]. by eapply reach_step.
Qed.

(** *** A connection made *)

Definition sample_socket : socket :=
  Socket 7 0 0 0 false None (Sockbuf 0 0 0 0 [] 0 false) (Sockbuf 0 0 0 0 [] 0 false) 0 0.

(** What is left after the steps, from a fresh socket. *)
Fixpoint run (e : env) (evs : list event) (w : world) (k : connection) : outcome (world * connection) :=
  match evs, k with
  | ev :: evs, Open c => let* r := tcp_step e w c ev in run e evs r.1 r.2
  | _, _ => Ok (w, k)
  end.

Definition attach_and (evs : list event) : outcome (world * connection) :=
  let* r := tcp_attach sample_env sample_world sample_socket in
  match r.1.2 with inl c => run sample_env evs r.1.1 (Open c) | inr so => Ok (r.1.1, Closed (Some so)) end.

Definition sample_connect : event := Request (PRU_CONNECT (Nam 16 (SockaddrIn AF_INET 7 9))).

Definition sample_segment (flags seq ack len : Z) (m : chain) : event :=
  Segment None (Tcpiphdr 9 4 7 (htons 1024) seq ack flags len 4096 0 m).

(** Connect, the answer to our SYN, three bytes with a FIN, close, the
    acknowledgement of our FIN. *)
Example handshake : 
  match attach_and [sample_connect; sample_segment (Z.lor TH_SYN TH_ACK) 500 2 0 [];
    sample_segment (Z.lor TH_ACK TH_FIN) 501 2 3 [Mbuf (Internal MMINOFF) MT_DATA [1; 2; 3]];
    Request PRU_DISCONNECT] with
  | Ok (w, Open c) => Some (t_state (c_tp c), snd_una (c_tp c), snd_max (c_tp c), rcv_nxt (c_tp c), pk_flags <$> w_sent w)
  | _ => None
  end = Some (TCPS_LAST_ACK, 2, 3, 505, [TH_FIN + TH_ACK; TH_ACK; TH_ACK; TH_SYN]).
Proof. vm_compute. reflexivity. Qed.

Lemma sample_env_ok : env_ok sample_env.
Proof. split; [exists 0%nat; split; [done|]; intros; reflexivity|]. intros dst. exact Logic.I. Qed.

(** The world and the connection the socket begins with. *)
Definition sample_begun : world * conn :=
  match tcp_attach sample_env sample_world sample_socket with
  | Ok (w, inl c, _) => (w, c)
  | _ => (sample_world, sample_conn)
  end.

Lemma sample_begun_reachable : reachable sample_env sample_begun.1 (Open sample_begun.2).
Proof. apply (reach_attach _ sample_world sample_socket); [by split|done|vm_compute; reflexivity]. Qed.

Lemma tcp_reachable_invariant_witness : tcp_inv sample_begun.1 sample_begun.2.
Proof. exact (tcp_reachable_invariant sample_env _ _ sample_env_ok sample_begun_reachable). Defined.

Lemma tcp_steps_safe_witness : exists w' c', tcp_step sample_env sample_begun.1 sample_begun.2 sample_connect = Ok (w', Open c') /\
  t_state (c_tp c') = TCPS_SYN_SENT /\ kmoves TCPS_CLOSED (Open c').
Proof.
  destruct (tcp_steps_safe sample_env _ _ sample_connect sample_env_ok sample_begun_reachable) as (w' & k & E & _ & M).
  - split; [|reflexivity]. split; [by_compute|]. intros laddr. exists 1024. split; [by_compute|reflexivity].
  - vm_compute in E. injection E as <- <-. eexists _, _. split; [vm_compute; reflexivity|]. split; [reflexivity|exact M].
Defined.

(** ** Steps that are not permitted *)

(** A socket that is bound and no more has a block and no template: an
    acknowledgement that finds it makes [tcp_output] panic ([guard] asks for
    what the connections that are meant to get segments have). *)
Example closed_panics_sample :
  tcp_input sample_env sample_begun.1 sample_begun.2 None (Tcpiphdr 9 4 7 (htons 1024) 0 1 TH_ACK 0 4096 0 [])
    = Panic "tcp_output".
Proof. vm_compute. reflexivity. Qed.

(** A SYN without an acknowledgement answers ours: [snd_una] becomes what the field
    for the acknowledgement holds, far beyond what was sent, and the connection
    counts as established. *)
Example syn_without_ack_sample :
  match attach_and [sample_connect; sample_segment TH_SYN 500 77 0 []] with
  | Ok (w, Open c) => Some (t_state (c_tp c), snd_una (c_tp c), snd_max (c_tp c))
  | _ => None
  end = Some (TCPS_ESTABLISHED, 77, 77).
Proof. vm_compute. reflexivity. Qed.
