(* ===== verification/TcpLive.v ===== *)
(** * Connections that end by themselves

    A connection that is not established when its keep-alive timer runs down is
    dropped, and one in TIME_WAIT is closed when its 2MSL timer does: however
    the other timers fall, after as many slow ticks as the timer shows there is
    no connection. *)
From S2P Require Import Prelude TcpSeq Mbuf Socket In Inpcb TcpVar TcpReass TcpOutput TcpOutSeq TcpOutSend.
From S2P Require Import TcpInput TcpUser TcpInv TcpSafe TcpWindow TcpAck TcpText TcpCalls TcpReach.

(** ** What a timer leaves when it leaves the connection open *)

Lemma tcp_close_closed w c w' k : tcp_close w c = Ok (w', k) -> exists so, k = Closed so.
Proof. unfold tcp_close. intros E. apply obind_ok in E as (r & _ & [= _ <-]). by eexists. Qed.

Lemma tcp_drop_closed e w c errno w' k : tcp_drop e w c errno = Ok (w', k) -> exists so, k = Closed so.
Proof. unfold tcp_drop. intros E. apply obind_ok in E as (r & _ & E). by eapply tcp_close_closed. Qed.

Lemma output_open_fixed e w c w' c' : env_ok e ->
  (let* r := tcp_output e w c in Ok (r.1.1, Open r.1.2)) = Ok (w', Open c') -> fixed (c_tp c') = fixed (c_tp c).
Proof.
  intros He E. apply obind_ok in E as ([[w1 c1] err] & E & [= <- <-]).
  by destruct (tcp_output_frame _ _ _ _ _ _ He E) as (_ & [_ ?] & _).
Qed.

Lemma timer_rexmt_fixed e w c w' c' : env_ok e -> timer_rexmt e w c = Ok (w', Open c') -> fixed (c_tp c') = fixed (c_tp c).
Proof.
  intros He E. unfold timer_rexmt in E. destruct (_ <? _).
  { apply tcp_drop_closed in E as [so E]. done. }
  apply obind_ok in E as (v & _ & E). apply output_open_fixed in E; [|done]. rewrite E. clear E.
  set (c1 := if _ || _ then _ else _). assert (E1 : fixed (c_tp c1) = fixed (c_tp c)) by (unfold c1; by destruct (_ || _)).
  unfold on_tp. tsimp. by destruct (_ && _).
Qed.

Lemma timer_persist_fixed e w c w' c' : env_ok e -> timer_persist e w c = Ok (w', Open c') -> fixed (c_tp c') = fixed (c_tp c).
Proof.
  intros He E. unfold timer_persist in E. apply obind_ok in E as (tp & E0 & E).
  apply obind_ok in E as ([[w1 c1] err] & E & [= <- <-]).
  destruct (tcp_output_frame _ _ _ _ _ _ He E) as (_ & [_ F] & _).
  unfold tcp_setpersist in E0. destruct (nz _); [done|]. injection E0 as <-. exact F.
Qed.

(** The state stays, and the timers that did not go off; those that end the
    connection did not go off. *)
Lemma tcp_timers_open e w c i w' c' : env_ok e -> tcp_timers e w c i = Ok (w', Open c') ->
  t_state (c_tp c') = t_state (c_tp c) /\ (i <> TCPT_KEEP -> t_keep (c_tp c') = t_keep (c_tp c)) /\
  (i <> TCPT_2MSL -> t_2msl (c_tp c') = t_2msl (c_tp c)) /\
  (i = TCPT_KEEP -> TCPS_ESTABLISHED <= t_state (c_tp c)) /\ (i = TCPT_2MSL -> t_state (c_tp c) <> TCPS_TIME_WAIT).
Proof.
  intros He E. destruct i; cbn [tcp_timers] in E.
  - apply timer_rexmt_fixed in E; [|done]. by injection E as _ -> -> ->.
  - apply timer_persist_fixed in E; [|done]. by injection E as _ -> -> ->.
  - unfold timer_keep in E. destruct (Z.ltb_spec (t_state (c_tp c)) TCPS_ESTABLISHED) as [|Hst].
    { apply tcp_drop_closed in E as [so E]. done. }
    destruct (_ && _); [destruct (_ <=? _); [apply tcp_drop_closed in E as [so E]; done|apply obind_ok in E as (w1 & _ & E)]|]; by injection E as _ <-.
  - unfold timer_2msl in E. destruct (Z.eqb_spec (t_state (c_tp c)) TCPS_TIME_WAIT) as [Hst|Hst]; cbn [negb andb] in E.
    { apply tcp_close_closed in E as [so E]. done. }
    destruct (_ <=? _); [by injection E as _ <-|]. apply tcp_close_closed in E as [so E]. done.
Qed.

(** ** A slow tick *)

(** Whether the connection is over when the timer runs down. *)
Definition waits (tp : tcpcb) (i : timer) : Prop :=
  match i with
  | TCPT_KEEP => t_state tp < TCPS_ESTABLISHED
  | TCPT_2MSL => t_state tp = TCPS_TIME_WAIT
  | _ => False
  end.

#[local] Instance timer_eq_dec : EqDecision timer.
Proof. solve_decision. Defined.

Lemma waits_same tp tp' i : t_state tp' = t_state tp -> waits tp i -> waits tp' i.
Proof. intros E. destruct i; cbn [waits]; by rewrite ?E. Qed.

(** Setting one timer. *)
Lemma set_timer_other tp j v i : i <> j -> t_timer (set_timer tp j v) i = t_timer tp i.
Proof. by destruct i, j. Qed.
Lemma set_timer_same tp i v : t_timer (set_timer tp i v) i = v.
Proof. by destruct i. Qed.
Lemma set_timer_state tp j v : t_state (set_timer tp j v) = t_state tp.
Proof. by destruct j. Qed.

(** A timer that goes off and leaves the connection open is another one. *)
Lemma fired_waits e w c j w' c' i : env_ok e -> tcp_timers e w c j = Ok (w', Open c') -> waits (c_tp c) i ->
  i <> j /\ waits (c_tp c') i /\ t_timer (c_tp c') i = t_timer (c_tp c) i.
Proof.
  intros He E Hw. destruct (tcp_timers_open _ _ _ _ _ _ He E) as (E1 & E2 & E3 & H1 & H2).
  assert (Hne : i <> j).
  { intros ->. destruct j; try done; cbn [waits] in Hw; [specialize (H1 eq_refl); lia|by specialize (H2 eq_refl)]. }
  split; [done|]. split; [by eapply waits_same|].
  destruct i; try done; cbn [t_timer]; [apply E2|apply E3]; congruence.
Qed.

Lemma slowtimo_loop_waits e i l w c w' c' : env_ok e -> tcp_inv w c -> NoDup l -> waits (c_tp c) i -> 0 < t_timer (c_tp c) i ->
  slowtimo_loop e l w c = Ok (w', Open c') ->
  waits (c_tp c') i /\
  (i ∈ l -> t_timer (c_tp c') i = t_timer (c_tp c) i - 1 /\ 1 < t_timer (c_tp c) i) /\
  (i ∉ l -> t_timer (c_tp c') i = t_timer (c_tp c) i).
Proof.
  intros He. revert w c. induction l as [|j l IH]; intros w c I Hnd Hw Hpos E; cbn [slowtimo_loop] in E.
  { injection E as <- <-. split; [|split; [by intros ?%not_elem_of_nil|intros _]];
      destruct i; try done; unfold on_tp; tsimp; by destruct (nz _). }
  apply NoDup_cons in Hnd as [Hj Hnd]. rewrite elem_of_cons.
  destruct (nz (t_timer (c_tp c) j)) eqn:En; unfold nz in En.
  2: { assert (Hne : i <> j) by (intros ->; lia). destruct (IH w c I Hnd Hw Hpos E) as (H1 & H2 & H3).
       split; [done|]. split; [intros [?|?]; [done|auto]|]. intros [_ ?]%Decidable.not_or. auto. }
  assert (Hb : 1 <= t_timer (c_tp c) j < 2 ^ 15).
  { pose proof (inv_timers _ _ I) as T. unfold timers_ok, TCPTV_MAX, TCPTV_MAXIDLE, TCPTV_KEEP, PR_SLOWHZ in T.
    destruct j; cbn [t_timer] in *; lia. }
  rewrite s16_small in E by lia. set (v := t_timer (c_tp c) j - 1) in E.
  pose proof (set_timer_inv w c j v I ltac:(unfold v; lia)) as I1. set (c1 := on_tp _ c) in *.
  assert (W1 : waits (c_tp c1) i) by (eapply waits_same; [apply set_timer_state|done]).
  destruct (v =? 0) eqn:Ev.
  - destruct (tcp_timers e w c1 j) as [[w2 k2]| |] eqn:E2; [|done..]. cbn [obind fst snd] in E.
    destruct k2 as [c2|so]; [|done]. destruct (fired_waits e w c1 j w2 c2 i He E2 W1) as (Hne & W2 & T2).
    destruct (tcp_timers_ok e (t_state (c_tp c1)) w c1 j He I1) as (w3 & k3 & E3 & K3 & _); [done|apply (timer_ready w c j v I); lia|].
    rewrite E2 in E3. injection E3 as <- <-.
    change (t_timer (c_tp c1) i) with (t_timer (set_timer (c_tp c) j v) i) in T2. rewrite set_timer_other in T2 by done.
    destruct (IH w2 c2 K3 Hnd W2 ltac:(lia) E) as (H1 & H2 & H3). rewrite T2 in *.
    split; [done|]. split; [intros [?|?]; [done|auto]|]. intros [_ ?]%Decidable.not_or. auto.
  - destruct (decide (i = j)) as [->|Hne].
    + assert (T1 : t_timer (c_tp c1) j = v) by apply set_timer_same.
      destruct (IH w c1 I1 Hnd W1 ltac:(lia) E) as (H1 & _ & H3). specialize (H3 Hj).
      split; [done|]. split; [intros _; lia|]. intros [? _]%Decidable.not_or. done.
    + assert (T1 : t_timer (c_tp c1) i = t_timer (c_tp c) i) by by apply set_timer_other.
      destruct (IH w c1 I1 Hnd W1 ltac:(lia) E) as (H1 & H2 & H3). rewrite T1 in *.
      split; [done|]. split; [intros [?|?]; [done|auto]|]. intros [_ ?]%Decidable.not_or. auto.
Qed.

(** ** Slow ticks without end *)

(** [n] slow ticks; a closed connection has none. *)
Fixpoint slow_ticks (e : env) (n : nat) (w : world) (k : connection) : outcome (world * connection) :=
  match n, k with
  | S n, Open c => let* r := tcp_step e w c SlowTick in slow_ticks e n r.1 r.2
  | _, _ => Ok (w, k)
  end.

Lemma slow_tick_waits e w c i w' c' : env_ok e -> tcp_inv w c -> waits (c_tp c) i -> 0 < t_timer (c_tp c) i ->
  tcp_step e w c SlowTick = Ok (w', Open c') -> waits (c_tp c') i /\ t_timer (c_tp c') i = t_timer (c_tp c) i - 1 /\
    1 < t_timer (c_tp c) i.
Proof.
  intros He I Hw Hpos E. cbn [tcp_step] in E. apply obind_ok in E as ([w1 k1] & E & [= <- ->]).
  assert (Hnd : NoDup [TCPT_REXMT; TCPT_PERSIST; TCPT_KEEP; TCPT_2MSL]) by by_compute.
  destruct (slowtimo_loop_waits e i _ w c w1 c' He I Hnd Hw Hpos E) as (H1 & H2 & _).
  split; [done|]. apply H2. destruct i; by_compute.
Qed.

Lemma slow_ticks_end e n w c i : env_ok e -> tcp_inv w c -> waits (c_tp c) i -> 0 < t_timer (c_tp c) i <= Z.of_nat n ->
  exists w' so, slow_ticks e n w (Open c) = Ok (w', Closed so).
Proof.
  intros He. revert w c. induction n as [|n IH]; intros w c I Hw Hn; [lia|]. cbn [slow_ticks].
  destruct (tcp_step_ok e w c SlowTick He I Logic.I) as (w1 & k1 & E & K & _). rewrite E. cbn [obind fst snd].
  destruct k1 as [c1|so]; [|destruct n; by eexists _, _].
  destruct (slow_tick_waits e w c i w1 c1 He I Hw ltac:(lia) E) as (W1 & T1 & H1).
  apply IH; [done|done|lia].
Qed.

(** ** Property *)

(** C28: an embryonic connection (no established peer yet) whose keep-alive timer
    shows at most [n] ticks is gone after [n] slow ticks, and so is one in
    TIME_WAIT whose 2MSL timer does, whatever the other timers do meanwhile and
    from whatever state it has reached. *)
Theorem tcp_waiting_ends e w c i n : env_ok e -> reachable e w (Open c) -> waits (c_tp c) i ->
  0 < t_timer (c_tp c) i <= Z.of_nat n ->
  exists w' so, slow_ticks e n w (Open c) = Ok (w', Closed so).
Proof. intros He H. exact (slow_ticks_end e n w c i He (reachable_inv e w _ He H)). Qed.

(** A connection that has sent its SYN and gets no answer. *)
Definition sample_connecting : world * conn :=
  match tcp_step sample_env sample_begun.1 sample_begun.2 sample_connect with
  | Ok (w, Open c) => (w, c)
  | _ => sample_begun
  end.

Lemma sample_connecting_reachable : reachable sample_env sample_connecting.1 (Open sample_connecting.2).
Proof.
  apply (reach_step _ sample_begun.1 sample_begun.2 sample_connect); [exact sample_begun_reachable| |vm_compute; reflexivity].
  split; [|reflexivity]. split; [by_compute|]. intros laddr. exists 1024. split; [by_compute|reflexivity].
Qed.

Lemma tcp_waiting_ends_witness : exists w' so,
  slow_ticks sample_env (Z.to_nat TCPTV_KEEP) sample_connecting.1 (Open sample_connecting.2) = Ok (w', Closed so).
Proof.
  apply (tcp_waiting_ends sample_env _ _ TCPT_KEEP).
  - exact sample_env_ok.
  - exact sample_connecting_reachable.
  - vm_compute. reflexivity.
  - vm_compute. split; [reflexivity|discriminate].
Defined.
