(* ===== verification/Xdr.v ===== *)
(** * External data representation: [sys/rpc/xdr.h], [xdr.c], [xdr_array.c], [xdr_reference.c]

    A handle is an operation and a stream.  The streams ([XdrMem], [XdrMbuf])
    give the operations of [struct xdr_ops]; the routines of [xdr.c] use nothing
    else of them.  A routine takes the object it converts and gives the object
    it leaves.  A pointer that may be null is an [option]; the memory behind it
    is the list of its bytes, and a copy beyond the end of the list is a [Fault].
    What [kmem_alloc] gives is a parameter: none when the heap is exhausted.
    The console messages are left out. *)
From S2P Require Import Prelude Mbuf In.

(** ** A long in memory and on the wire *)

(** The VAX stores the low byte first. *)
Definition store_long (x : Z) : list Z :=
  [Z.land x 0xff; Z.land (Z.shiftr x 8) 0xff; Z.land (Z.shiftr x 16) 0xff; Z.land (Z.shiftr x 24) 0xff].

Definition load_long (l : list Z) : Z :=
  match l with
  | [a; b; c; d] => Z.lor (Z.lor a (Z.shiftl b 8)) (Z.lor (Z.shiftl c 16) (Z.shiftl d 24))
  | _ => 0
  end.

(** [*(long * )p = htonl(v)], and [ntohl] of the long at [p]. *)
Definition word (v : Z) : list Z := store_long (htonl (u32 v)).
Definition unword (l : list Z) : Z := s32 (ntohl (load_long l)).

(** [bcopy] of [src] to the address [off] in [dst]. *)
Definition bcopy_to (dst : list Z) (off : Z) (src : list Z) : outcome (list Z) :=
  if (off <? 0) || (zlen dst <? off + zlen src) then Fault
  else Ok (take (Z.to_nat off) dst ++ src ++ drop (Z.to_nat off + length src) dst).

(** The [n] bytes at the address [off] in [src]. *)
Definition bytes_at (src : list Z) (off n : Z) : outcome (list Z) :=
  if (off <? 0) || (n <? 0) || (zlen src <? off + n) then Fault
  else Ok (take (Z.to_nat n) (drop (Z.to_nat off) src)).

(** ** Handles *)

Inductive xdr_op := XDR_ENCODE | XDR_DECODE | XDR_FREE.

Definition BYTES_PER_XDR_UNIT : Z := 4.

(** The operations vector of a stream.  [x_inline] gives an address for the
    [IXDR] macros: [x_load] and [x_store] are the accesses through it. *)
Class XdrOps (S : Type) := {
  x_getlong : S -> outcome (S * option Z);
  x_putlong : S -> Z -> outcome (S * bool);
  x_getbytes : S -> list Z -> Z -> outcome (S * list Z * bool);
  x_putbytes : S -> list Z -> Z -> outcome (S * bool);
  x_getpostn : S -> outcome Z;
  x_setpostn : S -> Z -> outcome (S * bool);
  x_inline : S -> Z -> S * option Z;
  x_load : S -> Z -> Z -> outcome (list Z);
  x_store : S -> Z -> list Z -> outcome S
}.

Record XDR {S : Type} := Xdr { x_op : xdr_op; x_str : S }.
Arguments XDR S : clear implicits.
Arguments Xdr {S} x_op x_str.
#[export] Instance settable_XDR S : Settable (XDR S) := fun x => Xdr (x_op x) (x_str x).

(** What [kmem_alloc] gives for a number of bytes. *)
Class Heap := mem_alloc : Z -> option (list Z).

(** A null pointer has no bytes behind it. *)
Definition behind (p : option (list Z)) : list Z := default [] p.

Section Xdr.
Context {S : Type} `{XdrOps S} `{Heap}.

Definition xdrproc (A : Type) : Type := XDR S -> A -> outcome (XDR S * A * bool).

Definition XDR_GETLONG (x : XDR S) : outcome (XDR S * option Z) :=
  let* r := x_getlong (x_str x) in Ok (x <| x_str := r.1 |>, r.2).
Definition XDR_PUTLONG (x : XDR S) (l : Z) : outcome (XDR S * bool) :=
  let* r := x_putlong (x_str x) l in Ok (x <| x_str := r.1 |>, r.2).
Definition XDR_GETBYTES (x : XDR S) (addr : list Z) (len : Z) : outcome (XDR S * list Z * bool) :=
  let* r := x_getbytes (x_str x) addr len in Ok (x <| x_str := r.1.1 |>, r.1.2, r.2).
Definition XDR_PUTBYTES (x : XDR S) (addr : list Z) (len : Z) : outcome (XDR S * bool) :=
  let* r := x_putbytes (x_str x) addr len in Ok (x <| x_str := r.1 |>, r.2).
Definition XDR_INLINE (x : XDR S) (len : Z) : XDR S * option Z :=
  let r := x_inline (x_str x) len in (x <| x_str := r.1 |>, r.2).

(** The pointer [buf] of the macros moves on. *)
Definition IXDR_GET_LONG (x : XDR S) (buf : Z) : outcome (Z * Z) :=
  let* b := x_load (x_str x) buf 4 in Ok (unword b, buf + 4).
Definition IXDR_PUT_LONG (x : XDR S) (buf : Z) (v : Z) : outcome (XDR S * Z) :=
  let* s := x_store (x_str x) buf (word v) in Ok (x <| x_str := s |>, buf + 4).

(** ** Structures *)

(** [p] of the member [f]. *)
Definition xfield {R E : Type} (f : R -> E) {st : Setter f} (p : xdrproc E) : xdrproc R := fun x r =>
  let* y := p x (f r) in Ok (y.1.1, r <| f := y.1.2 |>, y.2).

(** [p] of the members [f] and [g]. *)
Definition xpair {R E F : Type} (f : R -> E) (g : R -> F) {st : Setter f} {st' : Setter g} (p : xdrproc (E * F)) : xdrproc R :=
  fun x r =>
  let* y := p x (f r, g r) in Ok (y.1.1, r <| f := y.1.2.1 |> <| g := y.1.2.2 |>, y.2).

(** [p && q] on the same structure. *)
Definition xand {R : Type} (p q : xdrproc R) : xdrproc R := fun x r =>
  let* y := p x r in if y.2 then q y.1.1 y.1.2 else Ok y.

(** [xdr_long] of a [u_long], through a cast of its address. *)
Definition cast_long (p : xdrproc Z) : xdrproc Z := fun x v =>
  let* y := p x (s32 v) in Ok (y.1.1, u32 y.1.2, y.2).

(** ** Numbers *)

Definition xdr_void {A : Type} : xdrproc A := fun x a => Ok (x, a, true).

Definition xdr_long : xdrproc Z := fun x l =>
  match x_op x with
  | XDR_ENCODE => let* r := XDR_PUTLONG x l in Ok (r.1, l, r.2)
  | XDR_DECODE =>
      let* r := XDR_GETLONG x in
      match r.2 with Some v => Ok (r.1, v, true) | None => Ok (r.1, l, false) end
  | XDR_FREE => Ok (x, l, true)
  end.

Definition xdr_u_long : xdrproc Z := fun x ul =>
  match x_op x with
  | XDR_DECODE =>
      let* r := XDR_GETLONG x in
      match r.2 with Some v => Ok (r.1, u32 v, true) | None => Ok (r.1, ul, false) end
  | XDR_ENCODE => let* r := XDR_PUTLONG x (s32 ul) in Ok (r.1, ul, r.2)
  | XDR_FREE => Ok (x, ul, true)
  end.

(** [int] and the enumerations have the size of [long]. *)
Definition xdr_int : xdrproc Z := xdr_long.
Definition xdr_u_int : xdrproc Z := xdr_u_long.
Definition xdr_enum : xdrproc Z := xdr_long.

Definition xdr_short : xdrproc Z := fun x sp =>
  match x_op x with
  | XDR_ENCODE => let* r := XDR_PUTLONG x sp in Ok (r.1, sp, r.2)
  | XDR_DECODE =>
      let* r := XDR_GETLONG x in
      match r.2 with Some l => Ok (r.1, s16 l, true) | None => Ok (r.1, sp, false) end
  | XDR_FREE => Ok (x, sp, true)
  end.

Definition xdr_u_short : xdrproc Z := fun x usp =>
  match x_op x with
  | XDR_ENCODE => let* r := XDR_PUTLONG x usp in Ok (r.1, usp, r.2)
  | XDR_DECODE =>
      let* r := XDR_GETLONG x in
      match r.2 with Some l => Ok (r.1, u16 l, true) | None => Ok (r.1, usp, false) end
  | XDR_FREE => Ok (x, usp, true)
  end.

Definition xdr_bool : xdrproc Z := fun x bp =>
  match x_op x with
  | XDR_ENCODE => let* r := XDR_PUTLONG x (cbool (nz bp)) in Ok (r.1, bp, r.2)
  | XDR_DECODE =>
      let* r := XDR_GETLONG x in
      match r.2 with Some lb => Ok (r.1, cbool (nz lb), true) | None => Ok (r.1, bp, false) end
  | XDR_FREE => Ok (x, bp, true)
  end.

(** ** Bytes *)

(** What fills the last unit. *)
Definition rndup (cnt : Z) : Z :=
  let r := cnt mod BYTES_PER_XDR_UNIT in if nz r then BYTES_PER_XDR_UNIT - r else r.

Definition xdr_zero : list Z := [0; 0; 0; 0].
Definition crud : list Z := replicate 16 0.

Definition xdr_opaque (cnt : Z) : xdrproc (list Z) := fun x cp =>
  if cnt =? 0 then Ok (x, cp, true) else
  match x_op x with
  | XDR_DECODE =>
      let* r := XDR_GETBYTES x cp cnt in
      if negb r.2 then Ok (r.1.1, r.1.2, false)
      else if rndup cnt =? 0 then Ok (r.1.1, r.1.2, true)
      else let* r' := XDR_GETBYTES r.1.1 crud (rndup cnt) in Ok (r'.1.1, r.1.2, r'.2)
  | XDR_ENCODE =>
      let* r := XDR_PUTBYTES x cp cnt in
      if negb r.2 then Ok (r.1, cp, false)
      else if rndup cnt =? 0 then Ok (r.1, cp, true)
      else let* r' := XDR_PUTBYTES r.1 xdr_zero (rndup cnt) in Ok (r'.1, cp, r'.2)
  | XDR_FREE => Ok (x, cp, true)
  end.

(** The bytes behind a pointer. *)
Definition opaque_at (cnt : Z) : xdrproc (option (list Z)) := fun x sp =>
  let* r := xdr_opaque cnt x (behind sp) in Ok (r.1.1, (fun _ => r.1.2) <$> sp, r.2).

(** The object is the pointer [*cpp] and the count [*sizep]. *)
Definition xdr_bytes (maxsize : Z) : xdrproc (option (list Z) * Z) := fun x '(cpp, sizep) =>
  let* r := xdr_u_int x sizep in
  let '(x, nodesize, ok) := r in
  if negb ok then Ok (x, (cpp, nodesize), false) else
  match x_op x with
  | XDR_FREE => Ok (x, (None, nodesize), true)
  | op =>
      if maxsize <? nodesize then Ok (x, (cpp, nodesize), false) else
      let sp := match op, cpp with XDR_DECODE, None => mem_alloc nodesize | _, _ => cpp end in
      let* r := opaque_at nodesize x sp in
      Ok (r.1.1, (r.1.2, nodesize), r.2)
  end.

Fixpoint strlen (sp : list Z) : outcome Z :=
  match sp with
  | [] => Fault
  | c :: sp => if c =? 0 then Ok 0 else let* n := strlen sp in Ok (n + 1)
  end.

Definition xdr_string (maxsize : Z) : xdrproc (option (list Z)) := fun x cpp =>
  let* size := match x_op x with XDR_DECODE => Ok 0 | _ => strlen (behind cpp) end in
  let* r := xdr_u_int x size in
  let '(x, size, ok) := r in
  if negb ok then Ok (x, cpp, false)
  else if maxsize <? size then Ok (x, cpp, false) else
  match x_op x with
  | XDR_DECODE =>
      let sp := match cpp with None => mem_alloc (u32 (size + 1)) | _ => cpp end in
      let* b := aset (behind sp) size 0 in
      opaque_at size x (Some b)
  | XDR_ENCODE => opaque_at size x cpp
  | XDR_FREE => Ok (x, None, true)
  end.

(** ** Unions, arrays, references *)

(** The arms up to the null procedure; the discriminant and the union. *)
Definition xdr_union {U : Type} (choices : list (Z * xdrproc U)) (dfault : option (xdrproc U)) : xdrproc (Z * U) :=
  fun x '(dscmp, unp) =>
  let* r := xdr_enum x dscmp in
  let '(x, dscm, ok) := r in
  if negb ok then Ok (x, (dscm, unp), false) else
  match list_find (fun c => c.1 = dscm) choices, dfault with
  | Some (_, c), _ => let* r := c.2 x unp in Ok (r.1.1, (dscm, r.1.2), r.2)
  | None, None => Ok (x, (dscm, unp), false)
  | None, Some p => let* r := p x unp in Ok (r.1.1, (dscm, r.1.2), r.2)
  end.

(** The elements, while [elproc] agrees; an element beyond the memory of the
    array is a [Fault]. *)
Fixpoint array_loop {A : Type} (elproc : xdrproc A) (x : XDR S) (target : list A) (c : Z)
    : outcome (XDR S * list A * bool) :=
  if c =? 0 then Ok (x, target, true) else
  match target with
  | [] => Fault
  | a :: target =>
      let* r := elproc x a in
      if r.2 then let* r' := array_loop elproc r.1.1 target (c - 1) in Ok (r'.1.1, r.1.2 :: r'.1.2, r'.2)
      else Ok (r.1.1, r.1.2 :: target, false)
  end.

(** Memory for [c] elements that have been cleared. *)
Definition array_alloc {A : Type} (zero : A) (elsize nodesize : Z) : option (list A) :=
  (fun b => replicate (Z.to_nat (zlen b / elsize)) zero) <$> mem_alloc nodesize.

(** The object is the pointer [*addrp] and the count [*sizep]. *)
Definition xdr_array {A : Type} (maxsize elsize : Z) (zero : A) (elproc : xdrproc A)
    : xdrproc (option (list A) * Z) := fun x '(addrp, sizep) =>
  let* r := xdr_u_int x sizep in
  let '(x, c, ok) := r in
  if negb ok then Ok (x, (addrp, c), false) else
  if (maxsize <? c) && (match x_op x with XDR_FREE => false | _ => true end) then Ok (x, (addrp, c), false) else
  let nodesize := u32 (c * elsize) in
  match x_op x, addrp with
  | XDR_FREE, None => Ok (x, (None, c), true)
  | XDR_FREE, Some target => let* r := array_loop elproc x target c in Ok (r.1.1, (None, c), r.2)
  | XDR_ENCODE, _ =>
      let* r := array_loop elproc x (default [] addrp) c in Ok (r.1.1, ((fun _ => r.1.2) <$> addrp, c), r.2)
  | XDR_DECODE, Some target =>
      let* r := array_loop elproc x target c in Ok (r.1.1, (Some r.1.2, c), r.2)
  | XDR_DECODE, None =>
      if c =? 0 then Ok (x, (None, c), true) else
      let* target := deref (array_alloc zero elsize nodesize) in
      let* r := array_loop elproc x target c in Ok (r.1.1, (Some r.1.2, c), r.2)
  end.

(** [zero] is the object that [bzero] makes. *)
Definition xdr_reference {A : Type} (size : Z) (zero : A) (proc : xdrproc A) : xdrproc (option A) := fun x pp =>
  match pp, x_op x with
  | None, XDR_FREE => Ok (x, None, true)
  | None, XDR_ENCODE => Fault
  | None, XDR_DECODE =>
      let* _ := deref (mem_alloc size) in
      let* r := proc x zero in Ok (r.1.1, Some r.1.2, r.2)
  | Some loc, op =>
      let* r := proc x loc in
      Ok (r.1.1, match op with XDR_FREE => None | _ => Some r.1.2 end, r.2)
  end.

End Xdr.
Arguments xdrproc S A : clear implicits.
