(* ===== verification/XdrSpec.v ===== *)
(** * What a stream promises, and what is said of a routine over it

    [XdrStream] states the promises of a stream: it stands between the bytes
    that it has passed and those that it has before it.  Over any such stream a
    routine [sends] an object as certain bytes, [takes] an object from them, and
    is [safe] when the bytes are any at all.  These three compose along
    structures, and this file has them for the routines of [Xdr]. *)
From S2P Require Import Prelude Mbuf In Xdr.
#[local] Ltac Zify.zify_post_hook ::= Z.to_euclidean_division_equations.

(** ** Words *)

Lemma land_255 x : Z.land x 0xff = x mod 2 ^ 8.
Proof. change 0xff with (Z.ones 8). by rewrite Z.land_ones. Qed.

Lemma lor_shift a b n : 0 <= n -> 0 <= a < 2 ^ n -> Z.lor a (Z.shiftl b n) = a + b * 2 ^ n.
Proof.
  intros Hn Ha. rewrite Z.shiftl_mul_pow2 by done. rewrite <- Z.lxor_lor, <- Z.add_nocarry_lxor; try done.
  all: apply Z.bits_inj'; intros k Hk; rewrite Z.land_spec, Z.bits_0; rewrite <- Z.shiftl_mul_pow2 by done.
  all: destruct (Z.lt_ge_cases k n); [rewrite (Z.shiftl_spec_low b) by lia; apply andb_false_r|].
  all: rewrite <- (Z.mod_small a (2^n)) by done; rewrite Z.mod_pow2_bits_high by lia; done.
Qed.

Lemma byte_at x q r k : 0 <= k -> 0 <= r < 2 ^ k -> x = r + 2 ^ k * q -> x / 2 ^ k = q.
Proof. intros Hk Hr ->. rewrite Z.mul_comm, Z.div_add, Z.div_small by lia. lia. Qed.

Lemma byte_low x q r : 0 <= r < 2 ^ 8 -> x = r + 2 ^ 8 * q -> x mod 2 ^ 8 = r.
Proof. intros Hr ->. rewrite Z.mul_comm, Z.mod_add, Z.mod_small by lia. done. Qed.

Section Bytes.
Context (a b c d : Z) (Ha : 0 <= a < 256) (Hb : 0 <= b < 256) (Hc : 0 <= c < 256) (Hd : 0 <= d < 256).
#[local] Set Default Proof Using "All".
Let x := a + b * 2 ^ 8 + c * 2 ^ 16 + d * 2 ^ 24.

Lemma bytes_of : Z.land x 0xff = a /\ Z.land (Z.shiftr x 8) 0xff = b /\ Z.land (Z.shiftr x 16) 0xff = c /\
  Z.land (Z.shiftr x 24) 0xff = d.
Proof.
  rewrite !land_255, !Z.shiftr_div_pow2 by lia.
  rewrite (byte_at x (b + c * 2 ^ 8 + d * 2 ^ 16) a 8), (byte_at x (c + d * 2 ^ 8) (a + b * 2 ^ 8) 16),
    (byte_at x d (a + b * 2 ^ 8 + c * 2 ^ 16) 24) by (unfold x; lia).
  rewrite (byte_low x (b + c * 2 ^ 8 + d * 2 ^ 16) a), (byte_low _ (c + d * 2 ^ 8) b), (byte_low _ d c), (byte_low _ 0 d)
    by (unfold x; lia).
  done.
Qed.

Lemma htonl_val : htonl x = d + c * 2 ^ 8 + b * 2 ^ 16 + a * 2 ^ 24.
Proof.
  destruct bytes_of as (E1 & E2 & E3 & E4). unfold htonl, ntohl. rewrite E1, E2, E3, E4.
  rewrite Z.lor_comm, (Z.lor_comm (Z.shiftl c 8)), (Z.lor_comm (Z.shiftl a 24)).
  rewrite (lor_shift d c 8) by lia.
  change 24 with (8 + 16) at 1. rewrite <- (Z.shiftl_shiftl a 8 16), <- Z.shiftl_lor by lia.
  rewrite (lor_shift b a 8), (lor_shift _ _ 16) by lia. lia.
Qed.

Lemma store_long_val : store_long x = [a; b; c; d].
Proof. destruct bytes_of as (E1 & E2 & E3 & E4). unfold store_long. by rewrite E1, E2, E3, E4. Qed.

Lemma load_long_val : load_long [a; b; c; d] = x.
Proof.
  unfold load_long. change 24 with (8 + 16). rewrite <- (Z.shiftl_shiftl d 8 16), <- Z.shiftl_lor by lia.
  rewrite (lor_shift a b 8), (lor_shift c d 8), (lor_shift _ _ 16) by lia. unfold x. lia.
Qed.
End Bytes.

Lemma four_bytes x : 0 <= x < 2 ^ 32 -> exists a b c d, x = a + b * 2 ^ 8 + c * 2 ^ 16 + d * 2 ^ 24 /\
  0 <= a < 256 /\ 0 <= b < 256 /\ 0 <= c < 256 /\ 0 <= d < 256.
Proof.
  intros. pose proof (Z.div_mod x 256). pose proof (Z.mod_pos_bound x 256). set (q := x / 256) in *.
  pose proof (Z.div_mod q 256). pose proof (Z.mod_pos_bound q 256). set (r := q / 256) in *.
  pose proof (Z.div_mod r 256). pose proof (Z.mod_pos_bound r 256).
  exists (x mod 256), (q mod 256), (r mod 256), (r / 256). lia.
Qed.

Lemma unword_word v : unword (word v) = s32 v.
Proof.
  destruct (four_bytes (u32 v) (u32_range v)) as (a & b & c & d & E & ? & ? & ? & ?).
  unfold unword, word. change ntohl with htonl. rewrite E, htonl_val by done.
  rewrite store_long_val, load_long_val, htonl_val, <- E by done. unfold s32, u32.
  by rewrite Z.add_mod_idemp_l.
Qed.

Lemma word_s32 v : word (s32 v) = word v.
Proof. unfold word. by rewrite u32_s32. Qed.
Lemma zlen_word v : zlen (word v) = 4.
Proof. done. Qed.
Lemma s32_signed v : - 2 ^ 31 <= v < 2 ^ 31 -> s32 v = v.
Proof. apply s32_small. Qed.
Lemma u16_range v : 0 <= u16 v < 2 ^ 16.
Proof. apply Z.mod_pos_bound. lia. Qed.

(** ** Lengths and units *)

Lemma zlen_cons {A} (a : A) l : zlen (a :: l) = zlen l + 1.
Proof. unfold zlen. cbn [length]. lia. Qed.
Lemma zlen_replicate {A} n (x : A) : zlen (replicate n x) = Z.of_nat n.
Proof. unfold zlen. by rewrite length_replicate. Qed.
Lemma zlen_le_nil {A} (l : list A) : zlen l <= 0 -> l = [].
Proof. unfold zlen. destruct l; [done|cbn; lia]. Qed.
Lemma zlen_split {A} (l : list A) n : 0 <= n <= zlen l -> exists a b, l = a ++ b /\ zlen a = n.
Proof.
  intros. exists (take (Z.to_nat n) l), (drop (Z.to_nat n) l). rewrite take_drop. split; [done|].
  unfold zlen in *. rewrite length_take. lia.
Qed.
Lemma drop_zlen {A} (a b : list A) n : zlen a = n -> drop (Z.to_nat n) (a ++ b) = b.
Proof. intros <-. unfold zlen. rewrite Nat2Z.id. apply drop_app_length. Qed.
Lemma take_zlen {A} (a b : list A) n : zlen a = n -> take (Z.to_nat n) (a ++ b) = a.
Proof. intros <-. unfold zlen. rewrite Nat2Z.id. apply take_app_length. Qed.

(** A whole number of units. *)
Definition at4 {A} (l : list A) : Prop := zlen l mod 4 = 0.

Lemma at4_app {A} (l k : list A) : at4 l -> at4 k -> at4 (l ++ k).
Proof. unfold at4. rewrite zlen_app. intros. lia. Qed.
Lemma at4_nil {A} : at4 (@nil A).
Proof. done. Qed.
Lemma at4_word v : at4 (word v).
Proof. done. Qed.

Lemma rndup_spec n : 0 <= rndup n < 4 /\ (n + rndup n) mod 4 = 0.
Proof. unfold rndup, BYTES_PER_XDR_UNIT, nz. destruct (Z.eqb_spec (n mod 4) 0); cbn [negb]; lia. Qed.

(** [bcopy] within its objects. *)
Lemma bcopy_to_ok (a b c src : list Z) : zlen b = zlen src ->
  bcopy_to (a ++ b ++ c) (zlen a) src = Ok (a ++ src ++ c).
Proof.
  intros E. unfold bcopy_to. rewrite !zlen_app.
  pose proof (zlen_nonneg a). pose proof (zlen_nonneg c).
  destruct (Z.ltb_spec (zlen a) 0), (Z.ltb_spec (zlen a + (zlen b + zlen c)) (zlen a + zlen src)); try lia. cbn [orb].
  rewrite take_zlen by done. do 2 f_equal. replace (_ + _)%nat with (length a + length b)%nat by (unfold zlen in *; lia).
  by rewrite <- length_app, app_assoc, drop_app_length.
Qed.

Lemma bytes_at_ok (a b c : list Z) : bytes_at (a ++ b ++ c) (zlen a) (zlen b) = Ok b.
Proof.
  unfold bytes_at. rewrite !zlen_app.
  pose proof (zlen_nonneg a). pose proof (zlen_nonneg b). pose proof (zlen_nonneg c).
  destruct (Z.ltb_spec (zlen a) 0), (Z.ltb_spec (zlen b) 0), (Z.ltb_spec (zlen a + (zlen b + zlen c)) (zlen a + zlen b)); try lia.
  cbn [orb]. by rewrite drop_zlen, take_zlen.
Qed.

Lemma bytes_at_inv src off n b : bytes_at src off n = Ok b -> 0 <= off /\ 0 <= n /\ off + n <= zlen src /\ zlen b = n.
Proof.
  unfold bytes_at. destruct (Z.ltb_spec off 0), (Z.ltb_spec n 0), (Z.ltb_spec (zlen src) (off + n)); cbn [orb]; try done.
  intros [= <-]. repeat split; try lia. unfold zlen in *. rewrite length_take, length_drop. lia.
Qed.

Lemma bcopy_to_inv dst off src b : bcopy_to dst off src = Ok b -> 0 <= off /\ off + zlen src <= zlen dst /\ zlen b = zlen dst.
Proof.
  unfold bcopy_to. destruct (Z.ltb_spec off 0), (Z.ltb_spec (zlen dst) (off + zlen src)); cbn [orb]; try done.
  intros [= <-]. repeat split; try lia. rewrite !zlen_app. unfold zlen in *. rewrite length_take, length_drop. lia.
Qed.

(** ** The promises of a stream *)

Class XdrStream (S : Type) `{XdrOps S} := {
  (** [stands s d r]: [s] has passed the bytes [d] and has [r] before it. *)
  stands : S -> list Z -> list Z -> Prop;
  (** [window s p d w r]: the same with [w] just passed, at the address [p]. *)
  window : S -> Z -> list Z -> list Z -> list Z -> Prop;
  getlong_ok s d w r : stands s d (w ++ r) -> at4 d -> zlen w = 4 ->
    exists s', x_getlong s = Ok (s', Some (unword w)) /\ stands s' (d ++ w) r;
  getlong_end s d r : stands s d r -> at4 d -> zlen r < 4 -> exists s', x_getlong s = Ok (s', None);
  putlong_ok s d w r v : stands s d (w ++ r) -> at4 d -> zlen w = 4 ->
    exists s', x_putlong s v = Ok (s', true) /\ stands s' (d ++ word v) r;
  putlong_end s d r v : stands s d r -> at4 d -> zlen r < 4 -> exists s', x_putlong s v = Ok (s', false);
  getbytes_ok s d w r b c : stands s d (w ++ r) -> zlen b = zlen w ->
    exists s', x_getbytes s (b ++ c) (zlen w) = Ok (s', w ++ c, true) /\ stands s' (d ++ w) r;
  getbytes_end s d r b n : stands s d r -> zlen r < n < 2 ^ 31 -> n <= zlen b ->
    exists s' b', x_getbytes s b n = Ok (s', b', false);
  putbytes_ok s d w r b c : stands s d (w ++ r) -> zlen b = zlen w ->
    exists s', x_putbytes s (b ++ c) (zlen w) = Ok (s', true) /\ stands s' (d ++ b) r;
  putbytes_end s d r b n : stands s d r -> zlen r < n < 2 ^ 31 -> n <= zlen b ->
    exists s', x_putbytes s b n = Ok (s', false);
  inline_spec s d r n : stands s d r -> 0 <= n < 2 ^ 31 ->
    x_inline s n = (s, None) \/
    exists s' p w r', r = w ++ r' /\ zlen w = n /\ x_inline s n = (s', Some p) /\ window s' p d w r';
  window_stands s p d w r : window s p d w r -> stands s (d ++ w) r;
  window_load s p d a b c r : window s p d (a ++ b ++ c) r -> x_load s (p + zlen a) (zlen b) = Ok b;
  window_store s p d a b c r b' : window s p d (a ++ b ++ c) r -> zlen b' = zlen b ->
    exists s', x_store s (p + zlen a) b' = Ok s' /\ window s' p d (a ++ b' ++ c) r;
  getpos_ok s d r : stands s d r -> exists p, x_getpostn s = Ok p;
  stands_bound s d r : stands s d r -> zlen r < 2 ^ 31
}.

(** Its position counts the bytes from the beginning of the stream. *)
Class XdrCounts (S : Type) `{XdrStream S} :=
  getpos_counts s d r : stands s d r -> x_getpostn s = Ok (u32 (zlen d)).

(** ** What is said of a routine *)

Section Spec.
Context {S : Type} {ops : XdrOps S} {str : XdrStream S}.

(** In [XDR_ENCODE] the object goes out as the bytes [w], when there is room. *)
Definition sends {A} (p : xdrproc S A) (a : A) (w : list Z) : Prop :=
  at4 w /\ forall s d r, stands s d r -> at4 d ->
    if zlen w <=? zlen r
    then exists s', p (Xdr XDR_ENCODE s) a = Ok (Xdr XDR_ENCODE s', a, true) /\
           stands s' (d ++ w) (drop (length w) r)
    else exists s', p (Xdr XDR_ENCODE s) a = Ok (Xdr XDR_ENCODE s', a, false).

(** In [XDR_DECODE] the bytes [w] make [a] of the object [a0]. *)
Definition takes {A} (p : xdrproc S A) (w : list Z) (a0 a : A) : Prop :=
  at4 w /\ forall s d r, stands s d (w ++ r) -> at4 d ->
    exists s', p (Xdr XDR_DECODE s) a0 = Ok (Xdr XDR_DECODE s', a, true) /\ stands s' (d ++ w) r.

(** Whatever the bytes are, [p] stays inside its objects, and makes of [a0] an
    object with [Q] when it succeeds. *)
Definition safe {A} (p : xdrproc S A) (a0 : A) (Q : A -> Prop) : Prop :=
  forall s d r, stands s d r -> at4 d ->
    exists s' a b, p (Xdr XDR_DECODE s) a0 = Ok (Xdr XDR_DECODE s', a, b) /\
      (b = true -> Q a /\ exists w r', r = w ++ r' /\ at4 w /\ stands s' (d ++ w) r').

Lemma safe_mono {A} (p : xdrproc S A) a0 (Q Q' : A -> Prop) : safe p a0 Q -> (forall a, Q a -> Q' a) -> safe p a0 Q'.
Proof. intros H1 H2 s d r Hs Hd. destruct (H1 s d r Hs Hd) as (s' & a & b & E & Hb).
  exists s', a, b. split; [done|]. intros Hb'. destruct (Hb Hb') as [? ?]. auto. Qed.

Lemma takes_to {A} (p : xdrproc S A) w a0 a w' a' : takes p w a0 a -> w = w' -> a = a' -> takes p w' a0 a'.
Proof. by intros ? <- <-. Qed.

Lemma sends_to {A} (p : xdrproc S A) a w w' : sends p a w -> w = w' -> sends p a w'.
Proof. by intros ? <-. Qed.

(** *** One routine after another *)

Lemma sends_two {A B C} (p : xdrproc S A) a w1 (q : xdrproc S B) b w2 (t : xdrproc S C) c :
  sends p a w1 -> sends q b w2 ->
  (forall s s1, p (Xdr XDR_ENCODE s) a = Ok (Xdr XDR_ENCODE s1, a, false) ->
    t (Xdr XDR_ENCODE s) c = Ok (Xdr XDR_ENCODE s1, c, false)) ->
  (forall s s1 s2 ok, p (Xdr XDR_ENCODE s) a = Ok (Xdr XDR_ENCODE s1, a, true) ->
    q (Xdr XDR_ENCODE s1) b = Ok (Xdr XDR_ENCODE s2, b, ok) ->
    t (Xdr XDR_ENCODE s) c = Ok (Xdr XDR_ENCODE s2, c, ok)) ->
  sends t c (w1 ++ w2).
Proof.
  intros [A1 H1] [A2 H2] Hf Ht. split; [by apply at4_app|]. intros s d r Hs Hd. rewrite zlen_app.
  pose proof (zlen_nonneg w1). pose proof (zlen_nonneg w2). specialize (H1 s d r Hs Hd).
  destruct (Z.leb_spec (zlen w1) (zlen r)) as [L|L].
  - destruct H1 as (s1 & E1 & S1). specialize (H2 s1 _ _ S1 (at4_app _ _ Hd A1)).
    assert (El : zlen (drop (length w1) r) = zlen r - zlen w1) by (unfold zlen in *; rewrite length_drop; lia).
    rewrite El in H2. destruct (Z.leb_spec (zlen w2) (zlen r - zlen w1)).
    + rewrite (proj2 (Z.leb_le _ _)) by lia. destruct H2 as (s2 & E2 & S2). exists s2.
      split; [by eapply Ht|]. by rewrite length_app, app_assoc, <- drop_drop.
    + rewrite (proj2 (Z.leb_gt _ _)) by lia. destruct H2 as (s2 & E2). exists s2. by eapply Ht.
  - rewrite (proj2 (Z.leb_gt _ _)) by lia. destruct H1 as (s1 & E1). exists s1. by apply Hf.
Qed.

Lemma takes_two {A B C} (p : xdrproc S A) w1 a0 a1 (q : xdrproc S B) w2 b0 b1 (t : xdrproc S C) c0 c1 :
  takes p w1 a0 a1 -> takes q w2 b0 b1 ->
  (forall s s1 s2, p (Xdr XDR_DECODE s) a0 = Ok (Xdr XDR_DECODE s1, a1, true) ->
    q (Xdr XDR_DECODE s1) b0 = Ok (Xdr XDR_DECODE s2, b1, true) ->
    t (Xdr XDR_DECODE s) c0 = Ok (Xdr XDR_DECODE s2, c1, true)) ->
  takes t (w1 ++ w2) c0 c1.
Proof.
  intros [A1 H1] [A2 H2] Ht. split; [by apply at4_app|]. intros s d r Hs Hd. rewrite <- app_assoc in Hs.
  destruct (H1 s d _ Hs Hd) as (s1 & E1 & S1). destruct (H2 s1 _ _ S1 (at4_app _ _ Hd A1)) as (s2 & E2 & S2).
  exists s2. rewrite app_assoc. split; [by eapply Ht|done].
Qed.

Lemma safe_two {A B C} (p : xdrproc S A) a0 (Q1 : A -> Prop) (q : A -> xdrproc S B) b0 (Q2 : A -> B -> Prop)
    (t : xdrproc S C) c0 (comb : A -> B -> C) (Q : C -> Prop) :
  safe p a0 Q1 -> (forall a, Q1 a -> safe (q a) (b0 a) (Q2 a)) ->
  (forall s s1 a1, p (Xdr XDR_DECODE s) a0 = Ok (Xdr XDR_DECODE s1, a1, false) ->
    exists c, t (Xdr XDR_DECODE s) c0 = Ok (Xdr XDR_DECODE s1, c, false)) ->
  (forall s s1 s2 a1 b1 ok, Q1 a1 -> p (Xdr XDR_DECODE s) a0 = Ok (Xdr XDR_DECODE s1, a1, true) ->
    q a1 (Xdr XDR_DECODE s1) (b0 a1) = Ok (Xdr XDR_DECODE s2, b1, ok) ->
    t (Xdr XDR_DECODE s) c0 = Ok (Xdr XDR_DECODE s2, comb a1 b1, ok)) ->
  (forall a b, Q1 a -> Q2 a b -> Q (comb a b)) -> safe t c0 Q.
Proof.
  intros H1 H2 Hf Ht HQ s d r Hs Hd. destruct (H1 s d r Hs Hd) as (s1 & a1 & b & E1 & Hb).
  destruct b; [|destruct (Hf _ _ _ E1) as [c Ec]; by eexists _, c, false].
  destruct (Hb eq_refl) as (Ha & w1 & r1 & -> & A1 & S1).
  destruct (H2 a1 Ha s1 _ _ S1 (at4_app _ _ Hd A1)) as (s2 & b2 & ok & E2 & Hb2).
  exists s2, (comb a1 b2), ok. split; [by eapply Ht|].
  intros Hok. destruct (Hb2 Hok) as (HQ2 & w2 & r2 & -> & A2 & S2). split; [by apply HQ|].
  exists (w1 ++ w2), r2. rewrite <- !app_assoc in *. split; [done|]. split; [by apply at4_app|done].
Qed.

(** *** Structures *)

Lemma sends_and {R} (p q : xdrproc S R) a w1 w2 : sends p a w1 -> sends q a w2 -> sends (xand p q) a (w1 ++ w2).
Proof.
  intros H1 H2. apply (sends_two _ _ _ _ _ _ _ _ H1 H2); unfold xand.
  - intros s s1 E. by rewrite E.
  - intros s s1 s2 ok E1 E2. by rewrite E1.
Qed.

Lemma takes_and {R} (p q : xdrproc S R) w1 w2 a0 a1 a2 : takes p w1 a0 a1 -> takes q w2 a1 a2 ->
  takes (xand p q) (w1 ++ w2) a0 a2.
Proof. intros H1 H2. apply (takes_two _ _ _ _ _ _ _ _ _ _ _ H1 H2). unfold xand. intros s s1 s2 E1 E2. by rewrite E1. Qed.

Lemma safe_and {R} (p q : xdrproc S R) a0 (Q Q' : R -> Prop) :
  safe p a0 Q -> (forall a, Q a -> safe q a Q') -> safe (xand p q) a0 Q'.
Proof.
  intros H1 H2. apply (safe_two p a0 Q (fun _ => q) (fun a => a) (fun _ => Q') _ _ (fun _ a => a)); try done; unfold xand.
  - intros s s1 a1 E. rewrite E. by eexists.
  - intros s s1 s2 a1 b1 ok _ E1 E2. by rewrite E1.
Qed.

Lemma sends_field {R E} (f : R -> E) {st : Setter f} (p : xdrproc S E) a w :
  a <| f := f a |> = a -> sends p (f a) w -> sends (xfield f p) a w.
Proof.
  intros Ea [A1 H1]. split; [done|]. intros s d r Hs Hd. specialize (H1 s d r Hs Hd). unfold xfield.
  destruct (_ <=? _); destruct H1 as (s1 & E1); [destruct E1 as [E1 S1]|]; rewrite E1; cbn [obind fst snd]; rewrite Ea; eauto.
Qed.

Lemma takes_field {R E} (f : R -> E) {st : Setter f} (p : xdrproc S E) w a0 v :
  takes p w (f a0) v -> takes (xfield f p) w a0 (a0 <| f := v |>).
Proof.
  intros [A1 H1]. split; [done|]. intros s d r Hs Hd. unfold xfield. destruct (H1 s d r Hs Hd) as (s1 & E1 & S1).
  rewrite E1. cbn [obind fst snd]. eauto.
Qed.

Lemma safe_field {R E} (f : R -> E) {st : Setter f} (p : xdrproc S E) a0 (Q : R -> Prop) :
  safe p (f a0) (fun v => Q (a0 <| f := v |>)) -> safe (xfield f p) a0 Q.
Proof.
  intros H1 s d r Hs Hd. unfold xfield. destruct (H1 s d r Hs Hd) as (s1 & v & b & E1 & Hb).
  rewrite E1. cbn [obind fst snd]. eauto.
Qed.

Lemma sends_pair {R E F} (f : R -> E) (g : R -> F) {st : Setter f} {st' : Setter g} (p : xdrproc S (E * F)) a w :
  a <| f := f a |> <| g := g a |> = a -> sends p (f a, g a) w -> sends (xpair f g p) a w.
Proof.
  intros Ea [A1 H1]. split; [done|]. intros s d r Hs Hd. specialize (H1 s d r Hs Hd). unfold xpair.
  destruct (_ <=? _); destruct H1 as (s1 & E1); [destruct E1 as [E1 S1]|]; rewrite E1; cbn [obind fst snd]; rewrite Ea; eauto.
Qed.

Lemma takes_pair {R E F} (f : R -> E) (g : R -> F) {st : Setter f} {st' : Setter g} (p : xdrproc S (E * F)) w a0 v v' :
  takes p w (f a0, g a0) (v, v') -> takes (xpair f g p) w a0 (a0 <| f := v |> <| g := v' |>).
Proof.
  intros [A1 H1]. split; [done|]. intros s d r Hs Hd. unfold xpair. destruct (H1 s d r Hs Hd) as (s1 & E1 & S1).
  rewrite E1. cbn [obind fst snd]. eauto.
Qed.

Lemma safe_pair {R E F} (f : R -> E) (g : R -> F) {st : Setter f} {st' : Setter g} (p : xdrproc S (E * F)) a0 (Q : R -> Prop) :
  safe p (f a0, g a0) (fun v => Q (a0 <| f := v.1 |> <| g := v.2 |>)) -> safe (xpair f g p) a0 Q.
Proof.
  intros H1 s d r Hs Hd. unfold xpair. destruct (H1 s d r Hs Hd) as (s1 & v & b & E1 & Hb).
  rewrite E1. cbn [obind fst snd]. eauto.
Qed.

(** A member, then the rest of the structure. *)
Lemma safe_then {R E} (f : R -> E) {st : Setter f} (p : xdrproc S E) (q : xdrproc S R) a0 (P : E -> Prop) (Q : R -> Prop) :
  safe p (f a0) P -> (forall v, P v -> safe q (a0 <| f := v |>) Q) -> safe (xand (xfield f p) q) a0 Q.
Proof.
  intros Hp Hq. apply (safe_and _ _ _ (fun a => exists v, P v /\ a = a0 <| f := v |>)).
  - apply safe_field. eapply safe_mono; [exact Hp|]. eauto.
  - intros a (v & Hv & ->). auto.
Qed.

Lemma safe_last {R E} (f : R -> E) {st : Setter f} (p : xdrproc S E) a0 (P : E -> Prop) (Q : R -> Prop) :
  safe p (f a0) P -> (forall v, P v -> Q (a0 <| f := v |>)) -> safe (xfield f p) a0 Q.
Proof. intros Hp Hq. apply safe_field. by eapply safe_mono. Qed.

Lemma sends_void {A} (a : A) : sends xdr_void a [].
Proof.
  split; [done|]. intros s d r Hs Hd. rewrite (proj2 (Z.leb_le _ _)) by apply zlen_nonneg.
  exists s. by rewrite app_nil_r.
Qed.
Lemma takes_void {A} (a : A) : takes xdr_void [] a a.
Proof. split; [done|]. intros s d r Hs Hd. exists s. by rewrite app_nil_r. Qed.
Lemma safe_void {A} (a : A) (Q : A -> Prop) : Q a -> safe xdr_void a Q.
Proof.
  intros HQ s d r Hs Hd. exists s, a, true. split; [done|]. intros _. split; [done|]. exists [], r. by rewrite app_nil_r.
Qed.

(** *** Numbers *)

Lemma put_spec s d r v : stands s d r -> at4 d ->
  if 4 <=? zlen r then exists s', x_putlong s v = Ok (s', true) /\ stands s' (d ++ word v) (drop 4 r)
  else exists s', x_putlong s v = Ok (s', false).
Proof.
  intros Hs Hd. destruct (Z.leb_spec 4 (zlen r)).
  - destruct (zlen_split r 4) as (w & r' & -> & Hw); [lia|]. change 4%nat with (Z.to_nat 4). rewrite (drop_zlen w r' 4) by done.
    by apply (putlong_ok s d w r' v).
  - by apply (putlong_end s d r).
Qed.

Lemma get_spec s d r : stands s d r -> at4 d ->
  if 4 <=? zlen r then exists s', x_getlong s = Ok (s', Some (unword (take 4 r))) /\ stands s' (d ++ take 4 r) (drop 4 r)
  else exists s', x_getlong s = Ok (s', None).
Proof.
  intros Hs Hd. destruct (Z.leb_spec 4 (zlen r)).
  - destruct (zlen_split r 4) as (w & r' & -> & Hw); [lia|]. change 4%nat with (Z.to_nat 4). rewrite (drop_zlen w r' 4), (take_zlen w r' 4) by done.
    by apply (getlong_ok s d w r').
  - by apply (getlong_end s d r).
Qed.

(** The routines for numbers: [put] is what goes out of a number in [dom],
    [get] what is made of a long. *)
Definition numeric (p : xdrproc S Z) (dom : Z -> Prop) (put get : Z -> Z) : Prop := forall s v,
  (dom v -> p (Xdr XDR_ENCODE s) v = (let* r := x_putlong s (put v) in Ok (Xdr XDR_ENCODE r.1, v, r.2))) /\
  (forall s' l, x_getlong s = Ok (s', Some l) -> p (Xdr XDR_DECODE s) v = Ok (Xdr XDR_DECODE s', get l, true)) /\
  (forall s', x_getlong s = Ok (s', None) -> exists v', p (Xdr XDR_DECODE s) v = Ok (Xdr XDR_DECODE s', v', false)).

Lemma sends_numeric p dom put get v : numeric p dom put get -> dom v -> sends p v (word (put v)).
Proof.
  intros Hp Hv. split; [done|]. intros s d r Hs Hd. destruct (Hp s v) as [E _]. rewrite (E Hv), zlen_word.
  pose proof (put_spec s d r (put v) Hs Hd) as H1.
  destruct (4 <=? zlen r); destruct H1 as (s1 & E1); [destruct E1 as [E1 S1]|]; rewrite E1; cbn [obind fst snd]; eauto.
Qed.

Lemma takes_numeric p dom put get v v0 : numeric p dom put get -> takes p (word v) v0 (get (s32 v)).
Proof.
  intros Hp. split; [done|]. intros s d r Hs Hd. destruct (Hp s v0) as (_ & E & _).
  destruct (getlong_ok s d (word v) r Hs Hd eq_refl) as (s1 & E1 & S1). rewrite unword_word in E1. eauto.
Qed.

Lemma safe_numeric p dom put get v0 (Q : Z -> Prop) :
  numeric p dom put get -> (forall l, - 2 ^ 31 <= l < 2 ^ 31 -> Q (get l)) -> safe p v0 Q.
Proof.
  intros Hp HQ s d r Hs Hd. destruct (Hp s v0) as (_ & E & E'). pose proof (get_spec s d r Hs Hd) as H1.
  destruct (Z.leb_spec 4 (zlen r)); destruct H1 as (s1 & E1).
  - destruct E1 as [E1 S1]. rewrite (E _ _ E1). eexists _, _, _. split; [done|]. intros _.
    split; [apply HQ, s32_range|]. exists (take 4 r), (drop 4 r). rewrite take_drop. split; [done|]. split; [|done].
    unfold at4, zlen in *. rewrite length_take. replace (4 `min` length r)%nat with 4%nat by lia. done.
  - destruct (E' _ E1) as [v' E2]. rewrite E2. by eexists _, _, _.
Qed.

Ltac numeric_tac := intros s v; unfold cast_long, xdr_long, xdr_u_long, xdr_u_short, xdr_bool, XDR_GETLONG, XDR_PUTLONG;
  split; [|split]; cbn; [intros Hv|intros s' l ->; cbn; try done|intros s' ->; cbn; eexists; done];
  match goal with |- context [x_putlong ?s ?v] => destruct (x_putlong s v) as [[? ?]| |]; cbn; try done end.

Definition any (v : Z) : Prop := True.
Definition u_long (v : Z) : Prop := 0 <= v < 2 ^ 32.
Definition s_long (v : Z) : Prop := - 2 ^ 31 <= v < 2 ^ 31.

Lemma long_numeric : numeric xdr_long any id id.
Proof. numeric_tac. Qed.
Lemma u_long_numeric : numeric xdr_u_long any s32 u32.
Proof. numeric_tac. Qed.
Lemma cast_long_numeric : numeric (cast_long xdr_long) u_long s32 u32.
Proof. numeric_tac. rewrite u32_s32. by rewrite u32_small. Qed.
Lemma u_short_numeric : numeric xdr_u_short any id u16.
Proof. numeric_tac. Qed.
Lemma bool_numeric : numeric xdr_bool any (fun v => cbool (nz v)) (fun l => cbool (nz l)).
Proof. numeric_tac. Qed.

Lemma sends_u_long v : sends xdr_u_long v (word v).
Proof. rewrite <- word_s32. exact (sends_numeric _ any s32 u32 v u_long_numeric I). Qed.
Lemma sends_enum v : sends xdr_enum v (word v).
Proof. exact (sends_numeric _ any id id v long_numeric I). Qed.
Lemma sends_cast_long v : u_long v -> sends (cast_long xdr_long) v (word v).
Proof. intros. rewrite <- word_s32. by apply (sends_numeric _ u_long s32 u32 v cast_long_numeric). Qed.
Lemma takes_u_long v v0 : u_long v -> takes xdr_u_long (word v) v0 v.
Proof. intros Hv. rewrite <- (u32_small v Hv) at 2. rewrite <- u32_s32. apply (takes_numeric _ any s32 u32 v v0 u_long_numeric). Qed.
Lemma takes_enum v v0 : s_long v -> takes xdr_enum (word v) v0 v.
Proof. intros Hv. rewrite <- (s32_small v Hv) at 2. apply (takes_numeric _ any id id v v0 long_numeric). Qed.
Lemma takes_cast_long v v0 : u_long v -> takes (cast_long xdr_long) (word v) v0 v.
Proof. intros Hv. rewrite <- (u32_small v Hv) at 2. rewrite <- u32_s32. apply (takes_numeric _ u_long s32 u32 v v0 cast_long_numeric). Qed.
Lemma safe_u_long v0 : safe xdr_u_long v0 u_long.
Proof. apply (safe_numeric _ any s32 u32 v0 _ u_long_numeric). intros. apply u32_range. Qed.
Lemma safe_enum v0 : safe xdr_enum v0 s_long.
Proof. exact (safe_numeric _ any id id v0 _ long_numeric (fun l H => H)). Qed.
Lemma safe_cast_long v0 : safe (cast_long xdr_long) v0 u_long.
Proof. apply (safe_numeric _ u_long s32 u32 v0 _ cast_long_numeric). intros. apply u32_range. Qed.

(** *** Bytes *)

Lemma putbytes_spec s d r b c : stands s d r -> zlen b < 2 ^ 31 ->
  if zlen b <=? zlen r
  then exists s', x_putbytes s (b ++ c) (zlen b) = Ok (s', true) /\ stands s' (d ++ b) (drop (length b) r)
  else exists s', x_putbytes s (b ++ c) (zlen b) = Ok (s', false).
Proof.
  intros Hs Hn. pose proof (zlen_nonneg b). pose proof (zlen_nonneg c). destruct (Z.leb_spec (zlen b) (zlen r)).
  - destruct (zlen_split r (zlen b)) as (w & r' & -> & Hw); [lia|].
    replace (length b) with (Z.to_nat (zlen b)) by (unfold zlen; lia). rewrite (drop_zlen w r') by done.
    rewrite <- Hw. by apply (putbytes_ok s d w r' b c).
  - apply (putbytes_end s d r); [done|lia|rewrite zlen_app; lia].
Qed.

Lemma getbytes_spec s d r b n : stands s d r -> 0 <= n < 2 ^ 31 -> n <= zlen b ->
  if n <=? zlen r
  then exists w r' s', r = w ++ r' /\ zlen w = n /\
         x_getbytes s b n = Ok (s', w ++ drop (Z.to_nat n) b, true) /\ stands s' (d ++ w) r'
  else exists s' b', x_getbytes s b n = Ok (s', b', false).
Proof.
  intros Hs Hn Hb. destruct (Z.leb_spec n (zlen r)).
  - destruct (zlen_split r n) as (w & r' & -> & Hw); [lia|]. destruct (zlen_split b n) as (b1 & b2 & -> & Hb1); [lia|].
    rewrite drop_zlen by done. subst n. destruct (getbytes_ok s d w r' b1 b2 Hs Hb1) as (s' & E & S'). by exists w, r', s'.
  - apply (getbytes_end s d r); [done|lia|done].
Qed.

(** Bytes with what fills the last unit. *)
Definition wire_opaque (l : list Z) : list Z := l ++ replicate (Z.to_nat (rndup (zlen l))) 0.

Lemma zlen_wire_opaque l : zlen (wire_opaque l) = zlen l + rndup (zlen l).
Proof. unfold wire_opaque. rewrite zlen_app, zlen_replicate. pose proof (rndup_spec (zlen l)). lia. Qed.

Lemma at4_wire_opaque l : at4 (wire_opaque l).
Proof. unfold at4. rewrite zlen_wire_opaque. apply rndup_spec. Qed.

Lemma xdr_zero_split n : 0 <= n < 4 -> exists c, xdr_zero = replicate (Z.to_nat n) 0 ++ c.
Proof.
  intros. exists (replicate (4 - Z.to_nat n) 0). rewrite <- replicate_add.
  by replace (_ + _)%nat with 4%nat by lia.
Qed.

Lemma sends_opaque l c : zlen l < 2 ^ 31 -> sends (xdr_opaque (zlen l)) (l ++ c) (wire_opaque l).
Proof.
  intros Hl. split; [apply at4_wire_opaque|]. intros s d r Hs Hd. rewrite zlen_wire_opaque. unfold xdr_opaque.
  pose proof (rndup_spec (zlen l)) as [Hp Ha]. pose proof (zlen_nonneg r). pose proof (zlen_nonneg l).
  destruct (Z.eqb_spec (zlen l) 0) as [E0|E0].
  { rewrite E0 in *. change (rndup 0) with 0 in *. rewrite (proj2 (Z.leb_le _ _)) by lia.
    exists s. split; [done|]. assert (l = []) as -> by (apply zlen_le_nil; lia). by rewrite app_nil_r. }
  cbn [x_op]. unfold XDR_PUTBYTES. cbn [x_str]. pose proof (putbytes_spec s d r l c Hs Hl) as Hx.
  destruct (Z.leb_spec (zlen l) (zlen r)) as [L|L].
  2: { rewrite (proj2 (Z.leb_gt _ _)) by lia. destruct Hx as [s1 E1]. rewrite E1. cbn. by eexists. }
  destruct Hx as (s1 & E1 & S1). rewrite E1. cbn [obind fst snd negb].
  destruct (Z.eqb_spec (rndup (zlen l)) 0) as [Er|Er].
  { rewrite Er, Z.add_0_r, (proj2 (Z.leb_le _ _)) by lia. exists s1. split; [done|].
    unfold wire_opaque. by rewrite Er, app_nil_r. }
  destruct (xdr_zero_split (rndup (zlen l)) Hp) as [z Ez].
  assert (Ep : zlen (replicate (Z.to_nat (rndup (zlen l))) 0) = rndup (zlen l)) by (rewrite zlen_replicate; lia).
  set (pad := replicate _ 0) in *.
  change (x_str _) with s1. rewrite Ez. rewrite <- Ep.
  pose proof (putbytes_spec s1 _ _ pad z S1 ltac:(lia)) as Hy.
  assert (El : zlen (drop (length l) r) = zlen r - zlen l) by (unfold zlen in *; rewrite length_drop; lia).
  rewrite El in Hy. destruct (Z.leb_spec (zlen pad) (zlen r - zlen l)).
  - rewrite (proj2 (Z.leb_le _ _)) by lia. destruct Hy as (s2 & E2 & S2). rewrite E2. cbn. exists s2. split; [done|].
    unfold wire_opaque. fold pad. by rewrite length_app, app_assoc, <- drop_drop.
  - rewrite (proj2 (Z.leb_gt _ _)) by lia. destruct Hy as (s2 & E2). rewrite E2. cbn. by eexists.
Qed.

Lemma crud_long : zlen crud = 16.
Proof. done. Qed.

(** Reading [n] bytes and what fills the last unit. *)
Lemma get_opaque s d r b n : stands s d r -> at4 d -> 0 <= n < 2 ^ 31 -> n <= zlen b ->
  exists s' b' ok, xdr_opaque n (Xdr XDR_DECODE s) b = Ok (Xdr XDR_DECODE s', b', ok) /\
    (n + rndup n <= zlen r -> ok = true) /\
    (ok = true -> exists w pad r', r = w ++ pad ++ r' /\ zlen w = n /\ zlen pad = rndup n /\
      b' = w ++ drop (Z.to_nat n) b /\ stands s' (d ++ w ++ pad) r').
Proof.
  intros Hs Hd Hn Hb. unfold xdr_opaque. pose proof (rndup_spec n) as [Hp Ha].
  destruct (Z.eqb_spec n 0) as [->|E0].
  { exists s, b, true. split; [done|]. split; [done|]. intros _. exists [], [], r. by rewrite app_nil_r. }
  cbn [x_op]. unfold XDR_GETBYTES. cbn [x_str]. pose proof (getbytes_spec s d r b n Hs Hn Hb) as Hx.
  destruct (Z.leb_spec n (zlen r)) as [L|L].
  2: { destruct Hx as (s1 & b1 & E1). rewrite E1. cbn. eexists _, _, _. split; [done|]. split; [lia|done]. }
  destruct Hx as (w & r1 & s1 & -> & Hw & E1 & S1). rewrite E1. cbn [obind fst snd negb].
  destruct (Z.eqb_spec (rndup n) 0) as [Er|Er].
  { eexists _, _, _. split; [done|]. split; [done|]. intros _. exists w, [], r1. rewrite Er, !app_nil_r. done. }
  change (x_str _) with s1. pose proof (getbytes_spec s1 _ _ crud (rndup n) S1 ltac:(lia)) as Hy.
  rewrite crud_long in Hy. specialize (Hy ltac:(lia)). rewrite zlen_app.
  destruct (Z.leb_spec (rndup n) (zlen r1)).
  - destruct Hy as (pad & r2 & s2 & -> & Hpd & E2 & S2). rewrite E2. cbn. eexists _, _, _. split; [done|]. split; [done|].
    intros _. exists w, pad, r2. rewrite <- app_assoc in S2. done.
  - destruct Hy as (s2 & b2 & E2). rewrite E2. cbn. eexists _, _, _. split; [done|]. split; [lia|done].
Qed.

Lemma app_eq_zlen {A} (a b c d : list A) : a ++ b = c ++ d -> zlen a = zlen c -> a = c /\ b = d.
Proof. intros E El. apply app_inj_1; [unfold zlen in El; lia|done]. Qed.

Lemma takes_opaque_pad l pad b : zlen l <= zlen b -> zlen l < 2 ^ 31 -> zlen pad = rndup (zlen l) ->
  takes (xdr_opaque (zlen l)) (l ++ pad) b (l ++ drop (length l) b).
Proof.
  intros Hl Hb Hpad. pose proof (rndup_spec (zlen l)) as [Hp Ha]. split; [unfold at4; by rewrite zlen_app, Hpad|].
  intros s d r Hs Hd. pose proof (zlen_nonneg l). pose proof (zlen_nonneg r).
  destruct (get_opaque s d _ b (zlen l) Hs Hd ltac:(lia) Hl) as (s' & b' & ok & E & Hok & Hx).
  rewrite !zlen_app, Hpad in Hok. specialize (Hok ltac:(lia)). subst ok.
  destruct (Hx eq_refl) as (w & pad' & r' & Er & Hw & Hpd & -> & S').
  rewrite <- app_assoc in Er. apply app_eq_zlen in Er as [<- Er]; [|done].
  apply app_eq_zlen in Er as [<- <-]; [|by rewrite Hpad]. exists s'. split; [|done]. rewrite E. unfold zlen. by rewrite Nat2Z.id.
Qed.

Lemma takes_opaque l b : zlen l <= zlen b -> zlen l < 2 ^ 31 ->
  takes (xdr_opaque (zlen l)) (wire_opaque l) b (l ++ drop (length l) b).
Proof.
  intros Hl Hb. apply takes_opaque_pad; [done|done|]. rewrite zlen_replicate. pose proof (rndup_spec (zlen l)). lia.
Qed.

Lemma safe_opaque n b (Q : list Z -> Prop) : 0 <= n <= zlen b -> n < 2 ^ 31 ->
  (forall l, zlen l = n -> Q (l ++ drop (Z.to_nat n) b)) -> safe (xdr_opaque n) b Q.
Proof.
  intros Hn Hb HQ s d r Hs Hd. destruct (get_opaque s d r b n Hs Hd ltac:(lia) ltac:(lia)) as (s' & b' & ok & E & _ & Hx).
  exists s', b', ok. split; [done|]. intros Hok. destruct (Hx Hok) as (w & pad & r' & -> & Hw & Hpd & -> & S').
  split; [by apply HQ|]. exists (w ++ pad), r'. rewrite <- app_assoc. split; [done|]. split; [|done].
  unfold at4. rewrite zlen_app, Hw, Hpd. apply rndup_spec.
Qed.
End Spec.

(** ** Memory from the heap *)

(** [kmem_alloc] gives a block of the size asked for, and none of no bytes. *)
Class HeapOk `{Heap} : Prop := {
  heap_some n : 0 < n < 2 ^ 31 -> exists b, mem_alloc n = Some b /\ zlen b = n;
  heap_zero : mem_alloc 0 = None
}.

(** A null pointer, or memory for [n] bytes or elements. *)
Definition room {A} (p : option (list A)) (n : Z) : Prop := match p with None => True | Some b => n <= zlen b end.

(** What the pointer [p] shows when the bytes [l] have come; memory for them is
    taken when it is null. *)
Definition filled {A} (p : option (list A)) (l : list A) : option (list A) :=
  match p with
  | Some b => Some (l ++ drop (length l) b)
  | None => if zlen l =? 0 then None else Some l
  end.
Definition filled_string (p : option (list Z)) (l : list Z) : option (list Z) :=
  Some (l ++ 0 :: drop (S (length l)) (behind p)).

Lemma filled_room {A} (p : option (list A)) l : zlen l <= zlen (default [] (filled p l)).
Proof.
  unfold filled. destruct p as [b|]; cbn; [rewrite zlen_app; pose proof (zlen_nonneg (drop (length l) b)); lia|].
  destruct (Z.eqb_spec (zlen l) 0) as [->|]; cbn; [done|lia].
Qed.

(** Counted bytes. *)
Definition wire_bytes (l : list Z) : list Z := word (zlen l) ++ wire_opaque l.

(** The same, whatever fills the last unit. *)
Definition counted (l w : list Z) : Prop := exists pad, w = word (zlen l) ++ l ++ pad /\ zlen pad = rndup (zlen l).

(** Characters without a null. *)
Definition chars (l : list Z) : Prop := Forall (fun c => c <> 0) l.

Lemma at4_wire_bytes l : at4 (wire_bytes l).
Proof. apply at4_app; [done|apply at4_wire_opaque]. Qed.

Lemma count_small n : 0 <= n < 2 ^ 31 -> u32 (s32 n) = n.
Proof. intros. rewrite u32_s32. apply u32_small. lia. Qed.

Lemma wire_bytes_counted l : counted l (wire_bytes l).
Proof. eexists. split; [done|]. rewrite zlen_replicate. pose proof (rndup_spec (zlen l)). lia. Qed.

Lemma zlen_counted l w : counted l w -> zlen w = 4 + zlen l + rndup (zlen l).
Proof. intros (pad & -> & Hp). rewrite !zlen_app, zlen_word. lia. Qed.

Lemma at4_counted l w : counted l w -> at4 w.
Proof. intros H. unfold at4. rewrite (zlen_counted l w H). pose proof (rndup_spec (zlen l)). lia. Qed.

Section Out.
Context {S : Type} {ops : XdrOps S} {str : XdrStream S} {hp : Heap}.

(** *** What goes out *)

Lemma sends_opaque_at p l c : behind p = l ++ c -> zlen l < 2 ^ 31 -> sends (opaque_at (zlen l)) p (wire_opaque l).
Proof.
  intros Hp Hl. destruct (sends_opaque l c Hl) as [A1 H1]. split; [done|]. intros s d r Hs Hd. specialize (H1 s d r Hs Hd).
  assert (Ep : (fun _ => l ++ c) <$> p = p) by (rewrite <- Hp; by destruct p).
  unfold opaque_at. rewrite Hp.
  destruct (_ <=? _); destruct H1 as (s1 & E1); [destruct E1 as [E1 S1]|]; rewrite E1; cbn [obind fst snd]; rewrite Ep; eauto.
Qed.

Lemma sends_count n : 0 <= n < 2 ^ 32 -> sends xdr_u_int n (word n).
Proof. intros. rewrite <- word_s32. by apply (sends_numeric _ any s32 u32 n u_long_numeric). Qed.

Lemma sends_bytes max p l c : behind p = l ++ c -> zlen l <= max < 2 ^ 31 ->
  sends (xdr_bytes max) (p, zlen l) (wire_bytes l).
Proof.
  intros Hp Hl. pose proof (zlen_nonneg l).
  apply (sends_two _ _ _ _ _ _ _ _ (sends_count (zlen l) ltac:(lia)) (sends_opaque_at p l c Hp ltac:(lia))).
  - intros s s1 E. unfold xdr_bytes. by rewrite E.
  - intros s s1 s2 ok E1 E2. unfold xdr_bytes. rewrite E1. cbn [obind negb x_op].
    rewrite (proj2 (Z.ltb_ge _ _)) by lia. cbv iota. by rewrite E2.
Qed.

Lemma strlen_chars l c : chars l -> strlen (l ++ 0 :: c) = Ok (zlen l).
Proof.
  induction 1 as [|x l Hx _ IH]; [done|]. cbn [app strlen]. rewrite (proj2 (Z.eqb_neq _ _)) by done. rewrite IH.
  unfold zlen. cbn [obind length]. f_equal. lia.
Qed.

Lemma sends_string max p l c : behind p = l ++ 0 :: c -> chars l -> zlen l <= max < 2 ^ 31 ->
  sends (xdr_string max) p (wire_bytes l).
Proof.
  intros Hp Hc Hl. pose proof (zlen_nonneg l).
  apply (sends_two _ _ _ _ _ _ _ _ (sends_count (zlen l) ltac:(lia)) (sends_opaque_at p l _ Hp ltac:(lia))).
  - intros s s1 E. unfold xdr_string. cbn [x_op]. rewrite Hp, strlen_chars by done. cbn [obind]. by rewrite E.
  - intros s s1 s2 ok E1 E2. unfold xdr_string. cbn [x_op]. rewrite Hp, strlen_chars by done. cbn [obind].
    rewrite E1. cbn [obind negb x_op]. rewrite (proj2 (Z.ltb_ge _ _)) by lia. exact E2.
Qed.

(** *** [xdr_union] *)

(** The routine for a discriminant. *)
Definition arm {U} (choices : list (Z * xdrproc S U)) (dfault : option (xdrproc S U)) (dscm : Z) : option (xdrproc S U) :=
  match list_find (fun c => c.1 = dscm) choices with Some (_, c) => Some c.2 | None => dfault end.

Lemma sends_union {U} choices dfault d (u : U) p w : arm choices dfault d = Some p -> sends p u w ->
  sends (xdr_union choices dfault) (d, u) (word d ++ w).
Proof.
  intros Ha Hp. apply (sends_two _ _ _ _ _ _ _ _ (sends_numeric _ any id id d long_numeric I) Hp).
  - intros s s1 E. unfold xdr_union, xdr_enum. by rewrite E.
  - intros s s1 s2 ok E1 E2. unfold xdr_union, xdr_enum. rewrite E1. cbn [obind negb]. unfold arm in Ha.
    destruct (list_find _ _) as [[? ?]|]; [injection Ha as ->|rewrite Ha]; by rewrite E2.
Qed.

Lemma takes_union {U} choices dfault d d0 (u0 u : U) p w : s_long d -> arm choices dfault d = Some p -> takes p w u0 u ->
  takes (xdr_union choices dfault) (word d ++ w) (d0, u0) (d, u).
Proof.
  intros Hd Ha Hp. assert (Ht : takes xdr_long (word d) d0 d).
  { rewrite <- (s32_small d Hd) at 2. apply (takes_numeric _ any id id d d0 long_numeric). }
  apply (takes_two _ _ _ _ _ _ _ _ _ _ _ Ht Hp).
  intros s s1 s2 E1 E2. unfold xdr_union, xdr_enum. rewrite E1. cbn [obind negb]. unfold arm in Ha.
  destruct (list_find _ _) as [[? ?]|]; [injection Ha as ->|rewrite Ha]; by rewrite E2.
Qed.

Lemma safe_union {U} choices dfault d0 (u0 : U) (Q : Z * U -> Prop) :
  (forall d, s_long d -> match arm choices dfault d with
    | Some p => safe p u0 (fun u => Q (d, u)) | None => True end) ->
  safe (xdr_union choices dfault) (d0, u0) Q.
Proof.
  intros Hp. apply (safe_two xdr_long d0 s_long
    (fun d => match arm choices dfault d with Some p => p | None => fun x u => Ok (x, u, false) end)
    (fun _ => u0) (fun d u => Q (d, u)) _ _ pair).
  - apply (safe_numeric _ any id id); [apply long_numeric|done].
  - intros d Hd. specialize (Hp d Hd). destruct (arm _ _ _); [done|]. intros s d' r Hs _. by exists s, u0, false.
  - intros s s1 a1 E. unfold xdr_union, xdr_enum. rewrite E. cbn [obind negb]. by eexists.
  - intros s s1 s2 a1 b1 ok _ E1 E2. unfold xdr_union, xdr_enum. rewrite E1. cbn [obind negb]. unfold arm in E2.
    destruct (list_find _ _) as [[? ?]|]; [by rewrite E2|]. destruct dfault; [by rewrite E2|]. by injection E2 as <- <- <-.
  - done.
Qed.
End Out.

Section Counted.
Context {S : Type} {ops : XdrOps S} {str : XdrStream S} {hp : Heap} {hok : HeapOk}.
#[local] Set Default Proof Using "All".

Lemma opaque_decode_nil p n s : n = 0 -> opaque_at n (Xdr XDR_DECODE s) p = Ok (Xdr XDR_DECODE s, p, true).
Proof. intros ->. unfold opaque_at, xdr_opaque. cbn. by destruct p. Qed.

(** Reading a count. *)
Lemma get_u_int s d r v0 : stands s d r -> at4 d ->
  exists s' v ok, xdr_u_int (Xdr XDR_DECODE s) v0 = Ok (Xdr XDR_DECODE s', v, ok) /\
    (4 <= zlen r -> ok = true) /\
    (ok = true -> exists w r', r = w ++ r' /\ zlen w = 4 /\ v = u32 (unword w) /\ stands s' (d ++ w) r').
Proof.
  intros Hs Hd. destruct (u_long_numeric s v0) as (_ & E & E'). pose proof (get_spec s d r Hs Hd) as Hx.
  destruct (Z.leb_spec 4 (zlen r)); destruct Hx as (s1 & E1).
  - destruct E1 as [E1 S1]. eexists _, _, true. split; [by apply E|]. split; [done|]. intros _.
    exists (take 4 r), (drop 4 r). rewrite take_drop. split; [done|]. split; [|done].
    unfold zlen in *. rewrite length_take. lia.
  - destruct (E' _ E1) as [v' E2]. eexists _, _, false. split; [done|]. split; [lia|done].
Qed.

(** The bytes behind the count. *)
Lemma get_opaque_at s d r p n : stands s d r -> at4 d -> 0 <= n < 2 ^ 31 -> room p n ->
  exists s' p' ok, opaque_at n (Xdr XDR_DECODE s) (match p with None => mem_alloc n | _ => p end) =
      Ok (Xdr XDR_DECODE s', p', ok) /\
    (n + rndup n <= zlen r -> ok = true) /\
    (ok = true -> exists w pad r', r = w ++ pad ++ r' /\ zlen w = n /\ zlen pad = rndup n /\
      p' = filled p w /\ stands s' (d ++ w ++ pad) r').
Proof.
  intros Hs Hd Hn Hp. unfold opaque_at. destruct p as [b|].
  - cbn [behind default]. destruct (get_opaque s d r b n Hs Hd Hn Hp) as (s' & b' & ok & E & H1 & H2).
    unfold behind; cbn [default from_option id]. rewrite E. cbn. eexists _, _, ok. split; [done|]. split; [done|]. intros Hok.
    destruct (H2 Hok) as (w & pad & r' & -> & Hw & Hpd & -> & S'). exists w, pad, r'.
    repeat split; try done. unfold filled. by rewrite <- Hw; unfold zlen; rewrite Nat2Z.id.
  - destruct (decide (n = 0)) as [->|Hn0].
    + rewrite heap_zero. cbn. eexists _, _, true. split; [done|]. split; [done|]. intros _. exists [], [], r.
      by rewrite app_nil_r.
    + destruct (heap_some n) as (b & Eb & Hb); [lia|]. rewrite Eb.
      destruct (get_opaque s d r b n Hs Hd Hn ltac:(lia)) as (s' & b' & ok & E & H1 & H2).
      unfold behind; cbn [default from_option id]. rewrite E. cbn. eexists _, _, ok. split; [done|]. split; [done|]. intros Hok.
      destruct (H2 Hok) as (w & pad & r' & -> & Hw & Hpd & -> & S'). exists w, pad, r'.
      repeat split; try done. unfold filled. rewrite (proj2 (Z.eqb_neq _ _)) by lia.
      rewrite drop_ge, app_nil_r by (unfold zlen in *; lia). done.
Qed.

(** *** [xdr_bytes] *)

(** [q] reads a count of at most [max], the bytes and what fills their unit,
    and makes [fill] of them. *)
Definition reads {A} (q : xdrproc S A) (max : Z) (a0 : A) (fill : list Z -> A) : Prop := forall s d r,
  stands s d r -> at4 d ->
  exists s' a ok, q (Xdr XDR_DECODE s) a0 = Ok (Xdr XDR_DECODE s', a, ok) /\
    (forall l w r', counted l w -> r = w ++ r' -> zlen l <= max -> ok = true) /\
    (ok = true -> exists w l pad r', r = w ++ l ++ pad ++ r' /\ zlen w = 4 /\ zlen l <= max /\ zlen l = u32 (unword w) /\
      zlen pad = rndup (zlen l) /\ a = fill l /\ stands s' (d ++ w ++ l ++ pad) r').

Lemma takes_counted {A} (q : xdrproc S A) max a0 fill l w : reads q max a0 fill -> zlen l <= max < 2 ^ 31 -> counted l w ->
  takes q w a0 (fill l).
Proof.
  intros Hq Hl Hw. split; [by eapply at4_counted|]. intros s d r Hs Hd.
  destruct (Hq s d _ Hs Hd) as (s' & a & ok & E & H1 & H2).
  specialize (H1 l w r Hw eq_refl ltac:(lia)). subst ok. destruct Hw as (pad0 & -> & Hpd0).
  destruct (H2 eq_refl) as (w & l' & pad & r' & Er & Hw & Hl' & Hn & Hpd & -> & S').
  rewrite <- !app_assoc in Er. apply app_eq_zlen in Er as [Ew Er]; [|done].
  rewrite <- Ew, unword_word, count_small in Hn by (pose proof (zlen_nonneg l); lia).
  apply app_eq_zlen in Er as [<- Er]; [|lia]. apply app_eq_zlen in Er as [<- <-]; [|lia].
  exists s'. split; [done|]. by rewrite <- Ew in S'.
Qed.

Lemma safe_counted {A} (q : xdrproc S A) max a0 fill (Q : A -> Prop) : reads q max a0 fill ->
  (forall l, zlen l <= max -> Q (fill l)) -> safe q a0 Q.
Proof.
  intros Hq HQ s d r Hs Hd. destruct (Hq s d r Hs Hd) as (s' & a & ok & E & _ & H2).
  exists s', a, ok. split; [done|]. intros Hok. destruct (H2 Hok) as (w & l & pad & r' & -> & Hw & Hl & _ & Hpd & -> & S').
  split; [by apply HQ|]. exists (w ++ l ++ pad), r'. rewrite <- !app_assoc. split; [done|]. split; [|done].
  unfold at4. rewrite !zlen_app, Hw, Hpd. pose proof (rndup_spec (zlen l)). lia.
Qed.

Lemma get_bytes max p n0 : max < 2 ^ 31 -> room p max ->
  reads (xdr_bytes max) max (p, n0) (fun l => (filled p l, zlen l)).
Proof.
  intros Hmax Hp s d r Hs Hd. unfold xdr_bytes. destruct (get_u_int s d r n0 Hs Hd) as (s1 & n & ok & E & H1 & H2).
  rewrite E. cbn [obind]. destruct ok; cbn [negb].
  2: { eexists _, _, false. split; [done|]. split; [|done]. intros l w r' Hw -> _. apply H1.
       rewrite zlen_app, (zlen_counted l w Hw). pose proof (zlen_nonneg l). pose proof (zlen_nonneg r').
       pose proof (rndup_spec (zlen l)). lia. }
  destruct (H2 eq_refl) as (w & r1 & -> & Hw & -> & S1). cbn [x_op]. set (n := u32 (unword w)) in *.
  pose proof (u32_range (unword w) : 0 <= n < 2 ^ 32) as Hn.
  assert (Hcount : forall l w' r', counted l w' -> w ++ r1 = w' ++ r' -> zlen l <= max ->
    n = zlen l /\ zlen r1 = zlen l + rndup (zlen l) + zlen r').
  { intros l w' r' (pad & -> & Hpd) Er Hl. rewrite <- !app_assoc in Er. apply app_eq_zlen in Er as [Ew ->]; [|done].
    split; [|rewrite !zlen_app; lia]. unfold n. rewrite Ew, unword_word. apply count_small. pose proof (zlen_nonneg l). lia. }
  destruct (Z.ltb_spec max n).
  { eexists _, _, false. split; [done|]. split; [|done]. intros l w' r' Hw' Er Hl. destruct (Hcount l w' r' Hw' Er Hl). lia. }
  destruct (get_opaque_at s1 (d ++ w) r1 p n S1) as (s2 & p2 & ok2 & E2 & H3 & H4).
  { apply at4_app; [done|]. unfold at4. by rewrite Hw. }
  { lia. }
  { destruct p; cbn [room] in *; [lia|done]. }
  cbv iota.
  rewrite E2. cbn [obind fst snd]. eexists _, _, ok2. split; [done|]. split.
  - intros l w' r' Hw' Er Hl. destruct (Hcount l w' r' Hw' Er Hl) as [-> Hr1]. apply H3. pose proof (zlen_nonneg r'). lia.
  - intros ->. destruct (H4 eq_refl) as (l & pad & r' & -> & Hl & Hpd & -> & S2). rewrite <- Hl in *. exists w, l, pad, r'.
    rewrite <- !app_assoc in *. repeat split; done || lia.
Qed.

Lemma takes_bytes max p n0 l w : zlen l <= max < 2 ^ 31 -> room p max -> counted l w ->
  takes (xdr_bytes max) w (p, n0) (filled p l, zlen l).
Proof. intros Hl Hp. apply (takes_counted _ max _ (fun l => (filled p l, zlen l))); [|done]. apply get_bytes; [lia|done]. Qed.

Lemma safe_bytes max p n0 (Q : option (list Z) * Z -> Prop) : max < 2 ^ 31 -> room p max ->
  (forall l, zlen l <= max -> Q (filled p l, zlen l)) -> safe (xdr_bytes max) (p, n0) Q.
Proof. intros Hmax Hp. apply safe_counted. by apply get_bytes. Qed.

(** *** [xdr_string] *)

(** The block that a string of [n] characters is put in ends with a null. *)
Lemma string_block p n max : 0 <= n <= max -> max + 1 < 2 ^ 31 -> room p (max + 1) ->
  exists b, aset (behind (match p with None => mem_alloc (u32 (n + 1)) | _ => p end)) n 0 = Ok b /\ n < zlen b /\
    forall l, zlen l = n -> l ++ drop (length l) b = l ++ 0 :: drop (Datatypes.S (length l)) (behind p).
Proof.
  intros Hn Hmax Hp. assert (Hz : forall (l b : list Z), zlen l = n -> n < zlen b ->
    drop (length l) (<[Z.to_nat n:=0]> b) = 0 :: drop (Datatypes.S (length l)) b).
  { intros l b Hl Hb. replace (Z.to_nat n) with (length l) by (unfold zlen in *; lia).
    rewrite (drop_S _ 0 (length l)), drop_insert_lt; [done|lia|].
    apply list_lookup_insert_eq. unfold zlen in *. lia. }
  destruct p as [b|]; cbn [room] in *.
  - cbn [behind default from_option id]. rewrite aset_ok by (fold (zlen b); lia). eexists. split; [done|].
    unfold zlen in *. rewrite length_insert. split; [lia|]. intros l Hl. f_equal. apply Hz; [done|lia].
  - rewrite u32_small by lia. destruct (heap_some (n + 1)) as (b & -> & Hb); [lia|].
    cbn [behind default from_option id]. rewrite aset_ok by (fold (zlen b); lia). eexists. split; [done|].
    unfold zlen in *. rewrite length_insert. split; [lia|]. intros l Hl. f_equal. rewrite Hz by lia.
    rewrite drop_ge by lia. by rewrite drop_nil.
Qed.

Lemma get_string max p : max + 1 < 2 ^ 31 -> room p (max + 1) -> reads (xdr_string max) max p (filled_string p).
Proof.
  intros Hmax Hp s d r Hs Hd. unfold xdr_string. cbn [x_op obind]. destruct (get_u_int s d r 0 Hs Hd) as (s1 & n & ok & E & H1 & H2).
  rewrite E. cbn [obind]. destruct ok; cbn [negb].
  2: { eexists _, _, false. split; [done|]. split; [|done]. intros l w r' Hw -> _. apply H1.
       rewrite zlen_app, (zlen_counted l w Hw). pose proof (zlen_nonneg l). pose proof (zlen_nonneg r').
       pose proof (rndup_spec (zlen l)). lia. }
  destruct (H2 eq_refl) as (w & r1 & -> & Hw & -> & S1). cbn [x_op]. set (n := u32 (unword w)) in *.
  pose proof (u32_range (unword w) : 0 <= n < 2 ^ 32) as Hn.
  assert (Hcount : forall l w' r', counted l w' -> w ++ r1 = w' ++ r' -> zlen l <= max ->
    n = zlen l /\ zlen r1 = zlen l + rndup (zlen l) + zlen r').
  { intros l w' r' (pad & -> & Hpd) Er Hl. rewrite <- !app_assoc in Er. apply app_eq_zlen in Er as [Ew ->]; [|done].
    split; [|rewrite !zlen_app; lia]. unfold n. rewrite Ew, unword_word. apply count_small. pose proof (zlen_nonneg l). lia. }
  destruct (Z.ltb_spec max n).
  { eexists _, _, false. split; [done|]. split; [|done]. intros l w' r' Hw' Er Hl. destruct (Hcount l w' r' Hw' Er Hl). lia. }
  destruct (string_block p n max) as (b & Eb & Hb & Hfill); [lia|lia|done|]. rewrite Eb. cbn [obind].
  destruct (get_opaque s1 (d ++ w) r1 b n S1) as (s2 & b2 & ok2 & E2 & H3 & H4); [|lia|lia|].
  { apply at4_app; [done|]. unfold at4. by rewrite Hw. }
  unfold opaque_at. unfold behind at 1; cbn [default from_option id]. rewrite E2. cbn [obind fst snd].
  eexists _, _, ok2. split; [done|]. split.
  - intros l w' r' Hw' Er Hl. destruct (Hcount l w' r' Hw' Er Hl) as [-> Hr1]. apply H3. pose proof (zlen_nonneg r'). lia.
  - intros ->. destruct (H4 eq_refl) as (l & pad & r' & -> & Hl & Hpd & -> & S2). exists w, l, pad, r'.
    rewrite <- !app_assoc in *. rewrite Hl. repeat split; try done. cbn. unfold filled_string. rewrite <- Hfill by done.
    by rewrite <- Hl; unfold zlen; rewrite Nat2Z.id.
Qed.

Lemma takes_string max p l : zlen l <= max -> max + 1 < 2 ^ 31 -> room p (max + 1) ->
  takes (xdr_string max) (wire_bytes l) p (filled_string p l).
Proof. intros Hl Hmax Hp. apply (takes_counted _ max); [by apply get_string|lia|apply wire_bytes_counted]. Qed.

Lemma safe_string max p (Q : option (list Z) -> Prop) : max + 1 < 2 ^ 31 -> room p (max + 1) ->
  (forall l, zlen l <= max -> Q (filled_string p l)) -> safe (xdr_string max) p Q.
Proof. intros Hmax Hp. apply safe_counted. by apply get_string. Qed.

(** *** [xdr_array] *)

Section Array.
Context {A : Type} (el : xdrproc S A) (we : A -> list Z).

Definition wire_array (l : list A) : list Z := word (zlen l) ++ concat (we <$> l).

Lemma array_loop_nil x (t : list A) : array_loop el x t 0 = Ok (x, t, true).
Proof using Type. by destruct t. Qed.

Lemma sends_array_loop l c : Forall (fun a => sends el a (we a)) l ->
  sends (fun x t => array_loop el x t (zlen l)) (l ++ c) (concat (we <$> l)).
Proof using Type.
  induction 1 as [|a l Ha _ IH].
  { split; [done|]. intros s d r Hs Hd. change (zlen (concat _)) with 0. rewrite (proj2 (Z.leb_le _ _)) by apply zlen_nonneg.
    rewrite array_loop_nil. exists s. by rewrite app_nil_r. }
  cbn [fmap list_fmap concat]. pose proof (zlen_nonneg l).
  apply (sends_two _ _ _ _ _ _ _ _ Ha IH).
  - intros s s1 E. rewrite zlen_cons. cbn [app array_loop]. rewrite (proj2 (Z.eqb_neq _ _)) by lia. by rewrite E.
  - intros s s1 s2 ok E1 E2. rewrite zlen_cons. cbn [app array_loop]. rewrite (proj2 (Z.eqb_neq _ _)) by lia.
    rewrite E1. cbn [obind fst snd]. rewrite Z.add_simpl_r. by rewrite E2.
Qed.

Lemma takes_array_loop l t : zlen l <= zlen t -> Forall (fun a => forall a0, takes el (we a) a0 a) l ->
  takes (fun x t => array_loop el x t (zlen l)) (concat (we <$> l)) t (l ++ drop (length l) t).
Proof using Type.
  intros Hl H. revert t Hl. induction H as [|a l Ha _ IH]; intros t Hl.
  { split; [done|]. intros s d r Hs Hd. change (zlen []) with 0. rewrite array_loop_nil. exists s. by rewrite app_nil_r. }
  rewrite zlen_cons in *. pose proof (zlen_nonneg l). destruct t as [|a0 t]; [unfold zlen in Hl; cbn in Hl; lia|].
  rewrite zlen_cons in Hl. specialize (IH t ltac:(lia)).
  apply (takes_two _ _ _ _ _ _ _ _ _ _ _ (Ha a0) IH).
  intros s s1 s2 E1 E2. cbn [array_loop]. rewrite (proj2 (Z.eqb_neq _ _)) by lia.
  rewrite E1. cbn [obind fst snd]. rewrite Z.add_simpl_r. by rewrite E2.
Qed.

Lemma safe_array_loop (Qe : A -> Prop) n t : (forall a0, safe el a0 Qe) -> 0 <= n <= zlen t ->
  safe (fun x t => array_loop el x t n) t (fun t' => exists l, zlen l = n /\ t' = l ++ drop (length l) t /\ Forall Qe l).
Proof using A S el ops str we.
  intros He. revert n. induction t as [|a0 t IH]; intros n Hn.
  { change (zlen []) with 0 in Hn. replace n with 0 by lia. intros s d r Hs Hd. cbn. exists s, [], true. split; [done|].
    intros _. split; [by exists []|]. exists [], r. by rewrite app_nil_r. }
  rewrite zlen_cons in Hn. destruct (decide (n = 0)) as [->|Hn0].
  { intros s d r Hs Hd. cbn. exists s, (a0 :: t), true. split; [done|]. intros _. split; [by exists []|].
    exists [], r. by rewrite app_nil_r. }
  apply (safe_two el a0 Qe (fun _ x t => array_loop el x t (n - 1)) (fun _ => t)
    (fun _ t' => exists l, zlen l = n - 1 /\ t' = l ++ drop (length l) t /\ Forall Qe l) _ _ cons).
  - apply He.
  - intros a _. apply IH. lia.
  - intros s s1 a1 E. cbn [array_loop]. rewrite (proj2 (Z.eqb_neq _ _)) by done. rewrite E. by eexists.
  - intros s s1 s2 a1 b1 ok _ E1 E2. cbn [array_loop]. rewrite (proj2 (Z.eqb_neq _ _)) by done.
    rewrite E1. cbn [obind fst snd]. by rewrite E2.
  - intros a b Ha (l & Hl & -> & Hf). exists (a :: l). rewrite zlen_cons. split; [lia|]. split; [done|by constructor].
Qed.

Context (maxsize elsize : Z) (zero : A).

Lemma sends_array p l c : default [] p = l ++ c -> zlen l <= maxsize < 2 ^ 31 -> Forall (fun a => sends el a (we a)) l ->
  sends (xdr_array maxsize elsize zero el) (p, zlen l) (wire_array l).
Proof using Type.
  intros Hp Hl He. pose proof (zlen_nonneg l).
  apply (sends_two _ _ _ _ _ _ _ _ (sends_count (zlen l) ltac:(lia)) (sends_array_loop l c He)).
  - intros s s1 E. unfold xdr_array. by rewrite E.
  - intros s s1 s2 ok E1 E2. unfold xdr_array. rewrite E1. cbn [obind negb x_op].
    rewrite (proj2 (Z.ltb_ge _ _)) by lia. cbn [andb]. rewrite Hp, E2. cbn [obind fst snd]. rewrite <- Hp. by destruct p.
Qed.

Lemma array_memory n : 0 < n -> 0 < elsize -> n * elsize < 2 ^ 31 ->
  exists t, array_alloc zero elsize (u32 (n * elsize)) = Some t /\ zlen t = n.
Proof.
  intros. rewrite u32_small by nia. unfold array_alloc. destruct (heap_some (n * elsize)) as (b & -> & Hb); [nia|].
  eexists. split; [done|]. rewrite Hb, Z.div_mul, zlen_replicate by lia. lia.
Qed.

Lemma get_count_u (v0 : Z) : safe xdr_u_int v0 (fun v => 0 <= v < 2 ^ 32).
Proof. apply (safe_numeric _ any s32 u32 v0 _ u_long_numeric). intros. apply u32_range. Qed.

Lemma takes_count n v0 : 0 <= n < 2 ^ 31 -> takes xdr_u_int (word n) v0 n.
Proof. intros. rewrite <- (count_small n) at 2 by done. apply (takes_numeric _ any s32 u32 n v0 u_long_numeric). Qed.

Lemma takes_array p n0 l : 0 < elsize -> maxsize * elsize < 2 ^ 31 -> zlen l <= maxsize < 2 ^ 31 -> room p maxsize ->
  Forall (fun a => forall a0, takes el (we a) a0 a) l ->
  takes (xdr_array maxsize elsize zero el) (wire_array l) (p, n0) (filled p l, zlen l).
Proof.
  intros Hes Hmem Hl Hp He. pose proof (zlen_nonneg l). destruct p as [t|].
  - cbn [room] in Hp.
    apply (takes_two _ _ _ _ _ _ _ _ _ _ _ (takes_count (zlen l) n0 ltac:(lia)) (takes_array_loop l t ltac:(lia) He)).
    intros s s1 s2 E1 E2. unfold xdr_array. rewrite E1. cbn [obind negb x_op].
    rewrite (proj2 (Z.ltb_ge _ _)) by lia. cbn [andb]. by rewrite E2.
  - destruct (decide (zlen l = 0)) as [E0|Hl0].
    + unfold wire_array. assert (l = []) as -> by (apply zlen_le_nil; lia).
      apply (takes_two _ _ _ _ _ _ _ _ _ _ _ (takes_count 0 n0 ltac:(lia)) (takes_void tt)).
      intros s s1 s2 E1 [= <-]. unfold xdr_array. rewrite E1. cbn [obind negb x_op].
      rewrite (proj2 (Z.ltb_ge _ _)) by lia. done.
    + destruct (array_memory (zlen l)) as (t & Et & Ht); [lia|done|nia|].
      apply (takes_two _ _ _ _ _ _ _ _ _ _ _ (takes_count (zlen l) n0 ltac:(lia)) (takes_array_loop l t ltac:(lia) He)).
      intros s s1 s2 E1 E2. unfold xdr_array. rewrite E1. cbn [obind negb x_op].
      rewrite (proj2 (Z.ltb_ge _ _)) by lia. cbn [andb]. rewrite (proj2 (Z.eqb_neq _ _)) by done. rewrite Et. cbn [deref obind].
      rewrite E2. cbn [obind fst snd]. unfold filled. rewrite (proj2 (Z.eqb_neq _ _)) by done.
      by rewrite drop_ge, app_nil_r by (unfold zlen in *; lia).
Qed.

Lemma safe_array (Qe : A -> Prop) p n0 (Q : option (list A) * Z -> Prop) :
  0 < elsize -> maxsize * elsize < 2 ^ 31 -> maxsize < 2 ^ 31 -> room p maxsize ->
  (forall a0, safe el a0 Qe) -> (forall l, zlen l <= maxsize -> Forall Qe l -> Q (filled p l, zlen l)) ->
  safe (xdr_array maxsize elsize zero el) (p, n0) Q.
Proof.
  intros Hes Hmem Hmax Hp He HQ.
  pose (target := fun n : Z => match p with Some t => t | None => default [] (array_alloc zero elsize (u32 (n * elsize))) end).
  apply (safe_two xdr_u_int n0 (fun n => 0 <= n < 2 ^ 32)
    (fun n x t => if maxsize <? n then Ok (x, t, false) else array_loop el x t n) target
    (fun n t' => n <= maxsize /\ exists l, zlen l = n /\ t' = l ++ drop (length l) (target n) /\ Forall Qe l) _ _
    (fun n t' => (if maxsize <? n then p else match p with None => if n =? 0 then None else Some t' | _ => Some t' end, n))).
  - apply get_count_u.
  - intros n Hn. destruct (Z.ltb_spec maxsize n).
    + intros s d r _ _. by eexists _, _, false.
    + assert (Ht : n <= zlen (target n)).
      { unfold target. destruct p as [t|]; cbn [room] in Hp; [lia|]. destruct (decide (n = 0)) as [->|]; [apply zlen_nonneg|].
        destruct (array_memory n) as (t & -> & E); [lia|done|nia|]. cbn. lia. }
      eapply safe_mono; [apply (safe_array_loop Qe n (target n) He); lia|]. by intros t' Ht'.
  - intros s s1 a1 E. unfold xdr_array. rewrite E. cbn [obind negb]. by eexists.
  - intros s s1 s2 n t' ok Hn E1 E2. unfold xdr_array. rewrite E1. cbn [obind negb x_op].
    destruct (Z.ltb_spec maxsize n); cbn [andb]; [by injection E2 as <- <- <-|].
    unfold target in E2. destruct p as [t|]; [by rewrite E2|]. destruct (Z.eqb_spec n 0) as [->|].
    { rewrite array_loop_nil in E2. by injection E2 as <- <- <-. }
    destruct (array_memory n) as (t & Et & E); [lia|done|nia|]. rewrite Et in *. cbn [default from_option id deref obind] in *.
    by rewrite E2.
  - intros n t' Hn (Hm & l & Hl & -> & Hf). rewrite (proj2 (Z.ltb_ge _ _)) by done.
    specialize (HQ l ltac:(lia) Hf). rewrite Hl in HQ. unfold filled in HQ. unfold target. destruct p as [t|]; [done|].
    rewrite Hl in HQ. destruct (Z.eqb_spec n 0) as [E0|E0]; [done|].
    destruct (array_memory n) as (t & Et & E); [lia|done|nia|]. rewrite Et. cbn [default from_option id].
    by rewrite drop_ge, app_nil_r by (unfold zlen in *; lia).
Qed.
End Array.
End Counted.

(** The routines for single members. *)
Create HintDb xdr.
#[export] Hint Resolve sends_u_long sends_enum sends_cast_long takes_u_long takes_enum takes_cast_long
  safe_u_long safe_enum safe_cast_long : xdr.
