(* ===== verification/XdrMem.v ===== *)
(** * XDR on a memory buffer: [sys/rpc/xdr_mem.c]

    Addresses are counted from [x_base]; they do not wrap around. *)
From S2P Require Import Prelude Mbuf In Xdr XdrSpec.

(** ** The stream *)

Record xdrmem := Xdrmem { xm_buf : list Z; xm_private : Z; xm_handy : Z }.
#[export] Instance settable_xdrmem : Settable xdrmem := fun s => Xdrmem (xm_buf s) (xm_private s) (xm_handy s).

Definition xdrmem_create (addr : list Z) (size : Z) (op : xdr_op) : XDR xdrmem := Xdr op (Xdrmem addr 0 (s32 size)).

(** [(xdrs->x_handy -= n) < 0] is tested first. *)
Definition xdrmem_use (s : xdrmem) (n : Z) : xdrmem * bool :=
  let s := s <| xm_handy := s32 (xm_handy s - n) |> in (s, 0 <=? xm_handy s).

Definition xdrmem_getlong (s : xdrmem) : outcome (xdrmem * option Z) :=
  let '(s, ok) := xdrmem_use s 4 in
  if negb ok then Ok (s, None) else
  let* b := bytes_at (xm_buf s) (xm_private s) 4 in
  Ok (s <| xm_private := xm_private s + 4 |>, Some (unword b)).

Definition xdrmem_putlong (s : xdrmem) (l : Z) : outcome (xdrmem * bool) :=
  let '(s, ok) := xdrmem_use s 4 in
  if negb ok then Ok (s, false) else
  let* buf := bcopy_to (xm_buf s) (xm_private s) (word l) in
  Ok (s <| xm_buf := buf |> <| xm_private := xm_private s + 4 |>, true).

Definition xdrmem_getbytes (s : xdrmem) (addr : list Z) (len : Z) : outcome (xdrmem * list Z * bool) :=
  let '(s, ok) := xdrmem_use s len in
  if negb ok then Ok (s, addr, false) else
  let* b := bytes_at (xm_buf s) (xm_private s) len in
  let* addr := bcopy_to addr 0 b in
  Ok (s <| xm_private := xm_private s + len |>, addr, true).

Definition xdrmem_putbytes (s : xdrmem) (addr : list Z) (len : Z) : outcome (xdrmem * bool) :=
  let '(s, ok) := xdrmem_use s len in
  if negb ok then Ok (s, false) else
  let* b := bytes_at addr 0 len in
  let* buf := bcopy_to (xm_buf s) (xm_private s) b in
  Ok (s <| xm_buf := buf |> <| xm_private := xm_private s + len |>, true).

Definition xdrmem_getpos (s : xdrmem) : Z := u32 (xm_private s).

Definition xdrmem_setpos (s : xdrmem) (pos : Z) : xdrmem * bool :=
  let lastaddr := xm_private s + xm_handy s in
  if lastaddr <? pos then (s, false)
  else (s <| xm_private := pos |> <| xm_handy := s32 (lastaddr - pos) |>, true).

Definition xdrmem_inline (s : xdrmem) (len : Z) : xdrmem * option Z :=
  if len <=? xm_handy s
  then (s <| xm_handy := s32 (xm_handy s - len) |> <| xm_private := xm_private s + len |>, Some (xm_private s))
  else (s, None).

#[export] Instance xdrmem_ops : XdrOps xdrmem := {
  x_getlong := xdrmem_getlong;
  x_putlong := xdrmem_putlong;
  x_getbytes := xdrmem_getbytes;
  x_putbytes := xdrmem_putbytes;
  x_getpostn s := Ok (xdrmem_getpos s);
  x_setpostn s pos := Ok (xdrmem_setpos s pos);
  x_inline := xdrmem_inline;
  x_load s p n := bytes_at (xm_buf s) p n;
  x_store s p b := let* buf := bcopy_to (xm_buf s) p b in Ok (s <| xm_buf := buf |>)
}.

(** ** It keeps the promises of a stream *)

Definition mem_window (s : xdrmem) (p : Z) (d w r : list Z) : Prop :=
  exists t, xm_buf s = d ++ w ++ r ++ t /\ p = zlen d /\ xm_private s = zlen d + zlen w /\ xm_handy s = zlen r /\
    zlen (xm_buf s) < 2 ^ 31.
Definition mem_stands (s : xdrmem) (d r : list Z) : Prop := mem_window s (zlen d) d [] r.

Lemma mem_bound s d r : mem_stands s d r -> 0 <= zlen r < 2 ^ 31 /\ 0 <= zlen d.
Proof.
  intros (t & E & _ & _ & _ & Hb). rewrite E in Hb. cbn [app] in Hb. rewrite !zlen_app in Hb.
  pose proof (zlen_nonneg d). pose proof (zlen_nonneg r). pose proof (zlen_nonneg t). lia.
Qed.

(** What is before the stream is used: [n] bytes of it, or it comes up short. *)
Lemma mem_use s d w r n : mem_stands s d (w ++ r) -> zlen w = n ->
  exists s', xdrmem_use s n = (s', true) /\ xm_private s' = zlen d /\ xm_buf s' = xm_buf s /\
    exists t, xm_buf s = d ++ w ++ r ++ t /\ xm_handy s' = zlen r /\ zlen (xm_buf s) < 2 ^ 31.
Proof.
  intros Hs Hn. pose proof (mem_bound _ _ _ Hs) as [Hb _]. destruct Hs as (t & E & _ & Ep & Eh & Hl).
  rewrite zlen_app in *. pose proof (zlen_nonneg w). pose proof (zlen_nonneg r).
  unfold xdrmem_use. cbn. rewrite Eh, s32_small by lia. replace (zlen w + zlen r - n) with (zlen r) by lia.
  rewrite (proj2 (Z.leb_le _ _)) by lia. eexists. split; [done|]. cbn. split; [rewrite Ep; change (zlen []) with 0; lia|]. split; [done|].
  exists t. cbn [app] in E. by rewrite <- app_assoc in E.
Qed.

Lemma mem_short s d r n : mem_stands s d r -> zlen r < n < 2 ^ 31 -> exists s', xdrmem_use s n = (s', false).
Proof.
  intros Hs Hn. pose proof (mem_bound _ _ _ Hs) as [Hb _]. destruct Hs as (t & E & _ & Ep & Eh & Hl).
  unfold xdrmem_use. cbn. rewrite Eh, s32_small by lia. rewrite (proj2 (Z.leb_gt _ _)) by lia. by eexists.
Qed.

(** The stream after [w] has been replaced by [b]. *)
Lemma mem_after s d w r b t : zlen b = zlen w -> xm_buf s = d ++ b ++ r ++ t -> xm_private s = zlen d + zlen w ->
  xm_handy s = zlen r -> zlen (d ++ w ++ r ++ t) < 2 ^ 31 -> mem_stands s (d ++ b) r.
Proof.
  intros Eb E Ep Eh Hl. exists t. rewrite E, zlen_app. cbn [app]. rewrite <- app_assoc. change (zlen []) with 0.
  split; [done|]. split; [done|]. split; [lia|]. split; [done|]. rewrite !zlen_app in *. lia.
Qed.

#[export] Instance xdrmem_stream : XdrStream xdrmem.
Proof.
  refine {| stands := mem_stands; window := mem_window |}; cbn [x_getlong x_putlong x_getbytes x_putbytes x_getpostn x_inline x_load x_store xdrmem_ops].
  - intros s d w r Hs Hd Hw. destruct (mem_use s d w r 4 Hs Hw) as (s1 & E & Ep & Ebuf & t & Eb & Eh & Hl).
    unfold xdrmem_getlong. rewrite E. cbn [negb]. rewrite Ep, Ebuf, Eb, <- Hw, bytes_at_ok. cbn [obind].
    eexists. split; [done|]. apply (mem_after _ d w r w t); cbn; rewrite ?Ebuf; try done; by rewrite <- Eb.
  - intros s d r Hs Hd Hr. destruct (mem_short s d r 4 Hs ltac:(lia)) as [s1 E]. unfold xdrmem_getlong. rewrite E. by eexists.
  - intros s d w r v Hs Hd Hw. destruct (mem_use s d w r 4 Hs Hw) as (s1 & E & Ep & Ebuf & t & Eb & Eh & Hl).
    unfold xdrmem_putlong. rewrite E. cbn [negb]. rewrite Ep, Ebuf, Eb, bcopy_to_ok by done. cbn [obind].
    eexists. split; [done|]. apply (mem_after _ d w r (word v) t); cbn; try done; [by rewrite Hw|by rewrite <- Eb].
  - intros s d r v Hs Hd Hr. destruct (mem_short s d r 4 Hs ltac:(lia)) as [s1 E]. unfold xdrmem_putlong. rewrite E. by eexists.
  - intros s d w r b c Hs Hb. destruct (mem_use s d w r _ Hs eq_refl) as (s1 & E & Ep & Ebuf & t & Eb & Eh & Hl).
    unfold xdrmem_getbytes. rewrite E. cbn [negb]. rewrite Ep, Ebuf, Eb, bytes_at_ok. cbn [obind].
    pose proof (bcopy_to_ok [] b c w Hb) as Ec. cbn [app] in Ec. change (zlen []) with 0 in Ec. rewrite Ec. cbn [obind].
    eexists. split; [done|]. apply (mem_after _ d w r w t); cbn; rewrite ?Ebuf; try done. by rewrite <- Eb.
  - intros s d r b n Hs Hn Hb. destruct (mem_short s d r n Hs Hn) as [s1 E]. unfold xdrmem_getbytes. rewrite E. by eexists _, _.
  - intros s d w r b c Hs Hb. destruct (mem_use s d w r _ Hs eq_refl) as (s1 & E & Ep & Ebuf & t & Eb & Eh & Hl).
    unfold xdrmem_putbytes. rewrite E. cbn [negb]. rewrite <- Hb.
    pose proof (bytes_at_ok [] b c) as Ec. cbn [app] in Ec. change (zlen []) with 0 in Ec. rewrite Ec. cbn [obind].
    rewrite Ep, Ebuf, Eb, bcopy_to_ok by done. cbn [obind].
    eexists. split; [done|]. apply (mem_after _ d w r b t); cbn; try done; [by rewrite Hb|by rewrite <- Eb].
  - intros s d r b n Hs Hn Hb. destruct (mem_short s d r n Hs Hn) as [s1 E]. unfold xdrmem_putbytes. rewrite E. by eexists.
  - intros s d r n Hs Hn. pose proof (mem_bound _ _ _ Hs) as [Hr _]. destruct Hs as (t & E & _ & Ep & Eh & Hl).
    unfold xdrmem_inline. rewrite Eh, Ep. change (zlen []) with 0. rewrite Z.add_0_r.
    destruct (Z.leb_spec n (zlen r)); [right|by left]. destruct (zlen_split r n) as (w & r' & -> & Hw); [lia|].
    rewrite zlen_app. eexists _, _, w, r'. split; [done|]. split; [done|]. split; [done|]. exists t. cbn.
    cbn [app] in E. rewrite <- app_assoc in E. rewrite E in *. rewrite zlen_app in Hr. pose proof (zlen_nonneg w). pose proof (zlen_nonneg r').
    rewrite s32_small by lia. repeat split; lia || done.
  - intros s p d w r (t & E & Ep & Epr & Eh & Hl). exists t. cbn [app]. rewrite <- app_assoc, zlen_app. change (zlen []) with 0.
    rewrite Z.add_0_r. by repeat split.
  - intros s p d a b c r (t & E & -> & Epr & Eh & Hl). rewrite E. rewrite <- zlen_app, <- !app_assoc, app_assoc. apply bytes_at_ok.
  - intros s p d a b c r b' (t & E & -> & Epr & Eh & Hl) Hb. rewrite E. rewrite <- zlen_app, <- !app_assoc, app_assoc.
    rewrite bcopy_to_ok by done. cbn [obind]. eexists. split; [done|]. exists t. cbn. rewrite <- !app_assoc, !zlen_app in *.
    split; [done|]. split; [done|]. split; [lia|]. split; [done|]. rewrite E in Hl. rewrite !zlen_app in *. lia.
  - intros s d r _. by eexists.
  - intros s d r Hs. pose proof (mem_bound _ _ _ Hs). lia.
Defined.

#[export] Instance xdrmem_counts : XdrCounts xdrmem.
Proof.
  intros s d r (t & _ & _ & E & _). unfold x_getpostn, xdrmem_ops, xdrmem_getpos. rewrite E. change (zlen []) with 0. by rewrite Z.add_0_r.
Qed.

(** A new stream over a buffer. *)
Lemma xdrmem_create_stands buf size op : 0 <= size <= zlen buf -> zlen buf < 2 ^ 31 ->
  stands (x_str (xdrmem_create buf size op)) [] (take (Z.to_nat size) buf).
Proof.
  intros. change (mem_stands (Xdrmem buf 0 (s32 size)) [] (take (Z.to_nat size) buf)).
  exists (drop (Z.to_nat size) buf). cbn. rewrite take_drop, s32_small by lia. repeat split; try done.
  unfold zlen in *. rewrite length_take. lia.
Qed.
