(* ===== verification/XdrMbuf.v ===== *)
(** * XDR on a chain of mbufs: [sys/rpc/xdr_mbuf.c]

    The handle holds the mbuf it works on with those before and behind it; an
    address is an offset in the data of that mbuf.  Bytes beyond [m_len] are not
    data: reading or writing there is a [Fault]. *)
From S2P Require Import Prelude Mbuf In Xdr XdrSpec.
#[local] Ltac Zify.zify_post_hook ::= Z.to_euclidean_division_equations.

(** ** The stream *)

(** [xb_base]: [x_base] is not null; it is [xb_cur]. *)
Record xdrmbuf := Xdrmbuf {
  xb_passed : chain; xb_cur : mbuf; xb_next : chain; xb_base : bool; xb_private : Z; xb_handy : Z
}.
#[export] Instance settable_xdrmbuf : Settable xdrmbuf := fun s =>
  Xdrmbuf (xb_passed s) (xb_cur s) (xb_next s) (xb_base s) (xb_private s) (xb_handy s).

Definition xdrmbuf_init (m : mbuf) (next : chain) (op : xdr_op) : XDR xdrmbuf :=
  Xdr op (Xdrmbuf [] m next true 0 (m_len m)).

(** The whole chain. *)
Definition xdrmbuf_chain (s : xdrmbuf) : chain := xb_passed s ++ xb_cur s :: xb_next s.

(** On to the next mbuf, of which [used] bytes are taken; a null pointer at the
    end of the chain. *)
Definition xdrmbuf_advance (s : xdrmbuf) (used : Z) : xdrmbuf * bool :=
  if xb_base s then
    match xb_next s with
    | [] => (s <| xb_base := false |>, false)
    | m :: next => (Xdrmbuf (xb_passed s ++ [xb_cur s]) m next true 0 (s32 (m_len m - used)), true)
    end
  else (s, false).

(** Room for a long: if need be in the next mbuf. *)
Definition xdrmbuf_long (s : xdrmbuf) : xdrmbuf * bool :=
  let s := s <| xb_handy := s32 (xb_handy s - 4) |> in
  if xb_handy s <? 0 then xdrmbuf_advance s 4 else (s, true).

Definition set_data (s : xdrmbuf) (l : list Z) : xdrmbuf :=
  s <| xb_cur := Mbuf (m_loc (xb_cur s)) (m_type (xb_cur s)) l |>.

Definition xdrmbuf_getlong (s : xdrmbuf) : outcome (xdrmbuf * option Z) :=
  let '(s, ok) := xdrmbuf_long s in
  if negb ok then Ok (s, None) else
  let* b := bytes_at (m_dat (xb_cur s)) (xb_private s) 4 in
  Ok (s <| xb_private := xb_private s + 4 |>, Some (unword b)).

Definition xdrmbuf_putlong (s : xdrmbuf) (l : Z) : outcome (xdrmbuf * bool) :=
  let '(s, ok) := xdrmbuf_long s in
  if negb ok then Ok (s, false) else
  let* dat := bcopy_to (m_dat (xb_cur s)) (xb_private s) (word l) in
  Ok ((set_data s dat) <| xb_private := xb_private s + 4 |>, true).

(** The loop over the mbufs [next] behind the current one; [off] is how far
    [addr] has moved. *)
Fixpoint getbytes_loop (next : chain) (s : xdrmbuf) (addr : list Z) (off len : Z) : outcome (xdrmbuf * list Z * bool) :=
  let handy := s32 (xb_handy s - len) in
  if handy <? 0 then
    let handy := s32 (handy + len) in
    let s := s <| xb_handy := handy |> in
    let* r := if 0 <? handy then
                let* b := bytes_at (m_dat (xb_cur s)) (xb_private s) handy in
                let* addr := bcopy_to addr off b in Ok (addr, off + handy, u32 (len - handy))
              else Ok (addr, off, len) in
    let '(addr, off, len) := r in
    match xdrmbuf_advance s 0, next with
    | (s, true), _ :: next => getbytes_loop next s addr off len
    | (s, _), _ => Ok (s, addr, false)
    end
  else
    let* b := bytes_at (m_dat (xb_cur s)) (xb_private s) len in
    let* addr := bcopy_to addr off b in
    Ok (s <| xb_handy := handy |> <| xb_private := xb_private s + len |>, addr, true).

Definition xdrmbuf_getbytes (s : xdrmbuf) (addr : list Z) (len : Z) : outcome (xdrmbuf * list Z * bool) :=
  getbytes_loop (xb_next s) s addr 0 len.

Fixpoint putbytes_loop (next : chain) (s : xdrmbuf) (addr : list Z) (off len : Z) : outcome (xdrmbuf * bool) :=
  let handy := s32 (xb_handy s - len) in
  if handy <? 0 then
    let handy := s32 (handy + len) in
    let s := s <| xb_handy := handy |> in
    let* r := if 0 <? handy then
                let* b := bytes_at addr off handy in
                let* dat := bcopy_to (m_dat (xb_cur s)) (xb_private s) b in
                Ok (set_data s dat, off + handy, u32 (len - handy))
              else Ok (s, off, len) in
    let '(s, off, len) := r in
    match xdrmbuf_advance s 0, next with
    | (s, true), _ :: next => putbytes_loop next s addr off len
    | (s, _), _ => Ok (s, false)
    end
  else
    let* b := bytes_at addr off len in
    let* dat := bcopy_to (m_dat (xb_cur s)) (xb_private s) b in
    Ok ((set_data s dat) <| xb_handy := handy |> <| xb_private := xb_private s + len |>, true).

Definition xdrmbuf_putbytes (s : xdrmbuf) (addr : list Z) (len : Z) : outcome (xdrmbuf * bool) :=
  putbytes_loop (xb_next s) s addr 0 len.

(** The address of the mbuf is that of its data. *)
Definition xdrmbuf_getpos (s : xdrmbuf) : outcome Z :=
  if xb_base s then Ok (u32 (xb_private s)) else Fault.

Definition xdrmbuf_setpos (s : xdrmbuf) (pos : Z) : outcome (xdrmbuf * bool) :=
  if xb_base s then
    let lastaddr := xb_private s + xb_handy s in
    if lastaddr <? pos then Ok (s, false)
    else Ok (s <| xb_private := pos |> <| xb_handy := s32 (lastaddr - pos) |>, true)
  else Fault.

Definition xdrmbuf_inline (s : xdrmbuf) (len : Z) : xdrmbuf * option Z :=
  if len <=? xb_handy s
  then (s <| xb_handy := s32 (xb_handy s - len) |> <| xb_private := xb_private s + len |>, Some (xb_private s))
  else (s, None).

#[export] Instance xdrmbuf_ops : XdrOps xdrmbuf := {
  x_getlong := xdrmbuf_getlong;
  x_putlong := xdrmbuf_putlong;
  x_getbytes := xdrmbuf_getbytes;
  x_putbytes := xdrmbuf_putbytes;
  x_getpostn := xdrmbuf_getpos;
  x_setpostn := xdrmbuf_setpos;
  x_inline := xdrmbuf_inline;
  x_load s p n := bytes_at (m_dat (xb_cur s)) p n;
  x_store s p b := let* dat := bcopy_to (m_dat (xb_cur s)) p b in Ok (set_data s dat)
}.

(** ** It keeps the promises of a stream *)

(** The mbufs behind the current one are not empty, and hold whole units but for
    the last. *)
Fixpoint well_cut (c : chain) : Prop :=
  match c with
  | [] => True
  | [m] => 4 <= m_len m
  | m :: c => 4 <= m_len m /\ m_len m mod 4 = 0 /\ well_cut c
  end.

(** The bytes [w] lie at the address [p] of the current mbuf, [d] before them in
    the chain and [r] behind them; [x_private] is [k] bytes further and [x_handy]
    counts what is behind [w]. *)
Record mbuf_view (s : xdrmbuf) (p k : Z) (d w r d0 r0 : list Z) : Prop := {
  view_dat : m_dat (xb_cur s) = d0 ++ w ++ r0;
  view_before : d = chain_data (xb_passed s) ++ d0;
  view_behind : r = r0 ++ chain_data (xb_next s);
  view_addr : p = zlen d0;
  view_private : xb_private s = zlen d0 + k;
  view_handy : xb_handy s = zlen r0;
  view_base : xb_base s = true;
  view_units : xb_next s <> [] -> (zlen d + zlen w + zlen r0) mod 4 = 0;
  view_cut : well_cut (xb_next s);
  view_bound : zlen d + zlen w + zlen r < 2 ^ 31
}.

Definition mbuf_window (s : xdrmbuf) (p : Z) (d w r : list Z) : Prop := exists d0 r0, mbuf_view s p (zlen w) d w r d0 r0.
Definition mbuf_ready (s : xdrmbuf) (d w r : list Z) : Prop := exists p d0 r0, mbuf_view s p 0 d w r d0 r0.
Definition mbuf_stands (s : xdrmbuf) (d r : list Z) : Prop := mbuf_ready s d [] r.


Ltac zsimp := rewrite ?zlen_app in *; change (zlen (@nil Z)) with 0 in *.

(** *** With the bytes at [x_private] *)

Lemma ready_load s d w r : mbuf_ready s d w r -> bytes_at (m_dat (xb_cur s)) (xb_private s) (zlen w) = Ok w.
Proof. intros (p & d0 & r0 & V). rewrite (view_dat _ _ _ _ _ _ _ _ V), (view_private _ _ _ _ _ _ _ _ V), Z.add_0_r. apply bytes_at_ok. Qed.

Lemma ready_store s d w r b : mbuf_ready s d w r -> zlen b = zlen w ->
  exists dat, bcopy_to (m_dat (xb_cur s)) (xb_private s) b = Ok dat /\ mbuf_ready (set_data s dat) d b r.
Proof.
  intros (p & d0 & r0 & [E1 E2 E3 E4 E5 E6 E7 E8 E9 E10]) Eb. rewrite E1, E5, Z.add_0_r, bcopy_to_ok by done.
  eexists. split; [done|]. exists p, d0, r0. constructor; try done; cbn; rewrite ?Eb; done || (rewrite E5; lia).
Qed.

Lemma ready_pass s d w r : mbuf_ready s d w r ->
  exists p, mbuf_window (s <| xb_private := xb_private s + zlen w |>) p d w r.
Proof.
  intros (p & d0 & r0 & [E1 E2 E3 E4 E5 E6 E7 E8 E9 E10]). exists p, d0, r0. constructor; try done. cbn. lia.
Qed.

Lemma window_to_stands s p d w r : mbuf_window s p d w r -> mbuf_stands s (d ++ w) r.
Proof.
  intros (d0 & r0 & [E1 E2 E3 E4 E5 E6 E7 E8 E9 E10]). exists (zlen (d0 ++ w)), (d0 ++ w), r0.
  constructor; try done; zsimp; cbn [app]; rewrite <- ?app_assoc; try done; [by rewrite E2, <- app_assoc|lia| |lia].
  intros Hn. specialize (E8 Hn). by rewrite Z.add_0_r.
Qed.

Lemma ready_past s d w r : mbuf_ready s d w r -> mbuf_stands (s <| xb_private := xb_private s + zlen w |>) (d ++ w) r.
Proof. intros H. destruct (ready_pass s d w r H) as [p Hw]. by eapply window_to_stands. Qed.

(** *** Taking bytes *)

(** Enough of them in the current mbuf. *)
Lemma use_here s p k d r d0 r0 w r0' n : mbuf_view s p k d [] r d0 r0 -> k = 0 -> r0 = w ++ r0' -> zlen w = n ->
  s32 (xb_handy s - n) = zlen r0' /\
  mbuf_ready (s <| xb_handy := s32 (xb_handy s - n) |>) d w (r0' ++ chain_data (xb_next s)).
Proof.
  intros [E1 E2 E3 E4 E5 E6 E7 E8 E9 E10] -> -> Hn.
  assert (Eh : s32 (xb_handy s - n) = zlen r0').
  { rewrite E6, zlen_app, s32_small; [lia|]. rewrite E3 in E10. zsimp. pose proof (zlen_nonneg w). pose proof (zlen_nonneg r0').
    pose proof (zlen_nonneg d). pose proof (zlen_nonneg (chain_data (xb_next s))). lia. }
  split; [done|]. exists p, d0, r0'. constructor; try done.
  - intros Hne. specialize (E8 Hne). zsimp. cbn in *. rewrite <- E8. f_equal. lia.
  - rewrite E3 in E10. zsimp. lia.
Qed.

(** None left here: the next mbuf. *)
Lemma advance_ok s p k d r d0 m next : mbuf_view s p k d [] r d0 [] -> xb_next s = m :: next ->
  exists s', xdrmbuf_advance s 0 = (s', true) /\ xb_next s' = next /\
    mbuf_view s' 0 0 d [] r [] (m_dat m) /\ 
    (forall n, 0 <= n <= m_len m -> xdrmbuf_advance s n = (s' <| xb_handy := m_len m - n |>, true)).
Proof.
  intros [E1 E2 E3 E4 E5 E6 E7 E8 E9 E10] En. unfold xdrmbuf_advance. rewrite E7, En.
  cbn [app] in E3. rewrite En in E3, E8, E9. pose proof (E8 ltac:(done)) as Hal.
  assert (Hm : 0 <= m_len m < 2 ^ 31).
  { rewrite E3, chain_data_cons in E10. zsimp. unfold m_len. pose proof (zlen_nonneg d). pose proof (zlen_nonneg (m_dat m)).
    pose proof (zlen_nonneg (chain_data next)). lia. }
  eexists. split; [done|]. split; [done|]. split.
  - constructor; try done; cbn.
    + by rewrite chain_data_app, E2, app_nil_r, chain_data_cons, E1, !app_nil_r.
    + by rewrite Z.sub_0_r, s32_small by lia.
    + intros Hne. destruct next as [|m' next]; [done|]. destruct E9 as (_ & Hm4 & _). zsimp. unfold m_len in *.
      lia.
    + destruct next; [done|]. apply E9.
  - intros n Hn. cbn. by rewrite s32_small by lia.
Qed.

Lemma long_ok s d w r : mbuf_stands s d (w ++ r) -> at4 d -> zlen w = 4 ->
  exists s', xdrmbuf_long s = (s', true) /\ mbuf_ready s' d w r.
Proof.
  intros (p & d0 & r0 & V) Hd Hw. unfold xdrmbuf_long, at4 in *. cbn. pose proof (zlen_nonneg r0).
  destruct (Z.lt_ge_cases (zlen r0) 4) as [Hlt|Hge].
  - pose proof V as [E1 E2 E3 E4 E5 E6 E7 E8 E9 E10]. destruct (xb_next s) as [|m next] eqn:En.
    { apply (f_equal zlen) in E3. cbn in E3. rewrite app_nil_r, zlen_app in E3. pose proof (zlen_nonneg r). lia. }
    specialize (E8 ltac:(done)). change (zlen []) with 0 in E8. assert (r0 = []) as -> by (apply zlen_le_nil; lia).
    destruct (advance_ok s p 0 d _ d0 m next V En) as (s1 & Ea & En1 & V1 & Hadv).
    assert (Hm : 4 <= m_len m) by (destruct next; cbn in E9; lia).
    rewrite E6, s32_small by (cbn; lia). cbn [zlen length Z.of_nat]. rewrite (proj2 (Z.ltb_lt _ _)) by lia.
    unfold xdrmbuf_advance. cbn. rewrite E7, En. eexists. split; [done|].
    specialize (Hadv 4 ltac:(lia)). unfold xdrmbuf_advance in Hadv, Ea. rewrite E7, En in Hadv, Ea.
    apply (f_equal fst) in Hadv, Ea. cbn [fst] in Hadv, Ea. destruct (zlen_split (m_dat m) 4) as (w' & r0' & Em & Hw'); [unfold m_len in Hm; lia|].
    pose proof (view_behind _ _ _ _ _ _ _ _ V1) as Er. rewrite Em, <- app_assoc in Er.
    apply app_eq_zlen in Er as [<- ->]; [|lia].
    assert (Ec : xb_cur s1 = m) by (by rewrite <- Ea).
    destruct (use_here s1 0 0 d _ [] (m_dat m) w r0' 4 V1 eq_refl Em Hw) as [Eh Hr].
    rewrite Hadv. replace (m_len m - 4) with (s32 (xb_handy s1 - 4)); [exact Hr|].
    rewrite Eh. unfold m_len. rewrite Em, zlen_app. lia.
  - destruct (zlen_split r0 4) as (w' & r0' & E0 & Hw'); [lia|]. 
    destruct (use_here s p 0 d _ d0 r0 w' r0' 4 V eq_refl E0 Hw') as [Eh Hr].
    pose proof (view_behind _ _ _ _ _ _ _ _ V) as E3. rewrite E0, <- app_assoc in E3.
    apply app_eq_zlen in E3 as [<- ->]; [|lia].
    pose proof (zlen_nonneg r0'). rewrite Eh, (proj2 (Z.ltb_ge _ _)) by lia. rewrite Eh in Hr. by eexists.
Qed.

(** The chain ends before [n] bytes. *)
Lemma stands_end s d r n : mbuf_stands s d r -> zlen r < n -> 
  exists p d0 r0, mbuf_view s p 0 d [] r d0 r0 /\ zlen r0 < n.
Proof.
  intros (p & d0 & r0 & V) Hn. exists p, d0, r0. split; [done|]. rewrite (view_behind _ _ _ _ _ _ _ _ V), zlen_app in Hn.
  pose proof (zlen_nonneg (chain_data (xb_next s))). lia.
Qed.

Lemma long_end s d r : mbuf_stands s d r -> at4 d -> zlen r < 4 -> exists s', xdrmbuf_long s = (s', false).
Proof.
  intros Hs Hd Hr. destruct (stands_end s d r 4 Hs Hr) as (p & d0 & r0 & [E1 E2 E3 E4 E5 E6 E7 E8 E9 E10] & H0).
  pose proof (zlen_nonneg r0). unfold xdrmbuf_long. cbn. rewrite E6, s32_small, (proj2 (Z.ltb_lt _ _)) by lia.
  unfold xdrmbuf_advance. cbn. rewrite E7. destruct (xb_next s) as [|m next]; [by eexists|].
  exfalso. rewrite E3, chain_data_cons, !zlen_app in Hr. pose proof (zlen_nonneg (chain_data next)).
  assert (4 <= m_len m) by (destruct next; cbn in E9; lia). unfold m_len in *. lia.
Qed.

(** *** The loops *)

Lemma handy_back h n : 0 <= h < 2 ^ 31 -> 0 <= n < 2 ^ 31 -> s32 (h - n) = h - n /\ s32 (h - n + n) = h.
Proof. intros. split; rewrite s32_small; lia. Qed.

Lemma same_handy s : s <| xb_handy := xb_handy s |> = s.
Proof. by destruct s. Qed.

(** The rest of the current mbuf has been used, or overwritten by [dat]: the
    stream goes on in the next one. *)
Lemma go_on s p d r d0 r0 m next dat : mbuf_view s p 0 d [] r d0 r0 -> xb_next s = m :: next -> zlen dat = zlen r0 ->
  exists s', xdrmbuf_advance (set_data s (d0 ++ dat)) 0 = (s', true) /\ xb_next s' = next /\
    mbuf_stands s' (d ++ dat) (chain_data (m :: next)).
Proof.
  intros V En Hdat. pose proof V as [E1 E2 E3 E4 E5 E6 E7 E8 E9 E10].
  assert (V' : mbuf_view ((set_data s (d0 ++ dat)) <| xb_private := zlen (d0 ++ dat) |> <| xb_handy := 0 |>)
    (zlen (d0 ++ dat)) 0 (d ++ dat) [] (chain_data (m :: next)) (d0 ++ dat) []).
  { constructor; cbn [xb_cur xb_passed xb_next xb_private xb_handy xb_base set_field set_data m_dat]; rewrite ?app_nil_r; try done.
    - by rewrite E2, <- app_assoc.
    - cbn. by rewrite En.
    - lia.
    - intros Hne. specialize (E8 Hne). rewrite zlen_app in *. change (zlen []) with 0 in *. rewrite <- E8. f_equal. lia.
    - rewrite E3, En in E10. rewrite !zlen_app in *. change (zlen []) with 0 in *. lia. }
  destruct (advance_ok _ _ _ _ _ _ m next V' En) as (s1 & Ea & En1 & V1 & _).
  exists s1. split; [|split; [done|by exists 0, [], (m_dat m)]].
  unfold xdrmbuf_advance in *. cbn in *. by rewrite E7, En in *.
Qed.

(** More bytes are wanted than the current mbuf has. *)
Lemma exhaust s p d w r d0 r0 : mbuf_view s p 0 d [] (w ++ r) d0 r0 -> zlen r0 < zlen w ->
  exists w' m next, w = r0 ++ w' /\ xb_next s = m :: next /\ w' ++ r = chain_data (m :: next).
Proof.
  intros V Hlt. pose proof (view_behind _ _ _ _ _ _ _ _ V) as E3.
  destruct (zlen_split w (zlen r0)) as (a & w' & -> & Ha); [pose proof (zlen_nonneg r0); lia|].
  rewrite <- app_assoc in E3. apply app_eq_zlen in E3 as [-> E3]; [|done]. rewrite zlen_app in Hlt.
  destruct (xb_next s) as [|m next] eqn:En; [|by exists w', m, next].
  apply (f_equal zlen) in E3. rewrite zlen_app in E3. change (zlen (chain_data [])) with 0 in E3. pose proof (zlen_nonneg r). lia.
Qed.

(** The sizes are those of memory. *)
Lemma view_sizes s p d r d0 r0 : mbuf_view s p 0 d [] r d0 r0 -> 0 <= zlen r0 <= zlen r /\ 0 <= zlen r < 2 ^ 31.
Proof.
  intros [E1 E2 E3 E4 E5 E6 E7 E8 E9 E10]. change (zlen []) with 0 in E10. rewrite E3, zlen_app in *.
  pose proof (zlen_nonneg r0). pose proof (zlen_nonneg d). pose proof (zlen_nonneg (chain_data (xb_next s))). lia.
Qed.

Lemma set_same_data s : set_data s (m_dat (xb_cur s)) = s.
Proof. by destruct s as [? [] ? ? ? ?]. Qed.

(** What the loops do with the rest [r0] of the current mbuf. *)
Lemma get_rest s p d r d0 r0 pre b c len : mbuf_view s p 0 d [] r d0 r0 -> zlen b = zlen r0 -> zlen r0 <= len < 2 ^ 31 ->
  (if 0 <? zlen r0 then
     let* x := bytes_at (m_dat (xb_cur s)) (xb_private s) (zlen r0) in
     let* addr := bcopy_to (pre ++ b ++ c) (zlen pre) x in Ok (addr, zlen pre + zlen r0, u32 (len - zlen r0))
   else Ok (pre ++ b ++ c, zlen pre, len)) = Ok ((pre ++ r0) ++ c, zlen (pre ++ r0), len - zlen r0).
Proof.
  intros [E1 E2 E3 E4 E5 E6 E7 E8 E9 E10] Hb Hl. rewrite zlen_app, <- app_assoc. destruct (Z.ltb_spec 0 (zlen r0)).
  - rewrite E1, E5, Z.add_0_r. cbn [app]. pose proof (bytes_at_ok d0 r0 []) as Eb. rewrite app_nil_r in Eb. rewrite Eb.
    cbn [obind]. rewrite bcopy_to_ok by done. cbn [obind]. by rewrite u32_small by lia.
  - assert (r0 = []) as -> by (apply zlen_le_nil; lia). assert (b = []) as -> by (apply zlen_le_nil; rewrite Hb; cbn; lia).
    change (zlen []) with 0. by rewrite Z.add_0_r, Z.sub_0_r.
Qed.

Lemma put_rest s p d r d0 r0 pre b c len : mbuf_view s p 0 d [] r d0 r0 -> zlen b = zlen r0 -> zlen r0 <= len < 2 ^ 31 ->
  (if 0 <? zlen r0 then
     let* x := bytes_at (pre ++ b ++ c) (zlen pre) (zlen r0) in
     let* dat := bcopy_to (m_dat (xb_cur s)) (xb_private s) x in Ok (set_data s dat, zlen pre + zlen r0, u32 (len - zlen r0))
   else Ok (s, zlen pre, len)) = Ok (set_data s (d0 ++ b), zlen (pre ++ b), len - zlen r0).
Proof.
  intros [E1 E2 E3 E4 E5 E6 E7 E8 E9 E10] Hb Hl. rewrite zlen_app. destruct (Z.ltb_spec 0 (zlen r0)).
  - rewrite E1, E5, Z.add_0_r, <- Hb, bytes_at_ok. cbn [app obind]. pose proof (bcopy_to_ok d0 r0 [] b (eq_sym Hb)) as Eb.
    rewrite !app_nil_r in Eb. rewrite Eb. cbn [obind]. by rewrite u32_small by lia.
  - assert (r0 = []) as -> by (apply zlen_le_nil; lia). assert (b = []) as -> by (apply zlen_le_nil; rewrite Hb; cbn; lia).
    change (zlen []) with 0. rewrite Z.add_0_r, Z.sub_0_r. cbn [app] in *. by rewrite <- E1, set_same_data.
Qed.

Lemma keep_handy s p d r d0 r0 : mbuf_view s p 0 d [] r d0 r0 -> s <| xb_handy := zlen r0 |> = s.
Proof. intros V. rewrite <- (view_handy _ _ _ _ _ _ _ _ V). apply same_handy. Qed.

Lemma same_rest s p d r d0 r0 : mbuf_view s p 0 d [] r d0 r0 -> set_data s (d0 ++ r0) = s.
Proof. intros V. rewrite <- (set_same_data s) at 2. by rewrite (view_dat _ _ _ _ _ _ _ _ V). Qed.

Lemma getbytes_loop_ok next : forall s d w r pre b c, xb_next s = next -> mbuf_stands s d (w ++ r) -> zlen b = zlen w ->
  exists s', getbytes_loop next s (pre ++ b ++ c) (zlen pre) (zlen w) = Ok (s', pre ++ w ++ c, true) /\ mbuf_stands s' (d ++ w) r.
Proof.
  induction next as [|m next IH]; intros s d w r pre b c En (p & d0 & r0 & V) Hb.
  all: pose proof (view_handy _ _ _ _ _ _ _ _ V) as Eh; destruct (view_sizes _ _ _ _ _ _ V) as [Hr0 Hwr];
    pose proof (zlen_nonneg w); pose proof (zlen_nonneg r); rewrite zlen_app in *.
  all: destruct (handy_back (zlen r0) (zlen w) ltac:(lia) ltac:(lia)) as [Es1 Es2]; cbn [getbytes_loop]; rewrite Eh, Es1;
    destruct (Z.ltb_spec (zlen r0 - zlen w) 0) as [Hlt|Hge].
  1: { destruct (exhaust s p d w r d0 r0 V ltac:(lia)) as (? & ? & ? & _ & Hne & _). congruence. }
  2: { destruct (exhaust s p d w r d0 r0 V ltac:(lia)) as (w' & m' & next' & -> & Hne & Er).
       rewrite En in Hne. injection Hne as <- <-. rewrite Es2, zlen_app in *. pose proof (zlen_nonneg w').
       destruct (zlen_split b (zlen r0)) as (b0 & b' & -> & Hb0); [lia|]. rewrite zlen_app in Hb.
       rewrite (keep_handy _ _ _ _ _ _ V), <- (app_assoc b0), (get_rest s p d _ d0 r0 pre b0 _ _ V) by lia. cbn [obind].
       destruct (go_on _ _ _ _ _ _ m next r0 V En eq_refl) as (s1 & Ea & En1 & S1). rewrite (same_rest _ _ _ _ _ _ V) in Ea.
       rewrite Ea. rewrite <- Er in S1. replace (zlen r0 + zlen w' - zlen r0) with (zlen w') by lia.
       destruct (IH s1 (d ++ r0) w' r (pre ++ r0) b' c En1 S1 ltac:(lia)) as (s2 & E2 & S2).
       exists s2. rewrite E2, <- !app_assoc. split; [done|]. by rewrite <- app_assoc in S2. }
  all: destruct (zlen_split r0 (zlen w)) as (w' & r0' & E0 & Hw'); [lia|];
    destruct (use_here s p 0 d _ d0 r0 w' r0' (zlen w) V eq_refl E0 Hw') as [Eh' Hrd];
    pose proof (view_behind _ _ _ _ _ _ _ _ V) as Er; rewrite E0, <- app_assoc in Er; apply app_eq_zlen in Er as [<- ->]; [|done];
    rewrite Eh, Es1 in Hrd; pose proof (ready_load _ _ _ _ Hrd) as El; cbn in El; rewrite El; cbn [obind];
    rewrite bcopy_to_ok by done; cbn [obind]; eexists; (split; [done|]); exact (ready_past _ _ _ _ Hrd).
Qed.

Lemma putbytes_loop_ok next : forall s d w r pre b c, xb_next s = next -> mbuf_stands s d (w ++ r) -> zlen b = zlen w ->
  exists s', putbytes_loop next s (pre ++ b ++ c) (zlen pre) (zlen w) = Ok (s', true) /\ mbuf_stands s' (d ++ b) r.
Proof.
  induction next as [|m next IH]; intros s d w r pre b c En (p & d0 & r0 & V) Hb.
  all: pose proof (view_handy _ _ _ _ _ _ _ _ V) as Eh; destruct (view_sizes _ _ _ _ _ _ V) as [Hr0 Hwr];
    pose proof (zlen_nonneg w); pose proof (zlen_nonneg r); rewrite zlen_app in *.
  all: destruct (handy_back (zlen r0) (zlen w) ltac:(lia) ltac:(lia)) as [Es1 Es2]; cbn [putbytes_loop]; rewrite Eh, Es1;
    destruct (Z.ltb_spec (zlen r0 - zlen w) 0) as [Hlt|Hge].
  1: { destruct (exhaust s p d w r d0 r0 V ltac:(lia)) as (? & ? & ? & _ & Hne & _). congruence. }
  2: { destruct (exhaust s p d w r d0 r0 V ltac:(lia)) as (w' & m' & next' & -> & Hne & Er).
       rewrite En in Hne. injection Hne as <- <-. rewrite Es2, zlen_app in *. pose proof (zlen_nonneg w').
       destruct (zlen_split b (zlen r0)) as (b0 & b' & -> & Hb0); [lia|]. rewrite zlen_app in Hb.
       rewrite (keep_handy _ _ _ _ _ _ V), <- (app_assoc b0), (put_rest s p d _ d0 r0 pre b0 _ _ V) by lia. cbn [obind].
       destruct (go_on _ _ _ _ _ _ m next b0 V En Hb0) as (s1 & Ea & En1 & S1).
       rewrite Ea. rewrite <- Er in S1. replace (zlen r0 + zlen w' - zlen r0) with (zlen w') by lia.
       destruct (IH s1 (d ++ b0) w' r (pre ++ b0) b' c En1 S1 ltac:(lia)) as (s2 & E2 & S2).
       rewrite <- !app_assoc in E2. exists s2. rewrite E2. split; [done|]. by rewrite <- app_assoc in S2. }
  all: destruct (zlen_split r0 (zlen w)) as (w' & r0' & E0 & Hw'); [lia|];
    destruct (use_here s p 0 d _ d0 r0 w' r0' (zlen w) V eq_refl E0 Hw') as [Eh' Hrd];
    pose proof (view_behind _ _ _ _ _ _ _ _ V) as Er; rewrite E0, <- app_assoc in Er; apply app_eq_zlen in Er as [<- ->]; [|done];
    rewrite Eh, Es1 in Hrd; destruct (ready_store _ _ _ _ b Hrd Hb) as (dat & Ed & Hst); cbn in Ed;
    rewrite <- Hb, bytes_at_ok; cbn [obind]; rewrite Ed; cbn [obind]; eexists; (split; [done|]);
    pose proof (ready_past _ _ _ _ Hst) as Hp; rewrite Hb in *; exact Hp.
Qed.

(** The chain ends first. *)
Lemma getbytes_loop_end next : forall s d r pre b len, xb_next s = next -> mbuf_stands s d r ->
  zlen r < len < 2 ^ 31 -> len <= zlen b ->
  exists s' a, getbytes_loop next s (pre ++ b) (zlen pre) len = Ok (s', a, false).
Proof.
  induction next as [|m next IH]; intros s d r pre b len En (p & d0 & r0 & V) Hlen Hb.
  all: pose proof (view_handy _ _ _ _ _ _ _ _ V) as Eh; destruct (view_sizes _ _ _ _ _ _ V) as [Hr0 Hr].
  all: destruct (handy_back (zlen r0) len ltac:(lia) ltac:(lia)) as [Es1 Es2]; cbn [getbytes_loop]; rewrite Eh, Es1;
    rewrite (proj2 (Z.ltb_lt _ _)) by lia; rewrite Es2, (keep_handy _ _ _ _ _ _ V).
  all: destruct (zlen_split b (zlen r0)) as (b0 & b' & -> & Hb0); [lia|]; rewrite zlen_app in Hb;
    rewrite (get_rest s p d _ d0 r0 pre b0 _ _ V) by lia; cbn [obind].
  - unfold xdrmbuf_advance. rewrite (view_base _ _ _ _ _ _ _ _ V), En. by eexists _, _.
  - destruct (go_on _ _ _ _ _ _ m next r0 V En eq_refl) as (s1 & Ea & En1 & S1). rewrite (same_rest _ _ _ _ _ _ V) in Ea.
    rewrite Ea. apply (IH s1 (d ++ r0) (chain_data (m :: next)) (pre ++ r0) b'); [done|done| |lia].
    rewrite (view_behind _ _ _ _ _ _ _ _ V), zlen_app, En in Hlen. pose proof (zlen_nonneg r0). lia.
Qed.

Lemma putbytes_loop_end next : forall s d r pre b len, xb_next s = next -> mbuf_stands s d r ->
  zlen r < len < 2 ^ 31 -> len <= zlen b ->
  exists s', putbytes_loop next s (pre ++ b) (zlen pre) len = Ok (s', false).
Proof.
  induction next as [|m next IH]; intros s d r pre b len En (p & d0 & r0 & V) Hlen Hb.
  all: pose proof (view_handy _ _ _ _ _ _ _ _ V) as Eh; destruct (view_sizes _ _ _ _ _ _ V) as [Hr0 Hr].
  all: destruct (handy_back (zlen r0) len ltac:(lia) ltac:(lia)) as [Es1 Es2]; cbn [putbytes_loop]; rewrite Eh, Es1;
    rewrite (proj2 (Z.ltb_lt _ _)) by lia; rewrite Es2, (keep_handy _ _ _ _ _ _ V).
  all: destruct (zlen_split b (zlen r0)) as (b0 & b' & -> & Hb0); [lia|]; rewrite zlen_app in Hb;
    rewrite (put_rest s p d _ d0 r0 pre b0 _ _ V) by lia; cbn [obind].
  - unfold xdrmbuf_advance. cbn. rewrite (view_base _ _ _ _ _ _ _ _ V), En. by eexists.
  - destruct (go_on _ _ _ _ _ _ m next b0 V En Hb0) as (s1 & Ea & En1 & S1).
    rewrite Ea, (app_assoc pre). apply (IH s1 (d ++ b0) (chain_data (m :: next)) (pre ++ b0) b'); [done|done| |lia].
    rewrite (view_behind _ _ _ _ _ _ _ _ V), zlen_app, En in Hlen. pose proof (zlen_nonneg r0). lia.
Qed.

#[export] Instance xdrmbuf_stream : XdrStream xdrmbuf.
Proof.
  refine {| stands := mbuf_stands; window := mbuf_window |};
    cbn [x_getlong x_putlong x_getbytes x_putbytes x_getpostn x_inline x_load x_store xdrmbuf_ops].
  - intros s d w r Hs Hd Hw. destruct (long_ok s d w r Hs Hd Hw) as (s1 & E & Hrd). unfold xdrmbuf_getlong. rewrite E. cbn [negb].
    pose proof (ready_load _ _ _ _ Hrd) as El. pose proof (ready_past _ _ _ _ Hrd) as Hp. rewrite Hw in *. rewrite El. by eexists.
  - intros s d r Hs Hd Hr. destruct (long_end s d r Hs Hd Hr) as [s1 E]. unfold xdrmbuf_getlong. rewrite E. by eexists.
  - intros s d w r v Hs Hd Hw. destruct (long_ok s d w r Hs Hd Hw) as (s1 & E & Hrd). unfold xdrmbuf_putlong. rewrite E. cbn [negb].
    destruct (ready_store _ _ _ _ (word v) Hrd) as (dat & Ed & Hst); [by rewrite Hw|]. rewrite Ed. cbn [obind].
    eexists. split; [done|]. exact (ready_past _ _ _ _ Hst).
  - intros s d r v Hs Hd Hr. destruct (long_end s d r Hs Hd Hr) as [s1 E]. unfold xdrmbuf_putlong. rewrite E. by eexists.
  - intros s d w r b c Hs Hb. exact (getbytes_loop_ok _ s d w r [] b c eq_refl Hs Hb).
  - intros s d r b n Hs Hn Hb. exact (getbytes_loop_end _ s d r [] b n eq_refl Hs Hn Hb).
  - intros s d w r b c Hs Hb. pose proof (putbytes_loop_ok _ s d w r [] b c eq_refl Hs Hb) as Hp.
    exact Hp.
  - intros s d r b n Hs Hn Hb. exact (putbytes_loop_end _ s d r [] b n eq_refl Hs Hn Hb).
  - intros s d r n (p & d0 & r0 & V) Hn. unfold xdrmbuf_inline. rewrite (view_handy _ _ _ _ _ _ _ _ V).
    destruct (Z.leb_spec n (zlen r0)); [right|by left]. destruct (zlen_split r0 n) as (w & r0' & -> & Hw); [lia|].
    pose proof V as [_ _ E3 E4 E5 E6 _ _ _ _].
    destruct (use_here s p 0 d _ d0 _ w r0' n V eq_refl eq_refl Hw) as [Eh (p' & d' & r' & V')].
    eexists _, _, w, (r0' ++ chain_data (xb_next s)). rewrite E3, <- app_assoc. split; [done|]. split; [done|]. rewrite <- E6.
    split; [done|]. exists d', r'. destruct V' as [F1 F2 F3 F4 F5 F6 F7 F8 F9 F10].
    constructor; try done; cbn in *; rewrite ?Hw; rewrite F5; lia.
  - intros s p d w r Hw. by eapply window_to_stands.
  - intros s p d a b c r (d0 & r0 & V). rewrite (view_dat _ _ _ _ _ _ _ _ V), (view_addr _ _ _ _ _ _ _ _ V).
    rewrite <- zlen_app, <- !app_assoc, app_assoc. apply bytes_at_ok.
  - intros s p d a b c r b' (d0 & r0 & [E1 E2 E3 E4 E5 E6 E7 E8 E9 E10]) Hb. rewrite E1, E4, <- zlen_app, <- !app_assoc, app_assoc.
    rewrite bcopy_to_ok by done. cbn [obind]. eexists. split; [done|]. exists d0, r0.
    constructor; try done; cbn; rewrite ?zlen_app in *; rewrite ?Hb; try done. by rewrite <- !app_assoc.
  - intros s d r (p & d0 & r0 & V). unfold xdrmbuf_getpos. rewrite (view_base _ _ _ _ _ _ _ _ V). by eexists.
  - intros s d r (p & d0 & r0 & V). destruct (view_sizes _ _ _ _ _ _ V). lia.
Defined.

(** *** A stream over one mbuf *)

(** The server answers in one cluster; there the stream never moves to another mbuf, and
    its position counts from the beginning. *)
Definition single (s : xdrmbuf) : Prop := xb_passed s = [] /\ xb_next s = [].

Lemma long_single s s' o : single s -> xdrmbuf_long s = (s', o) -> single s'.
Proof.
  intros [H1 H2]. unfold xdrmbuf_long, xdrmbuf_advance, single.
  change (xb_next (s <| xb_handy := _ |>)) with (xb_next s). rewrite H2.
  destruct (_ <? 0); [destruct (xb_base _)|]; by intros [= <- <-].
Qed.
Lemma getlong_single s s' o : single s -> xdrmbuf_getlong s = Ok (s', o) -> single s'.
Proof.
  intros H. unfold xdrmbuf_getlong. destruct (xdrmbuf_long s) as [s1 ok] eqn:E. apply long_single in E; [|done].
  destruct ok; cbn [negb]; [|by intros [= <- <-]]. intros Eo. by apply obind_ok in Eo as (b & _ & [= <- <-]).
Qed.
Lemma putlong_single s v s' o : single s -> xdrmbuf_putlong s v = Ok (s', o) -> single s'.
Proof.
  intros H. unfold xdrmbuf_putlong. destruct (xdrmbuf_long s) as [s1 ok] eqn:E. apply long_single in E; [|done].
  destruct ok; cbn [negb]; [|by intros [= <- <-]]. intros Eo. by apply obind_ok in Eo as (b & _ & [= <- <-]).
Qed.
Lemma getbytes_single s addr n s' a o : single s -> xdrmbuf_getbytes s addr n = Ok (s', a, o) -> single s'.
Proof.
  intros [H1 H2]. unfold xdrmbuf_getbytes. rewrite H2. cbn [getbytes_loop]. destruct (_ <? 0); intros Eo; apply obind_ok in Eo as (b & _ & Eo).
  - destruct b as [[a' f] l]. unfold xdrmbuf_advance in Eo. change (xb_next (s <| xb_handy := _ |>)) with (xb_next s) in Eo. rewrite H2 in Eo.
    destruct (xb_base _); by injection Eo as <- <- <-.
  - by apply obind_ok in Eo as (a' & _ & [= <- <- <-]).
Qed.
Lemma putbytes_single s addr n s' o : single s -> xdrmbuf_putbytes s addr n = Ok (s', o) -> single s'.
Proof.
  intros [H1 H2]. unfold xdrmbuf_putbytes. rewrite H2. cbn [putbytes_loop]. destruct (_ <? 0); intros Eo; apply obind_ok in Eo as (b & Eb & Eo).
  - destruct b as [[s1 f] l]. assert (Hs1 : single s1).
    { revert Eb. destruct (0 <? _); [|by intros [= <- _ _]]. intros Eb. apply obind_ok in Eb as (x & _ & Eb). by apply obind_ok in Eb as (y & _ & [= <- _ _]). }
    destruct Hs1 as [K1 K2]. unfold xdrmbuf_advance in Eo. rewrite K2 in Eo. destruct (xb_base s1); by injection Eo as <- <-.
  - by apply obind_ok in Eo as (a' & _ & [= <- <-]).
Qed.

Definition single_stands (s : xdrmbuf) (d r : list Z) : Prop := mbuf_stands s d r /\ single s.
Definition single_window (s : xdrmbuf) (p : Z) (d w r : list Z) : Prop := mbuf_window s p d w r /\ single s.

Definition xdrmbuf_single : XdrStream xdrmbuf.
Proof.
  refine {| stands := single_stands; window := single_window |}.
  - intros s d w r [Hs H1] Hd Hw. destruct (@getlong_ok _ _ xdrmbuf_stream s d w r Hs Hd Hw) as (s' & E & Hs'). exists s'. split; [done|]. split; [done|]. exact (getlong_single _ _ _ H1 E).
  - intros s d r [Hs _]. exact (@getlong_end _ _ xdrmbuf_stream s d r Hs).
  - intros s d w r v [Hs H1] Hd Hw. destruct (@putlong_ok _ _ xdrmbuf_stream s d w r v Hs Hd Hw) as (s' & E & Hs'). exists s'. split; [done|]. split; [done|]. exact (putlong_single _ _ _ _ H1 E).
  - intros s d r v [Hs _]. exact (@putlong_end _ _ xdrmbuf_stream s d r v Hs).
  - intros s d w r b c [Hs H1] Hb. destruct (@getbytes_ok _ _ xdrmbuf_stream s d w r b c Hs Hb) as (s' & E & Hs'). exists s'. split; [done|]. split; [done|]. exact (getbytes_single _ _ _ _ _ _ H1 E).
  - intros s d r b n [Hs _]. exact (@getbytes_end _ _ xdrmbuf_stream s d r b n Hs).
  - intros s d w r b c [Hs H1] Hb. destruct (@putbytes_ok _ _ xdrmbuf_stream s d w r b c Hs Hb) as (s' & E & Hs'). exists s'. split; [done|]. split; [done|]. exact (putbytes_single _ _ _ _ _ H1 E).
  - intros s d r b n [Hs _]. exact (@putbytes_end _ _ xdrmbuf_stream s d r b n Hs).
  - intros s d r n [Hs H1] Hn. destruct (@inline_spec _ _ xdrmbuf_stream s d r n Hs Hn) as [E|(s' & p & w & r' & Er & Hw & E & Hwin)]; [by left|]. right.
    exists s', p, w, r'. split; [done|]. split; [done|]. split; [done|]. split; [done|]. revert E. cbn. unfold xdrmbuf_inline.
    destruct (_ <=? _); [|done]. by intros [= <- _].
  - intros s p d w r [Hw H1]. split; [|done]. by eapply window_to_stands.
  - intros s p d a b c r [Hw _]. exact (@window_load _ _ xdrmbuf_stream s p d a b c r Hw).
  - intros s p d a b c r b' [Hw H1] Hb. destruct (@window_store _ _ xdrmbuf_stream s p d a b c r b' Hw Hb) as (s' & E & Hw'). exists s'. split; [done|]. split; [done|].
    cbn in E. by apply obind_ok in E as (dat & _ & [= <-]).
  - intros s d r [Hs _]. exact (@getpos_ok _ _ xdrmbuf_stream s d r Hs).
  - intros s d r [Hs _]. exact (@stands_bound _ _ xdrmbuf_stream s d r Hs).
Defined.

Lemma xdrmbuf_single_counts : @XdrCounts xdrmbuf _ xdrmbuf_single.
Proof.
  intros s d r [(p & d0 & r0 & V) [H1 _]]. cbn. unfold xdrmbuf_getpos. rewrite (view_base _ _ _ _ _ _ _ _ V), (view_private _ _ _ _ _ _ _ _ V).
  by rewrite (view_before _ _ _ _ _ _ _ _ V), H1, Z.add_0_r.
Qed.

Lemma xdrmbuf_init_single m op : m_len m < 2 ^ 31 -> @stands xdrmbuf _ xdrmbuf_single (x_str (xdrmbuf_init m [] op)) [] (m_dat m).
Proof. intros H. split; [|done]. exists 0, [], (m_dat m). constructor; try done. cbn. by rewrite app_nil_r. Qed.

(** A new stream over a chain. *)
Lemma xdrmbuf_init_stands m next op : zlen (chain_data (m :: next)) < 2 ^ 31 -> well_cut next ->
  (next <> [] -> m_len m mod 4 = 0) -> stands (x_str (xdrmbuf_init m next op)) [] (chain_data (m :: next)).
Proof.
  intros Hl Hc Hu. exists 0, [], (m_dat m). constructor; try done.
Qed.
