(* ===== verification/XdrAgree.v ===== *)
(** * A chain of mbufs is memory

    To the routines of [xdr.c] a stream over a chain of mbufs is a stream over a
    buffer with the same bytes: every sequence of operations has the same
    results on both and leaves the same bytes. *)
From S2P Require Import Prelude Mbuf In Xdr XdrSpec XdrMem XdrMbuf.
#[local] Ltac Zify.zify_post_hook ::= Z.to_euclidean_division_equations.

(** ** Sequences of operations *)

Inductive xdr_call := Getlong | Putlong (v : Z) | Getbytes (n : Z) | Putbytes (b : list Z).
Inductive xdr_answer := Long (v : Z) | Bytes (b : list Z) | Done | Failed.

(** One operation; bytes are read into memory of their size. *)
Definition xdr_run1 {S} `{XdrOps S} (s : S) (o : xdr_call) : outcome (S * xdr_answer) :=
  match o with
  | Getlong => let* r := x_getlong s in Ok (r.1, match r.2 with Some v => Long v | None => Failed end)
  | Putlong v => let* r := x_putlong s v in Ok (r.1, if r.2 then Done else Failed)
  | Getbytes n =>
      let* r := x_getbytes s (replicate (Z.to_nat n) 0) n in Ok (r.1.1, if r.2 then Bytes r.1.2 else Failed)
  | Putbytes b => let* r := x_putbytes s b (zlen b) in Ok (r.1, if r.2 then Done else Failed)
  end.

(** Up to the first that fails. *)
Fixpoint xdr_run {S} `{XdrOps S} (s : S) (l : list xdr_call) : outcome (S * list xdr_answer) :=
  match l with
  | [] => Ok (s, [])
  | o :: l =>
      let* r := xdr_run1 s o in
      match r.2 with
      | Failed => Ok (r.1, [Failed])
      | a => let* r' := xdr_run r.1 l in Ok (r'.1, a :: r'.2)
      end
  end.

(** Longs lie at whole units; sizes are those of memory. *)
Fixpoint in_units (pos : Z) (l : list xdr_call) : Prop :=
  match l with
  | [] => True
  | Getlong :: l | Putlong _ :: l => pos mod 4 = 0 /\ in_units (pos + 4) l
  | Getbytes n :: l => 0 <= n < 2 ^ 31 /\ in_units (pos + n) l
  | Putbytes b :: l => zlen b < 2 ^ 31 /\ in_units (pos + zlen b) l
  end.

(** ** Two streams over the same bytes *)

Section Agree.
Context {S T : Type} {ops : XdrOps S} {str : XdrStream S} {ops' : XdrOps T} {str' : XdrStream T}.

(** What an operation does to the bytes, on any stream. *)
Definition step_of (d r : list Z) (o : xdr_call) : option (list Z * list Z * xdr_answer) :=
  match o with
  | Getlong => if 4 <=? zlen r then Some (d ++ take 4 r, drop 4 r, Long (unword (take 4 r))) else None
  | Putlong v => if 4 <=? zlen r then Some (d ++ word v, drop 4 r, Done) else None
  | Getbytes n => let k := Z.to_nat n in
      if n <=? zlen r then Some (d ++ take k r, drop k r, Bytes (take k r)) else None
  | Putbytes b => if zlen b <=? zlen r then Some (d ++ b, drop (length b) r, Done) else None
  end.

Lemma step_of_ok s d r o l : stands s d r -> in_units (zlen d) (o :: l) ->
  match step_of d r o with
  | Some (d', r', a) => (exists s', xdr_run1 s o = Ok (s', a) /\ stands s' d' r') /\ a <> Failed /\
      in_units (zlen d') l /\ zlen d' + zlen r' = zlen d + zlen r
  | None => exists s', xdr_run1 s o = Ok (s', Failed)
  end.
Proof.
  intros Hs Hu. assert (Hdrop : forall k, zlen (drop k r) = Z.max 0 (zlen r - Z.of_nat k))
    by (intros k; unfold zlen; rewrite length_drop; lia).
  assert (Htake : forall k, zlen (take k r) = Z.min (Z.of_nat k) (zlen r)) by (intros k; unfold zlen; rewrite length_take; lia).
  destruct o as [|v|n|b]; cbn [step_of xdr_run1 in_units] in *.
  - destruct Hu as [Hd Hu]. pose proof (get_spec s d r Hs Hd) as H. destruct (Z.leb_spec 4 (zlen r)); destruct H as (s' & E).
    + destruct E as [E S']. rewrite E. cbn [obind fst snd]. rewrite zlen_app, Htake, Hdrop. split; [eauto|]. split; [done|].
      replace (Z.min _ _) with 4 by lia. split; [done|lia].
    + rewrite E. eauto.
  - destruct Hu as [Hd Hu]. pose proof (put_spec s d r v Hs Hd) as H. destruct (Z.leb_spec 4 (zlen r)); destruct H as (s' & E).
    + destruct E as [E S']. rewrite E. cbn [obind fst snd]. rewrite zlen_app, zlen_word, Hdrop. split; [eauto|]. split; [done|].
      split; [done|lia].
    + rewrite E. eauto.
  - destruct Hu as [Hn Hu]. pose proof (zlen_replicate (Z.to_nat n) 0) as Hl.
    pose proof (getbytes_spec s d r (replicate (Z.to_nat n) 0) n Hs Hn ltac:(lia)) as H.
    destruct (Z.leb_spec n (zlen r)).
    + destruct H as (w & r' & s' & -> & Hw & E & S'). rewrite E. cbn [obind fst snd].
      rewrite zlen_app in Hdrop, Htake |- *. rewrite drop_ge, app_nil_r by (rewrite length_replicate; lia).
      rewrite (take_zlen w r' n Hw), (drop_zlen w r' n Hw), !zlen_app, Hw. split; [eauto|]. split; [done|]. split; [done|lia].
    + destruct H as (s' & b' & E). rewrite E. eauto.
  - destruct Hu as [Hb Hu]. pose proof (putbytes_spec s d r b [] Hs Hb) as H. rewrite app_nil_r in H.
    destruct (Z.leb_spec (zlen b) (zlen r)); destruct H as (s' & E).
    + destruct E as [E S']. rewrite E. cbn [obind fst snd]. rewrite zlen_app, Hdrop. split; [eauto|]. split; [done|].
      split; [done|unfold zlen in *; lia].
    + rewrite E. eauto.
Qed.
End Agree.

Section Agree2.
Context {S T : Type} {ops : XdrOps S} {str : XdrStream S} {ops' : XdrOps T} {str' : XdrStream T}.

Lemma runs_agree l : forall (s : S) (t : T) d r, stands s d r -> stands t d r -> in_units (zlen d) l ->
  exists s' t' a, xdr_run s l = Ok (s', a) /\ xdr_run t l = Ok (t', a) /\
    (a = [] \/ last a <> Some Failed -> exists d' r', stands s' d' r' /\ stands t' d' r' /\ zlen d' + zlen r' = zlen d + zlen r).
Proof.
  induction l as [|o l IH]; intros s t d r Hs Ht Hu; cbn [xdr_run].
  { exists s, t, []. split; [done|]. split; [done|]. intros _. by exists d, r. }
  pose proof (step_of_ok s d r o l Hs Hu) as H1. pose proof (step_of_ok t d r o l Ht Hu) as H2.
  destruct (step_of d r o) as [[[d' r'] a]|].
  - destruct H1 as ((s1 & E1 & S1) & Ha & Hu' & Hz), H2 as ((t1 & E2 & T1) & _).
    destruct (IH s1 t1 d' r' S1 T1 Hu') as (s2 & t2 & a' & F1 & F2 & Hend).
    rewrite E1, E2. cbn [obind fst snd]. rewrite F1, F2. cbn [obind fst snd].
    exists s2, t2, (a :: a'). destruct a; try done; (split; [done|]; split; [done|]); intros Hl.
    all: destruct Hend as (d2 & r2 & ? & ? & ?); [|exists d2, r2; rewrite <- Hz; done].
    all: destruct Hl as [|Hl]; [done|]; destruct a'; [by left|by right].
  - destruct H1 as [s1 E1], H2 as [t1 E2]. rewrite E1, E2. cbn [obind fst snd]. exists s1, t1, [Failed].
    split; [done|]. split; [done|]. intros [?|?]; done.
Qed.
End Agree2.

(** ** The property *)

Definition mem_bytes (s : xdrmem) (n : Z) : list Z := take (Z.to_nat n) (xm_buf s).

(** C8: a stream over a chain of mbufs (cut at whole units, no empty mbuf behind
    the first) refines a stream over a buffer that holds the bytes of the chain.
    Any sequence of gets and puts has the same answers on both, never leaves the
    mbufs, and as long as none fails writes the same bytes to both. *)
Theorem xdrmbuf_refines_memory m next l : let bytes := chain_data (m :: next) in
  zlen bytes < 2 ^ 31 -> well_cut next -> (next <> [] -> m_len m mod 4 = 0) -> in_units 0 l ->
  exists s c answers,
    xdr_run (x_str (xdrmem_create bytes (zlen bytes) XDR_ENCODE)) l = Ok (s, answers) /\
    xdr_run (x_str (xdrmbuf_init m next XDR_ENCODE)) l = Ok (c, answers) /\
    (last answers <> Some Failed -> mem_bytes s (zlen bytes) = chain_data (xdrmbuf_chain c)).
Proof.
  intros bytes Hb Hc Hu Hl. pose proof (zlen_nonneg bytes).
  pose proof (xdrmem_create_stands bytes (zlen bytes) XDR_ENCODE ltac:(lia) Hb) as Hs.
  replace (take _ bytes) with bytes in Hs by (unfold zlen; by rewrite Nat2Z.id, firstn_all).
  pose proof (xdrmbuf_init_stands m next XDR_ENCODE Hb Hc Hu) as Ht.
  destruct (runs_agree l _ _ _ _ Hs Ht Hl) as (s' & c' & a & E1 & E2 & Hend).
  exists s', c', a. split; [done|]. split; [done|]. intros Ha. destruct Hend as (d & r & S1 & T1 & Hz); [by right|].
  destruct S1 as (t & Em & _), T1 as (p & d0 & r0 & [F1 F2 F3 _ _ _ _ _ _ _]). cbn [app] in Em. change (zlen []) with 0 in Hz.
  unfold mem_bytes, xdrmbuf_chain. rewrite chain_data_app, chain_data_cons, F1. cbn [app].
  rewrite app_assoc in Em. rewrite Em, take_zlen by (rewrite zlen_app; fold bytes in Hz; lia).
  rewrite F2, F3. by rewrite <- !app_assoc.
Qed.

(** Thirteen bytes in two mbufs; a long, eight bytes over the boundary, a byte. *)
Definition sample_mbuf : mbuf := Mbuf (Internal MMINOFF) MT_DATA [0; 0; 1; 2; 9; 9; 9; 9].
Definition sample_next : chain := [Mbuf (Internal MMINOFF) MT_DATA [8; 7; 6; 5; 4]].
Definition sample_calls : list xdr_call := [Getlong; Putbytes [1; 2; 3; 4; 5; 6; 7; 8]; Getbytes 1].

Lemma xdrmbuf_refines_memory_witness : exists s c,
  xdr_run (x_str (xdrmem_create (chain_data (sample_mbuf :: sample_next)) (zlen (chain_data (sample_mbuf :: sample_next))) XDR_ENCODE))
    sample_calls = Ok (s, [Long 258; Done; Bytes [4]]) /\
  xdr_run (x_str (xdrmbuf_init sample_mbuf sample_next XDR_ENCODE)) sample_calls = Ok (c, [Long 258; Done; Bytes [4]]) /\
  mem_bytes s 13 = chain_data (xdrmbuf_chain c).
Proof.
  destruct (xdrmbuf_refines_memory sample_mbuf sample_next sample_calls) as (s & c & a & E1 & E2 & E3);
    [reflexivity|vm_compute; discriminate|intros _; reflexivity|repeat split; discriminate|].
  exists s, c. assert (a = [Long 258; Done; Bytes [4]]) as -> by (vm_compute in E1; by injection E1 as <- <-).
  split; [exact E1|]. split; [exact E2|]. apply E3. discriminate.
Defined.
