(* ===== verification/RpcMsg.v ===== *)
(** * RPC messages: [sys/rpc/rpc_prot.c], [rpc_msg.h], [auth.h]

    The arms of the unions [rpc_msg.ru], [reply_body.ru], [accepted_reply.ru] and
    [rejected_reply.ru] overlap in C; here they are kept apart, and a routine
    touches the arm that the tag names only.  The routine for the results of a
    call, [ar_results.proc], is a parameter. *)
From S2P Require Import Prelude Mbuf In Xdr.

(** ** Data *)

Definition MAX_AUTH_BYTES : Z := 400.
Definition AUTH_NULL : Z := 0.
Definition AUTH_UNIX : Z := 1.
Definition RPC_MSG_VERSION : Z := 2.
Definition CALL : Z := 0.
Definition REPLY : Z := 1.
Definition MSG_ACCEPTED : Z := 0.
Definition MSG_DENIED : Z := 1.
(** [enum accept_stat]. *)
Definition SUCCESS : Z := 0.
Definition PROG_UNAVAIL : Z := 1.
Definition PROG_MISMATCH : Z := 2.
Definition PROC_UNAVAIL : Z := 3.
Definition GARBAGE_ARGS : Z := 4.
Definition SYSTEM_ERR : Z := 5.
(** [enum reject_stat]. *)
Definition RPC_MISMATCH : Z := 0.
Definition AUTH_ERROR : Z := 1.

Record opaque_auth := OpaqueAuth { oa_flavor : Z; oa_base : option (list Z); oa_length : Z }.
#[export] Instance settable_opaque_auth : Settable opaque_auth := fun a => OpaqueAuth (oa_flavor a) (oa_base a) (oa_length a).

Record versions := Versions { low : Z; high : Z }.
#[export] Instance settable_versions : Settable versions := fun v => Versions (low v) (high v).

Record accepted_reply {R : Type} := AcceptedReply { ar_verf : opaque_auth; ar_stat : Z; ar_vers : versions; ar_where : R }.
Arguments accepted_reply R : clear implicits.
#[export] Instance settable_accepted_reply R : Settable (accepted_reply R) := fun a =>
  AcceptedReply R (ar_verf a) (ar_stat a) (ar_vers a) (ar_where a).

Record rejected_reply := RejectedReply { rj_stat : Z; rj_vers : versions; rj_why : Z }.
#[export] Instance settable_rejected_reply : Settable rejected_reply := fun r =>
  RejectedReply (rj_stat r) (rj_vers r) (rj_why r).

(** The union of [reply_body]. *)
Record reply_union {R : Type} := ReplyUnion { rp_acpt : accepted_reply R; rp_rjct : rejected_reply }.
Arguments reply_union R : clear implicits.
#[export] Instance settable_reply_union R : Settable (reply_union R) := fun u => ReplyUnion R (rp_acpt u) (rp_rjct u).

Record reply_body {R : Type} := ReplyBody { rp_stat : Z; rp_ru : reply_union R }.
Arguments reply_body R : clear implicits.
#[export] Instance settable_reply_body R : Settable (reply_body R) := fun b => ReplyBody R (rp_stat b) (rp_ru b).

Record call_body := CallBody {
  cb_rpcvers : Z; cb_prog : Z; cb_vers : Z; cb_proc : Z; cb_cred : opaque_auth; cb_verf : opaque_auth
}.
#[export] Instance settable_call_body : Settable call_body := fun c =>
  CallBody (cb_rpcvers c) (cb_prog c) (cb_vers c) (cb_proc c) (cb_cred c) (cb_verf c).

Record rpc_msg {R : Type} := RpcMsg { rm_xid : Z; rm_direction : Z; rm_call : call_body; rm_reply : reply_body R }.
Arguments rpc_msg R : clear implicits.
#[export] Instance settable_rpc_msg R : Settable (rpc_msg R) := fun m =>
  RpcMsg R (rm_xid m) (rm_direction m) (rm_call m) (rm_reply m).

Section Rpc.
Context {S : Type} `{XdrOps S} `{Heap} {R : Type} (results : xdrproc S R).

(** ** Pieces *)

Definition xdr_opaque_auth : xdrproc S opaque_auth :=
  xand (xfield oa_flavor xdr_enum) (xpair oa_base oa_length (xdr_bytes MAX_AUTH_BYTES)).

Definition xdr_versions : xdrproc S versions := xand (xfield low xdr_u_long) (xfield high xdr_u_long).

(** What follows [ar_stat]. *)
Definition accepted_rest : xdrproc S (accepted_reply R) := fun x ar =>
  if ar_stat ar =? SUCCESS then xfield ar_where results x ar
  else if ar_stat ar =? PROG_MISMATCH then xfield ar_vers xdr_versions x ar
  else Ok (x, ar, true).

Definition xdr_accepted_reply : xdrproc S (accepted_reply R) :=
  xand (xfield ar_verf xdr_opaque_auth) (xand (xfield ar_stat xdr_enum) accepted_rest).

Definition rejected_rest : xdrproc S rejected_reply := fun x rr =>
  if rj_stat rr =? RPC_MISMATCH then xfield rj_vers xdr_versions x rr
  else if rj_stat rr =? AUTH_ERROR then xfield rj_why xdr_enum x rr
  else Ok (x, rr, false).

Definition xdr_rejected_reply : xdrproc S rejected_reply := xand (xfield rj_stat xdr_enum) rejected_rest.

Definition reply_dscrm : list (Z * xdrproc S (reply_union R)) :=
  [(MSG_ACCEPTED, xfield rp_acpt xdr_accepted_reply); (MSG_DENIED, xfield rp_rjct xdr_rejected_reply)].

Definition RNDUP (x : Z) : Z := (x + BYTES_PER_XDR_UNIT - 1) / BYTES_PER_XDR_UNIT * BYTES_PER_XDR_UNIT.

(** [IXDR_PUT_LONG] of each of [l]. *)
Fixpoint ixdr_puts (x : XDR S) (buf : Z) (l : list Z) : outcome (XDR S * Z) :=
  match l with
  | [] => Ok (x, buf)
  | v :: l => let* r := IXDR_PUT_LONG x buf v in ixdr_puts r.1 r.2 l
  end.

(** [bcopy] of the credential to [buf], which moves on by whole units. *)
Definition ixdr_put_auth (x : XDR S) (buf : Z) (oa : opaque_auth) : outcome (XDR S * Z) :=
  let* r := ixdr_puts x buf [oa_flavor oa; oa_length oa] in
  let '(x, buf) := r in
  if nz (oa_length oa) then
    let* b := bytes_at (behind (oa_base oa)) 0 (oa_length oa) in
    let* s := x_store (x_str x) buf b in
    Ok (x <| x_str := s |>, buf + RNDUP (oa_length oa))
  else Ok (x, buf).

(** The bytes of a credential whose length has been read. *)
Definition get_auth_body : xdrproc S opaque_auth := fun x oa =>
  if oa_length oa =? 0 then Ok (x, oa, true)
  else if MAX_AUTH_BYTES <? oa_length oa then Ok (x, oa, false) else
  let oa := match oa_base oa with None => oa <| oa_base := mem_alloc (oa_length oa) |> | _ => oa end in
  let '(x, buf) := XDR_INLINE x (RNDUP (oa_length oa)) in
  match buf with
  | None => xfield oa_base (opaque_at (oa_length oa)) x oa
  | Some buf =>
      let* b := x_load (x_str x) buf (oa_length oa) in
      let* base := bcopy_to (behind (oa_base oa)) 0 b in
      Ok (x, oa <| oa_base := Some base |>, true)
  end.

(** Its flavor and length, in line when the stream can. *)
Definition get_auth_head : xdrproc S opaque_auth := fun x oa =>
  let '(x, buf) := XDR_INLINE x (2 * BYTES_PER_XDR_UNIT) in
  match buf with
  | Some buf =>
      let* f := IXDR_GET_LONG x buf in
      let* l := IXDR_GET_LONG x f.2 in
      Ok (x, oa <| oa_flavor := f.1 |> <| oa_length := u32 l.1 |>, true)
  | None => xand (xfield oa_flavor xdr_enum) (xfield oa_length xdr_u_int) x oa
  end.

(** ** [xdr_replymsg] *)

Definition on_reply (f : reply_body R -> reply_body R) (m : rpc_msg R) : rpc_msg R := m <| rm_reply := f (rm_reply m) |>.

(** [p] of [rmsg->rm_reply.rp_acpt] and [rp_rjct]. *)
Definition of_acpt (p : xdrproc S (accepted_reply R)) : xdrproc S (rpc_msg R) :=
  xfield rm_reply (xfield rp_ru (xfield rp_acpt p)).
Definition of_rjct (p : xdrproc S rejected_reply) : xdrproc S (rpc_msg R) :=
  xfield rm_reply (xfield rp_ru (xfield rp_rjct p)).

Definition replymsg_encode (x : XDR S) (buf : Z) (m : rpc_msg R) : outcome (XDR S * rpc_msg R * bool) :=
  let ar := rp_acpt (rp_ru (rm_reply m)) in
  let oa := ar_verf ar in
  let* r := ixdr_puts x buf [rm_xid m; rm_direction m; rp_stat (rm_reply m)] in
  let* r := ixdr_put_auth r.1 r.2 oa in
  let* r := IXDR_PUT_LONG r.1 r.2 (ar_stat ar) in
  of_acpt accepted_rest r.1 m.

Definition replymsg_decode (x : XDR S) (buf : Z) (m : rpc_msg R) : outcome (XDR S * rpc_msg R * bool) :=
  let* xid := IXDR_GET_LONG x buf in
  let* dir := IXDR_GET_LONG x xid.2 in
  let m := m <| rm_xid := u32 xid.1 |> <| rm_direction := dir.1 |> in
  if negb (dir.1 =? REPLY) then Ok (x, m, false) else
  let* st := IXDR_GET_LONG x dir.2 in
  let m := on_reply (fun b => b <| rp_stat := st.1 |>) m in
  if st.1 =? MSG_ACCEPTED then
    let* r := of_acpt (xfield ar_verf (xand get_auth_head get_auth_body)) x m in
    if negb r.2 then Ok r else
    let* r := of_acpt (xfield ar_stat xdr_enum) r.1.1 r.1.2 in
    of_acpt accepted_rest r.1.1 r.1.2
  else if st.1 =? MSG_DENIED then of_rjct xdr_rejected_reply x m
  else Ok (x, m, false).

(** A condition on the object within an [&&]. *)
Definition xtest {A : Type} (b : A -> bool) : xdrproc S A := fun x a => Ok (x, a, b a).

Definition replymsg_slow : xdrproc S (rpc_msg R) :=
  xand (xfield rm_xid xdr_u_long) (xand (xfield rm_direction xdr_enum) (xand (xtest (fun m => rm_direction m =? REPLY))
    (xfield rm_reply (xpair rp_stat rp_ru (xdr_union reply_dscrm None))))).

Definition xdr_replymsg : xdrproc S (rpc_msg R) := fun x m =>
  match x_op x with
  | XDR_ENCODE =>
      if (rp_stat (rm_reply m) =? MSG_ACCEPTED) && (rm_direction m =? REPLY) then
        match XDR_INLINE x (s32 (6 * BYTES_PER_XDR_UNIT + oa_length (ar_verf (rp_acpt (rp_ru (rm_reply m)))))) with
        | (x, Some buf) => replymsg_encode x buf m
        | (x, None) => replymsg_slow x m
        end
      else replymsg_slow x m
  | XDR_DECODE =>
      match XDR_INLINE x (3 * BYTES_PER_XDR_UNIT) with
      | (x, Some buf) => replymsg_decode x buf m
      | (x, None) => replymsg_slow x m
      end
  | XDR_FREE => replymsg_slow x m
  end.

(** ** [xdr_callmsg] *)

Definition on_call (f : call_body -> call_body) (m : rpc_msg R) : rpc_msg R := m <| rm_call := f (rm_call m) |>.
Definition of_call (p : xdrproc S call_body) : xdrproc S (rpc_msg R) := xfield rm_call p.

Definition callmsg_encode (x : XDR S) (buf : Z) (m : rpc_msg R) : outcome (XDR S * rpc_msg R * bool) :=
  let c := rm_call m in
  let* r := ixdr_puts x buf [rm_xid m; rm_direction m] in
  if negb (rm_direction m =? CALL) then Ok (r.1, m, false) else
  let* r := ixdr_puts r.1 r.2 [cb_rpcvers c] in
  if negb (cb_rpcvers c =? RPC_MSG_VERSION) then Ok (r.1, m, false) else
  let* r := ixdr_puts r.1 r.2 [cb_prog c; cb_vers c; cb_proc c] in
  let* r := ixdr_put_auth r.1 r.2 (cb_cred c) in
  let* r := ixdr_put_auth r.1 r.2 (cb_verf c) in
  Ok (r.1, m, true).

Definition callmsg_decode (x : XDR S) (buf : Z) (m : rpc_msg R) : outcome (XDR S * rpc_msg R * bool) :=
  let* xid := IXDR_GET_LONG x buf in
  let* dir := IXDR_GET_LONG x xid.2 in
  let m := m <| rm_xid := u32 xid.1 |> <| rm_direction := dir.1 |> in
  if negb (dir.1 =? CALL) then Ok (x, m, false) else
  let* rv := IXDR_GET_LONG x dir.2 in
  let m := on_call (fun c => c <| cb_rpcvers := u32 rv.1 |>) m in
  if negb (u32 rv.1 =? RPC_MSG_VERSION) then Ok (x, m, false) else
  let* pg := IXDR_GET_LONG x rv.2 in
  let* vs := IXDR_GET_LONG x pg.2 in
  let* pr := IXDR_GET_LONG x vs.2 in
  let* fl := IXDR_GET_LONG x pr.2 in
  let* ln := IXDR_GET_LONG x fl.2 in
  let m := on_call (fun c => c <| cb_prog := u32 pg.1 |> <| cb_vers := u32 vs.1 |> <| cb_proc := u32 pr.1 |>
    <| cb_cred := (cb_cred c) <| oa_flavor := fl.1 |> <| oa_length := u32 ln.1 |> |>) m in
  of_call (xand (xfield cb_cred get_auth_body) (xfield cb_verf (xand get_auth_head get_auth_body))) x m.

Definition callmsg_slow : xdrproc S (rpc_msg R) :=
  xand (xfield rm_xid xdr_u_long) (xand (xfield rm_direction xdr_enum) (xand (xtest (fun m => rm_direction m =? CALL))
    (of_call (xand (xfield cb_rpcvers xdr_u_long) (xand (xtest (fun c => cb_rpcvers c =? RPC_MSG_VERSION))
      (xand (xfield cb_prog xdr_u_long) (xand (xfield cb_vers xdr_u_long) (xand (xfield cb_proc xdr_u_long)
        (xand (xfield cb_cred xdr_opaque_auth) (xfield cb_verf xdr_opaque_auth)))))))))).

(** The size of the header in line. *)
Definition callmsg_size (m : rpc_msg R) : Z :=
  8 * BYTES_PER_XDR_UNIT + RNDUP (oa_length (cb_cred (rm_call m))) + 2 * BYTES_PER_XDR_UNIT
  + RNDUP (oa_length (cb_verf (rm_call m))).

Definition xdr_callmsg : xdrproc S (rpc_msg R) := fun x m =>
  match x_op x with
  | XDR_ENCODE =>
      if MAX_AUTH_BYTES <? oa_length (cb_cred (rm_call m)) then Ok (x, m, false)
      else if MAX_AUTH_BYTES <? oa_length (cb_verf (rm_call m)) then Ok (x, m, false) else
      match XDR_INLINE x (callmsg_size m) with
      | (x, Some buf) => callmsg_encode x buf m
      | (x, None) => callmsg_slow x m
      end
  | XDR_DECODE =>
      match XDR_INLINE x (8 * BYTES_PER_XDR_UNIT) with
      | (x, Some buf) => callmsg_decode x buf m
      | (x, None) => callmsg_slow x m
      end
  | XDR_FREE => callmsg_slow x m
  end.

Definition xdr_callhdr : xdrproc S (rpc_msg R) := fun x m =>
  let m := on_call (fun c => c <| cb_rpcvers := RPC_MSG_VERSION |>) (m <| rm_direction := CALL |>) in
  xand (xtest (fun _ => match x_op x with XDR_ENCODE => true | _ => false end))
    (xand (xfield rm_xid xdr_u_long) (xand (xfield rm_direction xdr_enum)
      (of_call (xand (xfield cb_rpcvers xdr_u_long) (xand (xfield cb_prog xdr_u_long) (xfield cb_vers xdr_u_long)))))) x m.

End Rpc.

(** ** The error of a reply *)

Definition RPC_SUCCESS : Z := 0.
Definition RPC_VERSMISMATCH : Z := 6.
Definition RPC_AUTHERROR : Z := 7.
Definition RPC_PROGUNAVAIL : Z := 8.
Definition RPC_PROGVERSMISMATCH : Z := 9.
Definition RPC_PROCUNAVAIL : Z := 10.
Definition RPC_CANTDECODEARGS : Z := 11.
Definition RPC_SYSTEMERROR : Z := 12.
Definition RPC_FAILED : Z := 16.

(** The members of the union [ru] kept apart. *)
Record rpc_err := RpcErr { re_status : Z; re_why : Z; re_vers : versions; re_lb : Z * Z }.
#[export] Instance settable_rpc_err : Settable rpc_err := fun e => RpcErr (re_status e) (re_why e) (re_vers e) (re_lb e).

Definition accepted (acpt_stat : Z) (error : rpc_err) : rpc_err :=
  if acpt_stat =? PROG_UNAVAIL then error <| re_status := RPC_PROGUNAVAIL |>
  else if acpt_stat =? PROG_MISMATCH then error <| re_status := RPC_PROGVERSMISMATCH |>
  else if acpt_stat =? PROC_UNAVAIL then error <| re_status := RPC_PROCUNAVAIL |>
  else if acpt_stat =? GARBAGE_ARGS then error <| re_status := RPC_CANTDECODEARGS |>
  else if acpt_stat =? SYSTEM_ERR then error <| re_status := RPC_SYSTEMERROR |>
  else if acpt_stat =? SUCCESS then error <| re_status := RPC_SUCCESS |>
  else error <| re_status := RPC_FAILED |> <| re_lb := (MSG_ACCEPTED, acpt_stat) |>.

Definition rejected (rjct_stat : Z) (error : rpc_err) : rpc_err :=
  if rjct_stat =? RPC_VERSMISMATCH then error <| re_status := RPC_VERSMISMATCH |>
  else if rjct_stat =? AUTH_ERROR then error <| re_status := RPC_AUTHERROR |>
  else error <| re_status := RPC_FAILED |> <| re_lb := (MSG_DENIED, rjct_stat) |>.

Definition _seterr_reply {R} (msg : rpc_msg R) (error : rpc_err) : rpc_err :=
  let b := rm_reply msg in
  let ar := rp_acpt (rp_ru b) in
  let rr := rp_rjct (rp_ru b) in
  if (rp_stat b =? MSG_ACCEPTED) && (ar_stat ar =? SUCCESS) then error <| re_status := RPC_SUCCESS |> else
  let error := if rp_stat b =? MSG_ACCEPTED then accepted (ar_stat ar) error
               else if rp_stat b =? MSG_DENIED then rejected (rj_stat rr) error
               else error <| re_status := RPC_FAILED |> <| re_lb := (rp_stat b, (re_lb error).2) |> in
  if re_status error =? RPC_VERSMISMATCH then error <| re_vers := rj_vers rr |>
  else if re_status error =? RPC_AUTHERROR then error <| re_why := rj_why rr |>
  else if re_status error =? RPC_PROGVERSMISMATCH then error <| re_vers := ar_vers ar |>
  else error.
