(* ===== verification/RpcCall.v ===== *)
(** * The header of a call

    What [xdr_callmsg] writes, in line or field by field, over whatever kind of
    stream, is what [xdr_callmsg] reads, in line or field by field, over
    whatever kind of stream; and whatever the bytes are it reads them safely. *)
From S2P Require Import Prelude Mbuf In Xdr XdrSpec XdrMem XdrMbuf RpcMsg.
#[local] Ltac Zify.zify_post_hook ::= Z.to_euclidean_division_equations.

(** ** The wire format *)

Definition words (l : list Z) : list Z := concat (word <$> l).

Lemma zlen_words l : zlen (words l) = 4 * zlen l.
Proof. induction l as [|v l IH]; [done|]. unfold words in *. cbn [fmap list_fmap concat]. rewrite zlen_app, zlen_cons, IH, zlen_word. lia. Qed.
Lemma words_cons v l : words (v :: l) = word v ++ words l.
Proof. done. Qed.
Lemma words_app l k : words (l ++ k) = words l ++ words k.
Proof. unfold words. by rewrite fmap_app, concat_app. Qed.

(** The bytes [l] of a credential. *)
Definition auth_bytes (a : opaque_auth) (l : list Z) : Prop :=
  (exists c, behind (oa_base a) = l ++ c) /\ oa_length a = zlen l /\ zlen l <= MAX_AUTH_BYTES.

Definition auth_wire (a : opaque_auth) (w : list Z) : Prop :=
  exists l w', auth_bytes a l /\ counted l w' /\ w = word (oa_flavor a) ++ w'.

Definition call_wire {R} (m : rpc_msg R) (w : list Z) : Prop :=
  let c := rm_call m in
  exists wc wv, auth_wire (cb_cred c) wc /\ auth_wire (cb_verf c) wv /\
    w = words [rm_xid m; rm_direction m; cb_rpcvers c; cb_prog c; cb_vers c; cb_proc c] ++ wc ++ wv.

(** A call that may be sent: numbers of their types, credentials with the bytes
    they claim. *)
Definition valid_auth (a : opaque_auth) : Prop := s_long (oa_flavor a) /\ exists l, auth_bytes a l.

Record valid_call {R} (m : rpc_msg R) : Prop := {
  vc_xid : u_long (rm_xid m);
  vc_direction : rm_direction m = CALL;
  vc_rpcvers : cb_rpcvers (rm_call m) = RPC_MSG_VERSION;
  vc_prog : u_long (cb_prog (rm_call m));
  vc_vers : u_long (cb_vers (rm_call m));
  vc_proc : u_long (cb_proc (rm_call m));
  vc_cred : valid_auth (cb_cred (rm_call m));
  vc_verf : valid_auth (cb_verf (rm_call m))
}.

Lemma RNDUP_rndup n : 0 <= n -> RNDUP n = n + rndup n.
Proof. intros. unfold RNDUP, rndup, BYTES_PER_XDR_UNIT, nz. destruct (Z.eqb_spec (n mod 4) 0); cbn [negb]; lia. Qed.

Lemma auth_length a l : auth_bytes a l -> 0 <= oa_length a <= MAX_AUTH_BYTES.
Proof. intros (_ & -> & Hl). pose proof (zlen_nonneg l). lia. Qed.

Lemma zlen_auth_wire a w : auth_wire a w -> zlen w = 8 + RNDUP (oa_length a).
Proof.
  intros (l & w' & (_ & -> & _) & Hc & ->). rewrite zlen_app, zlen_word, (zlen_counted l w' Hc), RNDUP_rndup by apply zlen_nonneg. lia.
Qed.

Section Spec.
Context {S : Type} {ops : XdrOps S} {str : XdrStream S}.

(** ** In line *)

Lemma ixdr_get_at (op : xdr_op) s p d a b c r : window s p d (a ++ b ++ c) r -> zlen b = 4 ->
  IXDR_GET_LONG (Xdr op s) (p + zlen a) = Ok (unword b, p + zlen (a ++ b)).
Proof. intros Hw Hb. unfold IXDR_GET_LONG. cbn [x_str]. rewrite <- Hb, (window_load _ _ _ _ _ _ _ Hw), zlen_app. cbn. do 2 f_equal. lia. Qed.

Lemma ixdr_put_at (op : xdr_op) s p d a b c r v : window s p d (a ++ b ++ c) r -> zlen b = 4 ->
  exists s', IXDR_PUT_LONG (Xdr op s) (p + zlen a) v = Ok (Xdr op s', p + zlen (a ++ word v)) /\
    window s' p d (a ++ word v ++ c) r.
Proof.
  intros Hw Hb. destruct (window_store _ _ _ _ _ _ _ (word v) Hw) as (s' & E & Hw'); [by rewrite Hb|].
  exists s'. split; [|done]. unfold IXDR_PUT_LONG. cbn [x_str]. rewrite E, zlen_app, zlen_word. cbn. do 2 f_equal. lia.
Qed.

(** [pre] has been written of the bytes in line. *)
Lemma ixdr_puts_at (op : xdr_op) p d r l : forall s pre todo, window s p d (pre ++ todo) r -> 4 * zlen l <= zlen todo ->
  exists s' todo', ixdr_puts (Xdr op s) (p + zlen pre) l = Ok (Xdr op s', p + zlen (pre ++ words l)) /\
    window s' p d ((pre ++ words l) ++ todo') r /\ zlen todo = 4 * zlen l + zlen todo'.
Proof.
  induction l as [|v l IH]; intros s pre todo Hw Hl; cbn [ixdr_puts].
  { exists s, todo. unfold words; cbn. rewrite app_nil_r. done. }
  rewrite zlen_cons in *. pose proof (zlen_nonneg l). destruct (zlen_split todo 4) as (b & c & -> & Hb); [lia|].
  destruct (ixdr_put_at op _ _ _ _ _ _ _ v Hw Hb) as (s1 & E & Hw1). rewrite E. cbn [obind fst snd].
  rewrite zlen_app in Hl. rewrite app_assoc in Hw1.
  destruct (IH s1 (pre ++ word v) c Hw1 ltac:(lia)) as (s2 & t & E2 & Hw2 & Ht).
  exists s2, t. rewrite words_cons, (app_assoc pre), E2, (zlen_app b c). split; [done|]. split; [done|lia].
Qed.

Lemma ixdr_put_auth_at (op : xdr_op) p d r a l s pre todo : window s p d (pre ++ todo) r -> auth_bytes a l ->
  8 + RNDUP (oa_length a) <= zlen todo ->
  exists s' w todo', ixdr_put_auth (Xdr op s) (p + zlen pre) a = Ok (Xdr op s', p + zlen (pre ++ w)) /\
    window s' p d ((pre ++ w) ++ todo') r /\ auth_wire a w /\ zlen todo = zlen w + zlen todo'.
Proof.
  intros Hw Ha Hl. pose proof Ha as ((c & Hc) & Hlen & Hmax). pose proof (zlen_nonneg l).
  pose proof (rndup_spec (zlen l)) as [Hp _]. rewrite Hlen, RNDUP_rndup in * by lia. unfold ixdr_put_auth.
  destruct (ixdr_puts_at op p d r [oa_flavor a; oa_length a] s pre todo Hw) as (s1 & t1 & E1 & Hw1 & Ht1); [change (zlen [_; _]) with 2; lia|].
  rewrite E1. cbn [obind]. rewrite Hlen in *. change (4 * zlen [oa_flavor a; zlen l]) with 8 in Ht1.
  destruct (Z.eqb_spec (zlen l) 0) as [E0|E0]; unfold nz; [rewrite (proj2 (Z.eqb_eq _ _)) by done|rewrite (proj2 (Z.eqb_neq _ _)) by done]; cbn [negb].
  - exists s1, (words [oa_flavor a; zlen l]), t1. split; [done|]. split; [done|]. split; [|rewrite zlen_words; change (zlen [_; _]) with 2; lia].
    assert (l = []) as -> by (apply zlen_le_nil; lia). exists [], (word 0). split; [done|]. split; [|done]. exists []. done.
  - rewrite Hc, RNDUP_rndup by lia. pose proof (bytes_at_ok [] l c) as Eb. cbn [app] in Eb. change (zlen []) with 0 in Eb. rewrite Eb. cbn [obind].
    destruct (zlen_split t1 (zlen l)) as (b & t2 & -> & Hb); [lia|]. rewrite zlen_app in Ht1.
    destruct (zlen_split t2 (rndup (zlen l))) as (pad & t3 & -> & Hpad); [lia|]. rewrite zlen_app in Ht1.
    destruct (window_store _ _ _ _ _ _ _ l Hw1 (eq_sym Hb)) as (s2 & E2 & Hw2). cbn [x_str]. rewrite E2. cbn [obind].
    exists s2, (words [oa_flavor a; zlen l] ++ l ++ pad), t3.
    rewrite !zlen_app in *. rewrite <- !app_assoc in *. split; [cbn; do 2 f_equal; rewrite Hpad; change (zlen (words _)) with 8; lia|]. split; [done|].
    split; [|rewrite zlen_words; change (zlen [_; _]) with 2; lia].
    exists l, (word (zlen l) ++ l ++ pad). split; [done|]. split; [by exists pad|]. done.
Qed.

(** ** Field by field *)

Lemma sends_test {A} (b : A -> bool) a : b a = true -> sends (xtest b) a [].
Proof.
  intros Hb. split; [done|]. intros s d r Hs Hd. rewrite (proj2 (Z.leb_le _ _)) by apply zlen_nonneg. unfold xtest.
  rewrite Hb, app_nil_r. by exists s.
Qed.
Lemma takes_test {A} (b : A -> bool) a : b a = true -> takes (xtest b) [] a a.
Proof. intros Hb. split; [done|]. intros s d r Hs Hd. unfold xtest. rewrite Hb, app_nil_r. by exists s. Qed.
Lemma safe_test {A} (b : A -> bool) a (Q : A -> Prop) : (b a = true -> Q a) -> safe (xtest b) a Q.
Proof.
  intros HQ s d r Hs Hd. exists s, a, (b a). split; [done|]. intros Hb. split; [auto|]. exists [], r. by rewrite app_nil_r.
Qed.

Context {hp : Heap} {R : Type}.

Lemma sends_opaque_auth a l : auth_bytes a l -> sends xdr_opaque_auth a (word (oa_flavor a) ++ wire_bytes l).
Proof.
  intros ((c & Hc) & Hlen & Hmax). apply sends_and; [apply sends_field; [by destruct a|apply sends_enum]|].
  apply sends_pair; [by destruct a|]. rewrite Hlen. apply (sends_bytes _ _ _ c); [done|]. unfold MAX_AUTH_BYTES in *. lia.
Qed.

Lemma sends_callmsg_slow (m : rpc_msg R) : valid_call m -> exists w, call_wire m w /\ sends callmsg_slow m w.
Proof.
  intros [Hx Hd Hv Hp Hvs Hpr (Hf & l & Hl) (Hf' & l' & Hl')]. eexists. split; cycle 1.
  - unfold callmsg_slow, of_call.
    repeat first [exact (sends_opaque_auth _ _ Hl) | exact (sends_opaque_auth _ _ Hl') | apply sends_and
      | apply sends_field; [first [by destruct m | by destruct (rm_call m)]|] | apply sends_u_long | apply sends_enum
      | apply sends_test; by rewrite ?Hd, ?Hv].
  - exists (word (oa_flavor (cb_cred (rm_call m))) ++ wire_bytes l), (word (oa_flavor (cb_verf (rm_call m))) ++ wire_bytes l').
    split; [by eexists _, _; split; [done|split; [apply wire_bytes_counted|]]|].
    split; [by eexists _, _; split; [done|split; [apply wire_bytes_counted|]]|].
    unfold words. cbn [fmap list_fmap concat]. rewrite app_nil_r. cbn [app]. by rewrite <- !app_assoc.
Qed.

Lemma zlen_call_wire (m : rpc_msg R) w : call_wire m w -> zlen w = callmsg_size m.
Proof.
  intros (wc & wv & Hc & Hv & ->). rewrite !zlen_app, zlen_words, (zlen_auth_wire _ _ Hc), (zlen_auth_wire _ _ Hv).
  unfold callmsg_size, BYTES_PER_XDR_UNIT. change (zlen [_; _; _; _; _; _]) with 6. lia.
Qed.

Lemma callmsg_encode_at (op : xdr_op) s p d w r (m : rpc_msg R) : valid_call m -> window s p d w r -> zlen w = callmsg_size m ->
  exists s' w', callmsg_encode (Xdr op s) p m = Ok (Xdr op s', m, true) /\ call_wire m w' /\ window s' p d w' r.
Proof.
  intros [Hx Hd Hv Hp Hvs Hpr (Hf & l & Hl) (Hf' & l' & Hl')] Hw Hz. unfold callmsg_size, BYTES_PER_XDR_UNIT in Hz.
  pose proof (auth_length _ _ Hl). pose proof (auth_length _ _ Hl').
  rewrite !RNDUP_rndup in Hz by lia. unfold callmsg_encode. set (c := rm_call m) in *.
  pose proof (rndup_spec (oa_length (cb_cred c))) as [Hr1 _]. pose proof (rndup_spec (oa_length (cb_verf c))) as [Hr2 _].
  destruct (ixdr_puts_at op p d r [rm_xid m; rm_direction m] s [] w Hw) as (s1 & t1 & E1 & W1 & L1); [change (zlen [_; _]) with 2; lia|].
  change (zlen []) with 0 in E1. rewrite Z.add_0_r in E1. cbn [app] in *. rewrite E1. cbn [obind fst snd]. clear E1.
  change (4 * zlen [_; _]) with 8 in L1. rewrite (proj2 (Z.eqb_eq _ _) Hd). cbn [negb].
  destruct (ixdr_puts_at op p d r [cb_rpcvers c] s1 _ t1 W1) as (s2 & t2 & E2 & W2 & L2); [change (zlen [_]) with 1; lia|].
  rewrite E2. cbn [obind fst snd]. clear E2. change (4 * zlen [_]) with 4 in L2. rewrite (proj2 (Z.eqb_eq _ _) Hv). cbn [negb].
  destruct (ixdr_puts_at op p d r [cb_prog c; cb_vers c; cb_proc c] s2 _ t2 W2) as (s3 & t3 & E3 & W3 & L3); [change (zlen [_; _; _]) with 3; lia|].
  rewrite E3. cbn [obind fst snd]. clear E3. change (4 * zlen [_; _; _]) with 12 in L3.
  destruct (ixdr_put_auth_at op p d r (cb_cred c) l s3 _ t3 W3 Hl) as (s4 & wc & t4 & E4 & W4 & A4 & L4); [rewrite RNDUP_rndup; lia|].
  rewrite E4. cbn [obind fst snd]. clear E4. pose proof (zlen_auth_wire _ _ A4) as Lc. rewrite RNDUP_rndup in Lc by lia.
  destruct (ixdr_put_auth_at op p d r (cb_verf c) l' s4 _ t4 W4 Hl') as (s5 & wv & t5 & E5 & W5 & A5 & L5); [rewrite RNDUP_rndup; lia|].
  rewrite E5. cbn [obind fst snd]. clear E5. pose proof (zlen_auth_wire _ _ A5) as Lv. rewrite RNDUP_rndup in Lv by lia.
  assert (t5 = []) as -> by (apply zlen_le_nil; lia). rewrite app_nil_r in W5.
  eexists s5, _. split; [done|]. split; [|exact W5]. exists wc, wv. split; [done|]. split; [done|].
  rewrite <- !app_assoc. unfold words. cbn [fmap list_fmap concat]. by rewrite !app_nil_r, <- !app_assoc.
Qed.

(** What goes out, and that it goes out whenever there is room. *)
Lemma sends_callmsg (m : rpc_msg R) s d r : valid_call m -> stands s d r -> at4 d ->
  if callmsg_size m <=? zlen r
  then exists s' w, xdr_callmsg (Xdr XDR_ENCODE s) m = Ok (Xdr XDR_ENCODE s', m, true) /\ call_wire m w /\
         stands s' (d ++ w) (drop (length w) r)
  else exists s', xdr_callmsg (Xdr XDR_ENCODE s) m = Ok (Xdr XDR_ENCODE s', m, false).
Proof.
  intros Hm Hs Hd. pose proof Hm as [_ _ _ _ _ _ (_ & l & Hl) (_ & l' & Hl')].
  pose proof (auth_length _ _ Hl) as L1. pose proof (auth_length _ _ Hl') as L2.
  unfold xdr_callmsg. cbn [x_op]. rewrite !(proj2 (Z.ltb_ge _ _)) by lia. unfold XDR_INLINE. cbn [x_str].
  destruct (inline_spec s d r (callmsg_size m) Hs) as [E|(s1 & p & w & r' & -> & Hw & E & W)].
  { unfold callmsg_size, BYTES_PER_XDR_UNIT, MAX_AUTH_BYTES in *. rewrite !RNDUP_rndup by lia.
    pose proof (rndup_spec (oa_length (cb_cred (rm_call m)))). pose proof (rndup_spec (oa_length (cb_verf (rm_call m)))). lia. }
  - rewrite E. cbn [fst snd]. destruct (sends_callmsg_slow m Hm) as (w & Hw & _ & Hsend).
    specialize (Hsend s d r Hs Hd). rewrite (zlen_call_wire m w Hw) in Hsend. change (_ <| x_str := s |>) with (Xdr XDR_ENCODE s).
    destruct (_ <=? _); [|done]. destruct Hsend as (s' & E' & S'). by exists s', w.
  - rewrite E. cbn [fst snd]. change (_ <| x_str := s1 |>) with (Xdr XDR_ENCODE s1).
    rewrite zlen_app, (proj2 (Z.leb_le _ _)) by (pose proof (zlen_nonneg r'); lia).
    destruct (callmsg_encode_at XDR_ENCODE s1 p d w r' m Hm W Hw) as (s2 & w' & E2 & Hw' & W2). exists s2, w'. split; [done|].
    split; [done|]. apply window_stands in W2. replace (length w') with (Z.to_nat (zlen w)).
    + by rewrite drop_zlen.
    + rewrite Hw, <- (zlen_call_wire m w' Hw'). unfold zlen. lia.
Qed.
End Spec.

(** ** What is read *)

(** The bytes of a credential. *)
Definition auth_data (a : opaque_auth) : list Z := take (Z.to_nat (oa_length a)) (behind (oa_base a)).

Lemma auth_data_bytes a l : auth_bytes a l -> auth_data a = l.
Proof. intros ((c & Hc) & Hl & _). unfold auth_data. rewrite Hc, Hl. by apply take_zlen. Qed.

(** The credential [a] read into [a0]; the call [m] read into [m0]. *)
Definition got_auth (a0 a : opaque_auth) : opaque_auth := a <| oa_base := filled (oa_base a0) (auth_data a) |>.
Definition got_call {R} (m0 m : rpc_msg R) : rpc_msg R :=
  RpcMsg R (rm_xid m) (rm_direction m)
    (CallBody (cb_rpcvers (rm_call m)) (cb_prog (rm_call m)) (cb_vers (rm_call m)) (cb_proc (rm_call m))
      (got_auth (cb_cred (rm_call m0)) (cb_cred (rm_call m))) (got_auth (cb_verf (rm_call m0)) (cb_verf (rm_call m))))
    (rm_reply m0).

(** Where credentials may be read: null pointers, or memory for the largest. *)
Definition auth_room (a : opaque_auth) : Prop := room (oa_base a) MAX_AUTH_BYTES.
Definition call_room {R} (m : rpc_msg R) : Prop := auth_room (cb_cred (rm_call m)) /\ auth_room (cb_verf (rm_call m)).

(** A credential from the wire: its length in bounds, and the memory for it. *)
Definition auth_wf (a : opaque_auth) : Prop :=
  0 <= oa_length a <= MAX_AUTH_BYTES /\ oa_length a <= zlen (behind (oa_base a)).

Section Read.
Context {S : Type} {ops : XdrOps S} {str : XdrStream S} {hp : Heap} {hok : HeapOk} {R : Type}.
#[local] Set Default Proof Using "All".

(** *** A credential *)

Lemma get_auth_body_spec s d r oa : stands s d r -> at4 d -> 0 <= oa_length oa -> auth_room oa ->
  exists s' oa' ok, get_auth_body (Xdr XDR_DECODE s) oa = Ok (Xdr XDR_DECODE s', oa', ok) /\
    (oa_length oa <= MAX_AUTH_BYTES -> oa_length oa + rndup (oa_length oa) <= zlen r -> ok = true) /\
    (ok = true -> exists l pad r', r = l ++ pad ++ r' /\ zlen l = oa_length oa /\ zlen l <= MAX_AUTH_BYTES /\ zlen pad = rndup (zlen l) /\
      oa' = oa <| oa_base := filled (oa_base oa) l |> /\ stands s' (d ++ l ++ pad) r').
Proof.
  intros Hs Hd Hn Hroom. unfold get_auth_body. destruct oa as [fl base n]. cbn [oa_length oa_base] in *.
  unfold auth_room in Hroom. cbn [oa_base] in Hroom.
  destruct (Z.eqb_spec n 0) as [->|Hn0].
  { eexists _, _, true. split; [done|]. split; [done|]. intros _. exists [], [], r.
    rewrite app_nil_r. repeat split; try done. by destruct base. }
  destruct (Z.ltb_spec MAX_AUTH_BYTES n) as [|Hmax]; [eexists _, _, false; split; [done|]; split; [lia|done]|].
  assert (Hroom' : room base n) by (destruct base; cbn [room] in *; [lia|done]).
  set (oa := match base with None => _ | Some _ => _ end).
  assert (Eoa : oa = OpaqueAuth fl (match base with None => mem_alloc n | _ => base end) n) by (unfold oa; by destruct base).
  rewrite Eoa. cbn [oa_length oa_base]. unfold XDR_INLINE. cbn [x_str]. unfold MAX_AUTH_BYTES in *. pose proof (rndup_spec n) as [Hp _].
  destruct (inline_spec s d r (RNDUP n) Hs) as [E|(s1 & p & w & r' & -> & Hw & E & W)]; [rewrite RNDUP_rndup by lia; lia| |];
    rewrite E; cbn [fst snd].
  - change (_ <| x_str := s |>) with (Xdr XDR_DECODE s). unfold xfield. cbn [oa_base].
    destruct (get_opaque_at s d r base n Hs Hd ltac:(lia) Hroom') as (s' & p' & ok & E' & H1 & H2).
    rewrite E'. cbn [obind fst snd]. eexists _, _, ok. split; [done|]. split; [auto|]. intros Hok.
    destruct (H2 Hok) as (l & pad & r' & -> & Hl & Hpd & -> & S'). exists l, pad, r'. rewrite Hl. by repeat split.
  - change (_ <| x_str := s1 |>) with (Xdr XDR_DECODE s1). cbn [x_str]. rewrite RNDUP_rndup in Hw by lia.
    destruct (zlen_split w n) as (l & pad & -> & Hl); [lia|]. rewrite zlen_app in Hw.
    pose proof (window_load s1 p d [] l pad r' W) as El. change (zlen []) with 0 in El. rewrite Z.add_0_r, Hl in El. rewrite El. cbn [obind].
    assert (Ef : exists base', bcopy_to (behind (match base with None => mem_alloc n | _ => base end)) 0 l = Ok base' /\ Some base' = filled base l).
    { destruct base as [b|]; cbn [room] in Hroom'.
      - destruct (zlen_split b n) as (b1 & b2 & -> & Hb); [lia|].
        pose proof (bcopy_to_ok [] b1 b2 l) as Ec. cbn [app] in Ec. change (zlen []) with 0 in Ec.
        cbn [behind default from_option id]. rewrite Ec by lia. eexists. split; [done|]. cbn.
        replace (length l) with (Z.to_nat n) by (unfold zlen in *; lia). by rewrite drop_zlen.
      - destruct (heap_some n) as (b & -> & Hb); [lia|]. pose proof (bcopy_to_ok [] b [] l) as Ec. cbn [app] in Ec.
        change (zlen []) with 0 in Ec. rewrite !app_nil_r in Ec. cbn [behind default from_option id]. rewrite Ec by lia.
        eexists. split; [done|]. cbn. by rewrite (proj2 (Z.eqb_neq _ _)) by lia. }
    destruct Ef as (base' & Eb & Ef). rewrite Eb. cbn [obind]. eexists _, _, true. split; [done|]. split; [done|]. intros _.
    apply window_stands in W. exists l, pad, r'. rewrite <- app_assoc, <- Ef. split; [done|]. split; [done|]. split; [lia|].
    split; [rewrite Hl; lia|]. done.
Qed.

Lemma takes_auth_body oa l pad : oa_length oa = zlen l -> zlen l <= MAX_AUTH_BYTES -> auth_room oa -> zlen pad = rndup (zlen l) ->
  takes get_auth_body (l ++ pad) oa (oa <| oa_base := filled (oa_base oa) l |>).
Proof.
  intros Hn Hl Hr Hp. pose proof (zlen_nonneg l). pose proof (rndup_spec (zlen l)) as [_ Ha].
  split; [unfold at4; by rewrite zlen_app, Hp|]. intros s d r Hs Hd.
  destruct (get_auth_body_spec s d _ oa Hs Hd ltac:(lia) Hr) as (s' & oa' & ok & E & H1 & H2).
  rewrite !zlen_app, Hp, Hn in H1. pose proof (zlen_nonneg r). specialize (H1 Hl ltac:(lia)). subst ok.
  destruct (H2 eq_refl) as (l' & pad' & r' & Er & Hl' & _ & Hp' & -> & S'). rewrite <- app_assoc in Er.
  apply app_eq_zlen in Er as [<- Er]; [|lia]. apply app_eq_zlen in Er as [<- <-]; [|lia]. eauto.
Qed.

Lemma safe_auth_body oa : 0 <= oa_length oa -> auth_room oa -> safe get_auth_body oa auth_wf.
Proof.
  intros Hn Hr s d r Hs Hd. destruct (get_auth_body_spec s d r oa Hs Hd Hn Hr) as (s' & oa' & ok & E & _ & H2).
  exists s', oa', ok. split; [done|]. intros Hok. destruct (H2 Hok) as (l & pad & r' & -> & Hl & Hm & Hp & -> & S').
  pose proof (filled_room (oa_base oa) l). pose proof (rndup_spec (zlen l)) as [_ Ha].
  split; [unfold auth_wf, behind; cbn; lia|]. exists (l ++ pad), r'. rewrite <- app_assoc. split; [done|].
  split; [unfold at4; by rewrite zlen_app, Hp|done].
Qed.

Lemma get_auth_head_spec s d r oa : stands s d r -> at4 d ->
  exists s' oa' ok, get_auth_head (Xdr XDR_DECODE s) oa = Ok (Xdr XDR_DECODE s', oa', ok) /\
    (8 <= zlen r -> ok = true) /\
    (ok = true -> exists w1 w2 r', r = w1 ++ w2 ++ r' /\ zlen w1 = 4 /\ zlen w2 = 4 /\
      oa' = oa <| oa_flavor := unword w1 |> <| oa_length := u32 (unword w2) |> /\ stands s' (d ++ w1 ++ w2) r').
Proof.
  intros Hs Hd. unfold get_auth_head, XDR_INLINE. cbn [x_str].
  destruct (inline_spec s d r (2 * BYTES_PER_XDR_UNIT) Hs) as [E|(s1 & p & w & r' & -> & Hw & E & W)]; [unfold BYTES_PER_XDR_UNIT; lia| |];
    rewrite E; cbn [fst snd].
  - change (_ <| x_str := s |>) with (Xdr XDR_DECODE s). unfold xand, xfield, xdr_enum.
    destruct (long_numeric s (oa_flavor oa)) as (_ & F & F'). pose proof (get_spec s d r Hs Hd) as G.
    destruct (Z.leb_spec 4 (zlen r)); destruct G as (s1 & G).
    2: { destruct (F' _ G) as [v' E2]. rewrite E2. cbn. eexists _, _, false. split; [done|]. split; [lia|done]. }
    destruct G as [G S1]. rewrite (F _ _ G). cbn [obind fst snd id]. set (oa1 := oa <| oa_flavor := _ |>).
    assert (Ht : zlen (take 4 r) = 4) by (unfold zlen in *; rewrite length_take; lia).
    destruct (get_u_int s1 _ _ (oa_length oa1) S1) as (s2 & v & ok & E2 & H1 & H2); [apply at4_app; [done|unfold at4; by rewrite Ht]|].
    rewrite E2. cbn [obind fst snd]. eexists _, _, ok. split; [done|].
    split; [intros; apply H1; unfold zlen in *; rewrite length_drop; lia|]. intros Hok.
    destruct (H2 Hok) as (w & r' & Er & Hw & -> & S2). exists (take 4 r), w, r'. rewrite <- Er, take_drop.
    rewrite <- app_assoc in S2. by repeat split.
  - change (_ <| x_str := s1 |>) with (Xdr XDR_DECODE s1). unfold BYTES_PER_XDR_UNIT in Hw.
    destruct (zlen_split w 4) as (w1 & w2 & -> & Hw1); [lia|]. rewrite zlen_app in Hw.
    pose proof (ixdr_get_at XDR_DECODE s1 p d [] w1 w2 r' W Hw1) as G1. change (zlen []) with 0 in G1. rewrite Z.add_0_r in G1.
    rewrite G1. cbn [obind fst snd app].
    pose proof (ixdr_get_at XDR_DECODE s1 p d w1 w2 [] r') as G2. rewrite !app_nil_r in G2. rewrite G2 by (done || lia). cbn [obind fst snd].
    eexists _, _, true. split; [done|]. split; [done|]. intros _. apply window_stands in W. exists w1, w2, r'.
    rewrite <- app_assoc in *. repeat split; done || lia.
Qed.

Lemma takes_auth_head oa fl n : s_long fl -> u_long n ->
  takes get_auth_head (word fl ++ word n) oa (oa <| oa_flavor := fl |> <| oa_length := n |>).
Proof.
  intros Hf Hn. split; [done|]. intros s d r Hs Hd.
  destruct (get_auth_head_spec s d _ oa Hs Hd) as (s' & oa' & ok & E & H1 & H2).
  rewrite !zlen_app, !zlen_word in H1. pose proof (zlen_nonneg r). specialize (H1 ltac:(lia)). subst ok.
  destruct (H2 eq_refl) as (w1 & w2 & r' & Er & Hw1 & Hw2 & -> & S'). rewrite <- app_assoc in Er.
  apply app_eq_zlen in Er as [<- Er]; [|by rewrite Hw1]. apply app_eq_zlen in Er as [<- <-]; [|by rewrite Hw2].
  rewrite !unword_word, u32_s32, s32_small, u32_small in E by done. eauto.
Qed.

Lemma safe_auth_head oa : safe get_auth_head oa (fun oa' => 0 <= oa_length oa' /\ oa_base oa' = oa_base oa).
Proof.
  intros s d r Hs Hd. destruct (get_auth_head_spec s d r oa Hs Hd) as (s' & oa' & ok & E & _ & H2).
  exists s', oa', ok. split; [done|]. intros Hok. destruct (H2 Hok) as (w1 & w2 & r' & -> & Hw1 & Hw2 & -> & S').
  split; [split; [apply u32_range|done]|]. exists (w1 ++ w2), r'. rewrite <- app_assoc. split; [done|].
  split; [unfold at4; by rewrite zlen_app, Hw1, Hw2|done].
Qed.

(** *** The header *)

Definition callmsg_tail : xdrproc S (rpc_msg R) :=
  of_call (xand (xfield cb_cred get_auth_body) (xfield cb_verf (xand get_auth_head get_auth_body))).

(** The call after the eight longs in line. *)
Definition call_head (m : rpc_msg R) (xid dir rv pg vs pr fl n : Z) : rpc_msg R :=
  RpcMsg R (u32 xid) dir
    (CallBody (u32 rv) (u32 pg) (u32 vs) (u32 pr)
      (OpaqueAuth fl (oa_base (cb_cred (rm_call m))) (u32 n)) (cb_verf (rm_call m))) (rm_reply m).

Lemma callmsg_decode_at s p d r (m : rpc_msg R) w1 w2 w3 w4 w5 w6 w7 w8 :
  window s p d (w1 ++ w2 ++ w3 ++ w4 ++ w5 ++ w6 ++ w7 ++ w8) r ->
  zlen w1 = 4 -> zlen w2 = 4 -> zlen w3 = 4 -> zlen w4 = 4 -> zlen w5 = 4 -> zlen w6 = 4 -> zlen w7 = 4 -> zlen w8 = 4 ->
  exists m1, callmsg_decode (Xdr XDR_DECODE s) p m =
    if (unword w2 =? CALL) && (u32 (unword w3) =? RPC_MSG_VERSION)
    then callmsg_tail (Xdr XDR_DECODE s)
      (call_head m (unword w1) (unword w2) (unword w3) (unword w4) (unword w5) (unword w6) (unword w7) (unword w8))
    else Ok (Xdr XDR_DECODE s, m1, false).
Proof.
  intros W L1 L2 L3 L4 L5 L6 L7 L8.
  assert (G : forall a b c, w1 ++ w2 ++ w3 ++ w4 ++ w5 ++ w6 ++ w7 ++ w8 = a ++ b ++ c -> zlen b = 4 ->
    IXDR_GET_LONG (Xdr XDR_DECODE s) (p + zlen a) = Ok (unword b, p + zlen (a ++ b))).
  { intros a b c E Hb. rewrite E in W. by apply (ixdr_get_at XDR_DECODE s p d a b c r). }
  unfold callmsg_decode.
  pose proof (G [] w1 _ eq_refl L1) as G1. change (zlen []) with 0 in G1. rewrite Z.add_0_r in G1. rewrite G1. cbn [obind fst snd app].
  rewrite (G w1 w2 (w3 ++ w4 ++ w5 ++ w6 ++ w7 ++ w8)) by done. cbn [obind fst snd].
  destruct (unword w2 =? CALL); cbn [negb andb]; [|by eexists].
  rewrite (G (w1 ++ w2) w3 (w4 ++ w5 ++ w6 ++ w7 ++ w8)) by (by rewrite <- ?app_assoc). cbn [obind fst snd].
  destruct (u32 (unword w3) =? RPC_MSG_VERSION); cbn [negb]; [|by eexists].
  rewrite (G ((w1 ++ w2) ++ w3) w4 (w5 ++ w6 ++ w7 ++ w8)) by (by rewrite <- ?app_assoc). cbn [obind fst snd].
  rewrite (G (((w1 ++ w2) ++ w3) ++ w4) w5 (w6 ++ w7 ++ w8)) by (by rewrite <- ?app_assoc). cbn [obind fst snd].
  rewrite (G ((((w1 ++ w2) ++ w3) ++ w4) ++ w5) w6 (w7 ++ w8)) by (by rewrite <- ?app_assoc). cbn [obind fst snd].
  rewrite (G (((((w1 ++ w2) ++ w3) ++ w4) ++ w5) ++ w6) w7 w8) by (by rewrite <- ?app_assoc). cbn [obind fst snd].
  rewrite (G ((((((w1 ++ w2) ++ w3) ++ w4) ++ w5) ++ w6) ++ w7) w8 []) by (by rewrite ?app_nil_r, <- ?app_assoc). cbn [obind fst snd].
  by exists m.
Qed.

Lemma eight_words (w : list Z) : zlen w = 32 -> exists w1 w2 w3 w4 w5 w6 w7 w8,
  w = w1 ++ w2 ++ w3 ++ w4 ++ w5 ++ w6 ++ w7 ++ w8 /\
  zlen w1 = 4 /\ zlen w2 = 4 /\ zlen w3 = 4 /\ zlen w4 = 4 /\ zlen w5 = 4 /\ zlen w6 = 4 /\ zlen w7 = 4 /\ zlen w8 = 4.
Proof.
  intros Hw. do 7 (match goal with H : zlen ?w = ?n |- _ =>
    let a := fresh "a" in let b := fresh "b" in
    destruct (zlen_split w 4) as (a & b & -> & ?); [lia|]; rewrite zlen_app in H; let H' := fresh in
    assert (H' : zlen b = n - 4) by lia; clear H; cbn in H' end).
  eexists _, _, _, _, _, _, _, _. split; [reflexivity|]. lia.
Qed.

Lemma takes_callmsg_tail m fl n l pad l' pad' xid dir rv pg vs pr :
  zlen l <= MAX_AUTH_BYTES -> zlen l' <= MAX_AUTH_BYTES -> zlen pad = rndup (zlen l) -> zlen pad' = rndup (zlen l') ->
  s_long fl -> u32 n = zlen l -> forall fl', s_long fl' -> call_room m ->
  takes callmsg_tail ((l ++ pad) ++ (word fl' ++ word (zlen l')) ++ (l' ++ pad')) (call_head m xid dir rv pg vs pr fl n)
    (RpcMsg R (u32 xid) dir (CallBody (u32 rv) (u32 pg) (u32 vs) (u32 pr)
      (OpaqueAuth fl (filled (oa_base (cb_cred (rm_call m))) l) (zlen l))
      (OpaqueAuth fl' (filled (oa_base (cb_verf (rm_call m))) l') (zlen l'))) (rm_reply m)).
Proof.
  intros Hl Hl' Hp Hp' Hf Hn fl' Hf' [Hr Hr']. unfold callmsg_tail, of_call, call_head. rewrite Hn. pose proof (zlen_nonneg l').
  set (oa := OpaqueAuth fl (oa_base (cb_cred (rm_call m))) (zlen l)).
  set (c := CallBody (u32 rv) (u32 pg) (u32 vs) (u32 pr) oa (cb_verf (rm_call m))).
  set (oa' := cb_verf (rm_call m)) in *. set (oa1 := oa' <| oa_flavor := fl' |> <| oa_length := zlen l' |>).
  pose proof (takes_auth_body oa l pad eq_refl Hl Hr Hp) as T1. apply (takes_field cb_cred _ _ c) in T1.
  assert (Hn' : u_long (zlen l')) by (unfold u_long, MAX_AUTH_BYTES in *; lia).
  pose proof (takes_and _ _ _ _ _ _ _ (takes_auth_head oa' fl' (zlen l') Hf' Hn') (takes_auth_body oa1 l' pad' eq_refl Hl' Hr' Hp')) as T2.
  set (c' := c <| cb_cred := oa <| oa_base := filled (oa_base oa) l |> |>) in T1.
  assert (T3 : takes (xfield cb_verf (xand get_auth_head get_auth_body)) ((word fl' ++ word (zlen l')) ++ l' ++ pad') c'
    (c' <| cb_verf := oa1 <| oa_base := filled (oa_base oa1) l' |> |>)) by (apply takes_field; exact T2).
  exact (takes_field rm_call _ _ (RpcMsg R (u32 xid) dir c (rm_reply m)) _ (takes_and _ _ _ _ _ _ _ T1 T3)).
Qed.

Lemma takes_opaque_auth a0 fl l w : s_long fl -> zlen l <= MAX_AUTH_BYTES -> counted l w -> auth_room a0 ->
  takes xdr_opaque_auth (word fl ++ w) a0 (OpaqueAuth fl (filled (oa_base a0) l) (zlen l)).
Proof.
  intros Hf Hl Hw Hr. unfold xdr_opaque_auth, MAX_AUTH_BYTES in *.
  eapply takes_and; [apply takes_field, (takes_enum fl); done|].
  refine (takes_pair oa_base oa_length _ _ _ _ _ _). by apply takes_bytes.
Qed.

Lemma takes_callmsg_slow (m m0 : rpc_msg R) w : valid_call m -> call_room m0 -> call_wire m w ->
  takes callmsg_slow w m0 (got_call m0 m).
Proof.
  intros [Hx Hd Hv Hp Hvs Hpr (Hf & _) (Hf' & _)] [Hr Hr'] (wc & wv & (l & w1 & Hl & Hw1 & ->) & (l' & w2 & Hl' & Hw2 & ->) & ->).
  unfold got_call, got_auth. rewrite (auth_data_bytes _ _ Hl), (auth_data_bytes _ _ Hl').
  destruct m as [xid dir [rv pg vs pr [fl base n] [fl' base' n']] rep]. cbn [rm_xid rm_direction rm_call cb_rpcvers
    cb_prog cb_vers cb_proc cb_cred cb_verf oa_flavor oa_base oa_length] in *. subst dir rv.
  destruct Hl as (_ & En & Hmax), Hl' as (_ & En' & Hmax'). cbn [oa_length] in En, En'. subst n n'.
  destruct m0 as [xid0 dir0 [rv0 pg0 vs0 pr0 cred0 verf0] rep0]. cbn [rm_call cb_cred cb_verf rm_reply] in *.
  unfold callmsg_slow, of_call. eapply takes_to.
  - eapply takes_and; [by apply takes_field, (takes_u_long xid)|].
    eapply takes_and; [by apply takes_field, (takes_enum CALL)|].
    eapply takes_and; [by apply takes_test|].
    apply takes_field. eapply takes_and; [by apply takes_field, (takes_u_long RPC_MSG_VERSION)|].
    eapply takes_and; [by apply takes_test|].
    eapply takes_and; [by apply takes_field, (takes_u_long pg)|].
    eapply takes_and; [by apply takes_field, (takes_u_long vs)|].
    eapply takes_and; [by apply takes_field, (takes_u_long pr)|].
    eapply takes_and; [by apply takes_field, (takes_opaque_auth cred0 fl l w1)|].
    by apply takes_field, (takes_opaque_auth verf0 fl' l' w2).
  - rewrite !words_cons. change (words []) with (@nil Z). cbn [app]. by rewrite app_nil_r, <- !app_assoc.
  - done.
Qed.

Lemma takes_callmsg (m m0 : rpc_msg R) w : valid_call m -> call_room m0 -> call_wire m w ->
  takes xdr_callmsg w m0 (got_call m0 m).
Proof.
  intros Hm Hr Hw. destruct (takes_callmsg_slow m m0 w Hm Hr Hw) as [Hw4 Hslow]. split; [done|]. intros s d r Hs Hd.
  unfold xdr_callmsg, XDR_INLINE. cbn [x_op x_str].
  destruct (inline_spec s d _ (8 * BYTES_PER_XDR_UNIT) Hs) as [E|(s1 & p & w' & r' & Er & Hw' & E & W)]; [unfold BYTES_PER_XDR_UNIT; lia| |];
    rewrite E; cbn [fst snd]; [by apply Hslow|].
  destruct Hm as [Hx Hdr Hv Hp Hvs Hpr (Hf & _) (Hf' & _)], Hw as (wc & wv & (l & w1 & Hl & (pad & -> & Hpad) & ->) & (l' & w2 & Hl' & (pad' & -> & Hpad') & ->) & ->).
  unfold BYTES_PER_XDR_UNIT in Hw'. rewrite words_cons, !words_cons in Er. change (words []) with (@nil Z) in Er.
  set (c := rm_call m) in *. 
  assert (Er' : (word (rm_xid m) ++ word (rm_direction m) ++ word (cb_rpcvers c) ++ word (cb_prog c) ++ word (cb_vers c) ++
    word (cb_proc c) ++ word (oa_flavor (cb_cred c)) ++ word (zlen l)) ++ ((l ++ pad) ++ (word (oa_flavor (cb_verf c)) ++ word (zlen l')) ++ (l' ++ pad')) ++ r = w' ++ r').
  { rewrite <- Er, <- !app_assoc. cbn [app]. rewrite <- ?app_assoc. done. }
  apply app_eq_zlen in Er' as [<- <-]; [|by rewrite Hw'].
  change (_ <| x_str := s1 |>) with (Xdr XDR_DECODE s1).
  destruct (callmsg_decode_at s1 p d _ m0 _ _ _ _ _ _ _ _ W) as [m1 ->]; try done.
  rewrite !unword_word, Hdr, Hv, !u32_s32, (s32_small CALL), (u32_small RPC_MSG_VERSION) by done.
  change ((CALL =? CALL) && (RPC_MSG_VERSION =? RPC_MSG_VERSION)) with true. cbv iota.
  destruct Hl as (Hb & El & Hmax), Hl' as (Hb' & El' & Hmax'). pose proof (zlen_nonneg l). unfold MAX_AUTH_BYTES in *.
  assert (Htail : takes callmsg_tail ((l ++ pad) ++ (word (oa_flavor (cb_verf c)) ++ word (zlen l')) ++ (l' ++ pad')) 
    (call_head m0 (s32 (rm_xid m)) CALL (s32 RPC_MSG_VERSION) (s32 (cb_prog c)) (s32 (cb_vers c)) (s32 (cb_proc c)) (s32 (oa_flavor (cb_cred c))) (s32 (zlen l)))
    (got_call m0 m)).
  { eapply eq_ind; [eapply takes_callmsg_tail; try done; [by rewrite s32_small|]; rewrite u32_s32, u32_small by lia; done|].
    rewrite !u32_s32, !u32_small, s32_small by done. unfold got_call, got_auth. fold c. rewrite Hdr, Hv.
    rewrite (auth_data_bytes (cb_cred c) l), (auth_data_bytes (cb_verf c) l') by done. destruct (cb_cred c), (cb_verf c).
    cbn in El, El'. by subst. }
  destruct Htail as [_ Htail]. destruct (Htail s1 _ r (window_stands _ _ _ _ _ W)) as (s2 & E2 & S2).
  { by apply at4_app. }
  exists s2. split; [exact E2|]. rewrite !words_cons. change (words []) with (@nil Z). rewrite Hdr, Hv in S2. cbn [app]. rewrite <- !app_assoc in *. exact S2.
Qed.

(** ** Whatever the bytes are *)

(** A header that has been read. *)
Record call_wf (m : rpc_msg R) : Prop := {
  cw_xid : u_long (rm_xid m);
  cw_direction : rm_direction m = CALL;
  cw_rpcvers : cb_rpcvers (rm_call m) = RPC_MSG_VERSION;
  cw_prog : u_long (cb_prog (rm_call m));
  cw_vers : u_long (cb_vers (rm_call m));
  cw_proc : u_long (cb_proc (rm_call m));
  cw_cred : auth_wf (cb_cred (rm_call m));
  cw_verf : auth_wf (cb_verf (rm_call m))
}.

Lemma auth_read_wf fl p l : zlen l <= MAX_AUTH_BYTES -> auth_wf (OpaqueAuth fl (filled p l) (zlen l)).
Proof. intros Hl. pose proof (filled_room p l). pose proof (zlen_nonneg l). unfold auth_wf, behind. cbn. lia. Qed.

Lemma safe_opaque_auth a0 : auth_room a0 -> safe xdr_opaque_auth a0 auth_wf.
Proof.
  intros Hr. unfold xdr_opaque_auth. apply (safe_then _ _ _ _ s_long); [apply safe_enum|]. intros fl _.
  apply safe_pair. destruct a0 as [f0 p n]. apply (safe_bytes _ p n); [done|done|]. intros l Hl. by apply auth_read_wf.
Qed.

Lemma safe_test_then {A} (b : A -> bool) (q : xdrproc S A) a (Q : A -> Prop) : (b a = true -> safe q a Q) -> safe (xand (xtest b) q) a Q.
Proof.
  intros Hq. destruct (b a) eqn:Eb.
  - apply (safe_and _ _ _ (fun a' => a' = a)); [by apply safe_test|]. intros ? ->. auto.
  - intros s d r _ _. exists s, a, false. split; [|done]. unfold xand, xtest. by rewrite Eb.
Qed.

Lemma safe_callmsg_slow (m0 : rpc_msg R) : call_room m0 -> safe callmsg_slow m0 call_wf.
Proof.
  intros [Hr Hr']. unfold callmsg_slow, of_call.
  apply (safe_then rm_xid _ _ _ u_long); [apply safe_u_long|]. intros xid Hxid.
  apply (safe_then rm_direction _ _ _ s_long); [apply safe_enum|]. intros dir _.
  apply safe_test_then. intros Ed%Z.eqb_eq.
  eapply (safe_last rm_call); [|intros v Hv; exact Hv].
  apply (safe_then cb_rpcvers _ _ _ u_long); [apply safe_u_long|]. intros rv _.
  apply safe_test_then. intros Ev%Z.eqb_eq.
  apply (safe_then cb_prog _ _ _ u_long); [apply safe_u_long|]. intros pg Hpg.
  apply (safe_then cb_vers _ _ _ u_long); [apply safe_u_long|]. intros vs Hvs.
  apply (safe_then cb_proc _ _ _ u_long); [apply safe_u_long|]. intros pr Hpr.
  apply (safe_then cb_cred _ _ _ auth_wf); [by apply safe_opaque_auth|]. intros c Hc.
  apply (safe_last cb_verf _ _ auth_wf); [by apply safe_opaque_auth|]. intros v Hv. by split.
Qed.

Lemma safe_callmsg_tail m xid dir rv pg vs pr fl n : dir = CALL -> u32 rv = RPC_MSG_VERSION -> call_room m ->
  safe callmsg_tail (call_head m xid dir rv pg vs pr fl n) call_wf.
Proof.
  intros Hd Hv [Hr Hr']. unfold callmsg_tail, of_call, call_head. pose proof (u32_range n) as Hn.
  eapply (safe_last rm_call); [|intros v Hw; exact Hw].
  apply (safe_then cb_cred _ _ _ auth_wf); [apply safe_auth_body; [apply u32_range|done]|]. intros c Hc.
  apply (safe_last cb_verf _ _ auth_wf); [|intros v Hw; split; try apply u32_range; done].
  eapply safe_and; [apply safe_auth_head|]. intros a [Ha Eb]. apply safe_auth_body; [done|]. unfold auth_room. by rewrite Eb.
Qed.

Lemma safe_callmsg (m0 : rpc_msg R) : call_room m0 -> safe xdr_callmsg m0 call_wf.
Proof.
  intros Hr s d r Hs Hd. unfold xdr_callmsg, XDR_INLINE. cbn [x_op x_str].
  destruct (inline_spec s d _ (8 * BYTES_PER_XDR_UNIT) Hs) as [E|(s1 & p & w & r' & -> & Hw & E & W)]; [unfold BYTES_PER_XDR_UNIT; lia| |];
    rewrite E; cbn [fst snd]; [by apply safe_callmsg_slow|].
  destruct (eight_words w Hw) as (w1 & w2 & w3 & w4 & w5 & w6 & w7 & w8 & Ew & L1 & L2 & L3 & L4 & L5 & L6 & L7 & L8).
  assert (Hw4 : at4 w) by (unfold at4; by rewrite Hw).
  change (_ <| x_str := s1 |>) with (Xdr XDR_DECODE s1). pose proof (window_stands _ _ _ _ _ W) as S1. rewrite Ew in W.
  destruct (callmsg_decode_at s1 p d r' m0 _ _ _ _ _ _ _ _ W) as [m1 ->]; try done.
  destruct (_ && _) eqn:Eb; [|by exists s1, m1, false]. apply andb_true_iff in Eb as [Ed%Z.eqb_eq Ev%Z.eqb_eq].
  destruct (safe_callmsg_tail m0 (unword w1) _ _ (unword w4) (unword w5) (unword w6) (unword w7) (unword w8) Ed Ev Hr s1 _ _ S1)
    as (s2 & m & ok & E2 & Hok); [by apply at4_app|].
  exists s2, m, ok. split; [done|]. intros H. destruct (Hok H) as (Hm & w' & r2 & -> & Hw' & S2). split; [done|].
  exists (w ++ w'), r2. rewrite <- !app_assoc in *. split; [done|]. split; [by apply at4_app|done].
Qed.
End Read.
Arguments call_wf {R} m.

(** ** The properties *)

(** C9: a call goes over the wire.  What [xdr_callmsg] writes of a valid call to
    a stream with room for it, of whatever kind (in line, or field by field when
    the stream gives no address), it reads from any stream of the same bytes, of
    whatever kind, with memory for the credentials: every field of the header
    is the same and the bytes of the credentials are; nothing else of the
    message is touched, and both streams stand behind the header. *)
Theorem callmsg_roundtrip {S T} {ops : XdrOps S} {str : XdrStream S} {ops' : XdrOps T} {str' : XdrStream T}
    {hp : Heap} {hok : HeapOk} {R} (m m0 : rpc_msg R) (s : S) d r :
  valid_call m -> call_room m0 -> stands s d r -> at4 d -> callmsg_size m <= zlen r ->
  exists s' w, xdr_callmsg (Xdr XDR_ENCODE s) m = Ok (Xdr XDR_ENCODE s', m, true) /\
    stands s' (d ++ w) (drop (length w) r) /\ zlen w = callmsg_size m /\
    forall (t : T) d' r', stands t d' (w ++ r') -> at4 d' ->
      exists t', xdr_callmsg (Xdr XDR_DECODE t) m0 = Ok (Xdr XDR_DECODE t', got_call m0 m, true) /\
        stands t' (d' ++ w) r'.
Proof.
  intros Hm Hr Hs Hd Hroom. pose proof (sends_callmsg m s d r Hm Hs Hd) as H.
  rewrite (proj2 (Z.leb_le _ _)) in H by done. destruct H as (s' & w & E & Hw & S').
  exists s', w. split; [done|]. split; [done|]. split; [by apply zlen_call_wire|].
  intros t d' r' Ht Hd'. by apply (takes_callmsg m m0 w Hm Hr Hw).
Qed.

(** C31: whatever bytes arrive in whatever kind of stream, [xdr_callmsg] reads
    them inside its objects; and when it succeeds the message is a call of this
    version, its numbers are of their types, and each credential has a length of
    at most [MAX_AUTH_BYTES] and the memory for it. *)
Theorem callmsg_decode_wf {S} {ops : XdrOps S} {str : XdrStream S} {hp : Heap} {hok : HeapOk} {R} (m0 : rpc_msg R) (s : S) d r :
  call_room m0 -> stands s d r -> at4 d ->
  exists s' m ok, xdr_callmsg (Xdr XDR_DECODE s) m0 = Ok (Xdr XDR_DECODE s', m, ok) /\ (ok = true -> call_wf m).
Proof.
  intros Hr Hs Hd. destruct (safe_callmsg m0 Hr s d r Hs Hd) as (s' & m & ok & E & H). exists s', m, ok.
  split; [done|]. intros Hok. by destruct (H Hok).
Qed.

(** A heap that is never exhausted; a call with a credential of six bytes, in
    two mbufs. *)
#[local] Instance sample_heap : Heap := fun n => if n =? 0 then None else Some (replicate (Z.to_nat n) 0).
#[local] Instance sample_heap_ok : HeapOk.
Proof.
  split; [|done]. intros n Hn. unfold mem_alloc, sample_heap. rewrite (proj2 (Z.eqb_neq _ _)) by lia.
  eexists. split; [done|]. rewrite zlen_replicate. lia.
Defined.

Definition sample_auth : opaque_auth := OpaqueAuth AUTH_UNIX (Some [1; 2; 3; 4; 5; 6]) 6.
Definition null_auth : opaque_auth := OpaqueAuth AUTH_NULL None 0.
Definition sample_versions : versions := Versions 0 0.
Definition sample_reply : reply_body unit :=
  ReplyBody unit 0 (ReplyUnion unit (AcceptedReply unit null_auth 0 sample_versions tt) (RejectedReply 0 sample_versions 0)).
Definition sample_call : rpc_msg unit := RpcMsg unit 77 CALL (CallBody 2 100003 2 4 sample_auth null_auth) sample_reply.
Definition sample_call0 : rpc_msg unit := RpcMsg unit 0 0 (CallBody 0 0 0 0 null_auth null_auth) sample_reply.
Definition call_mbuf : mbuf := Mbuf (Internal MMINOFF) MT_DATA (replicate 24 0).
Definition call_next : chain := [Mbuf (Internal MMINOFF) MT_DATA (replicate 40 0)].

Lemma sample_call_valid : valid_call sample_call.
Proof.
  split; try done.
  - split; [done|]. exists [1; 2; 3; 4; 5; 6]. split; [by exists []|]. done.
  - split; [done|]. exists []. split; [by exists []|]. done.
Qed.

Lemma callmsg_roundtrip_witness : exists s' w t',
  xdr_callmsg (xdrmbuf_init call_mbuf call_next XDR_ENCODE) sample_call = Ok (Xdr XDR_ENCODE s', sample_call, true) /\
  stands s' w (replicate 16 0) /\
  xdr_callmsg (xdrmem_create w 48 XDR_DECODE) sample_call0 = Ok (Xdr XDR_DECODE t', got_call sample_call0 sample_call, true) /\
  auth_data (cb_cred (rm_call (got_call sample_call0 sample_call))) = [1; 2; 3; 4; 5; 6].
Proof.
  destruct (callmsg_roundtrip (T := xdrmem) sample_call sample_call0 (x_str (xdrmbuf_init call_mbuf call_next XDR_ENCODE)) [] (replicate 64 0))
    as (s' & w & E & S' & Hw & Hd); [apply sample_call_valid|done| |done|done|].
  { apply (xdrmbuf_init_stands call_mbuf call_next XDR_ENCODE); [done|repeat constructor; done|done]. }
  change (callmsg_size sample_call) with 48 in Hw.
  assert (Hl : length w = 48%nat) by (unfold zlen in Hw; lia).
  destruct (Hd (x_str (xdrmem_create w 48 XDR_DECODE)) [] []) as (t' & E' & _); [|done|].
  { rewrite app_nil_r. pose proof (xdrmem_create_stands w 48 XDR_DECODE ltac:(lia) ltac:(lia)) as Ht.
    rewrite take_ge in Ht by lia. exact Ht. }
  exists s', w, t'. split; [exact E|]. split; [by rewrite Hl in S'|]. split; [exact E'|]. reflexivity.
Defined.

Lemma callmsg_decode_wf_witness : exists s' m,
  xdr_callmsg (xdrmem_create (words [9; 0; 2; 100003; 2; 1; 0; 4; 7; 0; 0]) 44 XDR_DECODE) sample_call0 = Ok (Xdr XDR_DECODE s', m, true) /\
  call_wf m.
Proof.
  destruct (callmsg_decode_wf sample_call0 (x_str (xdrmem_create (words [9; 0; 2; 100003; 2; 1; 0; 4; 7; 0; 0]) 44 XDR_DECODE)) []
    (words [9; 0; 2; 100003; 2; 1; 0; 4; 7; 0; 0])) as (s' & m & ok & E & H); [done|exact (xdrmem_create_stands (words [9; 0; 2; 100003; 2; 1; 0; 4; 7; 0; 0]) 44 XDR_DECODE ltac:(done) ltac:(done))|done|].
  exists s', m. assert (ok = true) as -> by (vm_compute in E; congruence). split; [exact E|by apply H].
Defined.
