(* ===== verification/NfsXdr.v ===== *)
(** * The data of NFS on the wire: [sys/nfs/nfs.h], [sys/nfs/nfs_xdr.c]

    The structures of the protocol and their XDR routines; the two routines for
    directories are in [NfsDir].  The union of a result is kept as its one
    member.  A file handle is its bytes.  The debugging output is left out, and
    of the loan of a disk buffer to the mbufs of a reply ([rrokinfo]) all but the
    mbuf itself. *)
From S2P Require Import Prelude Mbuf In Xdr XdrMbuf RpcMsg.

(** ** Data *)

Definition NFS_MAXDATA : Z := 8192.
Definition NFS_MAXNAMLEN : Z := 255.
Definition NFS_MAXPATHLEN : Z := 1024.
Definition MAXPATHLEN : Z := 1024.
Definition NFS_FHSIZE : Z := 32.
Definition NFS_OK : Z := 0.

Definition fhandle_t : Type := list Z.

Record timeval := Timeval { tv_sec : Z; tv_usec : Z }.
#[export] Instance settable_timeval : Settable timeval := fun t => Timeval (tv_sec t) (tv_usec t).

Record nfswriteargs := NfsWriteArgs {
  wa_fhandle : fhandle_t; wa_begoff : Z; wa_offset : Z; wa_totcount : Z; wa_count : Z; wa_data : option (list Z)
}.
#[export] Instance settable_nfswriteargs : Settable nfswriteargs := fun a =>
  NfsWriteArgs (wa_fhandle a) (wa_begoff a) (wa_offset a) (wa_totcount a) (wa_count a) (wa_data a).

Record nfsfattr := NfsFattr {
  na_type : Z; na_mode : Z; na_nlink : Z; na_uid : Z; na_gid : Z; na_size : Z; na_blocksize : Z; na_rdev : Z;
  na_blocks : Z; na_fsid : Z; na_nodeid : Z; na_atime : timeval; na_mtime : timeval; na_ctime : timeval
}.
#[export] Instance settable_nfsfattr : Settable nfsfattr := fun a =>
  NfsFattr (na_type a) (na_mode a) (na_nlink a) (na_uid a) (na_gid a) (na_size a) (na_blocksize a) (na_rdev a)
    (na_blocks a) (na_fsid a) (na_nodeid a) (na_atime a) (na_mtime a) (na_ctime a).

Record nfsreadargs := NfsReadArgs { ra_fhandle : fhandle_t; ra_offset : Z; ra_count : Z; ra_totcount : Z }.
#[export] Instance settable_nfsreadargs : Settable nfsreadargs := fun a =>
  NfsReadArgs (ra_fhandle a) (ra_offset a) (ra_count a) (ra_totcount a).

(** [rrok_bp]: the pointer to the disk buffer is not null. *)
Record nfsrrok := NfsRrok { rrok_attr : nfsfattr; rrok_count : Z; rrok_data : option (list Z); rrok_bp : bool }.
#[export] Instance settable_nfsrrok : Settable nfsrrok := fun a =>
  NfsRrok (rrok_attr a) (rrok_count a) (rrok_data a) (rrok_bp a).

Record nfsrdresult := NfsRdResult { rr_status : Z; rr_ok : nfsrrok }.
#[export] Instance settable_nfsrdresult : Settable nfsrdresult := fun a => NfsRdResult (rr_status a) (rr_ok a).

Record nfssattr := NfsSattr { sa_mode : Z; sa_uid : Z; sa_gid : Z; sa_size : Z; sa_atime : timeval; sa_mtime : timeval }.
#[export] Instance settable_nfssattr : Settable nfssattr := fun a =>
  NfsSattr (sa_mode a) (sa_uid a) (sa_gid a) (sa_size a) (sa_atime a) (sa_mtime a).

Record nfsattrstat := NfsAttrStat { ns_status : Z; ns_attr : nfsfattr }.
#[export] Instance settable_nfsattrstat : Settable nfsattrstat := fun a => NfsAttrStat (ns_status a) (ns_attr a).

Record nfssrok := NfsSrok { srok_count : Z; srok_data : option (list Z) }.
#[export] Instance settable_nfssrok : Settable nfssrok := fun a => NfsSrok (srok_count a) (srok_data a).

Record nfsrdlnres := NfsRdlnRes { rl_status : Z; rl_srok : nfssrok }.
#[export] Instance settable_nfsrdlnres : Settable nfsrdlnres := fun a => NfsRdlnRes (rl_status a) (rl_srok a).

Record nfsrddirargs := NfsRddirArgs { rda_fh : fhandle_t; rda_offset : Z; rda_count : Z }.
#[export] Instance settable_nfsrddirargs : Settable nfsrddirargs := fun a =>
  NfsRddirArgs (rda_fh a) (rda_offset a) (rda_count a).

Record nfsdiropargs := NfsDiropArgs { da_fhandle : fhandle_t; da_name : option (list Z) }.
#[export] Instance settable_nfsdiropargs : Settable nfsdiropargs := fun a => NfsDiropArgs (da_fhandle a) (da_name a).

Record nfsdrok := NfsDrok { drok_fhandle : fhandle_t; drok_attr : nfsfattr }.
#[export] Instance settable_nfsdrok : Settable nfsdrok := fun a => NfsDrok (drok_fhandle a) (drok_attr a).

Record nfsdiropres := NfsDiropRes { dr_status : Z; dr_drok : nfsdrok }.
#[export] Instance settable_nfsdiropres : Settable nfsdiropres := fun a => NfsDiropRes (dr_status a) (dr_drok a).

Record nfssaargs := NfsSaArgs { saa_fh : fhandle_t; saa_sa : nfssattr }.
#[export] Instance settable_nfssaargs : Settable nfssaargs := fun a => NfsSaArgs (saa_fh a) (saa_sa a).

Record nfscreatargs := NfsCreatArgs { ca_da : nfsdiropargs; ca_sa : nfssattr }.
#[export] Instance settable_nfscreatargs : Settable nfscreatargs := fun a => NfsCreatArgs (ca_da a) (ca_sa a).

Record nfslinkargs := NfsLinkArgs { la_from : fhandle_t; la_to : nfsdiropargs }.
#[export] Instance settable_nfslinkargs : Settable nfslinkargs := fun a => NfsLinkArgs (la_from a) (la_to a).

Record nfsrnmargs := NfsRnmArgs { rna_from : nfsdiropargs; rna_to : nfsdiropargs }.
#[export] Instance settable_nfsrnmargs : Settable nfsrnmargs := fun a => NfsRnmArgs (rna_from a) (rna_to a).

Record nfsslargs := NfsSlArgs { sla_from : nfsdiropargs; sla_tnm : option (list Z); sla_sa : nfssattr }.
#[export] Instance settable_nfsslargs : Settable nfsslargs := fun a => NfsSlArgs (sla_from a) (sla_tnm a) (sla_sa a).

Record nfsstatfsok := NfsStatfsOk { fsok_tsize : Z; fsok_bsize : Z; fsok_blocks : Z; fsok_bfree : Z; fsok_bavail : Z }.
#[export] Instance settable_nfsstatfsok : Settable nfsstatfsok := fun a =>
  NfsStatfsOk (fsok_tsize a) (fsok_bsize a) (fsok_blocks a) (fsok_bfree a) (fsok_bavail a).

Record nfsstatfs := NfsStatfs { fs_status : Z; fs_fsok : nfsstatfsok }.
#[export] Instance settable_nfsstatfs : Settable nfsstatfs := fun a => NfsStatfs (fs_status a) (fs_fsok a).

Section Routines.
Context {S : Type} `{XdrOps S} `{Heap}.

(** ** Arguments *)

Definition xdr_fhandle : xdrproc S fhandle_t := xdr_opaque NFS_FHSIZE.

Definition xdr_timeval : xdrproc S timeval := xand (xfield tv_sec xdr_long) (xfield tv_usec xdr_long).

Definition xdr_writeargs : xdrproc S nfswriteargs :=
  xand (xfield wa_fhandle xdr_fhandle) (xand (xfield wa_begoff (cast_long xdr_long)) (xand (xfield wa_offset (cast_long xdr_long))
    (xand (xfield wa_totcount (cast_long xdr_long)) (xpair wa_data wa_count (xdr_bytes NFS_MAXDATA))))).

Definition xdr_readargs : xdrproc S nfsreadargs :=
  xand (xfield ra_fhandle xdr_fhandle) (xand (xfield ra_offset (cast_long xdr_long))
    (xand (xfield ra_count (cast_long xdr_long)) (xfield ra_totcount (cast_long xdr_long)))).

Definition xdr_sattr : xdrproc S nfssattr :=
  xand (xfield sa_mode xdr_u_long) (xand (xfield sa_uid xdr_u_long) (xand (xfield sa_gid xdr_u_long)
    (xand (xfield sa_size xdr_u_long) (xand (xfield sa_atime xdr_timeval) (xfield sa_mtime xdr_timeval))))).

Definition xdr_rddirargs : xdrproc S nfsrddirargs :=
  xand (xfield rda_fh xdr_fhandle) (xand (xfield rda_offset xdr_u_long) (xfield rda_count xdr_u_long)).

Definition xdr_diropargs : xdrproc S nfsdiropargs :=
  xand (xfield da_fhandle xdr_fhandle) (xfield da_name (xdr_string NFS_MAXNAMLEN)).

Definition xdr_saargs : xdrproc S nfssaargs := xand (xfield saa_fh xdr_fhandle) (xfield saa_sa xdr_sattr).
Definition xdr_creatargs : xdrproc S nfscreatargs := xand (xfield ca_da xdr_diropargs) (xfield ca_sa xdr_sattr).
Definition xdr_linkargs : xdrproc S nfslinkargs := xand (xfield la_from xdr_fhandle) (xfield la_to xdr_diropargs).
Definition xdr_rnmargs : xdrproc S nfsrnmargs := xand (xfield rna_from xdr_diropargs) (xfield rna_to xdr_diropargs).
Definition xdr_slargs : xdrproc S nfsslargs :=
  xand (xfield sla_from xdr_diropargs) (xand (xfield sla_tnm (xdr_string MAXPATHLEN)) (xfield sla_sa xdr_sattr)).

(** ** Results *)

(** [IXDR_GET_LONG], [n] times. *)
Fixpoint ixdr_gets (x : XDR S) (buf : Z) (n : nat) : outcome (list Z) :=
  match n with
  | O => Ok []
  | Datatypes.S n => let* v := IXDR_GET_LONG x buf in let* l := ixdr_gets x v.2 n in Ok (v.1 :: l)
  end.

(** What goes out in line, and what is made of what comes in. *)
Definition fattr_put (na : nfsfattr) : list Z :=
  [na_type na; na_mode na; na_nlink na; na_uid na; na_gid na; na_size na; na_blocksize na; na_rdev na; na_blocks na;
   na_fsid na; na_nodeid na; tv_sec (na_atime na); tv_usec (na_atime na); tv_sec (na_mtime na); tv_usec (na_mtime na);
   tv_sec (na_ctime na); tv_usec (na_ctime na)].
Definition fattr_get (l : list Z) (na : nfsfattr) : nfsfattr :=
  match l with
  | [ty; mode; nlink; uid; gid; size; bs; rdev; blocks; fsid; nodeid; at_s; at_u; mt_s; mt_u; ct_s; ct_u] =>
      NfsFattr ty (u32 mode) (u32 nlink) (u32 uid) (u32 gid) (u32 size) (u32 bs) (u32 rdev) (u32 blocks) (u32 fsid)
        (u32 nodeid) (Timeval at_s at_u) (Timeval mt_s mt_u) (Timeval ct_s ct_u)
  | _ => na
  end.

Definition fattr_slow : xdrproc S nfsfattr :=
  xand (xfield na_type xdr_enum) (xand (xfield na_mode xdr_u_long) (xand (xfield na_nlink xdr_u_long)
    (xand (xfield na_uid xdr_u_long) (xand (xfield na_gid xdr_u_long) (xand (xfield na_size xdr_u_long)
      (xand (xfield na_blocksize xdr_u_long) (xand (xfield na_rdev xdr_u_long) (xand (xfield na_blocks xdr_u_long)
        (xand (xfield na_fsid xdr_u_long) (xand (xfield na_nodeid xdr_u_long) (xand (xfield na_atime xdr_timeval)
          (xand (xfield na_mtime xdr_timeval) (xfield na_ctime xdr_timeval))))))))))))).

Definition xdr_fattr : xdrproc S nfsfattr := fun x na =>
  match x_op x, XDR_INLINE x (17 * BYTES_PER_XDR_UNIT) with
  | XDR_ENCODE, (x, Some ptr) => let* r := ixdr_puts x ptr (fattr_put na) in Ok (r.1, na, true)
  | _, (x, Some ptr) => let* l := ixdr_gets x ptr 17 in Ok (x, fattr_get l na, true)
  | _, (x, None) => fattr_slow x na
  end.

(** A status, and the result when it is [NFS_OK]. *)
Definition xdr_result {A : Type} (p : xdrproc S A) : xdrproc S (Z * A) := xdr_union [(NFS_OK, p)] (Some xdr_void).

Definition xdr_attrstat : xdrproc S nfsattrstat := xpair ns_status ns_attr (xdr_result xdr_fattr).

Definition xdr_srok : xdrproc S nfssrok := xpair srok_data srok_count (xdr_bytes NFS_MAXPATHLEN).
Definition xdr_rdlnres : xdrproc S nfsrdlnres := xpair rl_status rl_srok (xdr_result xdr_srok).

Definition xdr_drok : xdrproc S nfsdrok := xand (xfield drok_fhandle xdr_fhandle) (xfield drok_attr xdr_fattr).
Definition xdr_diropres : xdrproc S nfsdiropres := xpair dr_status dr_drok (xdr_result xdr_drok).

Definition xdr_fsok : xdrproc S nfsstatfsok :=
  xand (xfield fsok_tsize (cast_long xdr_long)) (xand (xfield fsok_bsize (cast_long xdr_long))
    (xand (xfield fsok_blocks (cast_long xdr_long)) (xand (xfield fsok_bfree (cast_long xdr_long))
      (xfield fsok_bavail (cast_long xdr_long))))).
Definition xdr_statfs : xdrproc S nfsstatfs := xpair fs_status fs_fsok (xdr_result xdr_fsok).

End Routines.

(** *** What is read of a file *)

(** [mclgetx]: an mbuf around [len] bytes at [addr]; [got]: [MGET] gave one. *)
Definition mclgetx (got : bool) (addr : list Z) (len : Z) : outcome (option mbuf) :=
  if got then let* b := bytes_at addr 0 len in Ok (Some (Mbuf (Cluster 2) MT_DATA b)) else Ok None.

(** The result of [xdrmbuf_putlong] is not tested. *)
Definition xdrmbuf_putbuf (got : bool) (s : xdrmbuf) (addr : list Z) (len : Z) : outcome (xdrmbuf * bool) :=
  let* r := xdrmbuf_putlong s (s32 len) in
  let s := r.1 in
  let len := Z.land (u32 (len + 3)) (Z.lnot 3) in
  if negb (xb_base s) then Fault else
  let s := set_data s (take (Z.to_nat (m_len (xb_cur s) - xb_handy s)) (m_dat (xb_cur s))) in
  let* m := mclgetx got addr (s32 len) in
  match m with
  | None => Ok (s, false)
  | Some m => Ok (s <| xb_next := [m] |> <| xb_handy := 0 |>, true)
  end.

(** [got]: what the two allocations give. *)
Definition xdr_rrok `{Heap} (got : bool * bool) : xdrproc xdrmbuf nfsrrok := fun x rrok =>
  let* r := xfield rrok_attr xdr_fattr x rrok in
  if negb r.2 then Ok r else
  let '(x, rrok) := r.1 in
  match x_op x, rrok_bp rrok with
  | XDR_ENCODE, true =>
      if negb got.1 then Ok (x, rrok, false) else
      let* r := xdrmbuf_putbuf got.2 (x_str x) (behind (rrok_data rrok)) (rrok_count rrok) in
      Ok (x <| x_str := r.1 |>, rrok, r.2)
  | _, _ => xpair rrok_data rrok_count (xdr_bytes NFS_MAXDATA) x rrok
  end.

Definition xdr_rdresult `{Heap} (got : bool * bool) : xdrproc xdrmbuf nfsrdresult :=
  xpair rr_status rr_ok (xdr_result (xdr_rrok got)).

(** ** The arguments of the procedures, by number: [rfsdisptab] in [nfs_server.c]

    The arguments are read into memory that has been cleared; [dis_args0] is
    that memory as an object of the type. *)
Section Table.
Context {S : Type} `{XdrOps S} `{Heap}.

Record rfsargs := RfsArgs { dis_args : Type; dis_args0 : dis_args; dis_xdrargs : xdrproc S dis_args }.

Definition fhandle0 : fhandle_t := replicate 32 0.
Definition timeval0 : timeval := Timeval 0 0.
Definition sattr0 : nfssattr := NfsSattr 0 0 0 0 timeval0 timeval0.
Definition diropargs0 : nfsdiropargs := NfsDiropArgs fhandle0 None.

Definition args_void : rfsargs := RfsArgs unit tt xdr_void.
Definition args_fhandle : rfsargs := RfsArgs fhandle_t fhandle0 xdr_fhandle.
Definition args_diropargs : rfsargs := RfsArgs nfsdiropargs diropargs0 xdr_diropargs.
Definition args_creatargs : rfsargs := RfsArgs nfscreatargs (NfsCreatArgs diropargs0 sattr0) xdr_creatargs.

Definition rfsargtab : list rfsargs :=
  [args_void;                                                                              (* RFS_NULL *)
   args_fhandle;                                                                           (* RFS_GETATTR *)
   RfsArgs nfssaargs (NfsSaArgs fhandle0 sattr0) xdr_saargs;                               (* RFS_SETATTR *)
   args_void;                                                                              (* RFS_ROOT *)
   args_diropargs;                                                                         (* RFS_LOOKUP *)
   args_fhandle;                                                                           (* RFS_READLINK *)
   RfsArgs nfsreadargs (NfsReadArgs fhandle0 0 0 0) xdr_readargs;                          (* RFS_READ *)
   args_void;                                                                              (* RFS_WRITECACHE *)
   RfsArgs nfswriteargs (NfsWriteArgs fhandle0 0 0 0 0 None) xdr_writeargs;                (* RFS_WRITE *)
   args_creatargs;                                                                         (* RFS_CREATE *)
   args_diropargs;                                                                         (* RFS_REMOVE *)
   RfsArgs nfsrnmargs (NfsRnmArgs diropargs0 diropargs0) xdr_rnmargs;                      (* RFS_RENAME *)
   RfsArgs nfslinkargs (NfsLinkArgs fhandle0 diropargs0) xdr_linkargs;                     (* RFS_LINK *)
   RfsArgs nfsslargs (NfsSlArgs diropargs0 None sattr0) xdr_slargs;                        (* RFS_SYMLINK *)
   args_creatargs;                                                                         (* RFS_MKDIR *)
   args_diropargs;                                                                         (* RFS_RMDIR *)
   RfsArgs nfsrddirargs (NfsRddirArgs fhandle0 0 0) xdr_rddirargs;                         (* RFS_READDIR *)
   args_fhandle].                                                                          (* RFS_STATFS *)
End Table.
Arguments rfsargs S : clear implicits.
