(* ===== verification/NfsArgs.v ===== *)
(** * The arguments of NFS calls

    For each structure that goes over the wire as an argument: when it may be
    sent, as which bytes, what is read of them into what memory, and what a
    structure read from arbitrary bytes is like.  [XdrCorrect] says that a
    routine keeps to these over whatever kind of stream. *)
From S2P Require Import Prelude Mbuf In Xdr XdrSpec XdrMem XdrMbuf RpcMsg RpcCall NfsXdr.
#[local] Ltac Zify.zify_post_hook ::= Z.to_euclidean_division_equations.

(** ** What a routine does to a type *)

Class XdrCodec (A : Type) := {
  (** May be sent, and as these bytes. *)
  xc_ok : A -> Prop;
  xc_wire : A -> list Z;
  (** The object that may be read into, and what it becomes. *)
  xc_room : A -> Prop;
  xc_got : A -> A -> A;
  (** An object read from any bytes. *)
  xc_wf : A -> Prop
}.

Class XdrCorrect {S} `{XdrStream S} {A} `{XdrCodec A} (p : xdrproc S A) : Prop := {
  xc_sends a : xc_ok a -> sends p a (xc_wire a);
  xc_takes a0 a : xc_room a0 -> xc_ok a -> takes p (xc_wire a) a0 (xc_got a0 a);
  xc_safe a0 : xc_room a0 -> safe p a0 xc_wf
}.

(** *** Strings in memory *)

(** The characters up to the null. *)
Fixpoint cstring (b : list Z) : list Z :=
  match b with
  | [] => []
  | c :: b => if c =? 0 then [] else c :: cstring b
  end.

Lemma cstring_chars l c : chars l -> cstring (l ++ 0 :: c) = l.
Proof. induction 1 as [|x l Hx _ IH]; [done|]. cbn. rewrite (proj2 (Z.eqb_neq _ _)) by done. by rewrite IH. Qed.

(** A pointer to a string of at most [max] characters. *)
Definition name_ok (max : Z) (p : option (list Z)) : Prop :=
  exists l c, behind p = l ++ 0 :: c /\ chars l /\ zlen l <= max.
Definition name_wire (p : option (list Z)) : list Z := wire_bytes (cstring (behind p)).
Definition name_got (p0 p : option (list Z)) : option (list Z) := filled_string p0 (cstring (behind p)).
(** A pointer to memory with a null after at most [max] bytes. *)
Definition name_wf (max : Z) (p : option (list Z)) : Prop :=
  exists l c, p = Some (l ++ 0 :: c) /\ zlen l <= max.

(** Bytes counted by [n] behind a pointer. *)
Definition data_ok (max : Z) (p : option (list Z)) (n : Z) : Prop := 0 <= n <= max /\ n <= zlen (behind p).
Definition data_of (p : option (list Z)) (n : Z) : list Z := take (Z.to_nat n) (behind p).

Section Streams.
Context {S : Type} {ops : XdrOps S} {str : XdrStream S} {hp : Heap}.

Lemma sends_name max p : max < 2 ^ 31 -> name_ok max p -> sends (xdr_string max) p (name_wire p).
Proof.
  intros Hm (l & c & Hp & Hc & Hl). unfold name_wire. rewrite Hp, cstring_chars by done. by apply (sends_string max p l c).
Qed.
Lemma takes_name {hok : HeapOk} max p0 p : max + 1 < 2 ^ 31 -> room p0 (max + 1) -> name_ok max p ->
  takes (xdr_string max) (name_wire p) p0 (name_got p0 p).
Proof.
  intros Hm Hr (l & c & Hp & Hc & Hl). unfold name_wire, name_got. rewrite Hp, cstring_chars by done. by apply takes_string.
Qed.
Lemma safe_name {hok : HeapOk} max p0 : max + 1 < 2 ^ 31 -> room p0 (max + 1) -> safe (xdr_string max) p0 (name_wf max).
Proof. intros Hm Hr. apply safe_string; [done|done|]. intros l Hl. by eexists l, _. Qed.

Lemma data_split max p n : data_ok max p n -> exists c, behind p = data_of p n ++ c /\ zlen (data_of p n) = n.
Proof.
  intros [Hn Hb]. exists (drop (Z.to_nat n) (behind p)). unfold data_of. rewrite take_drop. split; [done|].
  unfold zlen in *. rewrite length_take. lia.
Qed.
Lemma sends_data max p n : max < 2 ^ 31 -> data_ok max p n -> sends (xdr_bytes max) (p, n) (wire_bytes (data_of p n)).
Proof. intros Hm Hd. destruct (data_split _ _ _ Hd) as (c & Hp & Hl). rewrite <- Hl at 1. apply (sends_bytes max p _ c Hp). unfold data_ok in Hd. lia. Qed.
Lemma takes_data {hok : HeapOk} max p0 n0 p n : max < 2 ^ 31 -> room p0 max -> data_ok max p n ->
  takes (xdr_bytes max) (wire_bytes (data_of p n)) (p0, n0) (filled p0 (data_of p n), n).
Proof.
  intros Hm Hr Hd. destruct (data_split _ _ _ Hd) as (c & _ & Hl). rewrite <- Hl at 3.
  apply takes_bytes; [unfold data_ok in Hd; lia|done|apply wire_bytes_counted].
Qed.
Lemma safe_data {hok : HeapOk} max p0 n0 : max < 2 ^ 31 -> room p0 max ->
  safe (xdr_bytes max) (p0, n0) (fun v => data_ok max v.1 v.2).
Proof.
  intros Hm Hr. apply safe_bytes; [done|done|]. intros l Hl. pose proof (zlen_nonneg l). pose proof (filled_room p0 l).
  unfold data_ok, behind. cbn. lia.
Qed.
End Streams.

(** ** The structures *)

#[export] Instance codec_fhandle : XdrCodec fhandle_t := {
  xc_ok fh := zlen fh = NFS_FHSIZE;
  xc_wire fh := fh;
  xc_room fh := zlen fh = NFS_FHSIZE;
  xc_got _ fh := fh;
  xc_wf fh := zlen fh = NFS_FHSIZE
}.

Definition time_ok (t : timeval) : Prop := s_long (tv_sec t) /\ s_long (tv_usec t).
Definition sattr_ok (a : nfssattr) : Prop :=
  u_long (sa_mode a) /\ u_long (sa_uid a) /\ u_long (sa_gid a) /\ u_long (sa_size a) /\ time_ok (sa_atime a) /\ time_ok (sa_mtime a).

#[export] Instance codec_timeval : XdrCodec timeval := {
  xc_ok := time_ok;
  xc_wire t := words [tv_sec t; tv_usec t];
  xc_room _ := True;
  xc_got _ t := t;
  xc_wf := time_ok
}.

#[export] Instance codec_sattr : XdrCodec nfssattr := {
  xc_ok := sattr_ok;
  xc_wire a := words [sa_mode a; sa_uid a; sa_gid a; sa_size a] ++ xc_wire (sa_atime a) ++ xc_wire (sa_mtime a);
  xc_room _ := True;
  xc_got _ a := a;
  xc_wf := sattr_ok
}.

#[export] Instance codec_writeargs : XdrCodec nfswriteargs := {
  xc_ok a := xc_ok (wa_fhandle a) /\ u_long (wa_begoff a) /\ u_long (wa_offset a) /\ u_long (wa_totcount a) /\
    data_ok NFS_MAXDATA (wa_data a) (wa_count a);
  xc_wire a := wa_fhandle a ++ words [wa_begoff a; wa_offset a; wa_totcount a] ++ wire_bytes (data_of (wa_data a) (wa_count a));
  xc_room a := xc_room (wa_fhandle a) /\ room (wa_data a) NFS_MAXDATA;
  xc_got a0 a := a <| wa_data := filled (wa_data a0) (data_of (wa_data a) (wa_count a)) |>;
  xc_wf a := xc_wf (wa_fhandle a) /\ u_long (wa_begoff a) /\ u_long (wa_offset a) /\ u_long (wa_totcount a) /\
    data_ok NFS_MAXDATA (wa_data a) (wa_count a)
}.

Definition readargs_ok (a : nfsreadargs) : Prop :=
  xc_ok (ra_fhandle a) /\ u_long (ra_offset a) /\ u_long (ra_count a) /\ u_long (ra_totcount a).
#[export] Instance codec_readargs : XdrCodec nfsreadargs := {
  xc_ok := readargs_ok;
  xc_wire a := ra_fhandle a ++ words [ra_offset a; ra_count a; ra_totcount a];
  xc_room a := xc_room (ra_fhandle a);
  xc_got _ a := a;
  xc_wf := readargs_ok
}.

Definition rddirargs_ok (a : nfsrddirargs) : Prop := xc_ok (rda_fh a) /\ u_long (rda_offset a) /\ u_long (rda_count a).
#[export] Instance codec_rddirargs : XdrCodec nfsrddirargs := {
  xc_ok := rddirargs_ok;
  xc_wire a := rda_fh a ++ words [rda_offset a; rda_count a];
  xc_room a := xc_room (rda_fh a);
  xc_got _ a := a;
  xc_wf := rddirargs_ok
}.

#[export] Instance codec_diropargs : XdrCodec nfsdiropargs := {
  xc_ok a := xc_ok (da_fhandle a) /\ name_ok NFS_MAXNAMLEN (da_name a);
  xc_wire a := da_fhandle a ++ name_wire (da_name a);
  xc_room a := xc_room (da_fhandle a) /\ room (da_name a) (NFS_MAXNAMLEN + 1);
  xc_got a0 a := a <| da_name := name_got (da_name a0) (da_name a) |>;
  xc_wf a := xc_wf (da_fhandle a) /\ name_wf NFS_MAXNAMLEN (da_name a)
}.

#[export] Instance codec_saargs : XdrCodec nfssaargs := {
  xc_ok a := xc_ok (saa_fh a) /\ xc_ok (saa_sa a);
  xc_wire a := saa_fh a ++ xc_wire (saa_sa a);
  xc_room a := xc_room (saa_fh a);
  xc_got _ a := a;
  xc_wf a := xc_wf (saa_fh a) /\ xc_wf (saa_sa a)
}.

#[export] Instance codec_creatargs : XdrCodec nfscreatargs := {
  xc_ok a := xc_ok (ca_da a) /\ xc_ok (ca_sa a);
  xc_wire a := xc_wire (ca_da a) ++ xc_wire (ca_sa a);
  xc_room a := xc_room (ca_da a);
  xc_got a0 a := a <| ca_da := xc_got (ca_da a0) (ca_da a) |>;
  xc_wf a := xc_wf (ca_da a) /\ xc_wf (ca_sa a)
}.

#[export] Instance codec_linkargs : XdrCodec nfslinkargs := {
  xc_ok a := xc_ok (la_from a) /\ xc_ok (la_to a);
  xc_wire a := la_from a ++ xc_wire (la_to a);
  xc_room a := xc_room (la_from a) /\ xc_room (la_to a);
  xc_got a0 a := a <| la_to := xc_got (la_to a0) (la_to a) |>;
  xc_wf a := xc_wf (la_from a) /\ xc_wf (la_to a)
}.

#[export] Instance codec_rnmargs : XdrCodec nfsrnmargs := {
  xc_ok a := xc_ok (rna_from a) /\ xc_ok (rna_to a);
  xc_wire a := xc_wire (rna_from a) ++ xc_wire (rna_to a);
  xc_room a := xc_room (rna_from a) /\ xc_room (rna_to a);
  xc_got a0 a := NfsRnmArgs (xc_got (rna_from a0) (rna_from a)) (xc_got (rna_to a0) (rna_to a));
  xc_wf a := xc_wf (rna_from a) /\ xc_wf (rna_to a)
}.

#[export] Instance codec_slargs : XdrCodec nfsslargs := {
  xc_ok a := xc_ok (sla_from a) /\ name_ok MAXPATHLEN (sla_tnm a) /\ xc_ok (sla_sa a);
  xc_wire a := xc_wire (sla_from a) ++ name_wire (sla_tnm a) ++ xc_wire (sla_sa a);
  xc_room a := xc_room (sla_from a) /\ room (sla_tnm a) (MAXPATHLEN + 1);
  xc_got a0 a := NfsSlArgs (xc_got (sla_from a0) (sla_from a)) (name_got (sla_tnm a0) (sla_tnm a)) (sla_sa a);
  xc_wf a := xc_wf (sla_from a) /\ name_wf MAXPATHLEN (sla_tnm a) /\ xc_wf (sla_sa a)
}.

(** ** The routines keep to them *)

Section Correct.
Context {S : Type} {ops : XdrOps S} {str : XdrStream S} {hp : Heap} {hok : HeapOk}.
#[local] Set Default Proof Using "All".

(** A structure, member by member. *)
Ltac sends_members := lazymatch goal with
  | |- sends (xand _ _) _ _ => apply sends_and; sends_members
  | |- sends (xfield ?f ?p) ?a _ => apply sends_field; [by destruct a|];
      lazymatch type of (f a) with
      | Z => solve [eauto with xdr]
      | option _ => by apply sends_name
      | _ => by apply xc_sends
      end
  | |- sends (xpair _ _ _) ?a _ => apply sends_pair; [by destruct a|by apply sends_data]
  end.
Ltac safe_members := lazymatch goal with
  | |- safe (xand (xfield ?f ?p) _) ?a _ => eapply (safe_then f p); [let v := constr:(f a) in safe_member v|intros ? ?; safe_members]
  | |- safe (xfield ?f ?p) ?a _ => eapply (safe_last f p); [let v := constr:(f a) in safe_member v|intros ? ?]
  | |- safe (xpair _ _ _) _ _ => eapply safe_pair
  end
with safe_member v := lazymatch type of v with
  | Z => solve [eauto with xdr]
  | option _ => by apply safe_name
  | _ => apply xc_safe; first [done|by cbn]
  end.

(** What is read is the structure [a]. *)
Ltac takes_members a := lazymatch goal with
  | |- takes (xand _ _) _ _ _ => eapply takes_and; takes_members a
  | |- takes (xfield ?f ?p) _ _ _ => lazymatch type of (f a) with
      | Z => eapply (takes_field f p _ _ (f a)); solve [eauto with xdr]
      | option _ => eapply (takes_field f p); eapply (takes_name _ _ (f a)); done
      | _ => eapply (takes_field f p); eapply (xc_takes _ (f a)); first [done|by cbn]
      end
  | |- takes (xpair ?f ?g ?p) _ _ _ => eapply (takes_pair f g p); eapply (takes_data _ _ _ (f a) (g a)); done
  end.

Ltac wires := rewrite ?words_cons; change (words []) with (@nil Z); rewrite ?app_nil_r, <- ?app_assoc; reflexivity.

#[export] Instance fhandle_correct : XdrCorrect (xdr_fhandle (S := S)).
Proof.
  split; cbn [xc_ok xc_wire xc_room xc_got xc_wf codec_fhandle]; unfold xdr_fhandle.
  - intros fh Hl. rewrite <- Hl. pose proof (sends_opaque fh [] ltac:(by rewrite Hl)) as Hs.
    rewrite app_nil_r in Hs. eapply sends_to; [exact Hs|]. unfold wire_opaque. rewrite Hl. by rewrite app_nil_r.
  - intros fh0 fh H0 Hl. rewrite <- Hl. pose proof (takes_opaque_pad fh [] fh0 ltac:(by rewrite Hl, H0) ltac:(by rewrite Hl) ltac:(by rewrite Hl)) as Ht.
    eapply takes_to; [exact Ht|by rewrite app_nil_r|]. rewrite drop_ge, app_nil_r by (unfold zlen, NFS_FHSIZE in *; lia). done.
  - intros fh0 H0. apply safe_opaque; [by rewrite H0|done|]. intros l Hl. rewrite drop_ge, app_nil_r by (unfold zlen, NFS_FHSIZE in *; lia). done.
Qed.

#[export] Instance timeval_correct : XdrCorrect (xdr_timeval (S := S)).
Proof.
  split; cbn [xc_ok xc_wire xc_room xc_got xc_wf codec_timeval]; unfold xdr_timeval; change xdr_long with (xdr_enum (S := S)).
  - intros t [H1 H2]. eapply sends_to; [sends_members|wires].
  - intros t0 t _ [H1 H2]. eapply takes_to; [takes_members t|wires|by destruct t].
  - intros t0 _. safe_members. by split.
Qed.

#[export] Instance sattr_correct : XdrCorrect (xdr_sattr (S := S)).
Proof.
  split; cbn [xc_ok xc_wire xc_room xc_got xc_wf codec_sattr]; unfold xdr_sattr.
  - intros a (H1 & H2 & H3 & H4 & H5 & H6). eapply sends_to; [sends_members|wires].
  - intros a0 a _ (H1 & H2 & H3 & H4 & H5 & H6). eapply takes_to; [takes_members a|wires|by destruct a].
  - intros a0 _. safe_members. repeat first [assumption|split].
Qed.

#[export] Instance writeargs_correct : XdrCorrect (xdr_writeargs (S := S)).
Proof.
  split; cbn [xc_ok xc_wire xc_room xc_got xc_wf codec_writeargs]; unfold xdr_writeargs.
  - intros a (H1 & H2 & H3 & H4 & H5). eapply sends_to; [sends_members|wires].
  - intros a0 a (H1 & H2) (H3 & H4 & H5 & H6 & H7). eapply takes_to; [takes_members a|wires|by destruct a].
  - intros a0 (H1 & H2). safe_members. eapply safe_mono; [by apply safe_data|]. intros [p n] Hv. repeat first [assumption|split].
Qed.

#[export] Instance readargs_correct : XdrCorrect (xdr_readargs (S := S)).
Proof.
  split; cbn [xc_ok xc_wire xc_room xc_got xc_wf codec_readargs]; unfold xdr_readargs.
  - intros a (H1 & H2 & H3 & H4). eapply sends_to; [sends_members|wires].
  - intros a0 a H0 (H1 & H2 & H3 & H4). eapply takes_to; [takes_members a|wires|by destruct a].
  - intros a0 H0. safe_members. repeat first [assumption|split].
Qed.

#[export] Instance rddirargs_correct : XdrCorrect (xdr_rddirargs (S := S)).
Proof.
  split; cbn [xc_ok xc_wire xc_room xc_got xc_wf codec_rddirargs]; unfold xdr_rddirargs.
  - intros a (H1 & H2 & H3). eapply sends_to; [sends_members|wires].
  - intros a0 a H0 (H1 & H2 & H3). eapply takes_to; [takes_members a|wires|by destruct a].
  - intros a0 H0. safe_members. repeat first [assumption|split].
Qed.

#[export] Instance diropargs_correct : XdrCorrect (xdr_diropargs (S := S)).
Proof.
  split; cbn [xc_ok xc_wire xc_room xc_got xc_wf codec_diropargs]; unfold xdr_diropargs.
  - intros a (H1 & H2). eapply sends_to; [sends_members|wires].
  - intros a0 a (H1 & H2) (H3 & H4). eapply takes_to; [takes_members a|wires|by destruct a].
  - intros a0 (H1 & H2). safe_members. repeat first [assumption|split].
Qed.

#[export] Instance saargs_correct : XdrCorrect (xdr_saargs (S := S)).
Proof.
  split; cbn [xc_ok xc_wire xc_room xc_got xc_wf codec_saargs]; unfold xdr_saargs.
  - intros a (H1 & H2). eapply sends_to; [sends_members|wires].
  - intros a0 a H0 (H1 & H2). eapply takes_to; [takes_members a|wires|by destruct a].
  - intros a0 H0. safe_members. repeat first [assumption|split].
Qed.

#[export] Instance creatargs_correct : XdrCorrect (xdr_creatargs (S := S)).
Proof.
  split; cbn [xc_ok xc_wire xc_room xc_got xc_wf codec_creatargs]; unfold xdr_creatargs.
  - intros a (H1 & H2). eapply sends_to; [sends_members|wires].
  - intros a0 a H0 (H1 & H2). eapply takes_to; [takes_members a|wires|by destruct a].
  - intros a0 H0. safe_members. repeat first [assumption|split].
Qed.

#[export] Instance linkargs_correct : XdrCorrect (xdr_linkargs (S := S)).
Proof.
  split; cbn [xc_ok xc_wire xc_room xc_got xc_wf codec_linkargs]; unfold xdr_linkargs.
  - intros a (H1 & H2). eapply sends_to; [sends_members|wires].
  - intros a0 a (H1 & H2) (H3 & H4). eapply takes_to; [takes_members a|wires|by destruct a].
  - intros a0 (H1 & H2). safe_members. repeat first [assumption|split].
Qed.

#[export] Instance rnmargs_correct : XdrCorrect (xdr_rnmargs (S := S)).
Proof.
  split; cbn [xc_ok xc_wire xc_room xc_got xc_wf codec_rnmargs]; unfold xdr_rnmargs.
  - intros a (H1 & H2). eapply sends_to; [sends_members|wires].
  - intros a0 a (H1 & H2) (H3 & H4). eapply takes_to; [takes_members a|wires|by destruct a].
  - intros a0 (H1 & H2). safe_members. repeat first [assumption|split].
Qed.

#[export] Instance slargs_correct : XdrCorrect (xdr_slargs (S := S)).
Proof.
  split; cbn [xc_ok xc_wire xc_room xc_got xc_wf codec_slargs]; unfold xdr_slargs.
  - intros a (H1 & H2 & H3). eapply sends_to; [sends_members|wires].
  - intros a0 a (H1 & H2) (H3 & H4 & H5). eapply takes_to; [takes_members a|wires|by destruct a].
  - intros a0 (H1 & H2). safe_members. repeat first [assumption|split].
Qed.
End Correct.

(** ** The properties *)

(** Objects of [A] go from any stream to any stream by way of [p]: they go out
    as their bytes, and are read from these into [a0] as [xc_got a0] says. *)
Definition travels {A} `{XdrCodec A} (a0 : A) (p : forall S (ops : XdrOps S), xdrproc S A) : Prop :=
  forall S (ops : XdrOps S) (str : XdrStream S) T (ops' : XdrOps T) (str' : XdrStream T) (s : S) d r a,
  xc_ok a -> stands s d r -> at4 d -> zlen (xc_wire a) <= zlen r ->
  exists s', p S ops (Xdr XDR_ENCODE s) a = Ok (Xdr XDR_ENCODE s', a, true) /\
    stands s' (d ++ xc_wire a) (drop (length (xc_wire a)) r) /\
    forall (t : T) d' r', stands t d' (xc_wire a ++ r') -> at4 d' ->
      exists t', p T ops' (Xdr XDR_DECODE t) a0 = Ok (Xdr XDR_DECODE t', xc_got a0 a, true) /\
        stands t' (d' ++ xc_wire a) r'.

Lemma correct_travels {hp : Heap} {A} `{XdrCodec A} (a0 : A) (p : forall S (ops : XdrOps S), xdrproc S A) :
  (forall S (ops : XdrOps S) (str : XdrStream S), XdrCorrect (p S ops)) -> xc_room a0 -> travels a0 p.
Proof.
  intros Hp Hr S ops str T ops' str' s d r a Ha Hs Hd Hroom.
  destruct (xc_sends (p := p S ops) a Ha) as [_ H1]. specialize (H1 s d r Hs Hd).
  rewrite (proj2 (Z.leb_le _ _)) in H1 by done. destruct H1 as (s' & E & S'). exists s'. split; [done|]. split; [done|].
  intros t d' r' Ht Hd'. destruct (xc_takes (p := p T ops') a0 a Hr Ha) as [_ H2]. exact (H2 t d' r' Ht Hd').
Qed.

(** Arguments that have been read. *)
Inductive args_wf `{Heap} {S} {ops : XdrOps S} : forall e : rfsargs S, dis_args e -> Prop :=
  | wf_void : args_wf args_void tt
  | wf_fhandle fh : xc_wf fh -> args_wf args_fhandle fh
  | wf_saargs a : xc_wf a -> args_wf (RfsArgs nfssaargs (NfsSaArgs fhandle0 sattr0) xdr_saargs) a
  | wf_diropargs a : xc_wf a -> args_wf args_diropargs a
  | wf_readargs a : xc_wf a -> args_wf (RfsArgs nfsreadargs (NfsReadArgs fhandle0 0 0 0) xdr_readargs) a
  | wf_writeargs a : xc_wf a -> args_wf (RfsArgs nfswriteargs (NfsWriteArgs fhandle0 0 0 0 0 None) xdr_writeargs) a
  | wf_creatargs a : xc_wf a -> args_wf args_creatargs a
  | wf_rnmargs a : xc_wf a -> args_wf (RfsArgs nfsrnmargs (NfsRnmArgs diropargs0 diropargs0) xdr_rnmargs) a
  | wf_linkargs a : xc_wf a -> args_wf (RfsArgs nfslinkargs (NfsLinkArgs fhandle0 diropargs0) xdr_linkargs) a
  | wf_slargs a : xc_wf a -> args_wf (RfsArgs nfsslargs (NfsSlArgs diropargs0 None sattr0) xdr_slargs) a
  | wf_rddirargs a : xc_wf a -> args_wf (RfsArgs nfsrddirargs (NfsRddirArgs fhandle0 0 0) xdr_rddirargs) a.

Lemma args_safe {S} {ops : XdrOps S} {str : XdrStream S} {hp : Heap} {hok : HeapOk} (e : rfsargs S) :
  e ∈ rfsargtab -> safe (dis_xdrargs e) (dis_args0 e) (args_wf e).
Proof.
  unfold rfsargtab. rewrite !elem_of_cons. intros He.
  assert (Hv : safe (dis_xdrargs (args_void (S := S))) (dis_args0 args_void) (args_wf args_void)).
  { apply safe_void. constructor. }
  repeat (destruct He as [->|He]; [first [exact Hv|eapply safe_mono; [by apply xc_safe|intros; by constructor]]|]).
  by apply elem_of_nil in He.
Qed.

(** C12: the types of the arguments.  Whatever bytes follow the header of a call,
    for each of the eighteen procedures the routine of the dispatch table reads
    them inside its objects, and the arguments it accepts are of their types: a
    handle of [NFS_FHSIZE] bytes, numbers in range, names that end with a null
    after at most [NFS_MAXNAMLEN] (the text of a link: [MAXPATHLEN]) bytes, and
    for a write a count of at most [NFS_MAXDATA] with the memory for it. *)
Theorem nfs_args_typed {S} {ops : XdrOps S} {str : XdrStream S} {hp : Heap} {hok : HeapOk} which e (s : S) d r :
  rfsargtab !! which = Some e -> stands s d r -> at4 d ->
  exists s' a ok, dis_xdrargs e (Xdr XDR_DECODE s) (dis_args0 e) = Ok (Xdr XDR_DECODE s', a, ok) /\
    (ok = true -> args_wf e a).
Proof.
  intros He Hs Hd. apply list_elem_of_lookup_2 in He.
  destruct (args_safe e He s d r Hs Hd) as (s' & a & ok & E & H). exists s', a, ok. split; [done|]. intros Hok. by destruct (H Hok).
Qed.

(** C32: arguments go over the wire.  For each structure that is an argument of
    a procedure: valid arguments go out as their bytes, and a server that has
    cleared its memory reads from those, off any other kind of stream, the same
    numbers, handle, characters and data. *)
Theorem nfs_args_roundtrip {hp : Heap} {hok : HeapOk} :
  travels fhandle0 (fun S ops => xdr_fhandle) /\
  travels (NfsSaArgs fhandle0 sattr0) (fun S ops => xdr_saargs) /\
  travels diropargs0 (fun S ops => xdr_diropargs) /\
  travels (NfsReadArgs fhandle0 0 0 0) (fun S ops => xdr_readargs) /\
  travels (NfsWriteArgs fhandle0 0 0 0 0 None) (fun S ops => xdr_writeargs) /\
  travels (NfsCreatArgs diropargs0 sattr0) (fun S ops => xdr_creatargs) /\
  travels (NfsRnmArgs diropargs0 diropargs0) (fun S ops => xdr_rnmargs) /\
  travels (NfsLinkArgs fhandle0 diropargs0) (fun S ops => xdr_linkargs) /\
  travels (NfsSlArgs diropargs0 None sattr0) (fun S ops => xdr_slargs) /\
  travels (NfsRddirArgs fhandle0 0 0) (fun S ops => xdr_rddirargs).
Proof. repeat split; (apply correct_travels; [intros; apply _|by repeat split]). Qed.

#[local] Existing Instances sample_heap sample_heap_ok.

(** The name [etc/motd] in a directory, as an argument of a lookup. *)
Definition sample_name : list Z := [101; 116; 99; 47; 109; 111; 116; 100].
Definition sample_diropargs : nfsdiropargs := NfsDiropArgs (replicate 32 7) (Some (sample_name ++ [0])).

Lemma nfs_args_typed_witness : exists s' a,
  dis_xdrargs args_diropargs (xdrmem_create (xc_wire sample_diropargs) 44 XDR_DECODE) diropargs0 = Ok (Xdr XDR_DECODE s', a, true) /\
  args_wf args_diropargs a /\ a = sample_diropargs.
Proof.
  destruct (nfs_args_typed (S := xdrmem) 4 args_diropargs (x_str (xdrmem_create (xc_wire sample_diropargs) 44 XDR_DECODE)) []
    (xc_wire sample_diropargs)) as (s' & a & ok & E & H);
    [done|exact (xdrmem_create_stands (xc_wire sample_diropargs) 44 XDR_DECODE ltac:(done) ltac:(done))|done|].
  exists s', a. assert (ok = true) as -> by (vm_compute in E; congruence). split; [exact E|]. split; [by apply H|].
  vm_compute in E. by injection E as _ <-.
Defined.

(** Instances for the hypotheses of the round trip. *)
Lemma nfs_args_roundtrip_witness : HeapOk (H := sample_heap) /\ exists s' t',
  xdr_diropargs (xdrmbuf_init call_mbuf call_next XDR_ENCODE) sample_diropargs = Ok (Xdr XDR_ENCODE s', sample_diropargs, true) /\
  xdr_diropargs (xdrmem_create (xc_wire sample_diropargs) 44 XDR_DECODE) diropargs0 = Ok (Xdr XDR_DECODE t', sample_diropargs, true).
Proof.
  split; [exact sample_heap_ok|]. destruct nfs_args_roundtrip as (_ & _ & H & _).
  destruct (H xdrmbuf _ xdrmbuf_stream xdrmem _ xdrmem_stream (x_str (xdrmbuf_init call_mbuf call_next XDR_ENCODE)) [] (replicate 64 0)
    sample_diropargs) as (s' & E & _ & Hd); [| |done|done|].
  - split; [done|]. exists sample_name, []. split; [done|]. split; [by repeat constructor|done].
  - exact (xdrmbuf_init_stands call_mbuf call_next XDR_ENCODE ltac:(done) ltac:(repeat constructor; done) ltac:(done)).
  - destruct (Hd (x_str (xdrmem_create (xc_wire sample_diropargs) 44 XDR_DECODE)) [] []) as (t' & E' & _); [|done|].
    + exact (xdrmem_create_stands (xc_wire sample_diropargs) 44 XDR_DECODE ltac:(done) ltac:(done)).
    + exists s', t'. split; [exact E|exact E'].
Defined.
