(* ===== verification/NfsDir.v ===== *)
(** * Directories on the wire: [xdr_putrddirres], [xdr_getrddirres] of [sys/nfs/nfs_xdr.c]

    The entries of a directory are records of a length of their own in one
    block of memory, [rd_entries]; a [struct direct] is read and written by its
    address in the block.  The server sends those in use, each with its number,
    its name and the offset behind it, and the client packs them again.  Every
    step of the first loop passes an entry of at least nine bytes, and every step
    of the second one of at least twelve in a buffer of less than 64K, so the
    size of the buffer is fuel enough. *)
From S2P Require Import Prelude Mbuf In Xdr XdrSpec XdrMem XdrMbuf RpcMsg RpcCall NfsXdr.
#[local] Ltac Zify.zify_post_hook ::= Z.to_euclidean_division_equations.

(** ** Data *)

Definition MAXNAMLEN : Z := 255.

Record nfsrddirres := NfsRddirRes {
  rd_bufsize : Z; rd_status : Z; rd_offset : Z; rd_size : Z; rd_eof : Z; rd_entries : list Z
}.
#[export] Instance settable_nfsrddirres : Settable nfsrddirres := fun r =>
  NfsRddirRes (rd_bufsize r) (rd_status r) (rd_offset r) (rd_size r) (rd_eof r) (rd_entries r).

(** A short in memory. *)
Definition load_short (l : list Z) : Z := match l with [a; b] => Z.lor a (Z.shiftl b 8) | _ => 0 end.
Definition store_short (x : Z) : list Z := [Z.land x 0xff; Z.land (Z.shiftr x 8) 0xff].

(** The members of the [struct direct] at [dp]; [d_name] is an address. *)
Definition d_fileno (m : list Z) (dp : Z) : outcome Z := let* b := bytes_at m dp 4 in Ok (load_long b).
Definition d_reclen (m : list Z) (dp : Z) : outcome Z := let* b := bytes_at m (dp + 4) 2 in Ok (load_short b).
Definition d_namlen (m : list Z) (dp : Z) : outcome Z := let* b := bytes_at m (dp + 6) 2 in Ok (load_short b).
Definition d_name (dp : Z) : Z := dp + 8.

Definition sizeof_direct : Z := 4 + 2 + 2 + (MAXNAMLEN + 1).
Definition DIRSIZ (namlen : Z) : Z := sizeof_direct - MAXNAMLEN + namlen.

Definition roundtoint (x : Z) : Z := Z.land (x + 4) (Z.lnot 3).
Definition reclen (namlen : Z) : Z := roundtoint (namlen + 1 + 4 + 2 * 2).

(** ** Operations *)

Section Routines.
Context {S : Type} `{XdrOps S} `{Heap}.

(** What goes out of an entry: the four objects of the condition. *)
Record dirent := Dirent { de_valid : Z; de_fid : Z; de_name : option (list Z); de_namlen : Z; de_nxtoffset : Z }.
#[export] Instance settable_dirent : Settable dirent := fun e =>
  Dirent (de_valid e) (de_fid e) (de_name e) (de_namlen e) (de_nxtoffset e).

Definition xdr_dirent : xdrproc S dirent :=
  xand (xfield de_valid xdr_bool) (xand (xfield de_fid xdr_u_long)
    (xand (xpair de_name de_namlen (xdr_bytes NFS_MAXNAMLEN)) (xfield de_nxtoffset xdr_u_long))).

Fixpoint putdir_loop (fuel : nat) (x : XDR S) (rd : nfsrddirres) (dp size offset xdrpos : Z)
    : outcome (XDR S * nfsrddirres * bool) :=
  if negb (0 <? size) then Ok (x, rd, true) else
  match fuel with
  | O => Fault
  | Datatypes.S fuel =>
      let m := rd_entries rd in
      let* rl := d_reclen m dp in
      let* bad := if rl =? 0 then Ok true else let* nl := d_namlen m dp in Ok (rl <? DIRSIZ nl) in
      if bad then Ok (x, rd, false) else
      let offset := u32 (offset + rl) in
      let* fid := d_fileno m dp in
      if fid =? 0 then putdir_loop fuel x rd (dp + rl) (size - rl) offset xdrpos else
      let* namlen := d_namlen m dp in
      let* r := xdr_dirent x (Dirent 1 fid (Some (drop (Z.to_nat (d_name dp)) m)) namlen offset) in
      let x := r.1.1 in
      if negb r.2 then Ok (x, rd, false) else
      let* pos := x_getpostn (x_str x) in
      if rd_bufsize rd <=? u32 (pos - xdrpos) then Ok (x, rd <| rd_eof := 0 |>, true)
      else putdir_loop fuel x rd (dp + rl) (size - rl) offset xdrpos
  end.

Definition xdr_putrddirres : xdrproc S nfsrddirres := fun x rd =>
  match x_op x with
  | XDR_ENCODE =>
      let* r := xfield rd_status xdr_enum x rd in
      let '(x, rd, ok) := r in
      if negb ok then Ok (x, rd, false)
      else if negb (rd_status rd =? NFS_OK) then Ok (x, rd, true) else
      let* xdrpos := x_getpostn (x_str x) in
      let size := s32 (rd_size rd) in
      let* r := putdir_loop (Z.to_nat size) x rd 0 size (rd_offset rd) xdrpos in
      let '(x, rd, ok) := r in
      if negb ok then Ok (x, rd, false) else
      let* r := xdr_bool x 0 in
      if negb r.2 then Ok (r.1.1, rd, false) else xfield rd_eof xdr_bool r.1.1 rd
  | _ => Ok (x, rd, false)
  end.

(** A routine for a number at the address [off] of the memory [m], of [n] bytes. *)
Definition at_address (p : xdrproc S Z) (load : list Z -> Z) (store : Z -> list Z) (n off : Z) : xdrproc S (list Z) := fun x m =>
  let* v := match x_op x with XDR_ENCODE => let* b := bytes_at m off n in Ok (load b) | _ => Ok 0 end in
  let* r := p x v in
  match x_op x, r.2 with
  | XDR_DECODE, true => let* m := bcopy_to m off (store r.1.2) in Ok (r.1.1, m, true)
  | _, ok => Ok (r.1.1, m, ok)
  end.

(** [size] is what is left of the buffer at [dp]. *)
Definition fits (dp size : Z) : xdrproc S (list Z) := fun x m => let* nl := d_namlen m dp in Ok (x, m, reclen nl <=? size).

Definition getdir_name (dp : Z) : xdrproc S (list Z) := fun x m =>
  let* nl := d_namlen m dp in
  let* r := xdr_opaque nl x (drop (Z.to_nat (d_name dp)) m) in
  Ok (r.1.1, take (Z.to_nat (d_name dp)) m ++ r.1.2, r.2).

Definition getdir_entry (dp size : Z) : xdrproc S (list Z) :=
  xand (at_address xdr_u_long load_long store_long 4 dp) (xand (at_address xdr_u_short load_short store_short 2 (dp + 6))
    (xand (fits dp size) (getdir_name dp))).

(** The result: the memory, [dp] and [offset]. *)
Fixpoint getdir_loop (fuel : nat) (x : XDR S) (m : list Z) (dp size offset valid : Z)
    : outcome (XDR S * (list Z * Z * Z) * bool) :=
  let* r := xdr_bool x valid in
  let '(x, valid, ok) := r in
  if negb ok then Ok (x, (m, dp, offset), false)
  else if negb (nz valid) then Ok (x, (m, dp, offset), true) else
  match fuel with
  | O => Fault
  | Datatypes.S fuel =>
      let* r := getdir_entry dp size x m in
      let '(x, m, ok) := r in
      if negb ok then Ok (x, (m, dp, offset), false) else
      let* r := xdr_u_long x offset in
      let '(x, offset, ok) := r in
      if negb ok then Ok (x, (m, dp, offset), false) else
      let* nl := d_namlen m dp in
      let* m := bcopy_to m (dp + 4) (store_short (reclen nl)) in
      let* m := bcopy_to m (d_name dp + nl) [0] in
      let* rl := d_reclen m dp in
      if size - rl <=? 0 then Ok (x, (m, dp, offset), false)
      else getdir_loop fuel x m (dp + rl) (size - rl) offset valid
  end.

(** [valid]: what the variable holds before. *)
Definition xdr_getrddirres (valid : Z) : xdrproc S nfsrddirres := fun x rd =>
  let* r := xfield rd_status xdr_enum x rd in
  let '(x, rd, ok) := r in
  if negb ok then Ok (x, rd, false)
  else if negb (rd_status rd =? NFS_OK) then Ok (x, rd, true) else
  let size := s32 (rd_size rd) in
  let* r := getdir_loop (Datatypes.S (Z.to_nat size)) x (rd_entries rd) 0 size (u32 (-1)) valid in
  let '(x, (m, dp, offset), ok) := r in
  let rd := rd <| rd_entries := m |> in
  if negb ok then Ok (x, rd, false) else
  let* r := xfield rd_eof xdr_bool x rd in
  let '(x, rd, ok) := r in
  if negb ok then Ok (x, rd, false) else Ok (x, rd <| rd_size := dp |> <| rd_offset := offset |>, true).
End Routines.

(** ** Memory *)

Lemma load_store_long x : u_long x -> load_long (store_long x) = x.
Proof.
  intros Hx. destruct (four_bytes x Hx) as (a & b & c & d & E & Ha & Hb & Hc & Hd).
  rewrite E, store_long_val by done. by apply load_long_val.
Qed.
Lemma zlen_store_long x : zlen (store_long x) = 4.
Proof. done. Qed.

Lemma load_store_short x : load_short (store_short x) = u16 x.
Proof.
  unfold store_short, load_short. rewrite !land_255, Z.shiftr_div_pow2 by done.
  rewrite lor_shift by lia. unfold u16. lia.
Qed.

Lemma bytes_at_at a b c off n : off = zlen a -> n = zlen b -> bytes_at (a ++ b ++ c) off n = Ok b.
Proof. intros -> ->. apply bytes_at_ok. Qed.
Lemma bcopy_to_at (a b c src : list Z) off : off = zlen a -> zlen b = zlen src -> bcopy_to (a ++ b ++ c) off src = Ok (a ++ src ++ c).
Proof. intros -> ?. by apply bcopy_to_ok. Qed.

(** ** Directories *)

(** An entry; [e_rest] is what its record holds behind the name. *)
Record entry := Entry { e_fid : Z; e_name : list Z; e_rest : list Z }.

Definition e_len (e : entry) : Z := 8 + zlen (e_name e) + zlen (e_rest e).
Definition entry_bytes (e : entry) : list Z :=
  store_long (e_fid e) ++ store_short (e_len e) ++ store_short (zlen (e_name e)) ++ e_name e ++ e_rest e.

Record entry_ok (e : entry) : Prop := {
  ok_fid : u_long (e_fid e);
  ok_name : zlen (e_name e) <= NFS_MAXNAMLEN;
  ok_rest : 0 < zlen (e_rest e);
  ok_len : e_len e < 2 ^ 16
}.

Definition dir_bytes (l : list entry) : list Z := concat (entry_bytes <$> l).

(** The entries in use, each with the offset behind it. *)
Fixpoint sent (off : Z) (l : list entry) : list (Z * entry) :=
  match l with
  | [] => []
  | e :: l => let off := u32 (off + e_len e) in if e_fid e =? 0 then sent off l else (off, e) :: sent off l
  end.

Definition entry_wire (x : Z * entry) : list Z :=
  word 1 ++ word (e_fid x.2) ++ wire_bytes (e_name x.2) ++ word x.1.
Definition sent_wire (l : list (Z * entry)) : list Z := concat (entry_wire <$> l).

Lemma sent_wire_cons x l : sent_wire (x :: l) = entry_wire x ++ sent_wire l.
Proof. done. Qed.

(** Where the server stops, when [u] bytes are out already: the request of [bufsize] is full
    if the last entry sent is the first with which the bytes reach that size; if not,
    those sent are fewer. *)
Definition stops (bufsize u : Z) (out : list (Z * entry)) (full : bool) : Prop :=
  if full then exists a x, out = a ++ [x] /\ bufsize <= u + zlen (sent_wire out) /\ (a <> [] -> u + zlen (sent_wire a) < bufsize)
  else out <> [] -> u + zlen (sent_wire out) < bufsize.

Lemma stops_cons bufsize u x out full : u + zlen (entry_wire x) < bufsize ->
  stops bufsize (u + zlen (entry_wire x)) out full -> stops bufsize u (x :: out) full.
Proof.
  intros Hx. destruct full; cbn [stops].
  - intros (a & y & -> & Hge & Ha). exists (x :: a), y. split; [done|]. split; [rewrite sent_wire_cons, zlen_app; lia|]. intros _.
    rewrite sent_wire_cons, zlen_app. destruct a as [|z a]; [change (zlen (sent_wire [])) with 0; lia|]. specialize (Ha ltac:(done)). lia.
  - intros Ho _. rewrite sent_wire_cons, zlen_app. destruct out as [|z out]; [change (zlen (sent_wire [])) with 0; lia|]. specialize (Ho ltac:(done)). lia.
Qed.

Lemma zlen_entry_bytes e : zlen (entry_bytes e) = e_len e.
Proof. unfold entry_bytes, e_len. rewrite !zlen_app, zlen_store_long. change (zlen (store_short _)) with 2. lia. Qed.

Lemma e_len_pos e : 8 <= e_len e.
Proof. unfold e_len. pose proof (zlen_nonneg (e_name e)). pose proof (zlen_nonneg (e_rest e)). lia. Qed.

Lemma at4_entry_wire x : at4 (entry_wire x).
Proof. do 2 (apply at4_app; [apply at4_word|]). apply at4_app; [apply at4_wire_bytes|apply at4_word]. Qed.

Lemma at4_sent_wire l : at4 (sent_wire l).
Proof. induction l as [|x l IH]; [done|]. rewrite sent_wire_cons. apply at4_app; [apply at4_entry_wire|done]. Qed.

(** The members of an entry at its address. *)
Section At.
Context (e : entry) (pre post : list Z).
#[local] Set Default Proof Using "All".
Let m := pre ++ entry_bytes e ++ post.

Lemma at_fid : u_long (e_fid e) -> d_fileno m (zlen pre) = Ok (e_fid e).
Proof.
  intros Hf. unfold d_fileno, m, entry_bytes. rewrite <- app_assoc, bytes_at_at by done. cbn [obind]. by rewrite load_store_long.
Qed.
Lemma at_reclen : e_len e < 2 ^ 16 -> d_reclen m (zlen pre) = Ok (e_len e).
Proof.
  intros Hl. pose proof (e_len_pos e). unfold d_reclen, m, entry_bytes. rewrite <- !app_assoc, (app_assoc pre).
  rewrite bytes_at_at by (rewrite ?zlen_app; done). cbn [obind]. rewrite load_store_short, u16_small by lia. done.
Qed.
Lemma at_namlen : zlen (e_name e) < 2 ^ 16 -> d_namlen m (zlen pre) = Ok (zlen (e_name e)).
Proof.
  intros Hl. pose proof (zlen_nonneg (e_name e)). unfold d_namlen, m, entry_bytes.
  rewrite <- !app_assoc, (app_assoc pre), (app_assoc (pre ++ _)).
  rewrite bytes_at_at by (rewrite ?zlen_app; change (zlen (store_short _)) with 2; rewrite ?zlen_store_long; lia).
  cbn [obind]. rewrite load_store_short, u16_small by lia. done.
Qed.
Lemma at_name : drop (Z.to_nat (d_name (zlen pre))) m = e_name e ++ e_rest e ++ post.
Proof.
  assert (E : m = (pre ++ store_long (e_fid e) ++ store_short (e_len e) ++ store_short (zlen (e_name e))) ++ e_name e ++ e_rest e ++ post)
    by (unfold m, entry_bytes; by rewrite <- !app_assoc).
  rewrite E. apply drop_zlen. rewrite !zlen_app, zlen_store_long. change (zlen (store_short _)) with 2. unfold d_name. lia.
Qed.
End At.

(** *** What the server sends *)

Section Put.
Context {S : Type} {ops : XdrOps S} {str : XdrStream S} {cnt : XdrCounts S} {hp : Heap}.

Lemma sends_dirent fid name rest off : zlen name <= NFS_MAXNAMLEN -> u_long off ->
  sends xdr_dirent (Dirent 1 fid (Some (name ++ rest)) (zlen name) off) (entry_wire (off, Entry fid name rest)).
Proof.
  intros Hn Ho. unfold xdr_dirent, entry_wire. cbn [fst snd e_fid e_name].
  apply sends_and; [apply sends_field; [done|]; exact (sends_numeric _ any _ _ 1 bool_numeric I)|].
  apply sends_and; [apply sends_field; [done|]; apply sends_u_long|].
  apply sends_and; [|apply sends_field; [done|]; apply sends_u_long].
  apply sends_pair; [done|]. apply (sends_bytes _ _ _ rest); [done|]. split; [done|done].
Qed.

(** From an entry on, some of the entries go out: all, or up to the one at which the
    size of the client's request is reached. *)
Lemma putdir_loop_sends l rd pre fuel s off d0 u r :
  rd_entries rd = pre ++ dir_bytes l -> Forall entry_ok l -> zlen (dir_bytes l) <= Z.of_nat fuel ->
  stands s (d0 ++ u) r -> at4 (d0 ++ u) -> zlen (sent_wire (sent off l)) <= zlen r -> zlen u + zlen r < 2 ^ 31 ->
  exists k s' full, let out := sent off (take k l) in
    putdir_loop fuel (Xdr XDR_ENCODE s) rd (zlen pre) (zlen (dir_bytes l)) off (u32 (zlen d0)) =
      Ok (Xdr XDR_ENCODE s', rd <| rd_eof := if full : bool then 0 else rd_eof rd |>, true) /\
    stands s' ((d0 ++ u) ++ sent_wire out) (drop (length (sent_wire out)) r) /\
    stops (rd_bufsize rd) (zlen u) out full /\ (full = false -> k = length l).
Proof using cnt.
  revert pre fuel s off u r. induction l as [|e l IH]; intros pre fuel s off u r Em Hl Hf Hs Hd Hr Hu.
  { exists 0%nat, s, false. cbn. rewrite app_nil_r. destruct fuel; by destruct rd. }
  apply Forall_cons in Hl as [He Hl]. destruct He as [H1 H2 H3 H4].
  assert (Ed : dir_bytes (e :: l) = entry_bytes e ++ dir_bytes l) by done. rewrite Ed in *. rewrite zlen_app, zlen_entry_bytes in *.
  pose proof (e_len_pos e). pose proof (zlen_nonneg (dir_bytes l)). pose proof (zlen_nonneg (e_name e)).
  destruct fuel as [|fuel]; [lia|]. cbn [putdir_loop]. rewrite (proj2 (Z.ltb_lt 0 _)) by lia. cbn [negb].
  rewrite Em, at_reclen by done. cbn [obind]. rewrite (proj2 (Z.eqb_neq _ 0)) by lia. rewrite at_namlen by (unfold NFS_MAXNAMLEN in *; lia).
  cbn [obind]. unfold DIRSIZ, sizeof_direct, MAXNAMLEN. rewrite (proj2 (Z.ltb_ge _ _)) by (unfold e_len; lia).
  rewrite at_fid by done. cbn [obind].
  assert (E1 : zlen pre + e_len e = zlen (pre ++ entry_bytes e)) by (rewrite zlen_app, zlen_entry_bytes; lia).
  assert (E2 : e_len e + zlen (dir_bytes l) - e_len e = zlen (dir_bytes l)) by lia.
  rewrite E1, E2. assert (Em' : rd_entries rd = (pre ++ entry_bytes e) ++ dir_bytes l) by (by rewrite Em, app_assoc).
  cbn [sent] in Hr |- *. destruct (Z.eqb_spec (e_fid e) 0) as [E0|E0].
  { destruct (IH (pre ++ entry_bytes e) fuel s (u32 (off + e_len e)) u r Em' Hl ltac:(lia) Hs Hd Hr Hu) as (k & s' & full & E & Hs' & Hst & Hk).
    exists (Datatypes.S k), s', full. cbn [take sent]. rewrite E0. cbn. do 3 (split; [done|]). intros Hfull. by rewrite (Hk Hfull). }
  rewrite at_name. destruct (sends_dirent (e_fid e) (e_name e) (e_rest e ++ dir_bytes l) (u32 (off + e_len e)) H2 (u32_range _)) as [_ Hsend].
  set (o := u32 (off + e_len e)) in *. rewrite sent_wire_cons, zlen_app in Hr. pose proof (zlen_nonneg (sent_wire (sent o l))).
  specialize (Hsend s _ r Hs Hd). change (entry_wire (o, Entry _ _ _)) with (entry_wire (o, e)) in Hsend.
  rewrite (proj2 (Z.leb_le _ _)) in Hsend by lia. destruct Hsend as (s1 & Es & S1). rewrite Es. cbn [obind fst snd negb x_str].
  pose proof (zlen_nonneg u). pose proof (zlen_nonneg (entry_wire (o, e))).
  rewrite (getpos_counts _ _ _ S1). cbn [obind]. rewrite <- app_assoc.
  assert (Eu : u32 (u32 (zlen (d0 ++ u ++ entry_wire (o, e))) - u32 (zlen d0)) = zlen u + zlen (entry_wire (o, e))).
  { rewrite !zlen_app. unfold u32. rewrite <- Zminus_mod. rewrite Z.mod_small; lia. }
  rewrite Eu. destruct (Z.leb_spec (rd_bufsize rd) (zlen u + zlen (entry_wire (o, e)))) as [Hfull|Hless].
  { exists 1%nat, s1, true. split; [done|]. cbn [take sent]. fold o. rewrite (proj2 (Z.eqb_neq _ 0)) by done.
    rewrite sent_wire_cons. change (sent_wire []) with (@nil Z). rewrite app_nil_r. split; [done|]. split; [|done].
    exists [], (o, e). split; [done|]. rewrite sent_wire_cons. change (sent_wire []) with (@nil Z). by rewrite app_nil_r. }
  assert (Ld : zlen (drop (length (entry_wire (o, e))) r) = zlen r - zlen (entry_wire (o, e))) by (unfold zlen in *; rewrite length_drop; lia).
  rewrite <- app_assoc in S1.
  assert (A1 : at4 (d0 ++ u ++ entry_wire (o, e))) by (rewrite app_assoc; exact (at4_app _ _ Hd (at4_entry_wire _))).
  destruct (IH _ fuel s1 o (u ++ entry_wire (o, e)) _ Em' Hl ltac:(lia) S1 A1) as (k & s' & full & E & Hs' & Hst & Hk); [lia|rewrite zlen_app; lia|].
  exists (Datatypes.S k), s', full. split; [exact E|]. cbn [take sent]. fold o. rewrite (proj2 (Z.eqb_neq _ 0)) by done.
  split; [rewrite sent_wire_cons, length_app, <- drop_drop; by rewrite <- !app_assoc in *|].
  split; [apply stops_cons; [done|]; by rewrite zlen_app in Hst|]. intros Hfull. by rewrite (Hk Hfull).
Qed.
End Put.

(** *** What the client makes of it *)

Lemma reclen_val nl : reclen nl = (nl + 13) / 4 * 4.
Proof.
  unfold reclen, roundtoint. change 3 with (Z.ones 2). rewrite <- Z.ldiff_land, Z.ldiff_ones_r by done.
  rewrite Z.shiftl_mul_pow2, Z.shiftr_div_pow2 by done. change (2 ^ 2) with 4. do 2 f_equal. lia.
Qed.

(** The room for an entry in the buffer [b]. *)
Lemma entry_room nl (b : list Z) : 0 <= nl -> reclen nl <= zlen b ->
  exists b4 b2 b2' bn bz pad b', b = b4 ++ b2 ++ b2' ++ bn ++ bz ++ pad ++ b' /\
    zlen b4 = 4 /\ zlen b2 = 2 /\ zlen b2' = 2 /\ zlen bn = nl /\ zlen bz = 1 /\ 9 + nl + zlen pad = reclen nl.
Proof.
  intros Hn Hb. rewrite reclen_val in *.
  destruct (zlen_split b 4) as (b4 & c1 & -> & H4); [lia|]. rewrite zlen_app in Hb.
  destruct (zlen_split c1 2) as (b2 & c2 & -> & H2); [lia|]. rewrite zlen_app in Hb.
  destruct (zlen_split c2 2) as (b2' & c3 & -> & H2'); [lia|]. rewrite zlen_app in Hb.
  destruct (zlen_split c3 nl) as (bn & c4 & -> & Hbn); [lia|]. rewrite zlen_app in Hb.
  destruct (zlen_split c4 1) as (bz & c5 & -> & Hz); [lia|]. rewrite zlen_app in Hb.
  destruct (zlen_split c5 ((nl + 13) / 4 * 4 - 9 - nl)) as (pad & b' & -> & Hp); [lia|].
  exists b4, b2, b2', bn, bz, pad, b'. repeat split; try done. lia.
Qed.
Record received (e e' : entry) : Prop := {
  rcv_fid : e_fid e' = e_fid e;
  rcv_name : e_name e' = e_name e;
  rcv_end : head (e_rest e') = Some 0;
  rcv_len : e_len e' = reclen (zlen (e_name e))
}.

Section Get.
Context {S : Type} {ops : XdrOps S} {str : XdrStream S} {hp : Heap}.

Lemma takes_at_address (p : xdrproc S Z) load store n off w v (a b c : list Z) : (forall v0, takes p w v0 v) ->
  off = zlen a -> zlen b = zlen (store v) -> takes (at_address p load store n off) w (a ++ b ++ c) (a ++ store v ++ c).
Proof.
  intros Hp Ho Hb. destruct (Hp 0) as [A1 H1]. split; [done|]. intros s d r Hs Hd. destruct (H1 s d r Hs Hd) as (s' & E & Hs').
  exists s'. split; [|done]. unfold at_address. cbn [x_op obind]. rewrite E. cbn [obind fst snd].
  rewrite bcopy_to_at by done. done.
Qed.

Lemma takes_fits dp size m nl : d_namlen m dp = Ok nl -> reclen nl <= size -> takes (fits dp size) [] m m.
Proof.
  intros E Hs. split; [done|]. intros s d r Hs' Hd. exists s. unfold fits. rewrite E, app_nil_r. cbn [obind].
  by rewrite (proj2 (Z.leb_le _ _)) by done.
Qed.

Lemma takes_dir_name dp a name b c : d_name dp = zlen a -> zlen b = zlen name -> zlen name < 2 ^ 16 ->
  d_namlen (a ++ b ++ c) dp = Ok (zlen name) -> takes (getdir_name dp) (wire_opaque name) (a ++ b ++ c) (a ++ name ++ c).
Proof.
  intros Ea Eb Hn E. pose proof (zlen_nonneg c). destruct (takes_opaque name (b ++ c)) as [A1 H1]; [rewrite zlen_app; lia|lia|].
  split; [done|]. intros s d r Hs Hd. destruct (H1 s d r Hs Hd) as (s' & E1 & Hs'). exists s'. split; [|done].
  unfold getdir_name. rewrite E, Ea. cbn [obind]. rewrite drop_zlen, take_zlen, E1 by done. cbn [obind fst snd].
  replace (length name) with (length b) by (unfold zlen in Eb; lia). by rewrite drop_app_length.
Qed.

Lemma getdir_entry_takes fid name a b size : u_long fid -> zlen name <= NFS_MAXNAMLEN ->
  reclen (zlen name) <= size -> reclen (zlen name) <= zlen b ->
  exists m m' pad b', takes (getdir_entry (zlen a) size) (word fid ++ wire_bytes name) (a ++ b) m /\
    d_namlen m (zlen a) = Ok (zlen name) /\
    bcopy_to m (zlen a + 4) (store_short (reclen (zlen name))) = Ok m' /\
    bcopy_to m' (d_name (zlen a) + zlen name) [0] = Ok (a ++ entry_bytes (Entry fid name (0 :: pad)) ++ b') /\
    e_len (Entry fid name (0 :: pad)) = reclen (zlen name) /\ zlen b = reclen (zlen name) + zlen b'.
Proof.
  intros Hf Hn Hs Hb. pose proof (zlen_nonneg name).
  destruct (entry_room (zlen name) b) as (b4 & b2 & b2' & bn & bz & pad & b' & -> & H4 & H2 & H2' & Hbn & Hz & Hp); [done..|].
  assert (Ez : forall x, zlen (store_short x) = 2) by done. assert (El : zlen (store_long fid) = 4) by done.
  set (tl := bz ++ pad ++ b'). set (ss := store_short (zlen name)).
  assert (Em : forall n, d_namlen ((a ++ store_long fid ++ b2) ++ ss ++ n) (zlen a) = Ok (zlen name)).
  { intros n. unfold d_namlen. rewrite bytes_at_at by (rewrite ?zlen_app; lia || done). cbn [obind].
    unfold ss. rewrite load_store_short, u16_small by (unfold NFS_MAXNAMLEN in *; lia). done. }
  exists (((a ++ store_long fid ++ b2) ++ ss) ++ name ++ tl),
    ((a ++ store_long fid) ++ store_short (reclen (zlen name)) ++ ss ++ name ++ tl), pad, b'.
  split; [|split; [|split; [|split]]].
  - unfold getdir_entry, wire_bytes. apply takes_and with (a1 := a ++ store_long fid ++ b2 ++ b2' ++ bn ++ tl).
    { apply takes_at_address; [intros; by apply takes_u_long|done|lia]. }
    apply takes_and with (a1 := (a ++ store_long fid ++ b2) ++ ss ++ bn ++ tl).
    { replace (a ++ store_long fid ++ b2 ++ b2' ++ bn ++ tl) with ((a ++ store_long fid ++ b2) ++ b2' ++ bn ++ tl) by (by rewrite <- !app_assoc).
      replace (a ++ store_long fid ++ b2 ++ ss ++ bn ++ tl) with ((a ++ store_long fid ++ b2) ++ ss ++ bn ++ tl) by (by rewrite <- !app_assoc).
      apply takes_at_address; [|rewrite !zlen_app; lia|by rewrite Ez]. intros v0.
      eapply takes_to; [apply (takes_numeric _ any id u16 (zlen name) v0 u_short_numeric)|done|].
      rewrite s32_small, u16_small by (unfold NFS_MAXNAMLEN in *; lia). done. }
    change (wire_opaque name) with ([] ++ wire_opaque name). apply takes_and with (a1 := (a ++ store_long fid ++ b2) ++ ss ++ bn ++ tl).
    { by eapply takes_fits. }
    rewrite (app_assoc _ ss (bn ++ tl)). apply takes_dir_name; [|done|unfold NFS_MAXNAMLEN in *; lia|rewrite <- app_assoc; apply Em].
    unfold d_name. rewrite !zlen_app. unfold ss. rewrite Ez. lia.
  - rewrite <- app_assoc. apply Em.
  - rewrite <- !app_assoc. rewrite (app_assoc a (store_long fid)). rewrite (app_assoc a (store_long fid)). apply bcopy_to_at; [rewrite zlen_app; lia|by rewrite Ez].
  - unfold tl, ss. set (sr := store_short (reclen _)).
    replace ((a ++ store_long fid) ++ sr ++ store_short (zlen name) ++ name ++ bz ++ pad ++ b')
      with ((a ++ store_long fid ++ sr ++ store_short (zlen name) ++ name) ++ bz ++ pad ++ b') by (by rewrite <- !app_assoc).
    rewrite bcopy_to_at by (rewrite ?zlen_app; unfold sr, d_name; rewrite ?Ez; lia || done). f_equal.
    unfold entry_bytes. cbn [e_fid e_name e_rest]. replace (e_len _) with (reclen (zlen name)).
    + rewrite <- !app_assoc. done.
    + unfold e_len. cbn [e_name e_rest]. rewrite zlen_cons. lia.
  - split; [unfold e_len; cbn [e_name e_rest]; rewrite zlen_cons; lia|]. unfold tl. rewrite !zlen_app. lia.
Qed.

(** What the entries that are sent need of the buffer, and the offset of the
    last. *)
Definition room_for (l : list (Z * entry)) : Z := foldr (fun x n => reclen (zlen (e_name x.2)) + n) 0 l.
Definition last_offset (off : Z) (l : list (Z * entry)) : Z := default off (fst <$> last l).

Lemma last_offset_cons off x l : last_offset off (x :: l) = last_offset x.1 l.
Proof. unfold last_offset. rewrite last_cons. by destruct (last l). Qed.

Lemma room_for_pos l : 0 <= room_for l.
Proof.
  induction l as [|x l IH]; [done|]. change (room_for (x :: l)) with (reclen (zlen (e_name x.2)) + room_for l). rewrite reclen_val.
  pose proof (zlen_nonneg (e_name x.2)). lia.
Qed.

Lemma takes_valid v v0 : v = 0 \/ v = 1 -> takes xdr_bool (word v) v0 v.
Proof.
  intros Hv. eapply takes_to; [apply (takes_numeric _ any (fun v => cbool (nz v)) _ v v0 bool_numeric)|done|].
  by destruct Hv as [-> | ->].
Qed.

Lemma getdir_loop_takes l : forall a b fuel s d r size off valid,
  Forall (fun x => u_long x.1 /\ entry_ok x.2) l -> (length l <= fuel)%nat -> room_for l < size <= zlen b ->
  stands s d (sent_wire l ++ word 0 ++ r) -> at4 d ->
  exists s' es b', getdir_loop fuel (Xdr XDR_DECODE s) (a ++ b) (zlen a) size off valid =
      Ok (Xdr XDR_DECODE s', (a ++ dir_bytes es ++ b', zlen (a ++ dir_bytes es), last_offset off l), true) /\
    stands s' (d ++ sent_wire l ++ word 0) r /\ Forall2 received l.*2 es.
Proof.
  induction l as [|[o e] l IH]; intros a b fuel s d r size off valid Hl Hf Hsz Hs Hd.
  { destruct (takes_valid 0 valid ltac:(by left)) as [_ Ht]. destruct (Ht s d r Hs Hd) as (s' & E & Hs').
    exists s', [], b. split; [|split; [done|constructor]]. destruct fuel; cbn [getdir_loop]; rewrite E; cbn; by rewrite app_nil_r. }
  apply Forall_cons in Hl as [[Ho [H1 H2 H3 H4]] Hl]. cbn [fst snd] in *. destruct fuel as [|fuel]; [cbn in Hf; lia|].
  rewrite sent_wire_cons in *. unfold entry_wire in *. cbn [fst snd] in *. pose proof (room_for_pos l) as Hp.
  change (room_for ((o, e) :: l)) with (reclen (zlen (e_name e)) + room_for l) in Hsz. pose proof (zlen_nonneg (e_name e)).
  pose proof (reclen_val (zlen (e_name e))) as Hrl.
  rewrite <- !app_assoc in Hs. destruct (takes_valid 1 valid ltac:(by right)) as [_ Ht].
  destruct (Ht s d _ Hs Hd) as (s1 & E1 & S1). cbn [getdir_loop]. rewrite E1. cbn [obind negb nz Z.eqb].
  destruct (getdir_entry_takes (e_fid e) (e_name e) a b size) as (m & m' & pad & b' & [_ Hm] & En & Ew & Ez & El & Elen); [done|done|lia|lia|].
  rewrite (app_assoc (word (e_fid e))) in S1. destruct (Hm s1 _ _ S1 (at4_app _ _ Hd (at4_word 1))) as (s2 & E2 & S2).
  rewrite E2. cbn [obind negb]. destruct (takes_u_long (S := S) o off Ho) as [_ Hu].
  assert (A2 : at4 ((d ++ word 1) ++ word (e_fid e) ++ wire_bytes (e_name e))).
  { apply at4_app; [by apply at4_app|]. apply at4_app; [done|apply at4_wire_bytes]. }
  destruct (Hu s2 _ _ S2 A2) as (s3 & E3 & S3). rewrite E3. cbn [obind negb]. rewrite En. cbn [obind]. rewrite Ew. cbn [obind].
  rewrite Ez. cbn [obind]. set (e' := Entry (e_fid e) (e_name e) (0 :: pad)) in *.
  rewrite at_reclen by (unfold NFS_MAXNAMLEN in *; lia). cbn [obind]. rewrite El.
  rewrite (proj2 (Z.leb_gt _ _)) by lia.
  rewrite app_assoc. replace (zlen a + reclen (zlen (e_name e))) with (zlen (a ++ entry_bytes e')) by (rewrite zlen_app, zlen_entry_bytes; lia).
  destruct (IH (a ++ entry_bytes e') b' fuel s3 (((d ++ word 1) ++ word (e_fid e) ++ wire_bytes (e_name e)) ++ word o) r
    (size - reclen (zlen (e_name e))) o 1 Hl) as (s' & es & b2 & E & S' & Hes);
    [cbn [length] in Hf; lia|lia|exact S3|by apply at4_app|].
  exists s', (e' :: es), b2. split.
  - rewrite E, last_offset_cons. change (dir_bytes (e' :: es)) with (entry_bytes e' ++ dir_bytes es). by rewrite <- !app_assoc.
  - split; [by rewrite <- !app_assoc in *|]. constructor; [|done]. by constructor.
Qed.
End Get.

Lemma sent_live off l : (sent off l).*2 = filter (fun e => e_fid e <> 0) l.
Proof.
  revert off. induction l as [|e l IH]; intros off; [done|]. cbn [sent]. rewrite filter_cons.
  destruct (Z.eqb_spec (e_fid e) 0); [rewrite decide_False by (by intros ?)|rewrite decide_True by done; cbn; f_equal]; apply IH.
Qed.

Lemma sent_ok off l : Forall entry_ok l -> Forall (fun x => u_long x.1 /\ entry_ok x.2) (sent off l).
Proof.
  revert off. induction l as [|e l IH]; intros off Hl; [done|]. apply Forall_cons in Hl as [He Hl]. cbn [sent].
  destruct (e_fid e =? 0); [by apply IH|]. constructor; [|by apply IH]. split; [apply u32_range|done].
Qed.

Lemma length_room l : Z.of_nat (length l) <= room_for l.
Proof.
  induction l as [|x l IH]; [done|]. change (room_for (x :: l)) with (reclen (zlen (e_name x.2)) + room_for l).
  rewrite reclen_val. pose proof (zlen_nonneg (e_name x.2)). cbn [length]. lia.
Qed.

Lemma sent_wire_take off l k : zlen (sent_wire (sent off (take k l))) <= zlen (sent_wire (sent off l)).
Proof.
  revert off k. induction l as [|e l IH]; intros off k; [by destruct k|]. destruct k as [|k]; [apply zlen_nonneg|].
  cbn [take sent]. destruct (e_fid e =? 0); [apply IH|]. rewrite !sent_wire_cons, !zlen_app. pose proof (IH (u32 (off + e_len e)) k). lia.
Qed.

(** The bytes of a result. *)
Definition dir_wire (l : list (Z * entry)) (eof : Z) : list Z :=
  word NFS_OK ++ sent_wire l ++ word 0 ++ word (cbool (nz eof)).

Lemma putrddirres_sends {S} {ops : XdrOps S} {str : XdrStream S} {cnt : XdrCounts S} {hp : Heap} l rd (s : S) d r :
  rd_status rd = NFS_OK -> rd_entries rd = dir_bytes l -> Forall entry_ok l -> rd_size rd = zlen (dir_bytes l) ->
  rd_size rd < 2 ^ 31 -> stands s d r -> at4 d -> 12 + zlen (sent_wire (sent (rd_offset rd) l)) <= zlen r ->
  exists k s' full, let out := sent (rd_offset rd) (take k l) in
    let eof := if full : bool then 0 else rd_eof rd in let w := dir_wire out eof in
    xdr_putrddirres (Xdr XDR_ENCODE s) rd = Ok (Xdr XDR_ENCODE s', rd <| rd_eof := eof |>, true) /\
    stands s' (d ++ w) (drop (length w) r) /\ stops (rd_bufsize rd) 0 out full /\ (full = false -> k = length l).
Proof.
  intros H0 He Hl Hz Hb Hs Hd Hr. pose proof (zlen_nonneg (dir_bytes l)).
  pose proof (zlen_nonneg (sent_wire (sent (rd_offset rd) l))).
  unfold xdr_putrddirres. cbn [x_op].
  destruct (sends_field rd_status xdr_enum rd (word 0) ltac:(by destruct rd)) as [_ Hp]; [rewrite H0; apply sends_enum|].
  specialize (Hp s d r Hs Hd). rewrite (proj2 (Z.leb_le _ _)) in Hp by (rewrite zlen_word; lia). destruct Hp as (s1 & E1 & S1).
  rewrite E1. cbn [obind negb]. rewrite H0. cbn [Z.eqb negb NFS_OK x_str].
  rewrite (getpos_counts _ _ _ S1). cbn [obind]. rewrite Hz, s32_small by lia. rewrite <- (app_nil_r (d ++ word 0)) in S1.
  assert (Hr1 : zlen (drop (length (word 0)) r) = zlen r - 4) by (change (length (word 0)) with 4%nat; unfold zlen in *; rewrite length_drop; lia).
  destruct (putdir_loop_sends l rd [] (Z.to_nat (zlen (dir_bytes l))) s1 (rd_offset rd) (d ++ word 0) [] _ He Hl ltac:(lia) S1)
    as (k & s2 & full & E2 & S2 & Hst & Hk); [rewrite app_nil_r; exact (at4_app _ _ Hd (at4_word 0))|lia| |].
  { pose proof (stands_bound _ _ _ Hs). change (zlen []) with 0. lia. }
  rewrite app_nil_r in S2. change (zlen []) with 0 in E2, Hst. rewrite E2. cbn [obind negb].
  set (eof := if full then 0 else rd_eof rd) in *.
  pose proof (sent_wire_take (rd_offset rd) l k). set (w := sent_wire _) in S2.
  assert (A2 : at4 ((d ++ word 0) ++ w)) by (apply at4_app; [by apply at4_app|apply at4_sent_wire]).
  set (r2 := drop _ (drop _ r)) in S2. assert (Hr2 : 8 <= zlen r2).
  { unfold r2. rewrite drop_drop. unfold zlen in *. rewrite length_drop. change (length (word 0)) with 4%nat. fold w in H2. lia. }
  destruct (sends_numeric _ any _ _ 0 (bool_numeric (S := S)) I) as [_ Hf]. specialize (Hf s2 _ r2 S2 A2).
  rewrite (proj2 (Z.leb_le _ _)) in Hf by (rewrite zlen_word; lia). destruct Hf as (s3 & E3 & S3). rewrite E3. cbn [obind fst snd negb].
  destruct (sends_field rd_eof xdr_bool (rd <| rd_eof := eof |>) (word (cbool (nz eof))) ltac:(by destruct rd)
    (sends_numeric _ any _ _ eof (bool_numeric (S := S)) I)) as [_ Hg].
  specialize (Hg s3 _ _ S3 (at4_app _ _ A2 (at4_word _))). rewrite (proj2 (Z.leb_le _ _)) in Hg.
  2: { rewrite zlen_word. change (length (word _)) with 4%nat. unfold zlen in *. rewrite length_drop. lia. }
  destruct Hg as (s4 & E4 & S4). exists k, s4, full. split; [exact E4|]. split; [|done].
  unfold r2 in S4. rewrite !drop_drop in S4. unfold dir_wire. fold w. rewrite <- !app_assoc in S4. rewrite !length_app.
  change (length (word NFS_OK)) with (length (word 0)). change (length (word (cbool (nz 0)))) with (length (word 0)) in S4.
  exact S4.
Qed.

Lemma getrddirres_takes {S} {ops : XdrOps S} {str : XdrStream S} {hp : Heap} l eof rd (s : S) d r valid :
  Forall (fun x => u_long x.1 /\ entry_ok x.2) l -> room_for l < rd_size rd -> rd_size rd = zlen (rd_entries rd) ->
  rd_size rd < 2 ^ 31 -> stands s d (dir_wire l eof ++ r) -> at4 d ->
  exists s' es rest, xdr_getrddirres valid (Xdr XDR_DECODE s) rd =
    Ok (Xdr XDR_DECODE s', NfsRddirRes (rd_bufsize rd) NFS_OK (last_offset (2 ^ 32 - 1) l) (zlen (dir_bytes es))
      (cbool (nz eof)) (dir_bytes es ++ rest), true) /\
    stands s' (d ++ dir_wire l eof) r /\ Forall2 received l.*2 es.
Proof.
  intros Hl Hroom Hsz Hb Hs Hd. pose proof (length_room l). pose proof (zlen_nonneg (rd_entries rd)).
  unfold dir_wire in *. rewrite <- !app_assoc in Hs. unfold xdr_getrddirres.
  destruct (takes_field rd_status xdr_enum (word 0) rd 0 (takes_enum 0 _ ltac:(done))) as [_ Hp].
  destruct (Hp s d _ Hs Hd) as (s1 & E1 & S1). rewrite E1. cbn [obind negb rd_status].
  assert (A1 : at4 (d ++ word 0)) by by apply at4_app.
  destruct (getdir_loop_takes l [] (rd_entries rd) (Datatypes.S (Z.to_nat (s32 (rd_size rd)))) s1 (d ++ word 0) (word (cbool (nz eof)) ++ r) (s32 (rd_size rd)) (u32 (-1)) valid Hl)
    as (s2 & es & rest & E2 & S2 & Hes); [rewrite s32_small by lia; lia|rewrite s32_small by lia; lia|exact S1|done|].
  change (zlen []) with 0 in E2. rewrite !app_nil_l in E2.
  change (rd_status (rd <| rd_status := 0 |>) =? NFS_OK) with true. cbn [negb].
  change (rd_size (rd <| rd_status := 0 |>)) with (rd_size rd). change (rd_entries (rd <| rd_status := 0 |>)) with (rd_entries rd). rewrite E2. cbn [obind negb].
  assert (Hv : cbool (nz eof) = 0 \/ cbool (nz eof) = 1) by (destruct (nz eof); cbn; auto).
  destruct (takes_field rd_eof xdr_bool (word (cbool (nz eof))) (rd <| rd_status := 0 |> <| rd_entries := dir_bytes es ++ rest |>) (cbool (nz eof))
    (takes_valid _ _ Hv)) as [_ Hq].
  assert (A2 : at4 ((d ++ word 0) ++ sent_wire l ++ word 0)) by (apply at4_app; [done|apply at4_app; [apply at4_sent_wire|done]]).
  destruct (Hq s2 _ _ S2 A2) as (s3 & E3 & S3). rewrite E3. cbn [obind negb].
  exists s3, es, rest. split; [by destruct rd|]. split; [by rewrite <- !app_assoc in S3|done].
Qed.

(** C33: a directory goes over the wire.  The stream of the server counts its bytes and has
    room for all the entries.  Of a block of well-formed entries the server sends those
    in use, each with the offset behind it, up to the first with which the bytes of the
    entries reach the size of the client's request; then it says that this is not the
    end.  When none does, it sends all of them and says what it was told of the end.
    The client, with more room than the packed entries need, makes of them a block of
    well-formed entries with the same numbers and names, each ended by a null, in the
    same order, gives its exact size, the mark for the end, and the offset of the last
    entry that was sent. *)
Theorem rddirres_roundtrip {S T} {ops : XdrOps S} {str : XdrStream S} {cnt : XdrCounts S} {ops' : XdrOps T} {str' : XdrStream T} {hp : Heap}
    l rd (s : S) d r :
  rd_status rd = NFS_OK -> rd_entries rd = dir_bytes l -> Forall entry_ok l -> rd_size rd = zlen (dir_bytes l) ->
  rd_size rd < 2 ^ 31 -> stands s d r -> at4 d -> 12 + zlen (sent_wire (sent (rd_offset rd) l)) <= zlen r ->
  exists k s' w full, let out := sent (rd_offset rd) (take k l) in let eof := if full : bool then 0 else rd_eof rd in
    xdr_putrddirres (Xdr XDR_ENCODE s) rd = Ok (Xdr XDR_ENCODE s', rd <| rd_eof := eof |>, true) /\
    stands s' (d ++ w) (drop (length w) r) /\ stops (rd_bufsize rd) 0 out full /\ (full = false -> k = length l) /\
    forall (t : T) d' r' valid rd0, stands t d' (w ++ r') -> at4 d' ->
      room_for out < rd_size rd0 -> rd_size rd0 = zlen (rd_entries rd0) -> rd_size rd0 < 2 ^ 31 ->
      exists t' es rest, xdr_getrddirres valid (Xdr XDR_DECODE t) rd0 =
        Ok (Xdr XDR_DECODE t', NfsRddirRes (rd_bufsize rd0) NFS_OK (last_offset (2 ^ 32 - 1) out) (zlen (dir_bytes es))
          (cbool (nz eof)) (dir_bytes es ++ rest), true) /\
        stands t' (d' ++ w) r' /\ Forall2 received (filter (fun e => e_fid e <> 0) (take k l)) es.
Proof.
  intros H0 He Hl Hz Hb Hs Hd Hr.
  destruct (putrddirres_sends l rd s d r H0 He Hl Hz Hb Hs Hd Hr) as (k & s' & full & E & S' & Hst & Hk).
  exists k, s', (dir_wire (sent (rd_offset rd) (take k l)) (if full then 0 else rd_eof rd)), full. repeat (split; [done|]).
  intros t d' r' valid rd0 Ht Hd' Hroom Hsz Hb0. rewrite <- (sent_live (rd_offset rd)).
  apply getrddirres_takes; try done. by apply sent_ok, Forall_take.
Qed.

(** An entry of which the client's buffer has room for half: the length of the
    name goes behind the buffer before the room is looked at. *)
#[local] Existing Instance sample_heap.
Definition short_reply : list Z :=
  word NFS_OK ++ entry_wire (16, Entry 7 [97; 98; 99] [0]) ++ word 1 ++ word 9 ++ wire_bytes [100] ++ word 32.

Lemma getrddirres_overruns :
  xdr_getrddirres 0 (xdrmem_create short_reply (zlen short_reply) XDR_DECODE) (NfsRddirRes 0 0 0 20 0 (replicate 20 0)) = Fault.
Proof. vm_compute. done. Qed.

Definition sample_dir : list entry := [Entry 7 [97; 98] [0; 0]; Entry 0 [120] [0; 0; 0]; Entry 9 [99; 100; 101] [0]].
Definition sample_rd : nfsrddirres := NfsRddirRes 24 NFS_OK 0 (zlen (dir_bytes sample_dir)) 1 (dir_bytes sample_dir).

(** A server with a cluster for its answer, a client with a buffer; the second entry in use
    fills the request. *)
Definition cluster : mbuf := Mbuf (Internal 12) MT_DATA (replicate 80 0).

Lemma rddirres_roundtrip_witness : exists k s' full, let out := sent 0 (take k sample_dir) in
  xdr_putrddirres (xdrmbuf_init cluster [] XDR_ENCODE) sample_rd
    = Ok (Xdr XDR_ENCODE s', sample_rd <| rd_eof := if full : bool then 0 else 1 |>, true) /\
  stops 24 0 out full /\ (full = false -> k = 3%nat).
Proof.
  destruct (rddirres_roundtrip (T := xdrmem) (str := xdrmbuf_single) (cnt := xdrmbuf_single_counts)
      sample_dir sample_rd (x_str (xdrmbuf_init cluster [] XDR_ENCODE)) [] (m_dat cluster))
    as (k & s' & w & full & E & _ & Hst & Hk & _).
  - done.
  - done.
  - repeat constructor; vm_compute; done.
  - done.
  - vm_compute. done.
  - exact (xdrmbuf_init_single cluster XDR_ENCODE ltac:(done)).
  - exact at4_nil.
  - vm_compute. done.
  - exists k, s', full. split; [exact E|]. split; [exact Hst|exact Hk].
Defined.
