(* ===== verification/SvcDup.v ===== *)
(** * The cache of duplicate requests: [svckudp_dupsave], [svckudp_dup] of [sys/rpc/svc_kudp.c]

    The server keeps the last requests it has answered in nodes that are linked
    twice: into a ring in the order of age, and into the chains of a hash table.
    The nodes are a memory, a pointer is an address in it and null is 0.  What
    the pointer structure promises is a queue of at most [MAXDUPREQS] requests:
    [dup_runs_refine_queue] says that it keeps the promise. *)
From S2P Require Import Prelude.

Definition MAXDUPREQS : Z := 400.
Definition DRHASHSZ : Z := 32.
Definition XIDHASH (xid : Z) : Z := Z.land xid (DRHASHSZ - 1).

(** What is compared of a request: the transaction, the procedure and the
    address it came from. *)
Record dupkey := Dupkey { dk_xid : Z; dk_prog : Z; dk_vers : Z; dk_proc : Z; dk_addr : list Z }.
#[export] Instance dupkey_eq_dec : EqDecision dupkey.
Proof. solve_decision. Defined.

Record dupreq := Dupreq {
  dr_xid : Z; dr_addr : list Z; dr_proc : Z; dr_vers : Z; dr_prog : Z; dr_next : Z; dr_chain : Z
}.
#[export] Instance settable_dupreq : Settable dupreq := fun d =>
  Dupreq (dr_xid d) (dr_addr d) (dr_proc d) (dr_vers d) (dr_prog d) (dr_next d) (dr_chain d).

Record dupcache := Dupcache {
  dr_mem : gmap Z dupreq; drhashtbl : list Z; drmru : Z; ndupreqs : Z; dupreqs : Z; dupchecks : Z
}.
#[export] Instance settable_dupcache : Settable dupcache := fun c =>
  Dupcache (dr_mem c) (drhashtbl c) (drmru c) (ndupreqs c) (dupreqs c) (dupchecks c).

Definition dupcache0 : dupcache := Dupcache ∅ (replicate 32 0) 0 0 0 0.

(** [*dr], and an assignment through it. *)
Definition dr_get (c : dupcache) (dr : Z) : outcome dupreq := deref (dr_mem c !! dr).
Definition dr_put (c : dupcache) (dr : Z) (d : dupreq) : dupcache := c <| dr_mem := <[dr := d]> (dr_mem c) |>.

(** ** Operations *)

(** The fuel is the number of nodes: a chain that does not end with them goes
    round for ever. *)
Fixpoint unhash_loop (fuel : nat) (c : dupcache) (dr h drtprev drt : Z) : outcome dupcache :=
  if drt =? 0 then Ok c else
  match fuel with
  | O => Fault
  | S fuel =>
      let* t := dr_get c drt in
      if drt =? dr then
        if drtprev =? 0 then
          let* tbl := aset (drhashtbl c) h (dr_chain t) in Ok (c <| drhashtbl := tbl |>)
        else
          let* p := dr_get c drtprev in Ok (dr_put c drtprev (p <| dr_chain := dr_chain t |>))
      else unhash_loop fuel c dr h drt (dr_chain t)
  end.

Definition unhash (c : dupcache) (dr : Z) : outcome dupcache :=
  let* d := dr_get c dr in
  let* drt := aget (drhashtbl c) (XIDHASH (dr_xid d)) in
  unhash_loop (size (dr_mem c)) c dr (XIDHASH (dr_xid d)) 0 drt.

(** A node for the next request: a new one at [new], which is what [kmem_alloc]
    gives, or the oldest. *)
Definition dup_node (c : dupcache) (new : Z) : outcome (dupcache * Z) :=
  if ndupreqs c <? MAXDUPREQS then
    if new =? 0 then Fault else
    let* c := if nz (drmru c) then
                let* m := dr_get c (drmru c) in
                let c := dr_put c new (Dupreq 0 [] 0 0 0 (dr_next m) 0) in
                Ok (dr_put c (drmru c) (m <| dr_next := new |>))
              else Ok (dr_put c new (Dupreq 0 [] 0 0 0 new 0)) in
    Ok (c <| ndupreqs := ndupreqs c + 1 |>, new)
  else
    let* m := dr_get c (drmru c) in
    let* c := unhash c (dr_next m) in
    Ok (c, dr_next m).

Definition svckudp_dupsave (c : dupcache) (new : Z) (req : dupkey) : outcome dupcache :=
  let* r := dup_node c new in
  let '(c, dr) := r in
  let c := c <| drmru := dr |> in
  let* d := dr_get c dr in
  let* chain := aget (drhashtbl c) (XIDHASH (dk_xid req)) in
  let c := dr_put c dr
    (Dupreq (dk_xid req) (dk_addr req) (dk_proc req) (dk_vers req) (dk_prog req) (dr_next d) chain) in
  let* tbl := aset (drhashtbl c) (XIDHASH (dk_xid req)) dr in
  Ok (c <| drhashtbl := tbl |>).

Fixpoint dup_loop (fuel : nat) (c : dupcache) (req : dupkey) (dr : Z) : outcome bool :=
  if dr =? 0 then Ok false else
  match fuel with
  | O => Fault
  | S fuel =>
      let* d := dr_get c dr in
      if negb (dr_xid d =? dk_xid req) || negb (dr_prog d =? dk_prog req) || negb (dr_vers d =? dk_vers req)
         || negb (dr_proc d =? dk_proc req) || negb (bool_decide (dr_addr d = dk_addr req))
      then dup_loop fuel c req (dr_chain d)
      else Ok true
  end.

Definition svckudp_dup (c : dupcache) (req : dupkey) : outcome (dupcache * bool) :=
  let c := c <| dupchecks := s32 (dupchecks c + 1) |> in
  let* dr := aget (drhashtbl c) (XIDHASH (dk_xid req)) in
  let* b := dup_loop (size (dr_mem c)) c req dr in
  Ok (if b then c <| dupreqs := s32 (dupreqs c + 1) |> else c, b).

(** ** Lists of pointers in memory *)

(** [f] leads from each element to the one after it. *)
Fixpoint links (f : Z -> option Z) (l : list Z) : Prop :=
  match l with
  | a :: (b :: _) as l' => f a = Some b /\ links f l'
  | _ => True
  end.

Definition nxt (m : gmap Z dupreq) (p : Z) : option Z := dr_next <$> m !! p.
Definition chn (m : gmap Z dupreq) (p : Z) : option Z := dr_chain <$> m !! p.

Lemma links_cons f a b l : links f (a :: b :: l) <-> f a = Some b /\ links f (b :: l).
Proof. done. Qed.

Lemma links_app f l a k : links f (l ++ a :: k) <-> links f (l ++ [a]) /\ links f (a :: k).
Proof.
  induction l as [|b l IH]; [cbn; tauto|]. destruct l as [|c l].
  - cbn [app] in *. rewrite !links_cons. cbn. tauto.
  - cbn [app] in *. rewrite !links_cons, IH. tauto.
Qed.

(** Only what is followed matters. *)
Lemma links_frame f g l z : (forall a, a ∈ l -> g a = f a) -> links f (l ++ [z]) -> links g (l ++ [z]).
Proof.
  induction l as [|a l IH]; [done|]. intros Hg. destruct l as [|b l].
  - cbn [app]. rewrite !links_cons. intros [E _]. split; [|done]. rewrite Hg; [done|set_solver].
  - cbn [app] in *. rewrite !links_cons. intros [E H]. rewrite Hg by set_solver. split; [done|]. apply IH; [set_solver|done].
Qed.

(** A ring: the last element leads to the first. *)
Definition ring (f : Z -> option Z) (l : list Z) : Prop :=
  match l with [] => True | a :: _ => links f (l ++ [a]) end.

Lemma ring_rotate f a l : ring f (a :: l) -> ring f (l ++ [a]).
Proof.
  destruct l as [|b l]; [done|]. cbn [ring app]. rewrite links_cons. intros [E H].
  rewrite <- app_assoc. cbn [app]. change (b :: l ++ [a; b]) with ((b :: l) ++ a :: [b]). rewrite links_app.
  split; [done|]. cbn. done.
Qed.

Lemma ring_frame f g l : (forall a, a ∈ l -> g a = f a) -> ring f l -> ring g l.
Proof. destruct l as [|a l]; [done|]. intros Hg. cbn [ring]. by apply links_frame. Qed.

(** A new element between the last and the first. *)
Lemma ring_insert f g l z n : ring f (l ++ [z]) -> (forall a, a ∈ l -> g a = f a) -> g z = Some n -> g n = f z ->
  ring g ((l ++ [z]) ++ [n]).
Proof.
  intros Hf Hg Ez En. destruct l as [|a l]; cbn [ring app] in *.
  - rewrite links_cons in *. destruct Hf as [Ef _]. split; [done|]. cbn. split; [by rewrite En|done].
  - rewrite <- !app_assoc in *. cbn [app] in *. change (a :: l ++ [z; a]) with ((a :: l) ++ z :: [a]) in Hf.
    change (a :: l ++ [z; n; a]) with ((a :: l) ++ z :: [n; a]). rewrite links_app in *. destruct Hf as [H1 [H2 _]].
    split; [by apply (links_frame f)|]. cbn. split; [done|]. split; [by rewrite En|done].
Qed.

(** ** What the structure stands for *)

Definition key_of (d : dupreq) : dupkey := Dupkey (dr_xid d) (dr_prog d) (dr_vers d) (dr_proc d) (dr_addr d).
Definition key_hash (k : dupkey) : nat := Z.to_nat (XIDHASH (dk_xid k)).

(** The nodes of a chain, when the nodes and their requests are [l] from the oldest on. *)
Definition in_chain (h : nat) (l : list (Z * dupkey)) : list Z := (filter (fun x => key_hash x.2 = h) (reverse l)).*1.

Record hashed (m : gmap Z dupreq) (tbl : list Z) (l : list (Z * dupkey)) : Prop := {
  hd_nodup : NoDup l.*1;
  hd_node p k : (p, k) ∈ l -> p <> 0 /\ exists d, m !! p = Some d /\ key_of d = k;
  hd_size : length tbl = 32%nat;
  hd_chain h : (h < 32)%nat -> exists p, tbl !! h = Some p /\ p = default 0 (head (in_chain h l)) /\
    links (chn m) (in_chain h l ++ [0])
}.

(** The cache holds the requests [l], from the oldest on, at these addresses. *)
Record holds (c : dupcache) (l : list (Z * dupkey)) : Prop := {
  hs_hashed : hashed (dr_mem c) (drhashtbl c) l;
  hs_ring : ring (nxt (dr_mem c)) l.*1;
  hs_mru : drmru c = default 0 (last l.*1);
  hs_count : ndupreqs c = Z.of_nat (length l);
  hs_bound : Z.of_nat (length l) <= MAXDUPREQS
}.

Lemma key_hash_range k : (key_hash k < 32)%nat.
Proof.
  unfold key_hash, XIDHASH, DRHASHSZ. change (32 - 1) with (Z.ones 5). rewrite Z.land_ones by lia.
  pose proof (Z.mod_pos_bound (dk_xid k) (2 ^ 5)). lia.
Qed.

Lemma XIDHASH_key k : XIDHASH (dk_xid k) = Z.of_nat (key_hash k).
Proof.
  unfold key_hash. rewrite Z2Nat.id; [done|]. unfold XIDHASH, DRHASHSZ. change (32 - 1) with (Z.ones 5).
  rewrite Z.land_ones by lia. apply Z.mod_pos_bound. lia.
Qed.

Lemma elem_of_in_chain h l p : p ∈ in_chain h l <-> exists k, (p, k) ∈ l /\ key_hash k = h.
Proof.
  unfold in_chain. rewrite list_elem_of_fmap. split.
  - intros ([q k] & -> & H). apply list_elem_of_filter in H as [? H]. rewrite elem_of_reverse in H. by exists k.
  - intros (k & H & E). exists (p, k). split; [done|]. apply list_elem_of_filter. split; [done|]. by rewrite elem_of_reverse.
Qed.

Lemma in_chain_nodup h l : NoDup l.*1 -> NoDup (in_chain h l).
Proof.
  intros H. unfold in_chain. eapply sublist_NoDup; [|apply fmap_sublist, sublist_filter]. rewrite fmap_reverse. by rewrite reverse_Permutation.
Qed.

Lemma in_chain_old h p k l : in_chain h ((p, k) :: l) = in_chain h l ++ (if decide (key_hash k = h) then [p] else []).
Proof. unfold in_chain. rewrite reverse_cons, filter_app, fmap_app. cbn. by destruct (decide _). Qed.

Lemma in_chain_new h p k l : in_chain h (l ++ [(p, k)]) = (if decide (key_hash k = h) then [p] else []) ++ in_chain h l.
Proof. unfold in_chain. rewrite reverse_app. cbn. by destruct (decide _). Qed.

Lemma node_fun m tbl l p k k' : hashed m tbl l -> (p, k) ∈ l -> (p, k') ∈ l -> k = k'.
Proof.
  intros Hm H1 H2. destruct (hd_node _ _ _ Hm p k H1) as (_ & d & E & <-). destruct (hd_node _ _ _ Hm p k' H2) as (_ & d' & E' & <-).
  congruence.
Qed.

(** Only the requests and the chains of the nodes matter. *)
Lemma hashed_frame m m' tbl l : hashed m tbl l ->
  (forall p, p ∈ l.*1 -> chn m' p = chn m p /\ key_of <$> m' !! p = key_of <$> m !! p) -> hashed m' tbl l.
Proof.
  intros [H1 H2 H3 H4] Hf. split; [done| |done|].
  - intros p k Hp. destruct (H2 p k Hp) as (Hp0 & d & E & Ek). split; [done|].
    destruct (Hf p) as [_ Hk]; [by apply (list_elem_of_fmap_2 fst _ (p, k))|]. rewrite E in Hk. cbn in Hk.
    destruct (m' !! p) as [d'|]; [|done]. exists d'. split; [done|]. apply (inj Some) in Hk. by rewrite <- Ek.
  - intros h Hh. destruct (H4 h Hh) as (p & E & Ep & Hl). exists p. split; [done|]. split; [done|].
    apply (links_frame (chn m)); [|done]. intros a Ha. apply elem_of_in_chain in Ha as (k & Ha & _).
    apply Hf. by apply (list_elem_of_fmap_2 fst _ (a, k)).
Qed.

(** *** A chain is followed to its end *)

Lemma links_size m l : NoDup l -> (forall a, a ∈ l -> is_Some (m !! a)) -> (length l <= size (m : gmap Z dupreq))%nat.
Proof.
  intros Hn Hm. rewrite <- size_dom, <- (size_list_to_set (C := gset Z) l) by done. apply subseteq_size.
  intros a Ha. apply elem_of_list_to_set in Ha. apply elem_of_dom. auto.
Qed.

Lemma dup_loop_ok c req l : forall fuel, (length l <= fuel)%nat -> links (chn (dr_mem c)) (l ++ [0]) -> (forall a, a ∈ l -> a <> 0) ->
  dup_loop fuel c req (default 0 (head l)) = Ok (existsb (fun a => bool_decide (key_of <$> dr_mem c !! a = Some req)) l).
Proof.
  induction l as [|a l IH]; intros fuel Hf Hl H0; cbn [head default from_option id].
  { by destruct fuel. }
  destruct fuel as [|fuel]; [cbn in Hf; lia|]. cbn [dup_loop]. rewrite (proj2 (Z.eqb_neq _ _)) by set_solver.
  assert (Ha : exists d, dr_mem c !! a = Some d /\ dr_chain d = default 0 (head l) /\ links (chn (dr_mem c)) (l ++ [0])).
  { assert (Hc : chn (dr_mem c) a = Some (default 0 (head l)) /\ links (chn (dr_mem c)) (l ++ [0])) by (by destruct l).
    destruct Hc as [Hc Hl']. unfold chn in Hc. destruct (dr_mem c !! a) as [d|] eqn:E; [|done]. injection Hc as Hc. eauto. }
  destruct Ha as (d & E & Ec & Hl'). unfold dr_get. rewrite E. cbn [deref obind].
  assert (Hk : (negb (dr_xid d =? dk_xid req) || negb (dr_prog d =? dk_prog req) || negb (dr_vers d =? dk_vers req)
    || negb (dr_proc d =? dk_proc req) || negb (bool_decide (dr_addr d = dk_addr req)))%bool = negb (bool_decide (key_of d = req))).
  { destruct req as [x p v pr ad]. unfold key_of. cbn.
    destruct (Z.eqb_spec (dr_xid d) x), (Z.eqb_spec (dr_prog d) p), (Z.eqb_spec (dr_vers d) v), (Z.eqb_spec (dr_proc d) pr);
      cbn [negb orb]; try (symmetry; apply negb_true_iff, bool_decide_eq_false; congruence).
    f_equal. apply bool_decide_ext. split; [by intros ->; subst|congruence]. }
  rewrite Hk. cbn [existsb]. rewrite E. cbn [fmap option_fmap option_map].
  replace (bool_decide (Some (key_of d) = Some req)) with (bool_decide (key_of d = req))
    by (apply bool_decide_ext; split; [by intros ->|by intros [= ->]]).
  destruct (bool_decide (key_of d = req)); cbn [negb orb]; [done|].
  rewrite Ec. apply IH; [cbn in Hf; lia|done|set_solver].
Qed.

(** *** Taking the oldest node out of its chain *)

Lemma unhash_loop_ok c p h l : p <> 0 -> p ∉ l -> (forall a, a ∈ l -> a <> 0) -> 0 <= h < Z.of_nat (length (drhashtbl c)) ->
  forall fuel prev, (length l < fuel)%nat -> links (chn (dr_mem c)) (l ++ [p; 0]) ->
  let q := default prev (last l) in
  (q <> 0 -> is_Some (dr_mem c !! q)) ->
  exists c', unhash_loop fuel c p h prev (default 0 (head (l ++ [p]))) = Ok c' /\
    if q =? 0 then c' = c <| drhashtbl := <[Z.to_nat h := 0]> (drhashtbl c) |>
    else exists d, dr_mem c !! q = Some d /\ c' = dr_put c q (d <| dr_chain := 0 |>).
Proof.
  intros Hp Hpl H0 Hh. induction l as [|a l IH]; intros fuel prev Hf Hl q Hq; (destruct fuel as [|fuel]; [cbn in Hf; lia|]).
  - cbn [app head default from_option id unhash_loop]. rewrite (proj2 (Z.eqb_neq p 0)) by done.
    destruct Hl as [Hc _]. unfold chn in Hc. destruct (dr_mem c !! p) as [d|] eqn:E; [|done]. injection Hc as Hc.
    unfold dr_get. rewrite E. cbn [deref obind]. rewrite Z.eqb_refl, Hc. cbn [last default from_option id] in q. subst q.
    destruct (Z.eqb_spec prev 0) as [->|Hn].
    + rewrite aset_ok by done. cbn [obind]. eauto.
    + destruct (Hq Hn) as [d' E']. rewrite E'. cbn [deref obind]. eauto.
  - cbn [app head default from_option id unhash_loop]. rewrite (proj2 (Z.eqb_neq a 0)) by set_solver.
    assert (Hc : chn (dr_mem c) a = Some (default 0 (head (l ++ [p]))) /\ links (chn (dr_mem c)) (l ++ [p; 0])) by (by destruct l).
    destruct Hc as [Hc Hl']. unfold chn in Hc. destruct (dr_mem c !! a) as [d|] eqn:E; [|done]. injection Hc as Hc.
    unfold dr_get. rewrite E. cbn [deref obind]. rewrite (proj2 (Z.eqb_neq a p)) by set_solver. rewrite Hc.
    assert (Eq : q = default a (last l)). { subst q. destruct l as [|b l]; [done|]. cbn. by destruct (last_is_Some (b :: l)) as [_ [? ->]]. }
    rewrite Eq. apply IH; [set_solver|set_solver|cbn in Hf; lia|done|]. rewrite <- Eq. done.
Qed.

Lemma in_chain_other h p k l : h <> key_hash k -> in_chain h ((p, k) :: l) = in_chain h l.
Proof. intros Hne. rewrite in_chain_old, decide_False by (intros E; by apply Hne). apply app_nil_r. Qed.

Lemma in_chain_node m tbl p k l h a : hashed m tbl ((p, k) :: l) -> a ∈ in_chain h l -> a <> 0 /\ a <> p /\ is_Some (m !! a).
Proof.
  intros Hm Ha. pose proof (hd_nodup _ _ _ Hm) as Hn. apply NoDup_cons in Hn as [Hpl _].
  apply elem_of_in_chain in Ha as (k' & Ha & _). destruct (hd_node _ _ _ Hm a k') as (H0 & d & E & _); [set_solver|].
  split; [done|]. split; [|eauto]. intros ->. apply Hpl. by apply (list_elem_of_fmap_2 fst _ (p, k')).
Qed.

(** Its chain had nothing but the oldest node. *)
Lemma hashed_unlink_only m tbl p k l : hashed m tbl ((p, k) :: l) -> in_chain (key_hash k) l = [] ->
  hashed m (<[key_hash k := 0]> tbl) l.
Proof.
  intros Hm Ez. pose proof (hd_nodup _ _ _ Hm) as Hn. apply NoDup_cons in Hn as [_ Hn]. pose proof (key_hash_range k).
  pose proof (hd_size _ _ _ Hm). split; [done| |by rewrite length_insert|].
  - intros a k' Ha. apply (hd_node _ _ _ Hm). set_solver.
  - intros h' Hh'. destruct (decide (h' = key_hash k)) as [->|Hne].
    + exists 0. rewrite Ez. split; [apply list_lookup_insert_eq; lia|done].
    + rewrite list_lookup_insert_ne by done. destruct (hd_chain _ _ _ Hm h' Hh') as (q' & Eq' & Hq' & Hl').
      rewrite in_chain_other in Hq', Hl' by done. eauto.
Qed.

(** The node [z] stood before it. *)
Lemma hashed_unlink m tbl p k l l' z dz : hashed m tbl ((p, k) :: l) -> in_chain (key_hash k) l = l' ++ [z] -> m !! z = Some dz ->
  hashed (<[z := dz <| dr_chain := 0 |>]> m) tbl l.
Proof.
  intros Hm Ez Edz. pose proof (hd_nodup _ _ _ Hm) as Hn. apply NoDup_cons in Hn as [_ Hn].
  assert (Hz : z ∈ in_chain (key_hash k) l) by (rewrite Ez; set_solver).
  assert (Hnz : forall a, a <> z -> chn (<[z:=dz <| dr_chain := 0 |>]> m) a = chn m a)
    by (intros a Ha; unfold chn; by rewrite lookup_insert_ne).
  pose proof (in_chain_nodup (key_hash k) l Hn) as Hnd. rewrite Ez in Hnd. apply NoDup_app in Hnd as (_ & Hnd & _).
  split; [done| |apply (hd_size _ _ _ Hm)|].
  - intros a k' Ha. destruct (hd_node _ _ _ Hm a k') as (Ha0 & d' & Ed & Ek'); [set_solver|]. split; [done|].
    destruct (decide (a = z)) as [->|Haz]; [|rewrite lookup_insert_ne by done; eauto].
    rewrite lookup_insert_eq. eexists. split; [done|]. rewrite Edz in Ed. injection Ed as ->. done.
  - intros h' Hh'. destruct (hd_chain _ _ _ Hm h' Hh') as (q & Eq & Hq & Hl). exists q. split; [done|].
    destruct (decide (h' = key_hash k)) as [->|Hne].
    + rewrite in_chain_old, decide_True in Hq, Hl by done. rewrite Ez in *. rewrite <- !app_assoc in *. cbn [app] in *.
      split; [by rewrite Hq; destruct l'|].
      rewrite links_app in Hl |- *. destruct Hl as [Hl _]. split; [|cbn; split; [unfold chn; by rewrite lookup_insert_eq|done]].
      apply (links_frame (chn m)); [|done]. intros a Ha. apply Hnz. intros ->. by eapply Hnd; [|apply list_elem_of_singleton].
    + rewrite in_chain_other in Hq, Hl by done.
      split; [done|]. apply (links_frame (chn m)); [|done]. intros a Ha. apply Hnz. intros ->.
      apply elem_of_in_chain in Ha as (k1 & Hz1 & E1). apply elem_of_in_chain in Hz as (k2 & Hz2 & E2).
      apply Hne. rewrite <- E1, <- E2. f_equal. by apply (node_fun _ _ _ z _ _ Hm); apply elem_of_cons; right.
Qed.

Lemma unhash_ok c p k l : hashed (dr_mem c) (drhashtbl c) ((p, k) :: l) ->
  exists c', unhash c p = Ok c' /\ hashed (dr_mem c') (drhashtbl c') l /\ (forall a, nxt (dr_mem c') a = nxt (dr_mem c) a) /\
    drmru c' = drmru c /\ ndupreqs c' = ndupreqs c.
Proof.
  intros Hm. pose proof (hd_nodup _ _ _ Hm) as Hn. apply NoDup_cons in Hn as [_ Hn].
  destruct (hd_node _ _ _ Hm p k) as (Hp & d & E & Ek); [set_solver|].
  set (h := key_hash k). pose proof (key_hash_range k) as Hh. fold h in Hh.
  destruct (hd_chain _ _ _ Hm h Hh) as (q & Eq & Hq & Hl). rewrite in_chain_old, decide_True in Hq, Hl by done.
  pose proof (fun a => in_chain_node _ _ _ _ _ h a Hm) as Hin.
  unfold unhash, dr_get. rewrite E. cbn [deref obind]. replace (dr_xid d) with (dk_xid k) by (by rewrite <- Ek).
  rewrite XIDHASH_key. fold h. rewrite (aget_ok _ _ q) by (rewrite ?Nat2Z.id; lia || done). cbn [obind].
  rewrite <- app_assoc in Hl. cbn [app] in Hl. pose proof (hd_size _ _ _ Hm) as Hs.
  assert (Hz : forall z, last (in_chain h l) = Some z -> z ∈ in_chain h l).
  { intros z [l' ->]%last_Some. set_solver. }
  destruct (unhash_loop_ok c p (Z.of_nat h) (in_chain h l) Hp ltac:(intros Ha; by apply Hin in Ha as (_ & ? & _))
    ltac:(intros a Ha; by apply Hin) ltac:(lia) (size (dr_mem c)) 0) as (c' & Ec & Hc').
  { assert (length (in_chain h l ++ [p]) <= size (dr_mem c))%nat; [|rewrite length_app in *; cbn in *; lia].
    apply links_size.
    - apply NoDup_app. split; [by apply in_chain_nodup|]. split; [|apply NoDup_singleton].
      intros a Ha Hap. apply list_elem_of_singleton in Hap as ->. by apply Hin in Ha as (_ & ? & _).
    - intros a Ha. apply elem_of_app in Ha as [Ha|Ha]; [by apply Hin|apply list_elem_of_singleton in Ha as ->; eauto]. }
  { done. }
  { destruct (last (in_chain h l)) as [z|] eqn:Ez; [|done]. intros _. by apply Hin, Hz. }
  rewrite Hq, Ec. exists c'. split; [done|].
  destruct (last (in_chain h l)) as [z|] eqn:Ez; cbn [default from_option id] in Hc'.
  - rewrite (proj2 (Z.eqb_neq z 0)) in Hc' by (by apply Hin, Hz). destruct Hc' as (dz & Edz & ->). apply last_Some in Ez as [l' Ez].
    split; [by apply (hashed_unlink _ _ p k l l')|]. split; [|done]. intros a. unfold nxt. cbn.
    destruct (decide (a = z)) as [->|]; [rewrite lookup_insert_eq, Edz; done|by rewrite lookup_insert_ne].
  - cbn in Hc'. subst c'. cbn. apply last_None in Ez. split; [|done]. rewrite Nat2Z.id. by apply (hashed_unlink_only _ _ p k).
Qed.

(** *** A request put in *)

(** The node [p] is filled in and put before its chain. *)
Lemma hashed_insert m tbl l p k d q : hashed m tbl l -> p <> 0 -> p ∉ l.*1 -> tbl !! key_hash k = Some q ->
  key_of d = k -> dr_chain d = q -> hashed (<[p := d]> m) (<[key_hash k := p]> tbl) (l ++ [(p, k)]).
Proof.
  intros Hm Hp Hpl Eq Ek Ed. pose proof (key_hash_range k) as Hh. pose proof (hd_size _ _ _ Hm) as Hs.
  assert (Hf : hashed (<[p := d]> m) tbl l).
  { apply (hashed_frame m); [done|]. intros a Ha. unfold chn. rewrite lookup_insert_ne by (by intros ->). done. }
  split; [| |by rewrite length_insert|].
  - rewrite fmap_app. apply NoDup_app. split; [apply (hd_nodup _ _ _ Hm)|]. split; [|apply NoDup_singleton].
    intros a Ha Hap. by apply list_elem_of_singleton in Hap as ->.
  - intros a k' Ha. apply elem_of_app in Ha as [Ha|Ha]; [by apply (hd_node _ _ _ Hf)|].
    apply list_elem_of_singleton in Ha as [= -> ->]. split; [done|]. exists d. by rewrite lookup_insert_eq.
  - intros h Hh'. rewrite in_chain_new. destruct (hd_chain _ _ _ Hf h Hh') as (q' & Eq' & Hq' & Hl').
    destruct (decide (key_hash k = h)) as [<-|Hne]; cbn [app].
    + exists p. split; [apply list_lookup_insert_eq; lia|]. split; [done|].
      assert (Hc : chn (<[p := d]> m) p = Some (default 0 (head (in_chain (key_hash k) l)))).
      { unfold chn. rewrite lookup_insert_eq. cbn. congruence. }
      destruct (in_chain (key_hash k) l) as [|b ch]; [done|]. cbn [app] in *. by rewrite links_cons.
    + exists q'. by rewrite list_lookup_insert_ne.
Qed.

Lemma ring_last f l z : ring f (l ++ [z]) -> f z = head (l ++ [z]).
Proof.
  destruct l as [|a l]; cbn [ring app head]; [by rewrite links_cons; intros [? _]|].
  rewrite <- app_assoc. cbn [app]. change (a :: l ++ [z; a]) with ((a :: l) ++ z :: [a]). rewrite links_app. by intros [_ [? _]].
Qed.

(** The requests that stay when one more comes. *)
Definition room_for_one {A} (l : list A) : list A := if Z.of_nat (length l) <? MAXDUPREQS then l else tail l.

Lemma room_for_one_fmap {A B} (f : A -> B) l : f <$> room_for_one l = room_for_one (f <$> l).
Proof. unfold room_for_one. rewrite length_fmap. destruct (_ <? _); [done|by destruct l]. Qed.

Lemma holds_node c l p : holds c l -> p ∈ l.*1 -> p <> 0 /\ is_Some (dr_mem c !! p).
Proof.
  intros Hc Hp. apply list_elem_of_fmap in Hp as ([q k] & -> & Hp). destruct (hd_node _ _ _ (hs_hashed _ _ Hc) q k Hp) as (H0 & d & E & _).
  eauto.
Qed.

Lemma dup_node_new c l new : holds c l -> Z.of_nat (length l) < MAXDUPREQS -> new <> 0 -> dr_mem c !! new = None ->
  exists c', dup_node c new = Ok (c', new) /\ hashed (dr_mem c') (drhashtbl c') l /\ ring (nxt (dr_mem c')) (l.*1 ++ [new]) /\
    (new ∉ l.*1) /\ is_Some (dr_mem c' !! new) /\ ndupreqs c' = Z.of_nat (length l) + 1.
Proof.
  intros Hc Hl Hn0 Hn. pose proof Hc as [Hm Hr Hmru Hcnt _]. unfold dup_node. rewrite Hcnt, (proj2 (Z.ltb_lt _ _)) by done.
  rewrite (proj2 (Z.eqb_neq _ _)) by done.
  assert (Hnl : new ∉ l.*1) by (intros H; apply (holds_node c l new Hc) in H as [_ [d E]]; congruence).
  destruct (exists_last_or_nil l) as [->|(l0 & [z kz] & ->)].
  - rewrite Hmru. cbn. eexists. split; [done|]. cbn. split.
    { eapply hashed_frame; [exact Hm|]. intros p Hp. by apply elem_of_nil in Hp. }
    unfold nxt. rewrite lookup_insert_eq. cbn. split; [done|]. split; [set_solver|]. split; [eauto|]. by rewrite Hcnt.
  - rewrite fmap_app, last_app in Hmru. cbn in Hmru. rewrite Hmru.
    destruct (holds_node c _ z Hc) as (Hz0 & mz & Ez); [rewrite fmap_app; set_solver|].
    unfold nz. rewrite (proj2 (Z.eqb_neq _ _)) by done. cbn [negb]. unfold dr_get. rewrite Ez. cbn [deref obind].
    eexists. split; [reflexivity|]. cbn. rewrite Hmru. assert (Hzn : z <> new) by (intros ->; congruence). split; [|split].
    + apply (hashed_frame (dr_mem c)); [exact Hm|]. intros p Hp. assert (Hpn : new <> p) by (intros ->; done).
      unfold chn. destruct (decide (p = z)) as [->|Hpz]; [rewrite lookup_insert_eq, Ez; done|].
      by rewrite !lookup_insert_ne by done.
    + rewrite fmap_app in *. cbn in Hr |- *. apply (ring_insert (nxt (dr_mem c))); [done| | |].
      * intros a Ha. unfold nxt. rewrite !lookup_insert_ne; [done|intros ->; apply Hnl; set_solver|].
        intros ->. pose proof (hd_nodup _ _ _ Hm) as Hd. rewrite fmap_app in Hd. apply NoDup_app in Hd as (_ & Hd & _). apply (Hd a Ha). set_solver.
      * unfold nxt. by rewrite lookup_insert_eq.
      * unfold nxt. rewrite lookup_insert_ne, lookup_insert_eq, Ez by done. done.
    + split; [done|]. rewrite lookup_insert_ne, lookup_insert_eq by done. split; [eauto|lia].
Qed.

Lemma dup_node_old c p k l new : holds c ((p, k) :: l) -> Z.of_nat (length ((p, k) :: l)) = MAXDUPREQS ->
  exists c', dup_node c new = Ok (c', p) /\ hashed (dr_mem c') (drhashtbl c') l /\ ring (nxt (dr_mem c')) (l.*1 ++ [p]) /\
    is_Some (dr_mem c' !! p) /\ ndupreqs c' = Z.of_nat (length l) + 1.
Proof.
  intros Hc Hl. pose proof Hc as [Hm Hr Hmru Hcnt _]. unfold dup_node. rewrite Hcnt, (proj2 (Z.ltb_ge _ _)) by lia.
  destruct (unhash_ok c p k l Hm) as (c' & E & Hm' & Hnx & _ & Hcnt').
  assert (Hnext : nxt (dr_mem c) (drmru c) = Some p).
  { destruct (exists_last_or_nil ((p, k) :: l)) as [?|(l0 & [z kz] & El)]; [done|]. rewrite El in Hmru, Hr.
    rewrite fmap_app, last_app in Hmru. rewrite fmap_app in Hr. cbn in Hmru, Hr. rewrite Hmru, (ring_last _ _ _ Hr).
    apply (f_equal (fmap fst)) in El. rewrite fmap_app in El. cbn in El. by rewrite <- El. }
  unfold nxt in Hnext. unfold dr_get. destruct (dr_mem c !! drmru c) as [mz|]; [|done]. injection Hnext as Hnext.
  cbn [deref obind]. rewrite Hnext, E. cbn [obind]. exists c'. split; [done|]. split; [done|]. split.
  - apply (ring_frame (nxt (dr_mem c))); [by intros; apply Hnx|]. by apply ring_rotate.
  - split; [|rewrite Hcnt', Hcnt; cbn; lia]. destruct (holds_node c _ p Hc) as (_ & d & Ep); [set_solver|].
    specialize (Hnx p). unfold nxt in Hnx. rewrite Ep in Hnx. destruct (dr_mem c' !! p); [eauto|done].
Qed.

Lemma dupsave_ok c l new k : holds c l -> new <> 0 -> dr_mem c !! new = None ->
  exists c' p, svckudp_dupsave c new k = Ok c' /\ holds c' (room_for_one l ++ [(p, k)]).
Proof.
  intros Hc Hn0 Hn. pose proof (hs_bound _ _ Hc) as Hb.
  assert (H : exists c1 p, dup_node c new = Ok (c1, p) /\ hashed (dr_mem c1) (drhashtbl c1) (room_for_one l) /\
    ring (nxt (dr_mem c1)) ((room_for_one l).*1 ++ [p]) /\ p <> 0 /\ (p ∉ (room_for_one l).*1) /\ is_Some (dr_mem c1 !! p) /\
    ndupreqs c1 = Z.of_nat (length (room_for_one l)) + 1 /\ Z.of_nat (length (room_for_one l)) + 1 <= MAXDUPREQS).
  { unfold room_for_one. destruct (Z.ltb_spec (Z.of_nat (length l)) MAXDUPREQS) as [Hl|Hl].
    - destruct (dup_node_new c l new Hc Hl Hn0 Hn) as (c1 & E & H1 & H2 & H3 & H4 & H5). exists c1, new.
      do 7 (split; [done|]). lia.
    - destruct l as [|[p kp] l]; [done|]. destruct (dup_node_old c p kp l new Hc ltac:(lia)) as (c1 & E & H1 & H2 & H3 & H4).
      exists c1, p. pose proof (hd_nodup _ _ _ (hs_hashed _ _ Hc)) as Hd. cbn in Hd. apply NoDup_cons in Hd as [Hd _]. cbn [tail].
      split; [done|]. split; [done|]. split; [done|]. split; [apply (holds_node c _ p Hc); set_solver|].
      cbn in Hb. do 3 (split; [done|]). lia. }
  destruct H as (c1 & p & E & Hm & Hr & Hp0 & Hpl & [d Ed] & Hcnt & Hmax). unfold svckudp_dupsave. rewrite E. cbn [obind].
  unfold dr_get. cbn. rewrite Ed. cbn [deref obind]. rewrite XIDHASH_key. pose proof (key_hash_range k) as Hh.
  destruct (hd_chain _ _ _ Hm (key_hash k) Hh) as (q & Eq & _ & _). pose proof (hd_size _ _ _ Hm) as Hs.
  rewrite (aget_ok _ _ q) by (rewrite ?Nat2Z.id; lia || done). cbn [obind]. rewrite aset_ok by (cbn; lia). cbn [obind].
  eexists _, p. split; [done|]. rewrite Nat2Z.id. split; cbn.
  - apply (hashed_insert _ _ _ _ _ _ q); try done. by destruct k.
  - rewrite fmap_app. cbn. apply (ring_frame (nxt (dr_mem c1))); [|done]. intros a _. unfold nxt.
    destruct (decide (a = p)) as [->|]; [rewrite lookup_insert_eq, Ed; done|by rewrite lookup_insert_ne].
  - by rewrite fmap_app, last_app.
  - rewrite Hcnt, length_app. cbn. lia.
  - rewrite length_app. cbn. lia.
Qed.

Lemma dup_ok c l k : holds c l -> exists c', svckudp_dup c k = Ok (c', bool_decide (k ∈ l.*2)) /\ holds c' l.
Proof.
  intros Hc. pose proof Hc as [Hm Hr Hmru Hcnt Hb]. unfold svckudp_dup. cbn. rewrite XIDHASH_key.
  pose proof (key_hash_range k) as Hh. destruct (hd_chain _ _ _ Hm (key_hash k) Hh) as (q & Eq & -> & Hl).
  rewrite (aget_ok _ (Z.of_nat (key_hash k)) _ ltac:(lia) ltac:(rewrite Nat2Z.id; exact Eq)). cbn [obind].
  assert (Hin : forall a, a ∈ in_chain (key_hash k) l -> a <> 0 /\ is_Some (dr_mem c !! a)).
  { intros a (k' & Ha & _)%elem_of_in_chain. apply (holds_node c l a Hc). by apply (list_elem_of_fmap_2 fst _ (a, k')). }
  rewrite dup_loop_ok; cbn [dr_mem set_field].
  2: { apply links_size; [apply in_chain_nodup, (hd_nodup _ _ _ Hm)|]. intros a Ha. by apply Hin. }
  2: { done. }
  2: { intros a Ha. by apply Hin. }
  cbn [obind]. eexists. split; [|].
  - f_equal. f_equal. apply eq_true_iff_eq. rewrite existsb_exists, bool_decide_eq_true. split.
    + intros (a & Ha & Hk). apply list_elem_of_In, elem_of_in_chain in Ha as (k' & Ha & _). apply bool_decide_eq_true in Hk.
      destruct (hd_node _ _ _ Hm a k' Ha) as (_ & d & Ed & Ek). rewrite Ed in Hk. cbn in Hk. apply (inj Some) in Hk. subst.
      by apply (list_elem_of_fmap_2 snd _ (a, key_of d)).
    + intros ([a k'] & -> & Ha)%list_elem_of_fmap. exists a. split; [apply list_elem_of_In, elem_of_in_chain; by exists k'|].
      apply bool_decide_eq_true. destruct (hd_node _ _ _ Hm a k' Ha) as (_ & d & -> & <-). done.
  - by destruct (existsb _ _).
Qed.

Lemma holds_empty : holds dupcache0 [].
Proof.
  split; try done. split; [constructor| |done|].
  - intros p k Hp. by apply elem_of_nil in Hp.
  - intros h Hh. exists 0. split; [by apply lookup_replicate|done].
Qed.

(** ** The property *)

(** What a server does with the cache. *)
Inductive dup_call := DupSave (req : dupkey) | DupAsk (req : dupkey).

(** The promise: a queue of the last [MAXDUPREQS] requests. *)
Fixpoint queue_run (q : list dupkey) (l : list dup_call) : list bool :=
  match l with
  | [] => []
  | DupSave k :: l => queue_run (room_for_one q ++ [k]) l
  | DupAsk k :: l => bool_decide (k ∈ q) :: queue_run q l
  end.

Section Run.
(** [kmem_alloc] gives an address for a node that is not in use. *)
Context (kmem : gmap Z dupreq -> Z).

Fixpoint dup_run (c : dupcache) (l : list dup_call) : outcome (dupcache * list bool) :=
  match l with
  | [] => Ok (c, [])
  | DupSave k :: l => let* c := svckudp_dupsave c (kmem (dr_mem c)) k in dup_run c l
  | DupAsk k :: l => let* r := svckudp_dup c k in let* r' := dup_run r.1 l in Ok (r'.1, r.2 :: r'.2)
  end.

Context (kmem_fresh : forall m, kmem m <> 0 /\ m !! kmem m = None).

Lemma dup_run_ok l : forall c nodes, holds c nodes ->
  exists c' nodes', dup_run c l = Ok (c', queue_run nodes.*2 l) /\ holds c' nodes'.
Proof using kmem_fresh.
  induction l as [|[k|k] l IH]; intros c nodes Hc; cbn [dup_run queue_run]; [by exists c, nodes|..].
  - destruct (kmem_fresh (dr_mem c)) as [H0 Hn]. destruct (dupsave_ok c nodes _ k Hc H0 Hn) as (c1 & p & E & Hc1).
    rewrite E. cbn [obind]. destruct (IH c1 _ Hc1) as (c2 & n2 & E2 & Hc2). rewrite E2.
    rewrite fmap_app, room_for_one_fmap. by exists c2, n2.
  - destruct (dup_ok c nodes k Hc) as (c1 & E & Hc1). rewrite E. cbn [obind fst snd].
    destruct (IH c1 nodes Hc1) as (c2 & n2 & E2 & Hc2). rewrite E2. cbn [obind fst snd]. by exists c2, n2.
Qed.

(** C11: the cache of duplicate requests refines a queue.  Whatever sequence of
    requests a server saves and asks for, the nodes, the ring and the chains
    answer like a queue of the last [MAXDUPREQS] requests: a request is a
    duplicate exactly when it is one of those.  No pointer is followed that is
    not one of a node, no chain goes round, and never are more than
    [MAXDUPREQS] nodes in use. *)
Theorem dup_runs_refine_queue (l : list dup_call) :
  exists c, dup_run dupcache0 l = Ok (c, queue_run [] l) /\ ndupreqs c <= MAXDUPREQS.
Proof using kmem_fresh.
  destruct (dup_run_ok l dupcache0 [] holds_empty) as (c & n & E & Hc). exists c. split; [exact E|].
  rewrite (hs_count _ _ Hc). apply (hs_bound _ _ Hc).
Qed.
End Run.

Definition sample_kmem (m : gmap Z dupreq) : Z := fresh (dom m ∪ {[0]}).

(** Two requests with the same hash and one of the first again from elsewhere. *)
Definition sample_key (xid : Z) : dupkey := Dupkey xid 100003 2 9 [10; 0; 0; 1].
Definition sample_saves : list dup_call :=
  [DupSave (sample_key 1); DupSave (sample_key 33); DupAsk (sample_key 1); DupAsk (sample_key 65);
   DupAsk (Dupkey 1 100003 2 9 [10; 0; 0; 2])].

Lemma dup_runs_refine_queue_witness :
  exists c, dup_run sample_kmem dupcache0 sample_saves = Ok (c, [true; false; false]) /\ ndupreqs c <= MAXDUPREQS.
Proof.
  destruct (dup_runs_refine_queue sample_kmem) with (l := sample_saves) as (c & E & Hc); [|exists c; split; [exact E|exact Hc]].
  intros m. pose proof (is_fresh (dom m ∪ {[0]})) as Hf. split; unfold sample_kmem.
  - intros E. apply Hf. rewrite E. set_solver.
  - apply not_elem_of_dom. intros H. apply Hf. set_solver.
Defined.
