(* ===== verification/RpcAuth.v ===== *)
(** * Credentials of the UNIX flavor: [sys/rpc/authunix_prot.c], [auth_kern.c], [svc_auth.c], [svc_auth_unix.c]

    The kernel of a client sends the user and the groups of the process; the
    server takes them apart again.  The credentials a server has taken apart lie
    in an area of its own, where the machine name and the groups are arrays: an
    access beyond one is a [Fault]. *)
From S2P Require Import Prelude Mbuf In Xdr XdrSpec XdrMem XdrMbuf RpcMsg RpcCall.
#[local] Ltac Zify.zify_post_hook ::= Z.to_euclidean_division_equations.

(** ** Data: [auth_unix.h] *)

Definition MAX_MACHINE_NAME : Z := 255.
Definition NGRPS : Z := 8.
Definition AUTH_OK : Z := 0.
Definition AUTH_BADCRED : Z := 1.
Definition AUTH_REJECTEDCRED : Z := 2.
Definition AUTH_TOOWEAK : Z := 5.
Definition AUTH_MAX : Z := 2.

Record authunix_parms := AuthunixParms {
  aup_time : Z; aup_machname : option (list Z); aup_uid : Z; aup_gid : Z; aup_len : Z; aup_gids : option (list Z)
}.
#[export] Instance settable_authunix_parms : Settable authunix_parms := fun a =>
  AuthunixParms (aup_time a) (aup_machname a) (aup_uid a) (aup_gid a) (aup_len a) (aup_gids a).

(** What a client sends of [u] and of the kernel's variables. *)
Record sender := Sender { time_sec : Z; hostname : list Z; hostnamelen : Z; u_uid : Z; u_gid : Z; u_groups : list Z }.

Section Routines.
Context {S : Type} `{XdrOps S} `{Heap}.

Definition xdr_authunix_parms : xdrproc S authunix_parms :=
  xand (xfield aup_time xdr_u_long) (xand (xfield aup_machname (xdr_string MAX_MACHINE_NAME))
    (xand (xfield aup_uid xdr_u_short) (xand (xfield aup_gid xdr_u_short)
      (xpair aup_gids aup_len (xdr_array NGRPS 2 0 xdr_u_short))))).

(** The loops over the groups from the last of [n] down: in [xdr_authkern] to one
    that is zero, in [authkern_marshal] to one that is not. *)
Fixpoint scan_groups (stop : Z -> bool) (groups : list Z) (n : nat) : outcome Z :=
  match n with
  | O => Ok 0
  | Datatypes.S n' =>
      let* g := aget groups (Z.of_nat n') in if stop g then Ok (Z.of_nat n) else scan_groups stop groups n'
  end.

Definition xdr_authkern (x : XDR S) (u : sender) : outcome (XDR S * bool) :=
  match x_op x with
  | XDR_ENCODE =>
      let* len := scan_groups (fun g => g =? 0) (u_groups u) (Z.to_nat NGRPS) in
      let* r := xdr_authunix_parms x
        (AuthunixParms (time_sec u) (Some (hostname u)) (u_uid u) (u_gid u) len (Some (u_groups u))) in
      Ok (r.1.1, r.2)
  | _ => Ok (x, false)
  end.

(** [roundup(n, 4)]. *)
Definition roundup4 (n : Z) : Z := (n + 3) / 4 * 4.

Definition authkern_fast (x : XDR S) (ptr gidlen credsize : Z) (u : sender) : outcome (XDR S * bool) :=
  let* r := ixdr_puts x ptr [AUTH_UNIX; credsize; time_sec u; hostnamelen u] in
  let '(x, ptr) := r in
  let* b := bytes_at (hostname u) 0 (hostnamelen u) in
  let* s := x_store (x_str x) ptr b in
  let* groups := bytes_at (u_groups u) 0 gidlen in
  let* r := ixdr_puts (x <| x_str := s |>) (ptr + roundup4 (hostnamelen u)) ([u_uid u; u_gid u; gidlen] ++ groups ++ [AUTH_NULL; 0]) in
  Ok (r.1, true).

End Routines.

Section Marshal.
Context {S : Type} `{XdrOps S} `{Heap}.

(** [ah_verf] is the null verifier that [authkern_create] leaves there. *)
Definition authkern_slow (x : XDR S) (u : sender) : outcome (XDR S * bool) :=
  let* sercred := deref (mem_alloc MAX_AUTH_BYTES) in
  let* r := xdr_authkern (xdrmem_create sercred MAX_AUTH_BYTES XDR_ENCODE) u in
  if negb r.2 then Ok (x, false) else
  let cred := OpaqueAuth AUTH_UNIX (Some (xm_buf (x_str r.1))) (xdrmem_getpos (x_str r.1)) in
  let* r := xdr_opaque_auth x cred in
  if negb r.2 then Ok (r.1.1, false) else
  let* r := xdr_opaque_auth r.1.1 (OpaqueAuth AUTH_NULL None 0) in
  Ok (r.1.1, r.2).

Definition authkern_marshal (x : XDR S) (u : sender) : outcome (XDR S * bool) :=
  let* gidlen := scan_groups (fun g => nz g) (u_groups u) (Z.to_nat NGRPS) in
  let credsize := 4 + 4 + roundup4 (hostnamelen u) + 4 + 4 + 4 + gidlen * 4 in
  match XDR_INLINE x (4 + 4 + credsize + 4 + 4) with
  | (x, Some ptr) => authkern_fast x ptr gidlen credsize u
  | (x, None) => authkern_slow x u
  end.
End Marshal.

(** ** The server *)

(** [struct area] of [_svcauth_unix], with what its pointers point to. *)
Record area := Area {
  area_time : Z; area_uid : Z; area_gid : Z; area_len : Z; area_machname : list Z; area_gids : list Z
}.
#[export] Instance settable_area : Settable area := fun a =>
  Area (area_time a) (area_uid a) (area_gid a) (area_len a) (area_machname a) (area_gids a).

Section Server.
Context `{Heap}.

Definition area_parms (a : area) : authunix_parms :=
  AuthunixParms (area_time a) (Some (area_machname a)) (area_uid a) (area_gid a) (area_len a) (Some (area_gids a)).
Definition parms_area (p : authunix_parms) : area :=
  Area (aup_time p) (aup_uid p) (aup_gid p) (aup_len p) (behind (aup_machname p)) (behind (aup_gids p)).

(** The groups, from the [i]-th on. *)
Fixpoint get_gids (x : XDR xdrmem) (buf : Z) (gids : list Z) (i : Z) (n : nat) : outcome (list Z) :=
  match n with
  | O => Ok gids
  | S n =>
      let* v := IXDR_GET_LONG x buf in
      let* gids := aset gids i (u16 v.1) in
      get_gids x v.2 gids (i + 1) n
  end.

(** The credential in line: its status, and the area. *)
Definition unix_inline (x : XDR xdrmem) (buf auth_len : Z) (a : area) : outcome (area * Z) :=
  let* time := IXDR_GET_LONG x buf in
  let* slen := IXDR_GET_LONG x time.2 in
  let str_len := slen.1 in
  let buf := slen.2 in
  let* b := x_load (x_str x) buf str_len in
  let* name := bcopy_to (area_machname a) 0 b in
  let* name := aset name str_len 0 in
  let str_len := RNDUP str_len in
  let* uid := IXDR_GET_LONG x (buf + str_len) in
  let* gid := IXDR_GET_LONG x uid.2 in
  let* glen := IXDR_GET_LONG x gid.2 in
  let gid_len := glen.1 in
  let a := a <| area_time := u32 time.1 |> <| area_machname := name |> <| area_uid := u16 uid.1 |> <| area_gid := u16 gid.1 |> in
  if NGRPS <? gid_len then Ok (a, AUTH_BADCRED) else
  let a := a <| area_len := u32 gid_len |> in
  let* gids := get_gids x glen.2 (area_gids a) 0 (Z.to_nat gid_len) in
  let a := a <| area_gids := gids |> in
  if auth_len <? u32 ((5 + gid_len) * BYTES_PER_XDR_UNIT + str_len) then Ok (a, AUTH_BADCRED) else Ok (a, AUTH_OK).

(** The verifier of the reply is [xp_verf]. *)
Definition _svcauth_unix (a : area) (xp_verf : opaque_auth) (cred : opaque_auth) : outcome (area * opaque_auth * Z) :=
  let auth_len := oa_length cred in
  let xdrs := xdrmem_create (behind (oa_base cred)) auth_len XDR_DECODE in
  let* r := match XDR_INLINE xdrs (s32 auth_len) with
            | (xdrs, Some buf) => unix_inline xdrs buf auth_len a
            | (xdrs, None) =>
                let* r := xdr_authunix_parms xdrs (area_parms a) in
                if r.2 then Ok (parms_area r.1.2, AUTH_OK) else
                let* _ := xdr_authunix_parms (Xdr XDR_FREE (x_str r.1.1)) r.1.2 in
                Ok (parms_area r.1.2, AUTH_BADCRED)
            end in
  Ok (r.1, if r.2 =? AUTH_OK then xp_verf <| oa_flavor := AUTH_NULL |> <| oa_length := 0 |> else xp_verf, r.2).

Definition _svcauth_null (a : area) (xp_verf cred : opaque_auth) : outcome (area * opaque_auth * Z) := Ok (a, xp_verf, AUTH_OK).
Definition _svcauth_short (a : area) (xp_verf cred : opaque_auth) : outcome (area * opaque_auth * Z) :=
  Ok (a, xp_verf, AUTH_REJECTEDCRED).

Definition svcauthsw : list (area -> opaque_auth -> opaque_auth -> outcome (area * opaque_auth * Z)) :=
  [_svcauth_null; _svcauth_unix; _svcauth_short].

Definition _authenticate (a : area) (xp_verf cred : opaque_auth) : outcome (area * opaque_auth * Z) :=
  let xp_verf := xp_verf <| oa_flavor := AUTH_NULL |> <| oa_length := 0 |> in
  if oa_flavor cred <=? AUTH_MAX then
    let* authenticator := aget svcauthsw (oa_flavor cred) in authenticator a xp_verf cred
  else Ok (a, xp_verf, AUTH_REJECTEDCRED).
End Server.

(** ** The credential in memory *)

(** The number at [i] of the bytes [b]. *)
Definition word_at (b : list Z) (i : Z) : Z := unword (take 4 (drop (Z.to_nat i) b)).

Lemma word_at_app (a w c : list Z) : zlen w = 4 -> word_at (a ++ w ++ c) (zlen a) = unword w.
Proof. intros Hw. unfold word_at. rewrite drop_zlen by done. f_equal. exact (take_zlen w c 4 Hw). Qed.

Lemma get_at op p h b i : 0 <= i -> i + 4 <= zlen b -> IXDR_GET_LONG (Xdr op (Xdrmem b p h)) i = Ok (word_at b i, i + 4).
Proof.
  intros Hi Hb. unfold IXDR_GET_LONG. cbn [x_str x_load xdrmem_ops xm_buf]. unfold bytes_at.
  rewrite (proj2 (Z.ltb_ge i 0)), (proj2 (Z.ltb_ge 4 0)), (proj2 (Z.ltb_ge (zlen b) (i + 4))) by lia. done.
Qed.

(** The groups behind the address [p]. *)
Definition gids_at (b : list Z) (p : Z) (n : nat) : list Z := (fun j => u16 (word_at b (p + 4 * Z.of_nat j))) <$> seq 0 n.

Lemma gids_at_S b p n : gids_at b p (S n) = u16 (word_at b p) :: gids_at b (p + 4) n.
Proof.
  unfold gids_at. cbn [seq fmap list_fmap]. f_equal; [do 2 f_equal; lia|]. rewrite <- seq_shift, <- list_fmap_compose.
  apply list_fmap_ext. intros i x _. cbn. do 2 f_equal. lia.
Qed.

Lemma get_gids_ok op q h b : forall n p done todo, 0 <= p -> p + 4 * Z.of_nat n <= zlen b -> (n <= length todo)%nat ->
  get_gids (Xdr op (Xdrmem b q h)) p (done ++ todo) (zlen done) n = Ok (done ++ gids_at b p n ++ drop n todo).
Proof.
  induction n as [|n IH]; intros p ds todo Hp Hb Hn; [done|]. destruct todo as [|t todo]; [cbn in Hn; lia|].
  cbn [get_gids]. rewrite get_at by lia. cbn [obind fst snd]. unfold zlen. rewrite aset_ok by (rewrite length_app; cbn; lia).
  cbn [obind]. rewrite Nat2Z.id, insert_app_r_alt, Nat.sub_diag by lia. cbn [insert list_insert].
  rewrite gids_at_S. replace (Z.of_nat (length ds) + 1) with (zlen (ds ++ [u16 (word_at b p)])) by (rewrite zlen_app; done).
  change (ds ++ u16 (word_at b p) :: todo) with (ds ++ [u16 (word_at b p)] ++ todo). rewrite app_assoc, IH by (cbn in Hn; lia).
  by rewrite <- app_assoc.
Qed.

(** What is made of the credential [b] in the area [a], with a name of [s] bytes
    and [g] groups. *)
Definition unix_area (b : list Z) (s g : Z) (a : area) : area :=
  let r := 8 + RNDUP s in
  Area (u32 (word_at b 0)) (u16 (word_at b r)) (u16 (word_at b (r + 4))) (u32 g)
    (take (Z.to_nat s) (drop 8 b) ++ 0 :: drop (Z.to_nat (s + 1)) (area_machname a))
    (gids_at b (r + 12) (Z.to_nat g) ++ drop (Z.to_nat g) (area_gids a)).

Definition unix_stat (auth_len s g : Z) : Z :=
  if NGRPS <? g then AUTH_BADCRED
  else if auth_len <? u32 ((5 + g) * BYTES_PER_XDR_UNIT + RNDUP s) then AUTH_BADCRED else AUTH_OK.

Lemma name_copied (m b : list Z) s : zlen m = MAX_MACHINE_NAME -> zlen b = s -> s < MAX_MACHINE_NAME ->
  (let* name := bcopy_to m 0 b in aset name s 0) = Ok (b ++ 0 :: drop (Z.to_nat (s + 1)) m).
Proof.
  intros Hm Hb Hs. unfold MAX_MACHINE_NAME in *. pose proof (zlen_nonneg b).
  destruct (zlen_split m s) as (m1 & m2 & -> & Hm1); [lia|]. rewrite zlen_app in Hm.
  pose proof (bcopy_to_ok [] m1 m2 b) as E. cbn [app] in E. change (zlen []) with 0 in E. rewrite E by lia. cbn [obind].
  destruct m2 as [|c m2]; [change (zlen []) with 0 in Hm; lia|]. rewrite aset_ok by (rewrite length_app; unfold zlen in *; cbn; lia).
  f_equal. replace (Z.to_nat s) with (length b + 0)%nat by (unfold zlen in *; lia). rewrite insert_app_r. cbn [insert list_insert].
  f_equal. f_equal. replace (Z.to_nat (s + 1)) with (length m1 + 1)%nat by (unfold zlen in *; lia). by rewrite drop_app_add.
Qed.

Lemma unix_inline_ok op p h b auth_len a : zlen b = MAX_AUTH_BYTES -> zlen (area_machname a) = MAX_MACHINE_NAME ->
  zlen (area_gids a) = NGRPS ->
  let s := word_at b 4 in let g := word_at b (8 + RNDUP s + 8) in
  if (0 <=? s) && (s <? MAX_MACHINE_NAME)
  then exists a', unix_inline (Xdr op (Xdrmem b p h)) 0 auth_len a = Ok (a', unix_stat auth_len s g) /\
    (unix_stat auth_len s g = AUTH_OK -> a' = unix_area b s g a)
  else unix_inline (Xdr op (Xdrmem b p h)) 0 auth_len a = Fault.
Proof.
  intros Hb Hm Hg s g. unfold unix_inline, MAX_AUTH_BYTES in *. rewrite get_at by lia. cbn [obind fst snd]. rewrite get_at by lia. cbn [obind fst snd].
  change (0 + 4 + 4) with 8. change (0 + 4) with 4. fold s. cbn [x_str x_load xdrmem_ops xm_buf].
  destruct (Z.leb_spec 0 s) as [Hs0|Hs0]; cbn [andb].
  2: { unfold bytes_at. rewrite (proj2 (Z.ltb_lt s 0)) by done. done. }
  destruct (Z.ltb_spec s MAX_MACHINE_NAME) as [Hs|Hs].
  - unfold MAX_MACHINE_NAME in *. assert (Hr : s <= RNDUP s <= s + 3) by (rewrite RNDUP_rndup by done; pose proof (rndup_spec s); lia).
    assert (Eb : bytes_at b 8 s = Ok (take (Z.to_nat s) (drop 8 b))).
    { unfold bytes_at. rewrite (proj2 (Z.ltb_ge s 0)), (proj2 (Z.ltb_ge (zlen b) (8 + s))) by lia. done. }
    rewrite Eb. cbn [obind]. assert (Hl : zlen (take (Z.to_nat s) (drop 8 b)) = s).
    { unfold zlen in *. rewrite length_take, length_drop. lia. }
    pose proof (name_copied (area_machname a) _ s Hm Hl Hs) as En.
    destruct (bcopy_to (area_machname a) 0 _) as [name| |]; [|done|done]. cbn [obind] in En |- *. rewrite En. cbn [obind].
    rewrite !get_at by lia. cbn [obind fst snd]. rewrite !get_at by lia. cbn [obind fst snd]. rewrite !get_at by lia. cbn [obind fst snd].
    replace (word_at b (8 + RNDUP s + 4 + 4)) with g by (unfold g; f_equal; lia). unfold unix_stat.
    destruct (Z.ltb_spec NGRPS g) as [Hgm|Hgm]; [by eexists|]. unfold NGRPS in *.
    replace (8 + RNDUP s + 4 + 4 + 4) with (8 + RNDUP s + 12) by lia.
    pose proof (get_gids_ok op p h b (Z.to_nat g) (8 + RNDUP s + 12) [] (area_gids a)) as Eg.
    rewrite !app_nil_l in Eg. specialize (Eg ltac:(lia) ltac:(unfold zlen in *; lia) ltac:(unfold zlen in *; lia)).
    unfold set_field. cbn [area_gids area_machname area_time area_uid area_gid area_len].
    change (zlen []) with 0 in Eg. rewrite Eg. cbn [obind].
    destruct (auth_len <? _); (eexists; split; [reflexivity|]); [discriminate|reflexivity].
  - unfold MAX_MACHINE_NAME in *. unfold bytes_at. rewrite (proj2 (Z.ltb_ge s 0)) by lia. cbn [orb].
    destruct (Z.ltb_spec (zlen b) (8 + s)) as [Hbs|Hbs]; [done|]. change (8 <? 0) with false. cbn [orb obind]. change (Z.to_nat 8) with 8%nat.
    assert (Hl : zlen (take (Z.to_nat s) (drop 8 b)) = s). { unfold zlen in *. rewrite length_take, length_drop. lia. }
    unfold bcopy_to. rewrite Hl, Hm. cbn [Z.ltb orb]. destruct (Z.ltb_spec 255 (0 + s)) as [|Hs2]; [done|]. cbn [obind].
    assert (Es : s = 255) by lia. rewrite Es in *. set (n := take _ _ ++ _). assert (Hn : zlen n = 255).
    { unfold n. change (Z.to_nat 0) with 0%nat. rewrite take_0, app_nil_l, zlen_app, Hl. unfold zlen in *. rewrite length_drop. lia. }
    change ((0 <? 0) || false) with false. cbn [obind]. unfold aset. unfold zlen in Hn. by rewrite Hn.
Qed.

Lemma svcauth_cases `{Heap} (a : area) (verf cred : opaque_auth) b : oa_base cred = Some b ->
  zlen b = MAX_AUTH_BYTES -> zlen (area_machname a) = MAX_MACHINE_NAME -> zlen (area_gids a) = NGRPS ->
  let s := word_at b 4 in let g := word_at b (8 + RNDUP s + 8) in
  if (0 <=? s) && (s <? MAX_MACHINE_NAME)
  then exists a' verf', _svcauth_unix a verf cred = Ok (a', verf', unix_stat (oa_length cred) s g) /\
    (unix_stat (oa_length cred) s g = AUTH_OK -> a' = unix_area b s g a /\ oa_flavor verf' = AUTH_NULL /\ oa_length verf' = 0)
  else _svcauth_unix a verf cred = Fault.
Proof.
  intros Hc Hb Hm Hg s g. unfold _svcauth_unix, XDR_INLINE. rewrite Hc. unfold xdrmem_create. cbn [behind default from_option id x_str x_inline xdrmem_ops].
  unfold xdrmem_inline. cbn [xm_handy]. rewrite Z.leb_refl. cbn [fst snd xm_private].
  unfold set_field. cbn [x_str x_op xm_buf xm_private xm_handy].
  pose proof (unix_inline_ok XDR_DECODE (0 + s32 (oa_length cred)) (s32 (s32 (oa_length cred) - s32 (oa_length cred))) b (oa_length cred) a Hb Hm Hg) as H1.
  cbv zeta in H1. fold s in H1. fold g in H1. destruct (_ && _).
  - destruct H1 as (a' & E & Ha). rewrite E. cbn [obind fst snd]. eexists _, _. split; [done|]. intros Hok. rewrite Hok. split; [auto|done].
  - rewrite H1. done.
Qed.

(** C13: what [_svcauth_unix] makes of a credential, whatever its bytes are.  The
    length it claims for the machine name decides: of 255 bytes or more, or
    negative, and the copy leaves the array for the name ([Fault]).  Otherwise it
    returns, and accepts exactly when the count of groups is at most [NGRPS] and
    the lengths fit into that of the credential as unsigned numbers; time, user,
    group, name and groups are then those of the bytes.  A negative count can
    fit: what it leaves in [aup_len] is then a number near [2 ^ 32]. *)
Theorem svcauth_unix_outcomes `{Heap} (a : area) (verf cred : opaque_auth) b : oa_base cred = Some b ->
  zlen b = MAX_AUTH_BYTES -> zlen (area_machname a) = MAX_MACHINE_NAME -> zlen (area_gids a) = NGRPS ->
  let s := word_at b 4 in let g := word_at b (8 + RNDUP s + 8) in
  if (0 <=? s) && (s <? MAX_MACHINE_NAME)
  then exists a' verf', _svcauth_unix a verf cred = Ok (a', verf', unix_stat (oa_length cred) s g) /\
    (unix_stat (oa_length cred) s g = AUTH_OK -> a' = unix_area b s g a /\ oa_flavor verf' = AUTH_NULL /\ oa_length verf' = 0)
  else _svcauth_unix a verf cred = Fault.
Proof. apply svcauth_cases. Qed.

Definition sample_area : area := Area 0 0 0 0 (replicate 255 0) (replicate 8 0).

(** A credential of user 5 that claims minus five groups. *)
Definition negative_cred : list Z := words [7; 4] ++ [104; 111; 115; 116] ++ words [5; 5; -5] ++ replicate 376 0.

Lemma svcauth_unix_outcomes_witness : exists a' verf',
  _svcauth_unix (H := sample_heap) sample_area null_auth (OpaqueAuth AUTH_UNIX (Some negative_cred) 24) = Ok (a', verf', AUTH_OK) /\
  area_uid a' = 5 /\ area_len a' = 2 ^ 32 - 5.
Proof.
  destruct (svcauth_unix_outcomes (H := sample_heap) sample_area null_auth (OpaqueAuth AUTH_UNIX (Some negative_cred) 24) negative_cred)
    as (a' & verf' & E & Ha); [done..|].
  exists a', verf'. split; [exact E|]. destruct Ha as [-> _]; [done|]. split; vm_compute; reflexivity.
Defined.

(** ** From the process to the server *)

Lemma scan_groups_ok stop groups n : (n <= length groups)%nat -> exists k, scan_groups stop groups n = Ok k /\ 0 <= k <= Z.of_nat n.
Proof.
  induction n as [|n IH]; intros Hn; cbn [scan_groups]; [by exists 0|].
  destruct (aget_range groups (Z.of_nat n)) as [g ->]; [lia|]. cbn [obind]. destruct (stop g); [exists (Z.of_nat (S n)); split; [done|lia]|].
  destruct IH as (k & E & Hk); [lia|]. exists k. split; [done|lia].
Qed.

(** The groups that are sent: up to the last of the first [NGRPS] that is not zero. *)
Definition sent_count (u : sender) : Z :=
  match scan_groups (fun g => nz g) (u_groups u) (Z.to_nat NGRPS) with Ok n => n | _ => 0 end.
Definition sent_groups (u : sender) : list Z := take (Z.to_nat (sent_count u)) (u_groups u).

Definition u_short (v : Z) : Prop := 0 <= v < 2 ^ 16.

Record sender_ok (u : sender) (name : list Z) : Prop := {
  so_name : exists c, hostname u = name ++ c;
  so_len : hostnamelen u = zlen name;
  so_max : zlen name < MAX_MACHINE_NAME;
  so_uid : u_short (u_uid u);
  so_gid : u_short (u_gid u);
  so_groups : Forall u_short (u_groups u);
  so_ngroups : NGRPS <= zlen (u_groups u)
}.

Lemma sent_count_ok u name : sender_ok u name ->
  scan_groups (fun g => nz g) (u_groups u) (Z.to_nat NGRPS) = Ok (sent_count u) /\ 0 <= sent_count u <= NGRPS /\
  zlen (sent_groups u) = sent_count u.
Proof.
  intros Hu. pose proof (so_ngroups _ _ Hu). unfold NGRPS, zlen in *.
  destruct (scan_groups_ok (fun g => nz g) (u_groups u) (Z.to_nat 8)) as (k & E & Hk); [lia|].
  assert (Ek : sent_count u = k) by (unfold sent_count, NGRPS; by rewrite E). rewrite Ek. split; [done|]. split; [lia|].
  unfold sent_groups. rewrite Ek, length_take. lia.
Qed.

(** The bytes of the credential; [pad] is what was in the memory behind the name. *)
Definition cred_bytes (u : sender) (name pad : list Z) : list Z :=
  words [time_sec u; hostnamelen u] ++ name ++ pad ++ words ([u_uid u; u_gid u; sent_count u] ++ sent_groups u).

Lemma roundup4_RNDUP n : roundup4 n = RNDUP n.
Proof. unfold roundup4, RNDUP, BYTES_PER_XDR_UNIT. by replace (n + 4 - 1) with (n + 3) by lia. Qed.

Section Fast.
Context {S : Type} {ops : XdrOps S} {str : XdrStream S} {hp : Heap}.

Lemma authkern_fast_ok op s p d w r u name credsize : sender_ok u name -> window s p d w r ->
  credsize = 20 + RNDUP (zlen name) + 4 * sent_count u -> zlen w = 16 + credsize ->
  exists s' pad, authkern_fast (Xdr op s) p (sent_count u) credsize u = Ok (Xdr op s', true) /\ zlen pad = rndup (zlen name) /\
    window s' p d (words [AUTH_UNIX; credsize] ++ cred_bytes u name pad ++ words [AUTH_NULL; 0]) r.
Proof.
  intros Hu Hw Hc Hl. destruct (sent_count_ok u name Hu) as (_ & Hk & Hg). pose proof Hu as [[c Hn] Hnl Hmax _ _ _ Hng].
  pose proof (zlen_nonneg name). pose proof (rndup_spec (zlen name)) as [Hp _]. rewrite RNDUP_rndup in Hc by done.
  unfold authkern_fast. change (zlen (@nil Z)) with 0.
  destruct (ixdr_puts_at op p d r [AUTH_UNIX; credsize; time_sec u; hostnamelen u] s [] w Hw) as (s1 & t1 & E1 & W1 & L1);
    [change (zlen [_; _; _; _]) with 4; lia|].
  change (zlen (@nil Z)) with 0 in E1. rewrite Z.add_0_r in E1. rewrite E1. cbn [obind app] in W1 |- *. clear E1.
  change (zlen [_; _; _; _]) with 4 in L1. set (h := words [_; _; _; _]) in *.
  rewrite Hn, Hnl. pose proof (bytes_at_ok [] name c) as En. cbn [app] in En. change (zlen (@nil Z)) with 0 in En. rewrite En. cbn [obind].
  destruct (zlen_split t1 (zlen name)) as (b & t2 & -> & Hb); [lia|]. rewrite zlen_app in L1.
  destruct (window_store _ _ _ _ _ _ _ name W1 (eq_sym Hb)) as (s2 & E2 & W2). cbn [x_str]. change (zlen h) with 16 in *. rewrite E2. cbn [obind].
  assert (Eg : bytes_at (u_groups u) 0 (sent_count u) = Ok (sent_groups u)).
  { unfold bytes_at, NGRPS in *. rewrite (proj2 (Z.ltb_ge (sent_count u) 0)), (proj2 (Z.ltb_ge (zlen (u_groups u)) _)) by lia. done. }
  rewrite Eg. cbn [obind]. destruct (zlen_split t2 (rndup (zlen name))) as (pad & t3 & -> & Hpad); [lia|]. rewrite zlen_app in L1.
  rewrite !app_assoc in W2. rewrite <- (app_assoc h) in W2.
  set (l := [u_uid u; u_gid u; sent_count u] ++ sent_groups u ++ [AUTH_NULL; 0]).
  assert (Hll : zlen l = 5 + sent_count u). { unfold l. rewrite !zlen_app, Hg. change (zlen [_; _; _]) with 3. change (zlen [_; _]) with 2. lia. }
  destruct (ixdr_puts_at op p d r l s2 _ t3 W2) as (s3 & t4 & E3 & W3 & L3); [rewrite Hll; lia|].
  rewrite !zlen_app in E3. change (zlen h) with 16 in E3. change (set_field x_str s2 (Xdr op s1)) with (Xdr op s2).
  rewrite roundup4_RNDUP, RNDUP_rndup by done. rewrite Hpad in E3. replace (p + 16 + (zlen name + rndup (zlen name))) with (p + (16 + (zlen name + rndup (zlen name)))) by lia.
  change (u_uid u :: u_gid u :: sent_count u :: sent_groups u ++ [AUTH_NULL; 0]) with l.
  rewrite E3. cbn [obind fst]. exists s3, pad. split; [done|]. split; [done|].
  assert (t4 = []) as -> by (apply zlen_le_nil; lia). rewrite app_nil_r in W3.
  replace (words [AUTH_UNIX; credsize] ++ cred_bytes u name pad ++ words [AUTH_NULL; 0]) with ((h ++ name ++ pad) ++ words l); [done|].
  unfold h, l, cred_bytes. rewrite Hnl, !words_app. change (words [AUTH_UNIX; credsize; time_sec u; zlen name]) with (words [AUTH_UNIX; credsize] ++ words [time_sec u; zlen name]).
  by rewrite <- !app_assoc.
Qed.
End Fast.

(** What the server finds in such a credential. *)
Lemma word_at_words a l c i v : l !! i = Some v -> word_at (a ++ words l ++ c) (zlen a + 4 * Z.of_nat i) = s32 v.
Proof.
  intros Hi. rewrite <- (take_drop_middle l i v Hi), words_app, words_cons, <- !app_assoc, app_assoc.
  replace (zlen a + 4 * Z.of_nat i) with (zlen (a ++ words (take i l))).
  - rewrite word_at_app by done. apply unword_word.
  - rewrite zlen_app, zlen_words. unfold zlen. rewrite length_take. apply lookup_lt_Some in Hi. lia.
Qed.

Lemma gids_at_words a l k c : Forall u_short k -> gids_at (a ++ words (l ++ k) ++ c) (zlen a + 4 * zlen l) (length k) = k.
Proof.
  intros Hk. apply list_eq. intros i. unfold gids_at. rewrite list_lookup_fmap. destruct (decide (i < length k)%nat) as [Hi|Hi].
  - rewrite lookup_seq_lt by done. cbn. destruct (lookup_lt_is_Some_2 k i Hi) as [v Hv]. rewrite Hv. f_equal.
    replace (zlen a + 4 * zlen l + 4 * Z.of_nat i) with (zlen a + 4 * Z.of_nat (length l + i)) by (unfold zlen; lia).
    rewrite (word_at_words a (l ++ k) c _ v) by (by rewrite lookup_app_r, Nat.add_sub' by lia).
    rewrite Forall_lookup in Hk. specialize (Hk i v Hv). unfold u_short, u16, s32 in *. rewrite Z.mod_small by lia. rewrite Z.mod_small; lia.
  - rewrite lookup_seq_ge by lia. cbn. symmetry. apply lookup_ge_None. lia.
Qed.

(** The area that shows the sender. *)
Definition sender_area (u : sender) (name : list Z) (a : area) : area :=
  Area (u32 (time_sec u)) (u_uid u) (u_gid u) (sent_count u) (name ++ 0 :: drop (length name + 1) (area_machname a))
    (sent_groups u ++ drop (length (sent_groups u)) (area_gids a)).

Lemma cred_area u name pad junk a : sender_ok u name -> zlen pad = rndup (zlen name) ->
  let b := cred_bytes u name pad ++ junk in
  word_at b 4 = zlen name /\ word_at b (8 + RNDUP (zlen name) + 8) = sent_count u /\
  unix_area b (zlen name) (sent_count u) a = sender_area u name a.
Proof.
  intros Hu Hpad b. destruct (sent_count_ok u name Hu) as (_ & Hk & Hg). destruct Hu as [_ Hnl Hmax Huid Hgid Hgr Hng].
  unfold MAX_MACHINE_NAME, NGRPS in *. pose proof (zlen_nonneg name). pose proof (rndup_spec (zlen name)) as [Hp _].
  rewrite RNDUP_rndup by done.
  assert (Eb : b = [] ++ words [time_sec u; zlen name] ++ (name ++ pad ++ words ([u_uid u; u_gid u; sent_count u] ++ sent_groups u) ++ junk)).
  { unfold b, cred_bytes. rewrite Hnl. by rewrite <- !app_assoc. }
  set (h := words [time_sec u; zlen name] ++ name ++ pad).
  assert (Eb' : b = h ++ words ([u_uid u; u_gid u; sent_count u] ++ sent_groups u) ++ junk).
  { unfold b, cred_bytes, h. rewrite Hnl. by rewrite <- !app_assoc. }
  assert (Hh : zlen h = 8 + (zlen name + rndup (zlen name))). { unfold h. rewrite !zlen_app, Hpad, zlen_words. change (zlen [_; _]) with 2. lia. }
  assert (W : forall i v, ([u_uid u; u_gid u; sent_count u] ++ sent_groups u) !! i = Some v -> word_at b (zlen h + 4 * Z.of_nat i) = s32 v).
  { intros i v Hi. rewrite Eb'. by apply word_at_words. }
  assert (W0 : word_at b 0 = s32 (time_sec u)). { rewrite Eb. exact (word_at_words [] [time_sec u; zlen name] _ 0 _ eq_refl). }
  assert (W1 : word_at b 4 = zlen name). { rewrite Eb. rewrite (word_at_words [] [time_sec u; zlen name] _ 1 _ eq_refl). apply s32_small. lia. }
  pose proof (W 0%nat _ eq_refl) as Wu. pose proof (W 1%nat _ eq_refl) as Wg. pose proof (W 2%nat _ eq_refl) as Wc.
  rewrite Hh in Wu, Wg, Wc. unfold u_short in *. rewrite s32_small in Wu, Wg, Wc by lia.
  replace (8 + (zlen name + rndup (zlen name)) + 4 * Z.of_nat 0) with (8 + (zlen name + rndup (zlen name))) in Wu by lia.
  replace (8 + (zlen name + rndup (zlen name)) + 4 * Z.of_nat 1) with (8 + (zlen name + rndup (zlen name)) + 4) in Wg by lia.
  replace (8 + (zlen name + rndup (zlen name)) + 4 * Z.of_nat 2) with (8 + (zlen name + rndup (zlen name)) + 8) in Wc by lia.
  split; [done|]. split; [done|]. unfold unix_area, sender_area. rewrite RNDUP_rndup, W0, Wu, Wg, u32_s32 by done.
  assert (Elen : Z.to_nat (sent_count u) = length (sent_groups u)) by (rewrite <- Hg; unfold zlen; lia).
  f_equal.
  - unfold u16. by rewrite Z.mod_small.
  - unfold u16. by rewrite Z.mod_small.
  - apply u32_small. lia.
  - replace (Z.to_nat (zlen name + 1)) with (length name + 1)%nat by (unfold zlen; lia). f_equal.
    rewrite Eb, app_nil_l. change 8%nat with (Z.to_nat 8). rewrite drop_zlen by done. by apply take_zlen.
  - rewrite Elen. f_equal. rewrite Eb'. replace (8 + (zlen name + rndup (zlen name)) + 12) with (zlen h + 4 * zlen [u_uid u; u_gid u; sent_count u])
      by (rewrite Hh; change (zlen [_; _; _]) with 3; lia).
    apply gids_at_words. unfold sent_groups. by apply Forall_take.
Qed.

Definition cred_size (u : sender) : Z := 20 + RNDUP (hostnamelen u) + 4 * sent_count u.

Lemma zlen_cred_bytes u name pad : sender_ok u name -> zlen pad = rndup (zlen name) -> zlen (cred_bytes u name pad) = cred_size u.
Proof.
  intros Hu Hp. destruct (sent_count_ok u name Hu) as (_ & _ & Hg). unfold cred_bytes, cred_size. rewrite (so_len _ _ Hu).
  rewrite !zlen_app, !zlen_words, zlen_app, Hg, Hp, RNDUP_rndup by apply zlen_nonneg.
  change (zlen [_; _]) with 2. change (zlen [_; _; _]) with 3. lia.
Qed.

(** C34: the server knows the user.  The credential that the kernel of a client
    writes for a process, in line into a stream of whatever kind, stands there
    with its flavor, its length and a null verifier; and [_svcauth_unix] accepts
    its bytes in any memory of [MAX_AUTH_BYTES], and finds in them the user, the
    group, the time, the name, and of the first [NGRPS] groups of the process (it has 16)
    those up to the last that is not zero. *)
Theorem authkern_authenticates {S} {ops : XdrOps S} {str : XdrStream S} {hp : Heap} u name (s s1 : S) d r p a verf :
  sender_ok u name -> zlen (area_machname a) = MAX_MACHINE_NAME -> zlen (area_gids a) = NGRPS -> stands s d r ->
  x_inline s (16 + cred_size u) = (s1, Some p) ->
  exists s' l r', authkern_marshal (Xdr XDR_ENCODE s) u = Ok (Xdr XDR_ENCODE s', true) /\
    stands s' (d ++ words [AUTH_UNIX; zlen l] ++ l ++ words [AUTH_NULL; 0]) r' /\ zlen l = cred_size u /\
    forall junk, zlen (l ++ junk) = MAX_AUTH_BYTES ->
      exists verf', _svcauth_unix a verf (OpaqueAuth AUTH_UNIX (Some (l ++ junk)) (zlen l)) = Ok (sender_area u name a, verf', AUTH_OK).
Proof.
  intros Hu Hm Hg Hs Hin. destruct (sent_count_ok u name Hu) as (Esc & Hk & _). pose proof (so_max _ _ Hu) as Hmax.
  pose proof (zlen_nonneg name) as Hn0. pose proof (rndup_spec (zlen name)) as [Hp _]. unfold MAX_MACHINE_NAME, NGRPS in *.
  assert (Hsz : cred_size u = 20 + (zlen name + rndup (zlen name)) + 4 * sent_count u)
    by (unfold cred_size; rewrite (so_len _ _ Hu), RNDUP_rndup by done; lia).
  destruct (inline_spec s d r (16 + cred_size u) Hs ltac:(lia)) as [E|(s2 & q & w & r' & -> & Hw & E & W)]; rewrite E in Hin; [done|].
  injection Hin as -> ->.
  destruct (authkern_fast_ok XDR_ENCODE s1 p d w r' u name (cred_size u) Hu W) as (s' & pad & E' & Hpad & W').
  { rewrite Hsz, RNDUP_rndup by done. lia. } { lia. }
  exists s', (cred_bytes u name pad), r'. rewrite (zlen_cred_bytes u name pad Hu Hpad).
  split; [|split; [by apply window_stands in W'|split; [done|]]].
  - unfold authkern_marshal. unfold NGRPS. rewrite Esc. cbn [obind]. unfold XDR_INLINE. cbn [x_str].
    assert (Ec : 4 + 4 + roundup4 (hostnamelen u) + 4 + 4 + 4 + sent_count u * 4 = cred_size u) by (rewrite roundup4_RNDUP; unfold cred_size; lia).
    rewrite Ec. replace (4 + 4 + cred_size u + 4 + 4) with (16 + cred_size u) by lia. rewrite E. exact E'.
  - intros junk Hj. destruct (cred_area u name pad junk a Hu Hpad) as (W1 & W2 & Ea).
    pose proof (svcauth_cases a verf (OpaqueAuth AUTH_UNIX (Some (cred_bytes u name pad ++ junk)) (cred_size u)) _ eq_refl Hj Hm Hg) as H1.
    cbv zeta in H1. rewrite W1, W2, Ea in H1. rewrite (proj2 (Z.leb_le 0 _)), (proj2 (Z.ltb_lt _ MAX_MACHINE_NAME)) in H1 by done.
    cbn [andb] in H1. destruct H1 as (a' & verf' & E1 & H1).
    assert (Est : unix_stat (cred_size u) (zlen name) (sent_count u) = AUTH_OK).
    { unfold unix_stat, NGRPS, BYTES_PER_XDR_UNIT. rewrite (proj2 (Z.ltb_ge 8 _)) by lia. rewrite RNDUP_rndup by done.
      rewrite u32_small by lia. by rewrite (proj2 (Z.ltb_ge _ _)) by lia. }
    cbn [oa_length] in E1, H1. rewrite Est in E1, H1. destruct (H1 eq_refl) as [-> _]. by exists verf'.
Qed.

Definition sample_sender : sender := Sender 7 [104; 111; 115; 116; 0] 4 5 20 [20; 30; 0; 40; 0; 0; 0; 0; 0; 0; 0; 0; 0; 0; 0; 0].

Lemma authkern_authenticates_witness : exists s' l,
  authkern_marshal (H0 := sample_heap) (xdrmem_create (replicate 60 0) 60 XDR_ENCODE) sample_sender = Ok (Xdr XDR_ENCODE s', true) /\
  exists verf', _svcauth_unix (H := sample_heap) sample_area null_auth (OpaqueAuth AUTH_UNIX (Some (l ++ replicate 360 0)) (zlen l)) =
    Ok (sender_area sample_sender [104; 111; 115; 116] sample_area, verf', AUTH_OK).
Proof.
  destruct (authkern_authenticates (hp := sample_heap) sample_sender [104; 111; 115; 116] (x_str (xdrmem_create (replicate 60 0) 60 XDR_ENCODE))
    (x_str (fst (XDR_INLINE (xdrmem_create (replicate 60 0) 60 XDR_ENCODE) 56))) [] (replicate 60 0) 0 sample_area null_auth) as (s' & l & r' & E & S' & Hl & H);
    [|done|done|exact (xdrmem_create_stands (replicate 60 0) 60 XDR_ENCODE ltac:(done) ltac:(done))|reflexivity|].
  { split; try done; [by exists [0]|repeat constructor; done]. }
  exists s', l. split; [exact E|]. apply H. rewrite zlen_app, Hl. reflexivity.
Defined.
