(* ===== verification/RpcSvc.v ===== *)
(** * The server side of RPC: [sys/rpc/svc.c], [svc.h], as it is in the kernel

    A transport is the operations that [struct xp_ops] holds; the server uses
    nothing else of it.  The list of services is the list of its nodes; the
    address of a dispatch routine is a number, what the routine does is a
    parameter over a state of its own. *)
From S2P Require Import Prelude Mbuf In Xdr XdrSpec XdrMem RpcMsg RpcCall RpcAuth.

Inductive xprt_stat := XPRT_DIED | XPRT_MOREREQS | XPRT_IDLE.

(** ** Transports *)

Class Transport (S X : Type) `{XdrOps S} := {
  SVC_RECV : X -> rpc_msg unit -> outcome (X * rpc_msg unit * bool);
  SVC_STAT : X -> outcome (X * xprt_stat);
  SVC_GETARGS : forall A, X -> xdrproc S A -> A -> outcome (X * A * bool);
  SVC_REPLY : forall R, X -> xdrproc S R -> rpc_msg R -> outcome (X * bool);
  SVC_FREEARGS : forall A, X -> xdrproc S A -> option A -> outcome (X * bool);
  SVC_DESTROY : X -> X;
  (** The member that the server keeps the verifier of the reply in. *)
  xp_verf : X -> opaque_auth;
  set_xp_verf : X -> opaque_auth -> X
}.
Arguments SVC_GETARGS {S X _ _ A}.
Arguments SVC_REPLY {S X _ _ R}.
Arguments SVC_FREEARGS {S X _ _ A}.

(** ** The list of services *)

Record svc_callout := SvcCallout { sc_prog : Z; sc_vers : Z; sc_dispatch : Z }.

(** The nodes before the one that is found, the node and those behind it. *)
Fixpoint svc_find (svc_head : list svc_callout) (prog vers : Z) : list svc_callout * option (svc_callout * list svc_callout) :=
  match svc_head with
  | [] => ([], None)
  | s :: next =>
      if (sc_prog s =? prog) && (sc_vers s =? vers) then ([], Some (s, next))
      else let r := svc_find next prog vers in (s :: r.1, r.2)
  end.

Definition svc_register (svc_head : list svc_callout) (prog vers dispatch : Z) : list svc_callout * bool :=
  match (svc_find svc_head prog vers).2 with
  | Some (s, _) => (svc_head, sc_dispatch s =? dispatch)
  | None => (SvcCallout prog vers dispatch :: svc_head, true)
  end.

Definition svc_unregister (svc_head : list svc_callout) (prog vers : Z) : list svc_callout :=
  match svc_find svc_head prog vers with
  | (prev, Some (_, next)) => prev ++ next
  | (_, None) => svc_head
  end.

(** ** Replies *)

Section Server.
Context {S X : Type} `{Transport S X}.

(** A reply that is an accepted one, and one that is a denial. *)
Definition reply_accepted {R} (verf : opaque_auth) (stat : Z) (vers : versions) (where_ : R) : rpc_msg R :=
  RpcMsg R 0 REPLY (CallBody 0 0 0 0 (OpaqueAuth 0 None 0) (OpaqueAuth 0 None 0))
    (ReplyBody R MSG_ACCEPTED (ReplyUnion R (AcceptedReply R verf stat vers where_) (RejectedReply 0 (Versions 0 0) 0))).
Definition reply_denied (why : Z) : rpc_msg unit :=
  RpcMsg unit 0 REPLY (CallBody 0 0 0 0 (OpaqueAuth 0 None 0) (OpaqueAuth 0 None 0))
    (ReplyBody unit MSG_DENIED (ReplyUnion unit (AcceptedReply unit (OpaqueAuth 0 None 0) 0 (Versions 0 0) tt)
      (RejectedReply AUTH_ERROR (Versions 0 0) why))).

Definition svc_sendreply {R} (xprt : X) (xdr_results : xdrproc S R) (xdr_location : R) : outcome (X * bool) :=
  SVC_REPLY xprt xdr_results (reply_accepted (xp_verf xprt) SUCCESS (Versions 0 0) xdr_location).

(** The replies without results; what is left of the call is not used. *)
Definition svc_error (xprt : X) (rply : rpc_msg unit) : outcome X :=
  let* r := SVC_REPLY xprt xdr_void rply in Ok r.1.

Definition svcerr_noproc (xprt : X) : outcome X :=
  svc_error xprt (reply_accepted (xp_verf xprt) PROC_UNAVAIL (Versions 0 0) tt).
Definition svcerr_decode (xprt : X) : outcome X :=
  svc_error xprt (reply_accepted (xp_verf xprt) GARBAGE_ARGS (Versions 0 0) tt).
Definition svcerr_systemerr (xprt : X) : outcome X :=
  svc_error xprt (reply_accepted (xp_verf xprt) SYSTEM_ERR (Versions 0 0) tt).
Definition svcerr_auth (xprt : X) (why : Z) : outcome X := svc_error xprt (reply_denied why).
Definition svcerr_weakauth (xprt : X) : outcome X := svcerr_auth xprt AUTH_TOOWEAK.
Definition svcerr_noprog (xprt : X) : outcome X :=
  svc_error xprt (reply_accepted (xp_verf xprt) PROG_UNAVAIL (Versions 0 0) tt).
Definition svcerr_progvers (xprt : X) (low_vers high_vers : Z) : outcome X :=
  svc_error xprt (reply_accepted (xp_verf xprt) PROG_MISMATCH (Versions low_vers high_vers) tt).

(** ** [svc_getreq] *)

(** [rq_clntcred] is an area for credentials, [rq_xprt] is the transport that
    goes with the request. *)
Record svc_req := SvcReq { rq_prog : Z; rq_vers : Z; rq_proc : Z; rq_cred : opaque_auth; rq_clntcred : area }.

Context {D : Type} (dispatch : Z -> svc_req -> X -> D -> outcome (X * D)) `{Heap}.

(** The loop over the services: the dispatch routine, or whether the program is
    there at all, and the lowest and the highest of its versions. *)
Fixpoint svc_search (l : list svc_callout) (prog vers : Z) (prog_found : bool) (low_vers high_vers : Z) : Z + (bool * Z * Z) :=
  match l with
  | [] => inr (prog_found, low_vers, high_vers)
  | s :: l =>
      if sc_prog s =? prog then
        if sc_vers s =? vers then inl (sc_dispatch s)
        else svc_search l prog vers true (if sc_vers s <? low_vers then sc_vers s else low_vers)
               (if high_vers <? sc_vers s then sc_vers s else high_vers)
      else svc_search l prog vers prog_found low_vers high_vers
  end.

(** A call that has been received. *)
Definition svc_call (svc_head : list svc_callout) (xprt : X) (msg : rpc_msg unit) (a : area) (d : D) : outcome (X * area * D) :=
  let c := rm_call msg in
  let* r := _authenticate a (xp_verf xprt) (cb_cred c) in
  let '(a, verf, why) := r in
  let xprt := set_xp_verf xprt verf in
  if negb (why =? AUTH_OK) then let* xprt := svcerr_auth xprt why in Ok (xprt, a, d) else
  match svc_search svc_head (cb_prog c) (cb_vers c) false (u32 (-1)) 0 with
  | inl f =>
      let* r := dispatch f (SvcReq (cb_prog c) (cb_vers c) (cb_proc c) (cb_cred c) a) xprt d in Ok (r.1, a, r.2)
  | inr (true, low_vers, high_vers) => let* xprt := svcerr_progvers xprt low_vers high_vers in Ok (xprt, a, d)
  | inr (false, _, _) => let* xprt := svcerr_noprog xprt in Ok (xprt, a, d)
  end.

(** The loop for batched calls; [fuel] calls at most.  The memory for the
    credentials is that of [msg] and the area [a]. *)
Fixpoint svc_getreq (fuel : nat) (svc_head : list svc_callout) (xprt : X) (msg : rpc_msg unit) (a : area) (d : D)
    : outcome (X * area * D) :=
  match fuel with
  | O => Fault
  | Datatypes.S fuel =>
      let* r := SVC_RECV xprt msg in
      let '(xprt, msg, ok) := r in
      let* r := if ok then svc_call svc_head xprt msg a d else Ok (xprt, a, d) in
      let '(xprt, a, d) := r in
      let* r := SVC_STAT xprt in
      match r.2 with
      | XPRT_DIED => Ok (SVC_DESTROY r.1, a, d)
      | XPRT_MOREREQS => svc_getreq fuel svc_head r.1 msg a d
      | XPRT_IDLE => Ok (r.1, a, d)
      end
  end.
End Server.

(** ** The list of services is a map *)

Definition callout_key (s : svc_callout) : Z * Z := (sc_prog s, sc_vers s).
Definition services (l : list svc_callout) : gmap (Z * Z) Z := list_to_map ((fun s => (callout_key s, sc_dispatch s)) <$> l).
(** No service is there twice. *)
Definition services_ok (l : list svc_callout) : Prop := NoDup (callout_key <$> l).

Lemma services_cons s l : services (s :: l) = <[callout_key s := sc_dispatch s]> (services l).
Proof. done. Qed.

Lemma services_none l prog vers : services l !! (prog, vers) = None <-> (prog, vers) ∉ callout_key <$> l.
Proof.
  unfold services. rewrite <- not_elem_of_list_to_map. rewrite <- list_fmap_compose.
  replace (fst ∘ (fun s => (callout_key s, sc_dispatch s))) with callout_key by done. done.
Qed.

Lemma callout_match s prog vers : ((sc_prog s =? prog) && (sc_vers s =? vers))%bool = bool_decide (callout_key s = (prog, vers)).
Proof.
  unfold callout_key. destruct (Z.eqb_spec (sc_prog s) prog), (Z.eqb_spec (sc_vers s) vers); cbn [andb]; symmetry;
    first [apply bool_decide_eq_true; congruence|apply bool_decide_eq_false; congruence].
Qed.

Lemma svc_find_spec l prog vers : services_ok l ->
  match svc_find l prog vers with
  | (prev, Some (s, next)) => l = prev ++ s :: next /\ callout_key s = (prog, vers) /\ services l !! (prog, vers) = Some (sc_dispatch s) /\
      services (prev ++ next) = delete (prog, vers) (services l) /\ services_ok (prev ++ next)
  | (_, None) => services l !! (prog, vers) = None
  end.
Proof.
  unfold services_ok. induction l as [|s l IH]; intros Hn; cbn [svc_find]; [done|]. rewrite callout_match.
  cbn in Hn. apply NoDup_cons in Hn as [Hs Hn]. destruct (bool_decide_reflect (callout_key s = (prog, vers))) as [E|E].
  - rewrite <- E. split; [done|]. split; [done|]. rewrite services_cons, lookup_insert_eq. split; [done|]. cbn [app]. split; [|done].
    rewrite delete_insert_id; [done|]. rewrite E. apply services_none. by rewrite <- E.
  - specialize (IH Hn). destruct (svc_find l prog vers) as [prev [[t next]|]]; cbn [fst snd].
    + destruct IH as (-> & Et & Hl & Hd & Hok). split; [done|]. split; [done|]. rewrite services_cons, lookup_insert_ne by done.
      split; [done|]. cbn [app]. rewrite services_cons, Hd, delete_insert_ne by done. split; [done|].
      cbn. apply NoDup_cons. split; [|done]. intros Hin. apply Hs. rewrite fmap_app in Hin |- *. cbn. rewrite elem_of_app, elem_of_cons in *. tauto.
    + by rewrite services_cons, lookup_insert_ne.
Qed.

(** The versions of a program. *)
Definition has_version (l : list svc_callout) (prog vers : Z) : Prop := is_Some (services l !! (prog, vers)).

Lemma has_version_cons s l prog vers : callout_key s ∉ callout_key <$> l ->
  has_version (s :: l) prog vers <-> callout_key s = (prog, vers) \/ has_version l prog vers.
Proof.
  intros Hs. unfold has_version. rewrite services_cons. destruct (decide (callout_key s = (prog, vers))) as [E|E].
  - rewrite E, lookup_insert_eq. split; [by left|eauto].
  - rewrite lookup_insert_ne by done. split; [by right|by intros [?|?]].
Qed.

(** The loop of [svc_getreq] keeps the lowest and the highest version so far. *)
Lemma svc_search_spec l prog vers : services_ok l -> forall found low high,
  match svc_search l prog vers found low high with
  | inl f => services l !! (prog, vers) = Some f
  | inr (found', low', high') => services l !! (prog, vers) = None /\
      (found' = true <-> found = true \/ exists v, has_version l prog v) /\
      (low' = low \/ has_version l prog low') /\ (high' = high \/ has_version l prog high') /\
      low' <= low /\ high <= high' /\ forall v, has_version l prog v -> low' <= v <= high'
  end.
Proof.
  unfold services_ok. induction l as [|s l IH]; intros Hn found low high; cbn [svc_search].
  { split; [done|]. split; [split; [by left|intros [?|[v [? ?]]]; done]|]. split; [by left|]. split; [by left|].
    split; [lia|]. split; [lia|]. intros v [? ?]. done. }
  cbn in Hn. apply NoDup_cons in Hn as [Hs Hn]. pose proof (has_version_cons s l prog) as Hv.
  destruct (Z.eqb_spec (sc_prog s) prog) as [Ep|Ep].
  - destruct (Z.eqb_spec (sc_vers s) vers) as [Ev|Ev].
    + rewrite services_cons. unfold callout_key. rewrite Ep, Ev. apply lookup_insert_eq.
    + set (low1 := if sc_vers s <? low then _ else _). set (high1 := if high <? sc_vers s then _ else _). specialize (IH Hn true low1 high1).
      assert (Hlow : low1 <= low /\ low1 <= sc_vers s /\ (low1 = low \/ low1 = sc_vers s)) by (unfold low1; destruct (Z.ltb_spec (sc_vers s) low); lia).
      assert (Hhigh : high <= high1 /\ sc_vers s <= high1 /\ (high1 = high \/ high1 = sc_vers s)) by (unfold high1; destruct (Z.ltb_spec high (sc_vers s)); lia).
      assert (Hkey : has_version (s :: l) prog (sc_vers s)) by (apply Hv; [done|left; unfold callout_key; by rewrite Ep]).
      destruct (svc_search l prog vers true low1 high1) as [f|[[found' low'] high']].
      * rewrite services_cons, lookup_insert_ne; [done|]. unfold callout_key. congruence.
      * destruct IH as (H1 & H2 & H3 & H4 & H5 & H6 & H7).
        rewrite services_cons, lookup_insert_ne by (unfold callout_key; congruence). split; [done|].
        split; [split; [eauto|intros _; by apply H2; left]|].
        split; [destruct H3 as [->|H3]; [destruct Hlow as (_ & _ & [->| ->]); [by left|by right]|right; apply Hv; [done|by right]]|].
        split; [destruct H4 as [->|H4]; [destruct Hhigh as (_ & _ & [->| ->]); [by left|by right]|right; apply Hv; [done|by right]]|].
        split; [lia|]. split; [lia|]. intros v [E|H]%Hv; [|by apply H7|done]. unfold callout_key in E. injection E as _ <-. lia.
  - specialize (IH Hn found low high).
    assert (Hne : callout_key s <> (prog, vers)) by (unfold callout_key; congruence).
    assert (Hsame : forall v, has_version (s :: l) prog v <-> has_version l prog v).
    { intros v. rewrite Hv by done. split; [|by right]. intros [E|?]; [|done]. unfold callout_key in E. congruence. }
    destruct (svc_search l prog vers found low high) as [f|[[found' low'] high']]; rewrite services_cons, lookup_insert_ne by done; [done|].
    destruct IH as (H1 & H2 & H3 & H4 & H5 & H6 & H7). split; [done|].
    split; [rewrite H2; split; (intros [?|[v Hx]]; [by left|right; exists v; by apply Hsame])|].
    split; [destruct H3; [by left|right; by apply Hsame]|]. split; [destruct H4; [by left|right; by apply Hsame]|].
    split; [done|]. split; [done|]. intros v Hx%Hsame. by apply H7.
Qed.

(** C35: the list of services keeps the promise of a map from programs and
    versions to dispatch routines.  Registering puts a service in exactly when
    none or the same is there; unregistering takes out that one and no other; and
    the search of [svc_getreq] finds the routine of the map, or else tells whether
    any version of the program is there and which are the lowest and the highest,
    which is what goes into the reply. *)
Theorem svc_list_refines_map l prog vers f : services_ok l -> (forall p v, has_version l p v -> 0 <= v < 2 ^ 32) ->
  let '(l', ok) := svc_register l prog vers f in
  services_ok l' /\ (ok = true <-> services l !! (prog, vers) = None \/ services l !! (prog, vers) = Some f) /\
  services l' = (if ok then <[(prog, vers) := f]> (services l) else services l) /\
  services_ok (svc_unregister l prog vers) /\ services (svc_unregister l prog vers) = delete (prog, vers) (services l) /\
  match svc_search l prog vers false (u32 (-1)) 0 with
  | inl g => services l !! (prog, vers) = Some g
  | inr (found, low, high) => services l !! (prog, vers) = None /\
      if found then has_version l prog low /\ has_version l prog high /\ forall v, has_version l prog v -> low <= v <= high
      else forall v, ~ has_version l prog v
  end.
Proof.
  intros Hok Hv. pose proof (svc_find_spec l prog vers Hok) as Hf. pose proof (svc_search_spec l prog vers Hok false (u32 (-1)) 0) as Hs.
  assert (Hsearch : match svc_search l prog vers false (u32 (-1)) 0 with
    | inl g => services l !! (prog, vers) = Some g
    | inr (found, low, high) => services l !! (prog, vers) = None /\
        if found then has_version l prog low /\ has_version l prog high /\ forall v, has_version l prog v -> low <= v <= high
        else forall v, ~ has_version l prog v
    end).
  { destruct (svc_search _ _ _ _ _ _) as [g|[[found low] high]]; [done|]. destruct Hs as (H1 & H2 & H3 & H4 & H5 & H6 & H7).
    split; [done|]. destruct found; [|intros v Hx; assert (false = true) by (apply H2; eauto); done].
    destruct H2 as [[?|[v Hx]] _]; [done|done|]. pose proof (H7 v Hx). pose proof (Hv _ _ Hx).
    change (u32 (-1)) with (2 ^ 32 - 1) in *.
    assert (Hlow : low = v \/ has_version l prog low) by (destruct H3 as [->|?]; [left; lia|by right]).
    assert (Hhigh : high = v \/ has_version l prog high) by (destruct H4 as [->|?]; [left; lia|by right]).
    split; [by destruct Hlow as [->|?]|]. split; [by destruct Hhigh as [->|?]|done]. }
  unfold svc_register, svc_unregister. destruct (svc_find l prog vers) as [prev [[s next]|]]; cbn [snd].
  - destruct Hf as (-> & Ek & El & Ed & Hok'). split; [done|]. rewrite El. split.
    { rewrite Z.eqb_eq. split; [intros ->; by right|intros [?|[= ?]]; done]. }
    split; [|split; [exact Hok'|split; [exact Ed|by rewrite <- El]]]. destruct (Z.eqb_spec (sc_dispatch s) f) as [<-|]; [|done]. by rewrite insert_id.
  - rewrite Hf. split; [unfold services_ok; cbn; apply NoDup_cons; split; [by apply services_none|done]|].
    split; [split; [by left|done]|]. split; [done|]. split; [done|]. split; [by rewrite delete_id|]. rewrite Hf in Hsearch. done.
Qed.

(** Two versions of one program, and one of another; a third version is asked for. *)
Definition sample_services : list svc_callout := [SvcCallout 100003 2 1; SvcCallout 100005 1 2; SvcCallout 100003 5 3].

Lemma svc_list_refines_map_witness : svc_search sample_services 100003 3 false (u32 (-1)) 0 = inr (true, 2, 5) /\
  services (svc_unregister sample_services 100003 2) = delete (100003, 2) (services sample_services).
Proof.
  split; [reflexivity|]. refine (proj1 (proj2 (proj2 (proj2 (proj2 (svc_list_refines_map sample_services 100003 2 1 _ _)))))).
  - apply (bool_decide_unpack _). vm_compute. exact I.
  - intros p v [f Hf]. unfold sample_services, services in Hf. cbn in Hf.
    repeat (apply lookup_insert_Some in Hf as [[[= <- <-] _]|[_ Hf]]; [done|]). done.
Defined.
