(* ===== verification/SvcKudp.v ===== *)
(** * The transport over UDP: [sys/rpc/svc_kudp.c], [ku_recvfrom] of [subr_kudp.c]

    Calls are taken from the receive buffer of a socket and replies are left as
    chains for [ku_sendto_mbuf]; what that returns, and whether an allocation
    gives an mbuf, are parameters.  The process never sleeps here: the loops that
    wait for the buffer of replies and for the lock of the socket are left out.
    The cache of requests is in [SvcDup]. *)
From S2P Require Import Prelude Mbuf In Xdr XdrSpec XdrMem XdrMbuf RpcMsg RpcCall RpcAuth RpcSvc NfsXdr.

Definition UDPMSGSIZE : Z := 8800.
Definition UD_BUSY : Z := 0x001.
Definition UD_WANTED : Z := 0x002.

(** [SVCXPRT] and its [struct udp_data]; [xp_raddr] is the bytes of the address,
    [rpc_buffer] the memory replies are written to, [ku_sent] what has been
    given to [ku_sendto_mbuf], with the address. *)
Record svcxprt := Svcxprt {
  xp_sock : sockbuf; xp_raddr : list Z; xprt_verf : opaque_auth; rpc_buffer : list Z; ud_flags : Z; ud_xid : Z;
  ud_inmbuf : option chain; ud_xdrin : XDR xdrmbuf; ud_xdrout : XDR xdrmbuf; ku_sent : list (chain * list Z)
}.
#[export] Instance settable_svcxprt : Settable svcxprt := fun x =>
  Svcxprt (xp_sock x) (xp_raddr x) (xprt_verf x) (rpc_buffer x) (ud_flags x) (ud_xid x) (ud_inmbuf x) (ud_xdrin x)
    (ud_xdrout x) (ku_sent x).

(** The address and the data of the next datagram. *)
Definition ku_recvfrom (so_rcv : sockbuf) (from : list Z) : outcome (sockbuf * list Z * option chain) :=
  match sb_mb so_rcv with
  | [] => Ok (so_rcv, from, None)
  | [] :: _ => Fault
  | (m :: m0) :: act =>
      let* from := bytes_at (m_dat m) 0 16 in
      let sb := set_mb (sbfree so_rcv m) act in
      match m0 with
      | [] => Ok (sb, from, None)
      | _ => Ok (sbfree_chain sb m0, from, Some m0)
      end
  end.

Section Kudp.
Context `{Heap} (got : bool) (ku_sendto_mbuf : chain -> list Z -> Z).

Definition svckudp_recv (xprt : svcxprt) (msg : rpc_msg unit) : outcome (svcxprt * rpc_msg unit * bool) :=
  let* r := ku_recvfrom (xp_sock xprt) (xp_raddr xprt) in
  let '(so_rcv, from, m) := r in
  let xprt := xprt <| xp_sock := so_rcv |> <| xp_raddr := from |> in
  match m with
  | None => Ok (xprt, msg, false)
  | Some [] => Fault
  | Some (m :: next) =>
      if m_len m <? 4 * 4 then Ok (xprt <| ud_inmbuf := None |>, msg, false) else
      let* r := xdr_callmsg (xdrmbuf_init m next XDR_DECODE) msg in
      let '(x, msg, ok) := r in
      let xprt := xprt <| ud_xdrin := x |> in
      if ok then Ok (xprt <| ud_xid := rm_xid msg |> <| ud_inmbuf := Some (m :: next) |>, msg, true)
      else Ok (xprt <| ud_inmbuf := None |>, msg, false)
  end.

Definition buffree (xprt : svcxprt) : svcxprt := xprt <| ud_flags := Z.land (ud_flags xprt) (Z.lnot (Z.lor UD_BUSY UD_WANTED)) |>.

(** The first mbuf of the stream is around [rpc_buffer]: what is written to it
    stays there. *)
Definition keep_buffer (xprt : svcxprt) (m : mbuf) : svcxprt :=
  xprt <| rpc_buffer := m_dat m ++ drop (length (m_dat m)) (rpc_buffer xprt) |>.

Definition svckudp_send {R} (xprt : svcxprt) (results : xdrproc xdrmbuf R) (msg : rpc_msg R) : outcome (svcxprt * bool) :=
  let xprt := xprt <| ud_flags := Z.lor (ud_flags xprt) UD_BUSY |> in
  let* m := mclgetx got (rpc_buffer xprt) UDPMSGSIZE in
  match m with
  | None => Ok (buffree xprt, false)
  | Some m =>
      let msg := msg <| rm_xid := ud_xid xprt |> in
      let* r := xdr_replymsg results (xdrmbuf_init m [] XDR_ENCODE) msg in
      let xprt := xprt <| ud_xdrout := r.1.1 |> in
      let* c := match xdrmbuf_chain (x_str r.1.1) with m :: next => Ok (m, next) | [] => Fault end in
      let xprt := keep_buffer xprt c.1 in
      if negb r.2 then Ok (buffree xprt, false) else
      let* slen := x_getpostn (x_str r.1.1) in
      let c := match c.2 with [] => [m_setlen c.1 slen] | _ => c.1 :: c.2 end in
      let xprt := xprt <| ku_sent := ku_sent xprt ++ [(c, xp_raddr xprt)] |> in
      Ok (buffree xprt, ku_sendto_mbuf c (xp_raddr xprt) =? 0)
  end.

Definition svckudp_stat (xprt : svcxprt) : outcome (svcxprt * xprt_stat) := Ok (xprt, XPRT_IDLE).

Definition svckudp_getargs {A} (xprt : svcxprt) (xdr_args : xdrproc xdrmbuf A) (args : A) : outcome (svcxprt * A * bool) :=
  let* r := xdr_args (ud_xdrin xprt) args in Ok (xprt <| ud_xdrin := r.1.1 |>, r.1.2, r.2).

(** The mbufs of the call are given back before the arguments are. *)
Definition svckudp_freeargs {A} (xprt : svcxprt) (xdr_args : xdrproc xdrmbuf A) (args : option A) : outcome (svcxprt * bool) :=
  let xprt := xprt <| ud_inmbuf := None |> in
  match args with
  | Some args =>
      let* r := xdr_args ((ud_xdrin xprt) <| x_op := XDR_FREE |>) args in Ok (xprt <| ud_xdrin := r.1.1 |>, r.2)
  | None => Ok (xprt, true)
  end.

Definition svckudp_destroy (xprt : svcxprt) : svcxprt := xprt <| ud_inmbuf := None |>.

#[export] Instance svckudp_op : Transport xdrmbuf svcxprt := {
  SVC_RECV := svckudp_recv;
  SVC_STAT := svckudp_stat;
  SVC_GETARGS A := svckudp_getargs;
  SVC_REPLY R := svckudp_send;
  SVC_FREEARGS A := svckudp_freeargs;
  SVC_DESTROY := svckudp_destroy;
  xp_verf := xprt_verf;
  set_xp_verf x v := x <| xprt_verf := v |>
}.
End Kudp.
