(* ===== verification/NfsServer.v ===== *)
(** * The dispatcher of the NFS server: [rfs_dispatch] of [sys/nfs/nfs_server.c]

    A row of the dispatch table has the types of the arguments and the results
    of a procedure with its routines.  What the service routines do to the files
    is a parameter: they take the arguments, the request and the credentials of
    the process to the results, over a state of their own.  The pointer [disp] is
    none until it is assigned; an access through it is then a [Fault]. *)
From S2P Require Import Prelude Mbuf In Xdr XdrSpec XdrMem XdrMbuf RpcMsg RpcCall RpcAuth RpcSvc NfsXdr SvcKudp.

Definition VERSIONMIN : Z := 2.
Definition VERSIONMAX : Z := 2.
Definition RFS_NULL : Z := 0.
Definition RFS_NPROC : Z := 18.
Definition NGROUPS : Z := 16.
Definition NOGROUP : Z := 65535.
Definition IPPORT_RESERVED : Z := 1024.

Record ucred := Ucred { cr_uid : Z; cr_gid : Z; cr_groups : list Z }.

(** [struct svstat]. *)
Record svstats := Svstat { ncalls : Z; nbadcalls : Z; reqs : list Z }.
#[export] Instance settable_svstats : Settable svstats := fun s => Svstat (ncalls s) (nbadcalls s) (reqs s).

Section Rfs.
Context {F : Type} `{Heap} (got : bool) (ku_sendto_mbuf : chain -> list Z -> Z).
#[local] Existing Instance svckudp_op.
#[local] Instance kudp_transport : Transport xdrmbuf svcxprt := svckudp_op got ku_sendto_mbuf.

Record rfsdisp := RfsDisp {
  dis_in : rfsargs xdrmbuf;
  dis_res : Type;
  dis_res0 : dis_res;
  dis_xdrres : xdrproc xdrmbuf dis_res;
  dis_proc : dis_args dis_in -> svc_req -> ucred -> F -> outcome (dis_res * F);
  dis_resfree : dis_res -> F -> F
}.

(** The server: its counters, the files, the credentials of the process, and the
    number of blocks on the list [rfsfreesp]. *)
Record rfs := Rfs { svstat : svstats; rfs_files : F; u_cred : ucred; rfsfreesp : Z }.
#[export] Instance settable_rfs : Settable rfs := fun d => Rfs (svstat d) (rfs_files d) (u_cred d) (rfsfreesp d).

(** A block is taken from the list, or from the heap. *)
Definition rfsget (d : rfs) : rfs := d <| rfsfreesp := Z.max 0 (rfsfreesp d - 1) |>.
Definition rfsput (d : rfs) : rfs := d <| rfsfreesp := rfsfreesp d + 1 |>.

Context (rfsdisptab : list rfsdisp) (nobody nfs_portmon : Z).

(** The credentials for a call, of those the client has sent. *)
Definition newcr (a : area) : outcome ucred :=
  let* gids := bytes_at (area_gids a) 0 (area_len a) in
  let* groups := bcopy_to (replicate (Z.to_nat NGROUPS) 0) 0 gids in
  Ok (Ucred (if area_uid a =? 0 then nobody else area_uid a) (area_gid a)
    (take (Z.to_nat (area_len a)) groups ++ replicate (Z.to_nat (NGROUPS - area_len a)) NOGROUP)).

(** [ntohs(xprt->xp_raddr.sin_port)]. *)
Definition sin_port (raddr : list Z) : Z := nth 2 raddr 0 * 256 + nth 3 raddr 0.

(** From [done] on: the arguments and the results, when there are any, are given
    back and the reply is sent unless there has been an error. *)
Definition rfs_done (disp : option rfsdisp) (args : option {disp : rfsdisp & dis_args (dis_in disp)})
    (res : option {disp : rfsdisp & dis_res disp}) (error : Z) (xprt : svcxprt) (d : rfs) : outcome (svcxprt * rfs) :=
  let* disp := deref disp in
  let* r := match args with
            | Some (existT e a) => SVC_FREEARGS xprt (dis_xdrargs (dis_in e)) (Some a)
            | None => SVC_FREEARGS xprt (dis_xdrargs (dis_in disp)) None
            end in
  let error := if r.2 then error else error + 1 in
  let xprt := r.1 in
  let d := match args with Some _ => rfsput d | None => d end in
  let* r := if error =? 0 then
              match res with
              | Some (existT e v) => svc_sendreply xprt (dis_xdrres e) v
              | None => Fault
              end
            else Ok (xprt, true) in
  let error := if r.2 then error else error + 1 in
  let d := match res with
           | Some (existT e v) => rfsput (d <| rfs_files := dis_resfree e v (rfs_files d) |>)
           | None => d
           end in
  Ok (r.1, d <| svstat := (svstat d) <| nbadcalls := s32 (nbadcalls (svstat d) + error) |> |>).

(** With the arguments [a]: the client is checked, and the service routine run
    with the credentials for it; those of the process come back at the end. *)
Definition rfs_serve (which : Z) (e : rfsdisp) (a : dis_args (dis_in e)) (req : svc_req) (xprt : svcxprt) (d : rfs)
    : outcome (svcxprt * rfs) :=
  let args := Some (existT e a) in
  if negb (oa_flavor (rq_cred req) =? AUTH_UNIX) && negb (which =? RFS_NULL) then
    let* xprt := svcerr_weakauth xprt in rfs_done (Some e) args None 1 xprt d
  else if nz nfs_portmon && (IPPORT_RESERVED <=? sin_port (xp_raddr xprt)) then
    let* xprt := svcerr_weakauth xprt in rfs_done (Some e) args None 1 xprt d
  else
    let* cr := if which =? RFS_NULL then Ok (u_cred d) else newcr (rq_clntcred req) in
    let tmpcr := u_cred d in
    let d := rfsget (d <| u_cred := cr |>) in
    let* n := aupd (reqs (svstat d)) which (fun n => s32 (n + 1)) in
    let d := d <| svstat := (svstat d) <| reqs := n |> |> in
    let* r := dis_proc e a req cr (rfs_files d) in
    let d := d <| rfs_files := r.2 |> in
    let* r := rfs_done (Some e) args (Some (existT e r.1)) 0 xprt d in
    Ok (r.1, r.2 <| u_cred := tmpcr |>).

Definition rfs_dispatch (req : svc_req) (xprt : svcxprt) (d : rfs) : outcome (svcxprt * rfs) :=
  let d := d <| svstat := (svstat d) <| ncalls := s32 (ncalls (svstat d) + 1) |> |> in
  let which := s32 (rq_proc req) in
  if (which <? 0) || (RFS_NPROC <=? which) then
    let* xprt := svcerr_noproc xprt in rfs_done None None None 1 xprt d
  else
    let vers := s32 (rq_vers req) in
    if (vers <? VERSIONMIN) || (VERSIONMAX <? vers) then
      let* xprt := svcerr_progvers xprt VERSIONMIN VERSIONMAX in rfs_done None None None 1 xprt d
    else
      let* e := aget rfsdisptab which in
      let d := rfsget d in
      let* r := SVC_GETARGS xprt (dis_xdrargs (dis_in e)) (dis_args0 (dis_in e)) in
      let '(xprt, a, ok) := r in
      if negb ok then
        let* xprt := svcerr_decode xprt in rfs_done (Some e) (Some (existT e a)) None 1 xprt d
      else rfs_serve which e a req xprt d.
End Rfs.

(** ** The properties *)

Section Proofs.
Context {F : Type} `{Heap} (got : bool) (ku_sendto_mbuf : chain -> list Z -> Z) (nobody nfs_portmon : Z).
#[local] Instance kudp_transport' : Transport xdrmbuf svcxprt := svckudp_op got ku_sendto_mbuf.
#[local] Abbreviation rfs_dispatch := (rfs_dispatch (F := F) got ku_sendto_mbuf).
#[local] Abbreviation rfs_done := (rfs_done (F := F) got ku_sendto_mbuf).

(** The credentials of a client that is not root on the server. *)
Definition client_cred (cr : ucred) : bool := negb (cr_uid cr =? 0) && (zlen (cr_groups cr) =? NGROUPS).

(** A row whose service routine refuses other credentials. *)
Definition guarded (e : rfsdisp (F := F)) : rfsdisp (F := F) :=
  RfsDisp (dis_in e) (dis_res e) (dis_res0 e) (dis_xdrres e)
    (fun a req cr f => if client_cred cr then dis_proc e a req cr f else Panic "root") (dis_resfree e).

(** All rows but that of the null procedure. *)
Definition guarded_table (t : list (rfsdisp (F := F))) : list (rfsdisp (F := F)) :=
  match t with [] => [] | e :: t => e :: (guarded <$> t) end.

Lemma newcr_client a cr : nobody <> 0 -> newcr nobody a = Ok cr -> client_cred cr = true.
Proof.
  intros Hn E. unfold newcr in E. apply obind_ok in E as (gids & (_ & H0 & _ & Hg)%bytes_at_inv & E).
  apply obind_ok in E as (groups & (_ & Hle & Hl)%bcopy_to_inv & E). injection E as <-.
  rewrite zlen_replicate in Hle, Hl. unfold client_cred, NGROUPS in *. cbn [cr_uid cr_groups]. apply andb_true_iff. split.
  - apply negb_true_iff, Z.eqb_neq. destruct (Z.eqb_spec (area_uid a) 0); done.
  - apply Z.eqb_eq. rewrite zlen_app, zlen_replicate. unfold zlen in *. rewrite length_take. lia.
Qed.

Lemma rfs_serve_guarded which e a req xprt d : nobody <> 0 -> which <> RFS_NULL ->
  rfs_serve got ku_sendto_mbuf nobody nfs_portmon which (guarded e) a req xprt d =
  rfs_serve got ku_sendto_mbuf nobody nfs_portmon which e a req xprt d.
Proof.
  intros Hn Hw. unfold rfs_serve. rewrite (proj2 (Z.eqb_neq which RFS_NULL)) by done.
  destruct (negb _ && _); [done|]. destruct (_ && _); [done|].
  destruct (newcr nobody (rq_clntcred req)) as [cr| |] eqn:Ecr; [|done|done]. cbn [obind].
  destruct (aupd _ _ _) as [n| |]; [|done|done]. cbn [obind dis_proc guarded].
  rewrite (newcr_client _ _ Hn Ecr). done.
Qed.

Lemma aget_guarded (t : list (rfsdisp (F := F))) which : 0 < which ->
  aget (guarded_table t) which = (let* e := aget t which in Ok (guarded e)).
Proof.
  intros Hw. unfold aget. rewrite (proj2 (Z.ltb_ge which 0)) by lia. destruct t as [|e t]; [done|]. cbn [guarded_table].
  replace (Z.to_nat which) with (S (Z.to_nat (which - 1))) by lia.
  change (deref ((guarded <$> t) !! Z.to_nat (which - 1)) = (let* e := deref (t !! Z.to_nat (which - 1)) in Ok (guarded e))).
  rewrite list_lookup_fmap. by destruct (t !! _).
Qed.

(** What comes after the service routine leaves the credentials as they are. *)
Lemma rfs_done_cred disp args res error xprt d xprt' d' :
  rfs_done disp args res error xprt d = Ok (xprt', d') -> u_cred d' = u_cred d.
Proof.
  unfold rfs_done. intros E. apply obind_ok in E as (e & _ & E). apply obind_ok in E as (r & _ & E).
  apply obind_ok in E as (r' & _ & E). injection E as _ <-. by destruct args as [[? ?]|], res as [[? ?]|].
Qed.

(** C10: whose rights a service routine has.  A call never runs one, but for that
    of the null procedure, with credentials that are of root or do not have
    [NGROUPS] groups: the server does the same with a table whose routines refuse
    those.  And whatever the outcome of a call is, the process has its own
    credentials again. *)
Theorem rfs_dispatch_credentials rfsdisptab req xprt d : nobody <> 0 ->
  rfs_dispatch (guarded_table rfsdisptab) nobody nfs_portmon req xprt d = rfs_dispatch rfsdisptab nobody nfs_portmon req xprt d /\
  forall xprt' d', rfs_dispatch rfsdisptab nobody nfs_portmon req xprt d = Ok (xprt', d') -> u_cred d' = u_cred d.
Proof.
  intros Hn. unfold NfsServer.rfs_dispatch. set (d1 := set_field svstat _ d). assert (Ed : u_cred d1 = u_cred d) by done. clearbody d1. split.
  - destruct (_ || _); [done|]. destruct (_ || _); [done|].
    destruct (Z.ltb_spec 0 (s32 (rq_proc req))) as [Hw|Hw].
    + rewrite aget_guarded by done. destruct (aget rfsdisptab _) as [e| |]; [|done|done]. cbn [obind].
      change (dis_in (guarded e)) with (dis_in e). destruct (SVC_GETARGS _ _ _) as [[[x a] ok]| |]; [|done|done]. cbn [obind].
      destruct ok; cbn [negb]; [|done]. apply rfs_serve_guarded; [done|unfold RFS_NULL; lia].
    + destruct rfsdisptab as [|e t]; [done|]. unfold aget. destruct (Z.ltb_spec (s32 (rq_proc req)) 0); [done|].
      by replace (s32 (rq_proc req)) with 0 by lia.
  - intros xprt' d'. rewrite <- Ed. destruct (_ || _); [intros E; apply obind_ok in E as (x & _ & E); by eapply rfs_done_cred|].
    destruct (_ || _); [intros E; apply obind_ok in E as (x & _ & E); by eapply rfs_done_cred|].
    intros E. apply obind_ok in E as (e & _ & E). apply obind_ok in E as ([[x a] ok] & _ & E). destruct ok; cbn [negb] in E.
    2: { apply obind_ok in E as (x2 & _ & E). apply rfs_done_cred in E. exact E. }
    unfold rfs_serve in E. destruct (negb _ && _); [apply obind_ok in E as (x2 & _ & E); by apply rfs_done_cred in E|].
    destruct (_ && _); [apply obind_ok in E as (x2 & _ & E); by apply rfs_done_cred in E|].
    apply obind_ok in E as (cr & _ & E). apply obind_ok in E as (n & _ & E). apply obind_ok in E as (r & _ & E).
    apply obind_ok in E as ([x2 d2] & _ & E). by injection E as _ <-.
Qed.

Lemma diropargs_short (s : xdrmbuf) d r : stands s d r -> at4 d -> zlen r < NFS_FHSIZE + 4 ->
  exists s' fh ok, xdr_diropargs (Xdr XDR_DECODE s) diropargs0 = Ok (Xdr XDR_DECODE s', NfsDiropArgs fh None, ok) /\ ok = false.
Proof.
  intros Hs Hd Hr. unfold xdr_diropargs, xand, xfield, xdr_fhandle. cbn [da_fhandle diropargs0].
  destruct (get_opaque s d r fhandle0 NFS_FHSIZE Hs Hd ltac:(unfold NFS_FHSIZE; lia) ltac:(done)) as (s1 & fh & ok & E & _ & Hok).
  rewrite E. cbn [obind fst snd]. destruct ok; [|by eexists _, _, _].
  destruct (Hok eq_refl) as (w & pad & r1 & -> & Hw & Hpad & _ & S1). change (rndup NFS_FHSIZE) with 0 in Hpad.
  rewrite !zlen_app, Hw, Hpad in Hr. unfold xdr_string. cbn [x_op obind].
  destruct (u_long_numeric s1 0) as (_ & _ & F'). destruct (getlong_end s1 _ _ S1) as [s2 E2]; [|lia|].
  { apply at4_app; [done|]. unfold at4. by rewrite zlen_app, Hw, Hpad. }
  destruct (F' _ E2) as [v Ev]. unfold xdr_u_int. rewrite Ev. cbn. by eexists _, _, _.
Qed.

(** *** Error replies *)

(** The transport can answer: the verifier is empty, as the authenticators leave it, and
    there is a buffer. *)
Definition can_reply (xprt : svcxprt) : Prop := oa_length (xprt_verf xprt) = 0 /\ UDPMSGSIZE <= zlen (rpc_buffer xprt).

Lemma replymsg_returns (m : rpc_msg unit) b : rp_stat (rm_reply m) = MSG_ACCEPTED -> rm_direction m = REPLY ->
  let ar := rp_acpt (rp_ru (rm_reply m)) in oa_length (ar_verf ar) = 0 -> ar_stat ar <> SUCCESS ->
  24 <= zlen b < 2 ^ 31 ->
  exists s' m' (ok : bool), xdr_replymsg xdr_void (xdrmbuf_init (Mbuf (Cluster 2) MT_DATA b) [] XDR_ENCODE) m = Ok (Xdr XDR_ENCODE s', m', ok)
    /\ (ok = true -> exists d r, stands s' d r).
Proof.
  intros Hst Hdir ar Hv Hns Hb. set (s := x_str (xdrmbuf_init (Mbuf (Cluster 2) MT_DATA b) [] XDR_ENCODE)).
  assert (S0 : stands s [] b).
  { pose proof (xdrmbuf_init_stands (Mbuf (Cluster 2) MT_DATA b) [] XDR_ENCODE) as S0.
    assert (E : chain_data [Mbuf (Cluster 2) MT_DATA b] = b) by (unfold chain_data; cbn; by rewrite app_nil_r).
    rewrite E in S0. apply S0; [lia|done|done]. }
  assert (Hin : exists s1 p w r, x_inline s 24 = (s1, Some p) /\ zlen w = 24 /\ window s1 p [] w r).
  { destruct (inline_spec s [] b 24 S0 ltac:(lia)) as [E|(s1 & p & w & r & _ & Hw & E & W)]; [|by exists s1, p, w, r].
    exfalso. revert E. cbn. unfold xdrmbuf_inline. cbn. rewrite (proj2 (Z.leb_le 24 _)) by (unfold m_len; cbn; lia). done. }
  destruct Hin as (s1 & p & w & r & Ein & Hw & W). unfold xdr_replymsg. change (xdrmbuf_init _ _ _) with (Xdr XDR_ENCODE s).
  cbn [x_op]. rewrite Hst, Hdir. change ((MSG_ACCEPTED =? MSG_ACCEPTED) && (REPLY =? REPLY)) with true. cbv iota. fold ar. rewrite Hv.
  change (s32 (6 * BYTES_PER_XDR_UNIT + 0)) with 24. unfold XDR_INLINE. cbn [x_str]. rewrite Ein. cbn [fst snd].
  change ((Xdr XDR_ENCODE s) <| x_str := s1 |>) with (Xdr XDR_ENCODE s1). unfold replymsg_encode. rewrite Hst, Hdir. fold ar.
  destruct (ixdr_puts_at XDR_ENCODE p [] r [rm_xid m; REPLY; MSG_ACCEPTED] s1 [] w W) as (s2 & t2 & E2 & W2 & L2); [rewrite Hw; vm_compute; congruence|].
  change (zlen []) with 0 in E2. rewrite Z.add_0_r in E2. rewrite E2. cbn [obind fst snd]. rewrite Hw in L2. change (4 * zlen [rm_xid m; REPLY; MSG_ACCEPTED]) with 12 in L2.
  destruct (ixdr_put_auth_at XDR_ENCODE p [] r (ar_verf ar) [] s2 _ t2 W2) as (s3 & w3 & t3 & E3 & W3 & Hw3 & L3).
  { split; [by eexists|]. by rewrite Hv. } { rewrite Hv. change (RNDUP 0) with 0. lia. }
  rewrite E3. cbn [obind fst snd]. pose proof (zlen_auth_wire _ _ Hw3) as L4. rewrite Hv in L4. change (RNDUP 0) with 0 in L4.
  rewrite <- (app_nil_r t3) in W3. destruct (ixdr_put_at XDR_ENCODE s3 p [] _ t3 [] r (ar_stat ar) W3) as (s4 & E4 & W4); [lia|].
  rewrite E4. cbn [obind fst snd]. apply window_stands in W4. unfold of_acpt, accepted_rest, xfield.
  change (rp_acpt (rp_ru (rm_reply m))) with ar. rewrite (proj2 (Z.eqb_neq (ar_stat ar) SUCCESS)) by done.
  destruct (ar_stat ar =? PROG_MISMATCH); [|cbn [obind fst snd]; eexists _, _, _; split; [reflexivity|]; intros _; by eexists _, _].
  assert (Hsv : sends xdr_versions (ar_vers ar) (word (low (ar_vers ar)) ++ word (high (ar_vers ar)))).
  { apply sends_and; (apply sends_field; [by destruct (ar_vers ar)|apply sends_u_long]). }
  destruct Hsv as [_ Hsv]. specialize (Hsv s4 _ _ W4). match type of Hsv with at4 ?d -> _ => assert (A4 : at4 d) end.
  { unfold at4. rewrite !zlen_app, L4, zlen_word. reflexivity. }
  specialize (Hsv A4). destruct (_ <=? _) in Hsv.
  - destruct Hsv as (s5 & E5 & S5). unfold xfield in E5. cbn [obind]. unfold xdr_versions, xfield in E5 |- *. rewrite E5. cbn [obind fst snd].
    eexists _, _, _. split; [reflexivity|]. intros _. by eexists _, _.
  - destruct Hsv as (s5 & E5). unfold xdr_versions, xfield in E5 |- *. rewrite E5. cbn [obind fst snd]. eexists _, _, _. split; [reflexivity|done].
Qed.
Lemma svc_error_returns xprt stat vers : can_reply xprt -> stat <> SUCCESS ->
  exists xprt', svc_error xprt (reply_accepted (xp_verf xprt) stat vers tt) = Ok xprt'.
Proof.
  intros [Hv Hb] Hs. unfold svc_error. cbn [SVC_REPLY kudp_transport' svckudp_op xp_verf]. unfold svckudp_send.
  change (rpc_buffer (xprt <| ud_flags := _ |>)) with (rpc_buffer xprt). unfold mclgetx. destruct got; [|by eexists].
  destruct (zlen_split (rpc_buffer xprt) UDPMSGSIZE) as (b & c & Eb & Hl); [split; [done|exact Hb]|].
  rewrite Eb. pose proof (bytes_at_ok [] b c) as Eb'. cbn [app] in Eb'. change (zlen []) with 0 in Eb'. rewrite <- Hl, Eb'. cbn [obind].
  match goal with |- context [xdr_replymsg _ _ ?m] => destruct (replymsg_returns m b) as (s' & m' & ok & E & Hok);
    [reflexivity|reflexivity|exact Hv|exact Hs|rewrite Hl; vm_compute; split; congruence|] end.
  rewrite E. cbn [obind fst snd x_str].
  destruct (xdrmbuf_chain s') as [|m1 next] eqn:Ec; [unfold xdrmbuf_chain in Ec; by destruct (xb_passed s')|]. cbn [obind fst snd].
  destruct ok; cbn [negb]; [|by eexists]. destruct (Hok eq_refl) as (d & r & S'). destruct (getpos_ok _ _ _ S') as [n En]. rewrite En. cbn [obind].
  by eexists.
Qed.

(** *** Two faults *)

(** A call is counted. *)
Definition counted_call (d : rfs (F := F)) : rfs := d <| svstat := (svstat d) <| ncalls := s32 (ncalls (svstat d) + 1) |> |>.

Lemma rfs_done_row e xprt d : exists r, rfs_done (Some e) None None 1 xprt d = Ok r.
Proof. by eexists. Qed.

(** Giving back the arguments of a lookup, with a name. *)
Lemma diropargs_free (s : xdrmbuf) fh name rest : chars name ->
  exists a ok, xdr_diropargs (Xdr XDR_FREE s) (NfsDiropArgs fh (Some (name ++ 0 :: rest))) = Ok (Xdr XDR_FREE s, a, ok).
Proof.
  intros Hn. unfold xdr_diropargs, xand, xfield, xdr_fhandle, xdr_opaque, xdr_string. cbn [da_fhandle da_name x_op NFS_FHSIZE Z.eqb obind fst snd behind default].
  change (behind (da_name (_ <| da_fhandle := fh |>))) with (name ++ 0 :: rest).
  rewrite strlen_chars by done. cbn [obind].
  unfold xdr_u_int, xdr_u_long. cbn [x_op obind negb]. destruct (_ <? _); cbn [obind fst snd]; by eexists _, _.
Qed.

Lemma rfs_done_name R res0 xdrres proc free fh name rest xprt d : chars name ->
  let e := RfsDisp args_diropargs R res0 xdrres proc free in
  exists r, rfs_done (Some e) (Some (existT e (NfsDiropArgs fh (Some (name ++ 0 :: rest))))) None 1 xprt d = Ok r.
Proof.
  intros Hn e. unfold NfsServer.rfs_done. cbn [deref obind SVC_FREEARGS kudp_transport svckudp_op]. unfold svckudp_freeargs.
  change (dis_xdrargs (dis_in e)) with (xdr_diropargs (S := xdrmbuf)).
  set (x := (ud_xdrin _) <| x_op := XDR_FREE |>). assert (Hx : x_op x = XDR_FREE) by done. destruct x as [op s]. cbn in Hx. subst op.
  destruct (diropargs_free s fh name rest Hn) as (a & ok & E). rewrite E. cbn [obind fst snd]. destruct ok; by eexists.
Qed.

End Proofs.

#[local] Existing Instance sample_heap.

(** A server whose routines do nothing; its last row is for lookups. *)
Definition null_row : rfsdisp (F := unit) := RfsDisp args_void unit tt xdr_void (fun _ _ _ f => Ok (tt, f)) (fun _ f => f).
Definition lookup_row : rfsdisp (F := unit) := RfsDisp args_diropargs unit tt xdr_void (fun _ _ _ f => Ok (tt, f)) (fun _ f => f).
Definition sample_table : list (rfsdisp (F := unit)) := [null_row; null_row; null_row; null_row; lookup_row].
Definition sample_rfs : rfs (F := unit) := Rfs (Svstat 0 0 (replicate 32 0)) tt (Ucred 0 0 (replicate 16 NOGROUP)) 0.
Definition sample_svcxprt : svcxprt :=
  Svcxprt (Sockbuf 0 0 0 0 [] 0 false) (replicate 16 0) null_auth (replicate (Z.to_nat UDPMSGSIZE) 0) 0 0 None
    (xdrmbuf_init call_mbuf [] XDR_DECODE) (xdrmbuf_init call_mbuf [] XDR_DECODE) [].
Definition sample_req (proc : Z) : svc_req := SvcReq 100003 2 proc sample_auth sample_area.

Lemma rfs_dispatch_credentials_witness :
  rfs_dispatch true (fun _ _ => 0) (guarded_table sample_table) 32767 0 (sample_req 4) sample_svcxprt sample_rfs =
  rfs_dispatch true (fun _ _ => 0) sample_table 32767 0 (sample_req 4) sample_svcxprt sample_rfs.
Proof. refine (proj1 (rfs_dispatch_credentials true (fun _ _ => 0) 32767 0 sample_table (sample_req 4) sample_svcxprt sample_rfs _)). lia. Defined.

