(* ===== verification/Kmem.v ===== *)
(** * The heap of the kernel: [sys/sys/heap_kmem.c]

    Free blocks are the nodes of a "Cartesian" tree: ordered by address from left
    to right, and by size from the root down.  A node is a header in a store, by
    its address; a pointer to a pointer ([Freehdr *]) is a [hook]: the root, or a
    link of a header.  Headers that are not in use are chained by their left
    links.  The pages are a parameter ([Pages]): what [getpages] returns, the
    waiting for [rmalloc] included.  Processor levels and debugging output are
    left out; what [kmem_free_intr] writes into a block that is to be freed is
    kept as a list. *)
From S2P Require Import Prelude.

(** ** Data *)

Definition CLSIZE : Z := 2.
Definition NBPG : Z := 512.
Definition CLBYTES : Z := CLSIZE * NBPG.
Definition NPTEPG : Z := NBPG / 4.
Definition USRPTSIZE : Z := 32 * NPTEPG.
Definition SMALLEST_BLK : Z := 1.
Definition NEED_TO_FREE_SIZE : nat := 10.

Record freehdr := Freehdr { left : Z; right : Z; block : Z; size : Z }.
#[export] Instance settable_freehdr : Settable freehdr := fun h => Freehdr (left h) (right h) (block h) (size h).
Definition sizeof_freehdr : Z := 16.

(** [&kmem_info.free_root], [&x->left], [&x->right]. *)
Inductive hook := Root | Left (x : Z) | Right (x : Z).

Class Pages (K : Type) := getpages : K -> Z -> outcome (Z * K).

(** [kmem_info]; [need_to_free_list] has the blocks that are linked through their
    own memory, [need_to_free] the slots for those too small for that. *)
Record kmem {K : Type} := Kmem {
  free_root : Z; free_hdr_list : Z; hdrs : gmap Z freehdr;
  need_to_free_list : list (Z * Z); need_to_free : list (Z * Z); pages : K
}.
Arguments kmem K : clear implicits.
#[export] Instance settable_kmem K : Settable (kmem K) := fun k =>
  Kmem K (free_root k) (free_hdr_list k) (hdrs k) (need_to_free_list k) (need_to_free k) (pages k).

Definition kmem_init {K} (map : K) : kmem K := Kmem K 0 0 ∅ [] (replicate NEED_TO_FREE_SIZE (0, 0)) map.

Section Kmem.
Context {K : Type} `{Pages K} (usrpt : Z).

(** ** Pointers *)

(** [*x], and [x->... = ...]. *)
Definition hdr (k : kmem K) (x : Z) : outcome freehdr := deref (hdrs k !! x).
Definition hdr_set (k : kmem K) (x : Z) (f : freehdr -> freehdr) : outcome (kmem K) :=
  let* h := hdr k x in Ok (k <| hdrs := <[x := f h]> (hdrs k) |>).

(** [*p], and [*p = v]. *)
Definition ld (k : kmem K) (p : hook) : outcome Z :=
  match p with
  | Root => Ok (free_root k)
  | Left x => let* h := hdr k x in Ok (left h)
  | Right x => let* h := hdr k x in Ok (right h)
  end.
Definition st (k : kmem K) (p : hook) (v : Z) : outcome (kmem K) :=
  match p with
  | Root => Ok (k <| free_root := v |>)
  | Left x => hdr_set k x (fun h => h <| left := v |>)
  | Right x => hdr_set k x (fun h => h <| right := v |>)
  end.

Definition weight (k : kmem K) (x : Z) : outcome Z := if x =? 0 then Ok 0 else let* h := hdr k x in Ok (size h).

(** ** Headers *)

Definition free_hdr (k : kmem K) (p : Z) : outcome (kmem K) :=
  let* k := hdr_set k p (fun h => h <| left := free_hdr_list k |> <| right := 0 |> <| block := 0 |>) in
  Ok (k <| free_hdr_list := p |>).

(** [freehdr(&r[n])] for [n] up to the end of the page; the memory is a header
    from then on. *)
Fixpoint page_hdrs (k : kmem K) (r : Z) (cnt : nat) (n : Z) : outcome (kmem K) :=
  match cnt with
  | O => Ok k
  | S cnt =>
      let p := r + n * sizeof_freehdr in
      let* k := free_hdr (k <| hdrs := <[p := Freehdr 0 0 0 0]> (hdrs k) |>) p in page_hdrs k r cnt (n + 1)
  end.

Definition getfreehdr (k : kmem K) : outcome (kmem K * Z) :=
  let r := free_hdr_list k in
  if nz r then let* h := hdr k r in Ok (k <| free_hdr_list := left h |>, r)
  else
    let* g := getpages (pages k) CLSIZE in
    let '(r, pg) := g in
    if r =? 0 then Panic "getfreehdr" else
    let k := k <| pages := pg |> <| hdrs := <[r := Freehdr 0 0 0 0]> (hdrs k) |> in
    let* k := page_hdrs k r (Z.to_nat (CLBYTES / sizeof_freehdr - 1)) 1 in Ok (k, r).

(** ** The tree *)

(** The loops go down the tree: the number of headers is fuel enough. *)
Definition steps (k : kmem K) : nat := S (base.size (hdrs k)).

Fixpoint find_loop (fuel : nat) (k : kmem K) (tree : hook) (p len : Z) : outcome hook :=
  let* x := ld k tree in
  let* w := weight k x in
  if len <=? w then
    match fuel with
    | O => Fault
    | S fuel => let* h := hdr k x in find_loop fuel k (if p <? block h then Left x else Right x) p len
    end
  else Ok tree.

Fixpoint cut_loop (fuel : nat) (k : kmem K) (x : Z) (left_hook right_hook : hook) (p : Z) : outcome (kmem K) :=
  if x =? 0 then let* k := st k right_hook 0 in st k left_hook 0
  else match fuel with
  | O => Fault
  | S fuel =>
      let* h := hdr k x in
      if block h <? p then
        let* k := st k left_hook x in let* y := ld k (Right x) in cut_loop fuel k y (Right x) right_hook p
      else
        let* k := st k right_hook x in let* y := ld k (Left x) in cut_loop fuel k y left_hook (Left x) p
  end.

Definition insert (k : kmem K) (p len : Z) (tree : hook) : outcome (kmem K) :=
  let* tree := find_loop (steps k) k tree p len in
  let* x := ld k tree in
  let* g := getfreehdr k in
  let '(k, newhdr) := g in
  let* k := st k tree newhdr in
  let* k := hdr_set k newhdr (fun _ => Freehdr 0 0 p len) in
  cut_loop (steps k) k x (Left newhdr) (Right newhdr) p.

Fixpoint join_loop (fuel : nat) (k : kmem K) (p : hook) (left_branch right_branch : Z) : outcome (kmem K) :=
  if left_branch =? right_branch then st k p 0
  else match fuel with
  | O => Fault
  | S fuel =>
      let* wl := weight k left_branch in
      let* wr := weight k right_branch in
      if wr <=? wl then
        let* k := st k p left_branch in
        let* y := ld k (Right left_branch) in join_loop fuel k (Right left_branch) y right_branch
      else
        let* k := st k p right_branch in
        let* y := ld k (Left right_branch) in join_loop fuel k (Left right_branch) left_branch y
  end.

Definition delete (k : kmem K) (p : hook) : outcome (kmem K) :=
  let* x := ld k p in
  let* h := hdr k x in
  let* k := join_loop (steps k) k p (left h) (right h) in
  free_hdr k x.

Fixpoint demote_loop (fuel : nat) (k : kmem K) (p : hook) (left_branch right_branch wx : Z)
    : outcome (kmem K * hook * Z * Z) :=
  let* wl := weight k left_branch in
  let* wr := weight k right_branch in
  if (wx <? wl) || (wx <? wr) then
    match fuel with
    | O => Fault
    | S fuel =>
        if wr <=? wl then
          let* k := st k p left_branch in
          let* y := ld k (Right left_branch) in demote_loop fuel k (Right left_branch) y right_branch wx
        else
          let* k := st k p right_branch in
          let* y := ld k (Left right_branch) in demote_loop fuel k (Left right_branch) left_branch y wx
    end
  else Ok (k, p, left_branch, right_branch).

Definition demote (k : kmem K) (p : hook) : outcome (kmem K) :=
  let* x := ld k p in
  let* h := hdr k x in
  let* wx := weight k x in
  let* r := demote_loop (steps k) k p (left h) (right h) wx in
  let '(k, p, left_branch, right_branch) := r in
  let* k := st k p x in
  hdr_set k x (fun h => h <| left := left_branch |> <| right := right_branch |>).

(** ** Blocks *)

Fixpoint free_loop (fuel : nat) (k : kmem K) (np : hook) (ptr nbytes : Z) : outcome (kmem K * Z * Z) :=
  let* neighbor := ld k np in
  if neighbor =? 0 then Ok (k, ptr, nbytes)
  else match fuel with
  | O => Fault
  | S fuel =>
      let* h := hdr k neighbor in
      if ptr <? block h then
        if u32 (ptr + nbytes) =? block h then
          let* k := delete k np in free_loop fuel k np ptr (u32 (nbytes + size h))
        else if block h <? u32 (ptr + nbytes) then Panic "kmem_free: free block overlap"
        else free_loop fuel k (Left neighbor) ptr nbytes
      else if block h <? ptr then
        if u32 (block h + size h) =? ptr then
          let* k := delete k np in free_loop fuel k np (block h) (u32 (nbytes + size h))
        else if ptr <? u32 (block h + size h) then Panic "kmem_free block already free"
        else free_loop fuel k (Right neighbor) ptr nbytes
      else Panic "kmem_free: block already free as neighbor"
  end.

Definition kmem_free (k : kmem K) (ptr nbytes : Z) : outcome (kmem K) :=
  if nbytes =? 0 then Ok k
  else if (ptr <? usrpt) || (usrpt + USRPTSIZE * NBPG <? ptr) then Panic "kmem_free"
  else
    let* r := free_loop (steps k) k Root ptr nbytes in
    let '(k, ptr, nbytes) := r in
    insert k ptr nbytes Root.

Definition ALIGN : Z := 4.
Definition ALIGNMASK : Z := ALIGN - 1.
Definition ALIGNMORE (addr : Z) : Z := ALIGN - Z.land addr ALIGNMASK.

Definition misaligned (block size : Z) : bool := nz (Z.land block ALIGNMASK) && (ALIGNMORE block <? size).
Definition mweight (k : kmem K) (x : Z) : outcome Z :=
  if x =? 0 then Ok 0 else
  let* h := hdr k x in
  Ok (if misaligned (block h) (size h) then size h - ALIGNMORE (block h) else size h).

(** [need_to_free] is scanned from its start after every block. *)
Definition check_slots (k : kmem K) : option (nat * (Z * Z)) := list_find (fun x => x.1 <> 0) (need_to_free k).
Fixpoint check_need_to_free (fuel : nat) (k : kmem K) : outcome (kmem K) :=
  match need_to_free_list k, check_slots k, fuel with
  | [], None, _ => Ok k
  | (addr, nbytes) :: l, _, S fuel =>
      let* k := kmem_free (k <| need_to_free_list := l |>) addr nbytes in check_need_to_free fuel k
  | [], Some (i, (addr, nbytes)), S fuel =>
      let* k := kmem_free (k <| need_to_free := <[i := (0, nbytes)]> (need_to_free k) |>) addr nbytes in
      check_need_to_free fuel k
  | _, _, O => Fault
  end.

Definition roundup (x y : Z) : Z := u32 (u32 (x + (y - 1)) / y * y).

Definition morecore (k : kmem K) (nbytes : Z) : outcome (kmem K * bool) :=
  let nbytes := roundup nbytes CLBYTES in
  let* g := getpages (pages k) (nbytes / NBPG) in
  let '(p, pg) := g in
  let k := k <| pages := pg |> in
  if p =? 0 then Ok (k, false) else let* k := kmem_free k p nbytes in Ok (k, true).

(** From the node [a], at [p], to the better fitting child while one fits. *)
Fixpoint fit_loop (fuel : nat) (k : kmem K) (p : hook) (a nbytes : Z) : outcome (hook * Z) :=
  let* h := hdr k a in
  let* left_weight := mweight k (left h) in
  let* right_weight := mweight k (right h) in
  if (nbytes <=? left_weight) || (nbytes <=? right_weight) then
    match fuel with
    | O => Fault
    | S fuel =>
        if (if left_weight <=? right_weight then nbytes <=? left_weight else negb (nbytes <=? right_weight))
        then fit_loop fuel k (Left a) (left h) nbytes else fit_loop fuel k (Right a) (right h) nbytes
    end
  else Ok (p, a).

(** Storage from the node [a] at [p]. *)
Definition take_node (k : kmem K) (p : hook) (a nbytes : Z) : outcome (kmem K * Z) :=
  let* h := hdr k a in
  if u32 (size h - nbytes) <? SMALLEST_BLK then let* k := delete k p in Ok (k, block h)
  else
    let* g := getfreehdr k in
    let '(k, x) := g in
    if misaligned (block h) (size h) then
      let more := ALIGNMORE (block h) in
      let nbytes := u32 (nbytes + more) in
      let* k := hdr_set k x (fun _ => Freehdr (left h) (right h) (block h) more) in
      let* k := st k p x in
      let* k := demote k p in
      let* ha := hdr k a in
      let retblock := u32 (block ha + ALIGNMORE (block ha)) in
      let* k := if nbytes <? size ha then kmem_free k (u32 (block ha + nbytes)) (size ha - nbytes) else Ok k in
      let* k := free_hdr k a in
      Ok (k, retblock)
    else
      let* k := hdr_set k x (fun _ => Freehdr (left h) (right h) (u32 (block h + nbytes)) (u32 (size h - nbytes))) in
      let* k := st k p x in
      let* k := demote k p in
      let* ha := hdr k a in
      let* k := free_hdr k a in
      Ok (k, block ha).

Definition kmem_alloc (k : kmem K) (nbytes : Z) : outcome (kmem K * Z) :=
  if nbytes =? 0 then Ok (k, 0)
  else if nbytes <? SMALLEST_BLK then Panic "kmem_alloc"
  else
    let* k := check_need_to_free (length (need_to_free_list k) + length (need_to_free k)) k in
    let* w := mweight k (free_root k) in
    let* k := if w <? nbytes then
                let* r := morecore k nbytes in if r.2 then Ok r.1 else Panic "kmem_alloc"
              else Ok k in
    let* r := fit_loop (steps k) k Root (free_root k) nbytes in
    take_node k r.1 r.2 nbytes.

(** ** From interrupts *)

(** A block is linked by its memory when that is large enough for the link. *)
Definition sizeof_need_to_free : Z := 8.
Definition defer (k : kmem K) (ptr nbytes : Z) : outcome (kmem K) :=
  if sizeof_need_to_free <=? nbytes then
    if ptr =? 0 then Fault else Ok (k <| need_to_free_list := (ptr, nbytes) :: need_to_free_list k |>)
  else
    match list_find (fun x => x.1 = 0) (need_to_free k) with
    | Some (i, _) => Ok (k <| need_to_free := <[i := (ptr, nbytes)]> (need_to_free k) |>)
    | None => Panic "kmem_free_intr"
    end.

(** One that is not aligned in two parts: neither of the two calls makes more. *)
Definition kmem_free_intr (k : kmem K) (ptr nbytes : Z) : outcome (kmem K) :=
  if (sizeof_need_to_free <=? nbytes) && nz (Z.land ptr ALIGNMASK) then
    let i := ALIGNMORE ptr in
    let* k := defer k ptr i in defer k (ptr + i) (nbytes - i)
  else defer k ptr nbytes.

End Kmem.
