(* ===== verification/KmemTree.v ===== *)
(** * Cartesian trees

    The trees that the store of [Kmem] holds, and what its routines do to them:
    a node has the address of its header, a block and its size.  [flat] lists the
    nodes from left to right; almost everything is said of that list.  A context
    is the way from the root to a hook. *)
From stdpp Require Import sorting.
From S2P Require Import Prelude.

(** Membership in lists that were put together. *)
Ltac elems := repeat (progress rewrite ?elem_of_app, ?elem_of_cons, ?elem_of_nil in *); intuition first [congruence | subst; tauto].

(** ** Trees *)

Inductive tree := Leaf | Node (x : Z) (l : tree) (b sz : Z) (r : tree).

Definition ptr (t : tree) : Z := match t with Leaf => 0 | Node x _ _ _ _ => x end.
Definition wt (t : tree) : Z := match t with Leaf => 0 | Node _ _ _ sz _ => sz end.

Fixpoint flat (t : tree) : list (Z * (Z * Z)) :=
  match t with Leaf => [] | Node x l b sz r => flat l ++ (x, (b, sz)) :: flat r end.
Definition count (t : tree) : nat := length (flat t).

(** Sizes decrease from the root down. *)
Fixpoint heap (w : Z) (t : tree) : Prop :=
  match t with Leaf => True | Node _ l _ sz r => 0 < sz <= w /\ heap sz l /\ heap sz r end.

(** No size is zero. *)
Fixpoint pos (t : tree) : Prop := match t with Leaf => True | Node _ l _ sz r => 0 < sz /\ pos l /\ pos r end.

(** ** What the loops compute *)

Fixpoint cut (p : Z) (t : tree) : tree * tree :=
  match t with
  | Leaf => (Leaf, Leaf)
  | Node x l b sz r =>
      if b <? p then let c := cut p r in (Node x l b sz c.1, c.2)
      else let c := cut p l in (c.1, Node x c.2 b sz r)
  end.

Fixpoint join (l : tree) : tree -> tree :=
  fix go (r : tree) : tree :=
    match l, r with
    | Leaf, _ => r
    | _, Leaf => l
    | Node xl ll bl sl lr, Node xr rl br sr rr =>
        if sr <=? sl then Node xl ll bl sl (join lr r) else Node xr (go rl) br sr rr
    end.

Fixpoint sink (x b sz : Z) (l : tree) : tree -> tree :=
  fix go (r : tree) : tree :=
    if (sz <? wt l) || (sz <? wt r) then
      match l, r with
      | Node xl ll bl sl lr, Node xr rl br sr rr =>
          if sr <=? sl then Node xl ll bl sl (sink x b sz lr r) else Node xr (go rl) br sr rr
      | Node xl ll bl sl lr, Leaf => Node xl ll bl sl (sink x b sz lr r)
      | Leaf, Node xr rl br sr rr => Node xr (go rl) br sr rr
      | Leaf, Leaf => Node x l b sz r
      end
    else Node x l b sz r.

Lemma join_leaf_r l : join l Leaf = l.
Proof. by destruct l. Qed.
Lemma join_leaf_l r : join Leaf r = r.
Proof. by destruct r. Qed.

Lemma join_left xl ll bl sl lr r : wt r <= sl -> join (Node xl ll bl sl lr) r = Node xl ll bl sl (join lr r).
Proof.
  intros Hw. destruct r as [|xr rl br sr rr]; cbn [join]; [by rewrite join_leaf_r|].
  cbn [wt] in Hw. by rewrite (proj2 (Z.leb_le _ _)) by done.
Qed.
Lemma join_right l xr rl br sr rr : wt l < sr -> join l (Node xr rl br sr rr) = Node xr (join l rl) br sr rr.
Proof.
  intros Hw. destruct l as [|xl ll bl sl lr]; [by rewrite !join_leaf_l|].
  cbn [wt] in Hw. cbn [join]. by rewrite (proj2 (Z.leb_gt _ _)) by done.
Qed.

Lemma sink_left x b sz xl ll bl sl lr r : wt r <= sl -> sz < sl ->
  sink x b sz (Node xl ll bl sl lr) r = Node xl ll bl sl (sink x b sz lr r).
Proof.
  intros Hw Hs. destruct r as [|xr rl br sr rr]; cbn [sink wt] in *; rewrite (proj2 (Z.ltb_lt _ _)) by done; cbn [orb]; [done|].
  by rewrite (proj2 (Z.leb_le _ _)) by done.
Qed.
Lemma sink_right x b sz l xr rl br sr rr : wt l < sr -> sz < sr ->
  sink x b sz l (Node xr rl br sr rr) = Node xr (sink x b sz l rl) br sr rr.
Proof.
  intros Hw Hs. destruct l as [|xl ll bl sl lr]; cbn [sink wt] in *; rewrite (proj2 (Z.ltb_lt sz sr)), orb_true_r by done; [done|].
  by rewrite (proj2 (Z.leb_gt _ _)) by done.
Qed.
Lemma sink_stop x b sz l r : wt l <= sz -> wt r <= sz -> sink x b sz l r = Node x l b sz r.
Proof. intros Hl Hr. destruct l, r; cbn [sink]; rewrite !(proj2 (Z.ltb_ge _ _)) by done; done. Qed.

(** ** The nodes stay *)

Lemma flat_cut p t : flat (cut p t).1 ++ flat (cut p t).2 = flat t.
Proof.
  induction t as [|x l IHl b sz r IHr]; [done|]. cbn [cut]. destruct (b <? p); cbn [fst snd flat].
  - by rewrite <- IHr, <- !app_assoc.
  - by rewrite <- IHl, <- !app_assoc.
Qed.

(** Induction over two trees that are merged along their inner edges. *)
Lemma edges_ind (P : tree -> tree -> Prop) :
  P Leaf Leaf ->
  (forall xl ll bl sl lr r, 0 < sl -> wt r <= sl -> pos ll -> pos lr -> pos r -> P lr r -> P (Node xl ll bl sl lr) r) ->
  (forall l xr rl br sr rr, 0 < sr -> wt l < sr -> pos l -> pos rl -> pos rr -> P l rl -> P l (Node xr rl br sr rr)) ->
  forall l r, pos l -> pos r -> P l r.
Proof.
  intros H0 Hl Hr l. induction l as [|xl ll _ bl sl lr IHl]; intros r Hpl.
  - induction r as [|xr rl IHr br sr rr _]; [done|]. intros (H1 & H2 & H3). apply Hr; try done. by apply IHr.
  - destruct Hpl as (P1 & P2 & P3). induction r as [|xr rl IHr br sr rr _]; intros Hpr.
    + apply Hl; try done; cbn; [lia|]. by apply IHl.
    + pose proof Hpr as (P1' & P2' & P3'). destruct (Z.le_gt_cases sr sl).
      * apply Hl; try done. by apply IHl.
      * apply Hr; try done. by apply IHr.
Qed.

Lemma flat_join l r : pos l -> pos r -> flat (join l r) = flat l ++ flat r.
Proof.
  revert l r. apply edges_ind; [done|..].
  - intros xl ll bl sl lr r _ Hw _ _ _ IH. rewrite join_left by done. cbn [flat]. by rewrite IH, <- app_assoc.
  - intros l xr rl br sr rr _ Hw _ _ _ IH. rewrite join_right by done. cbn [flat]. by rewrite IH, app_assoc.
Qed.

Lemma flat_sink x b sz l r : pos l -> pos r -> flat (sink x b sz l r) = flat l ++ (x, (b, sz)) :: flat r.
Proof.
  revert l r. apply edges_ind; [by cbn [sink]; destruct (_ || _)|..].
  - intros xl ll bl sl lr r _ Hw _ _ _ IH. destruct (Z.lt_ge_cases sz sl).
    + rewrite sink_left by done. cbn [flat]. by rewrite IH, <- app_assoc.
    + rewrite sink_stop by (cbn [wt]; lia). done.
  - intros l xr rl br sr rr _ Hw _ _ _ IH. destruct (Z.lt_ge_cases sz sr).
    + rewrite sink_right by done. cbn [flat]. by rewrite IH, <- app_assoc.
    + rewrite sink_stop by (cbn [wt]; lia). done.
Qed.

(** ** The order of the sizes *)

Lemma heap_pos w t : heap w t -> pos t.
Proof. revert w. induction t as [|x l IHl b sz r IHr]; cbn; [done|]. intros w (H1 & H2 & H3). split; [lia|]. eauto. Qed.

Lemma heap_mono w w' t : heap w t -> w <= w' -> heap w' t.
Proof. destruct t; cbn; intuition lia. Qed.

Lemma heap_cut w p t : heap w t -> heap w (cut p t).1 /\ heap w (cut p t).2.
Proof.
  revert w. induction t as [|x l IHl b sz r IHr]; intros w; [done|]. intros (H1 & H2 & H3). cbn [cut].
  destruct (b <? p); cbn [fst snd heap].
  - destruct (IHr _ H3). split; [done|]. eapply heap_mono; [done|lia].
  - destruct (IHl _ H2). split; [|done]. eapply heap_mono; [done|lia].
Qed.

Lemma heap_join l r : pos l -> pos r -> forall w, heap w l -> heap w r -> heap w (join l r).
Proof.
  revert l r. apply (edges_ind (fun l r => forall w, heap w l -> heap w r -> heap w (join l r))); [done|..].
  - intros xl ll bl sl lr r _ Hw _ _ _ IH w (H1 & H2 & H3) Hr. rewrite join_left by done. split; [done|]. split; [done|].
    apply IH; [done|]. destruct r; cbn in *; intuition lia.
  - intros l xr rl br sr rr _ Hw _ _ _ IH w Hl (H1 & H2 & H3). rewrite join_right by done. split; [done|]. split; [|done].
    apply IH; [|done]. destruct l; cbn in *; intuition lia.
Qed.

Lemma heap_sink x b sz l r : pos l -> pos r -> forall w, heap w l -> heap w r -> 0 < sz <= w -> heap w (sink x b sz l r).
Proof.
  revert l r. apply (edges_ind (fun l r => forall w, heap w l -> heap w r -> 0 < sz <= w -> heap w (sink x b sz l r))).
  { intros w _ _ Hs. cbn [sink]. by destruct (_ || _). }
  - intros xl ll bl sl lr r Hp Hw _ _ _ IH w (H1 & H2 & H3) Hr Hs. destruct (Z.lt_ge_cases sz sl).
    + rewrite sink_left by done. split; [done|]. split; [done|]. apply IH; [done| |lia]. destruct r; cbn in *; intuition lia.
    + rewrite sink_stop by (cbn [wt]; lia). split; [done|]. split; [by split; [lia|]|]. destruct r; cbn in *; intuition lia.
  - intros l xr rl br sr rr Hp Hw _ _ _ IH w Hl (H1 & H2 & H3) Hs. destruct (Z.lt_ge_cases sz sr).
    + rewrite sink_right by done. split; [done|]. split; [|done]. apply IH; [|done|lia]. destruct l; cbn in *; intuition lia.
    + rewrite sink_stop by (cbn [wt]; lia). split; [done|]. split; [|by split; [lia|]]. destruct l; cbn in *; intuition lia.
Qed.

(** ** Contexts: the way to a hook, the last step first *)

Inductive frame := FL (x b sz : Z) (r : tree) | FR (x : Z) (l : tree) (b sz : Z).

Definition fill (f : frame) (t : tree) : tree :=
  match f with FL x b sz r => Node x t b sz r | FR x l b sz => Node x l b sz t end.
Fixpoint plug (C : list frame) (t : tree) : tree :=
  match C with [] => t | f :: C => plug C (fill f t) end.

(** The nodes to the left of the hole, and to its right. *)
Fixpoint bef (C : list frame) : list (Z * (Z * Z)) :=
  match C with [] => [] | FL _ _ _ _ :: C => bef C | FR x l b sz :: C => bef C ++ flat l ++ [(x, (b, sz))] end.
Fixpoint aft (C : list frame) : list (Z * (Z * Z)) :=
  match C with [] => [] | FL x b sz r :: C => (x, (b, sz)) :: flat r ++ aft C | FR _ _ _ _ :: C => aft C end.

Lemma flat_plug C t : flat (plug C t) = bef C ++ flat t ++ aft C.
Proof.
  revert t. induction C as [|[x b sz r|x l b sz] C IH]; intros t; cbn [plug bef aft fill].
  - by rewrite app_nil_r.
  - rewrite IH. cbn [flat]. by rewrite <- app_assoc.
  - rewrite IH. cbn [flat]. by rewrite <- !app_assoc.
Qed.

(** The size that a tree in the hole may have. *)
Definition cap (w : Z) (C : list frame) : Z :=
  match C with [] => w | FL _ _ sz _ :: _ => sz | FR _ _ _ sz :: _ => sz end.
Fixpoint heap_ctx (w : Z) (C : list frame) : Prop :=
  match C with
  | [] => True
  | FL _ _ sz r :: C => 0 < sz <= cap w C /\ heap sz r /\ heap_ctx w C
  | FR _ l _ sz :: C => 0 < sz <= cap w C /\ heap sz l /\ heap_ctx w C
  end.

Lemma heap_plug w C t : heap w (plug C t) <-> heap_ctx w C /\ heap (cap w C) t.
Proof.
  revert t. induction C as [|[x b sz r|x l b sz] C IH]; intros t; cbn [plug heap_ctx fill]; [tauto|..].
  - rewrite IH. cbn [heap cap]. tauto.
  - rewrite IH. cbn [heap cap]. tauto.
Qed.

Definition nodes (t : tree) : list Z := (flat t).*1.

Lemma nodes_node x l b sz r : nodes (Node x l b sz r) = nodes l ++ x :: nodes r.
Proof. unfold nodes. cbn [flat]. by rewrite fmap_app. Qed.

Lemma nodes_plug C t : nodes (plug C t) = (bef C).*1 ++ nodes t ++ (aft C).*1.
Proof. unfold nodes. by rewrite flat_plug, !fmap_app. Qed.

Lemma nodes_join l r : pos l -> pos r -> nodes (join l r) = nodes l ++ nodes r.
Proof. intros. unfold nodes. by rewrite flat_join, fmap_app. Qed.

Lemma nodes_sink x b sz l r : pos l -> pos r -> nodes (sink x b sz l r) = nodes l ++ x :: nodes r.
Proof. intros. unfold nodes. by rewrite flat_sink, fmap_app. Qed.

Lemma nodes_cut p t : nodes (cut p t).1 ++ nodes (cut p t).2 = nodes t.
Proof. unfold nodes. by rewrite <- fmap_app, flat_cut. Qed.

(** ** The order of the blocks *)

Definition lo (n : Z * (Z * Z)) : Z := n.2.1.
Definition hi (n : Z * (Z * Z)) : Z := n.2.1 + n.2.2.

(** [n] ends before [n'] begins, and does not touch it: neighbours are merged. *)
Definition apart (n n' : Z * (Z * Z)) : Prop := hi n < lo n'.
Definition ordered (L : list (Z * (Z * Z))) : Prop := StronglySorted apart L.
Definition byte (L : list (Z * (Z * Z))) (a : Z) : Prop := exists n, n ∈ L /\ lo n <= a < hi n.

Lemma ordered_mid L n R : ordered (L ++ n :: R) <-> ordered L /\ ordered R /\ (forall m, m ∈ L -> apart m n)
  /\ (forall m, m ∈ R -> apart n m) /\ (forall m m', m ∈ L -> m' ∈ R -> apart m m').
Proof.
  unfold ordered. rewrite StronglySorted_app, StronglySorted_cons, Forall_forall. setoid_rewrite elem_of_cons. split.
  - intros (H1 & H2 & H3 & H4). split_and!; eauto.
  - intros (H1 & H2 & H3 & H4 & H5). split_and!; try done. intros m m' Hm [->|Hm']; eauto.
Qed.

Lemma ordered_del L n R : ordered (L ++ n :: R) -> ordered (L ++ R).
Proof. rewrite ordered_mid. unfold ordered. rewrite StronglySorted_app. naive_solver. Qed.

Lemma byte_app L R a : byte (L ++ R) a <-> byte L a \/ byte R a.
Proof. unfold byte. setoid_rewrite elem_of_app. naive_solver. Qed.
Lemma byte_cons n L a : byte (n :: L) a <-> lo n <= a < hi n \/ byte L a.
Proof. unfold byte. setoid_rewrite elem_of_cons. naive_solver. Qed.
Lemma byte_nil a : byte [] a <-> False.
Proof. unfold byte. setoid_rewrite elem_of_nil. naive_solver. Qed.

(** What a tree of free blocks is. *)
Record good (t : tree) : Prop := {
  good_heap : heap (2 ^ 32) t;
  good_ordered : ordered (flat t);
  good_range : forall n, n ∈ flat t -> 0 <= lo n /\ hi n < 2 ^ 32
}.

Lemma heap_sizes w t n : heap w t -> n ∈ flat t -> 0 < n.2.2.
Proof.
  revert w. induction t as [|x l IHl b sz r IHr]; [by intros w _ ?%elem_of_nil|].
  intros w (Hs & Hl & Hr). cbn [flat]. rewrite elem_of_app, elem_of_cons. intros [?|[->|?]]; [eauto|cbn; lia|eauto].
Qed.

Lemma good_pos t : good t -> pos t.
Proof. intros [H _ _]. by eapply heap_pos. Qed.

Lemma pos_plug C t : pos (plug C t) -> pos t.
Proof. revert t. induction C as [|[] C IH]; intros t; [done|..]; cbn; intros H%IH; cbn in H; tauto. Qed.

(** Taking a node out of a good tree. *)
Lemma good_join C x l b sz r : good (plug C (Node x l b sz r)) -> good (plug C (join l r)).
Proof.
  intros G. pose proof (pos_plug _ _ (good_pos _ G)) as (_ & Pl & Pr). destruct G as [H1 H2 H3].
  apply heap_plug in H1 as (H1 & Hs & Hl & Hr). rewrite flat_plug in H2, H3. cbn [flat] in H2, H3.
  rewrite <- app_assoc in H2, H3. cbn [app] in H2, H3. split.
  - apply heap_plug. split; [done|]. apply heap_join; try done; (eapply heap_mono; [done|lia]).
  - rewrite flat_plug, flat_join, <- app_assoc, app_assoc by done. rewrite app_assoc in H2. by apply ordered_del in H2.
  - intros n. rewrite flat_plug, flat_join by done. intros Hn. apply H3. elems.
Qed.

(** A node that has shrunk within its block. *)
Lemma good_sink C x x' l b sz r b' sz' : good (plug C (Node x l b sz r)) -> b <= b' -> 0 < sz' -> b' + sz' <= b + sz ->
  good (plug C (sink x' b' sz' l r)).
Proof.
  intros G Hb Hs' He. pose proof (pos_plug _ _ (good_pos _ G)) as (_ & Pl & Pr). destruct G as [H1 H2 H3].
  apply heap_plug in H1 as (H1 & Hs & Hl & Hr). rewrite flat_plug in H2, H3. cbn [flat] in H2, H3.
  rewrite <- app_assoc in H2, H3. cbn [app] in H2, H3. split.
  - apply heap_plug. split; [done|]. apply heap_sink; try done; try lia; (eapply heap_mono; [done|lia]).
  - rewrite flat_plug, flat_sink, <- app_assoc, app_assoc by done. cbn [app]. rewrite app_assoc in H2.
    apply ordered_mid in H2 as (O1 & O2 & O3 & O4 & O5). apply ordered_mid. split_and!; try done.
    + intros m Hm. apply O3 in Hm. unfold apart, lo, hi in *. cbn in *. lia.
    + intros m Hm. apply O4 in Hm. unfold apart, lo, hi in *. cbn in *. lia.
  - intros n. rewrite flat_plug, flat_sink by done. intros Hn.
    assert (Hn' : n = (x', (b', sz')) \/ n ∈ bef C ++ flat l ++ (x, (b, sz)) :: flat r ++ aft C).
    { elems. }
    destruct Hn' as [->|Hn']; [|by apply H3]. specialize (H3 (x, (b, sz))). unfold lo, hi in *. cbn in *.
    assert (H : (x, (b, sz)) ∈ bef C ++ flat l ++ (x, (b, sz)) :: flat r ++ aft C) by elems.
    apply H3 in H. lia.
Qed.

(** ** The way to the place of a new block *)

Definition on_path (p len : Z) (f : frame) : Prop :=
  match f with FL _ b sz _ => p < b /\ len <= sz | FR _ _ b sz => b <= p /\ len <= sz end.

Lemma path_cap p len w C : Forall (on_path p len) C -> len <= w -> len <= cap w C.
Proof. intros [|[] C' H _] Hw; cbn in *; [done|lia|lia]. Qed.

(** No node begins at [p]: those before the place begin below it, the others above. *)
Lemma path_order p len C t : Forall (on_path p len) C -> ordered (flat (plug C t)) ->
  (forall n, n ∈ flat (plug C t) -> lo n <> p /\ 0 < n.2.2) ->
  (forall n, n ∈ bef C -> lo n < p) /\ (forall n, n ∈ aft C -> p < lo n).
Proof.
  intros HC. revert t. induction HC as [|f C Hf HC IH]; intros t O Hn; [by split; intros n ?%elem_of_nil|].
  cbn [plug] in *. destruct (IH _ O Hn) as [IH1 IH2]. rewrite flat_plug in O, Hn.
  apply StronglySorted_app in O as (_ & _ & O). apply StronglySorted_app in O as (_ & O & _).
  assert (Hn' : forall n, n ∈ flat (fill f t) -> lo n <> p /\ 0 < n.2.2).
  { intros n Hi. apply Hn. elems. }
  destruct f as [x b sz r|x l b sz]; cbn [fill flat bef aft on_path] in *; apply ordered_mid in O as (_ & _ & O1 & O2 & _).
  - split; [done|]. intros n. rewrite elem_of_cons, elem_of_app. intros [->|[Hi|Hi]]; [cbn; unfold lo; cbn; lia| |auto].
    assert (0 < sz) by (apply (Hn' (x, (b, sz))); elems).
    specialize (O2 n Hi). unfold apart, lo, hi in *. cbn in *. lia.
  - split; [|done]. intros n. rewrite !elem_of_app, list_elem_of_singleton.
    assert (0 < sz /\ b <> p) as [? ?].
    { destruct (Hn' (x, (b, sz))) as [? ?]; [elems|done]. }
    intros [Hi|[Hi| ->]]; [auto| |unfold lo; cbn; lia].
    assert (0 < n.2.2) by (apply (Hn' n); elems).
    specialize (O1 n Hi). unfold apart, lo, hi in *. cbn in *. lia.
Qed.

Lemma cut_order p t : ordered (flat t) -> (forall n, n ∈ flat t -> lo n <> p /\ 0 < n.2.2) ->
  (forall n, n ∈ flat (cut p t).1 -> lo n < p) /\ (forall n, n ∈ flat (cut p t).2 -> p < lo n).
Proof.
  induction t as [|x l IHl b sz r IHr]; intros O Hn; [by split; intros n ?%elem_of_nil|].
  cbn [flat] in *. apply ordered_mid in O as (Ol & Or & O1 & O2 & _).
  assert (0 < sz /\ b <> p) as [? ?].
  { destruct (Hn (x, (b, sz))) as [? ?]; [elems|done]. }
  assert (Hl : forall n, n ∈ flat l -> lo n < b).
  { intros n Hi. assert (0 < n.2.2) by (apply (Hn n); elems). specialize (O1 n Hi). unfold apart, lo, hi in *. cbn in *. lia. }
  assert (Hr : forall n, n ∈ flat r -> b < lo n).
  { intros n Hi. specialize (O2 n Hi). unfold apart, lo, hi in *. cbn in *. lia. }
  cbn [cut]. destruct (Z.ltb_spec b p); cbn [fst snd flat].
  - destruct (IHr Or) as [IH1 IH2]; [intros n Hi; apply Hn; elems|]. split; [|done].
    intros n. rewrite elem_of_app, elem_of_cons. intros [Hi%Hl|[->|Hi]]; [lia|unfold lo; cbn; lia|auto].
  - destruct (IHl Ol) as [IH1 IH2]; [intros n Hi; apply Hn; elems|]. split; [done|].
    intros n. rewrite elem_of_app, elem_of_cons. intros [Hi|[->|Hi%Hr]]; [auto|unfold lo; cbn; lia|lia].
Qed.

Lemma heap_wt w w' t : heap w t -> wt t <= w' -> heap w' t.
Proof. destruct t; cbn; intuition lia. Qed.

Lemma good_insert C t x p len : good (plug C t) -> Forall (on_path p len) C -> wt t < len ->
  0 < len -> 0 <= p -> p + len < 2 ^ 32 ->
  (forall n, n ∈ flat (plug C t) -> apart n (x, (p, len)) \/ apart (x, (p, len)) n) ->
  let t' := plug C (Node x (cut p t).1 p len (cut p t).2) in
  good t' /\ exists L R, flat (plug C t) = L ++ R /\ flat t' = L ++ (x, (p, len)) :: R.
Proof.
  intros [H1 H2 H3] HC Hw Hl Hp Hq Ha t'.
  assert (Hn : forall n, n ∈ flat (plug C t) -> lo n <> p /\ 0 < n.2.2).
  { intros n Hi. pose proof (heap_sizes _ _ _ H1 Hi). destruct (Ha n Hi); unfold apart, lo, hi in *; cbn in *; lia. }
  destruct (path_order _ _ _ _ HC H2 Hn) as [P1 P2].
  assert (Ot : ordered (flat t)).
  { rewrite flat_plug in H2. apply StronglySorted_app in H2 as (_ & _ & H2). apply StronglySorted_app in H2. tauto. }
  destruct (cut_order p t Ot) as [C1 C2]; [intros n Hi; apply Hn; rewrite flat_plug; elems|].
  set (L := bef C ++ flat (cut p t).1). set (R := flat (cut p t).2 ++ aft C).
  assert (E1 : flat (plug C t) = L ++ R).
  { unfold L, R. by rewrite flat_plug, <- (flat_cut p t), <- !app_assoc. }
  assert (E2 : flat t' = L ++ (x, (p, len)) :: R).
  { unfold t', L, R. rewrite flat_plug. cbn [flat]. by rewrite <- !app_assoc. }
  split; [|by exists L, R]. split.
  - apply heap_plug in H1 as [H1 Ht]. apply heap_plug. split; [done|].
    split; [split; [done|]; eapply path_cap; [done|lia]|]. apply heap_cut. eapply heap_wt; [done|lia].
  - rewrite E2. rewrite E1 in H2, Ha, Hn. apply StronglySorted_app in H2 as (O1 & O2 & O3). apply ordered_mid. split_and!; try done.
    + intros m Hm. assert (lo m < p) by (apply elem_of_app in Hm as [?|?]; auto).
      destruct (Ha m) as [|Hc]; [elems|done|]. unfold apart, lo, hi in *. cbn in *. lia.
    + intros m Hm. assert (p < lo m) by (apply elem_of_app in Hm as [?|?]; auto).
      destruct (Ha m) as [Hc|]; [elems| |done]. assert (0 < m.2.2) by (apply Hn; elems). unfold apart, lo, hi in *. cbn in *. lia.
  - intros n. rewrite E2. intros Hi. rewrite E1 in H3. assert (n = (x, (p, len)) \/ n ∈ L ++ R) as [->|Hi'] by elems; [|auto].
    unfold lo, hi. cbn. lia.
Qed.
