(* ===== verification/KmemStore.v ===== *)
(** * The store of the heap

    The loops of [Kmem] over the trees that the store holds ([rep]): what each
    leaves in the hook it was given, and that it writes no other link ([wrote]).
    Proofs go by induction on the trees; the fuel need only be the number of
    nodes. *)
From S2P Require Import Prelude Kmem KmemTree.

Definition owner (q : hook) : Z := match q with Root => 0 | Left x => x | Right x => x end.

#[export] Instance hook_eq_dec : EqDecision hook.
Proof. solve_decision. Defined.

Ltac mem := cbn [owner] in *; elems.

Section Store.
Context {K : Type}.
Implicit Types (k : kmem K) (q : hook) (t l r : tree).

(** ** Links *)

Definition dat k (x : Z) : option (Z * Z) := (fun h => (block h, size h)) <$> hdrs k !! x.
(** Only the links of [P] are written. *)
Record wrote (P : hook -> Prop) k k' : Prop := {
  wrote_ld : forall q, ~ P q -> ld k' q = ld k q;
  wrote_dat : forall x, dat k' x = dat k x;
  wrote_list : free_hdr_list k' = free_hdr_list k;
  wrote_ntf : need_to_free_list k' = need_to_free_list k;
  wrote_slots : need_to_free k' = need_to_free k;
  wrote_pages : pages k' = pages k
}.

Lemma wrote_refl P k : wrote P k k.
Proof. by split. Qed.

Lemma wrote_trans (P P1 P2 : hook -> Prop) k k1 k2 :
  wrote P1 k k1 -> wrote P2 k1 k2 -> (forall q, P1 q -> P q) -> (forall q, P2 q -> P q) -> wrote P k k2.
Proof.
  intros [A1 A2 A3 A4 A5 A6] [B1 B2 B3 B4 B5 B6] H1 H2. split; try congruence.
  intros q Hq. rewrite B1, A1; eauto.
Qed.

Lemma hdr_set_links k x h lb rb :
  hdrs k !! x = Some h ->
  let k' := k <| hdrs := <[x := Freehdr lb rb (block h) (size h)]> (hdrs k) |> in
  wrote (fun q => match q with Root => False | Left y => y = x /\ lb <> left h | Right y => y = x /\ rb <> right h end) k k'
  /\ ld k' (Left x) = Ok lb /\ ld k' (Right x) = Ok rb.
Proof.
  intros E k'. subst k'. split; [|by cbn; unfold hdr; cbn; rewrite lookup_insert_eq].
  split; try done.
  - intros [|y|y] Hy; cbn; unfold hdr; cbn; [done|..]; (destruct (decide (x = y)) as [<-|];
      [rewrite lookup_insert_eq, E|by rewrite lookup_insert_ne by done]); cbn; f_equal;
      apply dec_stable; naive_solver.
  - intros y. unfold dat. cbn. destruct (decide (x = y)) as [<-|]; [by rewrite lookup_insert_eq, E|by rewrite lookup_insert_ne].
Qed.

Lemma wrote_sub (P P' : hook -> Prop) k k' : wrote P k k' -> (forall q, P q -> P' q) -> wrote P' k k'.
Proof. intros [A1 A2 A3 A4 A5 A6] HP. split; eauto. Qed.

Lemma st_ok k q v v0 : ld k q = Ok v0 ->
  exists k', st k q v = Ok k' /\ wrote (fun q' => q' = q) k k' /\ ld k' q = Ok v.
Proof.
  destruct q as [|x|x]; cbn [ld st]; unfold hdr_set, hdr.
  - intros _. eexists. split; [done|]. split; [|done]. split; try done. intros [|y|y] Hy; done.
  - destruct (hdrs k !! x) as [h|] eqn:E; [|done]. intros _. eexists. split; [done|].
    destruct (hdr_set_links k x h v (right h) E) as (W & L & _). split; [|exact L].
    eapply wrote_sub; [exact W|]. intros [|y|y]; naive_solver.
  - destruct (hdrs k !! x) as [h|] eqn:E; [|done]. intros _. eexists. split; [done|].
    destruct (hdr_set_links k x h (left h) v E) as (W & _ & L). split; [|exact L].
    eapply wrote_sub; [exact W|]. intros [|y|y]; naive_solver.
Qed.

(** ** The trees *)

Fixpoint rep k t : Prop :=
  match t with
  | Leaf => True
  | Node x l b sz r => x <> 0 /\ hdrs k !! x = Some (Freehdr (ptr l) (ptr r) b sz) /\ rep k l /\ rep k r
  end.

Lemma lookup_links k x h : hdrs k !! x = Some h <->
  ld k (Left x) = Ok (left h) /\ ld k (Right x) = Ok (right h) /\ dat k x = Some (block h, size h).
Proof.
  cbn. unfold dat, hdr. destruct (hdrs k !! x) as [[l' r' b' s']|]; cbn; split; try naive_solver.
  destruct h; cbn. naive_solver.
Qed.

Lemma rep_wrote P k k' t : wrote P k k' -> (forall q, P q -> owner q ∉ nodes t) -> rep k t -> rep k' t.
Proof.
  intros W. induction t as [|x l IHl b sz r IHr]; [done|]. rewrite nodes_node.
  intros HP (Hx & Hh & Hl & Hr). split; [done|]. split; [|split].
  - apply lookup_links. apply lookup_links in Hh as (E1 & E2 & E3). rewrite <- E1, <- E2, <- E3.
    split; [|split]; [apply (wrote_ld _ _ _ W)|apply (wrote_ld _ _ _ W)|apply (wrote_dat _ _ _ W)]; intros Hq; apply HP in Hq; cbn in Hq; set_solver.
  - apply IHl; [|done]. intros q Hq. apply HP in Hq. set_solver.
  - apply IHr; [|done]. intros q Hq. apply HP in Hq. set_solver.
Qed.

Lemma rep_hdr k x l b sz r : rep k (Node x l b sz r) -> hdr k x = Ok (Freehdr (ptr l) (ptr r) b sz).
Proof. intros (_ & H & _). unfold hdr. by rewrite H. Qed.

Lemma rep_weight k t : rep k t -> weight k (ptr t) = Ok (wt t).
Proof.
  destruct t; [done|]. intros Hr. unfold weight. cbn [ptr]. rewrite (rep_hdr _ _ _ _ _ _ Hr).
  destruct Hr as (Hx & _). by rewrite (proj2 (Z.eqb_neq _ _) Hx).
Qed.

Lemma rep_ptr_in k t : rep k t -> t <> Leaf -> ptr t <> 0 /\ ptr t ∈ nodes t.
Proof. destruct t; [done|]. intros (Hx & _) _. rewrite nodes_node. cbn. set_solver. Qed.

Lemma rep_0 k t : rep k t -> 0 ∉ nodes t.
Proof.
  induction t as [|x l IHl b sz r IHr]; [by intros _ ?%elem_of_nil|]. intros (Hx & _ & Hl & Hr).
  rewrite nodes_node. apply IHl in Hl. apply IHr in Hr. set_solver.
Qed.

Lemma rep_dom k t : rep k t -> forall x, x ∈ nodes t -> is_Some (hdrs k !! x).
Proof.
  induction t as [|y l IHl b sz r IHr]; [by intros _ x ?%elem_of_nil|]. intros (_ & Hy & Hl & Hr) x.
  rewrite nodes_node, elem_of_app, elem_of_cons. intros [?|[->|?]]; eauto.
Qed.

Lemma rep_fuel k t : rep k t -> NoDup (nodes t) -> (count t < steps k)%nat.
Proof.
  intros Hr Hn. unfold steps, count. apply Nat.lt_succ_r.
  replace (length (flat t)) with (length (nodes t)) by (unfold nodes; by rewrite length_fmap).
  rewrite <- (size_dom (D := gset Z)), <- (size_list_to_set (C := gset Z)) by done. apply subseteq_size.
  intros x Hx%elem_of_list_to_set. apply elem_of_dom. by eapply rep_dom.
Qed.

(** ** The loops *)

Definition inside (q0 : hook) (ns : list Z) (q : hook) : Prop := q = q0 \/ owner q ∈ ns.

Lemma ptr_neq k l r : rep k l -> rep k r -> NoDup (nodes l ++ nodes r) -> l <> Leaf \/ r <> Leaf -> ptr l <> ptr r.
Proof.
  intros Hl Hr Hn Hne Heq. apply NoDup_app in Hn as (_ & Hd & _).
  destruct l as [|xl ll bl sl lr], r as [|xr rl br sr rr]; [naive_solver|by destruct Hr|by destruct Hl|].
  apply (Hd xl); rewrite nodes_node; [set_solver|]. cbn in Heq. subst. set_solver.
Qed.

Lemma ld_left k x l b sz r : rep k (Node x l b sz r) -> ld k (Left x) = Ok (ptr l).
Proof. intros H. cbn. by rewrite (rep_hdr _ _ _ _ _ _ H). Qed.
Lemma ld_right k x l b sz r : rep k (Node x l b sz r) -> ld k (Right x) = Ok (ptr r).
Proof. intros H. cbn. by rewrite (rep_hdr _ _ _ _ _ _ H). Qed.

(** A node of which only one link has changed. *)
Lemma rep_relink P k k' x l b sz r l' r' : rep k (Node x l b sz r) -> wrote P k k' ->
  ld k' (Left x) = Ok (ptr l') -> ld k' (Right x) = Ok (ptr r') -> rep k' l' -> rep k' r' -> rep k' (Node x l' b sz r').
Proof.
  intros (Hx & Hh & _) W L1 L2 R1 R2. split; [done|]. split; [|done]. apply lookup_links. cbn.
  apply lookup_links in Hh as (_ & _ & Hd). rewrite (wrote_dat _ _ _ W). by cbn in *.
Qed.

(** Facts of disjointness, from a list without duplicates. *)
Lemma nodup_l x (ll lr r : list Z) : NoDup ((ll ++ x :: lr) ++ r) ->
  NoDup (lr ++ r) /\ NoDup ll /\ x ∉ ll /\ x ∉ lr /\ x ∉ r /\ (forall y, y ∈ ll -> y ∉ lr /\ y ∉ r).
Proof.
  rewrite !NoDup_app, NoDup_cons. intros ((Hl & Hd & Hx & Hlr) & Hdr & Hr). setoid_rewrite elem_of_cons in Hd.
  setoid_rewrite elem_of_app in Hdr. setoid_rewrite elem_of_cons in Hdr. naive_solver.
Qed.
Lemma nodup_r x (l rl rr : list Z) : NoDup (l ++ rl ++ x :: rr) ->
  NoDup (l ++ rl) /\ NoDup rr /\ x ∉ l /\ x ∉ rl /\ x ∉ rr /\ (forall y, y ∈ rr -> y ∉ l /\ y ∉ rl).
Proof.
  rewrite !NoDup_app, NoDup_cons. intros (Hl & Hd & Hrl & Hd2 & Hx & Hrr). setoid_rewrite elem_of_app in Hd.
  setoid_rewrite elem_of_cons in Hd. setoid_rewrite elem_of_cons in Hd2. naive_solver.
Qed.

Lemma st_rep k q v v0 : ld k q = Ok v0 -> exists k', st k q v = Ok k' /\ wrote (fun q' => q' = q) k k'
  /\ ld k' q = Ok v /\ forall t, owner q ∉ nodes t -> rep k t -> rep k' t.
Proof.
  intros H. destruct (st_ok k q v v0 H) as (k' & E & W & L). exists k'. split_and!; try done.
  intros t Ht. eapply rep_wrote; [exact W|]. by intros ? ->.
Qed.

(** What a node is after the loop has gone on from its link. *)
Lemma lift_right P k k' q x l b sz r r' : rep k (Node x l b sz r) -> ld k q = Ok x -> wrote P k k' ->
  owner q <> x -> x ∉ nodes l ->
  (forall q', P q' -> q' = Right x \/ owner q' <> x /\ owner q' ∉ nodes l /\ q' <> q) ->
  ld k' (Right x) = Ok (ptr r') -> rep k' r' -> ld k' q = Ok x /\ rep k' (Node x l b sz r').
Proof.
  intros R L W Hq Hx HP L' R'. split.
  - rewrite (wrote_ld _ _ _ W); [done|]. intros [->|(_ & _ & ?)]%HP; done.
  - eapply rep_relink; [exact R|exact W| |done| |done].
    + rewrite (wrote_ld _ _ _ W); [by eapply ld_left|]. intros [|(? & _)]%HP; done.
    + eapply rep_wrote; [exact W| |apply R]. intros q' [->|(_ & ? & _)]%HP; done.
Qed.
Lemma lift_left P k k' q x l b sz r l' : rep k (Node x l b sz r) -> ld k q = Ok x -> wrote P k k' ->
  owner q <> x -> x ∉ nodes r ->
  (forall q', P q' -> q' = Left x \/ owner q' <> x /\ owner q' ∉ nodes r /\ q' <> q) ->
  ld k' (Left x) = Ok (ptr l') -> rep k' l' -> ld k' q = Ok x /\ rep k' (Node x l' b sz r).
Proof.
  intros R L W Hq Hx HP L' R'. split.
  - rewrite (wrote_ld _ _ _ W); [done|]. intros [->|(_ & _ & ?)]%HP; done.
  - eapply rep_relink; [exact R|exact W|done| |done|].
    + rewrite (wrote_ld _ _ _ W); [by eapply ld_right|]. intros [|(? & _)]%HP; done.
    + eapply rep_wrote; [exact W| |apply R]. intros q' [->|(_ & ? & _)]%HP; done.
Qed.

Lemma count_node x l b sz r : count (Node x l b sz r) = S (count l + count r).
Proof. unfold count. cbn. rewrite length_app. cbn. lia. Qed.

Lemma wrote_step q q1 (ns ns' : list Z) k k1 k2 : wrote (fun q' => q' = q) k k1 -> wrote (inside q1 ns) k1 k2 ->
  owner q1 ∈ ns' -> (forall y, y ∈ ns -> y ∈ ns') -> wrote (inside q ns') k k2.
Proof.
  intros W1 W2 H1 H2. eapply wrote_trans; [exact W1|exact W2|by left|]. intros q' [->|Hi]; right; eauto.
Qed.

Lemma inside_step q q1 (ns l : list Z) : owner q1 ∉ ns -> owner q ∉ ns -> (forall y, y ∈ l -> y ∉ ns) ->
  forall q', inside q1 ns q' -> q' = q1 \/ owner q' <> owner q1 /\ owner q' ∉ l /\ q' <> q.
Proof.
  intros H1 H2 H3 q' [->|Hi]; [by left|right]. split; [congruence|]. split; [|congruence].
  intros H%H3. done.
Qed.

Definition joined q l r : Prop := forall fuel k v, (count l + count r <= fuel)%nat ->
  rep k l -> rep k r -> NoDup (nodes l ++ nodes r) -> owner q ∉ nodes l ++ nodes r -> ld k q = Ok v ->
  exists k', join_loop fuel k q (ptr l) (ptr r) = Ok k' /\ wrote (inside q (nodes l ++ nodes r)) k k'
    /\ ld k' q = Ok (ptr (join l r)) /\ rep k' (join l r).

Lemma join_loop_ok l r : pos l -> pos r -> forall q, joined q l r.
Proof.
  revert l r. apply (edges_ind (fun l r => forall q, joined q l r)).
  - intros q fuel k v _ _ _ _ _ Hq. destruct (st_ok k q 0 v Hq) as (k' & E & W & L).
    exists k'. destruct fuel; cbn; (split; [done|]; split; [|done]; eapply wrote_sub; [exact W|]; by left).
  - intros xl ll bl sl lr r Hs Hw Pll Plr Pr IH q fuel k v Hf Rl Rr Hn Hq Lq.
    rewrite count_node in Hf. destruct fuel as [|fuel]; [lia|].
    cbn [join_loop]. rewrite (proj2 (Z.eqb_neq _ _)) by (eapply ptr_neq; eauto).
    rewrite (rep_weight k _ Rl), (rep_weight k _ Rr). cbn [obind wt]. rewrite (proj2 (Z.leb_le _ _)) by done.
    destruct (st_rep k q xl v Lq) as (k1 & E1 & W1 & L1 & R1). cbn [ptr]. rewrite E1. cbn [obind].
    apply not_elem_of_app in Hq as [Hql Hqr]. apply R1 in Rl as Rl1, Rr as Rr1; try done.
    rewrite (ld_right _ _ _ _ _ _ Rl1). cbn [obind]. rewrite nodes_node in *.
    destruct (nodup_l _ _ _ _ Hn) as (N1 & N2 & N3 & N4 & N5 & N6).
    destruct (IH (Right xl) fuel k1 (ptr lr)) as (k2 & E2 & W2 & L2 & R2); [lia|apply Rl1|done|done|mem|by eapply ld_right|].
    exists k2. split; [done|]. rewrite join_left by done. split.
    + eapply wrote_step; [exact W1|exact W2|cbn; mem|]. intros y. mem.
    + eapply lift_right; try done; [mem|]. apply (inside_step q (Right xl)); [mem|mem|]. intros y Hy%N6. mem.
  - intros l xr rl br sr rr Hs Hw Pl Prl Prr IH q fuel k v Hf Rl Rr Hn Hq Lq.
    rewrite count_node in Hf. destruct fuel as [|fuel]; [lia|].
    cbn [join_loop]. rewrite (proj2 (Z.eqb_neq _ _)) by (eapply ptr_neq; eauto).
    rewrite (rep_weight k _ Rl), (rep_weight k _ Rr). cbn [obind wt]. rewrite (proj2 (Z.leb_gt _ _)) by done.
    destruct (st_rep k q xr v Lq) as (k1 & E1 & W1 & L1 & R1). cbn [ptr]. rewrite E1. cbn [obind].
    apply not_elem_of_app in Hq as [Hql Hqr]. apply R1 in Rl as Rl1, Rr as Rr1; try done.
    rewrite (ld_left _ _ _ _ _ _ Rr1). cbn [obind]. rewrite nodes_node in *.
    destruct (nodup_r _ _ _ _ Hn) as (N1 & N2 & N3 & N4 & N5 & N6).
    destruct (IH (Left xr) fuel k1 (ptr rl)) as (k2 & E2 & W2 & L2 & R2); [lia|done|apply Rr1|done|mem|by eapply ld_left|].
    exists k2. split; [done|]. rewrite join_right by done. split.
    + eapply wrote_step; [exact W1|exact W2|cbn; mem|]. intros y. mem.
    + eapply lift_left; try done; [mem|]. apply (inside_step q (Left xr)); [mem|mem|]. intros y Hy%N6. mem.
Qed.

(** The end of [demote]. *)
Definition attach (x : Z) (d : kmem K * hook * Z * Z) : outcome (kmem K) :=
  let '(k, q, left_branch, right_branch) := d in
  let* k := st k q x in
  hdr_set k x (fun h => h <| left := left_branch |> <| right := right_branch |>).

Definition sunk x b sz q l r : Prop := forall fuel k v, (count l + count r <= fuel)%nat ->
  rep k l -> rep k r -> NoDup (x :: nodes l ++ nodes r) -> x <> 0 -> dat k x = Some (b, sz) ->
  owner q ∉ x :: nodes l ++ nodes r -> ld k q = Ok v ->
  exists k', obind (demote_loop fuel k q (ptr l) (ptr r) sz) (attach x) = Ok k'
    /\ wrote (inside q (x :: nodes l ++ nodes r)) k k' /\ ld k' q = Ok (ptr (sink x b sz l r)) /\ rep k' (sink x b sz l r).

Lemma attach_ok x b sz q l r k v : rep k l -> rep k r -> x ∉ nodes l ++ nodes r -> x <> 0 -> dat k x = Some (b, sz) ->
  owner q ∉ x :: nodes l ++ nodes r -> ld k q = Ok v ->
  exists k', attach x (k, q, ptr l, ptr r) = Ok k' /\ wrote (inside q [x]) k k' /\ ld k' q = Ok x
    /\ rep k' (Node x l b sz r).
Proof.
  intros Rl Rr Hx Hx0 Hd Hq Lq. unfold attach. destruct (st_rep k q x v Lq) as (k1 & E1 & W1 & L1 & R1).
  rewrite E1. cbn [obind]. unfold hdr_set, hdr. rewrite <- (wrote_dat _ _ _ W1) in Hd. unfold dat in Hd.
  destruct (hdrs k1 !! x) as [h|] eqn:E; [|done]. cbn in Hd. injection Hd as <- <-. cbn [deref obind].
  destruct (hdr_set_links k1 x h (ptr l) (ptr r) E) as (W2 & L2 & L3).
  eexists. split; [done|]. split; [|split].
  - eapply wrote_trans; [exact W1|exact W2|by left|]. intros [|y|y]; cbn; [done|..]; intros [-> _]; right; cbn; mem.
  - etrans; [|exact L1]. apply (wrote_ld _ _ _ W2). destruct q as [|y|y]; [tauto|..]; cbn in Hq; mem.
  - split; [done|]. split; [cbn; by rewrite lookup_insert_eq|]. rewrite elem_of_cons, elem_of_app in Hq.
    split; (eapply rep_wrote; [exact W2| |apply R1; [tauto|done]]); intros [|y|y]; cbn; try done; intros [-> _]; mem.
Qed.

Lemma sink_here x b sz q l r fuel k v : wt l <= sz -> wt r <= sz -> rep k l -> rep k r -> NoDup (x :: nodes l ++ nodes r) ->
  x <> 0 -> dat k x = Some (b, sz) -> owner q ∉ x :: nodes l ++ nodes r -> ld k q = Ok v ->
  exists k', obind (demote_loop fuel k q (ptr l) (ptr r) sz) (attach x) = Ok k'
    /\ wrote (inside q (x :: nodes l ++ nodes r)) k k' /\ ld k' q = Ok (ptr (sink x b sz l r)) /\ rep k' (sink x b sz l r).
Proof.
  intros Wl Wr Rl Rr [Hn _]%NoDup_cons Hx Hd Hq Lq. rewrite sink_stop by done.
  replace (demote_loop fuel k q (ptr l) (ptr r) sz) with (Ok (k, q, ptr l, ptr r)).
  - cbn [obind]. destruct (attach_ok x b sz q l r k v) as (k' & E & W & L & R); try done.
    exists k'. split; [done|]. split; [|done]. eapply wrote_sub; [exact W|]. intros q' [->|Hi]; [by left|right]. mem.
  - destruct fuel; cbn [demote_loop]; rewrite (rep_weight k l), (rep_weight k r) by done; cbn [obind];
      by rewrite !(proj2 (Z.ltb_ge _ _)).
Qed.

Lemma sink_loop_ok x b sz l r : 0 < sz -> pos l -> pos r -> forall q, sunk x b sz q l r.
Proof.
  intros Hsz. revert l r. apply (edges_ind (fun l r => forall q, sunk x b sz q l r)).
  - intros q fuel k v _ Rl Rr Hn Hx0 Hd Hq Lq. eapply sink_here; try done; cbn; lia.
  - intros xl ll bl sl lr r Hs Hw Pll Plr Pr IH q fuel k v Hf Rl Rr Hn Hx0 Hd Hq Lq.
    destruct (Z.lt_ge_cases sz sl) as [Hlt|Hge]; [|eapply sink_here; try done; cbn; lia].
    rewrite count_node in Hf. destruct fuel as [|fuel]; [lia|]. rewrite sink_left by done.
    cbn [demote_loop]. rewrite (rep_weight k _ Rl), (rep_weight k _ Rr). cbn [obind wt].
    rewrite (proj2 (Z.ltb_lt _ _)) by done. cbn [orb]. rewrite (proj2 (Z.leb_le _ _)) by done.
    destruct (st_rep k q xl v Lq) as (k1 & E1 & W1 & L1 & R1). cbn [ptr]. rewrite E1. cbn [obind].
    rewrite elem_of_cons, elem_of_app in Hq. apply NoDup_cons in Hn as [Hxn Hn].
    apply R1 in Rl as Rl1, Rr as Rr1; [|tauto..].
    rewrite (ld_right _ _ _ _ _ _ Rl1). cbn [obind]. rewrite nodes_node in *.
    destruct (nodup_l _ _ _ _ Hn) as (N1 & N2 & N3 & N4 & N5 & N6).
    destruct (IH (Right xl) fuel k1 (ptr lr)) as (k2 & E2 & W2 & L2 & R2);
      [lia|apply Rl1|done|constructor; [mem|done]|done|by rewrite (wrote_dat _ _ _ W1)|mem|by eapply ld_right|].
    exists k2. split; [done|]. split.
    + eapply wrote_step; [exact W1|exact W2|mem|]. intros y. mem.
    + eapply lift_right; try done; [mem|]. apply (inside_step q (Right xl)); [mem|mem|]. intros y Hy. apply N6 in Hy as Hy'. mem.
  - intros l xr rl br sr rr Hs Hw Pl Prl Prr IH q fuel k v Hf Rl Rr Hn Hx0 Hd Hq Lq.
    destruct (Z.lt_ge_cases sz sr) as [Hlt|Hge]; [|eapply sink_here; try done; cbn; lia].
    rewrite count_node in Hf. destruct fuel as [|fuel]; [lia|]. rewrite sink_right by done.
    cbn [demote_loop]. rewrite (rep_weight k _ Rl), (rep_weight k _ Rr). cbn [obind wt].
    rewrite (proj2 (Z.ltb_lt sz sr)), orb_true_r by done. rewrite (proj2 (Z.leb_gt _ _)) by done.
    destruct (st_rep k q xr v Lq) as (k1 & E1 & W1 & L1 & R1). cbn [ptr]. rewrite E1. cbn [obind].
    rewrite elem_of_cons, elem_of_app in Hq. apply NoDup_cons in Hn as [Hxn Hn].
    apply R1 in Rl as Rl1, Rr as Rr1; [|tauto..].
    rewrite (ld_left _ _ _ _ _ _ Rr1). cbn [obind]. rewrite nodes_node in *.
    destruct (nodup_r _ _ _ _ Hn) as (N1 & N2 & N3 & N4 & N5 & N6).
    destruct (IH (Left xr) fuel k1 (ptr rl)) as (k2 & E2 & W2 & L2 & R2);
      [lia|done|apply Rr1|constructor; [mem|done]|done|by rewrite (wrote_dat _ _ _ W1)|mem|by eapply ld_left|].
    exists k2. split; [done|]. split.
    + eapply wrote_step; [exact W1|exact W2|mem|]. intros y. mem.
    + eapply lift_left; try done; [mem|]. apply (inside_step q (Left xr)); [mem|mem|]. intros y Hy. apply N6 in Hy as Hy'. mem.
Qed.

Lemma cut_loop_ok p t : forall fuel k lh rh vl vr, (count t <= fuel)%nat -> rep k t -> NoDup (nodes t) ->
  owner lh ∉ nodes t -> owner rh ∉ nodes t -> lh <> rh -> ld k lh = Ok vl -> ld k rh = Ok vr ->
  exists k', cut_loop fuel k (ptr t) lh rh p = Ok k' /\ wrote (fun q => q = lh \/ inside rh (nodes t) q) k k'
    /\ ld k' lh = Ok (ptr (cut p t).1) /\ ld k' rh = Ok (ptr (cut p t).2) /\ rep k' (cut p t).1 /\ rep k' (cut p t).2.
Proof.
  induction t as [|x l IHl b sz r IHr]; intros fuel k lh rh vl vr Hf Rt Hn Hlh Hrh Hne Ll Lr.
  - destruct (st_ok k rh 0 vr Lr) as (k1 & E1 & W1 & L1). rewrite <- (wrote_ld _ _ _ W1) in Ll by done.
    destruct (st_ok k1 lh 0 vl Ll) as (k2 & E2 & W2 & L2). exists k2. cbn [ptr cut fst snd].
    assert (H : (let* k := st k rh 0 in st k lh 0) = Ok k2) by (rewrite E1; done). split.
    { destruct fuel; exact H. }
    split; [|split; [done|]; split; [|done]].
    + eapply wrote_trans; [exact W1|exact W2| |by left]. right. by left.
    + rewrite (wrote_ld _ _ _ W2); done.
  - rewrite count_node in Hf. destruct fuel as [|fuel]; [lia|]. destruct Rt as (Hx0 & Hh & Rl & Rr) eqn:HR. clear HR.
    cbn [cut_loop ptr]. rewrite (proj2 (Z.eqb_neq _ _)) by done. rewrite (rep_hdr _ _ _ _ _ _ Rt). cbn [obind block].
    rewrite nodes_node in *. pose proof Hn as (N1 & N2 & [N3 N4]%NoDup_cons)%NoDup_app. cbn [cut].
    destruct (b <? p); cbn [fst snd].
    + destruct (st_rep k lh x vl Ll) as (k1 & E1 & W1 & L1 & R1). rewrite E1. cbn [obind].
      assert (Rt1 : rep k1 (Node x l b sz r)) by (apply R1; [by rewrite nodes_node|done]).
      rewrite (ld_right _ _ _ _ _ _ Rt1). cbn [obind].
      destruct (IHr fuel k1 (Right x) rh (ptr r) vr) as (k2 & E2 & W2 & L2 & L3 & R2 & R3);
        [lia|apply Rt1|done|mem|mem|cbn in *; intros <-; mem|by eapply ld_right|by rewrite (wrote_ld _ _ _ W1)|].
      exists k2. split; [done|]. split.
      * eapply wrote_trans; [exact W1|exact W2|by left|]. intros q' [->|[->|Hi]]; right; [right|by left|right]; mem.
      * assert (ld k2 lh = Ok x /\ rep k2 (Node x l b sz (cut p r).1)) as [? ?]; [|done].
        eapply lift_right; try done; [mem|specialize (N2 x); mem|].
        intros q' [->|[->|Hi]]; [by left|right; mem|right]. specialize (N2 (owner q')). mem.
    + destruct (st_rep k rh x vr Lr) as (k1 & E1 & W1 & L1 & R1). rewrite E1. cbn [obind].
      assert (Rt1 : rep k1 (Node x l b sz r)) by (apply R1; [by rewrite nodes_node|done]).
      rewrite (ld_left _ _ _ _ _ _ Rt1). cbn [obind].
      destruct (IHl fuel k1 lh (Left x) vl (ptr l)) as (k2 & E2 & W2 & L2 & L3 & R2 & R3);
        [lia|apply Rt1|done|mem|specialize (N2 x); mem|cbn in *; intros ->; mem|by rewrite (wrote_ld _ _ _ W1)|by eapply ld_left|].
      exists k2. split; [done|]. split.
      * eapply wrote_trans; [exact W1|exact W2|right; by left|]. intros q' [->|[->|Hi]]; [by left|right; right; mem|right; right; mem].
      * assert (ld k2 rh = Ok x /\ rep k2 (Node x (cut p l).2 b sz r)) as [? ?]; [|done].
        eapply lift_left; try done; [mem|].
        intros q' [->|[->|Hi]]; [right; mem|by left|right]. specialize (N2 (owner q')). mem.
Qed.

End Store.
