(* ===== verification/KmemOps.v ===== *)
(** * The operations on the tree of free blocks

    Contexts in the store, and what [insert], [delete], [demote] and the searches
    of [Kmem] do to the tree that the root points to ([holds]). *)
From S2P Require Import Prelude Kmem KmemTree KmemStore.

Definition hookof (C : list frame) : hook :=
  match C with [] => Root | FL x _ _ _ :: _ => Left x | FR x _ _ _ :: _ => Right x end.
Definition ctx_nodes (C : list frame) : list Z := (bef C).*1 ++ (aft C).*1.

Section Ops.
Context {K : Type}.
Implicit Types (k : kmem K) (q : hook) (t l r : tree) (C : list frame).

(** ** Contexts in the store *)

(** The tree under the root. *)
Record holds k t : Prop := {
  holds_root : free_root k = ptr t;
  holds_rep : rep k t;
  holds_nodup : NoDup (nodes t)
}.

Lemma nodup_plug C t : NoDup (nodes (plug C t)) <->
  NoDup (ctx_nodes C) /\ NoDup (nodes t) /\ forall y, y ∈ nodes t -> y ∉ ctx_nodes C.
Proof.
  rewrite nodes_plug. unfold ctx_nodes. rewrite (Permutation_app_comm (nodes t)), app_assoc, NoDup_app.
  split; [intros (H1 & H2 & H3)|intros (H1 & H2 & H3)]; (split; [done|split]); try done; intros y Hy Hc; [by eapply H2|by eapply H3].
Qed.

Lemma rep_plug k C t : rep k (plug C t) -> rep k t.
Proof. revert t. induction C as [|[x b sz r|x l b sz] C IH]; intros t H; [done|..]; apply IH in H; cbn in H; apply H. Qed.

Lemma ctx_left x b sz r C y : y ∈ ctx_nodes (FL x b sz r :: C) <-> y = x \/ y ∈ nodes r \/ y ∈ ctx_nodes C.
Proof. unfold ctx_nodes, nodes. cbn. rewrite fmap_app. repeat (progress rewrite ?elem_of_app, ?elem_of_cons). tauto. Qed.
Lemma ctx_right x l b sz C y : y ∈ ctx_nodes (FR x l b sz :: C) <-> y = x \/ y ∈ nodes l \/ y ∈ ctx_nodes C.
Proof.
  unfold ctx_nodes, nodes. cbn. rewrite !fmap_app. cbn. repeat (progress rewrite ?elem_of_app, ?elem_of_cons, ?elem_of_nil). tauto.
Qed.

Lemma hookof_in C : hookof C = Root \/ owner (hookof C) ∈ ctx_nodes C.
Proof. destruct C as [|[x b sz r|x l b sz] C]; [by left|right..]; [apply ctx_left|apply ctx_right]; by left. Qed.

(** What a hook holds. *)
Lemma focus k C t : holds k (plug C t) ->
  ld k (hookof C) = Ok (ptr t) /\ rep k t /\ NoDup (nodes t) /\ owner (hookof C) ∉ nodes t.
Proof.
  intros [H1 H2 H3]. apply nodup_plug in H3 as (N1 & N2 & N3). pose proof (rep_plug _ _ _ H2) as Rt.
  split; [|split; [done|split; [done|]]].
  - destruct C as [|[x b sz r|x l b sz] C]; cbn [plug fill] in *; [by rewrite <- H1|..]; apply rep_plug in H2.
    + by eapply ld_left.
    + by eapply ld_right.
  - intros Hi. destruct (hookof_in C) as [E|E].
    + rewrite E in Hi. by eapply rep_0.
    + by eapply N3.
Qed.

(** What a loop that worked below a hook has done to the whole tree. *)
Lemma refocus P k k' C t' : forall t, holds k (plug C t) -> wrote P k k' ->
  (forall q, P q -> q = hookof C \/ q <> Root /\ owner q ∉ ctx_nodes C) ->
  ld k' (hookof C) = Ok (ptr t') -> rep k' t' -> rep k' (plug C t') /\ free_root k' = ptr (plug C t').
Proof.
  revert t'. induction C as [|[x b sz r|x l b sz] C IH]; intros t' t Hh W HP L R.
  - split; [done|]. cbn in L |- *. congruence.
  - cbn [plug fill] in Hh. pose proof (focus _ _ _ Hh) as (Lh & Hr & Hn & Ho). cbn [ptr] in Lh.
    pose proof (holds_nodup _ _ Hh) as (N1 & _ & N3)%nodup_plug. rewrite nodes_node in *.
    assert (Hx : x ∉ ctx_nodes C) by (apply N3; mem).
    apply NoDup_app in Hn as (_ & _ & [Hxr _]%NoDup_cons).
    apply (IH (Node x t' b sz r) (Node x t b sz r)); try done.
    + intros q [->|[H1 H2]]%HP; right; [done|]. split; [done|]. rewrite ctx_left in H2. tauto.
    + rewrite (wrote_ld _ _ _ W); [done|]. intros [E|[E1 E2]]%HP; destruct (hookof_in C) as [F|F];
        [by rewrite E in F|by rewrite E in F|done|]. rewrite ctx_left in E2. tauto.
    + eapply rep_relink; [exact Hr|exact W|done| |done|].
      * rewrite (wrote_ld _ _ _ W); [by eapply ld_right|]. intros [?|[_ E]]%HP; [done|]. apply E. rewrite ctx_left. by left.
      * eapply rep_wrote; [exact W| |apply Hr]. intros q [->|[_ E]]%HP; [done|rewrite ctx_left in E; tauto].
  - cbn [plug fill] in Hh. pose proof (focus _ _ _ Hh) as (Lh & Hr & Hn & Ho). cbn [ptr] in Lh.
    pose proof (holds_nodup _ _ Hh) as (N1 & _ & N3)%nodup_plug. rewrite nodes_node in *.
    assert (Hx : x ∉ ctx_nodes C) by (apply N3; mem).
    apply NoDup_app in Hn as (_ & Hxl & _).
    apply (IH (Node x l b sz t') (Node x l b sz t)); try done.
    + intros q [->|[H1 H2]]%HP; right; [done|]. split; [done|]. rewrite ctx_right in H2. tauto.
    + rewrite (wrote_ld _ _ _ W); [done|]. intros [E|[E1 E2]]%HP; destruct (hookof_in C) as [F|F];
        [by rewrite E in F|by rewrite E in F|done|]. rewrite ctx_right in E2. tauto.
    + eapply rep_relink; [exact Hr|exact W| |done| |done].
      * rewrite (wrote_ld _ _ _ W); [by eapply ld_left|]. intros [?|[_ E]]%HP; [done|]. apply E. rewrite ctx_right. by left.
      * eapply rep_wrote; [exact W| |apply Hr]. intros q [->|[_ E]]%HP; [|rewrite ctx_right in E; tauto].
        cbn. intros F. apply (Hxl x); [done|]. mem.
Qed.

Lemma holds_refocus k k' C t t' (ns : list Z) : holds k (plug C t) -> wrote (inside (hookof C) ns) k k' ->
  (forall y, y ∈ ns -> y ∉ ctx_nodes C) -> (forall q, owner q ∈ ns -> q <> Root) ->
  ld k' (hookof C) = Ok (ptr t') -> rep k' t' -> NoDup (nodes t') -> (forall y, y ∈ nodes t' -> y ∉ ctx_nodes C) ->
  holds k' (plug C t').
Proof.
  intros Hh W Hns H0 L R Hn Hd.
  destruct (refocus _ k k' C t' t Hh W) as [H1 H2]; [|done|done|].
  - intros q [->|Hi]; [by left|right]. eauto.
  - split; [done|done|]. apply nodup_plug. destruct Hh as [_ _ (N1 & _ & _)%nodup_plug]. done.
Qed.

(** ** Free headers *)

(** The headers that are chained from [y] by their left links. *)
Fixpoint chain (m : gmap Z freehdr) (y : Z) (F : list Z) : Prop :=
  match F with
  | [] => y = 0
  | z :: F => y = z /\ z <> 0 /\ exists h, m !! z = Some h /\ chain m (left h) F
  end.

Lemma chain_ext m m' y F : (forall z, z ∈ F -> m' !! z = m !! z) -> chain m y F -> chain m' y F.
Proof.
  revert y. induction F as [|z F IH]; intros y Hm; [done|]. intros (-> & Hz & h & Hh & Hc). split; [done|]. split; [done|].
  exists h. rewrite Hm by mem. split; [done|]. apply IH; [|done]. intros z' Hz'. apply Hm. mem.
Qed.

Lemma chain_0 m y F : chain m y F -> 0 ∉ F.
Proof.
  revert y. induction F as [|z F IH]; intros y; [by intros _ ?%elem_of_nil|]. intros (-> & Hz & h & _ & Hc%IH). mem.
Qed.

(** Nodes and free headers do not overlap. *)
Record state k t (F : list Z) : Prop := {
  state_holds : holds k t;
  state_chain : chain (hdrs k) (free_hdr_list k) F;
  state_nodup : NoDup (nodes t ++ F)
}.

(** What the operations on the tree leave alone: which headers there are, the
    headers that are neither nodes nor free, the blocks that wait, the pages. *)
Record quiet k k' : Prop := {
  quiet_dom : forall y, is_Some (hdrs k' !! y) <-> is_Some (hdrs k !! y);
  quiet_ntf : need_to_free_list k' = need_to_free_list k;
  quiet_slots : need_to_free k' = need_to_free k;
  quiet_pages : pages k' = pages k
}.

Lemma quiet_refl k : quiet k k.
Proof. done. Qed.
Lemma quiet_trans k k1 k2 : quiet k k1 -> quiet k1 k2 -> quiet k k2.
Proof. intros [A1 A2 A3 A4] [B1 B2 B3 B4]. split; try congruence. intros y. by rewrite B1. Qed.

Lemma wrote_quiet P k k' : wrote P k k' -> quiet k k'.
Proof.
  intros [_ W _ H1 H2 H3]. split; try done. intros y. specialize (W y). unfold dat in W.
  destruct (hdrs k' !! y), (hdrs k !! y); cbn in W; try done; split; intros [? ?]; done.
Qed.

Lemma wrote_hdrs P k k' y : wrote P k k' -> (forall q, P q -> owner q <> y) -> hdrs k' !! y = hdrs k !! y.
Proof.
  intros W HP. pose proof (wrote_dat _ _ _ W y) as Hd.
  destruct (hdrs k !! y) as [h|] eqn:E; [|unfold dat in Hd; rewrite E in Hd; by destruct (hdrs k' !! y)].
  apply lookup_links in E as (E1 & E2 & E3). apply lookup_links. rewrite Hd, <- E1, <- E2. split; [|split; [|done]].
  - apply (wrote_ld _ _ _ W). by intros ?%HP.
  - apply (wrote_ld _ _ _ W). by intros ?%HP.
Qed.

Lemma owner_hookof k C t : holds k (plug C t) -> hookof C = Root \/ owner (hookof C) ∈ nodes (plug C t).
Proof.
  intros _. destruct (hookof_in C) as [?|H]; [by left|right]. rewrite nodes_plug. unfold ctx_nodes in H. mem.
Qed.

(** The loops keep the free headers. *)
Lemma wrote_chain k k' t t' F (ns : list Z) C s : t = plug C s -> state k t F -> wrote (inside (hookof C) ns) k k' ->
  (forall y, y ∈ ns -> y ∉ F) -> holds k' t' -> (forall y, y ∈ nodes t' -> y ∉ F) -> state k' t' F.
Proof.
  intros -> [H1 H2 H3] W Hns H' Hp. apply NoDup_app in H3 as (N1 & N2 & N3).
  split; [done| |].
  - rewrite (wrote_list _ _ _ W). eapply chain_ext; [|exact H2]. intros z Hz. eapply wrote_hdrs; [exact W|].
    intros q [->|Hi] Ho; [|by subst; eapply Hns]. destruct (owner_hookof _ _ _ H1) as [E|E].
    + rewrite E in Ho. cbn in Ho. subst. by eapply chain_0.
    + apply (N2 z); [by subst|done].
  - apply NoDup_app. split; [apply H'|]. done.
Qed.
Lemma wrote_state k k' t t' F (ns : list Z) C s : t = plug C s -> state k t F -> wrote (inside (hookof C) ns) k k' ->
  (forall y, y ∈ ns -> y ∈ nodes t) -> holds k' t' -> (forall y, y ∈ nodes t' -> y ∈ nodes t) -> state k' t' F.
Proof.
  intros -> S W Hns H' Hp. pose proof (state_nodup _ _ _ S) as (N1 & N2 & N3)%NoDup_app.
  eapply wrote_chain; try done; auto.
Qed.

(** ** [delete] and [demote] *)

Lemma free_hdr_ok k t F x : state k t F -> x <> 0 -> x ∉ nodes t ++ F -> is_Some (hdrs k !! x) ->
  exists k', free_hdr k x = Ok k' /\ state k' t (x :: F) /\ quiet k k' /\ (forall y, y <> x -> hdrs k' !! y = hdrs k !! y).
Proof.
  intros [[H1 H2 H3] Hc Hn] Hx Hxn [h Hh]. unfold free_hdr, hdr_set, hdr. rewrite Hh. cbn [deref obind].
  eexists. split; [done|]. split_and!.
  - split; [split; [done| |done]| |].
    + clear -H2 Hxn. induction t as [|y l IHl b sz r IHr]; [done|]. destruct H2 as (Hy & E & Rl & Rr).
      rewrite nodes_node in Hxn. split; [done|]. cbn. rewrite lookup_insert_ne by (intros <-; mem).
      split; [done|]. split; [apply IHl; [done|mem]|apply IHr; [done|mem]].
    + split; [done|]. split; [done|]. eexists. split; [cbn; apply lookup_insert_eq|]. cbn.
      eapply chain_ext; [|exact Hc]. intros z Hz. apply lookup_insert_ne. intros <-. mem.
    + apply NoDup_app in Hn as (N1 & N2 & N3). apply NoDup_app. split; [done|].
      split; [|constructor; [mem|done]]. intros y Hy. specialize (N2 y Hy). rewrite elem_of_cons.
      intros [->|?]; [mem|done].
  - split; try done. intros y. cbn. destruct (decide (x = y)) as [<-|].
    + rewrite lookup_insert_eq, Hh. split; eauto.
    + by rewrite lookup_insert_ne.
  - intros y Hy. cbn. by rewrite lookup_insert_ne.
Qed.

Lemma steps_fuel k C t : holds k (plug C t) -> (count t < steps k)%nat.
Proof. intros H. destruct (focus _ _ _ H) as (_ & R & N & _). by apply rep_fuel. Qed.

(** [x] is not the node of a hook below which it is. *)
Lemma focus_node k C x l b sz r : holds k (plug C (Node x l b sz r)) ->
  ld k (hookof C) = Ok x /\ hdr k x = Ok (Freehdr (ptr l) (ptr r) b sz) /\ x <> 0 /\ rep k l /\ rep k r
  /\ NoDup (x :: nodes l ++ nodes r) /\ owner (hookof C) ∉ x :: nodes l ++ nodes r
  /\ (forall y, y ∈ x :: nodes l ++ nodes r -> y ∉ ctx_nodes C) /\ (forall q, owner q ∈ x :: nodes l ++ nodes r -> q <> Root)
  /\ (count l + count r <= steps k)%nat.
Proof.
  intros H. pose proof (steps_fuel _ _ _ H) as Hf. rewrite count_node in Hf.
  destruct (focus _ _ _ H) as (L & R & N & O). pose proof (rep_0 _ _ R) as H0.
  pose proof (rep_hdr _ _ _ _ _ _ R) as Hh. destruct R as (Hx & _ & Rl & Rr).
  destruct H as [_ _ (_ & _ & N3)%nodup_plug]. rewrite nodes_node in N, O, H0, N3.
  assert (P : nodes l ++ x :: nodes r ≡ₚ x :: nodes l ++ nodes r) by (by rewrite Permutation_middle).
  rewrite P in N, O, H0. split_and!; try done; [| |lia].
  - intros y Hy. apply N3. by rewrite P.
  - intros q Hq ->. done.
Qed.

Lemma delete_ok k C x l b sz r F : state k (plug C (Node x l b sz r)) F -> pos (Node x l b sz r) ->
  exists k', delete k (hookof C) = Ok k' /\ state k' (plug C (join l r)) (x :: F) /\ quiet k k'.
Proof.
  intros S (_ & Pl & Pr). pose proof (state_holds _ _ _ S) as H.
  destruct (focus_node _ _ _ _ _ _ _ H) as (L & Hh & Hx & Rl & Rr & N & O & D & Z0 & Hf).
  unfold delete. rewrite L. cbn [obind]. rewrite Hh. cbn [obind left right].
  pose proof N as [Nx Nlr]%NoDup_cons.
  destruct (join_loop_ok l r Pl Pr (hookof C) (steps k) k x) as (k1 & E1 & W1 & L1 & R1); try done; [mem|].
  rewrite E1. cbn [obind].
  assert (H1 : holds k1 (plug C (join l r))).
  { eapply (holds_refocus k k1 C (Node x l b sz r)); try done; rewrite ?nodes_join by done; try done.
    - intros y Hy. apply D. mem.
    - intros q Hq. apply Z0. mem.
    - intros y Hy. apply D. mem. }
  assert (S1 : state k1 (plug C (join l r)) F).
  { eapply wrote_state; [reflexivity|exact S|exact W1| |done|]; intros y; rewrite !nodes_plug, ?nodes_join, ?nodes_node by done; mem. }
  pose proof (wrote_quiet _ _ _ W1) as Q1.
  destruct (free_hdr_ok k1 _ F x S1 Hx) as (k2 & E2 & S2 & Q2 & _).
  - destruct S as [_ _ (M1 & M2 & M3)%NoDup_app]. specialize (M2 x). specialize (D x).
    rewrite nodes_plug, nodes_join by done. rewrite nodes_plug, nodes_node in M2. unfold ctx_nodes in D. mem.
  - apply (quiet_dom _ _ Q1). unfold hdr in Hh. destruct (hdrs k !! x); done.
  - exists k2. split; [done|]. split; [done|]. by eapply quiet_trans.
Qed.

Lemma demote_ok k C x l b sz r F : state k (plug C (Node x l b sz r)) F -> 0 < sz -> pos l -> pos r ->
  exists k', demote k (hookof C) = Ok k' /\ state k' (plug C (sink x b sz l r)) F /\ quiet k k'
    /\ forall y, y ∉ nodes (plug C (Node x l b sz r)) -> y <> 0 -> hdrs k' !! y = hdrs k !! y.
Proof.
  intros S Hsz Pl Pr. pose proof (state_holds _ _ _ S) as H.
  destruct (focus_node _ _ _ _ _ _ _ H) as (L & Hh & Hx & Rl & Rr & N & O & D & Z0 & Hf).
  unfold demote. rewrite L. cbn [obind]. rewrite Hh. cbn [obind left right].
  assert (Hw : weight k x = Ok sz). { unfold weight. rewrite (proj2 (Z.eqb_neq _ _)) by done. by rewrite Hh. }
  rewrite Hw. cbn [obind].
  assert (Hd : dat k x = Some (b, sz)). { unfold hdr, dat in *. destruct (hdrs k !! x); cbn in *; [|done]. by injection Hh as ->. }
  destruct (sink_loop_ok x b sz l r Hsz Pl Pr (hookof C) (steps k) k x) as (k1 & E1 & W1 & L1 & R1); try done.
  exists k1. split; [exact E1|].
  assert (P : nodes (sink x b sz l r) ≡ₚ x :: nodes l ++ nodes r) by (rewrite nodes_sink by done; by rewrite Permutation_middle).
  assert (H1 : holds k1 (plug C (sink x b sz l r))).
  { eapply (holds_refocus k k1 C (Node x l b sz r)); try done; [by rewrite P|]. intros y. rewrite P. apply D. }
  split; [|split; [by eapply wrote_quiet|]].
  - eapply wrote_state; [reflexivity|exact S|exact W1| |done|].
    + intros y Hy. rewrite nodes_plug, nodes_node. mem.
    + intros y. rewrite !nodes_plug, !elem_of_app, P, nodes_node. mem.
  - intros y Hy Hy0. eapply wrote_hdrs; [exact W1|]. intros q [->|Hi] <-.
    + destruct (owner_hookof _ _ _ H) as [E|E]; [by rewrite E in Hy0|done].
    + rewrite nodes_plug, nodes_node in Hy. mem.
Qed.

(** ** [insert] *)

Definition hput k x h : kmem K := k <| hdrs := <[x := h]> (hdrs k) |>.

Lemma state_hput k t F x h : state k t F -> x ∉ nodes t ++ F -> state (hput k x h) t F.
Proof.
  intros [[H1 H2 H3] Hc Hn] Hx. split; [split; [done| |done]| |done].
  - clear -H2 Hx. induction t as [|y l IHl b sz r IHr]; [done|]. destruct H2 as (Hy & E & Rl & Rr).
    rewrite nodes_node in Hx. split; [done|]. cbn. rewrite lookup_insert_ne by (intros <-; mem).
    split; [done|]. split; [apply IHl; [done|mem]|apply IHr; [done|mem]].
  - cbn. eapply chain_ext; [|exact Hc]. intros z Hz. apply lookup_insert_ne. intros <-. mem.
Qed.

(** Writing a hook of another header, and the header. *)
Lemma wrote_hput P k k' x h : wrote P k k' -> (forall q, P q -> owner q <> x) -> wrote P (hput k x h) (hput k' x h).
Proof.
  intros W HP. pose proof (fun y Hy => wrote_hdrs P k k' y W Hy) as Wh. destruct W as [W1 W2 W3 W4 W5 W6]. split; try done.
  - intros [|y|y] Hq; [exact (W1 Root Hq)|..]; cbn; unfold hdr; cbn; (destruct (decide (x = y)) as [->|];
      [by rewrite !lookup_insert_eq|rewrite !lookup_insert_ne by done]).
    + exact (W1 (Left y) Hq).
    + exact (W1 (Right y) Hq).
  - intros y. unfold dat. cbn. destruct (decide (x = y)) as [->|]; [by rewrite !lookup_insert_eq|].
    rewrite !lookup_insert_ne by done. apply W2.
Qed.

Definition put_node k (q : hook) (x p len y : Z) : outcome (kmem K) :=
  let* k := st k q x in
  let* k := hdr_set k x (fun _ => Freehdr 0 0 p len) in
  cut_loop (steps k) k y (Left x) (Right x) p.

(** Both writes make one. *)
Lemma put_links k C t F x p len : state k (plug C t) F -> x <> 0 -> x ∉ nodes (plug C t) ++ F -> is_Some (hdrs k !! x) ->
  let kx := hput k x (Freehdr 0 0 p len) in
  exists k2, (let* k := st k (hookof C) x in hdr_set k x (fun _ => Freehdr 0 0 p len)) = Ok k2
    /\ wrote (fun q => q = hookof C) kx k2 /\ ld k2 (hookof C) = Ok x /\ hdrs k2 !! x = Some (Freehdr 0 0 p len)
    /\ owner (hookof C) <> x /\ state kx (plug C t) F /\ quiet k kx.
Proof.
  intros S0 Hx Hxn Hxs kx. pose proof (state_holds _ _ _ S0) as H0. destruct (focus _ _ _ H0) as (L0 & _ & _ & _).
  assert (Ho : owner (hookof C) <> x). { destruct (owner_hookof _ _ _ H0) as [->|E]; [done|]. mem. }
  destruct (st_ok k (hookof C) x _ L0) as (k1 & E1 & W1 & L1). rewrite E1. cbn [obind].
  destruct (proj2 (quiet_dom _ _ (wrote_quiet _ _ _ W1) x) Hxs) as [h1 Hh1].
  unfold hdr_set, hdr. rewrite Hh1. eexists. split; [done|]. change (k1 <| hdrs := _ |>) with (hput k1 x (Freehdr 0 0 p len)).
  split_and!; try done.
  - apply wrote_hput; [done|]. by intros ? ->.
  - destruct (hookof C) as [|y|y]; [exact L1|..]; cbn in *; unfold hdr in *; cbn; rewrite lookup_insert_ne by done; exact L1.
  - cbn. apply lookup_insert_eq.
  - by apply state_hput.
  - split; try done. intros y. cbn. destruct (decide (x = y)) as [<-|]; [by rewrite lookup_insert_eq; split; eauto|].
    by rewrite lookup_insert_ne.
Qed.

Lemma put_node_ok k C t F x p len : state k (plug C t) F -> x <> 0 -> x ∉ nodes (plug C t) ++ F -> is_Some (hdrs k !! x) ->
  exists k', put_node k (hookof C) x p len (ptr t) = Ok k'
    /\ state k' (plug C (Node x (cut p t).1 p len (cut p t).2)) F /\ quiet k k'.
Proof.
  intros S0 Hx Hxn Hxs. destruct (put_links k C t F x p len S0 Hx Hxn Hxs) as (k2 & E2 & W2 & L2 & Hh2 & Ho & S & Q).
  pose proof (state_holds _ _ _ S) as H. destruct (focus _ _ _ H) as (_ & Rt & Nt & Ot).
  assert (R2 : rep k2 t). { eapply rep_wrote; [exact W2| |exact Rt]. by intros ? ->. }
  assert (Xt : x ∉ nodes t /\ x ∉ ctx_nodes C). { rewrite nodes_plug in Hxn. unfold ctx_nodes. mem. }
  destruct (cut_loop_ok p t (steps k2) k2 (Left x) (Right x) 0 0) as (k3 & E3 & W3 & L3 & L4 & R3 & R4).
  { pose proof (rep_fuel _ _ R2 Nt). lia. } 1-3: tauto. 1: tauto. 1: done. 1-2: by (cbn; unfold hdr; rewrite Hh2).
  exists k3. split; [unfold put_node; apply obind_ok in E2 as (k1 & -> & E2); cbn [obind]; rewrite E2; exact E3|].
  assert (W : wrote (inside (hookof C) (x :: nodes t)) (hput k x (Freehdr 0 0 p len)) k3).
  { eapply wrote_trans; [exact W2|exact W3|by left|]. intros q [->|[->|Hi]]; right; mem. }
  assert (P : nodes (Node x (cut p t).1 p len (cut p t).2) ≡ₚ x :: nodes t).
  { rewrite nodes_node, <- (nodes_cut p t). by rewrite Permutation_middle. }
  split; [|by eapply quiet_trans, wrote_quiet].
  pose proof (holds_nodup _ _ H) as (N1 & _ & N3)%nodup_plug. pose proof (rep_0 _ _ Rt).
  pose proof (state_nodup _ _ _ S) as (_ & N4 & _)%NoDup_app. rewrite nodes_plug in N4.
  eapply wrote_chain; [reflexivity|exact S|exact W| | |].
  - intros y. rewrite elem_of_cons. intros [->|Hy]; [mem|]. apply N4. mem.
  - eapply holds_refocus; [exact H|exact W| | | | | |].
    + intros y. rewrite elem_of_cons. intros [->|Hy]; [tauto|auto].
    + intros q Hq ->. mem.
    + rewrite (wrote_ld _ _ _ W3); [done|]. intros [E|[E|E]]; [by rewrite E in Ho..|]. by apply Ot.
    + split; [done|]. split; [|done]. apply lookup_links. cbn [left right block size]. split; [done|]. split; [done|].
      rewrite (wrote_dat _ _ _ W3). unfold dat. by rewrite Hh2.
    + rewrite P. constructor; tauto.
    + intros y. rewrite P, elem_of_cons. intros [->|Hy]; [tauto|auto].
  - intros y. rewrite nodes_plug, !elem_of_app, P, elem_of_cons. intros [Hy|[[->|Hy]|Hy]]; [|mem|..]; apply N4; mem.
Qed.

(** A header [x] in place of the node [a]. *)
Lemma swap_ok k C a l b sz r F x b' sz' : state k (plug C (Node a l b sz r)) F -> x <> 0 ->
  x ∉ nodes (plug C (Node a l b sz r)) ++ F -> is_Some (hdrs k !! x) ->
  exists k1 k2, hdr_set k x (fun _ => Freehdr (ptr l) (ptr r) b' sz') = Ok k1 /\ st k1 (hookof C) x = Ok k2
    /\ state k2 (plug C (Node x l b' sz' r)) F /\ quiet k k2 /\ forall y, y <> x -> y ∉ ctx_nodes C -> y <> 0 ->
      hdrs k2 !! y = hdrs k !! y.
Proof.
  intros S0 Hx Hxn [hx Hxs]. set (kx := hput k x (Freehdr (ptr l) (ptr r) b' sz')).
  pose proof (state_hput _ _ _ x (Freehdr (ptr l) (ptr r) b' sz') S0 Hxn) as S. fold kx in S.
  pose proof (state_holds _ _ _ S) as H. destruct (focus_node _ _ _ _ _ _ _ H) as (L & Hh & Ha & Rl & Rr & N & O & D & Z0 & _).
  destruct (st_ok kx (hookof C) x a L) as (k2 & E & W & L2). exists kx, k2.
  split; [unfold hdr_set, hdr; by rewrite Hxs|]. split; [done|].
  assert (Ho : owner (hookof C) <> x). { destruct (owner_hookof _ _ _ H) as [->|Ei]; [done|]. mem. }
  rewrite nodes_plug, nodes_node in Hxn.
  assert (W' : wrote (inside (hookof C) []) kx k2) by (eapply wrote_sub; [exact W|by left]).
  pose proof (state_nodup _ _ _ S) as (_ & NF & _)%NoDup_app. rewrite nodes_plug, nodes_node in NF.
  apply NoDup_cons in N as [Na N].
  split; [|split].
  - eapply wrote_chain; [reflexivity|exact S|exact W'|by intros y ?%elem_of_nil| |].
    + eapply holds_refocus; [exact H|exact W'|by intros y ?%elem_of_nil|by intros q ?%elem_of_nil|done| | |].
      * split; [done|]. split; [|split].
        -- rewrite (wrote_hdrs _ _ _ x W) by (by intros ? ->). cbn. apply lookup_insert_eq.
        -- eapply rep_wrote; [exact W| |exact Rl]. intros ? ->. mem.
        -- eapply rep_wrote; [exact W| |exact Rr]. intros ? ->. mem.
      * rewrite nodes_node, <- Permutation_middle. constructor; [mem|done].
      * intros y. rewrite nodes_node. intros Hy. assert (y = x \/ y ∈ a :: nodes l ++ nodes r) as [->|Hy'] by mem; [|auto].
        unfold ctx_nodes. mem.
    + intros y. rewrite nodes_plug, nodes_node. intros Hy.
      assert (y = x \/ y ∈ (bef C).*1 ++ (nodes l ++ a :: nodes r) ++ (aft C).*1) as [->|Hy'] by mem; [mem|auto].
  - eapply quiet_trans; [|by eapply wrote_quiet]. split; try done. intros y. cbn.
    destruct (decide (x = y)) as [<-|]; [rewrite lookup_insert_eq, Hxs; split; eauto|by rewrite lookup_insert_ne].
  - intros y Hy Hyn Hy0. rewrite (wrote_hdrs _ _ _ y W); [cbn; by rewrite lookup_insert_ne|].
    intros ? -> <-. destruct (hookof_in C) as [Er|Ei]; [by rewrite Er in Hy0|done].
Qed.

(** ** The searches *)

Lemma find_loop_ok p len t : forall C k fuel, holds k (plug C t) -> Forall (on_path p len) C -> (count t <= fuel)%nat -> 0 < len ->
  exists C' t', find_loop fuel k (hookof C) p len = Ok (hookof C') /\ plug C' t' = plug C t /\ wt t' < len
    /\ Forall (on_path p len) C'.
Proof.
  induction t as [|x l IHl b sz r IHr]; intros C k fuel H HC Hf Hlen; destruct (focus _ _ _ H) as (L & R & _ & _).
  - exists C, Leaf. split; [|split; [done|]; split; [cbn; lia|done]].
    destruct fuel; cbn [find_loop]; rewrite L; cbn; by rewrite (proj2 (Z.leb_gt _ _)).
  - rewrite count_node in Hf. destruct fuel as [|fuel]; [lia|]. cbn [find_loop]. rewrite L. cbn [obind].
    rewrite (rep_weight _ _ R). cbn [obind wt ptr]. destruct (Z.leb_spec len sz) as [Hle|Hgt].
    + rewrite (rep_hdr _ _ _ _ _ _ R). cbn [obind block]. destruct (Z.ltb_spec p b).
      * apply (IHl (FL x b sz r :: C)); [done| |lia|done]. constructor; [done|done].
      * apply (IHr (FR x l b sz :: C)); [done| |lia|done]. constructor; [done|done].
    + by exists C, (Node x l b sz r).
Qed.

End Ops.
