(* ===== verification/KmemHeap.v ===== *)
(** * The heap as a set of bytes

    What [kmem_free] and [kmem_alloc] of [Kmem] do, in terms of bytes: those of
    free blocks, those of headers, and those that callers have. *)
From S2P Require Import Prelude Kmem KmemTree KmemStore KmemOps.

#[local] Ltac Zify.zify_post_hook ::= Z.to_euclidean_division_equations.

(** ** The search of [kmem_free] *)

Definition overlaps (p len : Z) (m : Z * (Z * Z)) : Prop := lo m < p + len /\ p < hi m.

(** The block that the search ends with, among the blocks that are left. *)
Record freed {K} (k : kmem K) (t : tree) (F : list Z) (p len : Z) (k' : kmem K) (t' : tree) (F' : list Z) (p' len' : Z) : Prop := {
  freed_state : state k' t' F';
  freed_good : good t';
  freed_quiet : quiet k k';
  freed_range : 0 <= p' /\ 0 < len' /\ p' + len' < 2 ^ 32;
  freed_nodes : forall y, y ∈ nodes t' ++ F' -> y ∈ nodes t ++ F;
  freed_apart : forall m, m ∈ flat t' -> hi m < p' \/ p' + len' < lo m;
  freed_bytes : forall a, byte (flat t') a \/ p' <= a < p' + len' <-> byte (flat t) a \/ p <= a < p + len
}.

Section Free.
Context {K : Type}.
Implicit Types (k : kmem K) (t l r : tree) (C : list frame).

Definition frees k t F s p len (res : outcome (kmem K * Z * Z)) : Prop :=
  (exists m, m ∈ flat s /\ overlaps p len m) /\ (exists msg, res = Panic msg)
  \/ (forall m, m ∈ flat s -> ~ overlaps p len m)
     /\ exists k' t' F' p' len', res = Ok (k', p', len') /\ freed k t F p len k' t' F' p' len'.

Lemma frees_step k k1 t t1 F F1 s s1 p len p1 len1 res : quiet k k1 -> (forall y, y ∈ nodes t1 ++ F1 -> y ∈ nodes t ++ F) ->
  (forall m, m ∈ flat s1 -> m ∈ flat s /\ (overlaps p1 len1 m <-> overlaps p len m)) ->
  (forall m, m ∈ flat s -> m ∈ flat s1 \/ ~ overlaps p len m) ->
  (forall a, byte (flat t1) a \/ p1 <= a < p1 + len1 <-> byte (flat t) a \/ p <= a < p + len) ->
  frees k1 t1 F1 s1 p1 len1 res -> frees k t F s p len res.
Proof.
  intros Q HN H1 H2 HB [[(m & Hm & Ho) Hres]|[Hn (k' & t' & F' & p' & len' & E & [S G Q' R N A B])]].
  - left. split; [|done]. exists m. apply H1 in Hm as [Hm Hi]. split; [done|by apply Hi].
  - right. split.
    + intros m Hm. destruct (H2 m Hm) as [Hm1|]; [|done]. intros Ho. apply (Hn m Hm1). by apply H1.
    + exists k', t', F', p', len'. split; [done|]. split; try done; [by eapply quiet_trans|auto|]. intros a. by rewrite B, HB.
Qed.

Lemma flat_join_del C x l b sz r : pos l -> pos r ->
  flat (plug C (join l r)) = (bef C ++ flat l) ++ (flat r ++ aft C)
  /\ flat (plug C (Node x l b sz r)) = (bef C ++ flat l) ++ (x, (b, sz)) :: (flat r ++ aft C).
Proof. intros Pl Pr. rewrite !flat_plug, flat_join by done. cbn [flat]. by rewrite <- !app_assoc. Qed.

(** A node that touches the block: the block grows by it. *)
Lemma frees_absorb k k1 C x l b sz r F p len p1 len1 res : good (plug C (Node x l b sz r)) -> quiet k k1 ->
  p + len = b /\ p1 = p \/ b + sz = p /\ p1 = b -> len1 = len + sz -> 0 < len ->
  frees k1 (plug C (join l r)) (x :: F) (join l r) p1 len1 res -> frees k (plug C (Node x l b sz r)) F (Node x l b sz r) p len res.
Proof.
  intros G Q Hp -> Hl. pose proof (pos_plug _ _ (good_pos _ G)) as (Hsz & Pl & Pr).
  destruct (flat_join_del C x l b sz r Pl Pr) as [EJ EN].
  pose proof (good_ordered _ G) as O. rewrite EN in O. apply ordered_mid in O as (_ & _ & O3 & O4 & _).
  apply frees_step; [done|..].
  - intros y. rewrite !nodes_plug, nodes_join, nodes_node by done. mem.
  - intros m. rewrite flat_join by done. cbn [flat]. intros Hm. split; [elems|].
    assert (hi m < b \/ b + sz < lo m).
    { apply elem_of_app in Hm as [Hm|Hm]; [left; apply (O3 m); elems|right; apply (O4 m); elems]. }
    assert (0 < m.2.2).
    { eapply heap_sizes; [exact (good_heap _ G)|]. rewrite EN. elems. }
    unfold overlaps, lo, hi in *. lia.
  - intros m. rewrite flat_join by done. cbn [flat]. rewrite !elem_of_app, elem_of_cons. intros [?|[->|?]]; [tauto| |tauto].
    right. unfold overlaps, lo, hi. cbn. lia.
  - intros a. assert (E : p1 <= a < p1 + (len + sz) <-> b <= a < b + sz \/ p <= a < p + len) by lia.
    rewrite E, EJ, EN, !byte_app, byte_cons, byte_app. unfold lo, hi. cbn. tauto.
Qed.

Lemma frees_leaf k C p len F : state k (plug C Leaf) F -> good (plug C Leaf) -> 0 <= p -> 0 < len -> p + len < 2 ^ 32 ->
  (forall m, m ∈ bef C -> hi m < p) -> (forall m, m ∈ aft C -> p + len < lo m) ->
  frees k (plug C Leaf) F Leaf p len (Ok (k, p, len)).
Proof.
  intros S G Hp Hl Ht HB HA. right. split; [by intros m ?%elem_of_nil|].
  exists k, (plug C Leaf), F, p, len. split; [done|]. split; try done.
  intros m. rewrite flat_plug. cbn [flat app]. rewrite elem_of_app. intros [?|?]; [left|right]; auto.
Qed.

Lemma free_loop_ok fuel : forall k s C F p len, (count s <= fuel)%nat -> state k (plug C s) F -> good (plug C s) ->
  0 <= p -> 0 < len -> p + len < 2 ^ 32 -> (forall m, m ∈ bef C -> hi m < p) -> (forall m, m ∈ aft C -> p + len < lo m) ->
  frees k (plug C s) F s p len (free_loop fuel k (hookof C) p len).
Proof.
  induction fuel as [|fuel IH]; intros k s C F p len Hf S G Hp Hl Ht HB HA;
    destruct (focus _ _ _ (state_holds _ _ _ S)) as (L & R & _ & _).
  { destruct s as [|x l b sz r]; [|rewrite count_node in Hf; lia]. cbn [free_loop]. rewrite L. by apply (frees_leaf _ C _ _ F). }
  destruct s as [|x l b sz r]; [cbn [free_loop]; rewrite L; by apply (frees_leaf _ C _ _ F)|]. rewrite count_node in Hf.
  cbn [free_loop]. rewrite L. cbn [obind ptr]. rewrite (rep_hdr _ _ _ _ _ _ R). destruct R as (Hx & _ & Rl & Rr).
  rewrite (proj2 (Z.eqb_neq _ _)) by done. cbn [obind block size].
  pose proof (good_pos _ G) as Hpos. apply pos_plug in Hpos. pose proof Hpos as (Hsz & Pl & Pr).
  assert (Hj : count (join l r) = (count l + count r)%nat). { unfold count. by rewrite flat_join, length_app. }
  destruct (flat_join_del C x l b sz r Pl Pr) as [EJ EN].
  pose proof (good_ordered _ G) as O. rewrite EN in O. apply ordered_mid in O as (O1 & O2 & O3 & O4 & O5).
  unfold apart, lo, hi in O3, O4. cbn in O3, O4.
  pose proof (good_range _ G (x, (b, sz))) as Hr. rewrite EN in Hr.
  destruct Hr as [Hb1 Hb2]; [elems|]. unfold lo, hi in Hb1, Hb2. cbn in Hb1, Hb2.
  rewrite (u32_small (p + len)), (u32_small (b + sz)) by lia. destruct (Z.ltb_spec p b) as [Hlt|Hge].
  - destruct (Z.eqb_spec (p + len) b) as [Heq|Hne]; [|destruct (Z.ltb_spec b (p + len))].
    + destruct (delete_ok k C x l b sz r F S Hpos) as (k1 & -> & S1 & Q1). cbn [obind]. rewrite (u32_small (len + sz)) by lia.
      eapply frees_absorb; [done|exact Q1|by left|done|done|].
      apply IH with (F := x :: F); [lia|done|by eapply good_join|done|lia|lia|done|].
      intros m Hm. unfold lo. assert (O := O4 m). specialize (O ltac:(elems)). lia.
    + left. split; [|eauto]. exists (x, (b, sz)). cbn [flat]. split; [elems|]. unfold overlaps, lo, hi. cbn. lia.
    + eapply frees_step; [apply quiet_refl| | | | |apply (IH k l (FL x b sz r :: C) F); try done; try lia].
      * done.
      * intros m Hm. cbn [flat]. split; [elems|done].
      * intros m. cbn [flat]. rewrite elem_of_app, elem_of_cons. intros [?|[->|?]]; [tauto|..]; right;
          unfold overlaps, lo, hi; cbn; [lia|]. assert (O := O4 m). specialize (O ltac:(elems)). lia.
      * done.
      * intros m. cbn [aft]. rewrite elem_of_cons. intros [->|Hm]; unfold lo; cbn; [lia|].
        assert (O := O4 m). specialize (O ltac:(elems)). lia.
  - destruct (Z.ltb_spec b p) as [Hlt|Hge2].
    + destruct (Z.eqb_spec (b + sz) p) as [Heq|Hne]; [|destruct (Z.ltb_spec p (b + sz))].
      * destruct (delete_ok k C x l b sz r F S Hpos) as (k1 & -> & S1 & Q1). cbn [obind]. rewrite (u32_small (len + sz)) by lia.
        eapply frees_absorb; [done|exact Q1|by right|done|done|].
        apply IH with (F := x :: F); [lia|done|by eapply good_join|done|lia|lia| |].
        -- intros m Hm. unfold hi. assert (O := O3 m). specialize (O ltac:(elems)). lia.
        -- intros m Hm. specialize (HA m Hm). lia.
      * left. split; [|eauto]. exists (x, (b, sz)). cbn [flat]. split; [elems|]. unfold overlaps, lo, hi. cbn. lia.
      * eapply frees_step; [apply quiet_refl| | | | |apply (IH k r (FR x l b sz :: C) F); try done; try lia].
        -- done.
        -- intros m Hm. cbn [flat]. split; [elems|done].
        -- intros m. cbn [flat]. rewrite elem_of_app, elem_of_cons. intros [?|[->|?]]; [|right|tauto];
             [right|]; unfold overlaps, lo, hi; cbn; [|lia]. assert (O := O3 m). specialize (O ltac:(elems)). lia.
        -- done.
        -- intros m. cbn [bef]. rewrite !elem_of_app, list_elem_of_singleton. intros [?|[?| ->]]; [auto| |unfold hi; cbn; lia].
           unfold hi. assert (O := O3 m). specialize (O ltac:(elems)). lia.
    + left. split; [|eauto]. exists (x, (b, sz)). cbn [flat]. split; [elems|]. unfold overlaps, lo, hi. cbn. lia.
Qed.
End Free.

(** ** Pages *)

(** What [getpages] promises: pages that it has not given out before, from those
    that [usrpt] maps.  [got] has the bytes given out, [supply] pages can still be
    had at once; [sound] is what the allocator of pages itself keeps. *)
Class PagesOk (K : Type) `{Pages K} (usrpt : Z) := {
  got : K -> Z -> Prop;
  supply : K -> Z;
  sound : K -> Prop;
  usrpt_range : 0 < usrpt /\ usrpt + (USRPTSIZE + 1) * NBPG < 2 ^ 32;
  got_range : forall m a, got m a -> usrpt <= a < usrpt + (USRPTSIZE + 1) * NBPG;
  getpages_ok : forall m n, sound m -> 0 < n <= supply m -> exists p m', getpages m n = Ok (p, m')
    /\ sound m' /\ supply m - n <= supply m' /\ p mod NBPG = 0 /\ 0 < p /\ usrpt <= p
    /\ p + n * NBPG <= usrpt + (USRPTSIZE + 1) * NBPG
    /\ (forall a, p <= a < p + n * NBPG -> ~ got m a)
    /\ (forall a, got m' a <-> got m a \/ p <= a < p + n * NBPG)
}.

Section Heap.
Context {K : Type} `{PagesOk K usrpt}.
Implicit Types (k : kmem K) (t : tree) (C : list frame) (F : list Z).

(** The bytes of headers, and those of blocks, free or not. *)
Definition hbyte k (a : Z) : Prop := exists y, is_Some (hdrs k !! y) /\ y <= a < y + sizeof_freehdr.
Definition owned k (a : Z) : Prop := got (pages k) a /\ ~ hbyte k a.

Record arena k t F : Prop := {
  arena_state : state k t F;
  arena_good : good t;
  arena_pages : sound (pages k);
  arena_hdrs : forall y, is_Some (hdrs k !! y) -> y mod sizeof_freehdr = 0;
  arena_hbytes : forall a, hbyte k a -> got (pages k) a;
  arena_free : forall a, byte (flat t) a -> owned k a
}.

Lemma hbyte_quiet k k' a : quiet k k' -> hbyte k' a <-> hbyte k a.
Proof. intros Q. unfold hbyte. by setoid_rewrite (quiet_dom _ _ Q). Qed.
Lemma owned_quiet k k' a : quiet k k' -> owned k' a <-> owned k a.
Proof. intros Q. unfold owned. by rewrite (hbyte_quiet k k') , (quiet_pages _ _ Q). Qed.

(** What callers have stays, and what waits; at most [n] pages are taken. *)
Record kept (n : Z) k k' : Prop := {
  kept_owned : forall a, owned k' a <-> owned k a;
  kept_supply : supply (pages k) - n <= supply (pages k');
  kept_ntf : need_to_free_list k' = need_to_free_list k;
  kept_slots : need_to_free k' = need_to_free k
}.

Lemma kept_trans n1 n2 k k1 k2 : kept n1 k k1 -> kept n2 k1 k2 -> kept (n1 + n2) k k2.
Proof. intros [A1 A2 A3 A4] [B1 B2 B3 B4]. split; [|lia|congruence|congruence]. intros a. by rewrite B1. Qed.
Lemma kept_mono n1 n2 k k' : kept n1 k k' -> n1 <= n2 -> kept n2 k k'.
Proof. intros [A1 A2 A3 A4] Hn. split; try done. lia. Qed.

Lemma kept_quiet k k' : quiet k k' -> kept 0 k k'.
Proof.
  intros Q. split; [intros a; by apply owned_quiet|rewrite (quiet_pages _ _ Q); lia|apply (quiet_ntf _ _ Q)|apply (quiet_slots _ _ Q)].
Qed.

Lemma arena_quiet k k' t t' F F' : arena k t F -> quiet k k' -> state k' t' F' -> good t' ->
  (forall a, byte (flat t') a -> owned k a) -> arena k' t' F'.
Proof.
  intros [S G HP HA HB HF] Q S' G' HF'. split; try done.
  - by rewrite (quiet_pages _ _ Q).
  - intros y Hy%(quiet_dom _ _ Q). auto.
  - intros a Ha. rewrite (quiet_pages _ _ Q). apply HB. by apply (hbyte_quiet k k').
  - intros a Ha. apply (owned_quiet k k'); auto.
Qed.

(** A header that is neither a node nor free. *)
Definition spare k t F (y : Z) : Prop := is_Some (hdrs k !! y) /\ y ∉ nodes t ++ F.

Lemma spare_quiet k k' t t' F F' y : quiet k k' -> (forall z, z ∈ nodes t' ++ F' -> z ∈ nodes t ++ F) ->
  spare k t F y -> spare k' t' F' y.
Proof. intros Q HN [H1 H2]. split; [by apply (quiet_dom _ _ Q)|]. intros Hi. by apply H2, HN. Qed.

(** ** Headers *)

Lemma chain_dom (m : gmap Z freehdr) y F z : chain m y F -> z ∈ F -> is_Some (m !! z).
Proof.
  revert y. induction F as [|w F IH]; intros y; [by intros _ ?%elem_of_nil|]. intros (-> & _ & h & Hh & Hc).
  rewrite elem_of_cons. intros [->|Hz]; eauto.
Qed.

Lemma state_dom k t F y : state k t F -> y ∈ nodes t ++ F -> is_Some (hdrs k !! y).
Proof.
  intros [[_ R _] Hc _]. rewrite elem_of_app. intros [Hy|Hy]; [by eapply rep_dom|by eapply chain_dom].
Qed.

Lemma new_hdr k t F y : state k t F -> hdrs k !! y = None -> y ∉ nodes t ++ F.
Proof. intros S Hy Hi. destruct (state_dom _ _ _ _ S Hi) as [h Hh]. congruence. Qed.

Lemma hput_dom k x h y : is_Some (hdrs (hput k x h) !! y) <-> is_Some (hdrs k !! y) \/ y = x.
Proof.
  cbn. destruct (decide (x = y)) as [<-|Hne]; [rewrite lookup_insert_eq|rewrite lookup_insert_ne by done].
  - split; eauto.
  - split; [by left|intros [?|?]; [done|congruence]].
Qed.

Lemma page_hdrs_ok t r cnt : forall k F n, state k t F -> 0 < r -> 0 <= n ->
  (forall i, n <= i < n + Z.of_nat cnt -> hdrs k !! (r + i * sizeof_freehdr) = None) ->
  exists k' F', page_hdrs k r cnt n = Ok k' /\ state k' t F'
    /\ pages k' = pages k /\ need_to_free_list k' = need_to_free_list k /\ need_to_free k' = need_to_free k
    /\ (forall y, is_Some (hdrs k' !! y) <-> is_Some (hdrs k !! y) \/ exists i, n <= i < n + Z.of_nat cnt /\ y = r + i * sizeof_freehdr)
    /\ (forall z, z ∈ F' -> z ∈ F \/ exists i, n <= i < n + Z.of_nat cnt /\ z = r + i * sizeof_freehdr).
Proof.
  induction cnt as [|cnt IH]; intros k F n S Hr Hn Hi.
  - exists k, F. split_and!; try done; intros y; [|by left]. split; [by left|]. intros [?|(i & ? & _)]; [done|lia].
  - cbn [page_hdrs]. set (p := r + n * sizeof_freehdr). assert (Hp : hdrs k !! p = None) by (apply Hi; lia).
    pose proof (new_hdr _ _ _ _ S Hp) as Hnew.
    pose proof (state_hput _ _ _ _ (Freehdr 0 0 0 0) S Hnew) as S1. unfold sizeof_freehdr in *.
    destruct (free_hdr_ok _ _ _ p S1) as (k1 & E1 & S2 & Q1 & O1); try done; [lia|cbn; rewrite lookup_insert_eq; eauto|].
    unfold hput in E1. rewrite E1. cbn [obind].
    assert (D1 : forall y, is_Some (hdrs k1 !! y) <-> is_Some (hdrs k !! y) \/ y = p) by (intros y; rewrite (quiet_dom _ _ Q1); apply hput_dom).
    destruct (IH k1 (p :: F) (n + 1) S2 Hr) as (k2 & F2 & E2 & S3 & P2 & P3 & P4 & D2 & F3); [lia| |].
    { intros i Hi1. apply eq_None_not_Some. rewrite D1. intros [Hs|Hs]; [|unfold p in Hs; lia].
      rewrite Hi in Hs by lia. by destruct Hs. }
    exists k2, F2. split; [done|]. split; [done|]. rewrite P2, P3, P4. destruct Q1 as [_ -> -> ->]. split_and!; try done.
    + intros y. rewrite D2, D1. split.
      * intros [[?| ->]|(i & ? & ->)]; [by left|right; exists n; split; [lia|done]|right; exists i; split; [lia|done]].
      * intros [?|(i & Hii & ->)]; [tauto|]. destruct (Z.eq_dec i n) as [->|]; [by left; right|right; exists i; split; [lia|done]].
    + intros z Hz. apply F3 in Hz as [Hz|(i & ? & ->)]; [|right; exists i; split; [lia|done]].
      apply elem_of_cons in Hz as [->|Hz]; [right; exists n; split; [lia|done]|by left].
Qed.

(** The state is of the headers only. *)
Lemma state_ext k k' t F F' : state k t F -> hdrs k' = hdrs k -> free_root k' = free_root k ->
  chain (hdrs k) (free_hdr_list k') F' -> (forall y, y ∈ F' -> y ∈ F) -> NoDup F' -> state k' t F'.
Proof.
  intros [[S1 S2 S3] S4 S5] E1 E2 Hc HF N. split; [split; [congruence| |done]|by rewrite E1|].
  - clear -S2 E1. induction t as [|y l IHl b sz r IHr]; [done|]. destruct S2 as (Hy & E & Rl & Rr).
    split; [done|]. rewrite E1. auto.
  - apply NoDup_app in S5 as (N1 & N2 & N3). apply NoDup_app. split_and!; try done. intros y Hy Hi%HF. by eapply N2.
Qed.

(** The headers of a page. *)
Lemma page_bytes k k' p : p mod NBPG = 0 -> (forall y, is_Some (hdrs k' !! y) <->
    (is_Some (hdrs k !! y) \/ y = p) \/ exists i, 1 <= i < 1 + Z.of_nat (Z.to_nat (CLBYTES / sizeof_freehdr - 1)) /\ y = p + i * sizeof_freehdr) ->
  (forall a, hbyte k' a <-> hbyte k a \/ p <= a < p + CLBYTES)
  /\ ((forall y, is_Some (hdrs k !! y) -> y mod sizeof_freehdr = 0) -> forall y, is_Some (hdrs k' !! y) -> y mod sizeof_freehdr = 0).
Proof.
  intros Hp D. change (1 + Z.of_nat (Z.to_nat (CLBYTES / sizeof_freehdr - 1))) with 64 in D.
  change CLBYTES with 1024. unfold hbyte, sizeof_freehdr, NBPG in *. split.
  - intros a. split.
    + intros (y & [[Hy| ->]|(i & Hi & ->)]%D & Ha); [left; eauto|right; lia|right; lia].
    + intros [(y & Hy & Ha)|Ha]; [exists y; rewrite D; tauto|].
      exists (p + (a - p) / 16 * 16). split; [|lia]. apply D.
      destruct (Z.eq_dec ((a - p) / 16) 0) as [->|]; [left; right; lia|right; exists ((a - p) / 16); split; [lia|done]].
  - intros HA y [[Hy| ->]|(i & Hi & ->)]%D; [auto|lia|lia].
Qed.

(** A header from the chain, or the first of a new page; the blocks that there are
    stay the same. *)
Lemma getfreehdr_ok k t F : arena k t F -> CLSIZE <= supply (pages k) ->
  exists k' x F', getfreehdr k = Ok (k', x) /\ arena k' t F' /\ x <> 0 /\ x ∉ nodes t ++ F' /\ is_Some (hdrs k' !! x)
    /\ kept CLSIZE k k' /\ (forall y, spare k t F y -> spare k' t F' y /\ y <> x).
Proof.
  intros [S G HP HA HB HF] Hsup. unfold getfreehdr. pose proof (state_chain _ _ _ S) as Hc. destruct F as [|x F].
  - cbn in Hc. rewrite Hc. cbn [nz negb Z.eqb].
    destruct (getpages_ok (pages k) CLSIZE HP) as (p & m & E & P0 & P1 & P2 & P3 & P4 & P5 & P6 & P7); [unfold CLSIZE in *; lia|].
    rewrite E. cbn [obind]. rewrite (proj2 (Z.eqb_neq p 0)) by lia.
    assert (Hfree : forall y, p <= y < p + CLBYTES -> hdrs k !! y = None).
    { intros y Hy. apply eq_None_not_Some. intros Hs. apply (P6 y); [done|]. apply HB. exists y. unfold sizeof_freehdr. split; [done|lia]. }
    assert (Hp : hdrs k !! p = None) by (apply Hfree; unfold CLBYTES, CLSIZE, NBPG; lia).
    pose proof (state_hput _ _ _ _ (Freehdr 0 0 0 0) S (new_hdr _ _ _ _ S Hp)) as S1.
    set (k1 := k <| pages := m |> <| hdrs := <[p := Freehdr 0 0 0 0]> (hdrs k) |>).
    assert (S2 : state k1 t []) by (apply (state_ext _ k1 _ _ [] S1); try done; constructor).
    assert (D1 : forall y, is_Some (hdrs k1 !! y) <-> is_Some (hdrs k !! y) \/ y = p) by (intros y; apply (hput_dom k)).
    destruct (page_hdrs_ok t p (Z.to_nat (CLBYTES / sizeof_freehdr - 1)) k1 [] 1 S2) as (k2 & F2 & E2 & S3 & Q1 & Q2 & Q3 & D2 & F3); [done|lia| |].
    { intros i Hi. change (1 + Z.of_nat (Z.to_nat (CLBYTES / sizeof_freehdr - 1))) with 64 in Hi. apply eq_None_not_Some.
      rewrite D1, Hfree by (change CLBYTES with 1024; unfold sizeof_freehdr; lia). unfold sizeof_freehdr.
      intros [[? ?]|?]; [done|lia]. }
    rewrite E2. cbn [obind].
    assert (D : forall y, is_Some (hdrs k2 !! y) <->
      (is_Some (hdrs k !! y) \/ y = p) \/ exists i, 1 <= i < 1 + Z.of_nat (Z.to_nat (CLBYTES / sizeof_freehdr - 1)) /\ y = p + i * sizeof_freehdr)
      by (intros y; by rewrite D2, D1).
    destruct (page_bytes k k2 p P2 D) as [B1 B2].
    assert (HO : forall a, owned k2 a <-> owned k a).
    { intros a. unfold owned. rewrite B1, Q1. change (pages k1) with m. rewrite P7. change (CLSIZE * NBPG) with CLBYTES in *.
      specialize (P6 a). tauto. }
    exists k2, p, F2. split; [done|]. split_and!; try done; [|lia| | |split; try done; by rewrite Q1|].
    + split; try done; [by rewrite Q1|by apply B2| |intros a Ha; apply HO; auto].
      intros a. rewrite B1, Q1. change (pages k1) with m. rewrite P7. intros [Ha%HB|Ha]; [by left|by right].
    + rewrite elem_of_app. intros [Hi|Hi].
      * assert (Hs : is_Some (hdrs k !! p)) by (eapply state_dom; [exact S|rewrite elem_of_app; by left]).
        rewrite Hp in Hs. by destruct Hs.
      * apply F3 in Hi as [Hi|(i & Hi & Hpi)]; [by apply elem_of_nil in Hi|unfold sizeof_freehdr in Hpi; lia].
    + apply D. tauto.
    + intros y [[hy Hy] Hn]. split; [|intros ->; congruence]. split; [apply D; left; left; eauto|].
      rewrite elem_of_app. intros [Hi|[Hi|(i & Hi & ->)]%F3]; [mem|by apply elem_of_nil in Hi|].
      change (1 + Z.of_nat (Z.to_nat (CLBYTES / sizeof_freehdr - 1))) with 64 in Hi.
      rewrite Hfree in Hy by (change CLBYTES with 1024; unfold sizeof_freehdr; lia). done.
  - cbn in Hc. destruct Hc as (Hx & Hx0 & h & Hh & Hc). rewrite Hx. unfold nz, hdr.
    rewrite (proj2 (Z.eqb_neq x 0)) by done. rewrite Hh. cbn [negb deref obind].
    pose proof (state_nodup _ _ _ S) as (N1 & N2 & [N3 N4]%NoDup_cons)%NoDup_app.
    eexists _, x, F. split; [done|]. split_and!; try done; [|rewrite elem_of_app; intros [Hi|Hi]; [|done]|split; try done; unfold CLSIZE; cbn; lia|].
    + split; try done. apply (state_ext k _ t (x :: F)); try done. intros y. mem.
    + apply (N2 x); [done|mem].
    + intros y [Hy Hn]. split; [split; [done|]; intros Hi; apply Hn; mem|]. intros ->. apply Hn. mem.
Qed.

(** ** [insert] and [kmem_free] *)

Lemma insert_ok k t F p len : arena k t F -> CLSIZE <= supply (pages k) -> 0 < len -> 0 <= p -> p + len < 2 ^ 32 ->
  (forall m, m ∈ flat t -> hi m < p \/ p + len < lo m) -> (forall a, p <= a < p + len -> owned k a) ->
  exists k' t' F', insert k p len Root = Ok k' /\ arena k' t' F' /\ kept CLSIZE k k'
    /\ (forall y, spare k t F y -> spare k' t' F' y)
    /\ forall a, byte (flat t') a <-> byte (flat t) a \/ p <= a < p + len.
Proof.
  intros A Hsup Hl Hp Ht Ha Ho. pose proof (arena_state _ _ _ A) as S. pose proof (state_holds _ _ _ S) as Hh.
  destruct (find_loop_ok p len t [] k (steps k) Hh) as (C & s & E1 & Epl & Hw & HC); [done| |done|].
  { pose proof (steps_fuel k [] t Hh). lia. }
  cbn [plug] in Epl. subst t. destruct (focus _ _ _ Hh) as (L & _ & _ & _).
  unfold insert. change Root with (hookof []). rewrite E1. cbn [obind]. rewrite L. cbn [obind].
  destruct (getfreehdr_ok k _ F A Hsup) as (k1 & x & F1 & E2 & A1 & Hx & Hxn & Hxs & K1 & SP). rewrite E2. cbn [obind].
  destruct (put_node_ok k1 C s F1 x p len (arena_state _ _ _ A1) Hx Hxn Hxs) as (k2 & E3 & S2 & Q2).
  unfold put_node in E3. rewrite E3.
  destruct (good_insert C s x p len (arena_good _ _ _ A) HC Hw Hl Hp Ht) as [G2 (L1 & R1 & EL & ER)].
  { intros n Hn. apply Ha in Hn. unfold apart, lo, hi in *. cbn. lia. }
  assert (HB : forall a, byte (flat (plug C (Node x (cut p s).1 p len (cut p s).2))) a <-> byte (flat (plug C s)) a \/ p <= a < p + len).
  { intros a. rewrite ER, EL, !byte_app, byte_cons. unfold lo, hi. cbn. tauto. }
  eexists _, _, F1. split; [done|]. split; [|split; [|split; [|exact HB]]].
  - eapply arena_quiet; [exact A1|exact Q2|exact S2|exact G2|]. intros a. rewrite HB, (kept_owned _ _ _ K1).
    intros [Hb|Hb]; [by eapply arena_free|auto].
  - eapply kept_mono; [eapply kept_trans; [exact K1|by apply kept_quiet]|lia].
  - intros y [[Hy Hyn] Hyx]%SP. split; [by apply (quiet_dom _ _ Q2)|]. intros Hi. apply Hyn. revert Hi.
    rewrite !nodes_plug, nodes_node, <- (nodes_cut p s). mem.
Qed.

Lemma owned_range k a : owned k a -> usrpt <= a < usrpt + (USRPTSIZE + 1) * NBPG.
Proof. intros [Hg _]. by eapply got_range. Qed.

Lemma overlap_bytes t p len : good t -> 0 < len ->
  (exists m, m ∈ flat t /\ overlaps p len m) <-> exists a, p <= a < p + len /\ byte (flat t) a.
Proof.
  intros G Hl. split.
  - intros (m & Hm & [H1 H2]). pose proof (heap_sizes _ _ _ (good_heap _ G) Hm). exists (Z.max (lo m) p).
    unfold lo, hi in *. split; [lia|]. exists m. split; [done|]. unfold lo, hi. lia.
  - intros (a & Ha & m & Hm & Hb). exists m. split; [done|]. unfold overlaps. lia.
Qed.

(** The bytes of a block are owned. *)
Definition in_block (p len a : Z) : Prop := p <= a < p + len.

Definition free_spec k t F p len (res : outcome (kmem K)) : Prop :=
  (exists a, in_block p len a /\ byte (flat t) a) /\ (exists msg, res = Panic msg)
  \/ (forall a, in_block p len a -> ~ byte (flat t) a)
     /\ exists k' t' F', res = Ok k' /\ arena k' t' F' /\ kept CLSIZE k k'
        /\ (forall y, spare k t F y -> spare k' t' F' y)
        /\ forall a, byte (flat t') a <-> byte (flat t) a \/ in_block p len a.

Lemma kmem_free_spec k t F p len : arena k t F -> CLSIZE <= supply (pages k) -> 0 < len ->
  (forall a, in_block p len a -> owned k a) -> p <= usrpt + USRPTSIZE * NBPG ->
  free_spec k t F p len (kmem_free usrpt k p len).
Proof.
  intros A Hsup Hl Ho Hp. pose proof usrpt_range as [U1 U2].
  assert (Hr : usrpt <= p /\ p + len <= usrpt + (USRPTSIZE + 1) * NBPG).
  { pose proof (owned_range _ _ (Ho p ltac:(unfold in_block; lia))).
    pose proof (owned_range _ _ (Ho (p + len - 1) ltac:(unfold in_block; lia))). lia. }
  unfold kmem_free. rewrite (proj2 (Z.eqb_neq len 0)) by lia.
  rewrite (proj2 (Z.ltb_ge p usrpt)), (proj2 (Z.ltb_ge _ p)) by lia. cbn [orb].
  pose proof (arena_state _ _ _ A) as S. pose proof (state_holds _ _ _ S) as Hh. pose proof (arena_good _ _ _ A) as G.
  destruct (free_loop_ok (steps k) k t [] F p len) as [[Hov Hres]|[Hov (k1 & t1 & F1 & p1 & l1 & E & Fr)]]; try done; try lia.
  { pose proof (steps_fuel k [] t Hh). lia. } { by intros m ?%elem_of_nil. } { by intros m ?%elem_of_nil. }
  - left. apply overlap_bytes in Hov; [|done|done]. split; [done|]. destruct Hres as (msg & Er). exists msg.
    cbn [hookof] in Er. by rewrite Er.
  - right. cbn [hookof plug] in *. rewrite E. cbn [obind]. destruct Fr as [S1 G1 Q1 (R1 & R2 & R3) HN Ha HB].
    split.
    { intros a Ha1 Hb. destruct (proj2 (overlap_bytes t p len G Hl)) as (m & Hm & Hom); [by exists a|]. by apply (Hov m). }
    assert (HO : forall a, byte (flat t1) a \/ p1 <= a < p1 + l1 -> owned k a).
    { intros a [Hb|Hb]%HB; [by eapply arena_free|by apply Ho]. }
    assert (A1 : arena k1 t1 F1) by (eapply arena_quiet; eauto).
    pose proof (kept_quiet _ _ Q1) as K1.
    destruct (insert_ok k1 t1 F1 p1 l1) as (k2 & t2 & F2 & E2 & A2 & K2 & SP & HB2); try done.
    { rewrite (quiet_pages _ _ Q1). done. } { intros a Hb. rewrite (kept_owned _ _ _ K1). auto. }
    exists k2, t2, F2. split; [done|]. split; [done|]. split; [|split].
    + eapply kept_mono; [by eapply kept_trans|lia].
    + intros y Hy. apply SP. by eapply spare_quiet.
    + intros a. rewrite HB2, HB. done.
Qed.

End Heap.
