(* ===== verification/KmemAlloc.v ===== *)
(** * Allocation

    [kmem_alloc] of [Kmem], in terms of bytes: the search of the better fitting
    node, what is taken from it, and the whole with the blocks that waited and
    the pages that are asked for. *)
From S2P Require Import Prelude Kmem KmemTree KmemStore KmemOps KmemHeap.

#[local] Ltac Zify.zify_post_hook ::= Z.to_euclidean_division_equations.

Lemma land_ALIGNMASK b : Z.land b ALIGNMASK = b mod 4.
Proof. exact (Z.land_ones b 2 ltac:(lia)). Qed.

Lemma ALIGNMORE_eq b : ALIGNMORE b = 4 - b mod 4.
Proof. unfold ALIGNMORE. by rewrite land_ALIGNMASK. Qed.

Lemma misaligned_spec b sz : misaligned b sz = true <-> b mod 4 <> 0 /\ 4 - b mod 4 < sz.
Proof. unfold misaligned, nz. rewrite land_ALIGNMASK, ALIGNMORE_eq. lia. Qed.

Definition mw (t : tree) : Z :=
  match t with Leaf => 0 | Node _ _ b sz _ => if misaligned b sz then sz - ALIGNMORE b else sz end.

(** Without a node, and with another in its place. *)
Lemma bytes_del C x l b sz r : good (plug C (Node x l b sz r)) ->
  exists R, (forall a, byte (flat (plug C (Node x l b sz r))) a <-> R a \/ b <= a < b + sz)
    /\ (forall a, b <= a < b + sz -> ~ R a)
    /\ (forall a, byte (flat (plug C (join l r))) a <-> R a)
    /\ forall x' b' sz' a, byte (flat (plug C (sink x' b' sz' l r))) a <-> R a \/ b' <= a < b' + sz'.
Proof.
  intros G. pose proof (pos_plug _ _ (good_pos _ G)) as (Hsz & Pl & Pr).
  destruct (flat_join_del C x l b sz r Pl Pr) as [EJ EN]. exists (byte ((bef C ++ flat l) ++ flat r ++ aft C)).
  rewrite EJ, EN. split_and!.
  - intros a. rewrite !byte_app, byte_cons, byte_app. unfold lo, hi. cbn. tauto.
  - intros a Ha (m & Hm & Hb). pose proof (good_ordered _ G) as O. rewrite EN in O.
    apply ordered_mid in O as (_ & _ & O3 & O4 & _). unfold apart, lo, hi in *. cbn in *.
    apply elem_of_app in Hm as [Hm|Hm]; [apply O3 in Hm|apply O4 in Hm]; lia.
  - done.
  - intros x' b' sz' a. rewrite flat_plug, flat_sink by done.
    repeat progress rewrite ?byte_app, ?byte_cons. unfold lo, hi. cbn. tauto.
Qed.

Section Alloc.
Context {K : Type} `{PagesOk K usrpt}.
Implicit Types (k : kmem K) (t : tree) (C : list frame) (F : list Z).

(** ** The search *)

Lemma rep_mweight k t : rep k t -> mweight k (ptr t) = Ok (mw t).
Proof.
  destruct t as [|x l b sz r]; [done|]. intros R. unfold mweight. cbn [ptr mw]. rewrite (rep_hdr _ _ _ _ _ _ R).
  destruct R as (Hx & _). by rewrite (proj2 (Z.eqb_neq _ _) Hx).
Qed.

Lemma fit_loop_ok nbytes t : 0 < nbytes -> forall C k fuel, holds k (plug C t) -> (count t <= fuel)%nat -> nbytes <= mw t ->
  exists C' t', fit_loop fuel k (hookof C) (ptr t) nbytes = Ok (hookof C', ptr t') /\ plug C' t' = plug C t /\ nbytes <= mw t'.
Proof.
  intros Hn. induction t as [|x l IHl b sz r IHr]; intros C k fuel Hh Hf Hw; [cbn in Hw; lia|].
  destruct (focus _ _ _ Hh) as (L & R & _ & _). rewrite count_node in Hf. destruct fuel as [|fuel]; [lia|].
  cbn [fit_loop ptr]. rewrite (rep_hdr _ _ _ _ _ _ R). destruct R as (Hx & _ & Rl & Rr). cbn [obind left right].
  rewrite (rep_mweight k l Rl), (rep_mweight k r Rr). cbn [obind].
  destruct (Z.leb_spec nbytes (mw l)), (Z.leb_spec nbytes (mw r)); cbn [orb].
  - destruct (mw l <=? mw r); cbn [negb].
    + apply (IHl (FL x b sz r :: C)); [done|lia|done].
    + apply (IHr (FR x l b sz :: C)); [done|lia|done].
  - destruct (Z.leb_spec (mw l) (mw r)); [lia|]. cbn [negb]. apply (IHl (FL x b sz r :: C)); [done|lia|done].
  - destruct (Z.leb_spec (mw l) (mw r)); [|lia]. apply (IHr (FR x l b sz :: C)); [done|lia|done].
  - by exists C, (Node x l b sz r).
Qed.

(** ** Taking from a node *)

(** What is left when [nbytes] bytes from [p] are taken. *)
Record taken k t F (p nbytes : Z) k' t' F' : Prop := {
  taken_arena : arena k' t' F';
  taken_kept : kept (2 * CLSIZE) k k';
  taken_before : forall a, in_block p nbytes a -> byte (flat t) a;
  taken_bytes : forall a, byte (flat t') a <-> byte (flat t) a /\ ~ in_block p nbytes a
}.

Definition limit : Z := usrpt + USRPTSIZE * NBPG.

Lemma state_shrink k C a l b sz r F b' sz' : arena k (plug C (Node a l b sz r)) F -> 2 * CLSIZE <= supply (pages k) ->
  b <= b' -> 0 < sz' -> b' + sz' <= b + sz ->
  exists k0 x k1 k2 k3 F', getfreehdr k = Ok (k0, x) /\ hdr_set k0 x (fun _ => Freehdr (ptr l) (ptr r) b' sz') = Ok k1
    /\ st k1 (hookof C) x = Ok k2 /\ demote k2 (hookof C) = Ok k3
    /\ arena k3 (plug C (sink x b' sz' l r)) F' /\ kept CLSIZE k k3
    /\ hdr k3 a = Ok (Freehdr (ptr l) (ptr r) b sz) /\ a <> 0 /\ spare k3 (plug C (sink x b' sz' l r)) F' a.
Proof.
  intros A Hsup Hb Hs He. pose proof (arena_good _ _ _ A) as G. pose proof (pos_plug _ _ (good_pos _ G)) as (Hsz & Pl & Pr).
  destruct (getfreehdr_ok k _ F A) as (k0 & x & F0 & E0 & A0 & Hx & Hxn & Hxs & K0 & SP0); [unfold CLSIZE in *; lia|].
  destruct (swap_ok k0 C a l b sz r F0 x b' sz' (arena_state _ _ _ A0) Hx Hxn Hxs) as (k1 & k2 & E1 & E2 & S2 & Q2 & U2).
  destruct (demote_ok k2 C x l b' sz' r F0 S2 Hs Pl Pr) as (k3 & E3 & S3 & Q3 & U3).
  pose proof (state_holds _ _ _ (arena_state _ _ _ A0)) as Hh0.
  destruct (focus_node _ _ _ _ _ _ _ Hh0) as (_ & Hh & Ha & _ & _ & N & _ & D & _).
  assert (Hax : a <> x). { intros ->. apply Hxn. rewrite nodes_plug, nodes_node. mem. }
  assert (Hac : a ∉ ctx_nodes C) by (apply D; mem).
  assert (Hn3 : a ∉ nodes (plug C (Node x l b' sz' r))).
  { apply NoDup_cons in N as [N _]. rewrite nodes_plug, nodes_node. unfold ctx_nodes in Hac. mem. }
  assert (Hh3 : hdr k3 a = Ok (Freehdr (ptr l) (ptr r) b sz)). { unfold hdr. by rewrite U3, U2. }
  pose proof (kept_trans _ _ _ _ _ (kept_quiet _ _ Q2) (kept_quiet _ _ Q3)) as K3.
  destruct (bytes_del C a l b sz r G) as (R & R1 & R2 & R3 & R4).
  exists k0, x, k1, k2, k3, F0. split_and!; try done.
  - eapply arena_quiet; [exact A0|by eapply quiet_trans|exact S3|by eapply good_sink|].
    intros y. rewrite R4. intros Hy. apply (arena_free _ _ _ A0). rewrite R1. destruct Hy; [by left|right; lia].
  - eapply kept_mono; [by eapply kept_trans|lia].
  - split; [unfold hdr in Hh3; by destruct (hdrs k3 !! a)|].
    pose proof (state_nodup _ _ _ (arena_state _ _ _ A0)) as (_ & NF & _)%NoDup_app.
    specialize (NF a). rewrite nodes_plug, nodes_node in NF. rewrite nodes_plug, nodes_node in Hn3.
    rewrite nodes_plug, nodes_sink by done. mem.
Qed.

(** A header that is free again. *)
Lemma arena_free_hdr k t F x : arena k t F -> x <> 0 -> spare k t F x ->
  exists k', free_hdr k x = Ok k' /\ arena k' t (x :: F) /\ kept 0 k k'.
Proof.
  intros A Hx [Hs Hn]. destruct (free_hdr_ok k t F x (arena_state _ _ _ A) Hx Hn Hs) as (k' & E & S & Q & _).
  exists k'. split; [done|]. split; [|by apply kept_quiet].
  eapply arena_quiet; [exact A|exact Q|exact S|apply A|apply A].
Qed.

Lemma take_all k C a l b sz r F : arena k (plug C (Node a l b sz r)) F ->
  exists k' t' F', delete k (hookof C) = Ok k' /\ taken k (plug C (Node a l b sz r)) F b sz k' t' F'.
Proof.
  intros A. pose proof (arena_good _ _ _ A) as G. pose proof (pos_plug _ _ (good_pos _ G)) as Hpos.
  destruct (delete_ok k C a l b sz r F (arena_state _ _ _ A) Hpos) as (k' & E & S & Q).
  destruct (bytes_del C a l b sz r G) as (R & R1 & R2 & R3 & R4). unfold in_block.
  exists k', (plug C (join l r)), (a :: F). split; [done|]. split.
  - eapply arena_quiet; [exact A|exact Q|exact S|by eapply good_join|]. intros y. rewrite R3. intros Hy.
    eapply arena_free; [exact A|]. rewrite R1. by left.
  - eapply kept_mono; [by apply kept_quiet|unfold CLSIZE; lia].
  - intros y Hy. rewrite R1. by right.
  - intros y. rewrite R1, R3. specialize (R2 y). unfold in_block. tauto.
Qed.

(** The place in the block: after its misaligned bytes, if there are more. *)
Definition place b sz : Z := if misaligned b sz then b + ALIGNMORE b else b.

(** The rest of a block of which the middle is taken. *)
Lemma free_rest k C a x l b sz r F k3 F3 n : arena k (plug C (Node a l b sz r)) F ->
  arena k3 (plug C (sink x b (ALIGNMORE b) l r)) F3 -> kept CLSIZE k k3 -> spare k3 (plug C (sink x b (ALIGNMORE b) l r)) F3 a ->
  CLSIZE <= supply (pages k3) -> 0 < n -> ALIGNMORE b + n <= sz -> (b + (ALIGNMORE b + n) < b + sz -> b + (ALIGNMORE b + n) <= limit) ->
  exists k4 t4 F4,
    (if n + ALIGNMORE b <? sz then kmem_free usrpt k3 (b + (n + ALIGNMORE b)) (sz - (n + ALIGNMORE b)) else Ok k3) = Ok k4
    /\ arena k4 t4 F4 /\ kept CLSIZE k3 k4 /\ spare k4 t4 F4 a
    /\ forall y, byte (flat t4) y <-> byte (flat (plug C (Node a l b sz r))) y /\ ~ in_block (b + ALIGNMORE b) n y.
Proof.
  intros A A3 K3 S3 Hsup Hn Hle Hlim. pose proof (ALIGNMORE_eq b) as Hal.
  destruct (bytes_del C a l b sz r (arena_good _ _ _ A)) as (R & R1 & R2 & R3 & R4).
  destruct (Z.ltb_spec (n + ALIGNMORE b) sz).
  - destruct (kmem_free_spec k3 (plug C (sink x b (ALIGNMORE b) l r)) F3 (b + (n + ALIGNMORE b)) (sz - (n + ALIGNMORE b)))
      as [[(y & Hy & Hb) _]|[_ (k4 & t4 & F4 & E4 & A4 & K4 & SP & B4)]]; try done; try (unfold limit in Hlim; lia).
    + intros y Hy. rewrite (kept_owned _ _ _ K3). eapply arena_free; [exact A|]. rewrite R1. unfold in_block in Hy. right. lia.
    + apply R4 in Hb as [Hb|Hb]; unfold in_block in Hy; [|lia]. exfalso. apply (R2 y); [lia|done].
    + exists k4, t4, F4. do 3 (split; [done|]). split; [by apply SP|].
      intros y. rewrite B4, R4, R1. specialize (R2 y). unfold in_block.
      assert (Hy : b <= y < b + sz <-> (b <= y < b + ALIGNMORE b \/ b + (n + ALIGNMORE b) <= y < b + (n + ALIGNMORE b) + (sz - (n + ALIGNMORE b)))
        \/ b + ALIGNMORE b <= y < b + ALIGNMORE b + n) by lia.
      assert (~ ((b <= y < b + ALIGNMORE b \/ b + (n + ALIGNMORE b) <= y < b + (n + ALIGNMORE b) + (sz - (n + ALIGNMORE b)))
        /\ b + ALIGNMORE b <= y < b + ALIGNMORE b + n)) by lia.
      tauto.
  - eexists k3, _, F3. split; [done|]. split; [exact A3|]. split; [split; try done; unfold CLSIZE; lia|]. split; [done|].
    intros y. rewrite R4, R1. specialize (R2 y). unfold in_block.
    assert (Hy : b <= y < b + sz <-> b <= y < b + ALIGNMORE b \/ b + ALIGNMORE b <= y < b + ALIGNMORE b + n) by lia.
    assert (~ (b <= y < b + ALIGNMORE b /\ b + ALIGNMORE b <= y < b + ALIGNMORE b + n)) by lia. tauto.
Qed.

Lemma take_node_ok k C a l b sz r F nbytes : arena k (plug C (Node a l b sz r)) F -> 2 * CLSIZE <= supply (pages k) ->
  0 < nbytes <= mw (Node a l b sz r) ->
  (misaligned b sz = true -> place b sz + nbytes < b + sz -> place b sz + nbytes <= limit) ->
  exists k' t' F', take_node usrpt k (hookof C) a nbytes = Ok (k', place b sz)
    /\ taken k (plug C (Node a l b sz r)) F (place b sz) nbytes k' t' F'.
Proof.
  intros A Hsup Hn Hlim. pose proof (arena_good _ _ _ A) as G. pose proof (state_holds _ _ _ (arena_state _ _ _ A)) as Hh.
  destruct (focus_node _ _ _ _ _ _ _ Hh) as (L & Ha & Ha0 & _). pose proof (good_range _ G (a, (b, sz))) as Hr.
  destruct Hr as [Hr1 Hr2]; [rewrite flat_plug; cbn [flat]; elems|]. unfold lo, hi in Hr1, Hr2. cbn in Hr1, Hr2.
  unfold take_node. rewrite Ha. cbn [obind left right block size]. cbn [mw] in Hn. unfold place in *.
  pose proof (misaligned_spec b sz) as Hm. pose proof (ALIGNMORE_eq b) as Hal.
  rewrite u32_small by (destruct (misaligned b sz); lia). unfold SMALLEST_BLK.
  destruct (Z.ltb_spec (sz - nbytes) 1).
  - assert (sz = nbytes /\ misaligned b sz = false) as [-> ->] by (destruct (misaligned b sz); [lia|split; [lia|done]]).
    destruct (take_all k C a l b nbytes r F A) as (k' & t' & F' & E & T). rewrite E. cbn [obind]. by exists k', t', F'.
  - destruct (misaligned b sz) eqn:Em.
    + destruct Hm as [[Hm1 Hm2] _]; [done|].
      destruct (state_shrink k C a l b sz r F b (ALIGNMORE b) A Hsup) as (k0 & x & k1 & k2 & k3 & F3 & -> & E1 & E2 & E3 & A3 & K3 & Ha3 & _ & S3);
        [lia..|]. cbn [obind].
      rewrite E1. cbn [obind]. rewrite E2. cbn [obind]. rewrite E3. cbn [obind]. rewrite Ha3. cbn [obind block size].
      rewrite !(u32_small (_ + _)) by lia.
      destruct (free_rest k C a x l b sz r F k3 F3 nbytes) as (k4 & t4 & F4 & E4 & A4 & K4 & S4 & B4); try done; try lia.
      { unfold CLSIZE in *. destruct K3. lia. }
      rewrite E4. cbn [obind].
      destruct (arena_free_hdr k4 t4 F4 a A4 Ha0 S4) as (k5 & -> & A5 & K5). cbn [obind].
      exists k5, t4, (a :: F4). split; [done|]. split; try done.
      * eapply kept_mono; [eapply kept_trans; [exact K3|by eapply kept_trans]|unfold CLSIZE; lia].
      * intros y Hy. destruct (bytes_del C a l b sz r G) as (R & R1 & _). rewrite R1. right. unfold in_block in Hy. lia.
    + destruct (state_shrink k C a l b sz r F (b + nbytes) (sz - nbytes) A Hsup) as (k0 & x & k1 & k2 & k3 & F3 & -> & E1 & E2 & E3 & A3 & K3 & Ha3 & _ & S3);
        [lia..|]. cbn [obind]. rewrite !(u32_small (_ + _)) by lia.
      rewrite E1. cbn [obind]. rewrite E2. cbn [obind]. rewrite E3. cbn [obind]. rewrite Ha3. cbn [obind block size].
      destruct (arena_free_hdr k3 _ F3 a A3 Ha0 S3) as (k4 & -> & A4 & K4). cbn [obind].
      eexists k4, _, (a :: F3). split; [done|].
      destruct (bytes_del C a l b sz r G) as (R & R1 & R2 & R3 & R4). unfold in_block. split.
      * exact A4.
      * eapply kept_mono; [by eapply kept_trans|unfold CLSIZE; lia].
      * intros y Hy. unfold in_block in Hy. rewrite R1. right. lia.
      * intros y. rewrite R1, R4. specialize (R2 y). unfold in_block.
        assert (Hy : b <= y < b + sz <-> b <= y < b + nbytes \/ b + nbytes <= y < b + nbytes + (sz - nbytes)) by lia. 
        assert (~ (b <= y < b + nbytes /\ b + nbytes <= y < b + nbytes + (sz - nbytes))) by lia. tauto.
Qed.

(** ** Blocks that wait *)

Definition pending k : list (Z * Z) := need_to_free_list k ++ filter (fun x => x.1 <> 0) (need_to_free k).
Definition wbyte (W : list (Z * Z)) (a : Z) : Prop := exists w, w ∈ W /\ in_block w.1 w.2 a.
Definition used k t (a : Z) : Prop := owned k a /\ ~ byte (flat t) a.

(** Each can be freed: it is of bytes that are in use, and of no other's. *)
Definition freeable k t (w : Z * Z) : Prop := 0 <= w.2 /\ (0 < w.2 -> w.1 <= limit) /\ forall a, in_block w.1 w.2 a -> used k t a.
Definition disjoint_blocks (w w' : Z * Z) : Prop := forall a, in_block w.1 w.2 a -> ~ in_block w'.1 w'.2 a.
Definition ready k t (W : list (Z * Z)) : Prop := Forall (freeable k t) W /\ StronglySorted disjoint_blocks W.

Lemma arena_ext k k' t F : arena k t F -> hdrs k' = hdrs k -> free_root k' = free_root k -> free_hdr_list k' = free_hdr_list k ->
  pages k' = pages k -> arena k' t F /\ forall a, owned k' a <-> owned k a.
Proof.
  intros [S G HP HA HB HF] E1 E2 E3 E4. pose proof (state_nodup _ _ _ S) as (_ & _ & NF)%NoDup_app.
  assert (HO : forall a, owned k' a <-> owned k a) by (intros a; unfold owned, hbyte; by rewrite E1, E4).
  split; [|done]. split; try done.
  - eapply state_ext; try done. rewrite E3. apply S.
  - by rewrite E4.
  - by rewrite E1.
  - intros a. rewrite E4. unfold hbyte. rewrite E1. apply HB.
  - intros a Ha. apply HO. auto.
Qed.

(** One that waits is freed. *)
Lemma free_waiting k k1 t F p len W : arena k t F -> ready k t ((p, len) :: W) -> CLSIZE <= supply (pages k) ->
  hdrs k1 = hdrs k -> free_root k1 = free_root k -> free_hdr_list k1 = free_hdr_list k -> pages k1 = pages k ->
  exists k' t' F', kmem_free usrpt k1 p len = Ok k' /\ arena k' t' F' /\ ready k' t' W
    /\ (forall a, owned k' a <-> owned k a) /\ (forall a, byte (flat t') a <-> byte (flat t) a \/ in_block p len a)
    /\ supply (pages k) - CLSIZE <= supply (pages k')
    /\ need_to_free_list k' = need_to_free_list k1 /\ need_to_free k' = need_to_free k1.
Proof.
  intros A [[(Hl & Hp & Hu) HW]%Forall_cons [HD SW]%StronglySorted_cons] Hsup E1 E2 E3 E4.
  destruct (arena_ext k k1 t F A E1 E2 E3 E4) as [A1 O1]. cbn [fst snd] in *.
  assert (Hready : forall k' t', (forall a, owned k' a <-> owned k a) -> (forall a, byte (flat t') a <-> byte (flat t) a \/ in_block p len a) ->
    ready k' t' W).
  { intros k' t' HO HB. split; [|done]. rewrite Forall_forall in HW, HD |- *. intros w Hw.
    destruct (HW w Hw) as (W1 & W2 & W3). split; [done|]. split; [done|]. intros a Ha. destruct (W3 a Ha) as [W4 W5].
    split; [by apply HO|]. rewrite HB. intros [?|Hi]; [done|]. by apply (HD w Hw a). }
  destruct (Z.eq_dec len 0) as [->|Hl0].
  - exists k1, t, F. assert (HB : forall a, byte (flat t) a <-> byte (flat t) a \/ in_block p 0 a).
    { intros a. split; [by left|]. intros [?|Hi]; [done|]. unfold in_block in Hi. lia. }
    split; [done|]. split; [done|]. split; [by apply Hready|]. split; [done|]. split; [done|]. split; [|done].
    rewrite E4. unfold CLSIZE. lia.
  - destruct (kmem_free_spec k1 t F p len A1) as [[(a & Ha & Hb) _]|[_ (k2 & t2 & F2 & E & A2 & K2 & _ & B2)]].
    + by rewrite E4. + lia. + intros a Ha. apply O1, Hu, Ha. + unfold limit in Hp. lia.
    + by apply Hu in Ha as [_ ?].
    + assert (HO : forall a, owned k2 a <-> owned k a) by (intros a; by rewrite (kept_owned _ _ _ K2)).
      exists k2, t2, F2. destruct K2. rewrite E4 in *. split_and!; try done. by apply Hready.
Qed.

Lemma filter_find (l : list (Z * Z)) :
  match list_find (fun x => x.1 <> 0) l with
  | None => filter (fun x => x.1 <> 0) l = []
  | Some (i, (p, n)) => p <> 0 /\ exists W, filter (fun x => x.1 <> 0) l = (p, n) :: W
      /\ filter (fun x => x.1 <> 0) (<[i := (0, n)]> l) = W
  end.
Proof.
  induction l as [|[p n] l IH]; [done|]. cbn [list_find]. destruct (decide ((p, n).1 <> 0)) as [Hp|Hp].
  - split; [done|]. eexists. rewrite filter_cons_True by done. split; [done|].
    change (<[0%nat := (0, n)]> ((p, n) :: l)) with ((0, n) :: l). rewrite filter_cons_False; [done|]. cbn. lia.
  - destruct (list_find _ l) as [[i [p' n']]|] eqn:E; cbn [fmap option_fmap option_map prod_map fst snd];
      rewrite filter_cons_False by done; [|done].
    destruct IH as (Hp' & W & H1 & H2). split; [done|]. exists W. split; [done|].
    change (<[Datatypes.S i := (0, n')]> ((p, n) :: l)) with ((p, n) :: <[i := (0, n')]> l). by rewrite filter_cons_False.
Qed.

Lemma wbyte_cons w W a : wbyte (w :: W) a <-> in_block w.1 w.2 a \/ wbyte W a.
Proof. unfold wbyte. setoid_rewrite elem_of_cons. naive_solver. Qed.

Lemma wbyte_dec W a : wbyte W a \/ ~ wbyte W a.
Proof.
  induction W as [|w W IH]; [right; by intros (w & Hw%elem_of_nil & _)|]. rewrite wbyte_cons.
  assert (in_block w.1 w.2 a \/ ~ in_block w.1 w.2 a) by (unfold in_block; lia). tauto.
Qed.

Lemma check_need_ok fuel : forall k t F, (length (pending k) <= fuel)%nat -> arena k t F -> ready k t (pending k) ->
  CLSIZE * Z.of_nat (length (pending k)) <= supply (pages k) ->
  exists k' t' F', check_need_to_free usrpt fuel k = Ok k' /\ arena k' t' F' /\ pending k' = []
    /\ (forall a, owned k' a <-> owned k a) /\ (forall a, byte (flat t') a <-> byte (flat t) a \/ wbyte (pending k) a)
    /\ supply (pages k) - CLSIZE * Z.of_nat (length (pending k)) <= supply (pages k').
Proof.
  induction fuel as [|fuel IH]; intros k t F Hf A R Hs; pose proof (filter_find (need_to_free k)) as Hff.
  - assert (E : pending k = []) by (destruct (pending k); [done|cbn in Hf; lia]).
    exists k, t, F. rewrite E in *. unfold pending in E. apply app_eq_nil in E as [E1 E2].
    cbn [check_need_to_free]. unfold check_slots. rewrite E1.
    destruct (list_find _ (need_to_free k)) as [[i [p n]]|]; [destruct Hff as (_ & W & Hw & _); congruence|].
    split_and!; try done; [|cbn; lia].
    intros a. split; [by left|]. intros [?|(w & Hw%elem_of_nil & _)]; done.
  - cbn [check_need_to_free]. unfold check_slots. destruct (need_to_free_list k) as [|[p n] l] eqn:El.
    + destruct (list_find _ (need_to_free k)) as [[i [p n]]|] eqn:Ef.
      * destruct Hff as (Hp & W & EW & EW'). assert (E : pending k = (p, n) :: W) by (unfold pending; by rewrite El, EW).
        rewrite E in *. cbn [length] in *.
        destruct (free_waiting k (k <| need_to_free := <[i := (0, n)]> (need_to_free k) |>) t F p n W A R)
          as (k1 & t1 & F1 & E1 & A1 & R1 & O1 & B1 & S1 & N1 & M1); try done; [unfold CLSIZE in *; lia|].
        assert (EP : pending k1 = W) by (unfold pending; rewrite N1, M1; cbn; by rewrite El, EW').
        rewrite E1. cbn [obind]. destruct (IH k1 t1 F1) as (k2 & t2 & F2 & E2 & A2 & P2 & O2 & B2 & S2);
          rewrite ?EP; try done; [lia|unfold CLSIZE in *; lia|].
        rewrite EP in *. exists k2, t2, F2. split_and!; try done; [intros a; by rewrite O2|intros a|unfold CLSIZE in *; lia].
        rewrite B2, B1, wbyte_cons. cbn. tauto.
      * assert (E : pending k = []) by (unfold pending; by rewrite El, Hff). exists k, t, F. rewrite E.
        split_and!; try done; [|cbn; lia]. intros a. split; [by left|]. intros [?|(w & Hw%elem_of_nil & _)]; done.
    + set (W := l ++ filter (fun x => x.1 <> 0) (need_to_free k)).
      assert (E : pending k = (p, n) :: W) by (unfold pending; by rewrite El). rewrite E in *. cbn [length] in *.
      destruct (free_waiting k (k <| need_to_free_list := l |>) t F p n W A R)
        as (k1 & t1 & F1 & E1 & A1 & R1 & O1 & B1 & S1 & N1 & M1); try done; [unfold CLSIZE in *; lia|].
      assert (EP : pending k1 = W) by (unfold pending; by rewrite N1, M1).
      rewrite E1. cbn [obind]. destruct (IH k1 t1 F1) as (k2 & t2 & F2 & E2 & A2 & P2 & O2 & B2 & S2);
        rewrite ?EP; try done; [lia|unfold CLSIZE in *; lia|].
      rewrite EP in *. exists k2, t2, F2. split_and!; try done; [intros a; by rewrite O2|intros a|unfold CLSIZE in *; lia].
      rewrite B2, B1, wbyte_cons. cbn. tauto.
Qed.

(** ** More pages *)

Lemma roundup_ok n : 0 < n -> n + CLBYTES <= 2 ^ 32 ->
  let m := roundup n CLBYTES in n <= m /\ m mod CLBYTES = 0 /\ CLBYTES <= m /\ m / NBPG * NBPG = m /\ m < n + CLBYTES.
Proof.
  intros Hn Hs m. change CLBYTES with 1024 in *. assert (E : m = (n + 1023) / 1024 * 1024).
  { unfold m, roundup. rewrite (u32_small (n + _)) by lia. apply u32_small. lia. }
  unfold NBPG. lia.
Qed.

Lemma morecore_ok k t F nbytes : arena k t F -> 0 < nbytes -> nbytes + CLBYTES <= 2 ^ 32 ->
  let m := roundup nbytes CLBYTES in m / NBPG + CLSIZE <= supply (pages k) ->
  exists k' t' F' p, morecore usrpt k nbytes = Ok (k', true) /\ arena k' t' F' /\ p mod NBPG = 0
    /\ (forall a, owned k' a <-> owned k a \/ in_block p m a) /\ (forall a, in_block p m a -> ~ owned k a)
    /\ (forall a, byte (flat t') a <-> byte (flat t) a \/ in_block p m a)
    /\ supply (pages k) - m / NBPG - CLSIZE <= supply (pages k') /\ pending k' = pending k.
Proof.
  intros A Hn Hs m Hsup. destruct (roundup_ok nbytes Hn Hs) as (M1 & M2 & M3 & M4 & M5). fold m in M1, M2, M3, M4, M5.
  destruct (getpages_ok (pages k) (m / NBPG) (arena_pages _ _ _ A)) as (p & pg & E & P0 & P1 & P2 & P3 & P4 & P5 & P6 & P7).
  { change CLBYTES with 1024 in *. unfold NBPG, CLSIZE in *. lia. }
  rewrite M4 in *. unfold morecore. fold m. rewrite E. cbn [obind]. rewrite (proj2 (Z.eqb_neq p 0)) by lia.
  set (k1 := k <| pages := pg |>). destruct A as [S G HP HA HB HF].
  assert (HO : forall a, owned k1 a <-> owned k a \/ in_block p m a).
  { intros a. unfold owned. change (pages k1) with pg. change (hbyte k1 a) with (hbyte k a). rewrite P7. unfold in_block.
    specialize (P6 a). specialize (HB a). tauto. }
  assert (HN : forall a, in_block p m a -> ~ owned k a) by (intros a Ha [Hg _]; by eapply P6).
  assert (A1 : arena k1 t F).
  { split; try done.
    - pose proof (state_nodup _ _ _ S) as (_ & _ & NF)%NoDup_app. eapply state_ext; try done. apply S.
    - intros a Ha. change (pages k1) with pg. rewrite P7. left. by apply HB.
    - intros a Ha. rewrite HO. left. by apply HF. }
  destruct (kmem_free_spec k1 t F p m A1) as [[(a & Ha & Hb) _]|[_ (k2 & t2 & F2 & E2 & A2 & K2 & _ & B2)]].
  - change (pages k1) with pg. lia.
  - change CLBYTES with 1024 in *. lia.
  - intros a Ha. rewrite HO. by right.
  - change CLBYTES with 1024 in *. unfold NBPG in *. lia.
  - exfalso. apply (HN a Ha). by apply HF.
  - rewrite E2. cbn [obind]. exists k2, t2, F2, p. destruct K2 as [KO KS KN KM]. split; [done|]. split; [done|].
    split; [done|]. split; [intros a; by rewrite KO|]. split; [done|]. split; [done|]. split.
    + change (pages k1) with pg in KS. lia.
    + unfold pending. by rewrite KN, KM.
Qed.

(** ** Blocks that begin at a word *)

Definition wordy t : Prop := forall n, n ∈ flat t -> lo n mod 4 = 0.

Lemma ordered_apart L n m : ordered L -> n ∈ L -> m ∈ L -> n = m \/ apart n m \/ apart m n.
Proof.
  induction L as [|x L IH]; [by intros _ ?%elem_of_nil|]. unfold ordered. rewrite StronglySorted_cons, Forall_forall.
  intros [H1 H2]. rewrite !elem_of_cons. intros [->|Hn] [->|Hm]; auto.
Qed.

(** A block begins where the byte before is not free, and ends where the next is not. *)
Lemma block_edges t n : good t -> n ∈ flat t -> ~ byte (flat t) (lo n - 1) /\ ~ byte (flat t) (hi n).
Proof.
  intros G Hn. split; intros (m & Hm & Hb); pose proof (heap_sizes _ _ _ (good_heap _ G) Hn);
    destruct (ordered_apart _ n m (good_ordered _ G) Hn Hm) as [<-|[Ha|Ha]]; unfold apart, lo, hi in *; lia.
Qed.

Lemma wordy_add t t' p len : good t -> good t' -> wordy t -> p mod 4 = 0 ->
  (forall a, byte (flat t') a <-> byte (flat t) a \/ in_block p len a) -> wordy t'.
Proof.
  intros G G' Hw Hp HB n Hn. pose proof (heap_sizes _ _ _ (good_heap _ G') Hn).
  destruct (block_edges _ _ G' Hn) as [He _]. rewrite HB in He.
  assert (Hb : byte (flat t') (lo n)) by (exists n; split; [done|unfold lo, hi; lia]).
  apply HB in Hb as [(m & Hm & Hi)|Hi].
  - destruct (Z.eq_dec (lo m) (lo n)) as [<-|]; [by apply Hw|]. exfalso. apply He. left. exists m. split; [done|lia].
  - destruct (Z.eq_dec p (lo n)) as [<-|]; [done|]. exfalso. apply He. right. unfold in_block in *. lia.
Qed.

(** Consecutive free bytes are of one block. *)
Lemma run_block t p len : good t -> 0 < len -> (forall a, in_block p len a -> byte (flat t) a) ->
  exists n, n ∈ flat t /\ lo n <= p /\ p + len <= hi n.
Proof.
  intros G Hl Hr. destruct (Hr p) as (n & Hn & Hb); [unfold in_block; lia|]. exists n. split; [done|]. split; [lia|].
  destruct (Z.le_gt_cases (p + len) (hi n)); [done|]. exfalso. apply (proj2 (block_edges _ _ G Hn)). apply Hr. unfold in_block. lia.
Qed.

Lemma heap_max w t n : heap w t -> n ∈ flat t -> n.2.2 <= wt t.
Proof.
  revert w. induction t as [|x l IHl b sz r IHr]; [by intros w _ ?%elem_of_nil|]. intros w (Hs & Hl & Hr).
  cbn [flat wt]. rewrite elem_of_app, elem_of_cons. intros [Hn|[->|Hn]]; [|cbn; lia|].
  - pose proof (IHl _ Hl Hn). destruct l; cbn in *; [by apply elem_of_nil in Hn|lia].
  - pose proof (IHr _ Hr Hn). destruct r; cbn in *; [by apply elem_of_nil in Hn|lia].
Qed.

Lemma aligned_block b sz : b mod 4 = 0 -> misaligned b sz = false.
Proof. intros Hb. apply not_true_iff_false. rewrite misaligned_spec. lia. Qed.

Lemma wordy_mw t p len : good t -> wordy t -> 0 < len -> (forall a, in_block p len a -> byte (flat t) a) -> len <= mw t.
Proof.
  intros G Hw Hl Hr. destruct (run_block t p len G Hl Hr) as (n & Hn & H1 & H2).
  pose proof (heap_max _ _ _ (good_heap _ G) Hn) as Hmax. destruct t as [|x l b sz r]; [by apply elem_of_nil in Hn|].
  cbn [mw wt] in *. rewrite aligned_block; [unfold lo, hi in *; lia|]. apply (Hw (x, (b, sz))). cbn [flat]. elems.
Qed.

Lemma wordy_take t t' p len : good t -> good t' -> wordy t -> (p + len) mod 4 = 0 ->
  (forall a, byte (flat t') a <-> byte (flat t) a /\ ~ in_block p len a) -> wordy t'.
Proof.
  intros G G' Hw Hp HB n Hn. pose proof (heap_sizes _ _ _ (good_heap _ G') Hn).
  destruct (block_edges _ _ G' Hn) as [He _]. rewrite HB in He.
  assert (Hb : byte (flat t') (lo n)) by (exists n; split; [done|unfold lo, hi; lia]).
  apply HB in Hb as [(m & Hm & Hi) Hnb].
  destruct (Z.eq_dec (lo m) (lo n)) as [<-|]; [by apply Hw|].
  destruct (Z.eq_dec (p + len) (lo n)) as [<-|]; [done|]. exfalso. apply He. split; [exists m; split; [done|lia]|].
  unfold in_block in *. lia.
Qed.

(** ** The whole *)

Definition alloc_node k nbytes : outcome (kmem K * Z) :=
  let* r := fit_loop (steps k) k Root (free_root k) nbytes in take_node usrpt k r.1 r.2 nbytes.

Lemma alloc_node_ok k t F nbytes : arena k t F -> 2 * CLSIZE <= supply (pages k) -> 0 < nbytes <= mw t ->
  wordy t \/ (forall a, byte (flat t) a -> a <= limit) ->
  exists k' t' F' p, alloc_node k nbytes = Ok (k', p) /\ taken k t F p nbytes k' t' F'
    /\ (4 <= nbytes -> p mod 4 = 0) /\ (wordy t -> nbytes mod 4 = 0 -> wordy t').
Proof.
  intros A Hsup Hn Hw. pose proof (state_holds _ _ _ (arena_state _ _ _ A)) as Hh. unfold alloc_node.
  destruct (fit_loop_ok nbytes t (proj1 Hn) [] k (steps k) Hh) as (C & s & E & Epl & Hs); [|lia|].
  { pose proof (steps_fuel k [] t Hh). lia. }
  cbn [plug hookof] in *. rewrite <- (holds_root _ _ Hh) in E. rewrite E. cbn [obind fst snd]. subst t.
  destruct s as [|a l b sz r]; [cbn in Hs; lia|]. cbn [ptr]. pose proof (arena_good _ _ _ A) as G.
  assert (Hmis : wordy (plug C (Node a l b sz r)) -> b mod 4 = 0).
  { intros Hwd. apply (Hwd (a, (b, sz))). rewrite flat_plug. cbn [flat]. elems. }
  pose proof (misaligned_spec b sz) as Hm. pose proof (ALIGNMORE_eq b) as Hal.
  destruct (take_node_ok k C a l b sz r F nbytes A Hsup) as (k' & t' & F' & E' & T); [lia| |].
  { intros Hmi Hlt. destruct Hw as [Hwd|Hlim]; [rewrite aligned_block in Hmi by auto; done|]. apply Hlim.
    destruct (bytes_del C a l b sz r G) as (R & R1 & _). rewrite R1. right. unfold place in *. rewrite Hmi in *. cbn [mw] in Hs. lia. }
  assert (Hp : 4 <= nbytes -> place b sz mod 4 = 0).
  { intros H4. unfold place. cbn [mw] in Hs. destruct (misaligned b sz) eqn:Em; [lia|].
    destruct (Z.eq_dec (b mod 4) 0); [done|]. assert (false = true) by (apply Hm; lia). done. }
  exists k', t', F', (place b sz). split; [done|]. split; [done|]. split; [done|].
  intros Hwd Hn4. eapply wordy_take; [exact G|apply (taken_arena _ _ _ _ _ _ _ _ T)|done| |apply (taken_bytes _ _ _ _ _ _ _ _ T)].
  specialize (Hp ltac:(lia)). lia.
Qed.

(** What a caller sees: the new block is of bytes that nobody used, and what waited
    is no longer in use. *)
Record allocated k t nbytes k' t' F' p : Prop := {
  allocated_arena : arena k' t' F';
  allocated_fresh : forall a, in_block p nbytes a -> used k t a -> wbyte (pending k) a;
  allocated_used : forall a, used k' t' a <-> used k t a /\ ~ wbyte (pending k) a \/ in_block p nbytes a;
  allocated_pending : pending k' = [];
  allocated_word : 4 <= nbytes -> p mod 4 = 0
}.

(** Pages enough for an allocation, whatever the tree. *)
Definition pages_for k nbytes : Z := CLSIZE * Z.of_nat (length (pending k)) + roundup nbytes CLBYTES / NBPG + 3 * CLSIZE.

Lemma wordy_pending t t' W : good t -> good t' -> wordy t -> Forall (fun w => w.1 mod 4 = 0) W ->
  (forall a, byte (flat t') a <-> byte (flat t) a \/ wbyte W a) -> wordy t'.
Proof.
  intros G G' Hw HW HB n Hn. pose proof (heap_sizes _ _ _ (good_heap _ G') Hn). rewrite Forall_forall in HW.
  destruct (block_edges _ _ G' Hn) as [He _]. rewrite HB in He.
  assert (Hb : byte (flat t') (lo n)) by (exists n; split; [done|unfold lo, hi; lia]).
  apply HB in Hb as [(m & Hm & Hi)|(w & Hwi & Hi)].
  - destruct (Z.eq_dec (lo m) (lo n)) as [<-|]; [by apply Hw|]. exfalso. apply He. left. exists m. split; [done|lia].
  - destruct (Z.eq_dec w.1 (lo n)) as [<-|]; [by apply HW|]. exfalso. apply He. right. exists w.
    split; [done|]. unfold in_block in *. lia.
Qed.

(** With room in the largest block nothing is asked for. *)
Lemma alloc_fits k t F nbytes : arena k t F -> 2 * CLSIZE <= supply (pages k) -> 0 < nbytes <= mw t ->
  (let* w := mweight k (free_root k) in
   let* k := if w <? nbytes then let* r := morecore usrpt k nbytes in if r.2 then Ok r.1 else Panic "kmem_alloc" else Ok k in
   alloc_node k nbytes) = alloc_node k nbytes.
Proof.
  intros A Hsup Hn. pose proof (state_holds _ _ _ (arena_state _ _ _ A)) as Hh.
  rewrite (holds_root _ _ Hh), (rep_mweight k t) by apply Hh. cbn [obind]. by rewrite (proj2 (Z.ltb_ge _ _)) by lia.
Qed.

Lemma kmem_alloc_unfold k nbytes : SMALLEST_BLK <= nbytes -> kmem_alloc usrpt k nbytes =
  let* k := check_need_to_free usrpt (length (need_to_free_list k) + length (need_to_free k)) k in
  let* w := mweight k (free_root k) in
  let* k := if w <? nbytes then let* r := morecore usrpt k nbytes in if r.2 then Ok r.1 else Panic "kmem_alloc" else Ok k in
  alloc_node k nbytes.
Proof.
  unfold SMALLEST_BLK. intros Hn. unfold kmem_alloc. by rewrite (proj2 (Z.eqb_neq _ _)), (proj2 (Z.ltb_ge _ _)) by (unfold SMALLEST_BLK; lia).
Qed.

Lemma pending_length k : (length (pending k) <= length (need_to_free_list k) + length (need_to_free k))%nat.
Proof.
  unfold pending. rewrite length_app. pose proof (length_filter (fun x : Z * Z => x.1 <> 0) (need_to_free k)). lia.
Qed.

Lemma taken_used k t F p n k' t' F' a : arena k t F -> taken k t F p n k' t' F' -> used k' t' a <-> used k t a \/ in_block p n a.
Proof.
  intros A [A' KT TB TY]. unfold used. rewrite TY, (kept_owned _ _ _ KT). specialize (TB a). pose proof (arena_free _ _ _ A a).
  assert (in_block p n a \/ ~ in_block p n a) by (unfold in_block; lia). tauto.
Qed.

(** [w] is what [morecore] has to make true: room in the largest block. *)
Lemma grow_ok k t F nbytes : arena k t F -> wordy t -> pending k = [] -> 0 < nbytes -> nbytes + CLBYTES <= 2 ^ 32 ->
  roundup nbytes CLBYTES / NBPG + 3 * CLSIZE <= supply (pages k) ->
  exists k' t' F', (let* w := mweight k (free_root k) in
      if w <? nbytes then let* r := morecore usrpt k nbytes in if r.2 then Ok r.1 else Panic "kmem_alloc" else Ok k) = Ok k'
    /\ arena k' t' F' /\ wordy t' /\ pending k' = [] /\ nbytes <= mw t' /\ 2 * CLSIZE <= supply (pages k')
    /\ forall a, used k' t' a <-> used k t a.
Proof.
  intros A Hw Hp Hn Hs Hsup. pose proof (state_holds _ _ _ (arena_state _ _ _ A)) as Hh.
  destruct (roundup_ok nbytes Hn Hs) as (M1 & M2 & M3 & M4 & M5).
  rewrite (holds_root _ _ Hh), (rep_mweight k t) by apply Hh. cbn [obind]. destruct (Z.ltb_spec (mw t) nbytes).
  - destruct (morecore_ok k t F nbytes A Hn Hs) as (k' & t' & F' & p & E & A' & P1 & P2 & P3 & P4 & P5 & P6); [unfold CLSIZE in *; lia|].
    rewrite E. cbn [obind fst snd]. exists k', t', F'. pose proof (arena_good _ _ _ A) as G. pose proof (arena_good _ _ _ A') as G'.
    assert (Hw' : wordy t') by (eapply (wordy_add t t'); try done; unfold NBPG in P1; lia).
    split_and!; try done; [by rewrite P6| |unfold CLSIZE in *; lia|].
    + assert (roundup nbytes CLBYTES <= mw t'); [|lia]. eapply (wordy_mw t' p); try done; [lia|].
      intros a Ha. apply P4. by right.
    + intros a. unfold used. rewrite P2, P4. specialize (P3 a). pose proof (arena_free _ _ _ A a). tauto.
  - exists k, t, F. split_and!; try done. unfold CLBYTES, CLSIZE, NBPG in *. lia.
Qed.

Lemma alloc_steps k k1 k2 nbytes : SMALLEST_BLK <= nbytes ->
  check_need_to_free usrpt (length (need_to_free_list k) + length (need_to_free k)) k = Ok k1 ->
  (let* w := mweight k1 (free_root k1) in
   if w <? nbytes then let* r := morecore usrpt k1 nbytes in if r.2 then Ok r.1 else Panic "kmem_alloc" else Ok k1) = Ok k2 ->
  kmem_alloc usrpt k nbytes = alloc_node k2 nbytes.
Proof.
  intros Hn E1 E2. rewrite kmem_alloc_unfold, E1 by done. cbn [obind]. apply obind_ok in E2 as (w & -> & E2). cbn [obind].
  by rewrite E2.
Qed.

Lemma kmem_alloc_wordy k t F nbytes : arena k t F -> wordy t -> ready k t (pending k) ->
  Forall (fun w => w.1 mod 4 = 0) (pending k) -> 0 < nbytes -> nbytes + CLBYTES <= 2 ^ 32 -> pages_for k nbytes <= supply (pages k) ->
  exists k' t' F' p, kmem_alloc usrpt k nbytes = Ok (k', p) /\ allocated k t nbytes k' t' F' p /\ (nbytes mod 4 = 0 -> wordy t').
Proof.
  intros A Hw HR HW Hn Hs Hsup. unfold pages_for in Hsup. destruct (roundup_ok nbytes Hn Hs) as (M1 & M2 & M3 & M4 & M5).
  destruct (check_need_ok _ k t F (pending_length k) A HR) as (k1 & t1 & F1 & E1 & A1 & P1 & O1 & B1 & S1).
  { unfold CLSIZE, NBPG in *. lia. }
  destruct (grow_ok k1 t1 F1 nbytes A1) as (k2 & t2 & F2 & E2 & A2 & W2 & P2 & M6 & S2 & U2); try done.
  { eapply (wordy_pending t t1 (pending k)); [apply A|apply A1|done|done|done]. } { lia. }
  destruct (alloc_node_ok k2 t2 F2 nbytes A2 S2) as (k3 & t3 & F3 & p & E3 & T3 & Hp & Hw3); [lia|by left|].
  exists k3, t3, F3, p. rewrite (alloc_steps k k1 k2 nbytes), E3 by first [done | unfold SMALLEST_BLK; lia]. split; [done|].
  split; [|by intros ?; apply Hw3].
  assert (HU : forall a, used k2 t2 a <-> used k t a /\ ~ wbyte (pending k) a).
  { intros a. rewrite U2. unfold used. rewrite O1, B1. tauto. }
  split; [apply T3| | | |done].
  - intros a Ha Hu. pose proof (taken_before _ _ _ _ _ _ _ _ T3 a Ha) as Hb.
    destruct (wbyte_dec (pending k) a); [done|]. exfalso. destruct (proj2 (HU a)) as [_ Hnb]; done.
  - intros a. rewrite (taken_used _ _ _ _ _ _ _ _ a A2 T3), HU. done.
  - pose proof (taken_kept _ _ _ _ _ _ _ _ T3) as [_ _ K3 K4]. unfold pending in *. by rewrite K3, K4.
Qed.

End Alloc.
