(* ===== verification/KmemPages.v ===== *)
(** * The pages of the heap

    [getpages] of [sys/sys/heap_kmem.c] over the resource map of [Rmap]: the map
    keeps what [KmemHeap.PagesOk] asks for, with the length of its longest segment
    for the supply. *)
From S2P Require Import Prelude Rmap Kmem KmemHeap.

#[local] Ltac Zify.zify_post_hook ::= Z.to_euclidean_division_equations.

Definition PGSHIFT : Z := 9.

(** When the map has no segment that is long enough the process sleeps until
    another frees one; there is no next state then.  [vmemall] and [vmaccess] give
    the pages memory. *)
Definition kernelmap_getpages (cfg : swapcfg) (vaddr : Z) (m : rmst) (npages : Z) : outcome (Z * rmst) :=
  let* r := rmalloc cfg m npages in
  let '(m, x) := r in
  if x =? 0 then Fault else Ok (vaddr + Z.shiftl x PGSHIFT, m).

(** ** Segments *)

Definition largest (segs : list mapent) : Z := foldr (fun s n => Z.max (m_size s) n) 0 segs.

Lemma largest_ge segs s : s ∈ segs -> m_size s <= largest segs.
Proof. induction segs as [|t segs IH]; [by intros ?%elem_of_nil|]. intros [->|Hs]%elem_of_cons; cbn; [lia|]. apply IH in Hs. unfold largest in *. lia. Qed.

Lemma largest_0 segs : 0 <= largest segs.
Proof. induction segs; cbn; [lia|]. unfold largest in *. lia. Qed.

Lemma largest_in segs : 0 < largest segs -> exists s, s ∈ segs /\ m_size s = largest segs.
Proof.
  induction segs as [|t segs IH]; [cbn; lia|]. cbn. fold (largest segs). intros Hp.
  destruct (Z.le_gt_cases (m_size t) (largest segs)).
  - destruct IH as (s & Hs & E); [lia|]. exists s. rewrite elem_of_cons. split; [by right|lia].
  - exists t. rewrite elem_of_cons. split; [by left|lia].
Qed.

Lemma segs_apart lo segs s t : segs_ok lo segs -> s ∈ segs -> t ∈ segs ->
  s = t \/ m_addr s + m_size s < m_addr t \/ m_addr t + m_size t < m_addr s.
Proof.
  revert lo. induction segs as [|u segs IH]; intros lo; [by intros _ ?%elem_of_nil|]. intros (H1 & H2 & H3).
  pose proof (segs_pos _ _ H3) as Hp. rewrite Forall_forall in Hp. rewrite !elem_of_cons.
  intros [->|Hs] [->|Ht]; [by left|right; left; by apply Hp|right; right; by apply Hp|eauto].
Qed.

Lemma in_free_elem segs x : in_free segs x <-> exists s, s ∈ segs /\ in_seg s x.
Proof. apply Exists_exists. Qed.

Lemma run_seg lo segs p len : segs_ok lo segs -> 0 < len -> (forall x, p <= x < p + len -> in_free segs x) ->
  exists s, s ∈ segs /\ m_addr s <= p /\ p + len <= m_addr s + m_size s.
Proof.
  intros Ho Hl Hr. pose proof (Hr p ltac:(lia)) as (s & Hs & Hi)%in_free_elem. exists s. unfold in_seg in *. split; [done|].
  split; [lia|]. destruct (Z.le_gt_cases (p + len) (m_addr s + m_size s)); [done|]. exfalso.
  pose proof (Hr (m_addr s + m_size s) ltac:(lia)) as (t & Ht & Hj)%in_free_elem. unfold in_seg in Hj.
  destruct (segs_apart _ _ _ _ Ho Hs Ht) as [->|[?|?]]; lia.
Qed.

Lemma largest_take segs segs' a n : segs_ok 0 segs -> segs_ok 0 segs' -> 0 < n <= largest segs ->
  (forall x, a <= x < a + n -> in_free segs x) ->
  (forall x, in_free segs' x <-> in_free segs x /\ ~ (a <= x < a + n)) ->
  (forall s, s ∈ segs -> m_addr s < a -> m_size s < n) -> largest segs - n <= largest segs'.
Proof.
  intros Ho Ho' Hn Hb Hf Hfirst. destruct (largest_in segs) as (s & Hs & Es); [lia|].
  destruct (run_seg 0 segs a n Ho ltac:(lia) Hb) as (t & Ht & T1 & T2).
  assert (Hrun : forall p len, 0 < len -> (forall x, p <= x < p + len -> in_free segs' x) -> len <= largest segs').
  { intros p len Hl Hr. destruct (run_seg 0 segs' p len Ho' Hl Hr) as (u & Hu & U1 & U2). apply largest_ge in Hu. lia. }
  destruct (segs_apart _ _ _ _ Ho Hs Ht) as [<-|Hapart].
  - assert (m_addr s = a). { destruct (Z.eq_dec (m_addr s) a); [done|]. specialize (Hfirst s Hs ltac:(lia)). lia. }
    destruct (Z.eq_dec n (m_size s)); [pose proof (largest_0 segs'); lia|]. rewrite <- Es. apply (Hrun (a + n)); [lia|].
    intros x Hx. apply Hf. split; [|lia]. apply in_free_elem. exists s. split; [done|]. unfold in_seg. lia.
  - assert (m_size s <= largest segs'); [|lia]. apply (Hrun (m_addr s)); [lia|].
    intros x Hx. apply Hf. split; [|lia]. apply in_free_elem. exists s. split; [done|]. unfold in_seg. lia.
Qed.

(** The map keeps its name. *)
Lemma rmalloc_id cfg st size st' a : is_swapmap (m_id (rm_map st)) = false -> rmalloc cfg st size = Ok (st', a) ->
  m_id (rm_map st') = m_id (rm_map st).
Proof.
  intros Hid. unfold rmalloc. rewrite Hid, andb_false_l, orb_false_r. destruct (size <=? 0); [done|].
  generalize (@nil mapent). induction (rm_slots st) as [|bp rest IH]; intros pre; [done|]. cbn [rmalloc_search].
  rewrite Hid, !andb_false_l. destruct (m_size bp =? 0); [intros E; inv_ok; done|].
  destruct (size <=? m_size bp); [|apply IH]. unfold rmalloc_take. intros E. inv_ok. rewrite Hid in E. cbn [andb] in E. by inv_ok.
Qed.

(** ** The instance *)

Section KernelMap.
Context (cfg : swapcfg) (usrpt : Z).
Hypothesis usrpt_page : usrpt mod NBPG = 0.
Hypothesis usrpt_low : 0 < usrpt.
Hypothesis usrpt_high : usrpt + (USRPTSIZE + 1) * NBPG < 2 ^ 32.

Definition kernelmap_pages : Pages rmst := kernelmap_getpages cfg usrpt.
#[local] Existing Instance kernelmap_pages.

Definition km_sound (m : rmst) : Prop :=
  rm_inv (rm_slots m) /\ is_swapmap (m_id (rm_map m)) = false /\ forall x, free_at (rm_slots m) x -> 1 <= x <= USRPTSIZE.
Definition km_got (m : rmst) (a : Z) : Prop :=
  usrpt + NBPG <= a < usrpt + (USRPTSIZE + 1) * NBPG /\ ~ free_at (rm_slots m) ((a - usrpt) / NBPG).
Definition km_supply (m : rmst) : Z := largest (seg_prefix (rm_slots m)).

Lemma km_getpages m n : km_sound m -> 0 < n <= km_supply m -> exists p m', getpages m n = Ok (p, m')
    /\ km_sound m' /\ km_supply m - n <= km_supply m' /\ p mod NBPG = 0 /\ 0 < p /\ usrpt <= p
    /\ p + n * NBPG <= usrpt + (USRPTSIZE + 1) * NBPG
    /\ (forall a, p <= a < p + n * NBPG -> ~ km_got m a)
    /\ (forall a, km_got m' a <-> km_got m a \/ p <= a < p + n * NBPG).
Proof using All.
  intros (Hinv & Hid & Hr) Hn. unfold km_supply in *.
  destruct (rmalloc_spec cfg m n Hinv Hid ltac:(lia)) as (m' & x & E & Hinv' & _ & _ & _ & [(-> & -> & HF)|(Hx & Hb & Hf & HF)]).
  { exfalso. destruct (largest_in (seg_prefix (rm_slots m))) as (s & Hs & Es); [lia|].
    rewrite Forall_forall in HF. specialize (HF s Hs). cbn in HF. lia. }
  unfold getpages, kernelmap_pages, kernelmap_getpages. rewrite E. cbn [obind].
  rewrite (proj2 (Z.eqb_neq x 0)) by lia. rewrite Z.shiftl_mul_pow2 by done. change (2 ^ PGSHIFT) with NBPG.
  exists (usrpt + x * NBPG), m'. split; [done|].
  assert (Hx1 : 1 <= x) by (apply Hr, Hb; lia). assert (Hx2 : x + n <= USRPTSIZE + 1) by (specialize (Hr _ (Hb (x + n - 1) ltac:(lia))); lia).
  pose proof (rmalloc_id _ _ _ _ _ Hid E) as Hid'. destruct (rm_inv_segs _ Hinv) as (segs & i & _ & Ho & Es & _).
  destruct (rm_inv_segs _ Hinv') as (segs' & i' & _ & Ho' & Es' & _). unfold NBPG in *. split_and!.
  - split; [done|]. split; [congruence|]. intros y [Hy _]%Hf. auto.
  - unfold free_at in *. rewrite Es, Es' in *. apply (largest_take segs segs' x n); try done. intros s Hs. rewrite Forall_forall in HF. by apply HF.
  - lia.
  - lia.
  - lia.
  - lia.
  - intros a Ha [_ Hnf]. apply Hnf, Hb. unfold NBPG. lia.
  - intros a. unfold km_got, NBPG. rewrite Hf.
    assert (Ea : x <= (a - usrpt) / 512 < x + n <-> usrpt + x * 512 <= a < usrpt + x * 512 + n * 512) by lia.
    assert (Hd : usrpt + x * 512 <= a < usrpt + x * 512 + n * 512 \/ ~ (usrpt + x * 512 <= a < usrpt + x * 512 + n * 512)) by lia.
    assert (usrpt + x * 512 <= a < usrpt + x * 512 + n * 512 -> usrpt + 512 <= a < usrpt + (USRPTSIZE + 1) * 512) by lia.
    rewrite Ea. tauto.
Qed.

Definition kernelmap_ok : PagesOk rmst usrpt.
Proof using All.
  refine {| got := km_got; supply := km_supply; sound := km_sound |}.
  - done.
  - intros m a [Ha _]. unfold NBPG in *. lia.
  - apply km_getpages.
Defined.

End KernelMap.
