(* ===== verification/KmemSpec.v ===== *)
(** * The heap and its callers

    The theorems on [kmem_alloc], [kmem_free] and [kmem_free_intr]: against the
    blocks that callers have, and where the code fails to keep them apart. *)
From S2P Require Import Prelude Rmap Kmem KmemTree KmemStore KmemOps KmemHeap KmemAlloc KmemPages.

#[local] Ltac Zify.zify_post_hook ::= Z.to_euclidean_division_equations.

(** ** Callers *)

(** A caller asks for a block, or gives one back: the [i]-th of those it has. *)
Inductive op := Alloc (n : Z) | Release (i : nat) | ReleaseIntr (i : nat).

Lemma disjoint_sym w w' : disjoint_blocks w w' -> disjoint_blocks w' w.
Proof. intros H a H1 H2. by apply (H a). Qed.

Lemma disjoint_perm (L L' : list (Z * Z)) : L ≡ₚ L' -> StronglySorted disjoint_blocks L -> StronglySorted disjoint_blocks L'.
Proof.
  induction 1 as [|w L L' HP IH|w w' L|L L' L'' _ IH1 _ IH2]; [done|..].
  - rewrite !StronglySorted_cons, !Forall_forall. intros [H1 H2]. split; [|auto]. intros w' Hw'. apply H1. by rewrite HP.
  - rewrite !StronglySorted_cons, !Forall_cons. intros ((H1 & H2) & H3 & H4). split_and!; try done. by apply disjoint_sym.
  - auto.
Qed.

(** What callers may expect: a new block is disjoint from all that there are. *)
Inductive astep : list (Z * Z) -> op -> list (Z * Z) -> Prop :=
| astep_alloc L n p : p mod 4 = 0 -> Forall (disjoint_blocks (p, n)) L -> astep L (Alloc n) ((p, n) :: L)
| astep_release L i w : L !! i = Some w -> astep L (Release i) (base.delete i L)
| astep_intr L i w : L !! i = Some w -> astep L (ReleaseIntr i) (base.delete i L).

Section Client.
Context {K : Type} `{PagesOk K usrpt}.
Implicit Types (k : kmem K) (t : tree) (F : list Z) (L : list (Z * Z)).

Definition step k L (o : op) : outcome (kmem K * list (Z * Z)) :=
  match o with
  | Alloc n => let* r := kmem_alloc usrpt k n in Ok (r.1, (r.2, n) :: L)
  | Release i => let* w := deref (L !! i) in let* k := kmem_free usrpt k w.1 w.2 in Ok (k, base.delete i L)
  | ReleaseIntr i => let* w := deref (L !! i) in let* k := kmem_free_intr k w.1 w.2 in Ok (k, base.delete i L)
  end.

(** Sizes are of words; a block that is released is below the limit that
    [kmem_free] checks; one released from an interrupt has room for the link. *)
Definition allowed k L (o : op) : Prop :=
  match o with
  | Alloc n => 0 < n /\ n mod 4 = 0 /\ n + CLBYTES <= 2 ^ 32 /\ pages_for k n <= supply (pages k)
  | Release i => exists w, L !! i = Some w /\ w.1 <= limit (usrpt := usrpt) /\ CLSIZE <= supply (pages k)
  | ReleaseIntr i => exists w, L !! i = Some w /\ w.1 <= limit (usrpt := usrpt) /\ sizeof_need_to_free <= w.2
  end.

(** The blocks callers have, and those that wait: of words, disjoint, none of it free. *)
Record client_tree k t F L : Prop := {
  client_arena : arena k t F;
  client_wordy : wordy t;
  client_blocks : forall w, w ∈ L ++ pending k -> 0 < w.2 /\ w.1 mod 4 = 0 /\ forall a, in_block w.1 w.2 a -> used k t a;
  client_disjoint : StronglySorted disjoint_blocks (L ++ pending k);
  client_limit : Forall (fun w => w.1 <= limit (usrpt := usrpt)) (pending k)
}.
Definition client k L : Prop := exists t F, client_tree k t F L.

Lemma disjoint_wbyte (L W : list (Z * Z)) w a : StronglySorted disjoint_blocks (L ++ W) -> w ∈ L -> in_block w.1 w.2 a -> ~ wbyte W a.
Proof.
  rewrite StronglySorted_app. intros (HD & _ & _) Hw Ha (w' & Hw' & Ha'). by apply (HD w w' Hw Hw' a).
Qed.

Lemma client_ready k t F L : client_tree k t F L -> ready k t (pending k).
Proof.
  intros [A Hw HB HD HL]. split; [|apply StronglySorted_app in HD; tauto]. rewrite Forall_forall in HL |- *.
  intros w Hi. destruct (HB w) as (H1 & H2 & H3); [elems|]. split; [lia|]. split; [auto|done].
Qed.

Lemma step_alloc k L n : client k L -> allowed k L (Alloc n) ->
  exists k' L', step k L (Alloc n) = Ok (k', L') /\ astep L (Alloc n) L' /\ client k' L'.
Proof.
  intros (t & F & CT) (Hn & Hn4 & Hs & Hsup). pose proof (client_ready _ _ _ _ CT) as HR. destruct CT as [A Hw HB HD HL].
  destruct (kmem_alloc_wordy k t F n A Hw HR) as (k' & t' & F' & p & E & [A' Hfr Hus Hp Hp4] & Hw'); try done.
  { apply Forall_forall. intros w Hi. apply HB. elems. }
  specialize (Hp4 ltac:(lia)). cbn [step]. rewrite E. cbn [obind fst snd].
  assert (Hdis : forall w, w ∈ L -> disjoint_blocks (p, n) w).
  { intros w Hi a Ha Ha'. cbn [fst snd] in *. destruct (HB w) as (_ & _ & H3); [elems|].
    by apply (disjoint_wbyte _ _ w a HD), Hfr, H3. }
  exists k', ((p, n) :: L). split; [done|]. split; [constructor; [done|by apply Forall_forall]|].
  exists t', F'. split; [done|by apply Hw'| | |by rewrite Hp].
  - rewrite Hp, app_nil_r. intros w. rewrite elem_of_cons. intros [->|Hi]; cbn [fst snd].
    + split; [done|]. split; [done|]. intros a Ha. apply Hus. by right.
    + destruct (HB w) as (H1 & H2 & H3); [elems|]. split; [done|]. split; [done|]. intros a Ha. apply Hus. left.
      split; [auto|]. by eapply disjoint_wbyte.
  - rewrite Hp, app_nil_r. apply StronglySorted_cons. split; [by apply Forall_forall|]. apply StronglySorted_app in HD. tauto.
Qed.

(** Without one of the blocks. *)
Lemma client_take L W i w : L !! i = Some w -> StronglySorted disjoint_blocks (L ++ W) ->
  L ++ W ≡ₚ w :: base.delete i L ++ W /\ Forall (disjoint_blocks w) (base.delete i L ++ W) /\ StronglySorted disjoint_blocks (base.delete i L ++ W).
Proof.
  intros Hi HD. assert (P : L ++ W ≡ₚ w :: base.delete i L ++ W) by (exact (Permutation_app_tail W (delete_Permutation L i w Hi))).
  split; [done|]. apply (disjoint_perm _ _ P) in HD. by apply StronglySorted_cons in HD.
Qed.

Lemma step_release k L i : client k L -> allowed k L (Release i) ->
  exists k' L', step k L (Release i) = Ok (k', L') /\ astep L (Release i) L' /\ client k' L'.
Proof.
  intros (t & F & [A Hw HB HD HL]) (w & Hi & Hlim & Hsup). destruct (client_take L (pending k) i w Hi HD) as (P & Hd & HD').
  destruct (HB w) as (H1 & H2 & H3); [rewrite P; elems|].
  destruct (kmem_free_spec k t F w.1 w.2 A Hsup H1) as [[(a & Ha & Hb) _]|[_ (k' & t' & F' & E & A' & KK & _ & B)]].
  - intros a Ha. by apply H3. - done. - exfalso. by apply H3 in Ha as [_ ?].
  - cbn [step]. rewrite Hi. cbn [deref obind]. rewrite E. cbn [obind]. exists k', (base.delete i L).
    assert (Hp : pending k' = pending k) by (unfold pending; by rewrite (kept_ntf _ _ _ KK), (kept_slots _ _ _ KK)).
    split; [done|]. split; [by econstructor|]. exists t', F'. split; try (by rewrite ?Hp).
    + by eapply (wordy_add t t'); [apply A|apply A'|..].
    + rewrite Hp. intros w' Hw'. destruct (HB w') as (G1 & G2 & G3); [rewrite P; elems|]. split; [done|]. split; [done|].
      intros a Ha. destruct (G3 a Ha) as [O1 O2]. split; [by apply (kept_owned _ _ _ KK)|]. rewrite B. intros [?|Hb]; [done|].
      rewrite Forall_forall in Hd. by apply (Hd w' Hw' a).
Qed.

(** ** [kmem_free_intr] *)

Definition zeros (l : list (Z * Z)) : nat := length (filter (fun x => x.1 = 0) l).

Lemma find_zero (l : list (Z * Z)) :
  match list_find (fun x => x.1 = 0) l with
  | None => zeros l = 0%nat
  | Some (i, _) => exists l1 x l2, l = l1 ++ x :: l2 /\ i = length l1 /\ x.1 = 0
  end.
Proof.
  induction l as [|[p n] l IH]; [done|]. cbn [list_find]. destruct (decide ((p, n).1 = 0)) as [Hp|Hp].
  - by exists [], (p, n), l.
  - destruct (list_find _ l) as [[i x']|] eqn:E; cbn [fmap option_fmap option_map prod_map fst snd].
    + destruct IH as (l1 & x & l2 & -> & -> & Hx). by exists ((p, n) :: l1), x, l2.
    + unfold zeros. by rewrite filter_cons_False.
Qed.

Lemma fill_slot l1 (x : Z * Z) l2 p n : x.1 = 0 -> p <> 0 ->
  filter (fun x : Z * Z => x.1 <> 0) (<[length l1 := (p, n)]> (l1 ++ x :: l2)) ≡ₚ (p, n) :: filter (fun x : Z * Z => x.1 <> 0) (l1 ++ x :: l2)
  /\ zeros (l1 ++ x :: l2) = Datatypes.S (zeros (<[length l1 := (p, n)]> (l1 ++ x :: l2))).
Proof.
  intros Hx Hp. rewrite insert_app_r_alt, Nat.sub_diag by lia. unfold zeros. rewrite !filter_app.
  change (<[0%nat := (p, n)]> (x :: l2)) with ((p, n) :: l2).
  rewrite (filter_cons_True _ (p, n)), (filter_cons_False _ x), (filter_cons_True _ x), (filter_cons_False _ (p, n)) by (cbn; lia).
  split; [by rewrite <- Permutation_middle|]. rewrite !length_app. cbn [length]. lia.
Qed.

(** The slots that are not in use, and how many a block needs. *)
Definition free_slots k : Z := Z.of_nat (zeros (need_to_free k)).
Definition slots_for (p n : Z) : Z :=
  if n <? 8 then 1 else if p mod 4 =? 0 then 0 else if n - (4 - p mod 4) <? 8 then 2 else 1.

Definition same_heap k k' : Prop :=
  hdrs k' = hdrs k /\ free_root k' = free_root k /\ free_hdr_list k' = free_hdr_list k /\ pages k' = pages k.

Lemma defer_ok k p n : p <> 0 ->
  if (n <? 8) && (free_slots k =? 0) then defer k p n = Panic "kmem_free_intr"
  else exists k', defer k p n = Ok k' /\ pending k' ≡ₚ (p, n) :: pending k /\ same_heap k k'
    /\ free_slots k' = free_slots k - (if n <? 8 then 1 else 0).
Proof.
  intros Hp. unfold defer, sizeof_need_to_free. destruct (Z.ltb_spec n 8), (Z.leb_spec 8 n); try lia; cbn [andb].
  - pose proof (find_zero (need_to_free k)) as Hf. unfold free_slots. destruct (list_find _ (need_to_free k)) as [[i x0]|].
    + destruct Hf as (l1 & x & l2 & E & -> & Hx). destruct (fill_slot l1 x l2 p n Hx Hp) as [F1 F2]. rewrite E, F2.
      rewrite (proj2 (Z.eqb_neq _ _)) by lia. eexists. split; [done|]. split; [|split; [done|cbn -[zeros Z.of_nat Z.sub base.insert]; lia]].
      unfold pending. cbn. rewrite E, F1. by rewrite <- Permutation_middle.
    + by rewrite Hf.
  - rewrite (proj2 (Z.eqb_neq _ _)) by done. eexists. split; [done|]. split; [done|]. split; [done|]. unfold free_slots. cbn -[zeros Z.of_nat Z.sub]. lia.
Qed.

Lemma wbyte_perm (W W' : list (Z * Z)) a : W ≡ₚ W' -> wbyte W a <-> wbyte W' a.
Proof. intros P. unfold wbyte. split; intros (w & Hw & Ha); exists w; (split; [|done]); [by rewrite <- P|by rewrite P]. Qed.

(** One block alone. *)
Lemma defer_one k p n c : p <> 0 -> c = (if n <? 8 then 1 else 0) ->
  if c <=? free_slots k then
    exists k', defer k p n = Ok k' /\ same_heap k k' /\ free_slots k' = free_slots k - c
      /\ (forall a, wbyte (pending k') a <-> wbyte (pending k) a \/ in_block p n a) /\ pending k' ≡ₚ (p, n) :: pending k
  else defer k p n = Panic "kmem_free_intr".
Proof.
  intros Hp ->. pose proof (defer_ok k p n Hp) as Hd. assert (Hfs : 0 <= free_slots k) by (unfold free_slots; lia).
  assert (HB : forall k', pending k' ≡ₚ (p, n) :: pending k -> forall a, wbyte (pending k') a <-> wbyte (pending k) a \/ in_block p n a).
  { intros k' P a. rewrite (wbyte_perm _ _ a P), wbyte_cons. cbn. tauto. }
  destruct (Z.ltb_spec n 8); cbn [andb] in Hd.
  - destruct (Z.eqb_spec (free_slots k) 0), (Z.leb_spec 1 (free_slots k)); try lia; [done|].
    destruct Hd as (k' & E & P & Hh & Hs). exists k'. do 3 (split; [done|]). auto.
  - rewrite (proj2 (Z.leb_le 0 _)) by lia. destruct Hd as (k' & E & P & Hh & Hs). exists k'. do 3 (split; [done|]). auto.
Qed.

Lemma same_heap_trans k k1 k2 : same_heap k k1 -> same_heap k1 k2 -> same_heap k k2.
Proof. intros (A1 & A2 & A3 & A4) (B1 & B2 & B3 & B4). split_and!; congruence. Qed.

Lemma free_intr_ok k p n : 0 < p -> 0 < n ->
  if slots_for p n <=? free_slots k then
    exists k', kmem_free_intr k p n = Ok k' /\ same_heap k k' /\ free_slots k' = free_slots k - slots_for p n
      /\ (forall a, wbyte (pending k') a <-> wbyte (pending k) a \/ in_block p n a)
      /\ (p mod 4 = 0 -> pending k' ≡ₚ (p, n) :: pending k)
  else kmem_free_intr k p n = Panic "kmem_free_intr".
Proof.
  intros Hp Hn. unfold kmem_free_intr, slots_for, sizeof_need_to_free, nz. rewrite land_ALIGNMASK, ALIGNMORE_eq.
  assert (Hone : forall c, c = (if n <? 8 then 1 else 0) -> if c <=? free_slots k then
    exists k', defer k p n = Ok k' /\ same_heap k k' /\ free_slots k' = free_slots k - c
      /\ (forall a, wbyte (pending k') a <-> wbyte (pending k) a \/ in_block p n a) /\ (p mod 4 = 0 -> pending k' ≡ₚ (p, n) :: pending k)
    else defer k p n = Panic "kmem_free_intr").
  { intros c Hc. pose proof (defer_one k p n c ltac:(lia) Hc) as Hd. destruct (c <=? free_slots k); [|done]. naive_solver. }
  destruct (Z.ltb_spec n 8); [rewrite (proj2 (Z.leb_gt 8 n)) by lia; by apply Hone|].
  rewrite (proj2 (Z.leb_le 8 n)) by lia. cbn [andb].
  destruct (Z.eqb_spec (p mod 4) 0) as [Ha|Ha]; cbn [negb]; [by apply Hone|].
  set (i := 4 - p mod 4). assert (Hi : 1 <= i <= 3) by lia.
  pose proof (defer_one k p i 1 ltac:(lia) ltac:(by rewrite (proj2 (Z.ltb_lt i 8)) by lia)) as D1.
  assert (Hfs : 0 <= free_slots k) by (unfold free_slots; lia).
  destruct (Z.leb_spec 1 (free_slots k)).
  - destruct D1 as (k1 & E1 & Hh1 & Hs1 & B1 & _). rewrite E1. cbn [obind].
    pose proof (defer_one k1 (p + i) (n - i) _ ltac:(lia) eq_refl) as D2. rewrite Hs1 in D2.
    replace ((if n - i <? 8 then 2 else 1) <=? free_slots k) with ((if n - i <? 8 then 1 else 0) <=? free_slots k - 1)
      by (destruct (n - i <? 8); lia).
    destruct (_ <=? free_slots k - 1); [|done]. destruct D2 as (k2 & E2 & Hh2 & Hs2 & B2 & _). exists k2.
    split; [done|]. split; [by eapply same_heap_trans|]. split; [rewrite Hs2; destruct (n - i <? 8); lia|]. split; [|done].
    intros a. rewrite B2, B1. assert (E : in_block p n a <-> in_block p i a \/ in_block (p + i) (n - i) a) by (unfold in_block; lia).
    rewrite E. tauto.
  - rewrite D1. cbn [obind]. rewrite (proj2 (Z.leb_gt _ _)) by (destruct (n - i <? 8); lia). done.
Qed.

Lemma step_intr k L i : client k L -> allowed k L (ReleaseIntr i) ->
  exists k' L', step k L (ReleaseIntr i) = Ok (k', L') /\ astep L (ReleaseIntr i) L' /\ client k' L'.
Proof.
  intros (t & F & [A Hw HB HD HL]) (w & Hi & Hlim & H8). unfold sizeof_need_to_free in H8. pose proof usrpt_range as [U1 U2].
  destruct (client_take L (pending k) i w Hi HD) as (P & Hd & HD').
  destruct (HB w) as (H1 & H2 & H3); [rewrite P; elems|].
  assert (Hp : 0 < w.1). { destruct (H3 w.1) as [Ho _]; [unfold in_block; lia|]. apply owned_range in Ho. lia. }
  pose proof (free_intr_ok k w.1 w.2 Hp H1) as Hf. unfold slots_for in Hf.
  rewrite (proj2 (Z.ltb_ge _ _)), (proj2 (Z.eqb_eq _ _)) in Hf by done.
  rewrite (proj2 (Z.leb_le 0 _)) in Hf by (unfold free_slots; lia).
  destruct Hf as (k' & E & (E1 & E2 & E3 & E4) & _ & _ & HP). specialize (HP H2).
  cbn [step]. rewrite Hi. cbn [deref obind]. rewrite E. cbn [obind]. exists k', (base.delete i L).
  split; [done|]. split; [by econstructor|]. destruct (arena_ext k k' t F A E1 E2 E3 E4) as [A' HO].
  assert (P' : base.delete i L ++ pending k' ≡ₚ L ++ pending k).
  { rewrite HP, P. destruct w. by rewrite <- Permutation_middle. }
  exists t, F. split; try done.
  - intros w'. rewrite P'. intros Hw'. destruct (HB w' Hw') as (G1 & G2 & G3). split; [done|]. split; [done|].
    intros a Ha. destruct (G3 a Ha). split; [by apply HO|done].
  - by apply (disjoint_perm _ _ (symmetry P')).
  - rewrite HP. by constructor.
Qed.

(** From the start, by allowed steps. *)
Inductive reached (k0 : kmem K) : kmem K -> list (Z * Z) -> Prop :=
| reached_init : reached k0 k0 []
| reached_step k L o k' L' : reached k0 k L -> allowed k L o -> step k L o = Ok (k', L') -> reached k0 k' L'.

Lemma step_ok k L o : client k L -> allowed k L o -> exists k' L', step k L o = Ok (k', L') /\ astep L o L' /\ client k' L'.
Proof. destruct o; [apply step_alloc|apply step_release|apply step_intr]. Qed.

Lemma arena_init m : sound m -> arena (kmem_init m) Leaf [].
Proof.
  intros Hm. split; try done.
  - split; [by split; [done|done|constructor]|done|constructor].
  - split; [done|constructor|by intros n ?%elem_of_nil].
  - intros y [h Hh]. cbn in Hh. by rewrite lookup_empty in Hh.
  - intros a (y & [h Hh] & _). cbn in Hh. by rewrite lookup_empty in Hh.
  - intros a (n & ?%elem_of_nil & _). done.
Qed.

Lemma client_init m : sound m -> client (kmem_init m) [].
Proof.
  intros Hm. exists Leaf, []. split.
  - by apply arena_init.
  - by intros n ?%elem_of_nil.
  - by intros w ?%elem_of_nil.
  - constructor.
  - constructor.
Qed.

Lemma reached_client m k L : sound m -> reached (kmem_init m) k L -> client k L.
Proof.
  intros Hm. induction 1 as [|k L o k' L' _ IH Ha E]; [by apply client_init|].
  destruct (step_ok k L o IH Ha) as (k2 & L2 & E2 & _ & C2). rewrite E in E2. by injection E2 as -> ->.
Qed.

(** ** The theorems *)

(** C14: From [kmem_init] on, whatever blocks callers ask for and give back, each
    allowed call returns (no panic, no stray pointer), a new block is disjoint
    from every block that a caller has, and no byte of those is free; [kmem_alloc],
    [kmem_free] and [kmem_free_intr] so implement a set of disjoint blocks. *)
Theorem heap_refines m k L o : sound m -> reached (kmem_init m) k L -> allowed k L o ->
  exists k' L', step k L o = Ok (k', L') /\ astep L o L' /\ StronglySorted disjoint_blocks L'
    /\ exists t F, arena k' t F /\ forall w a, w ∈ L' -> in_block w.1 w.2 a -> used k' t a.
Proof.
  intros Hm HR Ha. destruct (step_ok k L o (reached_client m k L Hm HR) Ha) as (k' & L' & E & HA & (t & F & CT)).
  exists k', L'. split; [done|]. split; [done|]. pose proof (client_disjoint _ _ _ _ CT) as HD.
  apply StronglySorted_app in HD. split; [tauto|]. exists t, F. split; [apply CT|].
  intros w a Hw. apply (client_blocks _ _ _ _ CT). elems.
Qed.

(** C15: [kmem_free] of a block of the heap panics exactly when it begins in the
    last page, behind its first byte (the bound that is tested leaves that page
    out, though [kmem_alloc] gives blocks there), or a byte of it is free
    already; otherwise it returns, the tree is again ordered by address and by
    size with no two blocks that touch, and just the bytes of the block have
    become free. *)
Theorem kmem_free_correct k t F p len : arena k t F -> CLSIZE <= supply (pages k) -> 0 < len ->
  (forall a, in_block p len a -> owned k a) ->
  if usrpt + USRPTSIZE * NBPG <? p then kmem_free usrpt k p len = Panic "kmem_free"
  else (exists a, in_block p len a /\ byte (flat t) a) /\ (exists msg, kmem_free usrpt k p len = Panic msg)
  \/ (forall a, in_block p len a -> ~ byte (flat t) a)
     /\ exists k' t' F', kmem_free usrpt k p len = Ok k' /\ arena k' t' F' /\ kept CLSIZE k k'
        /\ forall a, byte (flat t') a <-> byte (flat t) a \/ in_block p len a.
Proof.
  intros A Hs Hl Ho. destruct (Z.ltb_spec (usrpt + USRPTSIZE * NBPG) p) as [Hp|Hp].
  { unfold kmem_free. rewrite (proj2 (Z.eqb_neq len 0)), (proj2 (Z.ltb_lt _ p)), orb_true_r by lia. done. }
  destruct (kmem_free_spec k t F p len A Hs Hl Ho Hp) as [?|[HN (k' & t' & F' & E & A' & KK & _ & B)]];
    [by left|right]. split; [done|]. by exists k', t', F'.
Qed.

(** C29: When free blocks begin at words, [kmem_alloc] first frees what waits, asks
    for pages if the largest block is too short, and returns a block of bytes that
    no caller had, at a word; these are then in use, and nothing else changes for
    callers. *)
Theorem kmem_alloc_correct k t F nbytes : arena k t F -> wordy t -> ready k t (pending k) ->
  Forall (fun w => w.1 mod 4 = 0) (pending k) -> 0 < nbytes -> nbytes + CLBYTES <= 2 ^ 32 -> pages_for k nbytes <= supply (pages k) ->
  exists k' t' F' p, kmem_alloc usrpt k nbytes = Ok (k', p) /\ arena k' t' F' /\ pending k' = []
    /\ (4 <= nbytes -> p mod 4 = 0) /\ (nbytes mod 4 = 0 -> wordy t')
    /\ (forall a, in_block p nbytes a -> used k t a -> wbyte (pending k) a)
    /\ forall a, used k' t' a <-> used k t a /\ ~ wbyte (pending k) a \/ in_block p nbytes a.
Proof.
  intros A Hw HR HW Hn Hs Hsup. destruct (kmem_alloc_wordy k t F nbytes A Hw HR HW Hn Hs Hsup) as (k' & t' & F' & p & E & [] & Hw').
  by exists k', t', F', p.
Qed.

(** The same with free blocks anywhere, when the largest has room and none reaches
    beyond the limit that [kmem_free] checks. *)
Theorem kmem_alloc_unaligned k t F nbytes : arena k t F -> pending k = [] -> 0 < nbytes <= mw t -> 2 * CLSIZE <= supply (pages k) ->
  (forall a, byte (flat t) a -> a <= usrpt + USRPTSIZE * NBPG) ->
  exists k' t' F' p, kmem_alloc usrpt k nbytes = Ok (k', p) /\ taken k t F p nbytes k' t' F' /\ (4 <= nbytes -> p mod 4 = 0).
Proof.
  intros A Hp Hn Hsup Hl. destruct (alloc_node_ok k t F nbytes A Hsup Hn) as (k' & t' & F' & p & E & T & H4 & _); [by right|].
  exists k', t', F', p. rewrite kmem_alloc_unfold by (unfold SMALLEST_BLK; lia). unfold pending in Hp.
  apply app_eq_nil in Hp as [Hp1 Hp2]. pose proof (filter_find (need_to_free k)) as Hff.
  replace (check_need_to_free _ _ k) with (Ok k).
  - cbn [obind]. rewrite (alloc_fits k t F nbytes A Hsup Hn). done.
  - rewrite Hp1. destruct (length [] + length (need_to_free k))%nat; cbn [check_need_to_free]; unfold check_slots; rewrite Hp1;
      (destruct (list_find _ _) as [[i [p' n']]|]; [destruct Hff as (_ & W & Hw & _); congruence|done]).
Qed.

(** C30: [kmem_free_intr] panics exactly when too few of its slots are left (none is
    needed for an aligned block of 8 bytes, two for one that is not aligned and
    ends in less than 8); otherwise just the bytes of the block wait from then on,
    the heap is as before, and an aligned block waits as it is. *)
Theorem kmem_free_intr_correct k p n : 0 < p -> 0 < n ->
  if slots_for p n <=? free_slots k then
    exists k', kmem_free_intr k p n = Ok k' /\ same_heap k k' /\ free_slots k' = free_slots k - slots_for p n
      /\ (forall a, wbyte (pending k') a <-> wbyte (pending k) a \/ in_block p n a)
      /\ (p mod 4 = 0 -> pending k' ≡ₚ (p, n) :: pending k)
  else kmem_free_intr k p n = Panic "kmem_free_intr".
Proof. apply free_intr_ok. Qed.

End Client.

(** ** A heap over a kernel map *)

Module Sample.

Definition U : Z := 2148532224.
Definition cfg : swapcfg := Swapcfg 1 64.
#[local] Instance sample_pages : Pages rmst := kernelmap_pages cfg U.
#[local] Instance sample_ok : PagesOk rmst U := kernelmap_ok cfg U eq_refl eq_refl eq_refl.

Definition kernel_map (slots : list mapent) : rmst := Rmst (Map kernelmap "kernelmap" slots) 0 [].

(** All pages; and all but the first 96. *)
Definition m0 : rmst := kernel_map [Mapent 4096 1; delim; delim].
Definition m1 : rmst := kernel_map [Mapent 4000 97; delim; delim].

Lemma one_sound size addr : 0 < size -> 1 <= addr -> addr + size <= USRPTSIZE + 1 ->
  sound (usrpt := U) (kernel_map [Mapent size addr; delim; delim]).
Proof.
  intros H1 H2 H3. split; [|split; [done|]].
  - split; [cbn; lia|]. exists [Mapent size addr], 1%nat. split; [done|]. cbn. lia.
  - intros x. unfold free_at. cbn. destruct (Z.eqb_spec size 0); [lia|]. intros [Hx|?%in_free_nil]%in_free_cons; [|done].
    unfold in_seg in *. cbn in *. lia.
Qed.
Lemma sound_m0 : sound (usrpt := U) m0.
Proof. by apply one_sound. Qed.
Lemma sound_m1 : sound (usrpt := U) m1.
Proof. by apply one_sound. Qed.

(** Callers may free any part of a block.  After 4096 bytes from [p] and the
    release of 1026 at [p+1] and 1025 at [p+1030], which leaves no free block with
    1024 bytes from a word on but pages to be had, [kmem_alloc] of 1024 asks for
    more, does not look at the largest block again, and returns a block with a
    byte that the first caller still has. *)
Theorem kmem_alloc_overruns : exists p q,
  (let* r := kmem_alloc U (kmem_init m0) 4096 in let* k := kmem_free U r.1 (r.2 + 1) 1026 in
   let* k := kmem_free U k (r.2 + 1030) 1025 in let* s := kmem_alloc U k 1024 in Ok (r.2, s.2)) = Ok (p, q)
  /\ exists a, in_block q 1024 a /\ in_block p 4096 a /\ ~ in_block (p + 1) 1026 a /\ ~ in_block (p + 1030) 1025 a.
Proof.
  eexists _, _. split; [vm_compute; reflexivity|]. exists (U + 512 + 1027). unfold in_block, U. lia.
Qed.

(** With the last pages of the map in use, the rest of a block of which the middle
    is taken can begin beyond the limit that [kmem_free] checks. *)
Definition m2 : rmst := kernel_map [Mapent 4 1; Mapent 2 4095; delim; delim].
Theorem kmem_alloc_last_page_panics :
  (let* r := kmem_alloc U (kmem_init m2) 1024 in let* s := kmem_alloc U r.1 5 in kmem_alloc U s.1 600) = Panic "kmem_free".
Proof. vm_compute. reflexivity. Qed.

(** *** Witnesses *)

Lemma heap_refines_witness : exists k' L', step (usrpt := U) (kmem_init m0) [] (Alloc 100) = Ok (k', L')
  /\ astep [] (Alloc 100) L' /\ StronglySorted disjoint_blocks L'
  /\ exists t F, arena (usrpt := U) k' t F /\ forall w a, w ∈ L' -> in_block w.1 w.2 a -> used k' t a.
Proof.
  apply (heap_refines m0 (kmem_init m0) [] (Alloc 100)); [exact sound_m0|constructor|].
  split; [lia|]. split; [reflexivity|]. split; [vm_compute; discriminate|]. vm_compute. discriminate.
Defined.

Lemma kmem_free_correct_witness :
  (exists a, in_block (U + 512) 100 a /\ byte (flat Leaf) a) /\ (exists msg, kmem_free U (kmem_init m1) (U + 512) 100 = Panic msg)
  \/ (forall a, in_block (U + 512) 100 a -> ~ byte (flat Leaf) a)
     /\ exists k' t' F', kmem_free U (kmem_init m1) (U + 512) 100 = Ok k' /\ arena k' t' F' /\ kept Kmem.CLSIZE (kmem_init m1) k'
        /\ forall a, byte (flat t') a <-> byte (flat Leaf) a \/ in_block (U + 512) 100 a.
Proof.
  refine (kmem_free_correct (kmem_init m1) Leaf [] (U + 512) 100 (arena_init m1 sound_m1) _ _ _); [vm_compute; discriminate|lia|].
  intros a Ha. split; [|intros (y & [h Hh] & _); cbn in Hh; by rewrite lookup_empty in Hh]. unfold in_block in Ha.
  split; [unfold U, NBPG in *; change USRPTSIZE with 4096; lia|]. unfold free_at. cbn. intros [Hf|Hf%in_free_nil]%in_free_cons; [|done].
  unfold in_seg, U, NBPG in *. cbn in Hf. lia.
Defined.

Lemma kmem_alloc_correct_witness : exists k' t' F' p, kmem_alloc U (kmem_init m0) 100 = Ok (k', p) /\ arena (usrpt := U) k' t' F'
    /\ pending k' = [] /\ (4 <= 100 -> p mod 4 = 0) /\ (100 mod 4 = 0 -> wordy t')
    /\ (forall a, in_block p 100 a -> used (kmem_init m0) Leaf a -> wbyte (pending (kmem_init m0)) a)
    /\ forall a, used k' t' a <-> used (kmem_init m0) Leaf a /\ ~ wbyte (pending (kmem_init m0)) a \/ in_block p 100 a.
Proof.
  apply (kmem_alloc_correct (kmem_init m0) Leaf []); [exact (arena_init m0 sound_m0)|by intros n ?%elem_of_nil| |constructor|lia|vm_compute; discriminate|vm_compute; discriminate].
  split; constructor.
Defined.

Lemma kmem_free_intr_correct_witness :
  if slots_for (U + 513) 20 <=? free_slots (kmem_init m0) then
    exists k', kmem_free_intr (kmem_init m0) (U + 513) 20 = Ok k' /\ same_heap (kmem_init m0) k'
      /\ free_slots k' = free_slots (kmem_init m0) - slots_for (U + 513) 20
      /\ (forall a, wbyte (pending k') a <-> wbyte (pending (kmem_init m0)) a \/ in_block (U + 513) 20 a)
      /\ ((U + 513) mod 4 = 0 -> pending k' ≡ₚ (U + 513, 20) :: pending (kmem_init m0))
  else kmem_free_intr (kmem_init m0) (U + 513) 20 = Panic "kmem_free_intr".
Proof. apply (kmem_free_intr_correct (kmem_init m0) (U + 513) 20); [reflexivity|lia]. Defined.

End Sample.
