(* ===== verification/Callout.v ===== *)
(** * The callout queue: [sys/sys/kern_clock.c]

    The queue is the list of [callout]s from [calltodo]; times are deltas, as the
    comment in [hardclock] says.  Of the structures on [callfree] only the number
    matters.  Functions and their arguments are numbers; what a function does when
    [softclock] calls it is a parameter, of a state of its own.  Processor levels
    are left out. *)
From S2P Require Import Prelude.

(** ** The queue *)

Record callout := Callout { c_time : Z; c_arg : Z; c_func : Z }.
#[export] Instance settable_callout : Settable callout := fun c => Callout (c_time c) (c_arg c) (c_func c).

Record callouts := Callouts { calltodo : list callout; callfree : nat }.

(** [hardclock]: the head of the queue, and [needsoft]. *)
Fixpoint hardclock_calls (p1 : list callout) : list callout * bool :=
  match p1 with
  | [] => ([], false)
  | p :: r =>
      let p := p <| c_time := c_time p - 1 |> in
      if 0 <? c_time p then (p :: r, false)
      else if c_time p =? 0 then (p :: r, true)
      else ((p :: (hardclock_calls r).1), true)
  end.

Fixpoint timeout_place (pnew : callout) (t : Z) (l : list callout) : list callout :=
  match l with
  | p2 :: r =>
      if c_time p2 <? t then p2 :: timeout_place pnew (if 0 <? c_time p2 then t - c_time p2 else t) r
      else (pnew <| c_time := t |>) :: (p2 <| c_time := c_time p2 - t |>) :: r
  | [] => [pnew <| c_time := t |>]
  end.

Definition timeout (st : callouts) (fun_ arg t : Z) : outcome callouts :=
  let t := if t <=? 0 then 1 else t in
  match callfree st with
  | O => Panic "timeout table overflow"
  | S n => Ok (Callouts (timeout_place (Callout 0 arg fun_) t (calltodo st)) n)
  end.

(** The queue without the first entry for [fun_] and [arg]; nothing when there is none. *)
Fixpoint untimeout_loop (fun_ arg : Z) (l : list callout) : option (list callout) :=
  match l with
  | [] => None
  | p2 :: r =>
      if (c_func p2 =? fun_) && (c_arg p2 =? arg) then
        Some match r with
             | n :: r' => if 0 <? c_time p2 then (n <| c_time := c_time n + c_time p2 |>) :: r' else r
             | [] => []
             end
      else match untimeout_loop fun_ arg r with Some r' => Some (p2 :: r') | None => None end
  end.
Definition untimeout (st : callouts) (fun_ arg : Z) : callouts :=
  match untimeout_loop fun_ arg (calltodo st) with
  | Some l => Callouts l (S (callfree st))
  | None => st
  end.

(** ** [softclock] *)

(** What a function asks for while it runs. *)
Inductive request := ReqTimeout (fun_ arg t : Z) | ReqUntimeout (fun_ arg : Z).

Definition do_request (st : callouts) (r : request) : outcome callouts :=
  match r with ReqTimeout f a t => timeout st f a t | ReqUntimeout f a => Ok (untimeout st f a) end.
Fixpoint do_requests (st : callouts) (l : list request) : outcome callouts :=
  match l with [] => Ok st | r :: l => let* st := do_request st r in do_requests st l end.

Section Softclock.
Context {W : Type} (call : W -> Z -> Z -> Z -> W * list request).

Fixpoint softclock_loop (fuel : nat) (w : W) (st : callouts) : outcome (W * callouts) :=
  match calltodo st with
  | p1 :: r =>
      if 0 <? c_time p1 then Ok (w, st)
      else match fuel with
      | O => Fault
      | S fuel =>
          let c := call w (c_func p1) (c_arg p1) (c_time p1) in
          let* st := do_requests (Callouts r (S (callfree st))) c.2 in
          softclock_loop fuel c.1 st
      end
  | [] => Ok (w, st)
  end.
Definition softclock (w : W) (st : callouts) : outcome (W * callouts) := softclock_loop (length (calltodo st)) w st.

(** ** A queue of deadlines

    The same, with the time at which each call is due. *)
Record queue := Queue { now : Z; calls : list (Z * (Z * Z)); room : nat }.

Definition q_tick (q : queue) : queue := Queue (now q + 1) (calls q) (room q).

(** Before all that are due at the same time or later. *)
Fixpoint q_insert (d : Z) (x : Z * Z) (l : list (Z * (Z * Z))) : list (Z * (Z * Z)) :=
  match l with
  | (e, y) :: r => if e <? d then (e, y) :: q_insert d x r else (d, x) :: l
  | [] => [(d, x)]
  end.
Definition q_timeout (q : queue) (f a t : Z) : outcome queue :=
  match room q with
  | O => Panic "timeout table overflow"
  | S n => Ok (Queue (now q) (q_insert (now q + Z.max 1 t) (f, a) (calls q)) n)
  end.

Fixpoint q_remove (x : Z * Z) (l : list (Z * (Z * Z))) : option (list (Z * (Z * Z))) :=
  match l with
  | [] => None
  | (d, y) :: r => if bool_decide (y = x) then Some r
                   else match q_remove x r with Some r' => Some ((d, y) :: r') | None => None end
  end.
Definition q_untimeout (q : queue) (f a : Z) : queue :=
  match q_remove (f, a) (calls q) with
  | Some l => Queue (now q) l (S (room q))
  | None => q
  end.

Definition q_request (q : queue) (r : request) : outcome queue :=
  match r with ReqTimeout f a t => q_timeout q f a t | ReqUntimeout f a => Ok (q_untimeout q f a) end.
Fixpoint q_requests (q : queue) (l : list request) : outcome queue :=
  match l with [] => Ok q | r :: l => let* q := q_request q r in q_requests q l end.

(** Call what is due, the earliest first. *)
Fixpoint q_soft (fuel : nat) (w : W) (q : queue) : outcome (W * queue) :=
  match calls q with
  | (d, (f, a)) :: r =>
      if now q <? d then Ok (w, q)
      else match fuel with
      | O => Fault
      | S fuel =>
          let c := call w f a (d - now q) in
          let* q := q_requests (Queue (now q) r (S (room q))) c.2 in q_soft fuel c.1 q
      end
  | [] => Ok (w, q)
  end.
Definition q_softclock (w : W) (q : queue) : outcome (W * queue) := q_soft (length (calls q)) w q.

(** ** One against the other *)

(** The time that is left for each entry: the sum of the positive deltas, or, for
    those that are due, their own. *)
Fixpoint left_times (acc : Z) (l : list callout) : list (Z * (Z * Z)) :=
  match l with
  | [] => []
  | p :: r =>
      let acc := acc + Z.max 0 (c_time p) in
      (if acc =? 0 then c_time p else acc, (c_func p, c_arg p)) :: left_times acc r
  end.

(** After the first positive delta none is negative. *)
Fixpoint deltas (started : bool) (l : list callout) : Prop :=
  match l with
  | [] => True
  | p :: r => (started = true -> 0 <= c_time p) /\ deltas (started || (0 <? c_time p)) r
  end.

Definition at_now (n : Z) (x : Z * (Z * Z)) : Z * (Z * Z) := (x.1 - n, x.2).
Record implements (st : callouts) (q : queue) : Prop := {
  impl_deltas : deltas false (calltodo st);
  impl_calls : left_times 0 (calltodo st) = at_now (now q) <$> calls q;
  impl_room : callfree st = room q
}.

Lemma deltas_true l : deltas true l -> forall b, deltas b l.
Proof.
  induction l as [|p r IH]; [done|]. cbn. intros [H1 H2] b. split; [auto|]. destruct b; cbn; [done|].
  destruct (0 <? c_time p); [done|by apply IH].
Qed.

(** With no negative delta the times are sums. *)
Lemma left_times_shift d l : forall acc, deltas true l -> 0 <= acc -> 0 <= acc + d ->
  left_times (acc + d) l = (fun x => (x.1 + d, x.2)) <$> left_times acc l.
Proof.
  induction l as [|p r IH]; intros acc H Ha Hd; [done|]. cbn [deltas orb] in H. destruct H as [H1 H2]. specialize (H1 eq_refl).
  cbn [left_times fmap list_fmap fst snd].
  replace (acc + d + Z.max 0 (c_time p)) with (acc + Z.max 0 (c_time p) + d) by lia.
  rewrite IH by (done || lia). f_equal. f_equal.
  destruct (Z.eqb_spec (acc + Z.max 0 (c_time p) + d) 0), (Z.eqb_spec (acc + Z.max 0 (c_time p)) 0); lia.
Qed.

Lemma left_times_pos p r : 0 < c_time p -> left_times 0 (p :: r) = (c_time p, (c_func p, c_arg p)) :: left_times (c_time p) r.
Proof. intros H. cbn [left_times]. rewrite Z.add_0_l, Z.max_r, (proj2 (Z.eqb_neq _ _)) by lia. done. Qed.
Lemma left_times_due p r : c_time p <= 0 -> left_times 0 (p :: r) = (c_time p, (c_func p, c_arg p)) :: left_times 0 r.
Proof. intros H. cbn [left_times]. by rewrite Z.add_0_l, Z.max_l by lia. Qed.
Lemma deltas_pos p r : 0 < c_time p -> deltas false (p :: r) <-> deltas true r.
Proof. intros H. cbn. rewrite (proj2 (Z.ltb_lt _ _)) by done. naive_solver. Qed.
Lemma deltas_due p r : c_time p <= 0 -> deltas false (p :: r) <-> deltas false r.
Proof. intros H. cbn. rewrite (proj2 (Z.ltb_ge _ _)) by done. naive_solver. Qed.

Lemma hardclock_left l : deltas false l -> deltas false (hardclock_calls l).1
  /\ left_times 0 (hardclock_calls l).1 = (fun x => (x.1 - 1, x.2)) <$> left_times 0 l.
Proof.
  induction l as [|p r IH]; [done|]. cbn [hardclock_calls]. change (c_time (p <| c_time := _ |>)) with (c_time p - 1).
  destruct p as [t a f]. cbn [c_time]. intros H.
  destruct (Z.ltb_spec 0 (t - 1)); [|destruct (Z.eqb_spec (t - 1) 0)]; cbn [fst].
  - rewrite deltas_pos in H |- * by (cbn; lia). rewrite !left_times_pos by (cbn; lia). split; [done|]. cbn. f_equal.
    apply (left_times_shift (-1)); [done|lia|lia].
  - rewrite deltas_pos in H by (cbn; lia). rewrite deltas_due, (left_times_pos (Callout t a f)), left_times_due by (cbn; lia).
    split; [by apply deltas_true|]. cbn. f_equal. replace 0 with (t + -1) at 1 by lia. apply (left_times_shift (-1)); [done|lia|lia].
  - rewrite deltas_due in H |- * by (cbn; lia). rewrite !left_times_due by (cbn; lia). destruct (IH H) as [IH1 IH2].
    split; [done|]. cbn. f_equal. done.
Qed.

(** [needsoft]: something is due now. *)
Lemma hardclock_needsoft l : deltas false l ->
  (hardclock_calls l).2 = match left_times 0 (hardclock_calls l).1 with (v, _) :: _ => v <=? 0 | [] => false end.
Proof.
  destruct l as [|[t a f] r]; [done|]. cbn [hardclock_calls]. change (c_time ((Callout t a f) <| c_time := _ |>)) with (t - 1).
  intros _. destruct (Z.ltb_spec 0 (t - 1)); [|destruct (Z.eqb_spec (t - 1) 0)]; cbn [fst snd].
  - rewrite left_times_pos by (cbn; lia). cbn. lia.
  - rewrite left_times_due by (cbn; lia). cbn. lia.
  - rewrite left_times_due by (cbn; lia). cbn. lia.
Qed.

Lemma left_times_nonneg acc p r : 0 <= acc -> 0 <= c_time p ->
  left_times acc (p :: r) = (acc + c_time p, (c_func p, c_arg p)) :: left_times (acc + c_time p) r.
Proof. intros Ha Hp. cbn [left_times]. rewrite Z.max_r by lia. destruct (Z.eqb_spec (acc + c_time p) 0); [|done]. f_equal. f_equal. lia. Qed.

(** A new entry, where there are no negative deltas, and in general. *)
Lemma place_nonneg f a l : forall t acc, 0 < t -> deltas true l -> 0 <= acc ->
  deltas true (timeout_place (Callout 0 a f) t l)
  /\ left_times acc (timeout_place (Callout 0 a f) t l) = q_insert (acc + t) (f, a) (left_times acc l).
Proof.
  induction l as [|[c a' f'] r IH]; intros t acc Ht H Ha.
  - cbn [timeout_place]. split; [split; [|done]; cbn; lia|]. by rewrite left_times_nonneg by (cbn; lia).
  - cbn [deltas orb] in H. destruct H as [H1 H2]. specialize (H1 eq_refl). cbn [c_time] in H1.
    cbn [timeout_place c_time]. rewrite (left_times_nonneg acc (Callout c a' f')) by done. cbn [c_time c_func c_arg q_insert].
    destruct (Z.ltb_spec c t).
    + rewrite (proj2 (Z.ltb_lt (acc + c) (acc + t))) by lia.
      replace (if 0 <? c then t - c else t) with (t - c) by (destruct (Z.ltb_spec 0 c); lia).
      destruct (IH (t - c) (acc + c)) as [I1 I2]; [lia|done|lia|]. split; [by split|].
      rewrite left_times_nonneg by done. cbn [c_time c_func c_arg]. rewrite I2. by replace (acc + c + (t - c)) with (acc + t) by lia.
    + rewrite (proj2 (Z.ltb_ge (acc + c) (acc + t))) by lia. split; [cbn; split; [lia|split; [lia|done]]|].
      rewrite left_times_nonneg by (cbn; lia). rewrite left_times_nonneg by (cbn; lia). cbn.
      by replace (acc + t + (c - t)) with (acc + c) by lia.
Qed.

Lemma deltas_nonneg p r : 0 <= c_time p -> deltas true r -> deltas true (p :: r).
Proof. intros H1 H2. by split. Qed.

Lemma place_left f a l : forall t, 0 < t -> deltas false l ->
  deltas false (timeout_place (Callout 0 a f) t l)
  /\ left_times 0 (timeout_place (Callout 0 a f) t l) = q_insert t (f, a) (left_times 0 l).
Proof.
  induction l as [|p r IH]; intros t Ht H; [by destruct (place_nonneg f a [] t 0); try lia; split; [apply deltas_true|]|].
  destruct (Z.le_gt_cases (c_time p) 0).
  - rewrite deltas_due in H by done. destruct (IH t Ht H) as [I1 I2]. cbn [timeout_place].
    rewrite (proj2 (Z.ltb_lt (c_time p) t)), (proj2 (Z.ltb_ge 0 (c_time p))) by lia. rewrite deltas_due by done. split; [done|].
    rewrite !left_times_due by done. cbn [q_insert]. rewrite (proj2 (Z.ltb_lt (c_time p) t)) by lia. by rewrite I2.
  - rewrite deltas_pos in H by lia. destruct (place_nonneg f a (p :: r) t 0) as [I1 I2]; [done|by apply deltas_nonneg; [lia|]|done|].
    split; [by apply deltas_true|done].
Qed.

(** An entry less. *)
Lemma untimeout_nonneg f a l : forall acc, deltas true l -> 0 <= acc ->
  match untimeout_loop f a l, q_remove (f, a) (left_times acc l) with
  | Some l', Some L => deltas true l' /\ left_times acc l' = L
  | None, None => True
  | _, _ => False
  end.
Proof.
  induction l as [|[c a' f'] r IH]; intros acc H Ha; [done|].
  cbn [deltas orb] in H. destruct H as [H1 H2]. specialize (H1 eq_refl). cbn [c_time] in H1.
  rewrite left_times_nonneg by done. cbn [untimeout_loop q_remove c_func c_arg c_time].
  destruct (bool_decide_reflect ((f', a') = (f, a))) as [E|E].
  - injection E as -> ->. rewrite !Z.eqb_refl. cbn [andb]. destruct r as [|[c2 a2 f2] r]; [done|].
    cbn [deltas orb] in H2. destruct H2 as [H2 H3]. specialize (H2 eq_refl). cbn [c_time] in H2.
    destruct (Z.ltb_spec 0 c).
    + split; [by apply deltas_nonneg; [cbn; lia|]|]. rewrite !left_times_nonneg by (cbn; lia). cbn.
      by replace (acc + (c2 + c)) with (acc + c + c2) by lia.
    + assert (c = 0) as -> by lia. rewrite Z.add_0_r. by split; [apply deltas_nonneg|].
  - replace ((f' =? f) && (a' =? a)) with false by (destruct (Z.eqb_spec f' f), (Z.eqb_spec a' a); cbn; congruence).
    specialize (IH (acc + c) H2 ltac:(lia)). destruct (untimeout_loop f a r), (q_remove (f, a) (left_times (acc + c) r)); try done.
    destruct IH as [I1 I2]. split; [by apply deltas_nonneg|]. rewrite left_times_nonneg by done. cbn. by rewrite I2.
Qed.

Lemma untimeout_left f a l : deltas false l ->
  match untimeout_loop f a l, q_remove (f, a) (left_times 0 l) with
  | Some l', Some L => deltas false l' /\ left_times 0 l' = L
  | None, None => True
  | _, _ => False
  end.
Proof.
  induction l as [|p r IH]; intros H; [done|]. destruct (Z.le_gt_cases (c_time p) 0).
  - rewrite deltas_due in H by done. rewrite left_times_due by done. cbn [untimeout_loop q_remove]. destruct p as [c a' f']. cbn [c_func c_arg c_time] in *.
    destruct (bool_decide_reflect ((f', a') = (f, a))) as [E|E].
    + injection E as -> ->. rewrite !Z.eqb_refl. cbn [andb]. destruct r as [|p2 r]; [done|].
      by rewrite (proj2 (Z.ltb_ge 0 c)) by done.
    + replace ((f' =? f) && (a' =? a)) with false by (destruct (Z.eqb_spec f' f), (Z.eqb_spec a' a); cbn; congruence).
      specialize (IH H). destruct (untimeout_loop f a r), (q_remove (f, a) (left_times 0 r)); try done.
      destruct IH as [I1 I2]. rewrite deltas_due, left_times_due by done. cbn. by rewrite I2.
  - rewrite deltas_pos in H by lia. pose proof (untimeout_nonneg f a (p :: r) 0 ltac:(by apply deltas_nonneg; [lia|]) ltac:(lia)) as Hu.
    destruct (untimeout_loop f a (p :: r)), (q_remove (f, a) (left_times 0 (p :: r))); try done.
    destruct Hu as [H1 H2]. split; [by apply deltas_true|done].
Qed.

(** ** Simulation *)

Lemma q_insert_now n d x l : q_insert (d - n) x (at_now n <$> l) = at_now n <$> q_insert d x l.
Proof.
  induction l as [|[e y] r IH]; [done|]. cbn [fmap list_fmap q_insert at_now fst snd].
  destruct (Z.ltb_spec (e - n) (d - n)), (Z.ltb_spec e d); try lia; [|done]. cbn. by rewrite <- IH.
Qed.

Lemma q_remove_now n x l : q_remove x (at_now n <$> l) =
  match q_remove x l with Some L => Some (at_now n <$> L) | None => None end.
Proof.
  induction l as [|[e y] r IH]; [done|]. cbn [fmap list_fmap q_remove at_now fst snd]. case_bool_decide; [done|].
  rewrite IH. by destruct (q_remove x r).
Qed.

Lemma tick_implements st q : implements st q -> implements (Callouts (hardclock_calls (calltodo st)).1 (callfree st)) (q_tick q).
Proof.
  intros [H1 H2 H3]. destruct (hardclock_left _ H1) as [H4 H5]. split; [done| |done]. cbn. rewrite H5, H2, <- list_fmap_compose.
  apply list_fmap_ext. intros i [d x] _. unfold at_now. cbn. f_equal. lia.
Qed.

(** The same outcome, and states that correspond; none of them a fault. *)
Definition agree {A B} (R : A -> B -> Prop) (o : outcome A) (o' : outcome B) : Prop :=
  match o, o' with Ok a, Ok b => R a b | Panic m, Panic m' => m = m' | _, _ => False end.

Lemma timeout_implements st q f a t : implements st q -> agree implements (timeout st f a t) (q_timeout q f a t).
Proof.
  intros [H1 H2 H3]. unfold timeout, q_timeout. rewrite <- H3. destruct (callfree st) as [|n]; [done|].
  replace (if t <=? 0 then 1 else t) with (Z.max 1 t) by (destruct (Z.leb_spec t 0); lia).
  destruct (place_left f a (calltodo st) (Z.max 1 t) ltac:(lia) H1) as [H4 H5]. split; [done| |done]. cbn.
  rewrite H5, H2, <- q_insert_now. f_equal. lia.
Qed.

Lemma untimeout_implements st q f a : implements st q -> implements (untimeout st f a) (q_untimeout q f a).
Proof.
  intros [H1 H2 H3]. unfold untimeout, q_untimeout. pose proof (untimeout_left f a _ H1) as Hu. rewrite H2, q_remove_now in Hu.
  destruct (untimeout_loop f a (calltodo st)), (q_remove (f, a) (calls q)); cbn in Hu; try done.
  destruct Hu as [H4 H5]. split; [done|done|]. cbn. by rewrite H3.
Qed.

Lemma requests_implement l : forall st q, implements st q -> agree implements (do_requests st l) (q_requests q l).
Proof.
  induction l as [|r l IH]; intros st q H; [done|]. cbn [do_requests q_requests].
  assert (Hr : agree implements (do_request st r) (q_request q r)).
  { destruct r; [by apply timeout_implements|by apply untimeout_implements]. }
  destruct (do_request st r), (q_request q r); cbn in *; try done. by apply IH.
Qed.

(** What is due; requests add nothing to it. *)
Definition due (q : queue) : nat := length (filter (fun x : Z * (Z * Z) => x.1 <= now q) (calls q)).

Lemma due_insert (n d : Z) x l : n < d -> filter (fun y : Z * (Z * Z) => y.1 <= n) (q_insert d x l) = filter (fun y => y.1 <= n) l.
Proof.
  intros Hd. induction l as [|[e y] r IH]; cbn [q_insert]; [by rewrite filter_cons_False by (cbn; lia)|].
  destruct (e <? d).
  - destruct (Z.le_gt_cases e n); [rewrite !(filter_cons_True _ (e, y)) by (cbn; lia)|rewrite !(filter_cons_False _ (e, y)) by (cbn; lia)]; by rewrite IH.
  - by rewrite filter_cons_False by (cbn; lia).
Qed.

Lemma q_remove_sublist x l l' : q_remove x l = Some l' -> sublist l' l.
Proof.
  revert l'. induction l as [|[e y] r IH]; intros l'; [done|]. cbn. case_bool_decide; [intros [= <-]; by constructor|].
  destruct (q_remove x r) as [r'|]; [|done]. intros [= <-]. constructor. by apply IH.
Qed.

Lemma due_sublist (n : Z) (l l' : list (Z * (Z * Z))) : sublist l l' ->
  (length (filter (fun x : Z * (Z * Z) => x.1 <= n)%Z l) <= length (filter (fun x : Z * (Z * Z) => x.1 <= n)%Z l'))%nat.
Proof.
  induction 1 as [|x l l' _ IH|x l l' _ IH]; [done|..].
  - destruct (decide (x.1 <= n)); [rewrite !(filter_cons_True _ x) by done; cbn; lia|by rewrite !(filter_cons_False _ x) by done].
  - destruct (decide (x.1 <= n)); [rewrite !(filter_cons_True _ x) by done; cbn; lia|by rewrite !(filter_cons_False _ x) by done].
Qed.

Lemma requests_due l : forall q q', q_requests q l = Ok q' -> now q' = now q /\ (due q' <= due q)%nat.
Proof.
  induction l as [|r l IH]; intros q q'; cbn [q_requests]; [intros [= <-]; done|]. intros E. apply obind_ok in E as (q1 & E1 & E2).
  destruct (IH _ _ E2) as [I1 I2]. cut (now q1 = now q /\ (due q1 <= due q)%nat); [intros [I3 I4]; split; [congruence|lia]|].
  destruct r as [f a t|f a]; cbn in E1.
  - unfold q_timeout in E1. destruct (room q); [done|]. injection E1 as <-. split; [done|]. unfold due. cbn. rewrite due_insert by lia. lia.
  - injection E1 as <-. unfold q_untimeout. destruct (q_remove (f, a) (calls q)) as [l'|] eqn:E; [|done].
    split; [done|]. unfold due. cbn. by eapply due_sublist, q_remove_sublist.
Qed.

Definition same_world (x : W * callouts) (y : W * queue) : Prop := x.1 = y.1 /\ implements x.2 y.2.

(** The heads correspond: the first is due in both or in neither. *)
Lemma soft_implements fuel : forall fuel' w st q, implements st q -> (due q <= fuel)%nat -> (due q <= fuel')%nat ->
  agree same_world (softclock_loop fuel w st) (q_soft fuel' w q).
Proof.
  induction fuel as [|fuel IH]; intros fuel' w [td n] [t l m] Hi H1 H2; pose proof Hi as [D L F]; cbn [calltodo calls now callfree room] in *;
    (destruct td as [|p r]; [destruct l; [by destruct fuel'|done]|]); (destruct l as [|[d [f' a']] l]; [done|]);
    destruct p as [c a f]; (destruct (Z.le_gt_cases c 0) as [Hc|Hc];
      [rewrite left_times_due in L by done|rewrite left_times_pos in L by (cbn; lia)]);
    injection L as Hcd -> -> HL; cbn [softclock_loop calltodo c_time];
    [rewrite (proj2 (Z.ltb_ge 0 c)) by done|rewrite (proj2 (Z.ltb_lt 0 c)) by done|rewrite (proj2 (Z.ltb_ge 0 c)) by done|rewrite (proj2 (Z.ltb_lt 0 c)) by done].
  - exfalso. unfold due in H1. cbn [calls now] in H1. rewrite filter_cons_True in H1 by (cbn; lia). cbn in H1. lia.
  - destruct fuel'; cbn [q_soft calls now]; rewrite (proj2 (Z.ltb_lt t d)) by lia; done.
  - unfold due in H1, H2. cbn [calls now] in H1, H2. rewrite filter_cons_True in H1, H2 by (cbn; lia). cbn [length] in H1, H2.
    destruct fuel' as [|fuel']; [lia|]. cbn [q_soft calls now]. rewrite (proj2 (Z.ltb_ge t d)) by lia. cbn [c_func c_arg].
    rewrite Hcd. cbn [callfree room] in *.
    assert (Hi1 : implements (Callouts r (S n)) (Queue t l (S m))).
    { split; [by rewrite deltas_due in D|done|cbn; congruence]. }
    pose proof (requests_implement (call w f' a' (d - t)).2 _ _ Hi1) as Hr.
    destruct (do_requests (Callouts r (S n)) _) as [st1| |] eqn:E1, (q_requests (Queue t l (S m)) _) as [q1| |] eqn:E2; try done.
    cbn [obind]. destruct (requests_due _ _ _ E2) as [_ Hd]. unfold due in Hd at 2. cbn in Hd. apply IH; [done|lia|lia].
  - destruct fuel'; cbn [q_soft calls now]; rewrite (proj2 (Z.ltb_lt t d)) by lia; done.
Qed.

Lemma implements_length st q : implements st q -> length (calltodo st) = length (calls q).
Proof.
  intros [_ H _]. apply (f_equal length) in H. rewrite length_fmap in H. rewrite <- H. clear H. generalize 0.
  induction (calltodo st) as [|p r IH]; intros z; [done|]. cbn. by rewrite <- IH.
Qed.

Lemma due_length q : (due q <= length (calls q))%nat.
Proof. apply length_filter. Qed.

Lemma softclock_implements w st q : implements st q -> agree same_world (softclock w st) (q_softclock w q).
Proof.
  intros H. unfold softclock, q_softclock. pose proof (due_length q). rewrite (implements_length _ _ H).
  apply soft_implements; done.
Qed.

(** ** Any sequence of events *)

Inductive event := Tick | Soft | Request (r : request).

Definition c_event (s : W * callouts) (e : event) : outcome (W * callouts) :=
  match e with
  | Tick => Ok (s.1, Callouts (hardclock_calls (calltodo s.2)).1 (callfree s.2))
  | Soft => softclock s.1 s.2
  | Request r => let* st := do_request s.2 r in Ok (s.1, st)
  end.
Definition q_event (s : W * queue) (e : event) : outcome (W * queue) :=
  match e with
  | Tick => Ok (s.1, q_tick s.2)
  | Soft => q_softclock s.1 s.2
  | Request r => let* q := q_request s.2 r in Ok (s.1, q)
  end.

Fixpoint run {S : Type} (f : S -> event -> outcome S) (s : S) (l : list event) : outcome S :=
  match l with [] => Ok s | e :: l => let* s := f s e in run f s l end.

Lemma event_implements x y e : same_world x y -> agree same_world (c_event x e) (q_event y e).
Proof.
  destruct x as [w st], y as [w' q]. intros [Hw Hi]. cbn in Hw, Hi. subst w'. destruct e as [| |r]; cbn [c_event q_event fst snd].
  - split; [done|]. by apply tick_implements.
  - by apply softclock_implements.
  - assert (Hr : agree implements (do_request st r) (q_request q r)) by (destruct r; [by apply timeout_implements|by apply untimeout_implements]).
    destruct (do_request st r), (q_request q r); try done.
Qed.

Lemma run_implements l : forall x y, same_world x y -> agree same_world (run c_event x l) (run q_event y l).
Proof.
  induction l as [|e l IH]; intros x y H; [done|]. cbn [run]. pose proof (event_implements x y e H) as He.
  destruct (c_event x e), (q_event y e); try done. by apply IH.
Qed.

(** ** What the queue does *)

Definition in_order (l : list (Z * (Z * Z))) : Prop := StronglySorted (fun x y => x.1 <= y.1) l.

Lemma q_insert_elem d x l y : y ∈ q_insert d x l <-> y = (d, x) \/ y ∈ l.
Proof.
  induction l as [|[e z] r IH]; cbn [q_insert]; [by rewrite list_elem_of_singleton, elem_of_nil; tauto|].
  destruct (e <? d); rewrite ?elem_of_cons, ?IH; rewrite ?elem_of_cons; tauto.
Qed.

Lemma q_insert_order d x l : in_order l -> in_order (q_insert d x l).
Proof.
  unfold in_order. induction l as [|[e z] r IH]; cbn [q_insert]; intros H; [repeat constructor|].
  apply StronglySorted_cons in H as [H1 H2]. rewrite Forall_forall in H1. destruct (Z.ltb_spec e d); apply StronglySorted_cons; rewrite Forall_forall.
  - split; [|auto]. intros y [->|Hy]%q_insert_elem; [cbn; lia|auto].
  - split; [|apply StronglySorted_cons; by rewrite Forall_forall]. intros y [->|Hy]%elem_of_cons; [done|]. specialize (H1 y Hy). cbn in *. lia.
Qed.

Lemma sorted_sublist (l l' : list (Z * (Z * Z))) : sublist l l' -> in_order l' -> in_order l.
Proof.
  unfold in_order. induction 1 as [|x l l' Hs IH|x l l' Hs IH]; [done|..]; rewrite !StronglySorted_cons; intros [H1 H2]; [|auto].
  split; [|auto]. rewrite Forall_forall in H1 |- *. intros y Hy. apply H1. by eapply elem_of_sublist.
Qed.

Lemma requests_order l : forall q q', q_requests q l = Ok q' -> in_order (calls q) -> in_order (calls q').
Proof.
  induction l as [|r l IH]; intros q q'; cbn [q_requests]; [by intros [= <-]|]. intros E Ho. apply obind_ok in E as (q1 & E1 & E2).
  apply (IH _ _ E2). destruct r as [f a t|f a]; cbn in E1.
  - unfold q_timeout in E1. destruct (room q); [done|]. injection E1 as <-. by apply q_insert_order.
  - injection E1 as <-. unfold q_untimeout. destruct (q_remove (f, a) (calls q)) as [l'|] eqn:E; [|done].
    by eapply sorted_sublist; [eapply q_remove_sublist|].
Qed.

Lemma order_later t d x l : in_order ((d, x) :: l) -> t < d -> forall y, y ∈ (d, x) :: l -> t < y.1.
Proof.
  intros [Ho _]%StronglySorted_cons Hd y. rewrite Forall_forall in Ho. intros [->|Hy]%elem_of_cons; [done|].
  specialize (Ho y Hy). cbn in Ho. lia.
Qed.

(** After [softclock] nothing is due. *)
Lemma q_soft_done fuel : forall w q w' q', in_order (calls q) -> q_soft fuel w q = Ok (w', q') ->
  in_order (calls q') /\ now q' = now q /\ forall x, x ∈ calls q' -> now q' < x.1.
Proof.
  induction fuel as [|fuel IH]; intros w [t [|[d [f a]] l] m] w' q' Ho; cbn [q_soft calls now].
  - intros [= <- <-]. split_and!; [done|done|]. intros x Hx. by apply elem_of_nil in Hx.
  - destruct (Z.ltb_spec t d); [|done]. intros [= <- <-]. split_and!; [done|done|]. by eapply order_later.
  - intros [= <- <-]. split_and!; [done|done|]. intros x Hx. by apply elem_of_nil in Hx.
  - destruct (Z.ltb_spec t d).
    + intros [= <- <-]. split_and!; [done|done|]. by eapply order_later.
    + intros E. apply obind_ok in E as (q1 & E1 & E2). destruct (requests_due _ _ _ E1) as [Hn _].
      apply IH in E2 as (I1 & I2 & I3); [|eapply requests_order; [exact E1|by apply StronglySorted_cons in Ho as [_ Ho]]].
      split_and!; [done|cbn in *; congruence|done].
Qed.

Definition q_ok (n : nat) (q : queue) : Prop := in_order (calls q) /\ (length (calls q) + room q = n)%nat.

Lemma q_insert_length d x l : length (q_insert d x l) = S (length l).
Proof. induction l as [|[e y] r IH]; [done|]. cbn. destruct (e <? d); cbn; by rewrite ?IH. Qed.
Lemma q_remove_length x l l' : q_remove x l = Some l' -> length l = S (length l').
Proof.
  revert l'. induction l as [|[e y] r IH]; intros l'; [done|]. cbn. case_bool_decide; [by intros [= ->]|].
  destruct (q_remove x r) as [r'|]; [|done]. intros [= <-]. cbn. by rewrite (IH r').
Qed.

Lemma request_ok n r q q' : q_request q r = Ok q' -> q_ok n q -> q_ok n q'.
Proof.
  intros E [H1 H2]. split.
  - apply (requests_order [r] q); [by cbn; rewrite E|done].
  - destruct r as [f a t|f a]; cbn in E.
    + unfold q_timeout in E. destruct (room q) eqn:Em; [done|]. injection E as <-. cbn. rewrite q_insert_length. lia.
    + injection E as <-. unfold q_untimeout. destruct (q_remove (f, a) (calls q)) eqn:Er; [|done]. apply q_remove_length in Er. cbn. lia.
Qed.
Lemma requests_ok n l : forall q q', q_requests q l = Ok q' -> q_ok n q -> q_ok n q'.
Proof.
  induction l as [|r l IH]; intros q q' E H; cbn in E; [by injection E as <-|]. apply obind_ok in E as (q1 & E1 & E2).
  apply (IH _ _ E2). by eapply request_ok.
Qed.
Lemma q_soft_ok n fuel : forall w q w' q', q_soft fuel w q = Ok (w', q') -> q_ok n q -> q_ok n q'.
Proof.
  induction fuel as [|fuel IH]; intros w [t [|[d [f a]] l] m] w' q'; cbn [q_soft calls now room]; try (destruct (t <? d)); try done;
    try by intros [= <- <-].
  intros E [H1 H2]. apply obind_ok in E as (q1 & E1 & E2). apply (IH _ _ _ _ E2), (requests_ok _ _ _ _ E1).
  apply StronglySorted_cons in H1 as [_ H1]. split; [done|]. cbn in *. lia.
Qed.
Lemma event_ok n e s s' : q_event s e = Ok s' -> q_ok n s.2 -> q_ok n s'.2.
Proof.
  destruct s as [w q], s' as [w' q'], e as [| |r]; cbn [q_event fst snd].
  - by intros [= <- <-].
  - apply q_soft_ok.
  - intros E. apply obind_ok in E as (q1 & E1 & [= <- <-]). by eapply request_ok.
Qed.

(** [softclock] returns, or there is no free structure. *)
Definition returns {A} (o : outcome A) : Prop :=
  match o with Ok _ => True | Panic m => m = "timeout table overflow"%string | Fault => False end.

Lemma requests_return l : forall q, returns (q_requests q l).
Proof.
  induction l as [|r l IH]; intros q; [done|]. cbn [q_requests].
  destruct r as [f a t|f a]; cbn [q_request obind]; [|apply IH]. unfold q_timeout. destruct (room q); [done|apply IH].
Qed.

Lemma q_soft_returns fuel : forall w q, (due q <= fuel)%nat -> returns (q_soft fuel w q).
Proof.
  induction fuel as [|fuel IH]; intros w [t [|[d [f a]] l] m] H; cbn [q_soft calls now]; try done;
    (destruct (Z.ltb_spec t d); [done|]); unfold due in H; cbn [calls now] in H; rewrite filter_cons_True in H by (cbn; lia);
    cbn [length] in H; [lia|].
  pose proof (requests_return (call w f a (d - t)).2 (Queue t l (S m))) as Hq. cbn [room].
  destruct (q_requests (Queue t l (S m)) _) as [q1| |] eqn:E; [|done|done].
  apply IH. destruct (requests_due _ _ _ E) as [_ Hd]. unfold due in Hd at 2. cbn [calls now] in Hd. lia.
Qed.

End Softclock.

Section Claims.
Context {W : Type} (call : W -> Z -> Z -> Z -> W * list request).
Implicit Types (w : W) (es : list event).

Lemma run_ok n es : forall s s', run (q_event call) s es = Ok s' -> q_ok n s.2 -> q_ok n s'.2.
Proof.
  induction es as [|e es IH]; intros s s' E H; cbn in E; [by injection E as <-|]. apply obind_ok in E as (s1 & E1 & E2).
  apply (IH _ _ E2). by eapply event_ok.
Qed.

(** C19: from an empty queue with [n] free structures, whatever the sequence of clock
    ticks, of [timeout] and [untimeout] requests and of runs of [softclock], and whatever
    the functions that [softclock] calls do, the queue of deltas does what a queue of
    deadlines does: both panic together, when no structure is free; otherwise the calls
    made are the same (the world [w] sees them), and what is left in one is what is left
    in the other.  The deadlines are in order, no structure is lost, and [softclock]
    leaves nothing that is due. *)
Theorem callouts_refine_deadlines w n es :
  match run (c_event call) (w, Callouts [] n) es, run (q_event call) (w, Queue 0 [] n) es with
  | Ok (w1, st), Ok (w2, q) =>
      w1 = w2 /\ implements st q /\ in_order (calls q) /\ (length (calltodo st) + callfree st = n)%nat
      /\ returns (q_softclock call w2 q)
      /\ forall w3 q3, q_softclock call w2 q = Ok (w3, q3) -> forall x, x ∈ calls q3 -> now q < x.1
  | Panic m, Panic m' => m = m'
  | _, _ => False
  end.
Proof.
  pose proof (run_implements call es (w, Callouts [] n) (w, Queue 0 [] n)) as Hr.
  pose proof (run_ok n es (w, Queue 0 [] n)) as Hq.
  destruct (run (c_event call) _ es) as [[w1 st]| |], (run (q_event call) _ es) as [[w2 q]| |]; try (by apply Hr).
  destruct Hr as [Hw Hi]; [done|]. destruct (Hq (w2, q)) as [H1 H2]; [done|by split; [constructor|]|].
  split_and!; [done|done|done| | |].
  - cbn in Hi, H2. by rewrite (implements_length _ _ Hi), (impl_room _ _ Hi).
  - apply q_soft_returns, due_length.
  - intros w3 q3 E x Hx. cbn in H1. destruct (q_soft_done call _ _ _ _ _ H1 E) as (_ & <- & I). by apply I.
Qed.

End Claims.

(** Two calls, one asked for first and due last; the function of the other asks for a third. *)
Module CoSample.
Definition call (w : list (Z * Z)) (f a t : Z) : list (Z * Z) * list request :=
  (w ++ [(f, t)], if f =? 2 then [ReqTimeout 3 a 1] else []).
Definition story : list event :=
  [Request (ReqTimeout 1 7 3); Request (ReqTimeout 2 8 2); Tick; Request (ReqUntimeout 5 5); Tick; Soft; Tick; Soft].

Lemma callouts_refine_deadlines_witness :
  exists w1 st q, run (c_event call) ([], Callouts [] 4) story = Ok (w1, st) /\ run (q_event call) ([], Queue 0 [] 4) story = Ok (w1, q)
    /\ map fst w1 = [2; 3; 1] /\ implements st q.
Proof.
  pose proof (callouts_refine_deadlines call [] 4 story) as H. vm_compute in H |- *. destruct H as (H1 & H2 & _).
  do 3 eexists. split; [reflexivity|]. split; [reflexivity|]. split; [reflexivity|exact H2].
Defined.
End CoSample.
