(* ===== verification/KernTime.v ===== *)
(** * Time of day and interval timers: [sys/sys/kern_time.c]

    Both members of a [timeval] are longs of 32 bits, and their sums wrap.  The loop of
    [realitexpire] has a bound on its passes, which its theorems give or leave
    free.  The callout queue is that of Callout.v; processor levels, [resettodr] and
    [gettimeofday], whose clock is machine code, are left out.  User memory and the routines that copy from and to
    it are parameters. *)
From S2P Require Import Prelude Callout.

(** ** [h/time.h] and [conf/param.c] *)

Record timeval := Timeval { tv_sec : Z; tv_usec : Z }.
#[export] Instance settable_timeval : Settable timeval := fun t => Timeval (tv_sec t) (tv_usec t).
Record itimerval := Itimerval { it_interval : timeval; it_value : timeval }.
#[export] Instance settable_itimerval : Settable itimerval := fun t => Itimerval (it_interval t) (it_value t).

Definition timerisset (t : timeval) : bool := nz (tv_sec t) || nz (tv_usec t).
Definition timercmp (t u : timeval) (cmp : Z -> Z -> bool) : bool :=
  cmp (tv_sec t) (tv_sec u) || (tv_sec t =? tv_sec u) && cmp (tv_usec t) (tv_usec u).
Definition usecs (t : timeval) : Z := tv_sec t * 1000000 + tv_usec t.
Definition timerclear : timeval := Timeval 0 0.

Definition ITIMER_REAL : Z := 0.
Definition ITIMER_VIRTUAL : Z := 1.
Definition ITIMER_PROF : Z := 2.

Definition HZ : Z := 100.
Definition hz : Z := HZ.
Definition tick : Z := 1000000 / HZ.
Definition tickadj : Z := 240000 / (60 * HZ).
Definition bigadj : Z := 1000000.

Definition EPERM : Z := 1.
Definition EINVAL : Z := 22.

(** ** Arithmetic *)

Definition timevalfix (t1 : timeval) : timeval :=
  let t1 := if tv_usec t1 <? 0 then Timeval (s32 (tv_sec t1 - 1)) (tv_usec t1 + 1000000) else t1 in
  if 1000000 <=? tv_usec t1 then Timeval (s32 (tv_sec t1 + 1)) (tv_usec t1 - 1000000) else t1.
Definition timevaladd (t1 t2 : timeval) : timeval :=
  timevalfix (Timeval (s32 (tv_sec t1 + tv_sec t2)) (s32 (tv_usec t1 + tv_usec t2))).
Definition timevalsub (t1 t2 : timeval) : timeval :=
  timevalfix (Timeval (s32 (tv_sec t1 - tv_sec t2)) (s32 (tv_usec t1 - tv_usec t2))).

(** The timer as it is to be loaded, or the error. *)
Definition itimerfix (tv : timeval) : timeval + Z :=
  if (tv_sec tv <? 0) || (100000000 <? tv_sec tv) || (tv_usec tv <? 0) || (1000000 <=? tv_usec tv) then inr EINVAL
  else if (tv_sec tv =? 0) && nz (tv_usec tv) && (tv_usec tv <? tick) then inl (tv <| tv_usec := tick |>)
  else inl tv.

(** [itimerdecr], from the label [expire]. *)
Definition itimer_expire (itp : itimerval) (usec : Z) : itimerval :=
  if timerisset (it_interval itp) then
    let v := it_interval itp in
    let v := v <| tv_usec := tv_usec v - usec |> in
    itp <| it_value := if tv_usec v <? 0 then Timeval (s32 (tv_sec v - 1)) (tv_usec v + 1000000) else v |>
  else itp <| it_value := (it_value itp) <| tv_usec := 0 |> |>.
Definition itimerdecr (itp : itimerval) (usec : Z) : itimerval * Z :=
  let v := it_value itp in
  if (tv_usec v <? usec) && (tv_sec v =? 0) then (itimer_expire itp (usec - tv_usec v), 0)
  else
    let v := if tv_usec v <? usec then Timeval (s32 (tv_sec v - 1)) (tv_usec v + 1000000) else v in
    let v := v <| tv_usec := tv_usec v - usec |> in
    let itp := itp <| it_value := v |> in
    if timerisset v then (itp, 1) else (itimer_expire itp 0, 0).

(** [hzto], with the time of day. *)
Definition hzto (time tv : timeval) : Z :=
  let sec := s32 (tv_sec tv - tv_sec time) in
  if sec <=? Z.quot 2147483647 1000 - 1000 then
    Z.quot (s32 (s32 (sec * 1000) + Z.quot (s32 (tv_usec tv - tv_usec time)) 1000)) (Z.quot tick 1000)
  else if sec <=? Z.quot 2147483647 hz then s32 (sec * hz)
  else 2147483647.

(** ** System calls *)

(** How the kernel reads and writes objects of type [T] in user memory: what is there or
    an error number; the new memory and an error number, 0 when all is well. *)
Record uops (M T : Type) := Uops { copyin : M -> Z -> T + Z; copyout : M -> T -> Z -> M * Z }.
Arguments copyin {M T} _ _ _.
Arguments copyout {M T} _ _ _ _.

Section Calls.
Context {M : Type} (UI : uops M itimerval) (UT : uops M timeval) (UZ : uops M (Z * Z)).
(** The function [realitexpire] as the callout queue knows it. *)
Context (REALITEXPIRE : Z).

Record kern := Kern {
  time : timeval; boottime : timeval; tz : Z * Z;
  tickdelta : Z; timedelta : Z;
  co : callouts;
  u_error : Z; u_uid : Z;
  u_procp : Z; p_realtimer : itimerval; u_timer : list itimerval;
  umem : M
}.
#[export] Instance settable_kern : Settable kern := fun k =>
  Kern (time k) (boottime k) (tz k) (tickdelta k) (timedelta k) (co k) (u_error k) (u_uid k) (u_procp k) (p_realtimer k) (u_timer k) (umem k).

Definition suser (k : kern) : kern * bool := if u_uid k =? 0 then (k, true) else (k <| u_error := EPERM |>, false).

Definition setthetime (k : kern) (tv : timeval) : kern :=
  let (k, su) := suser k in
  if su then
    k <| boottime := (boottime k) <| tv_sec := s32 (tv_sec (boottime k) + (tv_sec tv - tv_sec (time k))) |> |> <| time := tv |>
  else k.

Definition settimeofday (k : kern) (tv tzp : Z) : kern :=
  match copyin UT (umem k) tv with
  | inr e => k <| u_error := e |>
  | inl atv =>
      let k := setthetime (k <| u_error := 0 |>) atv in
      if nz tzp then
        let (k, su) := suser k in
        if su then
          match copyin UZ (umem k) tzp with
          | inl atz => k <| u_error := 0 |> <| tz := atz |>
          | inr e => k <| u_error := e |>
          end
        else k
      else k
  end.

Definition adjtime (k : kern) (delta olddelta : Z) : kern :=
  let (k, su) := suser k in
  if su then
    match copyin UT (umem k) delta with
    | inr e => k <| u_error := e |>
    | inl atv =>
        let k := k <| u_error := 0 |> in
        let ndelta := s32 (s32 (tv_sec atv * 1000000) + tv_usec atv) in
        let k := if timedelta k =? 0 then k <| tickdelta := if bigadj <? ndelta then 10 * tickadj else tickadj |> else k in
        let ndelta := if nz (Z.rem ndelta (tickdelta k)) then Z.quot ndelta tickadj * tickadj else ndelta in
        let oatv := Timeval (Z.quot (timedelta k) 1000000) (Z.rem (timedelta k) 1000000) in
        let k := k <| timedelta := ndelta |> in
        if nz olddelta then k <| umem := (copyout UT (umem k) oatv olddelta).1 |> else k
    end
  else k.

Definition getitimer (k : kern) (which itv : Z) : outcome kern :=
  if 2 <? which then Ok (k <| u_error := EINVAL |>)
  else
    let* aitv :=
      if which =? ITIMER_REAL then
        let aitv := p_realtimer k in
        Ok (if timerisset (it_value aitv) then
              aitv <| it_value := if timercmp (it_value aitv) (time k) Z.ltb then timerclear else timevalsub (it_value aitv) (time k) |>
            else aitv)
      else aget (u_timer k) which in
    let (m, e) := copyout UI (umem k) aitv itv in
    Ok (k <| umem := m |> <| u_error := e |>).

Definition setitimer (k : kern) (which itv oitv : Z) : outcome kern :=
  if 2 <? which then Ok (k <| u_error := EINVAL |>)
  else
    let* k := if nz oitv then getitimer k which oitv else Ok k in
    if itv =? 0 then Ok k
    else match copyin UI (umem k) itv with
    | inr e => Ok (k <| u_error := e |>)
    | inl aitv =>
        let k := k <| u_error := 0 |> in
        match itimerfix (it_value aitv) with
        | inr _ => Ok (k <| u_error := EINVAL |>)
        | inl v =>
            match itimerfix (it_interval aitv) with
            | inr _ => Ok (k <| u_error := EINVAL |>)
            | inl i =>
                if which =? ITIMER_REAL then
                  let st := untimeout (co k) REALITEXPIRE (u_procp k) in
                  if timerisset v then
                    let v := timevaladd v (time k) in
                    let* st := timeout st REALITEXPIRE (u_procp k) (hzto (time k) v) in
                    Ok (k <| co := st |> <| p_realtimer := Itimerval i v |>)
                  else Ok (k <| co := st |> <| p_realtimer := Itimerval i v |>)
                else let* l := aset (u_timer k) which (Itimerval i v) in Ok (k <| u_timer := l |>)
            end
        end
    end.

(** [realitexpire] of process [p], [t] the time of day: its timer and the request for
    the next call, if the loop ends within [fuel] passes.  The signal is posted in any case. *)
Fixpoint realitexpire_loop (fuel : nat) (t : timeval) (p : Z) (rt : itimerval) : outcome (itimerval * list request) :=
  match fuel with
  | O => Fault
  | S fuel =>
      let rt := rt <| it_value := timevaladd (it_value rt) (it_interval rt) |> in
      if timercmp (it_value rt) t Z.gtb then Ok (rt, [ReqTimeout REALITEXPIRE p (hzto t (it_value rt))])
      else realitexpire_loop fuel t p rt
  end.
Definition realitexpire (fuel : nat) (t : timeval) (p : Z) (rt : itimerval) : outcome (itimerval * list request) :=
  if timerisset (it_interval rt) then realitexpire_loop fuel t p rt
  else Ok (rt <| it_value := timerclear |>, []).
End Calls.

(** ** Times as numbers of microseconds *)

Definition wf_tv (t : timeval) : Prop := 0 <= tv_sec t < 2 ^ 31 /\ 0 <= tv_usec t < 1000000.
(** The first time that a [timeval] cannot hold. *)
Definition tv_end : Z := 2 ^ 31 * 1000000.
(** The [timeval] for [x] microseconds, as far as its 32 bits go. *)
Definition tv_of (x : Z) : timeval := Timeval (s32 (x / 1000000)) (x mod 1000000).

Lemma s32_s32_add x d : s32 (s32 x + d) = s32 (x + d).
Proof.
  unfold s32. set (y := x + 2 ^ 31).
  replace (x + d + 2 ^ 31) with (y + d) by (unfold y; ring). replace (y mod 2 ^ 32 - 2 ^ 31 + d + 2 ^ 31) with (y mod 2 ^ 32 + d) by ring.
  by rewrite Zplus_mod_idemp_l.
Qed.
Lemma tv_of_carry s m : 0 <= m < 1000000 -> tv_of (s * 1000000 + m) = Timeval (s32 s) m.
Proof. intros Hm. unfold tv_of. rewrite Z.div_add_l, Z.div_small, Z.add_0_r, Z.add_comm, Z_mod_plus_full, Z.mod_small by lia. done. Qed.
Lemma tv_of_in x : 0 <= x < tv_end -> wf_tv (tv_of x) /\ usecs (tv_of x) = x.
Proof.
  unfold tv_end, wf_tv, usecs, tv_of. cbn [tv_sec tv_usec]. intros Hx.
  assert (0 <= x / 1000000 < 2 ^ 31) by (split; [apply Z.div_pos; lia|apply Z.div_lt_upper_bound; lia]).
  rewrite s32_small by lia. pose proof (Z.mod_pos_bound x 1000000). pose proof (Z_div_mod_eq_full x 1000000). lia.
Qed.
Lemma tv_of_usecs t : wf_tv t -> tv_of (usecs t) = t.
Proof. destruct t as [s m]. unfold wf_tv, usecs. cbn. intros [Hs Hm]. rewrite tv_of_carry by done. by rewrite s32_small by lia. Qed.
(** Times are added to a time in 32 bits. *)
Lemma tv_of_add x m : 0 <= m < 1000000 ->
  (let u := tv_usec (tv_of x) + m in if 1000000 <=? u then Timeval (s32 (tv_sec (tv_of x) + 1)) (u - 1000000) else Timeval (tv_sec (tv_of x)) u) = tv_of (x + m).
Proof.
  intros Hm. change (tv_usec (tv_of x)) with (x mod 1000000). change (tv_sec (tv_of x)) with (s32 (x / 1000000)). cbv zeta.
  replace (x + m) with (1000000 * (x / 1000000) + x mod 1000000 + m) by (rewrite <- Z_div_mod_eq_full; done).
  pose proof (Z.mod_pos_bound x 1000000 ltac:(lia)) as Hx. generalize dependent (x mod 1000000). intros m' Hx. generalize (x / 1000000). intros s.
  destruct (Z.leb_spec 1000000 (m' + m)).
  - replace (1000000 * s + m' + m) with ((s + 1) * 1000000 + (m' + m - 1000000)) by ring. rewrite tv_of_carry by lia. by rewrite s32_s32_add.
  - replace (1000000 * s + m' + m) with (s * 1000000 + (m' + m)) by ring. by rewrite tv_of_carry by lia.
Qed.

Lemma usecs_inj t u : wf_tv t -> wf_tv u -> usecs t = usecs u -> t = u.
Proof. destruct t as [s m], u as [s' m']. unfold wf_tv, usecs. cbn. intros. f_equal; lia. Qed.
Lemma usecs_nonneg t : wf_tv t -> 0 <= usecs t.
Proof. unfold wf_tv, usecs. lia. Qed.
Lemma timerisset_spec t : wf_tv t -> timerisset t = (0 <? usecs t).
Proof. unfold wf_tv, usecs, timerisset, nz. intros. apply eq_bool_prop_intro. rewrite !Is_true_true. blia. Qed.
Lemma timerisset_num s m : 0 <= s -> 0 <= m < 1000000 -> timerisset (Timeval s m) = (0 <? s * 1000000 + m).
Proof. unfold timerisset, nz. cbn. intros. apply eq_bool_prop_intro. rewrite !Is_true_true. blia. Qed.
Lemma timercmp_lt t u : wf_tv t -> wf_tv u -> timercmp t u Z.ltb = (usecs t <? usecs u).
Proof. unfold wf_tv, usecs, timercmp. intros. apply eq_bool_prop_intro. rewrite !Is_true_true. bsimp. lia. Qed.
Lemma timercmp_gt t u : wf_tv t -> wf_tv u -> timercmp t u Z.gtb = (usecs u <? usecs t).
Proof.
  unfold wf_tv, usecs, timercmp. intros. apply eq_bool_prop_intro. rewrite !Is_true_true, !Z.gtb_ltb. bsimp. lia.
Qed.

Lemma timevaladd_of t u : wf_tv t -> wf_tv u -> timevaladd t u = tv_of (usecs t + usecs u).
Proof.
  destruct t as [s m], u as [s' m']. unfold wf_tv, usecs, timevaladd, timevalfix. cbn. intros [Hs Hm] [Hs' Hm'].
  rewrite (s32_small (m + m')), (proj2 (Z.ltb_ge (m + m') 0)) by lia. cbn. destruct (Z.leb_spec 1000000 (m + m')).
  - replace (s * 1000000 + m + (s' * 1000000 + m')) with ((s + s' + 1) * 1000000 + (m + m' - 1000000)) by ring.
    rewrite tv_of_carry by lia. by rewrite s32_s32_add.
  - replace (s * 1000000 + m + (s' * 1000000 + m')) with ((s + s') * 1000000 + (m + m')) by ring. by rewrite tv_of_carry by lia.
Qed.
Lemma timevaladd_spec t u : wf_tv t -> wf_tv u -> usecs t + usecs u < tv_end ->
  wf_tv (timevaladd t u) /\ usecs (timevaladd t u) = usecs t + usecs u.
Proof.
  intros Ht Hu Hb. rewrite timevaladd_of by done. apply tv_of_in. pose proof (usecs_nonneg _ Ht). pose proof (usecs_nonneg _ Hu). lia.
Qed.
Lemma timevalsub_spec t u : wf_tv t -> wf_tv u -> usecs u <= usecs t ->
  wf_tv (timevalsub t u) /\ usecs (timevalsub t u) = usecs t - usecs u.
Proof.
  destruct t as [s m], u as [s' m']. unfold wf_tv, usecs, timevalsub, timevalfix. cbn. intros.
  rewrite (s32_small (s - s')), (s32_small (m - m')) by lia. 
  destruct (Z.ltb_spec (m - m') 0); cbn; [rewrite (s32_small (s - s' - 1)) by lia; rewrite (proj2 (Z.leb_gt 1000000 _)) by lia|rewrite (proj2 (Z.leb_gt 1000000 _)) by lia]; cbn; lia.
Qed.

(** What [itimerfix] lets through: zero, or a tick or more. *)
Definition loadable (t : timeval) : Prop := wf_tv t /\ (usecs t = 0 \/ tick <= usecs t).

Lemma itimerfix_spec t v : itimerfix t = inl v -> loadable v /\ wf_tv t /\ usecs t <= usecs v /\ (tick <= usecs t \/ usecs t = 0 -> v = t).
Proof.
  destruct t as [s m]. unfold itimerfix, loadable, wf_tv, usecs, nz. cbn. change tick with 10000.
  destruct (Z.ltb_spec s 0), (Z.ltb_spec 100000000 s), (Z.ltb_spec m 0), (Z.leb_spec 1000000 m); try done. cbn.
  destruct (Z.eqb_spec s 0), (Z.eqb_spec m 0), (Z.ltb_spec m 10000); cbn; intros [= <-]; cbn; (split; [lia|]); (split; [lia|]);
    (split; [lia|]); intros; f_equal; lia.
Qed.

(** ** Interval timers do not drift *)

(** A tick of a timer, as [hardclock] does it: 1 when the signal is sent. *)
Definition vtick (itp : itimerval) : itimerval * Z :=
  if timerisset (it_value itp) then
    let (itp, r) := itimerdecr itp tick in (itp, if r =? 0 then 1 else 0)
  else (itp, 0).

Fixpoint vticks (n : nat) (itp : itimerval) : itimerval * Z :=
  match n with
  | O => (itp, 0)
  | S n => let (itp, k) := vticks n itp in let (itp, s) := vtick itp in (itp, k + s)
  end.

Lemma expire_spec itp usec : wf_tv (it_interval itp) -> 0 <= usec < 1000000 -> tv_sec (it_value itp) = 0 ->
  usecs (it_interval itp) = 0 \/ usec <= usecs (it_interval itp) ->
  let r := itimer_expire itp usec in
  it_interval r = it_interval itp /\ wf_tv (it_value r)
  /\ usecs (it_value r) = (if timerisset (it_interval itp) then usecs (it_interval itp) - usec else 0).
Proof.
  destruct itp as [[s m] [s' m']]. unfold itimer_expire, wf_tv, usecs. cbn. intros. subst s'.
  destruct (timerisset (Timeval s m)) eqn:E; cbn.
  - rewrite timerisset_spec in E by done. apply Z.ltb_lt in E. unfold usecs in E. cbn in E.
    destruct (Z.ltb_spec (m - usec) 0); cbn; rewrite ?s32_small by lia; (split; [done|]); lia.
  - split; [done|]. lia.
Qed.

Lemma vtick_spec itp v i : wf_tv (it_value itp) -> loadable (it_interval itp) -> usecs (it_value itp) = v -> usecs (it_interval itp) = i ->
  let (r, k) := vtick itp in
  it_interval r = it_interval itp /\ wf_tv (it_value r) /\
  (v = 0 /\ k = 0 /\ usecs (it_value r) = 0
   \/ tick < v /\ k = 0 /\ usecs (it_value r) = v - tick
   \/ 0 < v <= tick /\ k = 1 /\ usecs (it_value r) = (if i =? 0 then 0 else v + i - tick)).
Proof.
  destruct itp as [iv [s m]]. unfold loadable, vtick. cbn [it_value it_interval]. intros Hv [Hi Hl] <- Hii.
  rewrite timerisset_spec by done. destruct (Z.ltb_spec 0 (usecs (Timeval s m))) as [Hp|Hp];
    [|pose proof (usecs_nonneg _ Hv); split_and!; [done|done|left; cbn; lia]].
  assert (Hset : timerisset iv = negb (i =? 0)).
  { rewrite timerisset_spec, Hii by done. pose proof (usecs_nonneg _ Hi). destruct (Z.ltb_spec 0 i), (Z.eqb_spec i 0); try done; lia. }
  unfold itimerdecr. cbn [it_value tv_sec tv_usec]. unfold wf_tv, usecs in Hv, Hp. cbn in Hv, Hp. change tick with 10000 in *.
  destruct (Z.ltb_spec m 10000), (Z.eqb_spec s 0); cbn [andb].
  - destruct (expire_spec (Itimerval iv (Timeval s m)) (10000 - m)) as (E1 & E2 & E3); [done|lia|done|cbn; lia|].
    cbn [it_interval] in E1, E3. split_and!; [done|done|]. right; right. rewrite E3, Hset, Hii. unfold usecs. cbn. 
    split; [lia|]. split; [done|]. destruct (Z.eqb_spec i 0); cbn; lia.
  - rewrite (s32_small (s - 1)) by lia. change (_ <| tv_usec := _ |>) with (Timeval (s - 1) (m + 1000000 - 10000)).
    rewrite timerisset_num by lia.
    rewrite (proj2 (Z.ltb_lt 0 _)) by lia. cbn. split; [done|]. split; [unfold wf_tv; cbn; lia|]. right; left. unfold usecs. cbn. lia.
  - change (_ <| tv_usec := _ |>) with (Timeval s (m - 10000)).
    rewrite timerisset_num by lia.
    destruct (Z.ltb_spec 0 (s * 1000000 + (m - 10000))).
    + cbn. split; [done|]. split; [unfold wf_tv; cbn; lia|]. right; left. unfold usecs. cbn. lia.
    + destruct (expire_spec (Itimerval iv (Timeval s (m - 10000))) 0) as (E1 & E2 & E3); [done|lia|done|cbn; lia|].
      cbn [it_interval] in E1, E3. change (_ <| it_value := _ |>) with (Itimerval iv (Timeval s (m - 10000))).
      split_and!; [done|done|]. right; right. rewrite E3, Hset, Hii. unfold usecs. cbn. destruct (Z.eqb_spec i 0); cbn; lia.
  - change (_ <| tv_usec := _ |>) with (Timeval s (m - 10000)).
    rewrite timerisset_num by lia.
    rewrite (proj2 (Z.ltb_lt 0 _)) by lia. cbn. split; [done|]. split; [unfold wf_tv; cbn; lia|]. right; left. unfold usecs. cbn. lia.
Qed.

Lemma vticks_front n : forall itp, vticks (S n) itp = let (r, k) := vtick itp in let (r', k') := vticks n r in (r', k + k').
Proof.
  induction n as [|n IH]; intros itp.
  - cbn [vticks]. destruct (vtick itp) as [r k]. by rewrite Z.add_0_l, Z.add_0_r.
  - change (vticks (S (S n)) itp) with (let (r, k) := vticks (S n) itp in let (r', s) := vtick r in (r', k + s)).
    rewrite IH. destruct (vtick itp) as [r k]. cbn [vticks]. destruct (vticks n r) as [r1 k1]. destruct (vtick r1) as [r2 s].
    f_equal. lia.
Qed.

Lemma vticks_S n itp : (vticks (S n) itp).1 = (vticks n (vtick itp).1).1
  /\ (vticks (S n) itp).2 = (vtick itp).2 + (vticks n (vtick itp).1).2.
Proof. rewrite vticks_front. destruct (vtick itp) as [r k]. cbn [fst snd]. by destruct (vticks n r). Qed.

(** The signals by tick [n], for a timer set to [v] with interval [i]. *)
Definition expirations (v i n : Z) : Z :=
  if (v =? 0) || (n * tick <? v) then 0 else if i =? 0 then 1 else (n * tick - v) / i + 1.

Lemma expirations_unique v i n k : 0 < v -> 0 < i -> 0 <= k -> v + (k - 1) * i <= n * tick \/ k = 0 -> n * tick < v + k * i ->
  k = expirations v i n.
Proof.
  intros Hv Hi Hk H1 H2. unfold expirations. rewrite (proj2 (Z.eqb_neq v 0)), (proj2 (Z.eqb_neq i 0)) by lia. cbn [orb].
  destruct (Z.ltb_spec (n * tick) v).
  - destruct H1; [|done]. destruct (Z.eq_dec k 0); [done|]. nia.
  - destruct H1 as [H1| ->]; [|lia]. assert ((n * tick - v) / i = k - 1); [|lia].
    symmetry. apply (Z.div_unique_pos _ _ _ (n * tick - v - i * (k - 1))); lia.
Qed.

Lemma vticks_spec itp n : wf_tv (it_value itp) -> loadable (it_interval itp) ->
  let v := usecs (it_value itp) in let i := usecs (it_interval itp) in
  let (r, k) := vticks n itp in
  it_interval r = it_interval itp /\ wf_tv (it_value r) /\ k = expirations v i (Z.of_nat n)
  /\ usecs (it_value r) = (if (v =? 0) || (i =? 0) && (0 <? k) then 0 else v + k * i - Z.of_nat n * tick).
Proof.
  intros Hv Hi v i. assert (Hv0 : 0 <= v) by by apply usecs_nonneg. assert (Hi0 : i = 0 \/ tick <= i) by apply Hi.
  set (inv k x m := 0 <= k /\ (v = 0 -> k = 0 /\ x = 0) /\ (0 < v -> i = 0 -> k = 0 /\ x = v - m * tick /\ 0 < x \/ k = 1 /\ x = 0 /\ v <= m * tick)
    /\ (0 < v -> 0 < i -> x = v + k * i - m * tick /\ 0 < x /\ (v + (k - 1) * i <= m * tick \/ k = 0))).
  cut (let (r, k) := vticks n itp in it_interval r = it_interval itp /\ wf_tv (it_value r) /\ inv k (usecs (it_value r)) (Z.of_nat n)).
  { destruct (vticks n itp) as [r k]. intros (H1 & H2 & H3 & H4 & H5 & H6). split; [done|]. split; [done|].
    destruct (Z.eq_dec v 0) as [E|E].
    - destruct (H4 E) as [-> ->]. unfold expirations. by rewrite E.
    - rewrite (proj2 (Z.eqb_neq v 0)) by done. cbn [orb]. destruct (Z.eq_dec i 0) as [E'|E'].
      + rewrite E'. cbn. unfold expirations. rewrite (proj2 (Z.eqb_neq v 0)) by done. cbn.
        destruct (H5 ltac:(lia) E') as [(-> & -> & Hx)|(-> & -> & Hx)]; cbn;
          [rewrite (proj2 (Z.ltb_lt _ _)) by lia|rewrite (proj2 (Z.ltb_ge _ _)) by lia]; lia.
      + assert (0 < i) by (change tick with 10000 in *; lia). destruct H6 as (Hx & Hp & Hk); [lia|lia|].
        rewrite (proj2 (Z.eqb_neq i 0)) by done. cbn. split; [apply expirations_unique; lia|done]. }
  induction n as [|n IH]; cbn [vticks].
  - split; [done|]. split; [done|]. unfold inv, v, i. change (Z.of_nat 0) with 0. lia.
  - destruct (vticks n itp) as [r k]. destruct IH as (H1 & H2 & H3 & H4 & H5 & H6).
    pose proof (vtick_spec r (usecs (it_value r)) i H2 ltac:(by rewrite H1) eq_refl ltac:(by rewrite H1)) as Hs.
    destruct (vtick r) as [r' s]. destruct Hs as (S1 & S2 & S3). split; [congruence|]. split; [done|].
    unfold inv. rewrite Nat2Z.inj_succ. clearbody v i. clear S1 S2 H1 H2 Hv Hi inv. revert H4 H5 H6 S3.
    generalize (usecs (it_value r)) as x, (usecs (it_value r')) as x'. change tick with 10000 in *. intros x x' H4 H5 H6 S3.
    destruct (Z.eqb_spec i 0); [subst i; lia|]. destruct S3 as [(-> & -> & ->)|[(Hx & -> & ->)|(Hx & -> & ->)]]; lia.
Qed.

(** ** Deadlines in ticks *)

Lemma hzto_spec t v : wf_tv t -> wf_tv v -> usecs t <= usecs v -> tv_sec v - tv_sec t <= 2146482 ->
  usecs v - usecs t - tick < hzto t v * tick < usecs v - usecs t + 1000.
Proof.
  destruct t as [s m], v as [s' m']. unfold wf_tv, usecs, hzto. cbn [tv_sec tv_usec]. intros H1 H2 H3 H4.
  rewrite (s32_small (s' - s)), (s32_small (m' - m)) by lia. change (Z.quot 2147483647 1000 - 1000) with 2146483. change tick with 10000. change (Z.quot 10000 1000) with 10.
  rewrite (proj2 (Z.leb_le _ _)) by lia. rewrite (s32_small ((s' - s) * 1000)) by lia.
  assert (- 1000 < Z.quot (m' - m) 1000 < 1000) by (Z.to_euclidean_division_equations; lia).
  rewrite s32_small by lia. Z.to_euclidean_division_equations; lia.
Qed.

(** ** The real timer and its callout *)

Definition is_call (f a : Z) (c : callout) : bool := (c_func c =? f) && (c_arg c =? a).
(** How many callouts for [f] and [a] the queue holds. *)
Fixpoint pending (f a : Z) (l : list callout) : nat :=
  match l with [] => O | c :: l => ((if is_call f a c then 1 else 0) + pending f a l)%nat end.

Lemma pending_place f a f' a' l : forall t,
  pending f a (timeout_place (Callout 0 a' f') t l) = ((if (f' =? f)%Z && (a' =? a)%Z then 1 else 0) + pending f a l)%nat.
Proof.
  induction l as [|[c a2 f2] r IH]; intros t; cbn [timeout_place]; [done|].
  destruct (c_time _ <? t); [|done]. cbn [pending]. rewrite IH. lia.
Qed.

Lemma pending_untimeout f a f' a' l :
  match untimeout_loop f' a' l with
  | Some l' => pending f a l = ((if (f' =? f)%Z && (a' =? a)%Z then 1 else 0) + pending f a l')%nat
  | None => pending f' a' l = O
  end.
Proof.
  induction l as [|[c a2 f2] r IH]; cbn [untimeout_loop]; [done|]. cbn [c_func c_arg].
  destruct (Z.eqb_spec f2 f') as [->|Hf], (Z.eqb_spec a2 a') as [->|Ha]; cbn [andb].
  1: destruct r as [|[c3 a3 f3] r]; [done|]; by destruct (0 <? c_time (Callout c a' f')).
  all: destruct (untimeout_loop f' a' r); cbn [pending]; rewrite IH; [lia|].
  all: unfold is_call; cbn [c_func c_arg]; rewrite ?(proj2 (Z.eqb_neq _ _) Hf), ?(proj2 (Z.eqb_neq _ _) Ha), ?andb_false_r; done.
Qed.

Lemma timeout_pending st f a t st' f' a' : timeout st f a t = Ok st' ->
  pending f' a' (calltodo st') = ((if (f =? f')%Z && (a =? a')%Z then 1 else 0) + pending f' a' (calltodo st))%nat.
Proof. unfold timeout. destruct (callfree st); [done|]. intros [= <-]. apply pending_place. Qed.

Lemma untimeout_pending st f a f' a' : pending f a (calltodo st) = O \/ pending f a (calltodo st) = 1%nat ->
  pending f' a' (calltodo (untimeout st f a)) = if (f =? f') && (a =? a') then O else pending f' a' (calltodo st).
Proof.
  intros H. unfold untimeout. pose proof (pending_untimeout f' a' f a (calltodo st)) as H1. pose proof (pending_untimeout f a f a (calltodo st)) as H2.
  rewrite !Z.eqb_refl in H2. destruct (untimeout_loop f a (calltodo st)) as [l'|]; cbn [calltodo].
  - destruct (Z.eqb_spec f f') as [->|]; [destruct (Z.eqb_spec a a') as [->|]|]; cbn [andb] in *; lia.
  - destruct (Z.eqb_spec f f') as [->|]; [destruct (Z.eqb_spec a a') as [->|]|]; cbn [andb]; done.
Qed.

Section RealTimer.
Context {M : Type} (UI : uops M itimerval) (UT : uops M timeval) (UZ : uops M (Z * Z)) (REALITEXPIRE : Z).
Abbreviation setitimer := (setitimer UI REALITEXPIRE).
Abbreviation realitexpire := (realitexpire REALITEXPIRE).

(** A timer that runs has one callout, one that does not run has none and is not set. *)
Definition armed (p : Z) (on : bool) (rt : itimerval) (st : callouts) : Prop :=
  loadable (it_interval rt) /\ (timerisset (it_value rt) = true -> on = true)
  /\ pending REALITEXPIRE p (calltodo st) = if on then 1%nat else O.

(** The passes that the loop of [realitexpire] makes, before the end of the 32 bits. *)
Definition realitexpire_passes (t : timeval) (rt : itimerval) : nat :=
  S (Z.to_nat ((usecs t - usecs (it_value rt)) / usecs (it_interval rt))).

Lemma realitexpire_loop_ok fuel : forall t p rt, wf_tv t -> wf_tv (it_value rt) -> wf_tv (it_interval rt) -> 0 < usecs (it_interval rt) ->
  Z.max (usecs t) (usecs (it_value rt)) + usecs (it_interval rt) < tv_end -> (realitexpire_passes t rt <= fuel)%nat ->
  exists v k, realitexpire_loop REALITEXPIRE fuel t p rt = Ok (rt <| it_value := v |>, [ReqTimeout REALITEXPIRE p (hzto t v)])
    /\ wf_tv v /\ 1 <= k /\ usecs v = usecs (it_value rt) + k * usecs (it_interval rt) /\ usecs t < usecs v
    /\ (k = 1 \/ usecs v - usecs (it_interval rt) <= usecs t).
Proof.
  unfold realitexpire_passes. induction fuel as [|fuel IH]; intros t p [i v] Ht Hv Hi Hp Hb Hf; [lia|]. cbn [it_value it_interval] in *.
  cbn [realitexpire_loop it_value it_interval]. destruct (timevaladd_spec v i Hv Hi ltac:(lia)) as [Hw Hu].
  change (_ <| it_value := _ |>) with (Itimerval i (timevaladd v i)) at 1. cbn [it_value]. rewrite timercmp_gt by done.
  destruct (Z.ltb_spec (usecs t) (usecs (timevaladd v i))) as [Hlt|Hge].
  - exists (timevaladd v i), 1. split; [done|]. split; [done|]. split; [lia|]. split; [lia|]. split; [done|]. by left.
  - destruct (IH t p (Itimerval i (timevaladd v i))) as (v' & k & E & H1 & H2 & H3 & H4 & H5); try done.
    { cbn [it_value it_interval]. lia. }
    { cbn [it_value it_interval]. rewrite Hu. rewrite Hu in Hge.
      replace (usecs t - (usecs v + usecs i)) with (usecs t - usecs v + (-1) * usecs i) by ring. rewrite Z.div_add by lia.
      assert (0 < (usecs t - usecs v) / usecs i) by (apply Z.div_str_pos; lia). lia. }
    cbn [it_value it_interval] in *. exists v', (k + 1). split; [done|]. split; [done|]. split; [lia|]. split; [lia|]. split; [done|]. right.
    destruct H5 as [-> |H5]; [lia|done].
Qed.

(** The new value is the first one, a number of intervals on, that is later than [t]. *)
Lemma realitexpire_ok fuel t p rt : wf_tv t -> wf_tv (it_value rt) -> wf_tv (it_interval rt) -> 0 < usecs (it_interval rt) ->
  Z.max (usecs t) (usecs (it_value rt)) + usecs (it_interval rt) < tv_end -> (realitexpire_passes t rt <= fuel)%nat ->
  exists v k, realitexpire fuel t p rt = Ok (rt <| it_value := v |>, [ReqTimeout REALITEXPIRE p (hzto t v)])
    /\ wf_tv v /\ 1 <= k /\ usecs v = usecs (it_value rt) + k * usecs (it_interval rt) /\ usecs t < usecs v
    /\ (k = 1 \/ usecs v - usecs (it_interval rt) <= usecs t).
Proof.
  intros Ht Hv Hi H0 Hb Hf. unfold KernTime.realitexpire. rewrite timerisset_spec, (proj2 (Z.ltb_lt _ _)) by done.
  by apply realitexpire_loop_ok.
Qed.

(** Whatever the times, what comes of it is a request for a call, or none without an
    interval, when the timer is off. *)
Lemma realitexpire_shape fuel t p rt rt' reqs : realitexpire fuel t p rt = Ok (rt', reqs) ->
  it_interval rt' = it_interval rt /\
  if timerisset (it_interval rt) then exists n, reqs = [ReqTimeout REALITEXPIRE p n]
  else it_value rt' = timerclear /\ reqs = [].
Proof.
  unfold KernTime.realitexpire. destruct (timerisset (it_interval rt)); [|by intros [= <- <-]].
  revert rt. induction fuel as [|fuel IH]; intros rt; [done|]. cbn [realitexpire_loop].
  destruct (timercmp _ _ _); [intros [= <- <-]; by eauto|]. intros [H1 H2]%IH. done.
Qed.

Lemma pending_other f a f' a' st : pending f a (calltodo st) = O \/ pending f a (calltodo st) = 1%nat -> (f, a) <> (f', a') ->
  pending f' a' (calltodo (untimeout st f a)) = pending f' a' (calltodo st).
Proof.
  intros H Hn. rewrite untimeout_pending by done. destruct (Z.eqb_spec f f'), (Z.eqb_spec a a'); cbn; congruence.
Qed.

Lemma armed_pending p on rt st : armed p on rt st -> pending REALITEXPIRE p (calltodo st) = O \/ pending REALITEXPIRE p (calltodo st) = 1%nat.
Proof. intros (_ & _ & ->). destruct on; auto. Qed.

Lemma getitimer_keeps (k k' : kern (M := M)) which a : getitimer UI k which a = Ok k' ->
  co k' = co k /\ p_realtimer k' = p_realtimer k /\ u_procp k' = u_procp k /\ time k' = time k /\ u_timer k' = u_timer k.
Proof.
  unfold getitimer. destruct (2 <? which); [by intros [= <-]|]. intros E. apply obind_ok in E as (v & _ & E).
  destruct (copyout UI (umem k) v a). by injection E as <-.
Qed.

(** What [setitimer] loads into the real timer: nothing, or a value and an interval. *)
Definition loads (k : kern (M := M)) (which itv oitv : Z) : option (timeval * timeval) :=
  let m := if nz oitv then match getitimer UI k which oitv with Ok k => umem k | _ => umem k end else umem k in
  if (which =? ITIMER_REAL) && nz itv then
    match copyin UI m itv with
    | inl a => match itimerfix (it_value a), itimerfix (it_interval a) with inl v, inl i => Some (v, i) | _, _ => None end
    | inr _ => None
    end
  else None.

Lemma setitimer_shape k which itv oitv k' : setitimer k which itv oitv = Ok k' ->
  time k' = time k /\ u_procp k' = u_procp k /\
  match loads k which itv oitv with
  | None => co k' = co k /\ p_realtimer k' = p_realtimer k
  | Some (v, i) => loadable v /\ loadable i /\
     let st := untimeout (co k) REALITEXPIRE (u_procp k) in
     if timerisset v then
       p_realtimer k' = Itimerval i (timevaladd v (time k))
       /\ timeout st REALITEXPIRE (u_procp k) (hzto (time k) (timevaladd v (time k))) = Ok (co k')
     else p_realtimer k' = Itimerval i v /\ co k' = st
  end.
Proof.
  unfold KernTime.setitimer, loads. destruct (Z.ltb_spec 2 which) as [Hw|Hw].
  { intros [= <-]. rewrite (proj2 (Z.eqb_neq which ITIMER_REAL)) by (unfold ITIMER_REAL; lia). done. }
  intros E. apply obind_ok in E as (k1 & E1 & E).
  assert (Hk : co k1 = co k /\ p_realtimer k1 = p_realtimer k /\ u_procp k1 = u_procp k /\ time k1 = time k /\ u_timer k1 = u_timer k).
  { destruct (nz oitv); [by eapply getitimer_keeps|by injection E1 as <-]. }
  assert (Hm : (if nz oitv then match getitimer UI k which oitv with Ok k => umem k | _ => umem k end else umem k) = umem k1).
  { destruct (nz oitv); [by rewrite E1|by injection E1 as <-]. }
  rewrite Hm. destruct Hk as (K1 & K2 & K3 & K4 & _). rewrite <- K1, <- K2, <- K3, <- K4. clear Hm K1 K2 K3 K4 E1 k.
  unfold nz. destruct (itv =? 0); [injection E as <-; by rewrite andb_false_r|]. cbn [negb]. rewrite andb_true_r.
  destruct (copyin UI (umem k1) itv) as [aitv|e]; [|injection E as <-; by destruct (which =? ITIMER_REAL)].
  destruct (itimerfix (it_value aitv)) as [v|] eqn:Ev; [|injection E as <-; by destruct (which =? ITIMER_REAL)].
  destruct (itimerfix (it_interval aitv)) as [i|] eqn:Ei; [|injection E as <-; by destruct (which =? ITIMER_REAL)].
  apply itimerfix_spec in Ev as [Hv _], Ei as [Hi _].
  destruct (which =? ITIMER_REAL); [|by apply obind_ok in E as (l & _ & [= <-])].
  cbn -[hzto timeout untimeout timevaladd] in E. destruct (timerisset v) eqn:Es.
  - apply obind_ok in E as (st & E & [= <-]). do 4 (split; [done|]). by split.
  - injection E as <-. do 4 (split; [done|]). by split.
Qed.

Lemma setitimer_armed k which itv oitv k' on : armed (u_procp k) on (p_realtimer k) (co k) ->
  setitimer k which itv oitv = Ok k' ->
  armed (u_procp k) (match loads k which itv oitv with Some (v, _) => timerisset v | None => on end) (p_realtimer k') (co k')
  /\ forall q, q <> u_procp k -> pending REALITEXPIRE q (calltodo (co k')) = pending REALITEXPIRE q (calltodo (co k)).
Proof.
  intros Ha E. apply setitimer_shape in E as (_ & _ & E). destruct (loads k which itv oitv) as [[v i]|]; [|by destruct E as [-> ->]].
  destruct E as (Hv & Hi & E). cbv zeta in E.
  pose proof (fun q => untimeout_pending (co k) REALITEXPIRE (u_procp k) REALITEXPIRE q (armed_pending _ _ _ _ Ha)) as Hu.
  setoid_rewrite Z.eqb_refl in Hu. cbn [andb] in Hu.
  assert (Hne : forall q, q <> u_procp k -> (u_procp k =? q) = false) by (intros; by apply Z.eqb_neq).
  destruct (timerisset v) eqn:Es; destruct E as [-> E]; unfold armed; cbn [it_value it_interval].
  - split.
    + split; [done|]. split; [done|]. by rewrite (timeout_pending _ _ _ _ _ REALITEXPIRE (u_procp k) E), !Z.eqb_refl, Hu, Z.eqb_refl.
    + intros q Hq. rewrite (timeout_pending _ _ _ _ _ REALITEXPIRE q E), Hu, !Hne by done. by rewrite Z.eqb_refl.
  - rewrite E. split.
    + split; [done|]. split; [congruence|]. by rewrite Hu, Z.eqb_refl.
    + intros q Hq. by rewrite Hu, Hne.
Qed.
End RealTimer.

(** ** The timers of all processes *)

Lemma hardclock_pending f a l : pending f a (hardclock_calls l).1 = pending f a l.
Proof.
  induction l as [|[t a' f'] r IH]; [done|]. cbn [hardclock_calls]. change (c_time (_ <| c_time := _ |>)) with (t - 1).
  destruct (0 <? t - 1); [done|]. destruct (t - 1 =? 0); [done|]. cbn [fst pending]. by rewrite IH.
Qed.

Definition req_fun (r : request) : Z := match r with ReqTimeout f _ _ => f | ReqUntimeout f _ => f end.

Lemma untimeout_pending_ne st f a f' a' : f <> f' -> pending f' a' (calltodo (untimeout st f a)) = pending f' a' (calltodo st).
Proof.
  intros H. unfold untimeout. pose proof (pending_untimeout f' a' f a (calltodo st)) as H1.
  destruct (untimeout_loop f a (calltodo st)); [|done]. cbn [calltodo]. rewrite H1. by rewrite (proj2 (Z.eqb_neq f f')).
Qed.

Lemma requests_pending l f a : Forall (fun r => req_fun r <> f) l -> forall st st', do_requests st l = Ok st' ->
  pending f a (calltodo st') = pending f a (calltodo st).
Proof.
  induction l as [|r l IH]; intros Hl st st' E; cbn in E; [by injection E as <-|]. apply obind_ok in E as (st1 & E1 & E2).
  apply Forall_cons in Hl as [Hr Hl]. rewrite (IH Hl _ _ E2).
  destruct r as [f' a' t|f' a']; cbn in E1, Hr.
  - rewrite (timeout_pending _ _ _ _ _ f a E1). by rewrite (proj2 (Z.eqb_neq f' f)).
  - injection E1 as <-. by apply untimeout_pending_ne.
Qed.

Section AllTimers.
Context {M : Type} (UI : uops M itimerval) (UT : uops M timeval) (UZ : uops M (Z * Z)) (REALITEXPIRE : Z) (fuel : nat).
(** What the other functions in the queue ask for. *)
Context (other : Z -> Z -> list request).
Context (other_ok : forall f a, Forall (fun r => req_fun r <> REALITEXPIRE) (other f a)).
Abbreviation armed := (armed REALITEXPIRE).

(** A property of each process. *)
Definition set_at {A} (f : Z -> A) (p : Z) (a : A) : Z -> A := fun q => if q =? p then a else f q.

(** The time of day, the real timer of each process, whether it runs, and whether
    [realitexpire] has not come back. *)
Record world := World { w_time : timeval; w_rt : Z -> itimerval; w_on : Z -> bool; w_hangs : bool }.

(** [softclock] calls [func]; a timer that goes off runs on if it has an interval. *)
Definition dispatch (w : world) (func arg a : Z) : world * list request :=
  if func =? REALITEXPIRE then
    match realitexpire REALITEXPIRE fuel (w_time w) arg (w_rt w arg) with
    | Ok (rt, reqs) =>
        (World (w_time w) (set_at (w_rt w) arg rt) (set_at (w_on w) arg (timerisset (it_interval (w_rt w arg)))) (w_hangs w), reqs)
    | _ => (World (w_time w) (w_rt w) (w_on w) true, [])
    end
  else (w, other func arg).

Definition all_armed (w : world) (st : callouts) : Prop := w_hangs w = true \/ forall p, armed p (w_on w p) (w_rt w p) st.

Lemma dispatch_armed w f a t r n st : all_armed w (Callouts (Callout t a f :: r) n) ->
  do_requests (Callouts r (S n)) (dispatch w f a t).2 = Ok st -> all_armed (dispatch w f a t).1 st.
Proof using other_ok.
  intros [Hh|Ha]; unfold dispatch.
  { intros _. left. destruct (f =? REALITEXPIRE); [|done]. by destruct (realitexpire _ _ _ _ _) as [[rt reqs]| |]. }
  destruct (Z.eqb_spec f REALITEXPIRE) as [->|Hf].
  - destruct (realitexpire _ _ _ _ _) as [[rt reqs]| |] eqn:E1; [|by left|by left]. cbn [fst snd]. intros E. right.
    apply realitexpire_shape in E1 as [Ei E1]. destruct (Ha a) as (H1 & H2 & H3). cbn [calltodo pending] in H3.
    unfold is_call in H3. cbn [c_func c_arg] in H3. rewrite !Z.eqb_refl in H3. cbn [andb] in H3.
    assert (Hr : pending REALITEXPIRE a r = O) by (destruct (w_on w a); lia).
    assert (Hq : forall q, q <> a -> pending REALITEXPIRE q (calltodo st) = pending REALITEXPIRE q r ->
        armed q (w_on w q) (w_rt w q) st).
    { intros q Hq Eq. destruct (Ha q) as (Q1 & Q2 & Q3). split; [done|]. split; [done|]. rewrite Eq, <- Q3. cbn [calltodo pending]. unfold is_call.
      cbn [c_func c_arg]. by rewrite Z.eqb_refl, (proj2 (Z.eqb_neq a q)) by done. }
    intros q. cbn [w_on w_rt]. unfold set_at. destruct (timerisset (it_interval (w_rt w a))).
    + destruct E1 as [t' ->]. cbn [do_requests do_request] in E. apply obind_ok in E as (st1 & E & [= <-]).
      pose proof (timeout_pending _ _ _ _ _ REALITEXPIRE q E) as Ep. rewrite Z.eqb_refl in Ep. cbn [andb calltodo] in Ep.
      destruct (Z.eqb_spec q a) as [->|Hqa].
      * rewrite Z.eqb_refl, Hr in Ep. split; [by rewrite Ei|]. done.
      * rewrite (proj2 (Z.eqb_neq a q)) in Ep by done. by apply Hq.
    + destruct E1 as [Ev ->]. cbn [do_requests] in E. injection E as <-. destruct (Z.eqb_spec q a) as [->|Hqa]; [|by apply Hq].
      split; [by rewrite Ei|]. split; [by rewrite Ev|]. done.
  - cbn [fst snd]. intros E. right. intros q. destruct (Ha q) as (Q1 & Q2 & Q3). split; [done|]. split; [done|].
    rewrite (requests_pending _ REALITEXPIRE q (other_ok f a) _ _ E). rewrite <- Q3. cbn [calltodo pending].
    unfold is_call. cbn [c_func]. by rewrite (proj2 (Z.eqb_neq f _)).
Qed.

Lemma softclock_armed n : forall w st w' st', all_armed w st ->
  softclock_loop dispatch n w st = Ok (w', st') -> all_armed w' st'.
Proof using other_ok.
  induction n as [|n IH]; intros w [[|[t a f] r] m] w' st' Ha; cbn [softclock_loop calltodo c_time]; try (destruct (0 <? t));
    try by intros [= <- <-].
  cbn [c_func c_arg callfree]. intros E. apply obind_ok in E as (st1 & E1 & E2).
  apply (IH _ _ _ _ (dispatch_armed _ _ _ _ _ _ _ Ha E1) E2).
Qed.

(** A process calls [setitimer]; someone calls [settimeofday]; the clock ticks, and it is
    then [t]; [softclock] runs. *)
Inductive timer_event := Set_ (p which itv oitv : Z) | Set_time (tv tzp : Z) | Clock_tick (t : timeval) | Soft_clock.

Record timers := Timers { t_kern : kern (M := M); t_rt : Z -> itimerval; t_on : Z -> bool }.

Definition timer_step (s : timers) (e : timer_event) : outcome timers :=
  let k := t_kern s in
  match e with
  | Set_ p which itv oitv =>
      let k := k <| u_procp := p |> <| p_realtimer := t_rt s p |> in
      let on := match loads UI k which itv oitv with Some (v, _) => timerisset v | None => t_on s p end in
      let* k := setitimer UI REALITEXPIRE k which itv oitv in
      Ok (Timers k (set_at (t_rt s) p (p_realtimer k)) (set_at (t_on s) p on))
  | Set_time tv tzp => Ok (Timers (settimeofday UT UZ k tv tzp) (t_rt s) (t_on s))
  | Clock_tick t =>
      Ok (Timers (k <| time := t |> <| co := Callouts (hardclock_calls (calltodo (co k))).1 (callfree (co k)) |>) (t_rt s) (t_on s))
  | Soft_clock =>
      let* r := softclock dispatch (World (time k) (t_rt s) (t_on s) false) (co k) in
      if w_hangs r.1 then Fault else Ok (Timers (k <| co := r.2 |>) (w_rt r.1) (w_on r.1))
  end.

Fixpoint timer_run (s : timers) (l : list timer_event) : outcome timers :=
  match l with [] => Ok s | e :: l => let* s := timer_step s e in timer_run s l end.

Definition timers_armed (s : timers) : Prop := forall p, armed p (t_on s p) (t_rt s p) (co (t_kern s)).

Lemma settimeofday_co (k : kern (M := M)) tv tzp : co (settimeofday UT UZ k tv tzp) = co k.
Proof.
  unfold settimeofday, setthetime, suser. destruct (copyin UT _ tv) as [atv|]; [|done]. cbn [u_uid set_field].
  destruct (u_uid k =? 0) eqn:E, (nz tzp); cbn [u_uid set_field]; rewrite ?E; try done.
  by destruct (copyin UZ _ tzp).
Qed.

Lemma timer_step_armed s e s' : timers_armed s -> timer_step s e = Ok s' -> timers_armed s'.
Proof using other_ok.
  destruct s as [k rts on]. intros Ha. destruct e as [p which itv oitv|tv tzp|t|]; cbn [timer_step t_kern t_rt t_on].
  - intros E. apply obind_ok in E as (k' & E & [= <-]). set (k0 := k <| u_procp := p |> <| p_realtimer := rts p |>) in *.
    assert (Ha' : armed (u_procp k0) (on p) (p_realtimer k0) (co k0)) by exact (Ha p).
    destruct (setitimer_armed UI REALITEXPIRE k0 which itv oitv k' (on p) Ha' E) as [H1 H2]. intros q. cbn [t_kern t_rt t_on]. unfold set_at.
    destruct (Z.eqb_spec q p) as [->|Hq]; [done|]. destruct (Ha q) as (Q1 & Q2 & Q3). split; [done|]. split; [done|]. by rewrite (H2 q Hq).
  - intros [= <-] q. cbn [t_kern t_rt t_on]. rewrite settimeofday_co. apply Ha.
  - intros [= <-] q. destruct (Ha q) as (Q1 & Q2 & Q3). split; [done|]. split; [done|].
    cbn [t_kern co calltodo]. by etransitivity; [apply hardclock_pending|].
  - intros E. apply obind_ok in E as ([w' st'] & E & E'). cbn [fst snd] in E'. destruct (w_hangs w') eqn:Eh; [done|]. injection E' as <-.
    destruct (softclock_armed _ (World (time k) rts on false) _ _ _ (or_intror Ha) E) as [H|H]; [congruence|done].
Qed.
Lemma timer_run_armed l : forall s s', timers_armed s -> timer_run s l = Ok s' -> timers_armed s'.
Proof using other_ok.
  induction l as [|e l IH]; intros s s' Ha E; cbn in E; [by injection E as <-|]. apply obind_ok in E as (s1 & E1 & E2).
  apply (IH s1 s'); [by eapply timer_step_armed|done].
Qed.
End AllTimers.

(** ** Claims *)

(** C22: the callouts of the real timers.  Start with no callout and no timer set; then, in
    any order, processes call [setitimer] with whatever arguments, the time of day is
    set to whatever is asked, the clock ticks, and [softclock] calls what is due, among
    it [realitexpire] and functions that do not meddle with it.  A timer runs from a
    [setitimer] that loads a value which is not zero, until one loads zero or it goes
    off with no interval.  As long as there are free callouts and [realitexpire] comes
    back, a process whose timer runs has exactly one callout for it in the queue, and
    any other has none; a timer with a deadline, in [it_value], runs; and the interval is
    zero or a tick at least. *)
Theorem real_timers_armed {M : Type} (UI : uops M itimerval) (UT : uops M timeval) (UZ : uops M (Z * Z)) (REALITEXPIRE : Z) (fuel : nat)
    (other : Z -> Z -> list request) (k : kern (M := M)) (l : list timer_event) s' :
  (forall f a, Forall (fun r => req_fun r <> REALITEXPIRE) (other f a)) -> calltodo (co k) = [] ->
  timer_run UI UT UZ REALITEXPIRE fuel other (Timers k (fun _ => Itimerval timerclear timerclear) (fun _ => false)) l = Ok s' ->
  forall p, pending REALITEXPIRE p (calltodo (co (t_kern s'))) = (if t_on s' p then 1%nat else O)
    /\ (timerisset (it_value (t_rt s' p)) = true -> t_on s' p = true)
    /\ loadable (it_interval (t_rt s' p)).
Proof.
  intros Ho Hk E p. apply (timer_run_armed UI UT UZ REALITEXPIRE fuel other Ho) in E; [by destruct (E p) as (H1 & H2 & H3)|].
  intros q. unfold armed. cbn [t_kern t_rt t_on it_value it_interval]. rewrite Hk. split; [|done].
  split; [|by left]. unfold wf_tv. cbn. lia.
Qed.

(** C23: [realitexpire] ends, however late it comes, while the deadlines stay within the 32
    bits of a time.  With an interval, the timer is put forward by whole intervals, at
    least one, to the first such time that is later than the time of day, so that
    expiries missed are not made up for and those to come do not drift; it asks for
    one call, in as many ticks as [hzto] counts.  When the deadline is less than 24
    days off these are the time to it, less a tick at most or too long by less than a
    millisecond.  Without an interval the timer is off. *)
Theorem realitexpire_correct REALITEXPIRE fuel t p rt : wf_tv t -> wf_tv (it_value rt) -> wf_tv (it_interval rt) ->
  Z.max (usecs t) (usecs (it_value rt)) + usecs (it_interval rt) < tv_end -> (realitexpire_passes t rt <= fuel)%nat ->
  if usecs (it_interval rt) =? 0 then realitexpire REALITEXPIRE fuel t p rt = Ok (rt <| it_value := timerclear |>, [])
  else exists v k,
    realitexpire REALITEXPIRE fuel t p rt = Ok (rt <| it_value := v |>, [ReqTimeout REALITEXPIRE p (hzto t v)])
    /\ wf_tv v /\ 1 <= k /\ usecs v = usecs (it_value rt) + k * usecs (it_interval rt) /\ usecs t < usecs v
    /\ (k = 1 \/ usecs v - usecs (it_interval rt) <= usecs t)
    /\ (tv_sec v - tv_sec t <= 2146482 -> usecs v - usecs t - tick < hzto t v * tick < usecs v - usecs t + 1000).
Proof.
  intros Ht Hv Hi Hb Hf. pose proof (usecs_nonneg _ Hi). destruct (Z.eqb_spec (usecs (it_interval rt)) 0).
  - unfold realitexpire. rewrite timerisset_spec by done. by rewrite (proj2 (Z.ltb_ge _ _)) by lia.
  - destruct (realitexpire_ok REALITEXPIRE fuel t p rt) as (v & k & E & H1 & H2 & H3 & H4 & H5); [done..|lia|done|done|].
    exists v, k. do 6 (split; [done|]). intros Hs. apply hzto_spec; try done. lia.
Qed.

Lemma timevaladd_range t u : 0 <= tv_usec t < 1000000 -> 0 <= tv_usec u < 1000000 ->
  tv_sec (timevaladd t u) < 2 ^ 31 /\ 0 <= tv_usec (timevaladd t u) < 1000000.
Proof.
  intros Ht Hu. unfold timevaladd, timevalfix. cbn [tv_usec tv_sec]. rewrite (s32_small (tv_usec t + tv_usec u)) by lia.
  rewrite (proj2 (Z.ltb_ge _ 0)) by lia. cbn [tv_usec tv_sec]. destruct (Z.leb_spec 1000000 (tv_usec t + tv_usec u)); cbn [tv_usec tv_sec];
    (split; [apply s32_range|lia]).
Qed.

(** In the last microsecond of the 32 bits no time is later, and it does not end. *)
Theorem realitexpire_last REALITEXPIRE fuel p rt : wf_tv (it_value rt) -> wf_tv (it_interval rt) -> 0 < usecs (it_interval rt) ->
  realitexpire REALITEXPIRE fuel (Timeval (2 ^ 31 - 1) 999999) p rt = Fault.
Proof.
  intros [_ Hv] Hi Hp. unfold realitexpire. rewrite timerisset_spec, (proj2 (Z.ltb_lt _ _)) by done. destruct Hi as [_ Hi]. clear Hp.
  revert rt Hi Hv. induction fuel as [|fuel IH]; intros rt Hi Hv; [done|]. cbn [realitexpire_loop].
  change (it_value (rt <| it_value := _ |>)) with (timevaladd (it_value rt) (it_interval rt)).
  destruct (timevaladd_range (it_value rt) (it_interval rt) Hv Hi) as [H1 H2].
  assert (Ec : timercmp (timevaladd (it_value rt) (it_interval rt)) (Timeval (2 ^ 31 - 1) 999999) Z.gtb = false).
  { unfold timercmp. cbn [tv_sec tv_usec]. rewrite !Z.gtb_ltb, (proj2 (Z.ltb_ge _ _)), (proj2 (Z.ltb_ge _ (tv_usec _))) by lia. apply andb_false_r. }
  rewrite Ec. by apply IH.
Qed.

(** What [setitimer] loads, [getitimer] gives back, for each of the three timers, when
    no time passes and the deadline is within 32 bits: the value and the interval, each raised to a tick when it was set
    to less. *)
Theorem setitimer_getitimer {M : Type} (UI : uops M itimerval) REALITEXPIRE (k : kern (M := M)) which itv a i v k' to :
  0 <= which <= 2 -> wf_tv (time k) -> usecs (time k) + usecs v < tv_end -> length (u_timer k) = 3%nat -> itv <> 0 ->
  copyin UI (umem k) itv = inl a -> itimerfix (it_interval a) = inl i -> itimerfix (it_value a) = inl v ->
  setitimer UI REALITEXPIRE k which itv 0 = Ok k' ->
  getitimer UI k' which to = Ok (let (m, e) := copyout UI (umem k) (Itimerval i v) to in k' <| umem := m |> <| u_error := e |>).
Proof.
  intros Hw Ht Hb Hlen Hitv Ha Hi Hv. unfold setitimer, getitimer. rewrite (proj2 (Z.ltb_ge 2 which)) by lia. cbn [obind nz Z.eqb negb].
  rewrite (proj2 (Z.eqb_neq itv 0)), Ha, Hi, Hv by done. apply itimerfix_spec in Hv as [[Hv _] _].
  destruct (Z.eqb_spec which ITIMER_REAL) as [Hr|Hr]; cbn -[hzto timeout untimeout timevaladd timevalsub timercmp timerisset].
  - destruct (timerisset v) eqn:Es.
    + intros E. apply obind_ok in E as (st & _ & [= <-]). cbn -[timevaladd timevalsub timercmp timerisset].
      destruct (timevaladd_spec v (time k) Hv Ht ltac:(lia)) as [Hw1 Hs1]. rewrite timerisset_spec in Es by done. apply Z.ltb_lt in Es.
      pose proof (usecs_nonneg _ Ht). rewrite timerisset_spec, (proj2 (Z.ltb_lt _ _)), timercmp_lt, (proj2 (Z.ltb_ge _ _)) by (done || lia).
      destruct (timevalsub_spec (timevaladd v (time k)) (time k)) as [Hw2 Hs2]; [done|done|lia|].
      assert (timevalsub (timevaladd v (time k)) (time k) = v) as -> by (apply usecs_inj; [done|done|lia]).
      by destruct (copyout UI (umem k) _ to).
    + intros [= <-]. cbn -[timerisset]. rewrite Es. by destruct (copyout UI (umem k) _ to).
  - intros E. apply obind_ok in E as (l & E & [= <-]). cbn [u_timer umem].
    change (u_timer (_ <| u_timer := l |>)) with l. change (umem (_ <| u_timer := l |>)) with (umem k).
    rewrite aset_ok in E by (cbn; lia). injection E as <-.
    rewrite (aget_ok _ which (Itimerval i v)); [|lia|apply list_lookup_insert_eq; cbn; lia].
    cbn [obind]. by destruct (copyout UI (umem k) _ to).
Qed.

(** User memory that can be read and written: one object, whatever the address. *)
Module KtSample.
Definition mem : uops itimerval itimerval := Uops _ _ (fun m _ => inl m) (fun _ v _ => (v, 0)).
Definition start : kern (M := itimerval) :=
  Kern (Timeval 500 0) timerclear (0, 0) 0 0 (Callouts [] 5) 0 0 7 (Itimerval timerclear timerclear)
    (replicate 3 (Itimerval timerclear timerclear)) (Itimerval (Timeval 2 0) (Timeval 0 3000)).
Definition other (f a : Z) : list request := [ReqTimeout 8 a 3; ReqUntimeout 9 a].

(** A value of 3 ms is raised to a tick. *)
Lemma setitimer_getitimer_witness :
  exists k', setitimer mem 1 start 0 4096 0 = Ok k'
  /\ getitimer mem k' 0 4096 = Ok (let (m, e) := copyout mem (umem start) (Itimerval (Timeval 2 0) (Timeval 0 10000)) 4096 in
                                   k' <| umem := m |> <| u_error := e |>).
Proof.
  destruct (setitimer mem 1 start 0 4096 0) as [k'| |] eqn:E; [|vm_compute in E; discriminate E|vm_compute in E; discriminate E].
  exists k'. split; [reflexivity|].
  apply (setitimer_getitimer mem 1 start 0 4096 (Itimerval (Timeval 2 0) (Timeval 0 3000)) (Timeval 2 0) (Timeval 0 10000) k' 4096);
    [lia|vm_compute; repeat split; discriminate|reflexivity|reflexivity|discriminate|reflexivity|reflexivity|reflexivity|exact E].
Defined.

(** Three and a half seconds late, at an interval of two: the fourth second. *)
Lemma realitexpire_correct_witness :
  if usecs (Timeval 2 0) =? 0 then True else
  exists v k, realitexpire 1 10 (Timeval 503 500000) 7 (Itimerval (Timeval 2 0) (Timeval 500 0))
      = Ok (Itimerval (Timeval 2 0) v, [ReqTimeout 1 7 (hzto (Timeval 503 500000) v)])
    /\ wf_tv v /\ 1 <= k /\ usecs v = 500000000 + k * 2000000 /\ 503500000 < usecs v
    /\ (k = 1 \/ usecs v - 2000000 <= 503500000)
    /\ (tv_sec v - 503 <= 2146482 -> usecs v - 503500000 - tick < hzto (Timeval 503 500000) v * tick < usecs v - 503500000 + 1000).
Proof.
  apply (realitexpire_correct 1 10 (Timeval 503 500000) 7 (Itimerval (Timeval 2 0) (Timeval 500 0)));
    vm_compute; repeat split; try discriminate; repeat constructor.
Defined.

(** Root sets the time back, before time itself. *)
Definition no_tz : uops itimerval (Z * Z) := Uops _ _ (fun _ _ => inr 14) (fun m _ _ => (m, 14)).
Definition mem_time : uops itimerval timeval := Uops _ _ (fun _ _ => inl (Timeval (-5) 0)) (fun m _ _ => (m, 0)).
Definition story : list timer_event :=
  [Set_ 7 0 4096 0; Clock_tick (Timeval 500 10000); Soft_clock; Set_time 4096 0; Clock_tick (Timeval (-5) 10000); Set_ 8 0 4096 4096; Soft_clock].

Lemma real_timers_armed_witness : exists s',
  timer_run mem mem_time no_tz 1 10 other (Timers start (fun _ => Itimerval timerclear timerclear) (fun _ => false)) story = Ok s'
  /\ t_on s' 7 = true
  /\ forall p, pending 1 p (calltodo (co (t_kern s'))) = (if t_on s' p then 1%nat else O)
    /\ (timerisset (it_value (t_rt s' p)) = true -> t_on s' p = true)
    /\ loadable (it_interval (t_rt s' p)).
Proof.
  destruct (timer_run mem mem_time no_tz 1 10 other (Timers start (fun _ => Itimerval timerclear timerclear) (fun _ => false)) story) as [s'| |] eqn:E;
    [|vm_compute in E; discriminate E|vm_compute in E; discriminate E].
  exists s'. split; [reflexivity|]. split; [vm_compute in E; by injection E as <-|].
  refine (real_timers_armed mem mem_time no_tz 1 10 other start story s' _ eq_refl E).
  intros f a. repeat constructor; discriminate.
Defined.

(** A deadline of zero: the time is five seconds before zero and the timer is set to
    five.  It has its callout but does not count as set. *)
Lemma deadline_zero :
  match setitimer (Uops _ _ (fun m _ => inl m) (fun _ v _ => (v, 0))) 1
          (start <| time := Timeval (-5) 0 |> <| umem := Itimerval timerclear (Timeval 5 0) |>) 0 4096 0 with
  | Ok k => timerisset (it_value (p_realtimer k)) = false /\ pending 1 7 (calltodo (co k)) = 1%nat
  | _ => False
  end.
Proof. vm_compute. repeat split. Qed.

(** Where the old timer cannot be stored, [setitimer] forgets the error. *)
Definition no_write : uops itimerval itimerval := Uops _ _ (fun m _ => inl m) (fun m _ _ => (m, 14)).
Lemma setitimer_forgets_error :
  match getitimer no_write start 0 4096, setitimer no_write 1 start 0 4096 8192 with
  | Ok k, Ok k' => u_error k = 14 /\ u_error k' = 0 /\ it_interval (p_realtimer k') = Timeval 2 0
  | _, _ => False
  end.
Proof. vm_compute. repeat split. Qed.
End KtSample.
