(* ===== verification/Sched.v ===== *)
(** * Sleep, wakeup and the run queues: [sys/sys/kern_synch.c], [sys/vax/locore.s]

    A process is named by the address of its [proc].  The sleep queues are the chains
    of [p_link] from [slpque], with the pointers to their last links; the run queues are
    kept as lists, what [setrq] leaves in [p_link] being of no use to a chain.  What a
    process will do when it runs again, which the kernel has on its stack, is [p_kont].
    Processor levels, [aston] and the counts of switches are left out; [filter] of the
    load average, a floating point number below 1, times [a], is a parameter. *)
From S2P Require Import Prelude.

(** ** Priorities *)

Definition PUSER : Z := 50.
Definition PZERO : Z := 25.
Definition PPQ : Z := 4.

Record prio := Prio { p_cpu : Z; p_nice : Z; p_pri : Z; p_usrpri : Z; p_rssize : Z; p_maxrss : Z }.
#[export] Instance settable_prio : Settable prio := fun r =>
  Prio (p_cpu r) (p_nice r) (p_pri r) (p_usrpri r) (p_rssize r) (p_maxrss r).

Record sched := Sched { curpri : Z; runrun : Z; freemem : Z; desfree : Z }.
#[export] Instance settable_sched : Settable sched := fun s => Sched (curpri s) (runrun s) (freemem s) (desfree s).

Definition setpri (pp : prio) (k : sched) : prio * sched :=
  let p := Z.land (p_cpu pp) 255 / 4 in
  let p := p + (PUSER + 2 * p_nice pp) in
  let p := if (p_maxrss pp <? p_rssize pp) && (freemem k <? desfree k) then p + 2 * 4 else p in
  let p := if 127 <? p then 127 else p in
  let k := if p <? curpri k then k <| runrun := runrun k + 1 |> else k in
  (pp <| p_usrpri := s8 p |>, k).

(** ** Processes and queues *)

Inductive pstat := SNONE | SSLEEP | SWAIT | SRUN | SIDL | SZOMB | SSTOP.
#[export] Instance pstat_eq_dec : EqDecision pstat.
Proof. solve_decision. Defined.

(** Where in the kernel a process that does not run is: stopped in the [issig] that
    [sleep] calls before it gives up the processor, or after; asleep, signals allowed or
    not; not in [sleep] at all. *)
Inductive kont := KOther | KIssig | KSwtch (catch : bool) | KIssig2.

Record proc := Proc {
  p_link : Z; p_rlink : bool; p_prio : prio; p_stat : pstat; p_slptime : Z; p_load : bool; p_wchan : Z; p_kont : kont
}.
#[export] Instance settable_proc : Settable proc := fun r =>
  Proc (p_link r) (p_rlink r) (p_prio r) (p_stat r) (p_slptime r) (p_load r) (p_wchan r) (p_kont r).

(** Addresses of [sq_head] of a queue and of [p_link] of a process. *)
Inductive ptr := PHead (i : Z) | PLink (p : Z).
#[export] Instance ptr_eq_dec : EqDecision ptr.
Proof. solve_decision. Defined.
Record slpq := Slpq { sq_head : Z; sq_tailp : ptr }.
#[export] Instance settable_slpq : Settable slpq := fun q => Slpq (sq_head q) (sq_tailp q).

Record machine := Machine {
  procs : gmap Z proc; slpque : Z -> slpq; qs : Z -> list Z; whichqs : Z;
  u_procp : Z; noproc : bool; m_sched : sched; runout : bool; wantin : Z
}.
#[export] Instance settable_machine : Settable machine := fun m =>
  Machine (procs m) (slpque m) (qs m) (whichqs m) (u_procp m) (noproc m) (m_sched m) (runout m) (wantin m).

Definition fupd {A} (f : Z -> A) (i : Z) (x : A) : Z -> A := fun j => if j =? i then x else f j.

Definition SQSIZE : Z := 64.
Definition HASH (x : Z) : Z := Z.land (Z.shiftr x 5) (SQSIZE - 1).

Definition getp (m : machine) (p : Z) : outcome proc := deref (procs m !! p).
Definition setp (m : machine) (p : Z) (r : proc) : machine := m <| procs := <[p := r]> (procs m) |>.

Definition load (m : machine) (q : ptr) : outcome Z :=
  match q with PHead i => Ok (sq_head (slpque m i)) | PLink p => let* r := getp m p in Ok (p_link r) end.
Definition store (m : machine) (q : ptr) (v : Z) : outcome machine :=
  match q with
  | PHead i => Ok (m <| slpque := fupd (slpque m) i ((slpque m i) <| sq_head := v |>) |>)
  | PLink p => let* r := getp m p in Ok (setp m p (r <| p_link := v |>))
  end.
Definition set_tailp (m : machine) (i : Z) (q : ptr) : machine :=
  m <| slpque := fupd (slpque m) i ((slpque m i) <| sq_tailp := q |>) |>.

(** ** The run queues, in [locore.s] *)

Definition pri_queue (r : proc) : Z := u8 (p_pri (p_prio r)) / 4.

Definition setrq (m : machine) (p : Z) : outcome machine :=
  let* r := getp m p in
  if p_rlink r then Panic "setrq"
  else
    let i := pri_queue r in
    let m := setp m p (r <| p_rlink := true |> <| p_link := -1 |>) in
    Ok (m <| qs := fupd (qs m) i (qs m i ++ [p]) |> <| whichqs := Z.setbit (whichqs m) i |>).

Definition remrq (m : machine) (p : Z) : outcome machine :=
  let* r := getp m p in
  let i := pri_queue r in
  if Z.testbit (whichqs m) i then
    let l := base.filter (fun x => x <> p) (qs m i) in
    let m := m <| qs := fupd (qs m) i l |> <| whichqs := if bool_decide (l = []) then Z.clearbit (whichqs m) i else whichqs m |> in
    Ok (setp m p (r <| p_rlink := false |>))
  else Panic "remrq".

(** The first set bit from [i] on, of [n]. *)
Fixpoint ffs (n : nat) (i : Z) (x : Z) : option Z :=
  match n with O => None | S n => if Z.testbit x i then Some i else ffs n (i + 1) x end.

(** [swtch]: the next process, or none, and then [noproc] stays set. *)
Definition swtch (m : machine) : outcome machine :=
  let m := m <| noproc := true |> in
  match ffs 32 0 (whichqs m) with
  | None => Ok m
  | Some i =>
      match qs m i with
      | [] => Panic "swtch"
      | p :: l =>
          let m := m <| qs := fupd (qs m) i l |> <| whichqs := if bool_decide (l = []) then Z.clearbit (whichqs m) i else whichqs m |> in
          let m := m <| noproc := false |> <| m_sched := (m_sched m) <| runrun := 0 |> |> in
          let* r := getp m p in
          if nz (p_wchan r) || bool_decide (p_stat r <> SRUN) then Panic "swtch"
          else Ok ((setp m p (r <| p_rlink := false |>)) <| u_procp := p |>)
      end
  end.

Section Synch.
(** [(int)(filter(avenrun[0]) * a)], and the address of [runout]. *)
Context (decay : Z -> Z) (RUNOUT : Z).

Fixpoint updatepri_loop (fuel : nat) (a slptime : Z) : Z * Z :=
  match fuel with
  | O => (a, slptime)
  | S fuel => if a =? 0 then (a, slptime)
              else let slptime := slptime - 1 in
                   if slptime =? 0 then (a, slptime) else updatepri_loop fuel (decay a) slptime
  end.
Definition updatepri (r : proc) (k : sched) : proc * sched :=
  let a := Z.land (p_cpu (p_prio r)) 255 in
  let '(a, t) := updatepri_loop (Z.to_nat (p_slptime r)) a (p_slptime r - 1) in
  let a := if a <? 0 then 0 else a in
  let a := if 255 <? a then 255 else a in
  let (pp, k) := setpri ((p_prio r) <| p_cpu := s8 a |>) k in
  (r <| p_slptime := t |> <| p_prio := pp |>, k).

(** The part of [setrun] and [wakeup] that is the same: from the test of [p_slptime]. *)
Definition wake_priority (m : machine) (p : Z) : outcome machine :=
  let* r := getp m p in
  if 1 <? p_slptime r then let (r, k) := updatepri r (m_sched m) in Ok ((setp m p r) <| m_sched := k |>) else Ok m.

(** [hp] in [unsleep]. *)
Fixpoint unsleep_find (fuel : nat) (m : machine) (p : Z) (hp : ptr) : outcome ptr :=
  match fuel with
  | O => Fault
  | S fuel => let* x := load m hp in if x =? p then Ok hp else unsleep_find fuel m p (PLink x)
  end.
(** Take [p], to which [hp] points, off queue [i]. *)
Definition unlink (m : machine) (i : Z) (hp : ptr) (p : Z) : outcome machine :=
  let* r := getp m p in
  let* m := store m hp (p_link r) in
  Ok (if bool_decide (sq_tailp (slpque m i) = PLink p) then set_tailp m i hp else m).

Definition unsleep (m : machine) (p : Z) : outcome machine :=
  let* r := getp m p in
  if nz (p_wchan r) then
    let i := HASH (p_wchan r) in
    let* hp := unsleep_find (S (size (procs m))) m p (PHead i) in
    let* m := unlink m i hp p in
    let* r := getp m p in Ok (setp m p (r <| p_wchan := 0 |>))
  else Ok m.

(** [wakeup] from [q] on; a call inside it, and what follows [restart], are calls. *)
Fixpoint wakeup_from (fuel : nat) (m : machine) (chan : Z) (q : ptr) : outcome machine :=
  match fuel with
  | O => Fault
  | S fuel =>
      let* p := load m q in
      if p =? 0 then Ok m
      else
        let* r := getp m p in
        if p_rlink r || bool_decide (p_stat r <> SSLEEP /\ p_stat r <> SSTOP) then Panic "wakeup"
        else if p_wchan r =? chan then
          let m := setp m p (r <| p_wchan := 0 |>) in
          let* m := unlink m (HASH chan) q p in
          if bool_decide (p_stat r = SSLEEP) then
            let* m := wake_priority m p in
            let* r := getp m p in
            let m := setp m p (r <| p_slptime := 0 |> <| p_stat := SRUN |>) in
            let* m := if p_load r then setrq m p else Ok m in
            let m := m <| m_sched := (m_sched m) <| runrun := runrun (m_sched m) + 1 |> |> in
            let* m :=
              if p_load r then Ok m
              else
                let* m := if runout m then wakeup_from fuel (m <| runout := false |>) RUNOUT (PHead (HASH RUNOUT)) else Ok m in
                Ok (m <| wantin := wantin m + 1 |>) in
            wakeup_from fuel m chan (PHead (HASH chan))
          else
            let* r := getp m p in
            wakeup_from fuel (setp m p (r <| p_slptime := 0 |>)) chan q
        else wakeup_from fuel m chan (PLink p)
  end.
Definition wakeup_fuel (m : machine) : nat := let n := size (procs m) in S (n * (n + 2) + n).
Definition wakeup (m : machine) (chan : Z) : outcome machine := wakeup_from (wakeup_fuel m) m chan (PHead (HASH chan)).

Definition setrun (m : machine) (p : Z) : outcome machine :=
  let* r := getp m p in
  let* m := match p_stat r with
            | SSTOP | SSLEEP => unsleep m p
            | SIDL => Ok m
            | SNONE | SWAIT | SRUN | SZOMB => Panic "setrun"
            end in
  let* m := wake_priority m p in
  let* r := getp m p in
  let m := setp m p (r <| p_stat := SRUN |>) in
  let* m := if p_load r then setrq m p else Ok m in
  let m := if p_pri (p_prio r) <? curpri (m_sched m) then m <| m_sched := (m_sched m) <| runrun := runrun (m_sched m) + 1 |> |> else m in
  if p_load r then Ok m
  else
    let* m := if runout m then wakeup (m <| runout := false |>) RUNOUT else Ok m in
    Ok (m <| wantin := wantin m + 1 |>).

(** ** [sleep] *)

(** [schedcpu], for one process; [p_pctcpu] and [p_time], which only [ps] and the swapper
    read, are left out. *)
Definition schedcpu_proc (m : machine) (p : Z) : outcome machine :=
  let* r := getp m p in
  let sl := bool_decide (p_stat r = SSLEEP) || bool_decide (p_stat r = SSTOP) in
  let r := if sl && negb (p_slptime r =? 127) then r <| p_slptime := p_slptime r + 1 |> else r in
  let m := setp m p r in
  if 1 <? p_slptime r then Ok m
  else
    let a := decay (Z.land (p_cpu (p_prio r)) 255) + p_nice (p_prio r) in
    let a := if a <? 0 then 0 else a in
    let a := if 255 <? a then 255 else a in
    let (pp, k) := setpri ((p_prio r) <| p_cpu := s8 a |>) (m_sched m) in
    let r := r <| p_prio := pp |> in
    let m := (setp m p r) <| m_sched := k |> in
    if PUSER <=? p_pri pp then
      if (negb (p =? u_procp m) || noproc m) && bool_decide (p_stat r = SRUN) && p_load r && negb (p_pri pp / PPQ =? p_usrpri pp / PPQ) then
        let* m := remrq m p in
        let* r := getp m p in
        setrq (setp m p (r <| p_prio := (p_prio r) <| p_pri := p_usrpri (p_prio r) |> |>)) p
      else Ok (setp m p (r <| p_prio := pp <| p_pri := p_usrpri pp |> |>))
    else Ok m.
Fixpoint schedcpu_loop (m : machine) (allproc : list Z) : outcome machine :=
  match allproc with
  | [] => Ok m
  | p :: l => let* m := schedcpu_proc m p in schedcpu_loop m l
  end.
(** The channels [lbolt], [runin] and [proc[2]], and whether the last two are to be woken. *)
Definition schedcpu (m : machine) (allproc : list Z) (lbolt runin pager : Z) (wake_runin wake_pager : bool) : outcome machine :=
  let* m := wakeup m lbolt in
  let* m := schedcpu_loop m allproc in
  let* m := if wake_runin then wakeup m runin else Ok m in
  if wake_pager then wakeup m pager else Ok m.

(** [psignal], where it makes a process run. *)
Definition psignal_run (m : machine) (p : Z) : outcome machine :=
  let* r := getp m p in
  setrun (if PUSER <? p_pri (p_prio r) then setp m p (r <| p_prio := (p_prio r) <| p_pri := PUSER |> |>) else m) p.

(** What [ISSIG] comes to: no signal; one to take; the process stops first, and its
    parent gets a signal, which makes it run or not. *)
Inductive issig := SigNone | SigTake | SigStop (pptr : Z) (runs : bool).

(** [p] goes to the end of queue [i]. *)
Definition enqueue (m : machine) (i p : Z) : outcome machine :=
  let* m := if sq_head (slpque m i) =? 0 then store m (PHead i) p else store m (sq_tailp (slpque m i)) p in
  let m := set_tailp m i (PLink p) in
  let* r := getp m p in
  Ok (setp m p (r <| p_link := 0 |>)).

(** To the first test of [pri]. *)
Definition sleep_enqueue (m : machine) (chan pri : Z) : outcome machine :=
  let rp := u_procp m in
  let* r := getp m rp in
  if (chan =? 0) || bool_decide (p_stat r <> SRUN) || p_rlink r then Panic "sleep"
  else
    let m := setp m rp (r <| p_wchan := chan |> <| p_slptime := 0 |> <| p_prio := (p_prio r) <| p_pri := s8 pri |> |>) in
    enqueue m (HASH chan) rp.

(** Give up the processor, the rest of [sleep] being [k]. *)
Definition sleep_swtch (m : machine) (st : pstat) (k : kont) : outcome machine :=
  let rp := u_procp m in
  let* r := getp m rp in
  swtch (setp m rp (r <| p_stat := st |> <| p_kont := k |>)).

Definition stop (m : machine) (p pptr : Z) : outcome machine :=
  let* r := getp m p in wakeup (setp m p (r <| p_stat := SSTOP |>)) pptr.

(** [issig], when the running process stops; [k] is where it will go on. *)
Definition issig_stop (m : machine) (pptr : Z) (runs : bool) (k : kont) : outcome machine :=
  let rp := u_procp m in
  let* m := if runs then psignal_run m pptr else Ok m in
  let* r := getp m rp in
  let* m := stop (setp m rp (r <| p_kont := k |>)) rp pptr in
  swtch m.

(** The end of [sleep], and the way out by a signal: the process goes on. *)
Definition sleep_out (m : machine) (set_curpri : bool) : outcome machine :=
  let rp := u_procp m in
  let* r := getp m rp in
  let m := setp m rp (r <| p_kont := KOther |>) in
  Ok (if set_curpri then m <| m_sched := (m_sched m) <| curpri := p_usrpri (p_prio r) |> |> else m).

(** From the first [ISSIG]. *)
Definition sleep_issig (m : machine) (sig : issig) : outcome machine :=
  let rp := u_procp m in
  match sig with
  | SigStop pptr runs => issig_stop m pptr runs KIssig
  | SigTake =>
      let* r := getp m rp in
      let* m := if nz (p_wchan r) then unsleep m rp else Ok m in
      let* r := getp m rp in
      sleep_out (setp m rp (r <| p_stat := SRUN |>)) false
  | SigNone =>
      let* r := getp m rp in
      if p_wchan r =? 0 then sleep_out m false else sleep_swtch m SSLEEP (KSwtch true)
  end.
Definition sleep (m : machine) (chan pri : Z) (sig : issig) : outcome machine :=
  let* m := sleep_enqueue m chan pri in
  if PZERO <? pri then sleep_issig m sig else sleep_swtch m SSLEEP (KSwtch false).

(** From the second [ISSIG], after [swtch]. *)
Definition sleep_woken (m : machine) (sig : issig) : outcome machine :=
  match sig with
  | SigStop pptr runs => issig_stop m pptr runs KIssig2
  | SigTake => sleep_out m false
  | SigNone => sleep_out m true
  end.

(** The running process goes on where it was. *)
Definition resume (m : machine) (sig : issig) : outcome machine :=
  let* r := getp m (u_procp m) in
  match p_kont r with
  | KOther => Ok m
  | KIssig => sleep_issig m sig
  | KSwtch true | KIssig2 => sleep_woken m sig
  | KSwtch false => sleep_out m true
  end.

(** ** What else moves processes *)

(** The end of [trap], with [runrun] set; the end of [exit]. *)
Definition preempt (m : machine) : outcome machine :=
  let rp := u_procp m in
  let* r := getp m rp in
  let* m := setrq (setp m rp (r <| p_prio := (p_prio r) <| p_pri := p_usrpri (p_prio r) |> |>)) rp in
  swtch m.
Definition exit_swtch (m : machine) (pptr : Z) (runs : bool) : outcome machine :=
  let rp := u_procp m in
  let* r := getp m rp in
  let m := (setp m rp (r <| p_stat := SZOMB |>)) <| noproc := true |> in
  let* m := if runs then psignal_run m pptr else Ok m in
  let* m := wakeup m pptr in
  swtch m.

(** [psignal] to a stopped process that waits for something: it goes on waiting. *)
Definition psignal_cont (m : machine) (p : Z) : outcome machine :=
  let* r := getp m p in Ok (setp m p (r <| p_stat := SSLEEP |>)).
End Synch.
