(* ===== verification/SchedQ.v ===== *)
(** * The sleep queues as lists

    What [sleep], [unsleep] and [wakeup] do to the chains of Sched.v: [sleepq] says that
    they hold the lists [Q], and each operation is one on [Q].  What else a process has
    does not change; [same] says so. *)
From S2P Require Import Prelude Sched.

Definition nlink (ps : gmap Z proc) (p : Z) : option Z := p_link <$> ps !! p.

Fixpoint lseg (ps : gmap Z proc) (x : Z) (l : list Z) : Prop :=
  match l with
  | [] => x = 0
  | p :: l => x = p /\ p <> 0 /\ exists y, nlink ps p = Some y /\ lseg ps y l
  end.

Record sleepq (m : machine) (Q : Z -> list Z) : Prop := {
  sq_chain : forall i, lseg (procs m) (sq_head (slpque m i)) (Q i);
  sq_tail : forall i l p, Q i = l ++ [p] -> sq_tailp (slpque m i) = PLink p;
  sq_nodup : forall i, NoDup (Q i);
  sq_disj : forall i j p, p ∈ Q i -> p ∈ Q j -> i = j
}.

(** All of a process but its link. *)
Definition core (r : proc) : proc := r <| p_link := 0 |>.
Record same (m m' : machine) : Prop := {
  same_procs : core <$> procs m' = core <$> procs m;
  same_rest : (qs m', whichqs m', u_procp m', noproc m', m_sched m', runout m', wantin m')
            = (qs m, whichqs m, u_procp m, noproc m, m_sched m, runout m, wantin m)
}.

#[export] Instance same_pre : PreOrder same.
Proof. split; [by intros m; split|]. intros m1 m2 m3 [H1 H2] [H3 H4]. split; congruence. Qed.

Lemma lseg_ext ps ps' l : (forall p, p ∈ l -> nlink ps' p = nlink ps p) -> forall x, lseg ps x l -> lseg ps' x l.
Proof.
  induction l as [|p l IH]; intros H x; [done|]. intros (-> & Hp & y & Hy & Hl). split; [done|]. split; [done|].
  exists y. split; [by rewrite H by left|]. apply IH; [|done]. intros q Hq. apply H. by right.
Qed.

Lemma sleepq_ext m m' Q : (forall i p, p ∈ Q i -> nlink (procs m') p = nlink (procs m) p) -> slpque m' = slpque m ->
  sleepq m Q -> sleepq m' Q.
Proof.
  intros H Hs [H1 H2 H3 H4]. split; [|by rewrite Hs|done|done]. intros i. rewrite Hs. by eapply lseg_ext; [apply H|].
Qed.

Lemma nlink_setp m p r q : nlink (procs (setp m p r)) q = if decide (p = q) then Some (p_link r) else nlink (procs m) q.
Proof. unfold nlink, setp. cbn. destruct (decide (p = q)) as [->|]; [by rewrite lookup_insert_eq|by rewrite lookup_insert_ne]. Qed.

(** A change of a process that leaves its link. *)
Lemma sleepq_setp m p r r' Q : procs m !! p = Some r -> p_link r' = p_link r -> sleepq m Q -> sleepq (setp m p r') Q.
Proof.
  intros Hr Hl. apply sleepq_ext; [|done]. intros i q _. rewrite nlink_setp. destruct (decide (p = q)) as [<-|]; [|done].
  unfold nlink. by rewrite Hr, Hl.
Qed.
(** A change of a process that is on no chain. *)
Lemma sleepq_setp_off m p r' Q : (forall i, p ∉ Q i) -> sleepq m Q -> sleepq (setp m p r') Q.
Proof. intros Hp. apply sleepq_ext; [|done]. intros i q Hq. rewrite nlink_setp. destruct (decide (p = q)) as [<-|]; [|done]. by destruct (Hp i). Qed.

Lemma same_setp_link m p r v : procs m !! p = Some r -> same m (setp m p (r <| p_link := v |>)).
Proof. intros Hr. split; [|done]. cbn. rewrite fmap_insert. apply insert_id. by rewrite lookup_fmap, Hr. Qed.

Lemma same_lookup m m' p r : same m m' -> procs m !! p = Some r -> exists r', procs m' !! p = Some r' /\ core r' = core r.
Proof.
  intros [H _] Hr. apply (f_equal (fun ps => ps !! p)) in H. rewrite !lookup_fmap, Hr in H.
  destruct (procs m' !! p) as [r'|]; [|done]. exists r'. split; [done|]. by apply (inj Some) in H.
Qed.
Lemma same_core m m' p : same m m' -> core <$> (procs m' !! p) = core <$> (procs m !! p).
Proof. intros [H _]. by rewrite <- !lookup_fmap, H. Qed.

(** The pointer to the link after [l], in queue [i]. *)
Definition ptr_of (i : Z) (l : list Z) : ptr := match last l with Some p => PLink p | None => PHead i end.
Lemma ptr_of_snoc i l p : ptr_of i (l ++ [p]) = PLink p.
Proof. unfold ptr_of. by rewrite last_snoc. Qed.

Lemma lseg_app ps l1 l2 x : lseg ps x (l1 ++ l2) <-> exists y, lseg ps x (l1 ++ l2) /\ lseg ps y l2
  /\ match last l1 with Some p => nlink ps p = Some y | None => x = y end.
Proof.
  split; [|by intros (y & H & _)]. revert x. induction l1 as [|p l1 IH]; intros x H; [by exists x|].
  cbn [app lseg] in H. destruct H as (-> & Hp & y & Hy & Hl). destruct (IH y Hl) as (z & H1 & H2 & H3).
  exists z. split; [cbn [app lseg]; by eauto|]. split; [done|]. destruct l1 as [|q l1]; [cbn in *; congruence|]. change (last (p :: q :: l1)) with (last (q :: l1)). destruct (last (q :: l1)) eqn:E; [exact H3|by apply last_None in E].
Qed.

Lemma load_ok m Q i l1 l2 : sleepq m Q -> Q i = l1 ++ l2 -> load m (ptr_of i l1) = Ok (hd 0 l2).
Proof.
  intros Hs HQ. pose proof (sq_chain _ _ Hs i) as Hc. rewrite HQ in Hc. apply lseg_app in Hc as (y & _ & H2 & H3).
  assert (Hy : y = hd 0 l2) by (destruct l2; [done|by destruct H2]). unfold ptr_of. destruct (last l1) as [p|]; cbn [load].
  - unfold nlink in H3. unfold getp. destruct (procs m !! p) as [r|]; [|done]. cbn. injection H3 as <-. by f_equal.
  - by rewrite H3, Hy.
Qed.

(** ** Taking a process off *)

Lemma store_head m i v : store m (PHead i) v = Ok (m <| slpque := fupd (slpque m) i ((slpque m i) <| sq_head := v |>) |>).
Proof. done. Qed.
Lemma store_link m p r v : procs m !! p = Some r -> store m (PLink p) v = Ok (setp m p (r <| p_link := v |>)).
Proof. intros Hr. cbn [store]. unfold getp. by rewrite Hr. Qed.

Lemma sleepq_mem m Q i p : sleepq m Q -> p ∈ Q i -> p <> 0 /\ exists r, procs m !! p = Some r.
Proof.
  intros Hs. pose proof (sq_chain _ _ Hs i) as Hc. revert Hc. generalize (sq_head (slpque m i)). induction (Q i) as [|q l IH]; intros x.
  - intros _ H. by apply elem_of_nil in H.
  - intros (-> & Hq & y & Hy & Hl) [->|H]%elem_of_cons; [|by eapply IH]. split; [done|]. unfold nlink in Hy. destruct (procs m !! q); [by eexists|done].
Qed.

(** Changing the last link of the first part splices the lists. *)
Lemma lseg_splice ps ps' x l1 l2 v : lseg ps x (l1 ++ l2) -> NoDup (l1 ++ l2) ->
  forall l3, (forall p, p ∈ l3 -> nlink ps' p = nlink ps p) -> lseg ps v l3 ->
  (forall p, p ∈ l1 -> last l1 <> Some p -> nlink ps' p = nlink ps p) ->
  match last l1 with Some p => nlink ps' p = Some v | None => True end ->
  lseg ps' (match l1 with [] => v | _ => x end) (l1 ++ l3).
Proof.
  revert x. induction l1 as [|p l1 IH]; intros x H Hnd l3 H3 Hl3 H1 Hlast; [by eapply lseg_ext|].
  destruct H as (-> & Hp & y & Hy & Hl). change ((p :: l1) ++ l2) with (p :: (l1 ++ l2)) in Hnd. apply NoDup_cons in Hnd as [Hnin Hnd]. cbn [app lseg]. split; [done|]. split; [done|].
  destruct l1 as [|q l1].
  - exists v. split; [exact Hlast|]. by eapply lseg_ext.
  - exists y. split.
    + rewrite H1; [done|by left|]. intros E. apply Hnin. apply elem_of_app. left.
      change (last (p :: q :: l1)) with (last (q :: l1)) in E. by apply last_Some_elem_of.
    + apply (IH y Hl Hnd l3 H3 Hl3); [|exact Hlast]. intros p' Hp' E. apply H1; [by right|exact E].
Qed.

Lemma unlink_ok m Q i l1 p l2 : sleepq m Q -> Q i = l1 ++ p :: l2 ->
  exists m', unlink m i (ptr_of i l1) p = Ok m' /\ sleepq m' (fupd Q i (l1 ++ l2)) /\ same m m'.
Proof.
  intros Hs HQ. destruct (sleepq_mem m Q i p Hs) as [Hp [r Hr]]; [rewrite HQ; apply elem_of_app; right; by left|].
  pose proof (sq_nodup _ _ Hs i) as Hnd. rewrite HQ in Hnd.
  assert (Hl2 : lseg (procs m) (p_link r) l2).
  { pose proof (sq_chain _ _ Hs i) as Hc. rewrite HQ in Hc. apply lseg_app in Hc as (y & _ & (-> & _ & z & Hz & Hl) & _).
    unfold nlink in Hz. rewrite Hr in Hz. by injection Hz as <-. }
  assert (Hst : exists m1, store m (ptr_of i l1) (p_link r) = Ok m1 /\ same m m1
    /\ (forall j, sq_tailp (slpque m1 j) = sq_tailp (slpque m j)) /\ (forall j, lseg (procs m1) (sq_head (slpque m1 j)) (fupd Q i (l1 ++ l2) j))).
  { destruct (exists_last_or_nil l1) as [->|(l0 & q & ->)].
    - change (ptr_of i []) with (PHead i). rewrite store_head. eexists. split; [done|]. split; [by split|]. split; intros j; cbn; unfold fupd; destruct (Z.eqb_spec j i) as [->|]; try done.
      apply (sq_chain _ _ Hs).
    - rewrite ptr_of_snoc. destruct (sleepq_mem m Q i q Hs) as [Hq [rq Hrq]]; [rewrite HQ, <- app_assoc; apply elem_of_app; right; by left|].
      rewrite (store_link m q rq) by done. eexists. split; [done|]. split; [by apply same_setp_link|]. split; [done|]. intros j.
      change (slpque (setp m q (rq <| p_link := p_link r |>))) with (slpque m). unfold fupd. destruct (Z.eqb_spec j i) as [->|Hj].
      + pose proof (sq_chain _ _ Hs i) as Hc. rewrite HQ in Hc.
        pose proof (lseg_splice (procs m) (procs (setp m q (rq <| p_link := p_link r |>))) _ _ _ (p_link r) Hc Hnd l2) as H.
        replace (sq_head (slpque m i)) with (match l0 ++ [q] with [] => p_link r | _ => sq_head (slpque m i) end) by (by destruct l0).
        apply H; [|done| |].
        * intros p' Hp'. rewrite nlink_setp. destruct (decide (q = p')) as [<-|]; [|done]. exfalso.
          rewrite <- app_assoc in Hnd. apply NoDup_app in Hnd as (_ & _ & Hnd). apply NoDup_cons in Hnd as [Hnd _]. apply Hnd. by right.
        * intros p' _. rewrite last_snoc. intros Hne. rewrite nlink_setp. by destruct (decide (q = p')) as [<-|].
        * rewrite last_snoc. rewrite nlink_setp. by destruct (decide (q = q)).
      + eapply lseg_ext; [|apply (sq_chain _ _ Hs)]. intros p' Hp'. rewrite nlink_setp. destruct (decide (q = p')) as [<-|]; [|done]. exfalso.
        apply Hj. eapply (sq_disj _ _ Hs); [exact Hp'|]. rewrite HQ, <- app_assoc. apply elem_of_app. right. by left. }
  destruct Hst as (m1 & E1 & Hsame & Ht & Hc). unfold unlink, getp. rewrite Hr. cbn [deref obind]. rewrite E1. cbn [obind].
  eexists. split; [done|]. rewrite Ht.
  assert (Hnd' : NoDup (l1 ++ l2)) by (apply NoDup_app in Hnd as (N1 & N2 & N3); apply NoDup_cons in N3 as [_ N3]; apply NoDup_app; split_and!; [done|intros z Hz Hz2; apply (N2 z Hz); by right|done]).
  assert (Hsub : forall j p', p' ∈ fupd Q i (l1 ++ l2) j -> p' ∈ Q j).
  { intros j p'. unfold fupd. destruct (Z.eqb_spec j i) as [->|]; [|done]. rewrite HQ. rewrite !elem_of_app, elem_of_cons. tauto. }
  assert (Hq' : forall m2, procs m2 = procs m1 -> (forall j, sq_head (slpque m2 j) = sq_head (slpque m1 j)) ->
     (forall l p', l1 ++ l2 = l ++ [p'] -> sq_tailp (slpque m2 i) = PLink p') -> (forall j, j <> i -> sq_tailp (slpque m2 j) = sq_tailp (slpque m j)) ->
     sleepq m2 (fupd Q i (l1 ++ l2))).
  { intros m2 P1 P2 P3 P4. split.
    - intros j. rewrite P1, P2. apply Hc.
    - intros j l p'. unfold fupd. destruct (Z.eqb_spec j i) as [->|]; [by apply P3|]. rewrite P4 by done. apply (sq_tail _ _ Hs).
    - intros j. unfold fupd. destruct (Z.eqb_spec j i); [done|apply (sq_nodup _ _ Hs)].
    - intros j k p' H1 H2. by eapply (sq_disj _ _ Hs); apply Hsub. }
  destruct (exists_last_or_nil l2) as [->|(l0 & q & ->)].
  - rewrite (bool_decide_eq_true_2 _ (sq_tail _ _ Hs i l1 p HQ)). split.
    + apply Hq'; [done| | |].
      * intros j. cbn. unfold fupd. by destruct (Z.eqb_spec j i) as [->|].
      * intros l p' E. cbn. unfold fupd. rewrite Z.eqb_refl. cbn. rewrite app_nil_r in E. rewrite E. apply ptr_of_snoc.
      * intros j Hj. cbn. unfold fupd. rewrite (proj2 (Z.eqb_neq j i)) by done. apply Ht.
    + etransitivity; [exact Hsame|by split].
  - rewrite bool_decide_eq_false_2.
    + split; [|done]. apply Hq'; [done|done| |done]. intros l p' E. rewrite Ht. rewrite app_assoc in E. apply app_inj_tail in E as [_ <-].
      apply (sq_tail _ _ Hs i (l1 ++ p :: l0)). by rewrite HQ, <- app_assoc.
    + rewrite (sq_tail _ _ Hs i (l1 ++ p :: l0) q) by (by rewrite HQ, <- app_assoc). intros [= ->]. 
      apply NoDup_app in Hnd as (_ & _ & Hnd). apply NoDup_cons in Hnd as [Hnd _]. apply Hnd, elem_of_app. right. by left.
Qed.

Lemma unsleep_find_ok m Q i p l0 : sleepq m Q -> forall l1 l2 fuel, Q i = l0 ++ l1 ++ p :: l2 -> (length l1 < fuel)%nat ->
  unsleep_find fuel m p (ptr_of i l0) = Ok (ptr_of i (l0 ++ l1)).
Proof.
  intros Hs l1. revert l0. induction l1 as [|q l1 IH]; intros l0 l2 fuel HQ Hf; (destruct fuel as [|fuel]; [cbn in Hf; lia|]); cbn [unsleep_find];
    rewrite (load_ok m Q i l0 _ Hs HQ); cbn [app hd obind].
  - by rewrite Z.eqb_refl, app_nil_r.
  - pose proof (sq_nodup _ _ Hs i) as Hnd. rewrite HQ in Hnd. apply NoDup_app in Hnd as (_ & _ & Hnd).
    change ((q :: l1) ++ p :: l2) with (q :: (l1 ++ p :: l2)) in *. apply NoDup_cons in Hnd as [Hnd _].
    rewrite (proj2 (Z.eqb_neq q p)) by (intros ->; apply Hnd, elem_of_app; right; by left).
    rewrite <- (ptr_of_snoc i l0 q). rewrite (IH (l0 ++ [q]) l2 fuel); [|by rewrite HQ, <- app_assoc|cbn in Hf; lia].
    by rewrite <- app_assoc.
Qed.

(** ** Putting a process on *)

Lemma lseg_snoc ps ps' x l p v : lseg ps x l -> NoDup (l ++ [p]) -> p <> 0 -> nlink ps' p = Some 0 ->
  (forall q, q ∈ l -> last l <> Some q -> nlink ps' q = nlink ps q) ->
  match last l with Some q => nlink ps' q = Some p /\ v = x | None => v = p end -> lseg ps' v (l ++ [p]).
Proof.
  intros Hl Hnd Hp Hlp Hsame Hlast.
  revert x v Hl Hlast Hnd Hsame. induction l as [|q l IH]; intros x v Hl Hlast Hnd Hsame.
  - cbn in *. subst v. split; [done|]. split; [done|]. by exists 0.
  - destruct Hl as (-> & Hq & y & Hy & Hl). change ((q :: l) ++ [p]) with (q :: (l ++ [p])) in *. apply NoDup_cons in Hnd as [Hnin Hnd].
    destruct l as [|q' l].
    + cbn in Hlast. destruct Hlast as [Hlast ->]. cbn. split; [done|]. split; [done|]. exists p. split; [done|]. split; [done|]. split; [done|]. by exists 0.
    + change (last (q :: q' :: l)) with (last (q' :: l)) in *.
      destruct (last (q' :: l)) as [z0|] eqn:El; [|by apply last_None in El]. destruct Hlast as [Hlast ->].
      split; [done|]. split; [done|]. exists y. split.
      * rewrite Hsame; [done|by left|]. intros [= ->]. apply Hnin, elem_of_app. left. by apply last_Some_elem_of.
      * apply (IH y); [done|done|done|].
        -- intros z Hz Hne. apply Hsame; [by right|done].
Qed.

Lemma enqueue_ok m Q i p r : sleepq m Q -> procs m !! p = Some r -> p <> 0 -> (forall j, p ∉ Q j) ->
  exists m', enqueue m i p = Ok m' /\ sleepq m' (fupd Q i (Q i ++ [p])) /\ same m m'.
Proof.
  intros Hs Hr Hp0 Hp. unfold enqueue.
  assert (Hst : exists m1, (if sq_head (slpque m i) =? 0 then store m (PHead i) p else store m (sq_tailp (slpque m i)) p) = Ok m1 /\ same m m1
    /\ (forall j, sq_head (slpque m1 j) = if (j =? i) && bool_decide (Q i = []) then p else sq_head (slpque m j))
    /\ (forall j, sq_tailp (slpque m1 j) = sq_tailp (slpque m j))
    /\ (forall q, nlink (procs m1) q = if bool_decide (last (Q i) = Some q) then Some p else nlink (procs m) q)).
  { pose proof (sq_chain _ _ Hs i) as Hc. destruct (exists_last_or_nil (Q i)) as [E|(l & q & E)]; rewrite E in *.
    - cbn in Hc. rewrite Hc. cbn [Z.eqb]. rewrite store_head. eexists. split; [done|]. split; [by split|]. split; [|split].
      + intros j. cbn. unfold fupd. destruct (Z.eqb_spec j i) as [->|]; done.
      + intros j. cbn. unfold fupd. by destruct (Z.eqb_spec j i) as [->|].
      + done.
    - destruct (sleepq_mem m Q i q Hs) as [Hq [rq Hrq]]; [rewrite E; apply elem_of_app; right; by left|].
      rewrite (proj2 (Z.eqb_neq (sq_head (slpque m i)) 0)).
      2:{ destruct l as [|q' l]; destruct Hc as (-> & Hz & _); done. }
      rewrite (sq_tail _ _ Hs i l q E), (store_link m q rq) by done. eexists. split; [done|]. split; [by apply same_setp_link|]. split; [|split].
      + intros j. rewrite (bool_decide_eq_false_2 (l ++ [q] = [])), andb_false_r by (by destruct l). done.
      + done.
      + intros q'. rewrite nlink_setp, last_snoc. destruct (decide (q = q')) as [<-|]; [by rewrite bool_decide_eq_true_2|].
        rewrite bool_decide_eq_false_2; [done|congruence]. }
  destruct Hst as (m1 & E1 & Hsame & Hh & Ht & Hn). rewrite E1. cbn [obind].
  destruct (same_lookup m m1 p r Hsame Hr) as (r1 & Hr1 & _). unfold getp. change (procs (set_tailp m1 i (PLink p))) with (procs m1).
  rewrite Hr1. cbn [deref obind]. eexists. split; [done|]. split.
  - set (m2 := setp (set_tailp m1 i (PLink p)) p (r1 <| p_link := 0 |>)).
    assert (Hn2 : forall q, nlink (procs m2) q = if decide (p = q) then Some 0 else nlink (procs m1) q) by (intros q; exact (nlink_setp (set_tailp m1 i (PLink p)) p _ q)).
    assert (Hlast : last (Q i) <> Some p) by (intros E; apply last_Some_elem_of in E; by destruct (Hp i)).
    assert (Hns : forall j, Q j = Q i -> NoDup (Q j ++ [p])).
    { intros j _. apply NoDup_app. split; [apply (sq_nodup _ _ Hs)|]. split; [intros q Hq ->%list_elem_of_singleton; by destruct (Hp j)|apply NoDup_singleton]. }
    split.
    + intros j. unfold fupd. destruct (Z.eqb_spec j i) as [->|Hj].
      * apply (lseg_snoc (procs m) _ (sq_head (slpque m i)) (Q i) p).
        -- apply (sq_chain _ _ Hs).
        -- by apply Hns.
        -- done.
        -- rewrite Hn2. by destruct (decide (p = p)).
        -- intros q Hq Hne. rewrite Hn2, Hn, bool_decide_eq_false_2 by done. destruct (decide (p = q)) as [<-|]; [by destruct (Hp i)|done].
        -- cbn. unfold fupd. rewrite Z.eqb_refl. cbn. rewrite Hh, Z.eqb_refl. cbn. destruct (last (Q i)) as [q|] eqn:El.
           ++ rewrite Hn2, Hn, bool_decide_eq_true_2 by done. split; [destruct (decide (p = q)) as [<-|]; [done|done]|].
              rewrite bool_decide_eq_false_2; [done|]. intros E0. by rewrite E0 in El.
           ++ apply last_None in El. by rewrite bool_decide_eq_true_2.
      * cbn. unfold fupd. rewrite (proj2 (Z.eqb_neq j i)), Hh, (proj2 (Z.eqb_neq j i)) by done. cbn [andb].
        eapply lseg_ext; [|apply (sq_chain _ _ Hs)]. intros q Hq. change (procs (setp (set_tailp m1 i (PLink p)) p (r1 <| p_link := 0 |>))) with (procs m2).
        rewrite Hn2, Hn. destruct (decide (p = q)) as [<-|]; [by destruct (Hp j)|]. rewrite bool_decide_eq_false_2; [done|].
        intros E. apply last_Some_elem_of in E. apply Hj. by eapply (sq_disj _ _ Hs).
    + intros j l q. cbn. unfold fupd. destruct (Z.eqb_spec j i) as [->|]; [|rewrite Ht; apply (sq_tail _ _ Hs)].
      intros E. apply app_inj_tail in E as [_ <-]. done.
    + intros j. unfold fupd. destruct (Z.eqb_spec j i) as [->|]; [by apply Hns|apply (sq_nodup _ _ Hs)].
    + intros j k q. unfold fupd. destruct (Z.eqb_spec j i) as [->|], (Z.eqb_spec k i) as [->|]; rewrite ?elem_of_app, ?list_elem_of_singleton; try done.
      * intros [H1| ->] H2; [by eapply (sq_disj _ _ Hs)|by destruct (Hp k)].
      * intros H1 [H2| ->]; [by eapply (sq_disj _ _ Hs)|by destruct (Hp j)].
      * intros H1 H2. by eapply (sq_disj _ _ Hs).
  - etransitivity; [exact Hsame|]. etransitivity; [|by apply (same_setp_link (set_tailp m1 i (PLink p)))]. by split.
Qed.
