(* ===== verification/SchedInv.v ===== *)
(** * What the scheduler keeps true

    [ok T]: the chains hold the processes that wait, each on the queue of its channel;
    the run queues hold the processes that can run and do not, each at its priority; and
    every process is in a state that fits, but for those in [T], which an operation is
    about to move.  Every operation of Sched.v keeps it. *)
From S2P Require Import Prelude Sched SchedQ.

Definition cur (m : machine) : option Z := if noproc m then None else Some (u_procp m).

Definition prio_ok (pp : prio) : Prop := 0 <= p_pri pp <= 127 /\ 0 <= p_usrpri pp <= 127 /\ -25 <= p_nice pp <= 25.

(** On a run queue: able to run, in core, waiting for nothing, and not running.  Waiting:
    asleep or stopped.  Asleep: waiting.  Able to run, in core, and not running: on a run
    queue. *)
Record proc_ok (c : option Z) (p : Z) (r : proc) : Prop := {
  po_rlink : p_rlink r = true -> p_stat r = SRUN /\ p_load r = true /\ p_wchan r = 0 /\ c <> Some p;
  po_wchan : p_wchan r <> 0 -> p_stat r = SSLEEP \/ p_stat r = SSTOP;
  po_sleep : p_stat r = SSLEEP -> p_wchan r <> 0 /\ c <> Some p;
  po_run : p_stat r = SRUN -> p_load r = true -> c <> Some p -> p_rlink r = true
}.

Record runq (m : machine) : Prop := {
  rq_in : forall j p, p ∈ qs m j <-> exists r, procs m !! p = Some r /\ p_rlink r = true /\ pri_queue r = j;
  rq_nodup : forall j, NoDup (qs m j);
  rq_which : forall j, 0 <= j -> Z.testbit (whichqs m) j = negb (bool_decide (qs m j = []))
}.

Record ok (T : list Z) (m : machine) (Q : Z -> list Z) : Prop := {
  ok_sq : sleepq m Q;
  ok_on : forall i p, p ∈ Q i <-> exists r, procs m !! p = Some r /\ p_wchan r <> 0 /\ HASH (p_wchan r) = i;
  ok_rq : runq m;
  ok_pos : forall p r, procs m !! p = Some r -> 0 < p /\ prio_ok (p_prio r);
  ok_transit : forall p r, procs m !! p = Some r -> p ∈ T -> p_rlink r = false;
  ok_proc : forall p r, procs m !! p = Some r -> p ∉ T -> proc_ok (cur m) p r
}.

(** Everything of [q] but its link, and the processor, as before. *)
Record frame (m m' : machine) (p : Z) : Prop := {
  fr_procs : forall q, q <> p -> core <$> (procs m' !! q) = core <$> (procs m !! q);
  fr_cur : u_procp m' = u_procp m /\ noproc m' = noproc m /\ runout m' = runout m
}.
Lemma frame_refl m p : frame m m p.
Proof. by split. Qed.
Lemma frame_trans m1 m2 m3 p : frame m1 m2 p -> frame m2 m3 p -> frame m1 m3 p.
Proof. intros [H1 (H2 & H3 & H4)] [H5 (H6 & H7 & H8)]. split; [intros q Hq; by rewrite H5, H1|split_and!; congruence]. Qed.
Lemma frame_cur m m' p : frame m m' p -> cur m' = cur m.
Proof. intros [_ (H1 & H2 & _)]. unfold cur. by rewrite H1, H2. Qed.
Lemma frame_same m m' p : same m m' -> frame m m' p.
Proof. intros H. split; [intros q _; by apply same_core|]. destruct H as [_ H]. injection H as _ _ E1 E2 _ E3 _. by rewrite E1, E2, E3. Qed.
Lemma frame_setp m p r : frame m (setp m p r) p.
Proof. split; [|done]. intros q Hq. cbn. by rewrite lookup_insert_ne. Qed.
Lemma frame_lookup m m' p q r : frame m m' p -> q <> p -> procs m !! q = Some r -> exists r', procs m' !! q = Some r' /\ core r' = core r.
Proof.
  intros [H _] Hq Hr. specialize (H q Hq). rewrite Hr in H. destruct (procs m' !! q) as [r'|]; [|done].
  exists r'. split; [done|]. by apply (inj Some) in H.
Qed.

(** What depends on no link. *)
Lemma core_fields r r' : core r' = core r ->
  (p_rlink r', p_prio r', p_stat r', p_slptime r', p_load r', p_wchan r', p_kont r')
  = (p_rlink r, p_prio r, p_stat r, p_slptime r, p_load r, p_wchan r, p_kont r).
Proof. unfold core, set_field. intros [= H1 H2 H3 H4 H5 H6 H7]. congruence. Qed.
Lemma proc_ok_core c p r r' : core r' = core r -> proc_ok c p r -> proc_ok c p r'.
Proof. intros [= E1 _ E3 _ E5 E6 _]%core_fields [H1 H2 H3 H4]. split; rewrite ?E1, ?E3, ?E5, ?E6; done. Qed.

Lemma ok_same T m m' Q : same m m' -> sleepq m' Q -> ok T m Q -> ok T m' Q.
Proof.
  intros Hs Hq [H1 H2 [R1 R2 R3] H4 H5 H6].
  assert (Hl : forall p r', procs m' !! p = Some r' -> exists r, procs m !! p = Some r /\ core r' = core r).
  { intros p r' Hr. pose proof (same_core _ _ p Hs) as Hc. rewrite Hr in Hc. destruct (procs m !! p) as [r|]; [|done].
    exists r. split; [done|]. by apply (inj Some) in Hc. }
  assert (Hl' : forall p r, procs m !! p = Some r -> exists r', procs m' !! p = Some r' /\ core r' = core r) by (intros; by eapply same_lookup).
  assert (Hr : qs m' = qs m /\ whichqs m' = whichqs m /\ cur m' = cur m).
  { destruct Hs as [_ Hs]. injection Hs as E3 E4 E1 E2 _ _ _. unfold cur. by rewrite E1, E2, E3, E4. }
  destruct Hr as (Q1 & Q2 & Q3). split; [done| | | | |].
  - intros i p. rewrite H2. split; intros (r & Hr & H).
    + destruct (Hl' p r Hr) as (r' & Hr' & [= _ _ _ _ _ E _]%core_fields). exists r'. by rewrite E.
    + destruct (Hl p r Hr) as (r' & Hr' & [= _ _ _ _ _ E _]%core_fields). exists r'. by rewrite <- E.
  - split; rewrite ?Q1, ?Q2; [|done|done]. intros j p. rewrite R1. unfold pri_queue. split; intros (r & Hr & H).
    + destruct (Hl' p r Hr) as (r' & Hr' & [= E1 E2 _ _ _ _ _]%core_fields). exists r'. by rewrite E1, E2.
    + destruct (Hl p r Hr) as (r' & Hr' & [= E1 E2 _ _ _ _ _]%core_fields). exists r'. by rewrite <- E1, <- E2.
  - intros p r Hr. destruct (Hl p r Hr) as (r' & Hr' & [= _ E _ _ _ _ _]%core_fields). rewrite E. by eapply H4.
  - intros p r Hr. destruct (Hl p r Hr) as (r' & Hr' & [= E _ _ _ _ _ _]%core_fields). rewrite E. by eapply H5.
  - intros p r Hr Hp. destruct (Hl p r Hr) as (r' & Hr' & Hc). rewrite Q3. eapply proc_ok_core; [exact Hc|]. by apply H6.
Qed.

(** ** In and out of [T] *)

Lemma ok_enter T m Q p r : ok T m Q -> procs m !! p = Some r -> p_rlink r = false -> ok (p :: T) m Q.
Proof.
  intros [H1 H2 H3 H4 H5 H6] Hr Hl. split; try done.
  - intros q r' Hq [->|Hin]%elem_of_cons; [congruence|by eapply H5].
  - intros q r' Hq [_ Hn]%not_elem_of_cons. by apply H6.
Qed.
Lemma ok_leave T m Q p r : ok (p :: T) m Q -> procs m !! p = Some r -> proc_ok (cur m) p r -> ok T m Q.
Proof.
  intros [H1 H2 H3 H4 H5 H6] Hr Hp. split; try done.
  - intros q r' Hq Hin. apply (H5 q r' Hq). by right.
  - intros q r' Hq Hn. destruct (decide (q = p)) as [->|Hne]; [by simplify_eq|]. apply H6; [done|]. by apply not_elem_of_cons.
Qed.

(** A process in [T] changes, and with it what the chains hold of it. *)
Lemma ok_rebuild T m m' Q Q' p r' : ok (p :: T) m Q -> frame m m' p -> qs m' = qs m -> whichqs m' = whichqs m ->
  procs m' !! p = Some r' -> (exists r, procs m !! p = Some r) -> p_rlink r' = false -> prio_ok (p_prio r') -> sleepq m' Q' ->
  (forall i q, q <> p -> q ∈ Q' i <-> q ∈ Q i) -> (forall i, p ∈ Q' i <-> p_wchan r' <> 0 /\ HASH (p_wchan r') = i) -> ok (p :: T) m' Q'.
Proof.
  intros [H1 H2 [R1 R2 R3] H4 H5 H6] Hf Hqs Hw Hr' [r Hr] Hrl Hp Hsq Hothers Hself.
  assert (Hr0 : p_rlink r = false) by (apply (H5 p); [done|by left]).
  assert (Hl : forall q r1, q <> p -> procs m' !! q = Some r1 -> exists r0, procs m !! q = Some r0 /\ core r1 = core r0).
  { intros q r1 Hq E. pose proof (fr_procs _ _ _ Hf q Hq) as Hc. rewrite E in Hc. destruct (procs m !! q) as [r0|]; [|done].
    exists r0. split; [done|]. by apply (inj Some) in Hc. }
  assert (Hl' : forall q r0, q <> p -> procs m !! q = Some r0 -> exists r1, procs m' !! q = Some r1 /\ core r1 = core r0) by (intros; by eapply frame_lookup).
  split; [done| | | | |].
  - intros i q. destruct (decide (q = p)) as [->|Hq].
    + rewrite Hself. split; [intros [? ?]; by exists r'|]. by intros (r0 & [= <-]%(eq_trans (eq_sym Hr')) & ? & ?).
    + rewrite Hothers, H2 by done. split; intros (r0 & E & H).
      * destruct (Hl' q r0 Hq E) as (r1 & E1 & [= _ _ _ _ _ Ec _]%core_fields). exists r1. by rewrite Ec.
      * destruct (Hl q r0 Hq E) as (r1 & E1 & [= _ _ _ _ _ Ec _]%core_fields). exists r1. by rewrite <- Ec.
  - split; rewrite ?Hqs, ?Hw; [|done|done]. intros j q. rewrite R1. destruct (decide (q = p)) as [->|Hq].
    + rewrite Hr, Hr'. split; intros (r0 & [= <-] & H & _); congruence.
    + unfold pri_queue. split; intros (r0 & E & H).
      * destruct (Hl' q r0 Hq E) as (r1 & E1 & [= Ea Eb _ _ _ _ _]%core_fields). exists r1. by rewrite Ea, Eb.
      * destruct (Hl q r0 Hq E) as (r1 & E1 & [= Ea Eb _ _ _ _ _]%core_fields). exists r1. by rewrite <- Ea, <- Eb.
  - intros q r0 E. destruct (decide (q = p)) as [->|Hq]; [simplify_eq; split; [by eapply H4|done]|].
    destruct (Hl q r0 Hq E) as (r1 & E1 & [= _ Eb _ _ _ _ _]%core_fields). rewrite Eb. by eapply H4.
  - intros q r0 E. destruct (decide (q = p)) as [->|Hq]; [by simplify_eq|].
    destruct (Hl q r0 Hq E) as (r1 & E1 & [= Ea _ _ _ _ _ _]%core_fields). rewrite Ea. by eapply H5.
  - intros q r0 E Hn. destruct (decide (q = p)) as [->|Hq]; [exfalso; apply Hn; by left|].
    destruct (Hl q r0 Hq E) as (r1 & E1 & Hc). rewrite (frame_cur _ _ _ Hf). eapply proc_ok_core; [exact Hc|]. by apply H6.
Qed.

Lemma ok_on_self T m Q p r : ok T m Q -> procs m !! p = Some r -> forall i, p ∈ Q i <-> p_wchan r <> 0 /\ HASH (p_wchan r) = i.
Proof. intros H Hr i. rewrite (ok_on _ _ _ H). split; [by intros (r0 & [= <-]%(eq_trans (eq_sym Hr)) & ? & ?)|intros [? ?]; by exists r]. Qed.

Lemma ok_modify T m Q p r r' : ok (p :: T) m Q -> procs m !! p = Some r ->
  p_link r' = p_link r -> p_rlink r' = false -> p_wchan r' = p_wchan r -> prio_ok (p_prio r') -> ok (p :: T) (setp m p r') Q.
Proof.
  intros Ho Hr Hl Hrl Hw Hp. eapply (ok_rebuild T m (setp m p r') Q Q p r'); try done.
  - apply frame_setp.
  - cbn. by rewrite lookup_insert_eq.
  - by eexists.
  - eapply sleepq_setp; [done|done|apply Ho].
  - rewrite Hw. by apply (ok_on_self _ _ _ _ _ Ho).
Qed.

(** A process changes in nothing that a queue depends on. *)
Lemma ok_adjust T m Q p r r' : ok T m Q -> procs m !! p = Some r -> pri_queue r' = pri_queue r -> prio_ok (p_prio r') ->
  (p_link r', p_rlink r', p_stat r', p_load r', p_wchan r') = (p_link r, p_rlink r, p_stat r, p_load r, p_wchan r) -> ok T (setp m p r') Q.
Proof.
  intros [H1 H2 [R1 R2 R3] H4 H5 H6] Hr Hq Hp [= E1 E2 E3 E4 E5].
  assert (Hlk : forall q, procs (setp m p r') !! q = if decide (p = q) then Some r' else procs m !! q).
  { intros q. cbn. destruct (decide (p = q)) as [<-|]; [by rewrite lookup_insert_eq|by rewrite lookup_insert_ne]. }
  split.
  - by eapply sleepq_setp.
  - intros i q. rewrite H2, Hlk. destruct (decide (p = q)) as [<-|]; [|done]. rewrite Hr. split; intros (r0 & [= <-] & H); eexists; (split; [done|]).
    + by rewrite E5.
    + by rewrite <- E5.
  - split; [|done|done]. intros j q. change (qs (setp m p r')) with (qs m). rewrite R1, Hlk. destruct (decide (p = q)) as [<-|]; [|done].
    rewrite Hr. split; intros (r0 & [= <-] & H & H'); eexists; (split; [done|]); [by rewrite E2, Hq|by rewrite <- E2, <- Hq].
  - intros q r0. rewrite Hlk. destruct (decide (p = q)) as [<-|]; [|apply H4]. intros [= <-]. split; [by eapply H4|done].
  - intros q r0. rewrite Hlk. destruct (decide (p = q)) as [<-|]; [|apply H5]. intros [= <-]. rewrite E2. by apply H5.
  - intros q r0. rewrite Hlk. change (cur (setp m p r')) with (cur m). destruct (decide (p = q)) as [<-|]; [|apply H6].
    intros [= <-] Hn. destruct (H6 p r Hr Hn). split; rewrite ?E2, ?E3, ?E4, ?E5; done.
Qed.

(** It goes off its chain, and waits for nothing. *)
Lemma off_members (Q : Z -> list Z) i l1 p l2 : Q i = l1 ++ p :: l2 -> NoDup (Q i) -> (forall j, p ∈ Q j -> j = i) ->
  (forall j q, q <> p -> q ∈ fupd Q i (l1 ++ l2) j <-> q ∈ Q j) /\ (forall j, p ∉ fupd Q i (l1 ++ l2) j).
Proof.
  intros HQ Hnd Hd. rewrite HQ in Hnd. apply NoDup_app in Hnd as (_ & N2 & N3). apply NoDup_cons in N3 as [N3 _]. split.
  - intros j q Hq. unfold fupd. destruct (Z.eqb_spec j i) as [->|]; [|done]. rewrite HQ, !elem_of_app, elem_of_cons. tauto.
  - intros j. unfold fupd. destruct (Z.eqb_spec j i) as [->|Hj]; [|intros H; by apply Hj, Hd].
    rewrite elem_of_app. intros [H|H]; [apply (N2 p H); by left|done].
Qed.

Lemma dequeue_wakeup T m Q p r i l1 l2 : ok (p :: T) m Q -> procs m !! p = Some r -> Q i = l1 ++ p :: l2 ->
  exists m' r', unlink (setp m p (r <| p_wchan := 0 |>)) i (ptr_of i l1) p = Ok m' /\ ok (p :: T) m' (fupd Q i (l1 ++ l2))
    /\ procs m' !! p = Some r' /\ core r' = core (r <| p_wchan := 0 |>) /\ frame m m' p.
Proof.
  intros Ho Hr HQ. assert (Hs : sleepq (setp m p (r <| p_wchan := 0 |>)) Q) by (eapply sleepq_setp; [done|done|apply Ho]).
  destruct (unlink_ok _ Q i l1 p l2 Hs HQ) as (m' & E & Hs' & Hsame).
  destruct (same_lookup _ m' p (r <| p_wchan := 0 |>) Hsame) as (r' & Hr' & Hc); [cbn; by rewrite lookup_insert_eq|].
  assert (Hf : frame m m' p) by (eapply frame_trans; [apply frame_setp|by apply frame_same]).
  exists m', r'. split; [done|]. split; [|done]. pose proof (core_fields _ _ Hc) as [= Ea Eb _ _ _ Ew _].
  destruct (off_members Q i l1 p l2 HQ) as [M1 M2]; [apply (sq_nodup _ _ Hs)|intros j Hj; eapply (sq_disj _ _ Hs); [done|rewrite HQ; apply elem_of_app; right; by left]|].
  destruct Hsame as [_ Hsame]. injection Hsame as E1 E2 _ _ _ _ _.
  eapply (ok_rebuild T m m' Q _ p r'); try done.
  - by eexists.
  - rewrite Ea. cbn. apply (ok_transit _ _ _ Ho p r Hr). by left.
  - rewrite Eb. by eapply (ok_pos _ _ _ Ho).
  - intros j. split; [intros H; by apply M2 in H|]. rewrite Ew. by intros [? _].
Qed.

Lemma dequeue_unsleep T m Q p r i l1 l2 : ok (p :: T) m Q -> procs m !! p = Some r -> Q i = l1 ++ p :: l2 ->
  exists m1 r1, unlink m i (ptr_of i l1) p = Ok m1 /\ procs m1 !! p = Some r1 /\ core r1 = core r
    /\ ok (p :: T) (setp m1 p (r1 <| p_wchan := 0 |>)) (fupd Q i (l1 ++ l2)) /\ frame m (setp m1 p (r1 <| p_wchan := 0 |>)) p.
Proof.
  intros Ho Hr HQ. pose proof (ok_sq _ _ _ Ho) as Hs.
  destruct (unlink_ok _ Q i l1 p l2 Hs HQ) as (m1 & E & Hs' & Hsame).
  destruct (same_lookup _ m1 p r Hsame Hr) as (r1 & Hr1 & Hc).
  assert (Hf : frame m (setp m1 p (r1 <| p_wchan := 0 |>)) p) by (eapply frame_trans; [by apply frame_same|apply frame_setp]).
  exists m1, r1. split; [done|]. split; [done|]. split; [done|]. split; [|done]. pose proof (core_fields _ _ Hc) as [= Ea Eb _ _ _ Ew _].
  destruct (off_members Q i l1 p l2 HQ) as [M1 M2]; [apply (sq_nodup _ _ Hs)|intros j Hj; eapply (sq_disj _ _ Hs); [done|rewrite HQ; apply elem_of_app; right; by left]|].
  destruct Hsame as [_ Hsame]. injection Hsame as E1 E2 _ _ _ _ _.
  eapply (ok_rebuild T m _ Q _ p (r1 <| p_wchan := 0 |>)); try done.
  - cbn. by rewrite lookup_insert_eq.
  - by eexists.
  - cbn. rewrite Ea. apply (ok_transit _ _ _ Ho p r Hr). by left.
  - cbn. rewrite Eb. by eapply (ok_pos _ _ _ Ho).
  - by eapply sleepq_setp.
  - intros j. split; [intros H; by apply M2 in H|]. by intros [? _].
Qed.

(** What has nothing to do with processes. *)
Lemma ok_sched T m Q k : ok T m Q -> ok T (m <| m_sched := k |>) Q.
Proof. intros [H1 H2 [R1 R2 R3] H4 H5 H6]. split; try done. by apply (sleepq_ext m). Qed.
Lemma ok_runout T m Q b : ok T m Q -> ok T (m <| runout := b |>) Q.
Proof. intros [H1 H2 [R1 R2 R3] H4 H5 H6]. split; try done. by apply (sleepq_ext m). Qed.
Lemma ok_wantin T m Q k : ok T m Q -> ok T (m <| wantin := k |>) Q.
Proof. intros [H1 H2 [R1 R2 R3] H4 H5 H6]. split; try done. by apply (sleepq_ext m). Qed.

(** ** Priorities and run queues *)

Lemma setpri_ok pp k : prio_ok pp -> prio_ok (setpri pp k).1 /\ p_pri (setpri pp k).1 = p_pri pp.
Proof.
  intros (H1 & H2 & H3). unfold setpri. cbn [fst]. set (p0 := Z.land (p_cpu pp) 255 / 4).
  assert (0 <= p0 <= 63).
  { unfold p0. change 255 with (Z.ones 8). rewrite Z.land_ones by lia. pose proof (Z.mod_pos_bound (p_cpu pp) (2 ^ 8) ltac:(lia)).
    split; [apply Z.div_pos; lia|]. apply Z.lt_succ_r. apply Z.div_lt_upper_bound; lia. }
  clearbody p0. change PUSER with 50. set (p1 := p0 + (50 + 2 * p_nice pp)). set (p2 := if _ && _ then p1 + 2 * 4 else p1).
  assert (0 <= p2) by (unfold p2; destruct (_ && _); lia). clearbody p2. clear p1.
  assert (H4 : 0 <= s8 (if 127 <? p2 then 127 else p2) <= 127).
  { destruct (Z.ltb_spec 127 p2); unfold s8; [vm_compute; split; congruence|]. rewrite Z.mod_small by lia. lia. }
  split; [|done]. unfold prio_ok. cbn. split; [done|]. split; [done|]. done.
Qed.

Lemma pri_queue_range r : prio_ok (p_prio r) -> 0 <= pri_queue r < 32.
Proof.
  intros (H & _). unfold pri_queue, u8. rewrite Z.mod_small by lia. split; [apply Z.div_pos; lia|apply Z.div_lt_upper_bound; lia].
Qed.

Section Inv.
Context (decay : Z -> Z) (RUNOUT : Z).

(** What changes in a process when it gets a new priority. *)
Record prio_only (r r' : proc) : Prop := {
  pr_fields : (p_link r', p_rlink r', p_stat r', p_load r', p_wchan r', p_kont r') = (p_link r, p_rlink r, p_stat r, p_load r, p_wchan r, p_kont r);
  pr_pri : p_pri (p_prio r') = p_pri (p_prio r);
  pr_prio : prio_ok (p_prio r')
}.

Lemma updatepri_ok r k : prio_ok (p_prio r) -> prio_only r (updatepri decay r k).1.
Proof.
  intros Hp. unfold updatepri. destruct (updatepri_loop _ _ _ _) as [a t].
  set (c := s8 _). destruct (setpri_ok ((p_prio r) <| p_cpu := c |>) k) as [H1 H2]; [done|].
  destruct (setpri ((p_prio r) <| p_cpu := c |>) k) as [pp k']. split; done.
Qed.

Lemma wake_priority_ok T m Q p r : ok (p :: T) m Q -> procs m !! p = Some r ->
  exists m' r', wake_priority decay m p = Ok m' /\ procs m' !! p = Some r' /\ prio_only r r' /\ ok (p :: T) m' Q /\ frame m m' p.
Proof.
  intros Ho Hr. pose proof (proj2 (ok_pos _ _ _ Ho p r Hr)) as Hp. unfold wake_priority, getp. rewrite Hr. cbn [deref obind].
  destruct (1 <? p_slptime r).
  - pose proof (updatepri_ok r (m_sched m) Hp) as [H1 H2 H3]. destruct (updatepri decay r (m_sched m)) as [r' k]. cbn [fst] in *.
    exists ((setp m p r') <| m_sched := k |>), r'. split; [done|]. split; [cbn; by rewrite lookup_insert_eq|]. split; [by split|].
    injection H1 as E1 E2 E3 E4 E5 E6. split.
    + apply ok_sched. eapply ok_modify; [done|done|done| |done|done]. rewrite E2. apply (ok_transit _ _ _ Ho p r Hr). by left.
    + eapply frame_trans; [apply frame_setp|]. by split.
  - exists m, r. split; [done|]. split; [done|]. split; [by split|]. split; [done|apply frame_refl].
Qed.

Lemma setrq_ok T m Q p r : p ∉ T -> ok (p :: T) m Q -> procs m !! p = Some r ->
  p_stat r = SRUN -> p_load r = true -> p_wchan r = 0 -> cur m <> Some p ->
  exists m' r', setrq m p = Ok m' /\ ok T m' Q /\ procs m' !! p = Some r' /\ core r' = core (r <| p_rlink := true |>) /\ frame m m' p
    /\ qs m' = fupd (qs m) (pri_queue r) (qs m (pri_queue r) ++ [p]).
Proof.
  intros HT Ho Hr Hst Hld Hw Hc. assert (Hrl : p_rlink r = false) by (apply (ok_transit _ _ _ Ho p r Hr); by left).
  pose proof (proj2 (ok_pos _ _ _ Ho p r Hr)) as Hp. pose proof (pri_queue_range r Hp) as Hpq.
  unfold setrq, getp. rewrite Hr. cbn [deref obind]. rewrite Hrl. set (r' := r <| p_rlink := true |> <| p_link := -1 |>).
  eexists _, r'. split; [done|].
  assert (Hlk : forall q, procs (setp m p r') !! q = if decide (p = q) then Some r' else procs m !! q).
  { intros q. cbn. destruct (decide (p = q)) as [<-|]; [by rewrite lookup_insert_eq|by rewrite lookup_insert_ne]. }
  assert (Hoff : forall i, p ∉ Q i) by (intros i H; by apply (ok_on_self _ _ _ _ _ Ho Hr) in H as [H _]).
  assert (Hnq : forall j, p ∉ qs m j) by (intros j (r0 & E & H & _)%(rq_in _ (ok_rq _ _ _ Ho)); congruence).
  split; [|split; [cbn; by rewrite lookup_insert_eq|split; [done|split; [|done]]]].
  - pose proof Ho as [H1 H2 [R1 R2 R3] H4 H5 H6].
    split; cbn [procs qs whichqs].
    + apply (sleepq_ext (setp m p r')); [done|done|]. by apply sleepq_setp_off.
    + intros i q. rewrite H2. change (procs (_ <| whichqs := _ |>)) with (procs (setp m p r')). rewrite Hlk. destruct (decide (p = q)) as [<-|]; [|done].
      split; intros (r0 & E & H & _); simplify_eq; done.
    + split; change (procs (_ <| whichqs := _ |>)) with (procs (setp m p r')); change (qs (_ <| whichqs := _ |>)) with (fupd (qs m) (pri_queue r) (qs m (pri_queue r) ++ [p]));
        change (whichqs (_ <| whichqs := ?x |>)) with x.
      * intros j q. rewrite Hlk. unfold fupd. destruct (decide (p = q)) as [<-|Hpq'].
        -- destruct (Z.eqb_spec j (pri_queue r)) as [->|Hj].
           ++ rewrite elem_of_app, list_elem_of_singleton. split; [|by right]. intros _. by exists r'.
           ++ split; [intros H; by apply Hnq in H|]. intros (r0 & [= <-] & _ & E). by destruct Hj.
        -- rewrite <- R1. destruct (Z.eqb_spec j (pri_queue r)) as [->|Hj]; [|done]. rewrite elem_of_app, list_elem_of_singleton.
           split; [intros [H| ->]; done|by left].
      * intros j. unfold fupd. destruct (j =? pri_queue r); [|done]. apply NoDup_app. split; [done|]. split; [|apply NoDup_singleton].
        intros q Hq ->%list_elem_of_singleton. by apply Hnq in Hq.
      * intros j Hj. rewrite Z.setbit_eqb by lia. unfold fupd. rewrite (Z.eqb_sym j). destruct (Z.eqb_spec (pri_queue r) j) as [<-|]; cbn [orb].
        -- rewrite bool_decide_eq_false_2; [done|]. by destruct (qs m (pri_queue r)).
        -- by apply R3.
    + intros q r0. change (procs (_ <| whichqs := _ |>)) with (procs (setp m p r')). rewrite Hlk. destruct (decide (p = q)) as [<-|]; [|apply H4].
      intros [= <-]. split; [by eapply H4|done].
    + intros q r0. change (procs (_ <| whichqs := _ |>)) with (procs (setp m p r')). rewrite Hlk. destruct (decide (p = q)) as [<-|].
      * by intros [= <-] Hin.
      * intros E Hin. apply (H5 q r0 E). by right.
    + intros q r0. change (procs (_ <| whichqs := _ |>)) with (procs (setp m p r')). rewrite Hlk. destruct (decide (p = q)) as [<-|].
      * intros [= <-] _. change (cur (_ <| whichqs := _ |>)) with (cur m). split; cbn; try done; congruence.
      * intros E Hn. change (cur (_ <| whichqs := _ |>)) with (cur m). apply H6; [done|]. apply not_elem_of_cons. by split.
  - eapply frame_trans; [apply (frame_setp m p r')|]. by split.
Qed.

(** ** Waking a process up *)

Definition sleepers (m : machine) : gset Z := dom (base.filter (fun kv : Z * proc => p_wchan kv.2 <> 0) (procs m)).
Lemma elem_of_sleepers m p : p ∈ sleepers m <-> exists r, procs m !! p = Some r /\ p_wchan r <> 0.
Proof.
  unfold sleepers. rewrite elem_of_dom. split; [intros [r Hr]|intros (r & Hr)]; [|exists r]; rewrite map_lookup_filter_Some in *; eauto.
Qed.

Lemma chain_length T m Q i : ok T m Q -> (length (Q i) <= size (sleepers m))%nat.
Proof.
  intros Ho. rewrite <- (size_list_to_set (C := gset Z) (Q i)) by apply (sq_nodup _ _ (ok_sq _ _ _ Ho)). apply subseteq_size. intros p.
  rewrite elem_of_list_to_set, elem_of_sleepers, (ok_on _ _ _ Ho). intros (r & H1 & H2 & _). by exists r.
Qed.
Lemma sleepers_procs m : (size (sleepers m) <= size (procs m))%nat.
Proof. unfold sleepers. rewrite size_dom. apply map_subseteq_size, map_filter_subseteq. Qed.

Lemma unsleep_ok T m Q p r : ok (p :: T) m Q -> procs m !! p = Some r ->
  exists m' r' Q', unsleep m p = Ok m' /\ ok (p :: T) m' Q' /\ procs m' !! p = Some r' /\ core r' = core (r <| p_wchan := 0 |>) /\ frame m m' p.
Proof.
  intros Ho Hr. unfold unsleep, getp. rewrite Hr. cbn [deref obind]. destruct (nz (p_wchan r)) eqn:En.
  - assert (Hin : p ∈ Q (HASH (p_wchan r))).
    { apply (ok_on_self _ _ _ _ _ Ho Hr). split; [|done]. unfold nz in En. by apply negb_true_iff, Z.eqb_neq in En. }
    apply list_elem_of_split in Hin as (l1 & l2 & HQ). change (PHead (HASH (p_wchan r))) with (ptr_of (HASH (p_wchan r)) []).
    rewrite (unsleep_find_ok m Q _ p [] (ok_sq _ _ _ Ho) l1 l2); [|done|].
    2:{ pose proof (chain_length _ _ _ (HASH (p_wchan r)) Ho) as Hl. pose proof (sleepers_procs m). rewrite HQ, length_app in Hl. cbn in Hl. lia. }
    cbn [obind app]. destruct (dequeue_unsleep _ _ _ _ _ _ _ _ Ho Hr HQ) as (m1 & r1 & -> & Hr1 & Hc & Ho1 & Hf). cbn [obind].
    unfold getp. rewrite Hr1. cbn [deref obind]. eexists _, (r1 <| p_wchan := 0 |>), _. split; [done|]. split; [done|].
    split; [cbn; by rewrite lookup_insert_eq|]. split; [|done]. pose proof (core_fields _ _ Hc) as [= E1 E2 E3 E4 E5 E6 E7].
    unfold core, set_field. cbn. congruence.
  - exists m, r, Q. split; [done|]. split; [done|]. split; [done|]. split; [|apply frame_refl].
    unfold nz in En. apply negb_false_iff, Z.eqb_eq in En. unfold core, set_field. cbn. congruence.
Qed.

(** [r'] is [r] after [wakeup] found it. *)
Record woke (r r' : proc) : Prop := {
  wk_wchan : p_wchan r' = 0;
  wk_slptime : p_slptime r' = 0;
  wk_stat : p_stat r' = if bool_decide (p_stat r = SSLEEP) then SRUN else p_stat r;
  wk_rlink : p_rlink r' = bool_decide (p_stat r = SSLEEP) && p_load r;
  wk_load : p_load r' = p_load r;
  wk_kont : p_kont r' = p_kont r;
  wk_pri : p_pri (p_prio r') = p_pri (p_prio r)
}.

Lemma woke_core r1 r r' r2 : core r1 = core r -> core r2 = core r' -> woke r r' -> woke r1 r2.
Proof.
  intros [= A1 A2 A3 A4 A5 A6 A7]%core_fields [= B1 B2 B3 B4 B5 B6 B7]%core_fields [H1 H2 H3 H4 H5 H6 H7].
  split; rewrite ?A1, ?A2, ?A3, ?A4, ?A5, ?A6, ?A7, ?B1, ?B2, ?B3, ?B4, ?B5, ?B6, ?B7; done.
Qed.

Definition waits (chan : Z) (r : proc) : Prop := p_wchan r <> 0 /\ p_wchan r = chan.

(** The processes on [chan] are awake, the others as they were; but those on [runout] may
    be awake too, if that was set. *)
Definition wk (ro : bool) (chan : Z) (r r' : proc) : Prop :=
  waits chan r /\ woke r r' \/ ~ waits chan r /\ core r' = core r \/ ro = true /\ waits RUNOUT r /\ woke r r'.

Lemma wk_core ro chan r r1 r' r2 : core r1 = core r -> core r2 = core r' -> wk ro chan r r' -> wk ro chan r1 r2.
Proof.
  intros H1 H2. pose proof (core_fields _ _ H1) as [= _ _ _ _ _ E _]. unfold wk, waits. rewrite E.
  intros [[Hw H]|[[Hw H]|(Hr & Hw & H)]]; [left|right; left|right; right]; split; try done; [by eapply woke_core|congruence|split; [done|by eapply woke_core]].
Qed.
Lemma wk_mono (ro ro' : bool) chan r r' : (ro = true -> ro' = true) -> wk ro chan r r' -> wk ro' chan r r'.
Proof. intros H [?|[?|(? & ? & ?)]]; [by left|by right; left|right; right; auto]. Qed.
Lemma wk_awake ro chan r r' : p_wchan r = 0 -> wk ro chan r r' -> core r' = core r.
Proof. intros H [[[Hw _] _]|[[_ Hc]|(_ & [Hw _] & _)]]; done. Qed.

Record wakes (chan : Z) (m m' : machine) : Prop := {
  ws_procs : forall p, match procs m !! p, procs m' !! p with Some r, Some r' => wk (runout m) chan r r' | None, None => True | _, _ => False end;
  ws_cur : u_procp m' = u_procp m /\ noproc m' = noproc m;
  ws_runout : runout m' = true -> runout m = true
}.

Lemma wakes_ext chan m1 m1' m2 m2' : procs m1' = procs m1 -> procs m2' = procs m2 -> u_procp m1' = u_procp m1 -> u_procp m2' = u_procp m2 ->
  noproc m1' = noproc m1 -> noproc m2' = noproc m2 -> runout m1' = runout m1 -> runout m2' = runout m2 ->
  wakes chan m1 m2 -> wakes chan m1' m2'.
Proof. intros A1 A2 A3 A4 A5 A6 A7 A8 [H1 H2 H3]. split; rewrite ?A1, ?A2, ?A3, ?A4, ?A5, ?A6, ?A7, ?A8; done. Qed.

Lemma wakes_none chan m : (forall p r, procs m !! p = Some r -> ~ waits chan r) -> wakes chan m m.
Proof.
  intros H. split; [|done|done]. intros p. destruct (procs m !! p) as [r|] eqn:E; [|done]. right; left. split; [by eapply H|done].
Qed.

Lemma wakes_one chan m m1 m' p r r1 : procs m !! p = Some r -> waits chan r -> frame m m1 p -> procs m1 !! p = Some r1 -> woke r r1 ->
  wakes chan m1 m' -> wakes chan m m'.
Proof.
  intros Hr Hw Hf Hr1 Hk [H1 H2 H3]. destruct Hf as [Hf (F1 & F2 & F3)]. split; [|split; destruct H2; congruence|rewrite <- F3; done].
  intros q. specialize (H1 q). rewrite F3 in H1. destruct (decide (q = p)) as [->|Hq].
  - rewrite Hr, Hr1 in *. destruct (procs m' !! p) as [r'|]; [|done]. left. split; [done|].
    apply (woke_core r r r1); [done| |done]. eapply wk_awake; [|exact H1]. apply Hk.
  - specialize (Hf q Hq). destruct (procs m !! q) as [r0|], (procs m1 !! q) as [r0'|]; try done.
    destruct (procs m' !! q) as [r'|]; [|done]. apply (inj Some) in Hf. by eapply wk_core; [symmetry; exact Hf|reflexivity|exact H1].
Qed.

Lemma wakes_nested chan m m1 m' : runout m = true -> wakes RUNOUT (m <| runout := false |>) m1 -> wakes chan m1 m' -> wakes chan m m'.
Proof.
  intros Hro [H1 [H2 H2'] H3] [H4 [H5 H5'] H6]. cbn [procs runout u_procp noproc] in *. split; [|split; cbn in *; congruence|done].
  intros q. specialize (H1 q). specialize (H4 q). change (procs (m <| runout := false |>)) with (procs m) in H1.
  change (runout (m <| runout := false |>)) with false in *.
  destruct (procs m !! q) as [r|], (procs m1 !! q) as [r1|]; try done. destruct (procs m' !! q) as [r'|]; [|done].
  destruct H1 as [[Hw Hk]|[[Hw Hc]|(Hf & _)]]; [|rewrite Hro|done].
  - right; right. split; [done|]. split; [done|]. apply (woke_core r r r1); [done| |done]. eapply wk_awake; [|exact H4]. apply Hk.
  - eapply wk_core; [symmetry; exact Hc|reflexivity|]. by eapply wk_mono; [|exact H4].
Qed.

Lemma wakes_sleepers chan m m' : wakes chan m m' -> sleepers m' ⊆ sleepers m.
Proof.
  intros [H _ _] p. rewrite !elem_of_sleepers. intros (r' & Hr' & Hw). specialize (H p). rewrite Hr' in H.
  destruct (procs m !! p) as [r|]; [|done]. exists r. split; [done|]. destruct H as [[_ Hk]|[[_ Hc]|(_ & _ & Hk)]].
  - by destruct Hw, (wk_wchan _ _ Hk).
  - apply core_fields in Hc as [= _ _ _ _ _ E _]. congruence.
  - by destruct Hw, (wk_wchan _ _ Hk).
Qed.
Lemma one_sleepers m m1 p r r1 : procs m !! p = Some r -> p_wchan r <> 0 -> frame m m1 p -> procs m1 !! p = Some r1 -> p_wchan r1 = 0 ->
  (size (sleepers m1) < size (sleepers m))%nat.
Proof.
  intros Hr Hw Hf Hr1 Hw1. apply subset_size. split.
  - intros q. rewrite !elem_of_sleepers. intros (r0 & E & H). destruct (decide (q = p)) as [->|Hq]; [congruence|].
    pose proof (fr_procs _ _ _ Hf q Hq) as Hc. rewrite E in Hc. destruct (procs m !! q) as [r2|]; [|done]. exists r2. split; [done|].
    apply (inj Some) in Hc. apply core_fields in Hc as [= _ _ _ _ _ Ec _]. congruence.
  - intros H. assert (Hp : p ∈ sleepers m1) by (apply H, elem_of_sleepers; by exists r). apply elem_of_sleepers in Hp as (r0 & E & H0). congruence.
Qed.

(** The end of the inline [setrun], up to [setrq]: the process is awake and, when it is in
    core, on a run queue. *)
Lemma finish_ok T m Q p r r1 : p ∉ T -> ok (p :: T) m Q -> procs m !! p = Some r -> p_wchan r = 0 -> cur m <> Some p ->
  core r1 = core (r <| p_slptime := p_slptime r1 |> <| p_stat := SRUN |>) -> p_link r1 = p_link r ->
  exists m' r', (if p_load r then setrq (setp m p r1) p else Ok (setp m p r1)) = Ok m' /\ ok T m' Q /\ procs m' !! p = Some r' /\ frame m m' p
    /\ core r' = core (r1 <| p_rlink := p_load r |>).
Proof.
  intros HT Ho Hr Hw Hc Hr1 Hl. pose proof (core_fields _ _ Hr1) as [= E1 E2 E3 E5 E6 E7]. cbn in E1, E2, E3, E5, E6, E7.
  assert (Hrl : p_rlink r = false) by (apply (ok_transit _ _ _ Ho p r Hr); by left).
  assert (Ho1 : ok (p :: T) (setp m p r1) Q).
  { eapply ok_modify; [done|done|done|congruence|congruence|]. rewrite E2. by eapply (ok_pos _ _ _ Ho). }
  assert (Hlk : procs (setp m p r1) !! p = Some r1) by (cbn; by rewrite lookup_insert_eq).
  destruct (p_load r) eqn:Eld.
  - destruct (setrq_ok T _ Q p r1 HT Ho1 Hlk E3) as (m' & r' & Es & Ho' & Hr' & Hc' & Hf & _); [congruence|congruence|done|].
    exists m', r'. split; [done|]. split; [done|]. split; [done|]. split; [|done]. eapply frame_trans; [apply frame_setp|done].
  - exists (setp m p r1), r1. split; [done|]. split.
    + eapply ok_leave; [done|done|]. split; try congruence.
    + split; [done|]. split; [apply frame_setp|]. unfold core, set_field. cbn. congruence.
Qed.

Definition wakeup_measure (m : machine) (l2 : list Z) : nat := (size (sleepers m) * (size (sleepers m) + 2) + length l2)%nat.

Lemma measure_less m m' l2 l2' : (size (sleepers m') < size (sleepers m))%nat -> (length l2' <= size (sleepers m'))%nat ->
  (wakeup_measure m' l2' < wakeup_measure m l2)%nat.
Proof. unfold wakeup_measure. intros. nia. Qed.

(** A process on a chain waits for a channel of that queue, and is asleep or stopped. *)
Lemma chain_proc m Q i p : ok [] m Q -> p ∈ Q i -> exists r, procs m !! p = Some r /\ p <> 0 /\ p_wchan r <> 0 /\ HASH (p_wchan r) = i
  /\ p_rlink r = false /\ (p_stat r = SSLEEP \/ p_stat r = SSTOP) /\ proc_ok (cur m) p r.
Proof.
  intros Ho Hp. destruct (proj1 (ok_on _ _ _ Ho i p) Hp) as (r & Hr & Hw & Hh). exists r.
  pose proof (ok_proc _ _ _ Ho p r Hr ltac:(by apply not_elem_of_nil)) as Hok. split; [done|].
  split; [by eapply sleepq_mem; [apply Ho|done]|]. split; [done|]. split; [done|]. split; [|split; [by apply (po_wchan _ _ _ Hok)|done]].
  destruct (p_rlink r) eqn:E; [|done]. by destruct (po_rlink _ _ _ Hok E) as (_ & _ & ? & _).
Qed.

(** The process at [p] is asleep: what happens up to the nested call; [slp] is what becomes
    of its time asleep. *)
Lemma wake_one_ok T m Q p r (f : proc -> proc) : p ∉ T -> ok (p :: T) m Q -> procs m !! p = Some r -> p_wchan r = 0 -> cur m <> Some p ->
  (forall r, core (f r) = core (r <| p_slptime := p_slptime (f r) |> <| p_stat := SRUN |>) /\ p_link (f r) = p_link r) ->
  exists m1 r1 m' r', wake_priority decay m p = Ok m1 /\ getp m1 p = Ok r1 /\ p_load r1 = p_load r /\ p_prio (f r1) = p_prio r1
    /\ (if p_load r then setrq (setp m1 p (f r1)) p else Ok (setp m1 p (f r1))) = Ok m'
    /\ ok T m' Q /\ procs m' !! p = Some r' /\ frame m m' p
    /\ p_wchan r' = 0 /\ p_slptime r' = p_slptime (f r1) /\ p_stat r' = SRUN /\ p_rlink r' = p_load r /\ p_load r' = p_load r
    /\ p_kont r' = p_kont r /\ p_pri (p_prio r') = p_pri (p_prio r).
Proof.
  intros HT Ho Hr Hw Hc Hf. destruct (wake_priority_ok _ _ _ _ _ Ho Hr) as (m1 & r1 & E1 & Hr1 & [P1 P2 P3] & Ho1 & Hf1).
  injection P1 as A1 A2 A3 A4 A5 A6. destruct (Hf r1) as [F1 F2]. pose proof (core_fields _ _ F1) as [= C1 C2 C3 C5 C6 C7].
  destruct (finish_ok T m1 Q p r1 (f r1)) as (m2 & r2 & E2 & Ho2 & Hr2 & Hf2 & Hc2); try done.
  { congruence. } { by rewrite (frame_cur _ _ _ Hf1). }
  exists m1, r1, m2, r2. split; [done|]. split; [unfold getp; by rewrite Hr1|]. split; [done|]. split; [done|]. rewrite A4 in E2.
  split; [exact E2|]. split; [done|]. split; [done|]. split; [by eapply frame_trans|].
  apply core_fields in Hc2 as [= B1 B2 B3 B4 B5 B6 B7]. cbn in *. split_and!; congruence.
Qed.

Lemma wakeup_from_ok fuel : forall m Q chan l1 l2, ok [] m Q -> Q (HASH chan) = l1 ++ l2 ->
  (forall q r, q ∈ l1 -> procs m !! q = Some r -> p_wchan r <> chan) -> (wakeup_measure m l2 < fuel)%nat ->
  exists m' Q', wakeup_from decay RUNOUT fuel m chan (ptr_of (HASH chan) l1) = Ok m' /\ ok [] m' Q' /\ wakes chan m m'.
Proof.
  induction fuel as [|fuel IH]; intros m Q chan l1 l2 Ho HQ Hl1 Hm; [lia|]. cbn [wakeup_from].
  rewrite (load_ok m Q _ l1 l2 (ok_sq _ _ _ Ho) HQ). cbn [obind]. destruct l2 as [|p l2]; cbn [hd].
  { exists m, Q. split; [done|]. split; [done|]. apply wakes_none. intros p r Hr [Hw Hch].
    assert (Hp : p ∈ Q (HASH chan)) by (rewrite (ok_on _ _ _ Ho); exists r; split; [done|split; [done|by rewrite Hch]]).
    rewrite HQ, app_nil_r in Hp. by apply (Hl1 p r). }
  destruct (chain_proc m Q (HASH chan) p Ho) as (r & Hr & Hp0 & Hw & Hh & Hrl & Hst & Hok); [rewrite HQ; apply elem_of_app; right; by left|].
  rewrite (proj2 (Z.eqb_neq p 0)) by done. unfold getp at 1. rewrite Hr. cbn [deref obind]. rewrite Hrl. cbn [orb].
  rewrite (bool_decide_eq_false_2 (p_stat r <> SSLEEP /\ p_stat r <> SSTOP)) by (intros [? ?]; by destruct Hst).
  assert (HQlen : forall m' Q', ok [] m' Q' -> forall i, (length (Q' i) <= size (sleepers m'))%nat) by (intros; by eapply chain_length).
  destruct (Z.eqb_spec (p_wchan r) chan) as [Hch|Hch].
  2:{ rewrite <- (ptr_of_snoc (HASH chan) l1 p). apply (IH m Q chan (l1 ++ [p]) l2 Ho).
      - by rewrite HQ, <- app_assoc.
      - intros q r0 [Hq| ->%list_elem_of_singleton]%elem_of_app E; [by eapply Hl1|congruence].
      - unfold wakeup_measure in *. cbn [length] in Hm. lia. }
  assert (Hwaits : waits chan r) by by split.
  destruct (dequeue_wakeup [] m Q p r (HASH chan) l1 l2) as (m1 & r1 & E1 & Ho1 & Hr1 & Hc1 & Hf1); [by eapply ok_enter|done|done|].
  rewrite E1. cbn [obind]. apply core_fields in Hc1 as [= A1 A2 A3 A4 A5 A6 A7].
  destruct (decide (p_stat r = SSLEEP)) as [Hs|Hs].
  - rewrite bool_decide_eq_true_2 by done. pose proof (po_sleep _ _ _ Hok Hs) as [_ Hcur].
    destruct (wake_one_ok [] m1 _ p r1 (fun r => r <| p_slptime := 0 |> <| p_stat := SRUN |>) ltac:(by apply not_elem_of_nil) Ho1 Hr1 A6)
      as (mp & rp & m2 & r2 & E2 & E3 & Hld & _ & E5 & Ho2 & Hr2 & Hf2 & B1 & B2 & B3 & B4 & B5 & B6 & B7); [by rewrite (frame_cur _ _ _ Hf1)|done|].
    rewrite E2. cbn [obind]. rewrite E3. cbn [obind]. rewrite Hld, E5. cbn [obind].
    assert (Hwoke : woke r r2).
    { split; rewrite ?bool_decide_eq_true_2 by done; try done; [by rewrite B4|congruence|congruence|congruence]. }
    assert (Hf : frame m m2 p) by by eapply frame_trans.
    set (m3 := m2 <| m_sched := _ |>). assert (Ho3 : ok [] m3 (fupd Q (HASH chan) (l1 ++ l2))) by by apply ok_sched.
    pose proof (one_sleepers m m2 p r r2 Hr Hw Hf Hr2 B1) as Hlt.
    change (sleepers m2) with (sleepers m3) in Hlt.
    assert (Hrestart : forall m' Q', ok [] m' Q' -> (size (sleepers m') <= size (sleepers m3))%nat ->
      exists m'' Q'', wakeup_from decay RUNOUT fuel m' chan (PHead (HASH chan)) = Ok m'' /\ ok [] m'' Q'' /\ wakes chan m' m'').
    { intros m' Q' Ho' Hle. apply (IH m' Q' chan [] (Q' (HASH chan)) Ho' eq_refl).
      - intros q r0 Hq. by apply elem_of_nil in Hq.
      - pose proof (measure_less m m' (p :: l2) (Q' (HASH chan)) ltac:(lia) (HQlen _ _ Ho' _)). lia. }
    destruct (p_load r1) eqn:El; cbn [obind].
    + destruct (Hrestart m3 _ Ho3 ltac:(lia)) as (m' & Q' & E' & Ho' & Hw'). exists m', Q'. split; [done|]. split; [done|].
      eapply wakes_one; [done|done|exact Hf|exact Hr2|done|]. by apply (wakes_ext chan m3 m2 m' m').
    + destruct (runout m3) eqn:Ero.
      * destruct (IH (m3 <| runout := false |>) _ RUNOUT [] _ (ok_runout _ _ _ false Ho3) eq_refl) as (m4 & Q4 & E4 & Ho4 & Hw4).
        { intros q r0 Hq. by apply elem_of_nil in Hq. }
        { pose proof (measure_less m m3 (p :: l2) (fupd Q (HASH chan) (l1 ++ l2) (HASH RUNOUT)) Hlt (HQlen _ _ Ho3 _)) as Hml.
          change (wakeup_measure (m3 <| runout := false |>)) with (wakeup_measure m3). lia. }
        cbn [app] in E4. change (ptr_of (HASH RUNOUT) []) with (PHead (HASH RUNOUT)) in E4. rewrite E4. cbn [obind].
        destruct (Hrestart (m4 <| wantin := wantin m4 + 1 |>) Q4) as (m' & Q' & E' & Ho' & Hw'); [by apply ok_wantin| |].
        { change (sleepers (m4 <| wantin := wantin m4 + 1 |>)) with (sleepers m4). apply subseteq_size. exact (wakes_sleepers _ _ _ Hw4). }
        exists m', Q'. split; [done|]. split; [done|]. eapply wakes_one; [done|done|exact Hf|exact Hr2|done|].
        apply (wakes_ext chan m3 m2 m' m'); try done. eapply wakes_nested; [done|exact Hw4|]. by apply (wakes_ext chan (m4 <| wantin := wantin m4 + 1 |>) m4 m' m').
      * cbn [obind]. destruct (Hrestart (m3 <| wantin := wantin m3 + 1 |>) _ (ok_wantin _ _ _ _ Ho3)) as (m' & Q' & E' & Ho' & Hw'); [done|].
        exists m', Q'. split; [done|]. split; [done|]. eapply wakes_one; [done|done|exact Hf|exact Hr2|done|].
        by apply (wakes_ext chan (m3 <| wantin := wantin m3 + 1 |>) m2 m' m').
  - rewrite bool_decide_eq_false_2 by done. destruct Hst as [|Hst]; [done|]. unfold getp. rewrite Hr1. cbn [deref obind].
    set (r2 := r1 <| p_slptime := 0 |>). assert (Hr2 : procs (setp m1 p r2) !! p = Some r2) by (cbn; by rewrite lookup_insert_eq).
    assert (Ho2 : ok [] (setp m1 p r2) (fupd Q (HASH chan) (l1 ++ l2))).
    { eapply ok_leave; [eapply ok_modify; [exact Ho1|done|done|by cbn; rewrite A1|done|by cbn; rewrite A2; eapply (ok_pos _ _ _ Ho)]|exact Hr2|].
      change (cur (setp m1 p r2)) with (cur m1). split; cbn; rewrite ?A1, ?A3, ?A5, ?A6, ?Hst; try done. by rewrite Hrl. }
    assert (Hf : frame m (setp m1 p r2) p) by (eapply frame_trans; [exact Hf1|apply frame_setp]).
    pose proof (one_sleepers m _ p r r2 Hr Hw Hf Hr2 ltac:(by cbn; rewrite A6)) as Hlt.
    destruct (IH (setp m1 p r2) _ chan l1 l2 Ho2) as (m' & Q' & E' & Ho' & Hw').
    { unfold fupd. by rewrite Z.eqb_refl. }
    { intros q r0 Hq E. assert (Hqp : q <> p).
      { intros ->. pose proof (sq_nodup _ _ (ok_sq _ _ _ Ho) (HASH chan)) as Hnd. rewrite HQ in Hnd. apply NoDup_app in Hnd as (_ & Hnd & _). apply (Hnd p Hq). by left. }
      pose proof (fr_procs _ _ _ Hf q Hqp) as Hc. rewrite E in Hc. destruct (procs m !! q) as [r3|] eqn:E3; [|done].
      apply (inj Some) in Hc. apply core_fields in Hc as [= _ _ _ _ _ Ec _]. rewrite Ec. by eapply Hl1. }
    { pose proof (HQlen _ _ Ho2 (HASH chan)) as Hlen. unfold fupd in Hlen. rewrite Z.eqb_refl, length_app in Hlen.
      pose proof (measure_less m (setp m1 p r2) (p :: l2) l2 Hlt ltac:(lia)). lia. }
    exists m', Q'. split; [exact E'|]. split; [done|]. eapply wakes_one; [done|done|exact Hf|exact Hr2| |done].
    split; cbn; rewrite ?A1, ?A2, ?A3, ?A5, ?A6, ?A7, ?(bool_decide_eq_false_2 (p_stat r = SSLEEP)) by done; done.
Qed.
End Inv.
