(* ===== verification/SchedRun.v ===== *)
(** * The scheduler as a state machine

    What the operations of Sched.v do to a machine where [ok] of SchedInv.v holds; the
    actions of processes and interrupts; and what is true of every machine they lead to. *)
From S2P Require Import Prelude Sched SchedQ SchedInv.

(** ** [swtch] *)

Lemma ffs_spec n : forall i x, match ffs n i x with
  | Some j => i <= j < i + Z.of_nat n /\ Z.testbit x j = true /\ forall k, i <= k < j -> Z.testbit x k = false
  | None => forall k, i <= k < i + Z.of_nat n -> Z.testbit x k = false
  end.
Proof.
  induction n as [|n IH]; intros i x; cbn [ffs]; [lia|]. destruct (Z.testbit x i) eqn:E; [split; [lia|split; [done|lia]]|].
  specialize (IH (i + 1) x). destruct (ffs n (i + 1) x) as [j|].
  - destruct IH as (H1 & H2 & H3). split; [lia|]. split; [done|]. intros k Hk. destruct (Z.eq_dec k i) as [->|]; [done|apply H3; lia].
  - intros k Hk. destruct (Z.eq_dec k i) as [->|]; [done|apply IH; lia].
Qed.

(** The processor goes to the first process of the first queue that is not empty, and to
    none when all are. *)
Record switched (m m' : machine) : Prop := {
  sw_best : if noproc m' then (forall i, qs m i = []) /\ m' = m <| noproc := true |>
            else exists i l r, qs m i = u_procp m' :: l /\ (forall j, j < i -> qs m j = []) /\ procs m !! u_procp m' = Some r
                 /\ procs m' = <[u_procp m' := r <| p_rlink := false |>]> (procs m) /\ qs m' = fupd (qs m) i l;
  sw_runout : runout m' = runout m;
  sw_slpque : slpque m' = slpque m
}.

Lemma swtch_ok m Q : ok [] (m <| noproc := true |>) Q ->
  exists m', swtch m = Ok m' /\ ok [] m' Q /\ switched m m'
    /\ (noproc m' = false -> exists r, procs m' !! u_procp m' = Some r /\ p_stat r = SRUN /\ p_wchan r = 0 /\ p_rlink r = false).
Proof.
  intros Ho. unfold swtch. set (m0 := m <| noproc := true |>) in *. pose proof (ok_rq _ _ _ Ho) as [R1 R2 R3].
  change (whichqs m) with (whichqs m0). pose proof (ffs_spec 32 0 (whichqs m0)) as Hf.
  assert (Hrange : forall j p, p ∈ qs m0 j -> 0 <= j < 32).
  { intros j p Hp. apply R1 in Hp as (r & Hr & _ & <-). apply pri_queue_range. by eapply (ok_pos _ _ _ Ho). }
  assert (Hempty : forall j, (0 <= j -> Z.testbit (whichqs m0) j = false) -> qs m0 j = []).
  { intros j Hj. destruct (qs m0 j) as [|p l] eqn:E; [done|]. assert (Hp : p ∈ qs m0 j) by (rewrite E; by left). apply Hrange in Hp.
    specialize (Hj ltac:(lia)). rewrite R3, E in Hj by lia. by rewrite bool_decide_eq_false_2 in Hj. }
  destruct (ffs 32 0 (whichqs m0)) as [i|].
  2:{ exists m0. split; [done|]. split; [done|]. split; [|done]. split; [|done|done]. split; [|done]. intros i. apply Hempty. intros Hi.
      destruct (Z.lt_ge_cases i 32); [by apply Hf|]. rewrite R3 by done. destruct (qs m0 i) as [|p l] eqn:E; [done|].
      assert (Hp : p ∈ qs m0 i) by (rewrite E; by left). apply Hrange in Hp. lia. }
  destruct Hf as (Hi & Hbit & Hbefore). change (qs m i) with (qs m0 i). rewrite R3 in Hbit by lia.
  destruct (qs m0 i) as [|p l] eqn:Eq; [done|]. cbv zeta.
  destruct (proj1 (R1 i p)) as (r & Hr & Hrl & Hpq); [rewrite Eq; by left|].
  pose proof (ok_proc _ _ _ Ho p r Hr ltac:(by apply not_elem_of_nil)) as Hok. destruct (po_rlink _ _ _ Hok Hrl) as (Hst & Hld & Hw & _).
  set (mq := m0 <| qs := _ |> <| whichqs := _ |> <| noproc := _ |> <| m_sched := _ |>).
  change (procs m0) with (procs m) in Hr.
  assert (Hg : getp mq p = Ok r) by (unfold getp; change (procs mq) with (procs m); by rewrite Hr).
  rewrite Hg. cbn [obind]. rewrite Hw, Hst. cbn [nz Z.eqb negb orb]. rewrite bool_decide_eq_false_2 by naive_solver.
  set (r' := r <| p_rlink := false |>). eexists. split; [done|].
  set (m' := (setp mq p r') <| u_procp := p |>).
  assert (Hlk : forall q, procs m' !! q = if decide (p = q) then Some r' else procs m0 !! q).
  { intros q. cbn. destruct (decide (p = q)) as [<-|]; [by rewrite lookup_insert_eq|by rewrite lookup_insert_ne]. }
  assert (Hnd : NoDup (p :: l)) by (rewrite <- Eq; apply R2). apply NoDup_cons in Hnd as [Hpl Hnd].
  assert (Hoff : forall j, p ∉ Q j) by (intros j H; by apply (ok_on_self _ _ _ _ _ Ho Hr) in H as [H _]).
  split; [|split].
  - pose proof Ho as [H1 H2 _ H4 H5 H6]. split.
    + apply (sleepq_ext (setp m0 p r')); [done|done|]. by apply sleepq_setp_off.
    + intros j q. rewrite H2, Hlk. destruct (decide (p = q)) as [<-|]; [|done]. split; intros (r0 & E & H & _); exfalso; apply H.
      * change (procs m0) with (procs m) in E. congruence.
      * by injection E as <-.
    + split; change (qs m') with (fupd (qs m0) i l); [| |change (whichqs m') with (if bool_decide (l = []) then Z.clearbit (whichqs m0) i else whichqs m0)].
      * intros j q. rewrite Hlk. unfold fupd. destruct (decide (p = q)) as [<-|Hpq'].
        -- split; [|by intros (r0 & [= <-] & H & _)]. intros H. exfalso. destruct (Z.eqb_spec j i) as [Ej|Hj]; [done|].
           apply R1 in H as (r0 & E & _ & E2). apply Hj. change (procs m0) with (procs m) in E. congruence.
        -- rewrite <- R1. destruct (Z.eqb_spec j i) as [Ej|]; [|done]. rewrite Ej, Eq, elem_of_cons. split; [by right|intros [->|?]; done].
      * intros j. unfold fupd. by destruct (j =? i).
      * intros j Hj. unfold fupd. destruct (Z.eqb_spec j i) as [Ej|Hne]; [rewrite Ej in *|].
        -- destruct (decide (l = [])) as [El|El]; [rewrite !(bool_decide_eq_true_2 (l = [])) by done|rewrite !(bool_decide_eq_false_2 (l = [])) by done].
           ++ rewrite Z.clearbit_eqb by lia. rewrite Z.eqb_refl. cbn. apply andb_false_r.
           ++ rewrite R3 by done. by rewrite Eq.
        -- destruct (decide (l = [])) as [El|El]; [rewrite !(bool_decide_eq_true_2 (l = [])) by done|rewrite !(bool_decide_eq_false_2 (l = [])) by done; by apply R3].
           rewrite Z.clearbit_eqb by lia. rewrite (proj2 (Z.eqb_neq i j)) by done. cbn [negb]. rewrite andb_true_r. by apply R3.
    + intros q r0. rewrite Hlk. destruct (decide (p = q)) as [<-|]; [|apply H4]. intros [= <-]. by apply (H4 p r).
    + intros q r0 _ Hin. by apply elem_of_nil in Hin.
    + intros q r0. rewrite Hlk. change (cur m') with (Some p). destruct (decide (p = q)) as [<-|Hpq'].
      * intros [= <-] _. split; cbn; try done; try congruence.
      * intros E Hn. destruct (H6 q r0 E Hn) as [P1 P2 P3 P4]. change (cur m0) with (None (A := Z)) in *. assert (Some p <> Some q) by congruence. split; [|done| |].
        -- intros A. by destruct (P1 A) as (? & ? & ? & _).
        -- intros A. by destruct (P3 A) as [? _].
        -- intros A B _. by apply P4.
  - split; [|done|done]. cbn [noproc]. change (noproc m') with false. cbn iota. exists i, l, r. change (u_procp m') with p. split; [done|]. split; [|done].
    intros j Hj. apply Hempty. intros Hj0. apply Hbefore. lia.
  - intros _. exists r'. change (u_procp m') with p. split; [by rewrite Hlk; destruct (decide (p = p))|done].
Qed.
(** ** [remrq] *)

Lemma remrq_ok T m Q p r : ok T m Q -> procs m !! p = Some r -> p_rlink r = true -> p ∉ T ->
  exists m', remrq m p = Ok m' /\ ok (p :: T) m' Q /\ procs m' !! p = Some (r <| p_rlink := false |>) /\ frame m m' p.
Proof.
  intros Ho Hr Hrl HT. pose proof (ok_rq _ _ _ Ho) as [R1 R2 R3]. pose proof (pri_queue_range r (proj2 (ok_pos _ _ _ Ho p r Hr))) as Hi.
  set (i := pri_queue r) in *. assert (Hin : p ∈ qs m i) by (apply R1; by exists r).
  destruct (po_rlink _ _ _ (ok_proc _ _ _ Ho p r Hr HT) Hrl) as (Hst & Hld & Hw & Hc).
  unfold remrq, getp. rewrite Hr. cbn [deref obind]. fold i. rewrite R3 by lia.
  rewrite bool_decide_eq_false_2 by (intros E; rewrite E in Hin; by apply elem_of_nil in Hin). cbn [negb].
  set (l := base.filter (fun x => x <> p) (qs m i)). set (r' := r <| p_rlink := false |>).
  set (m1 := m <| qs := fupd (qs m) i l |> <| whichqs := _ |>). exists (setp m1 p r'). split; [done|].
  assert (Hlk : forall q, procs (setp m1 p r') !! q = if decide (p = q) then Some r' else procs m !! q).
  { intros q. cbn. destruct (decide (p = q)) as [<-|]; [by rewrite lookup_insert_eq|by rewrite lookup_insert_ne]. }
  assert (Hl : forall q, q ∈ l <-> q <> p /\ q ∈ qs m i) by (intros q; unfold l; by rewrite list_elem_of_filter).
  split; [|split; [by rewrite Hlk; destruct (decide (p = p))|eapply frame_trans; [|apply frame_setp]; by split]].
  destruct Ho as [H1 H2 _ H4 H5 H6]. split.
  - apply (sleepq_ext (setp m p r')); [done|done|]. by eapply sleepq_setp.
  - intros j q. rewrite H2, Hlk. destruct (decide (p = q)) as [<-|]; [|done]. rewrite Hr. split; intros (r0 & [= <-] & H); eexists; done.
  - split; change (qs (setp m1 p r')) with (fupd (qs m) i l);
      [| |change (whichqs (setp m1 p r')) with (if bool_decide (l = []) then Z.clearbit (whichqs m) i else whichqs m)].
    + intros j q. rewrite Hlk. unfold fupd. destruct (decide (p = q)) as [<-|Hpq].
      * split; [|by intros (r0 & [= <-] & H & _)]. intros H. exfalso. destruct (Z.eqb_spec j i) as [Ej|Hj]; [by apply Hl in H as [H _]|].
        apply R1 in H as (r0 & E & _ & E2). apply Hj. unfold i. congruence.
      * rewrite <- R1. destruct (Z.eqb_spec j i) as [Ej|]; [|done]. rewrite Hl, Ej. split; [by intros [_ ?]|done].
    + intros j. unfold fupd. destruct (j =? i); [|done]. by apply NoDup_filter.
    + intros j Hj. unfold fupd. destruct (Z.eqb_spec j i) as [Ej|Hne]; [rewrite Ej in *|].
      * destruct (decide (l = [])) as [El|El]; [rewrite !(bool_decide_eq_true_2 (l = [])) by done|rewrite !(bool_decide_eq_false_2 (l = [])) by done].
        -- rewrite Z.clearbit_eqb by lia. rewrite Z.eqb_refl. cbn. apply andb_false_r.
        -- rewrite R3 by done. rewrite bool_decide_eq_false_2; [done|]. intros E. rewrite E in Hin. by apply elem_of_nil in Hin.
      * destruct (decide (l = [])) as [El|El]; [rewrite !(bool_decide_eq_true_2 (l = [])) by done|rewrite !(bool_decide_eq_false_2 (l = [])) by done; by apply R3].
        rewrite Z.clearbit_eqb by lia. rewrite (proj2 (Z.eqb_neq i j)) by done. cbn [negb]. rewrite andb_true_r. by apply R3.
  - intros q r0. rewrite Hlk. destruct (decide (p = q)) as [<-|]; [|apply H4]. intros [= <-]. by apply (H4 p r).
  - intros q r0. rewrite Hlk. destruct (decide (p = q)) as [<-|]; [by intros [= <-]|]. intros E [->|Hq]%elem_of_cons; [done|]. by eapply H5.
  - intros q r0. rewrite Hlk. change (cur (setp m1 p r')) with (cur m). destruct (decide (p = q)) as [<-|].
    + intros _ Hn. exfalso. apply Hn. by left.
    + intros E [_ Hn]%not_elem_of_cons. by apply H6.
Qed.

(** ** [sleep] *)

(** The processor runs the process [u_procp], on no queue. *)
Definition cur_ok (m : machine) : Prop := noproc m = false ->
  exists r, procs m !! u_procp m = Some r /\ p_stat r = SRUN /\ p_wchan r = 0 /\ p_rlink r = false.

Definition good (m : machine) : Prop := (exists Q, ok [] m Q) /\ cur_ok m.

Lemma swtch_good m Q : ok [] (m <| noproc := true |>) Q -> exists m', swtch m = Ok m' /\ good m' /\ switched m m'.
Proof.
  intros Ho. destruct (swtch_ok m Q Ho) as (m' & E & Ho' & Hs & Hc). exists m'. split; [done|]. split; [|done]. split; [by exists Q|exact Hc].
Qed.

(** The process that runs leaves the processor. *)
Lemma ok_noproc m Q c : ok [c] m Q -> u_procp m = c -> ok [c] (m <| noproc := true |>) Q.
Proof.
  intros [H1 H2 [R1 R2 R3] H4 H5 H6] Hc. split; try done.
  - by apply (sleepq_ext m).
  - intros p r0 E Hn. change (cur (m <| noproc := true |>)) with (None (A := Z)).
    assert (Hne : p <> c) by (intros ->; apply Hn; by left).
    destruct (H6 p r0 E Hn) as [P1 P2 P3 P4].
    assert (cur m <> Some p) by (unfold cur; destruct (noproc m); congruence). split; [|done| |].
    + intros A. by destruct (P1 A) as (? & ? & ? & _).
    + intros A. by destruct (P3 A) as [? _].
    + intros A B _. by apply P4.
Qed.
Lemma ok_give_up m Q c r : ok [c] m Q -> u_procp m = c -> procs m !! c = Some r -> proc_ok None c r -> ok [] (m <| noproc := true |>) Q.
Proof. intros Ho Hc Hr Hp. eapply ok_leave; [by apply ok_noproc|exact Hr|done]. Qed.

(** A process, not on a run queue, with a new state; it leaves the processor. *)
Lemma leave_ok m Q c r r' : ok [c] m Q -> u_procp m = c -> procs m !! c = Some r ->
  p_link r' = p_link r -> p_rlink r' = false -> p_wchan r' = p_wchan r -> p_prio r' = p_prio r -> proc_ok None c r' ->
  exists m', swtch (setp m c r') = Ok m' /\ good m' /\ switched (setp m c r') m'.
Proof.
  intros Ho Hc Hr Hl Hrl Hw Hp Hok. apply (swtch_good _ Q). eapply ok_give_up.
  - eapply ok_modify; [exact Ho|exact Hr|done|done|done|]. rewrite Hp. by eapply (ok_pos _ _ _ Ho).
  - done.
  - cbn. by rewrite lookup_insert_eq.
  - done.
Qed.

Lemma sleep_enqueue_ok m Q chan pri : good m -> ok [] m Q -> noproc m = false -> chan <> 0 -> 0 <= pri <= 127 ->
  let c := u_procp m in
  exists m' r r', sleep_enqueue m chan pri = Ok m' /\ procs m !! c = Some r /\ ok [c] m' (fupd Q (HASH chan) (Q (HASH chan) ++ [c]))
    /\ procs m' !! c = Some r' /\ frame m m' c /\ (qs m' = qs m /\ p_slptime r' = 0 /\ p_pri (p_prio r') = pri)
    /\ p_wchan r' = chan /\ p_stat r' = SRUN /\ p_rlink r' = false /\ p_load r' = p_load r /\ p_kont r' = p_kont r.
Proof.
  intros [_ Hcur] Ho Hnp Hch Hpri c. destruct (Hcur Hnp) as (r & Hr & Hst & Hw & Hrl). fold c in Hr.
  unfold sleep_enqueue, getp. fold c. rewrite Hr. cbn [deref obind]. rewrite (proj2 (Z.eqb_neq chan 0)), Hst, Hrl by done.
  rewrite bool_decide_eq_false_2 by naive_solver. cbn [orb].
  set (r1 := r <| p_wchan := chan |> <| p_slptime := 0 |> <| p_prio := _ |>). set (m1 := setp m c r1).
  assert (Hoff : forall j, c ∉ Q j) by (intros j H; apply (ok_on_self _ _ _ _ _ Ho Hr) in H as [H _]; by rewrite Hw in H).
  assert (Hr1 : procs m1 !! c = Some r1) by (cbn; by rewrite lookup_insert_eq).
  destruct (enqueue_ok m1 Q (HASH chan) c r1) as (m2 & E & Hs2 & Hsame); [by eapply sleepq_setp; [done|done|apply Ho]|done| |done|].
  { destruct (ok_pos _ _ _ Ho c r Hr). lia. }
  rewrite E. destruct (same_lookup _ _ _ _ Hsame Hr1) as (r2 & Hr2 & Hc2). pose proof (core_fields _ _ Hc2) as [= A1 A2 A3 A4 A5 A6 A7].
  assert (Hf : frame m m2 c) by (eapply frame_trans; [apply frame_setp|by apply frame_same]).
  exists m2, r, r2. split; [done|]. split; [done|]. split; [|split; [done|split; [done|split]]].
  - destruct (ok_pos _ _ _ Ho c r Hr) as [_ (P1 & P2 & P3)]. destruct Hsame as [_ Hsame]. injection Hsame as E1 E2 _ _ _ _ _.
    eapply (ok_rebuild [] m m2 Q _ c r2); try done.
    + by eapply ok_enter.
    + by exists r.
    + rewrite A1. exact Hrl.
    + rewrite A2. unfold prio_ok. cbn. split; [|done]. unfold s8. rewrite Z.mod_small by lia. lia.
    + intros i q Hq. unfold fupd. destruct (Z.eqb_spec i (HASH chan)) as [->|]; [|done]. rewrite elem_of_app, list_elem_of_singleton. naive_solver.
    + intros i. unfold fupd. rewrite A6. cbn. destruct (Z.eqb_spec i (HASH chan)) as [->|Hne].
      * rewrite elem_of_app, list_elem_of_singleton. split; [done|auto].
      * split; [intros H; by apply Hoff in H|intros [_ H]; by destruct Hne].
  - destruct Hsame as [_ Hsame]. injection Hsame as E1 _ _ _ _ _ _. split; [exact E1|]. rewrite A2, A4. split; [done|]. cbn.
    unfold s8. rewrite Z.mod_small by lia. lia.
  - rewrite A6, A3, A1, A5, A7. done.
Qed.

Section Run.
Context (decay : Z -> Z) (RUNOUT : Z).
Abbreviation wakeup := (wakeup decay RUNOUT).
Abbreviation setrun := (setrun decay RUNOUT).
Abbreviation wakes := (wakes RUNOUT).

Lemma wakeup_ok m Q chan : ok [] m Q -> exists m' Q', wakeup m chan = Ok m' /\ ok [] m' Q' /\ wakes chan m m'.
Proof.
  intros Ho. apply (wakeup_from_ok decay RUNOUT (wakeup_fuel m) m Q chan [] (Q (HASH chan)) Ho eq_refl).
  - intros q r Hq. by apply elem_of_nil in Hq.
  - pose proof (chain_length _ _ _ (HASH chan) Ho). pose proof (sleepers_procs m). unfold wakeup_measure, wakeup_fuel. nia.
Qed.

(** [setrun] of [p]; [runout] is not looked at, or there is no process on the move. *)
Lemma setrun_ok T m Q p r : p ∉ T -> ok T m Q -> procs m !! p = Some r -> cur m <> Some p ->
  p_stat r = SSTOP \/ p_stat r = SSLEEP \/ p_stat r = SIDL -> p_load r = true \/ runout m = false \/ T = [] ->
  exists m1 m' Q' r', setrun m p = Ok m' /\ ok T m' Q' /\ frame m m1 p /\ procs m1 !! p = Some r'
    /\ p_wchan r' = 0 /\ p_stat r' = SRUN /\ p_rlink r' = p_load r /\ p_load r' = p_load r /\ p_kont r' = p_kont r /\ p_pri (p_prio r') = p_pri (p_prio r)
    /\ (frame m1 m' 0 /\ core <$> procs m' = core <$> procs m1 \/ T = [] /\ runout m = true /\ p_load r = false /\ wakes RUNOUT m1 m').
Proof.
  intros HT Ho Hr Hc Hst Hro. pose proof (ok_proc _ _ _ Ho p r Hr HT) as Hok.
  assert (Hrl : p_rlink r = false) by (destruct (p_rlink r) eqn:E; [destruct (po_rlink _ _ _ Hok E) as [? _]; naive_solver congruence|done]).
  pose proof (ok_enter _ _ _ _ _ Ho Hr Hrl) as Ho0.
  unfold Sched.setrun, getp. rewrite Hr. cbn [deref obind].
  assert (Hun : exists m1 r1 Q1, (match p_stat r with SSTOP | SSLEEP => unsleep m p | SIDL => Ok m | _ => Panic "setrun" end) = Ok m1
     /\ ok (p :: T) m1 Q1 /\ procs m1 !! p = Some r1 /\ core r1 = core (r <| p_wchan := 0 |>) /\ frame m m1 p).
  { destruct Hst as [Hst|[Hst|Hst]]; rewrite Hst.
    1,2: destruct (unsleep_ok _ _ _ _ _ Ho0 Hr) as (m1 & r1 & Q1 & ? & ? & ? & ? & ?); by exists m1, r1, Q1.
    exists m, r, Q. split; [done|]. split; [done|]. split; [done|]. split; [|apply frame_refl].
    assert (p_wchan r = 0) by (destruct (Z.eq_dec (p_wchan r) 0) as [|Hn]; [done|]; destruct (po_wchan _ _ _ Hok Hn); congruence).
    unfold core, set_field. cbn. congruence. }
  destruct Hun as (m1 & r1 & Q1 & -> & Ho1 & Hr1 & Hc1 & Hf1). cbn [obind]. apply core_fields in Hc1 as [= A1 A2 A3 A4 A5 A6 A7].
  destruct (wake_one_ok decay T m1 Q1 p r1 (fun r => r <| p_stat := SRUN |>) HT Ho1 Hr1 A6)
    as (mp & rp & m2 & r2 & E1 & E2 & E3 & E6 & E4 & Ho2 & Hr2 & Hf2 & B1 & B2 & B3 & B4 & B5 & B6 & B7); [by rewrite (frame_cur _ _ _ Hf1)|done|].
  cbn [p_prio] in E6. rewrite E1. cbn [obind]. unfold getp in E2. rewrite E2. cbn [obind]. rewrite E3, E4. cbn [obind].
  set (m3 := if _ <? _ then _ else m2).
  assert (H3 : ok T m3 Q1 /\ procs m3 = procs m2 /\ frame m2 m3 0 /\ runout m3 = runout m).
  { assert (Hro2 : runout m2 = runout m) by (destruct Hf2 as [_ (_ & _ & ->)]; apply Hf1).
    unfold m3. destruct (_ <? _); (split; [by try apply ok_sched|]); (split; [done|]); split; [by split|done|by split|done]. }
  destruct H3 as (Ho3 & P3 & F3 & R3). clearbody m3.
  exists m2. destruct (p_load r1) eqn:El.
  - exists m3, Q1, r2. split; [done|]. split; [done|]. split; [by eapply frame_trans|]. split_and!; try congruence. left. split; [done|by rewrite P3].
  - rewrite R3. destruct (runout m) eqn:Ero.
    + destruct Hro as [?|[?|HT0]]; [congruence|done|]. subst T.
      destruct (wakeup_ok (m3 <| runout := false |>) Q1 RUNOUT) as (m4 & Q4 & E5 & Ho4 & Hw4); [by apply ok_runout|]. rewrite E5. cbn [obind].
      eexists _, Q4, r2. split; [done|]. split; [by apply ok_wantin|]. split; [by eapply frame_trans|]. split_and!; try congruence. right. split; [done|]. split; [done|]. split; [congruence|].
      destruct Hw4 as [W1 W2 W3]. destruct F3 as [_ (F4 & F5 & F6)]. split; [|cbn in *; destruct W2; split; congruence|].
      * intros q. specialize (W1 q). cbn [procs] in *. rewrite <- P3. change (procs (m4 <| wantin := wantin m4 + 1 |>)) with (procs m4).
        change (procs (m3 <| runout := false |>)) with (procs m3) in W1.
        destruct (procs m3 !! q) as [r0|], (procs m4 !! q) as [r4|]; try done. eapply wk_mono; [|exact W1]. done.
      * intros _. rewrite <- F6, R3. done.
    + cbn [obind]. eexists _, Q1, r2. split; [done|]. split; [by apply ok_wantin|]. split; [by eapply frame_trans|]. split_and!; try congruence.
      left. cbn. split; [|by rewrite P3]. destruct F3 as [F3 F4]. by split.
Qed.


(** ** Signals *)

Abbreviation psignal_run := (psignal_run decay RUNOUT).
Abbreviation stop := (stop decay RUNOUT).
Abbreviation issig_stop := (issig_stop decay RUNOUT).

(** The other process can be made to run, and nobody is to be woken for want of core. *)
Definition can_run (m : machine) (p : Z) : Prop :=
  cur m <> Some p /\ exists r, procs m !! p = Some r /\ (p_stat r = SSTOP \/ p_stat r = SSLEEP \/ p_stat r = SIDL).
Definition run_quiet (m : machine) (p : Z) : Prop := forall r, procs m !! p = Some r -> p_load r = true \/ runout m = false.

Lemma psignal_run_ok T m Q p : p ∉ T -> ok T m Q -> can_run m p -> run_quiet m p \/ T = [] ->
  exists m' Q', psignal_run m p = Ok m' /\ ok T m' Q' /\ cur m' = cur m /\ u_procp m' = u_procp m
    /\ (run_quiet m p -> forall q r, q <> p -> procs m !! q = Some r -> exists r', procs m' !! q = Some r' /\ core r' = core r)
    /\ (forall q r, q <> p -> procs m !! q = Some r -> p_wchan r = 0 -> exists r', procs m' !! q = Some r' /\ core r' = core r).
Proof.
  intros HT Ho (Hc & r & Hr & Hst) Hq. unfold Sched.psignal_run, getp. rewrite Hr. cbn [deref obind].
  set (m0 := if _ <? _ then _ else m).
  assert (H0 : exists r0, ok T m0 Q /\ procs m0 !! p = Some r0 /\ p_stat r0 = p_stat r /\ p_load r0 = p_load r /\ frame m m0 p).
  { unfold m0. destruct (PUSER <? p_pri (p_prio r)).
    - set (r0 := r <| p_prio := _ |>). exists r0. destruct (ok_pos _ _ _ Ho p r Hr) as [Hp (P1 & P2 & P3)].
      pose proof (ok_proc _ _ _ Ho p r Hr HT) as Hok.
      assert (Hrl : p_rlink r = false) by (destruct (p_rlink r) eqn:E; [destruct (po_rlink _ _ _ Hok E) as [E0 _]; rewrite E0 in Hst; by destruct Hst as [|[|]]|done]).
      assert (Hlk : procs (setp m p r0) !! p = Some r0) by (cbn; by rewrite lookup_insert_eq).
      split; [|split; [done|split; [done|split; [done|apply frame_setp]]]].
      eapply ok_leave; [eapply ok_modify; [by eapply ok_enter|done|done|done|done|]|exact Hlk|].
      + unfold prio_ok. cbn. change PUSER with 50. lia.
      + change (cur (setp m p r0)) with (cur m). destruct Hok as [K1 K2 K3 K4]. by split.
    - exists r. split; [done|]. split; [done|]. split; [done|]. split; [done|apply frame_refl]. }
  destruct H0 as (r0 & Ho0 & Hr0 & S0 & L0 & F0). clearbody m0.
  assert (Hro : runout m0 = runout m) by apply F0.
  destruct (setrun_ok T m0 Q p r0 HT Ho0 Hr0) as (m1 & m' & Q' & r' & E & Ho' & Hf & _ & _ & _ & _ & _ & _ & _ & Hfin).
  { by rewrite (frame_cur _ _ _ F0). } { by rewrite S0. } { rewrite L0, Hro. destruct Hq as [Hq| ->]; [destruct (Hq r Hr); auto|auto]. }
  exists m', Q'. split; [done|]. split; [done|].
  assert (Hlook : forall q r, q <> p -> procs m !! q = Some r -> exists r1, procs m1 !! q = Some r1 /\ core r1 = core r).
  { intros q rq Hqp Hrq. by apply (frame_lookup m m1 p); [eapply frame_trans|..]. }
  assert (Hcm : cur m1 = cur m /\ u_procp m1 = u_procp m) by (split; [by rewrite (frame_cur _ _ _ Hf), (frame_cur _ _ _ F0)|destruct Hf as [_ (-> & _)]; apply F0]).
  destruct Hcm as [Hcm Hum]. destruct Hfin as [[Hf1 Hp1]|(-> & Hr1 & Hl1 & [W1 [W2 W2'] W3])].
  - split; [by rewrite (frame_cur _ _ _ Hf1)|]. split; [destruct Hf1 as [_ (-> & _)]; done|].
    assert (Hall : forall q r, q <> p -> procs m !! q = Some r -> exists r', procs m' !! q = Some r' /\ core r' = core r).
    { intros q rq Hqp Hrq. destruct (Hlook q rq Hqp Hrq) as (r1 & Hr1 & Hc1). pose proof (f_equal (fun ps => ps !! q) Hp1) as Hx.
      cbn in Hx. rewrite !lookup_fmap, Hr1 in Hx. destruct (procs m' !! q) as [r2|]; [|done]. exists r2. split; [done|].
      apply (inj Some) in Hx. congruence. }
    split; [by intros _|]. intros q rq Hqp Hrq _. by apply Hall.
  - split; [unfold cur in *; by rewrite W2, W2'|]. split; [congruence|]. split.
    + intros Hq2. exfalso. destruct (Hq2 r Hr); congruence.
    + intros q rq Hqp Hrq Hw. destruct (Hlook q rq Hqp Hrq) as (r1 & Hrq1 & Hc1). specialize (W1 q). rewrite Hrq1 in W1.
      destruct (procs m' !! q) as [r2|]; [|done]. exists r2. split; [done|]. apply core_fields in Hc1 as Hf1. injection Hf1 as _ _ _ _ _ Ew _.
      rewrite <- Hc1. eapply wk_awake; [|exact W1]. congruence.
Qed.

Lemma not_in_one (p c : Z) : p <> c -> p ∉ [c].
Proof. by intros H ->%list_elem_of_singleton. Qed.

(** [stop] of a process on no run queue. *)
Lemma stop_ok m Q p r pptr : ok [p] m Q -> procs m !! p = Some r ->
  exists m' Q' r', stop m p pptr = Ok m' /\ ok [] m' Q' /\ cur m' = cur m /\ u_procp m' = u_procp m
    /\ procs m' !! p = Some r' /\ p_stat r' = SSTOP
    /\ forall q rq, q <> p -> procs m !! q = Some rq -> p_wchan rq = 0 -> core <$> procs m' !! q = Some (core rq).
Proof.
  intros Ho Hr. unfold Sched.stop, getp. rewrite Hr. cbn [deref obind]. set (r1 := r <| p_stat := SSTOP |>).
  assert (Hrl : p_rlink r = false) by (apply (ok_transit _ _ _ Ho p r Hr); by left).
  assert (Hlk : procs (setp m p r1) !! p = Some r1) by (cbn; by rewrite lookup_insert_eq).
  assert (Ho1 : ok [] (setp m p r1) Q).
  { eapply ok_leave; [eapply ok_modify; [exact Ho|done|done|done|done|exact (proj2 (ok_pos _ _ _ Ho _ _ Hr))]|exact Hlk|].
    split; cbn; try done; try congruence. intros _. by right. }
  destruct (wakeup_ok _ _ pptr Ho1) as (m' & Q' & E & Ho' & [W0 [W2 W3] _]). pose proof (W0 p) as W1. rewrite Hlk in W1.
  destruct (procs m' !! p) as [r'|] eqn:E'; [|done]. exists m', Q', r'. split; [done|]. split; [done|].
  split; [unfold cur; by rewrite W2, W3|]. split; [done|]. split; [done|]. split.
  2:{ intros q rq Hq E1 Hw. specialize (W0 q). cbn in W0. rewrite lookup_insert_ne, E1 in W0 by done.
      destruct (procs m' !! q); [|done]. cbn. f_equal. by eapply wk_awake. }
  destruct W1 as [[_ Hk]|[[_ Hk]|(_ & _ & Hk)]]; [by rewrite (wk_stat _ _ Hk), bool_decide_eq_false_2| |by rewrite (wk_stat _ _ Hk), bool_decide_eq_false_2].
  pose proof (f_equal p_stat Hk) as Hk2. exact Hk2.
Qed.

(** What [issig] may do to the parent. *)
Definition sig_ok (m : machine) (sig : issig) : Prop :=
  match sig with SigStop pptr true => can_run m pptr /\ run_quiet m pptr | _ => True end.

Lemma cur_give_up c m Q r : ok [] m Q -> cur m = Some c -> procs m !! c = Some r -> p_stat r = SSTOP \/ p_stat r = SZOMB ->
  ok [] (m <| noproc := true |>) Q.
Proof.
  intros Ho Hc Hr Hst. pose proof (ok_proc _ _ _ Ho c r Hr ltac:(by apply not_elem_of_nil)) as [P1 P2 P3 P4].
  assert (Hrl : p_rlink r = false) by (destruct (p_rlink r); [destruct (P1 eq_refl) as [E _]; rewrite E in Hst; by destruct Hst|done]).
  apply (ok_give_up m Q c r); [by eapply ok_enter| |done|].
  - unfold cur in Hc. destruct (noproc m); [done|]. by injection Hc.
  - split; [by rewrite Hrl|done| |]; intros E; rewrite E in Hst; by destruct Hst.
Qed.

Lemma issig_stop_ok m Q c r pptr runs k : ok [c] m Q -> cur m = Some c -> u_procp m = c -> procs m !! c = Some r -> p_rlink r = false ->
  sig_ok m (SigStop pptr runs) -> exists m', issig_stop m pptr runs k = Ok m' /\ good m'.
Proof.
  intros Ho Hc Hu Hr Hrl Hsig. unfold Sched.issig_stop. rewrite Hu.
  assert (H1 : exists m1 Q1 r1, (if runs then psignal_run m pptr else Ok m) = Ok m1 /\ ok [c] m1 Q1 /\ cur m1 = Some c /\ u_procp m1 = c
     /\ procs m1 !! c = Some r1 /\ core r1 = core r).
  { destruct runs; [|by exists m, Q, r]. destruct Hsig as [Hrun Hq]. assert (Hne : pptr <> c) by (intros ->; by destruct Hrun).
    destruct (psignal_run_ok [c] m Q pptr (not_in_one _ _ Hne) Ho Hrun (or_introl Hq)) as (m1 & Q1 & E & Ho1 & Hc1 & Hu1 & Hall & _).
    destruct (Hall Hq c r) as (r1 & Hr1 & Hcore); [done|done|]. exists m1, Q1, r1. split; [done|]. split; [done|]. split; [congruence|]. split; [congruence|done]. }
  destruct H1 as (m1 & Q1 & r1 & -> & Ho1 & Hc1 & Hu1 & Hr1 & Hcore). cbn [obind]. apply core_fields in Hcore as [= A1 A2 _ _ _ A6 _].
  unfold getp. rewrite Hr1. cbn [deref obind]. set (r2 := r1 <| p_kont := k |>).
  assert (Ho2 : ok [c] (setp m1 c r2) Q1).
  { eapply ok_modify; [exact Ho1|done|done|cbn; congruence|done|exact (proj2 (ok_pos _ _ _ Ho1 _ _ Hr1))]. }
  destruct (stop_ok _ _ c r2 pptr Ho2) as (m3 & Q3 & r3 & -> & Ho3 & Hc3 & Hu3 & Hr3 & Hst & _); [cbn; by rewrite lookup_insert_eq|]. cbn [obind].
  destruct (swtch_good m3 Q3) as (m4 & E4 & Hg & _); [|by exists m4].
  eapply (cur_give_up c); [done|rewrite Hc3; exact Hc1|done|by left].
Qed.

Lemma sleep_out_ok m Q c r b : ok [c] m Q -> cur m = Some c -> u_procp m = c -> procs m !! c = Some r -> p_rlink r = false ->
  p_wchan r = 0 -> p_stat r = SRUN -> exists m', sleep_out m b = Ok m' /\ good m'.
Proof.
  intros Ho Hc Hu Hr Hrl Hw Hst. unfold sleep_out, getp. rewrite Hu, Hr. cbn [deref obind]. set (r1 := r <| p_kont := KOther |>).
  assert (Hlk : procs (setp m c r1) !! c = Some r1) by (cbn; by rewrite lookup_insert_eq).
  assert (Ho1 : ok [] (setp m c r1) Q).
  { eapply ok_leave; [eapply ok_modify; [exact Ho|done|done|done|done|exact (proj2 (ok_pos _ _ _ Ho _ _ Hr))]|exact Hlk|].
    change (cur (setp m c r1)) with (cur m). split; cbn; try congruence. }
  assert (Hcur : cur_ok (setp m c r1)) by (intros _; change (u_procp (setp m c r1)) with (u_procp m); rewrite Hu; by exists r1).
  eexists. split; [done|]. destruct b; [|split; [by exists Q|done]].
  split; [exists Q; by apply ok_sched|]. exact Hcur.
Qed.

Lemma sleep_issig_ok m Q c r sig : ok [c] m Q -> cur m = Some c -> u_procp m = c -> procs m !! c = Some r -> p_rlink r = false ->
  p_stat r = SRUN -> sig_ok m sig -> exists m', sleep_issig decay RUNOUT m sig = Ok m' /\ good m'.
Proof.
  intros Ho Hc Hu Hr Hrl Hst Hsig. unfold sleep_issig. rewrite Hu. destruct sig as [| |pptr runs].
  - unfold getp. rewrite Hr. cbn [deref obind]. destruct (Z.eqb_spec (p_wchan r) 0); [by eapply sleep_out_ok|].
    unfold sleep_swtch, getp. rewrite Hu, Hr. cbn [deref obind].
    destruct (leave_ok m Q c r (r <| p_stat := SSLEEP |> <| p_kont := KSwtch true |>) Ho Hu Hr) as (m' & E & Hg & _); try done; [|by exists m'].
    split; cbn; try done; try congruence. intros _. by left.
  - unfold getp. rewrite Hr. cbn [deref obind].
    assert (H1 : exists m1 Q1 r1, (if nz (p_wchan r) then unsleep m c else Ok m) = Ok m1 /\ ok [c] m1 Q1 /\ procs m1 !! c = Some r1
       /\ p_rlink r1 = false /\ p_wchan r1 = 0 /\ p_stat r1 = SRUN /\ cur m1 = Some c /\ u_procp m1 = c).
    { destruct (nz (p_wchan r)) eqn:En.
      - destruct (unsleep_ok _ _ _ _ _ Ho Hr) as (m1 & r1 & Q1 & E & Ho1 & Hr1 & Hcore & Hf). exists m1, Q1, r1.
        apply core_fields in Hcore as [= A1 _ A3 _ _ A6 _]. cbn in *. pose proof (frame_cur _ _ _ Hf). destruct Hf as [_ (F & _)]. split_and!; try done; congruence.
      - exists m, Q, r. unfold nz in En. apply negb_false_iff, Z.eqb_eq in En. done. }
    destruct H1 as (m1 & Q1 & r1 & -> & Ho1 & Hr1 & B1 & B2 & B3 & B4 & B5). cbn [obind]. unfold getp. rewrite Hr1. cbn [deref obind].
    set (r2 := r1 <| p_stat := SRUN |>). eapply (sleep_out_ok (setp m1 c r2) Q1 c r2 false); try done.
    + eapply ok_modify; [exact Ho1|done|done|done|done|exact (proj2 (ok_pos _ _ _ Ho1 _ _ Hr1))].
    + cbn. by rewrite lookup_insert_eq.
  - by eapply issig_stop_ok.
Qed.

(** ** Actions *)

(** What the process that runs does, and what interrupts and other processes do to it. *)
Inductive action :=
  | ASleep (chan pri : Z) (sig : issig)
  | AResume (sig : issig)
  | AWakeup (chan : Z)
  | ARun (p : Z)
  | AStop (p pptr : Z)
  | ACont (p : Z)
  | AUnsleep (p : Z)
  | APreempt
  | AIdle
  | AExit (pptr : Z) (runs : bool)
  | ANew (p : Z) (pp : prio)
  | ASchedcpu (allproc : list Z) (lbolt runin pager : Z) (wake_runin wake_pager : bool).

Definition act (m : machine) (a : action) : outcome machine :=
  match a with
  | ASleep chan pri sig => sleep decay RUNOUT m chan pri sig
  | AResume sig => resume decay RUNOUT m sig
  | AWakeup chan => wakeup m chan
  | ARun p => psignal_run m p
  | AStop p pptr => stop m p pptr
  | ACont p => psignal_cont m p
  | AUnsleep p => unsleep m p
  | APreempt => preempt m
  | AIdle => swtch m
  | AExit pptr runs => exit_swtch decay RUNOUT m pptr runs
  | ANew p pp => Ok (setp m p (Proc 0 false pp SIDL 0 true 0 KOther))
  | ASchedcpu l lbolt runin pager b b' => schedcpu decay RUNOUT m l lbolt runin pager b b'
  end.

Definition in_state (m : machine) (p : Z) (P : proc -> Prop) : Prop := exists r, procs m !! p = Some r /\ P r.

(** When each can happen. *)
Definition allowed (m : machine) (a : action) : Prop :=
  match a with
  | ASleep chan pri sig => noproc m = false /\ chan <> 0 /\ 0 <= pri <= 127 /\ sig_ok m sig
  | AResume sig => noproc m = false /\ sig_ok m sig
  | AWakeup _ => True
  | ARun p => can_run m p
  | AStop p _ => in_state m p (fun r => p_stat r = SSLEEP)
  | ACont p => cur m <> Some p /\ in_state m p (fun r => p_stat r = SSTOP /\ p_wchan r <> 0)
  | AUnsleep p => in_state m p (fun r => p_stat r = SSTOP)
  | APreempt => noproc m = false /\ in_state m (u_procp m) (fun r => p_load r = true)
  | AIdle => noproc m = true
  | AExit pptr runs => noproc m = false /\ (runs = true -> can_run m pptr)
  | ANew p pp => procs m !! p = None /\ 0 < p /\ prio_ok pp
  | ASchedcpu l _ _ _ _ _ => Forall (fun p => is_Some (procs m !! p)) l
  end.

(** ** Each action *)

Lemma cur_of m : noproc m = false -> cur m = Some (u_procp m).
Proof. intros H. unfold cur. by rewrite H. Qed.
Lemma noproc_id m : noproc m = true -> m <| noproc := true |> = m.
Proof. destruct m. cbn. by intros ->. Qed.

Lemma cur_ok_keep m m' : cur_ok m -> u_procp m' = u_procp m -> noproc m' = noproc m ->
  (forall r, noproc m = false -> procs m !! u_procp m = Some r -> p_wchan r = 0 -> core <$> procs m' !! u_procp m = Some (core r)) -> cur_ok m'.
Proof.
  intros Hc Hu Hn H Hn'. rewrite Hn in Hn'. destruct (Hc Hn') as (r & Hr & H1 & H2 & H3). specialize (H r Hn' Hr H2). rewrite Hu.
  destruct (procs m' !! u_procp m) as [r'|]; [|done]. exists r'. split; [done|]. apply (inj Some) in H.
  apply core_fields in H as [= A1 _ A3 _ _ A6 _]. split_and!; congruence.
Qed.

Lemma sig_ok_frame m m1 c sig : frame m m1 c -> cur m = Some c -> sig_ok m sig -> sig_ok m1 sig.
Proof.
  intros Hf Hc. destruct sig as [| |pptr []]; try done. intros [[H1 (r & Hr & Hst)] H2]. rewrite Hc in H1.
  destruct (frame_lookup _ _ _ pptr r Hf) as (r1 & Hr1 & Hcore); [congruence|done|]. apply core_fields in Hcore as [= _ _ A3 _ A5 _ _].
  split; [split; [rewrite (frame_cur _ _ _ Hf); congruence|exists r1; by rewrite A3]|].
  intros r2 E. assert (r2 = r1) as -> by congruence. rewrite A5. destruct Hf as [_ (_ & _ & ->)]. by apply H2.
Qed.

Lemma act_sleep m chan pri sig : good m -> allowed m (ASleep chan pri sig) -> exists m', act m (ASleep chan pri sig) = Ok m' /\ good m'.
Proof.
  intros Hg (Hn & Hch & Hpri & Hsig). pose proof Hg as [[Q Ho] _].
  destruct (sleep_enqueue_ok m Q chan pri Hg Ho Hn Hch Hpri) as (m1 & r & r1 & E & Hr & Ho1 & Hr1 & Hf & _ & B1 & B2 & B3 & B4 & B5).
  cbn [act]. unfold sleep. rewrite E. cbn [obind].
  assert (Hc1 : cur m1 = Some (u_procp m)) by (rewrite (frame_cur _ _ _ Hf); by apply cur_of).
  assert (Hu1 : u_procp m1 = u_procp m) by apply Hf.
  destruct (PZERO <? pri).
  - eapply sleep_issig_ok; try done. eapply sig_ok_frame; [exact Hf|by apply cur_of|done].
  - unfold sleep_swtch, getp. rewrite Hu1, Hr1. cbn [deref obind].
    destruct (leave_ok m1 _ (u_procp m) r1 (r1 <| p_stat := SSLEEP |> <| p_kont := KSwtch false |>) Ho1 Hu1 Hr1) as (m' & E' & Hg' & _); try done; [|by exists m'].
    split; cbn; try done; try congruence; intros _; [by left|split; congruence].
Qed.

Lemma act_resume m sig : good m -> allowed m (AResume sig) -> exists m', act m (AResume sig) = Ok m' /\ good m'.
Proof.
  intros [[Q Ho] Hc] (Hn & Hsig). destruct (Hc Hn) as (r & Hr & H1 & H2 & H3). cbn [act]. unfold resume, getp. rewrite Hr. cbn [deref obind].
  pose proof (ok_enter _ _ _ _ _ Ho Hr H3) as Ho1. pose proof (cur_of m Hn) as Hcur.
  assert (Hout : forall b, exists m', sleep_out m b = Ok m' /\ good m') by (intros b; by eapply sleep_out_ok).
  assert (Hwoken : exists m', sleep_woken decay RUNOUT m sig = Ok m' /\ good m').
  { unfold sleep_woken. destruct sig as [| |pptr runs]; [apply Hout|apply Hout|]. by eapply issig_stop_ok. }
  destruct (p_kont r) as [| |[]|]; [|by eapply sleep_issig_ok|exact Hwoken|apply Hout|exact Hwoken].
  exists m. split; [done|]. split; [by exists Q|done].
Qed.

Lemma act_wakeup m chan : good m -> exists m', act m (AWakeup chan) = Ok m' /\ good m'.
Proof.
  intros [[Q Ho] Hc]. destruct (wakeup_ok m Q chan Ho) as (m' & Q' & E & Ho' & [W1 [W2 W3] _]). exists m'. split; [done|]. split; [by exists Q'|].
  apply (cur_ok_keep m); [done|done|done|]. intros r _ Hr Hw. specialize (W1 (u_procp m)). rewrite Hr in W1.
  destruct (procs m' !! u_procp m); [|done]. cbn. f_equal. by eapply wk_awake.
Qed.

Lemma act_run m p : good m -> allowed m (ARun p) -> exists m', act m (ARun p) = Ok m' /\ good m'.
Proof.
  intros [[Q Ho] Hc] Hrun. destruct (psignal_run_ok [] m Q p) as (m' & Q' & E & Ho' & Hcur & Hu & _ & Hall); [by apply not_elem_of_nil|done|done|by right|].
  exists m'. split; [done|]. split; [by exists Q'|]. assert (Hn : noproc m' = noproc m) by (unfold cur in Hcur; destruct (noproc m), (noproc m'); congruence).
  apply (cur_ok_keep m); [done|done|done|]. intros r Hn0 Hr Hw. destruct Hrun as [Hne _]. rewrite cur_of in Hne by done.
  destruct (Hall (u_procp m) r) as (r' & -> & Hcore); [congruence|done|done|]. cbn. by f_equal.
Qed.

Lemma act_stop m p pptr : good m -> allowed m (AStop p pptr) -> exists m', act m (AStop p pptr) = Ok m' /\ good m'.
Proof.
  intros [[Q Ho] Hc] (r & Hr & Hst). pose proof (ok_proc _ _ _ Ho p r Hr ltac:(by apply not_elem_of_nil)) as [P1 P2 P3 P4].
  assert (Hrl : p_rlink r = false) by (destruct (p_rlink r); [destruct (P1 eq_refl); congruence|done]).
  destruct (stop_ok m Q p r pptr) as (m' & Q' & r' & E & Ho' & Hcur & Hu & _ & _ & Hall); [by eapply ok_enter|done|].
  exists m'. split; [done|]. split; [by exists Q'|]. assert (Hn : noproc m' = noproc m) by (unfold cur in Hcur; destruct (noproc m), (noproc m'); congruence).
  apply (cur_ok_keep m); [done|done|done|]. intros r0 Hn0 Hr0 Hw. apply Hall; [|done|done]. destruct (P3 Hst) as [_ Hne]. rewrite cur_of in Hne by done. congruence.
Qed.

Lemma act_unsleep m p : good m -> allowed m (AUnsleep p) -> exists m', act m (AUnsleep p) = Ok m' /\ good m'.
Proof.
  intros [[Q Ho] Hc] (r & Hr & Hst). pose proof (ok_proc _ _ _ Ho p r Hr ltac:(by apply not_elem_of_nil)) as [P1 P2 P3 P4].
  assert (Hrl : p_rlink r = false) by (destruct (p_rlink r); [destruct (P1 eq_refl); congruence|done]).
  destruct (unsleep_ok [] m Q p r) as (m' & r' & Q' & E & Ho' & Hr' & Hcore & Hf); [by eapply ok_enter|done|].
  exists m'. split; [done|]. apply core_fields in Hcore as [= A1 _ A3 _ A5 A6 _]. cbn in A1, A3, A5, A6. split.
  - exists Q'. eapply ok_leave; [exact Ho'|exact Hr'|]. split; try congruence.
  - apply (cur_ok_keep m); [done|apply Hf|apply Hf|]. intros r0 Hn0 Hr0 Hw. destruct (Hc Hn0) as (rc & Hrc & Hs & _).
    rewrite (fr_procs _ _ _ Hf) by congruence. by rewrite Hr0.
Qed.

Lemma act_cont m p : good m -> allowed m (ACont p) -> exists m', act m (ACont p) = Ok m' /\ good m'.
Proof.
  intros [[Q Ho] Hc] (Hne & r & Hr & Hst & Hw). pose proof (ok_proc _ _ _ Ho p r Hr ltac:(by apply not_elem_of_nil)) as [P1 P2 P3 P4].
  assert (Hrl : p_rlink r = false) by (destruct (p_rlink r); [destruct (P1 eq_refl); congruence|done]).
  cbn [act]. unfold psignal_cont, getp. rewrite Hr. cbn [deref obind]. set (r' := r <| p_stat := SSLEEP |>). eexists. split; [done|].
  assert (Hlk : procs (setp m p r') !! p = Some r') by (cbn; by rewrite lookup_insert_eq). split.
  - exists Q. eapply ok_leave; [eapply ok_modify; [by eapply ok_enter|done|done|done|done|exact (proj2 (ok_pos _ _ _ Ho _ _ Hr))]|exact Hlk|].
    change (cur (setp m p r')) with (cur m). split; cbn; try done; try congruence. intros _. by left.
  - apply (cur_ok_keep m); [done|done|done|]. intros r0 Hn0 Hr0 _. rewrite cur_of in Hne by done. cbn. rewrite lookup_insert_ne by congruence. by rewrite Hr0.
Qed.

Lemma act_idle m : good m -> allowed m AIdle -> exists m', act m AIdle = Ok m' /\ good m'.
Proof.
  intros [[Q Ho] Hc] Hn. destruct (swtch_good m Q) as (m' & E & Hg & _); [by rewrite noproc_id|]. by exists m'.
Qed.

Lemma act_preempt m : good m -> allowed m APreempt -> exists m', act m APreempt = Ok m' /\ good m'.
Proof.
  intros [[Q Ho] Hc] (Hn & r & Hr & Hld). destruct (Hc Hn) as (r0 & Hr0 & H1 & H2 & H3). assert (r0 = r) as -> by congruence.
  cbn [act]. unfold preempt, getp. rewrite Hr. cbn [deref obind]. set (c := u_procp m) in *. set (r1 := r <| p_prio := _ |>).
  assert (Hlk : procs (setp m c r1) !! c = Some r1) by (cbn; by rewrite lookup_insert_eq).
  destruct (ok_pos _ _ _ Ho c r Hr) as [_ (P1 & P2 & P3)].
  assert (Ho1 : ok [c] ((setp m c r1) <| noproc := true |>) Q).
  { apply ok_noproc; [|done]. eapply ok_modify; [by eapply ok_enter|done|done|done|done|by unfold prio_ok]. }
  destruct (setrq_ok [] ((setp m c r1) <| noproc := true |>) Q c r1 ltac:(by apply not_elem_of_nil) Ho1 Hlk) as (m2 & r2 & E & Ho2 & _); [done|done|done|done|].
  revert E. unfold setrq, getp. change (procs ((setp m c r1) <| noproc := true |>)) with (procs (setp m c r1)). rewrite Hlk. cbn [deref obind].
  change (p_rlink r1) with (p_rlink r). rewrite H3. intros [= E].
  destruct (swtch_good (((setp (setp m c r1) c (r1 <| p_rlink := true |> <| p_link := -1 |>)) <| qs := fupd (qs m) (pri_queue r1) (qs m (pri_queue r1) ++ [c]) |>)
     <| whichqs := Z.setbit (whichqs m) (pri_queue r1) |>) Q) as (m' & E' & Hg & _).
  - rewrite <- E in Ho2. exact Ho2.
  - exists m'. split; [exact E'|done].
Qed.

Lemma act_exit m pptr runs : good m -> allowed m (AExit pptr runs) -> exists m', act m (AExit pptr runs) = Ok m' /\ good m'.
Proof.
  intros [[Q Ho] Hc] (Hn & Hrun). destruct (Hc Hn) as (r & Hr & H1 & H2 & H3). cbn [act]. unfold exit_swtch, getp. rewrite Hr. cbn [deref obind].
  set (c := u_procp m) in *. set (r1 := r <| p_stat := SZOMB |>). set (m1 := (setp m c r1) <| noproc := true |>).
  assert (Ho1 : ok [] m1 Q).
  { apply (ok_give_up (setp m c r1) Q c r1).
    - eapply ok_modify; [by eapply ok_enter|done|done|done|done|exact (proj2 (ok_pos _ _ _ Ho _ _ Hr))].
    - done.
    - cbn. by rewrite lookup_insert_eq.
    - split; cbn; try done; congruence. }
  assert (Hps : exists m2 Q2, (if runs then psignal_run m1 pptr else Ok m1) = Ok m2 /\ ok [] m2 Q2 /\ cur m2 = None).
  { destruct runs; [|by exists m1, Q]. destruct (Hrun eq_refl) as [Hne (rp & Hrp & Hst)]. rewrite cur_of in Hne by done. fold c in Hne.
    destruct (psignal_run_ok [] m1 Q pptr) as (m2 & Q2 & E & Ho2 & Hcur & _); [by apply not_elem_of_nil|done| |by right|by exists m2, Q2].
    split; [done|]. exists rp. split; [|done]. cbn. rewrite lookup_insert_ne by congruence. done. }
  destruct Hps as (m2 & Q2 & -> & Ho2 & Hc2). cbn [obind].
  destruct (wakeup_ok m2 Q2 pptr Ho2) as (m3 & Q3 & -> & Ho3 & [_ [_ W3] _]). cbn [obind].
  destruct (swtch_good m3 Q3) as (m4 & E & Hg & _); [|by exists m4]. rewrite noproc_id; [done|]. rewrite W3. unfold cur in Hc2. by destruct (noproc m2).
Qed.

Lemma act_new m p pp : good m -> allowed m (ANew p pp) -> exists m', act m (ANew p pp) = Ok m' /\ good m'.
Proof.
  intros [[Q Ho] Hc] (Hp & Hpos & Hpp). eexists. split; [done|]. set (r' := Proc 0 false pp SIDL 0 true 0 KOther).
  assert (Hlk : forall q, procs (setp m p r') !! q = if decide (p = q) then Some r' else procs m !! q).
  { intros q. cbn. destruct (decide (p = q)) as [<-|]; [by rewrite lookup_insert_eq|by rewrite lookup_insert_ne]. }
  split.
  - exists Q. pose proof Ho as [H1 H2 [R1 R2 R3] H4 H5 H6]. split.
    + apply sleepq_setp_off; [|done]. intros i H. apply H2 in H as (r & E & _). congruence.
    + intros i q. rewrite H2, Hlk. destruct (decide (p = q)) as [<-|]; [|done]. split; intros (r & E & H & _); exfalso; [congruence|by injection E as <-].
    + split; [|done|done]. intros j q. change (qs (setp m p r')) with (qs m). rewrite R1, Hlk. destruct (decide (p = q)) as [<-|]; [|done].
      split; intros (r & E & H & _); exfalso; [congruence|by injection E as <-].
    + intros q r. rewrite Hlk. destruct (decide (p = q)) as [<-|]; [|apply H4]. by intros [= <-].
    + intros q r _ H. by apply elem_of_nil in H.
    + intros q r. rewrite Hlk. destruct (decide (p = q)) as [<-|]; [|apply H6]. intros [= <-] _. by split.
  - apply (cur_ok_keep m); [done|done|done|]. intros r _ Hr _. rewrite Hlk. destruct (decide (p = u_procp m)); [congruence|by rewrite Hr].
Qed.

Lemma getp_ok m p r : procs m !! p = Some r -> getp m p = Ok r.
Proof. intros H. unfold getp. by rewrite H. Qed.

(** [schedcpu] looks at one process. *)
Lemma schedcpu_proc_ok m p : good m -> is_Some (procs m !! p) ->
  exists m', schedcpu_proc decay m p = Ok m' /\ good m' /\ forall q, is_Some (procs m !! q) -> is_Some (procs m' !! q).
Proof.
  intros [[Q Ho] Hc] [r Hr]. unfold schedcpu_proc. rewrite (getp_ok _ _ _ Hr). cbn [obind].
  set (r1 := if _ && _ then _ else r).
  assert (Hr1 : (p_link r1, p_rlink r1, p_stat r1, p_load r1, p_wchan r1) = (p_link r, p_rlink r, p_stat r, p_load r, p_wchan r) /\ p_prio r1 = p_prio r)
    by (unfold r1; by destruct (_ && _)).
  destruct Hr1 as [Hr1 Hr1p]. clearbody r1. destruct (ok_pos _ _ _ Ho p r Hr) as [Hpos Hpp].
  assert (Hkeep : forall m' Q' r', ok [] m' Q' -> frame m m' p -> procs m' !! p = Some r' ->
    (p = u_procp m -> noproc m = false -> (p_rlink r', p_stat r', p_wchan r') = (p_rlink r, p_stat r, p_wchan r)) ->
    good m' /\ forall q, is_Some (procs m !! q) -> is_Some (procs m' !! q)).
  { intros m' Q' r' Ho' Hf Hr' Hsame. split.
    - split; [by exists Q'|]. destruct Hf as [Hf (F1 & F2 & _)]. intros Hn. rewrite F2 in Hn. destruct (Hc Hn) as (rc & Hrc & C1 & C2 & C3). rewrite F1.
      destruct (decide (u_procp m = p)) as [Ep|Ep].
      + rewrite Ep in *. pose proof (Hsame eq_refl Hn) as [= X1 X2 X3]. exists r'. assert (rc = r) as -> by congruence. split_and!; congruence.
      + specialize (Hf _ Ep). rewrite Hrc in Hf. destruct (procs m' !! u_procp m) as [r2|]; [|done]. apply (inj Some) in Hf.
        apply core_fields in Hf as [= A1 _ A3 _ _ A6 _]. exists r2. split_and!; congruence.
    - intros q [rq Hq]. destruct (decide (q = p)) as [->|Hne]; [by exists r'|].
      destruct (frame_lookup _ _ _ _ _ Hf Hne Hq) as (r2 & Hr2 & _). by exists r2. }
  assert (Hlk : forall m r', procs (setp m p r') !! p = Some r') by (intros; cbn; by rewrite lookup_insert_eq).
  assert (Ho1 : ok [] (setp m p r1) Q) by (eapply ok_adjust; [exact Ho|exact Hr|unfold pri_queue; by rewrite Hr1p|by rewrite Hr1p|done]).
  destruct (1 <? p_slptime r1).
  { eexists. split; [done|]. eapply Hkeep; [exact Ho1|apply frame_setp|apply Hlk|]. intros _ _. congruence. }
  set (c := s8 _). destruct (setpri_ok ((p_prio r1) <| p_cpu := c |>) (m_sched (setp m p r1))) as [S1 S2]; [rewrite Hr1p; exact Hpp|].
  destruct (setpri ((p_prio r1) <| p_cpu := c |>) (m_sched (setp m p r1))) as [pp k]. cbn [fst] in S1, S2.
  assert (S3 : p_pri pp = p_pri (p_prio r)) by (rewrite S2; cbn; by rewrite Hr1p).
  set (r2 := r1 <| p_prio := pp |>). set (m2 := (setp (setp m p r1) p r2) <| m_sched := k |>).
  assert (Ho2 : ok [] m2 Q).
  { apply ok_sched. eapply ok_adjust; [exact Ho1|apply Hlk|unfold pri_queue; cbn; by rewrite S3, Hr1p|done|done]. }
  assert (Hf2 : frame m m2 p) by (eapply frame_trans; [apply frame_setp|eapply frame_trans; [apply frame_setp|by split]]).
  assert (Hr2 : procs m2 !! p = Some r2) by apply (Hlk (setp m p r1)).
  destruct (PUSER <=? p_pri pp).
  2:{ exists m2. split; [done|]. eapply Hkeep; [exact Ho2|exact Hf2|exact Hr2|]. intros _ _. cbn. congruence. }
  destruct ((negb (p =? u_procp m2) || noproc m2) && bool_decide (p_stat r2 = SRUN) && p_load r2 && negb (p_pri pp / PPQ =? p_usrpri pp / PPQ)) eqn:Eb.
  - apply andb_true_iff in Eb as [Eb _]. apply andb_true_iff in Eb as [Eb Eld]. apply andb_true_iff in Eb as [Eb Est]. apply bool_decide_eq_true in Est.
    assert (Hcur : cur m2 <> Some p).
    { unfold cur. destruct (noproc m2); [done|]. rewrite orb_false_r in Eb. apply negb_true_iff, Z.eqb_neq in Eb. congruence. }
    pose proof (ok_proc _ _ _ Ho2 p r2 Hr2 ltac:(by apply not_elem_of_nil)) as Hok.
    destruct (remrq_ok [] m2 Q p r2 Ho2 Hr2 (po_run _ _ _ Hok Est Eld Hcur) ltac:(by apply not_elem_of_nil)) as (m3 & -> & Ho3 & Hr3 & Hf3).
    cbn [obind]. rewrite (getp_ok _ _ _ Hr3). cbn [obind]. set (r3 := _ <| p_prio := _ |>).
    assert (Ho4 : ok [p] (setp m3 p r3) Q).
    { eapply ok_modify; [exact Ho3|exact Hr3|done|done|done|]. destruct S1 as (T1 & T2 & T3). unfold prio_ok. cbn. done. }
    destruct (po_rlink _ _ _ Hok (po_run _ _ _ Hok Est Eld Hcur)) as (_ & _ & Hw & _).
    destruct (setrq_ok [] (setp m3 p r3) Q p r3) as (m4 & r4 & E4 & Ho5 & Hr4 & _ & Hf4 & _); [by apply not_elem_of_nil|done|apply Hlk|done|done|done| |].
    { change (cur (setp m3 p r3)) with (cur m3). by rewrite (frame_cur _ _ _ Hf3). }
    exists m4. split; [exact E4|]. eapply Hkeep; [exact Ho5| |exact Hr4|].
    + eapply frame_trans; [exact Hf2|]. eapply frame_trans; [exact Hf3|]. eapply frame_trans; [apply frame_setp|exact Hf4].
    + intros Hp Hn. exfalso. apply Hcur. rewrite (frame_cur _ _ _ Hf2), cur_of by done. by rewrite Hp.
  - eexists. split; [done|]. eapply (Hkeep _ Q); [|eapply frame_trans; [exact Hf2|apply frame_setp]|apply Hlk|intros _ _; cbn; congruence].
    destruct S1 as (T1 & T2 & T3). set (r3 := _ <| p_prio := _ |>).
    pose proof (ok_proc _ _ _ Ho2 p r2 Hr2 ltac:(by apply not_elem_of_nil)) as Hok. destruct (p_rlink r2) eqn:Erl.
    + destruct (po_rlink _ _ _ Hok Erl) as (Hst & Hld & _ & Hcur).
      eapply ok_adjust; [exact Ho2|exact Hr2| |unfold prio_ok; done|done]. unfold pri_queue. cbn. unfold u8. rewrite !Z.mod_small by lia.
      rewrite (bool_decide_eq_true_2 _ Hst), Hld, !andb_true_r in Eb. change PPQ with 4 in Eb.
      assert (Hx : negb (p =? u_procp m2) || noproc m2 = true).
      { unfold cur in Hcur. destruct (noproc m2); [by rewrite orb_true_r|]. rewrite orb_false_r. apply negb_true_iff, Z.eqb_neq. congruence. }
      rewrite Hx in Eb. cbn in Eb. apply negb_false_iff, Z.eqb_eq in Eb. done.
    + eapply ok_leave; [eapply ok_modify; [by eapply ok_enter|exact Hr2|done|exact Erl|done|unfold prio_ok; done]|apply Hlk|].
      change (cur (setp m2 p r3)) with (cur m2). destruct Hok as [K1 K2 K3 K4]. by split.
Qed.

Lemma schedcpu_loop_ok l : forall m, good m -> Forall (fun p => is_Some (procs m !! p)) l ->
  exists m', schedcpu_loop decay m l = Ok m' /\ good m'.
Proof.
  induction l as [|p l IH]; intros m Hg Hl; [by exists m|]. apply Forall_cons in Hl as [Hp Hl]. cbn [schedcpu_loop].
  destruct (schedcpu_proc_ok m p Hg Hp) as (m1 & -> & Hg1 & Hk). cbn [obind]. apply IH; [done|]. eapply Forall_impl; [exact Hl|]. done.
Qed.

Lemma act_schedcpu m l lbolt runin pager b b' : good m -> allowed m (ASchedcpu l lbolt runin pager b b') ->
  exists m', act m (ASchedcpu l lbolt runin pager b b') = Ok m' /\ good m'.
Proof.
  intros Hg Hl. cbn [act]. unfold schedcpu.
  assert (Hl1 : exists m1, wakeup m lbolt = Ok m1 /\ good m1 /\ Forall (fun p => is_Some (procs m1 !! p)) l).
  { destruct (act_wakeup m lbolt Hg) as (m1 & E & Hg1). exists m1. split; [exact E|]. split; [done|]. destruct Hg as [[Q Ho] _].
    destruct (wakeup_ok m Q lbolt Ho) as (m' & Q' & E' & _ & [W _ _]). cbn [act] in E. assert (m' = m1) as -> by congruence.
    eapply Forall_impl; [exact Hl|]. intros p [r Hr]. specialize (W p). rewrite Hr in W. by destruct (procs m1 !! p). }
  destruct Hl1 as (m1 & -> & Hg1 & Hl1). cbn [obind]. destruct (schedcpu_loop_ok l m1 Hg1 Hl1) as (m2 & -> & Hg2). cbn [obind].
  assert (Hw : forall (c : bool) m ch, good m -> exists m', (if c then wakeup m ch else Ok m) = Ok m' /\ good m').
  { intros [] m0 ch H0; [by apply act_wakeup|by exists m0]. }
  destruct (Hw b m2 runin Hg2) as (m3 & -> & Hg3). cbn [obind]. by apply Hw.
Qed.

Lemma act_good m a : good m -> allowed m a -> exists m', act m a = Ok m' /\ good m'.
Proof.
  intros Hg Ha. destruct a; [by apply act_sleep|by apply act_resume|by apply act_wakeup|by apply act_run|by apply act_stop|by apply act_cont
    |by apply act_unsleep|by apply act_preempt|by apply act_idle|by apply act_exit|by apply act_new|by apply act_schedcpu].
Qed.
End Run.
