(* ===== verification/SchedSpec.v ===== *)
(** * What the scheduler promises

    Every machine that processes and interrupts can lead to from the start of the first
    process; [sleep] and [wakeup] in any of them; and the panic that a signal can cause. *)
From S2P Require Import Prelude Sched SchedQ SchedInv SchedRun.

(** The first process, alone. *)
Definition boot (p : Z) (pp : prio) (k : sched) : machine :=
  Machine {[p := Proc 0 false pp SRUN 0 true 0 KOther]} (fun _ => Slpq 0 (PHead 0)) (fun _ => []) 0 p false k false 0.

Section Reach.
Context (decay : Z -> Z) (RUNOUT : Z).

Inductive reach (m0 : machine) : machine -> Prop :=
  | reach_start : reach m0 m0
  | reach_act m a m' : reach m0 m -> allowed m a -> act decay RUNOUT m a = Ok m' -> reach m0 m'.

Lemma boot_good p pp k : 0 < p -> prio_ok pp -> good (boot p pp k).
Proof.
  intros Hp Hpp. set (r := Proc 0 false pp SRUN 0 true 0 KOther).
  assert (Hlk : forall q r', procs (boot p pp k) !! q = Some r' -> q = p /\ r' = r) by (intros q r' H; cbn in H; apply lookup_singleton_Some in H as [E1 E2]; by rewrite <- E1, <- E2).
  split.
  - exists (fun _ => []). split.
    + split; cbn; try done; try (intros; by constructor).
      * intros i l q E. by destruct l.
      * intros i j q H. by apply elem_of_nil in H.
    + intros i q. split; [intros H; by apply elem_of_nil in H|]. by intros (r' & [-> ->]%Hlk & H & _).
    + split; cbn; [|intros; constructor|intros; by rewrite Z.bits_0].
      intros j q. split; [intros H; by apply elem_of_nil in H|]. by intros (r' & [-> ->]%Hlk & H & _).
    + by intros q r' [-> ->]%Hlk.
    + intros q r' _ H. by apply elem_of_nil in H.
    + intros q r' [-> ->]%Hlk _. split; cbn; try done; congruence.
  - intros _. exists r. split; [|done]. cbn. by rewrite lookup_singleton_eq.
Qed.

Lemma reach_good m0 m : good m0 -> reach m0 m -> good m.
Proof.
  intros H0. induction 1 as [|m a m' _ IH Ha E]; [done|]. destruct (act_good decay RUNOUT m a IH Ha) as (m1 & E1 & Hg).
  by rewrite E1 in E; injection E as <-.
Qed.

(** The processes on the chain of a sleep queue, in order. *)
Definition chain (m : machine) (i : Z) (l : list Z) : Prop := lseg (procs m) (sq_head (slpque m i)) l.

Lemma chain_of T m Q i l : ok T m Q -> chain m i l <-> l = Q i.
Proof.
  intros Ho. pose proof (sq_chain _ _ (ok_sq _ _ _ Ho) i) as Hc. unfold chain. split; [|by intros ->]. revert Hc. generalize (sq_head (slpque m i)), (Q i).
  induction l as [|p l IH]; intros x l'.
  - intros H1 H2. cbn in H2. subst x. destruct l'; [done|]. destruct H1 as (E & H & _). congruence.
  - destruct l' as [|p' l']; [intros H1 (-> & H & _); cbn in H1; congruence|].
    intros (-> & _ & y & E & H) (-> & _ & y' & E' & H'). rewrite E in E'. injection E' as <-. f_equal. by apply (IH y).
Qed.
Lemma chain_ex T m Q i : ok T m Q -> chain m i (Q i).
Proof. intros Ho. by eapply chain_of. Qed.

(** ** Claims *)

(** C16: no process is lost.  From the start of the first process, let processes sleep, with
    or without signals pending, stop, go on, be preempted, exit and be made, and let
    wakeups, signals and [schedcpu] come between, in any order.  Every one of these actions, when it
    can happen, returns, with no panic and no pointer out of the table; a stop in [sleep] that
    signals a parent which is swapped out, while [runout] is waited for in the same
    queue, is not among them (see [SchedSample.issig_panics]).  In every state
    the process that runs is on no queue; a process that could run and is in core is on the
    run queue of its priority and no other; a process that sleeps waits for a channel,
    and is on the chain of that channel and no other. *)
Theorem scheduler_loses_no_process p0 pp k m : 0 < p0 -> prio_ok pp -> reach (boot p0 pp k) m ->
  (forall a, allowed m a -> exists m', act decay RUNOUT m a = Ok m')
  /\ forall p r, procs m !! p = Some r ->
    (noproc m = false -> p = u_procp m -> p_stat r = SRUN /\ (forall j, p ∉ qs m j) /\ forall i l, chain m i l -> p ∉ l)
    /\ (p_stat r = SRUN -> p_load r = true -> noproc m = true \/ p <> u_procp m -> forall j, p ∈ qs m j <-> j = pri_queue r)
    /\ (p_stat r = SSLEEP -> p_wchan r <> 0 /\ (forall j, p ∉ qs m j) /\ forall i, (exists l, chain m i l /\ p ∈ l) <-> i = HASH (p_wchan r)).
Proof.
  intros Hp Hpp Hr. apply reach_good in Hr as Hg; [|by apply boot_good]. split.
  { intros a Ha. destruct (act_good decay RUNOUT m a Hg Ha) as (m' & E & _). by exists m'. }
  destruct Hg as [[Q Ho] Hc]. intros p r E. pose proof (ok_proc _ _ _ Ho p r E ltac:(by apply not_elem_of_nil)) as [P1 P2 P3 P4].
  assert (Hin : forall j, p ∈ qs m j <-> p_rlink r = true /\ pri_queue r = j).
  { intros j. rewrite (rq_in _ (ok_rq _ _ _ Ho)). split; [intros (r' & E' & H); by simplify_eq|by exists r]. }
  pose proof (ok_on_self _ _ _ _ _ Ho E) as Hon. split; [|split].
  - intros Hn ->. destruct (Hc Hn) as (r' & E' & H1 & H2 & H3). assert (r' = r) as -> by congruence. split; [done|]. split.
    + intros j [H _]%Hin. congruence.
    + intros i l ->%(chain_of _ _ _ _ _ Ho) [H _]%Hon. done.
  - intros H1 H2 H3 j. rewrite Hin. rewrite P4; [naive_solver|done|done|]. unfold cur. destruct (noproc m); [done|]. destruct H3; congruence.
  - intros H1. destruct (P3 H1) as [H2 _]. split; [done|]. split.
    + intros j [H _]%Hin. destruct (P1 H); congruence.
    + intros i. split; [intros (l & ->%(chain_of _ _ _ _ _ Ho) & [_ H]%Hon); done|]. intros ->. exists (Q (HASH (p_wchan r))).
      split; [by eapply chain_ex|by apply Hon].
Qed.

(** C17: [wakeup], in any state that can come about.  Every process that waits for the channel
    no longer waits, and those of them that slept can run, and are on a run queue if they
    are in core; a stopped one stays stopped.  Any other process, and the chains of
    those that still wait, are as they were; but if [runout] was set, those that wait on it
    may be awake too. *)
Theorem wakeup_correct p0 pp k m chan : 0 < p0 -> prio_ok pp -> reach (boot p0 pp k) m ->
  exists m', wakeup decay RUNOUT m chan = Ok m' /\ good m' /\
    forall p r, procs m !! p = Some r -> exists r', procs m' !! p = Some r' /\
      if decide (waits chan r) then
        p_wchan r' = 0 /\ p_stat r' = (if decide (p_stat r = SSLEEP) then SRUN else p_stat r) /\ p_slptime r' = 0
        /\ p_kont r' = p_kont r /\ (forall i l, chain m' i l -> p ∉ l)
        /\ (p_stat r = SSLEEP -> p_load r = true -> p ∈ qs m' (pri_queue r'))
      else core r' = core r \/ runout m = true /\ waits RUNOUT r /\ woke r r'.
Proof.
  intros Hp Hpp Hr. apply reach_good in Hr as [[Q Ho] Hc]; [|by apply boot_good].
  destruct (act_wakeup decay RUNOUT m chan) as (m1 & E1 & Hg1); [by split; [exists Q|]|].
  destruct (wakeup_ok decay RUNOUT m Q chan Ho) as (m' & Q' & E & Ho' & [W _ _]). cbn [act] in E1. assert (m1 = m') as -> by congruence.
  exists m'. split; [done|]. split; [done|]. intros p r Er. specialize (W p). rewrite Er in W. destruct (procs m' !! p) as [r'|] eqn:Er'; [|done].
  exists r'. split; [done|]. destruct (decide (waits chan r)) as [Hw|Hw].
  - assert (Hk : woke r r') by (destruct W as [[_ Hk]|[[Hn _]|(_ & _ & Hk)]]; done). destruct Hk as [K1 K2 K3 K4 K5 K6 K7].
    split; [done|]. split; [rewrite K3; case_bool_decide; by case_decide|]. split; [done|]. split; [done|]. split.
    + intros i l ->%(chain_of _ _ _ _ _ Ho'). intros H. apply (ok_on_self _ _ _ _ _ Ho' Er') in H as [H _]. done.
    + intros Hs Hl. apply (rq_in _ (ok_rq _ _ _ Ho')). exists r'. split; [done|]. split; [|done]. by rewrite K4, bool_decide_eq_true_2, Hl.
  - destruct W as [[Hn _]|[[_ H]|H]]; [done|by left|by right].
Qed.

(** C18: [sleep], without a signal, of the process that runs, in any state that can come
    about.  It is asleep, last on the chain of its channel, with the priority it asked
    for; the processor goes to the first process of the best run queue, which is then on
    none, and idles only when they are all empty. *)
Theorem sleep_correct p0 pp k m chan pri : 0 < p0 -> prio_ok pp -> reach (boot p0 pp k) m ->
  noproc m = false -> chan <> 0 -> 0 <= pri <= 127 ->
  exists m' l r, sleep decay RUNOUT m chan pri SigNone = Ok m' /\ good m'
    /\ chain m (HASH chan) l /\ chain m' (HASH chan) (l ++ [u_procp m])
    /\ procs m' !! u_procp m = Some r /\ p_stat r = SSLEEP /\ p_wchan r = chan /\ p_slptime r = 0 /\ p_pri (p_prio r) = pri
    /\ p_kont r = KSwtch (PZERO <? pri)
    /\ if noproc m' then forall i, qs m i = []
       else exists i l', qs m i = u_procp m' :: l' /\ (forall j, j < i -> qs m j = []) /\ qs m' = fupd (qs m) i l'.
Proof.
  intros Hp Hpp Hr Hn Hch Hpri. apply reach_good in Hr as Hg; [|by apply boot_good]. pose proof Hg as [[Q Ho] Hcur].
  set (c := u_procp m). destruct (sleep_enqueue_ok m Q chan pri Hg Ho Hn Hch Hpri) as (m1 & r & r1 & E & Er & Ho1 & Er1 & Hf & (Hq1 & Ht1 & Hp1) & B1 & B2 & B3 & B4 & B5).
  assert (Hu1 : u_procp m1 = c) by apply Hf. fold c in Er, Er1.
  assert (Hsl : exists m', sleep decay RUNOUT m chan pri SigNone = Ok m' /\ good m'
     /\ switched (setp m1 c (r1 <| p_stat := SSLEEP |> <| p_kont := KSwtch (PZERO <? pri) |>)) m').
  { unfold sleep. rewrite E. cbn [obind].
    destruct (leave_ok m1 _ c r1 (r1 <| p_stat := SSLEEP |> <| p_kont := KSwtch (PZERO <? pri) |>) Ho1 Hu1 Er1) as (m' & E' & Hg' & Hs); try done.
    { split; cbn; try done; try congruence; intros _; [by left|split; congruence]. }
    exists m'. split; [|done]. rewrite <- E'. destruct (PZERO <? pri).
    - unfold sleep_issig, getp. rewrite Hu1, Er1. cbn [deref obind]. rewrite B1, (proj2 (Z.eqb_neq chan 0)) by done.
      unfold sleep_swtch, getp. by rewrite Hu1, Er1.
    - unfold sleep_swtch, getp. by rewrite Hu1, Er1. }
  destruct Hsl as (m' & Es & Hg' & [S1 S2 S3]). set (r2 := r1 <| p_stat := SSLEEP |> <| p_kont := KSwtch (PZERO <? pri) |>) in *.
  set (m2 := setp m1 c r2) in *.
  assert (Er2 : procs m2 !! c = Some r2) by (cbn; by rewrite lookup_insert_eq).
  assert (Hpr : procs m' !! c = Some r2 /\ forall q, nlink (procs m') q = nlink (procs m2) q).
  { destruct (noproc m'); [destruct S1 as [_ ->]; done|]. destruct S1 as (i & l' & rp & Hq & _ & Erp & Hprocs & _).
    assert (Hne : u_procp m' <> c).
    { intros Hu. assert (Hin : c ∈ qs m1 i) by (change (qs m1) with (qs m2); rewrite Hq, Hu; by left).
      apply (rq_in _ (ok_rq _ _ _ Ho1)) in Hin as (r3 & Er3 & H3 & _). congruence. }
    rewrite Hprocs. split; [by rewrite lookup_insert_ne|]. intros q. unfold nlink. destruct (decide (q = u_procp m')) as [->|Hq'].
    - by rewrite lookup_insert_eq, Erp.
    - by rewrite lookup_insert_ne by done. }
  destruct Hpr as [Hpr Hlinks].
  exists m', (Q (HASH chan)), r2. split; [done|]. split; [done|]. split; [by eapply chain_ex|]. split; [|split; [done|]].
  - unfold chain. rewrite S3. apply (lseg_ext (procs m2)); [intros q _; apply Hlinks|]. change (slpque m2) with (slpque m1).
    apply (lseg_ext (procs m1)).
    + intros q _. unfold m2. rewrite nlink_setp. destruct (decide (c = q)) as [<-|]; [|done]. unfold nlink. by rewrite Er1.
    + pose proof (chain_ex _ _ _ (HASH chan) Ho1) as H. unfold fupd in H. by rewrite Z.eqb_refl in H.
  - split; [done|]. split; [done|]. split; [done|]. split; [done|]. split; [done|]. change (qs m2) with (qs m1) in S1. rewrite Hq1 in S1.
    destruct (noproc m'); [apply S1|]. destruct S1 as (i & l' & rp & Hq & Hj & _ & _ & Hqs). by exists i, l'.
Qed.
End Reach.

(** Two processes, and the address 8000 of [runout]. *)
Module SchedSample.
Definition halve (a : Z) : Z := a / 2.
Definition pp : prio := Prio 0 0 50 50 10 20.
Definition m0 : machine := boot 1 pp (Sched 50 0 100 10).
Definition next (m : machine) (a : action) : machine := match act halve 8000 m a with Ok m' => m' | _ => m end.

Lemma reach_next m a : reach halve 8000 m0 m -> allowed m a -> is_ok (act halve 8000 m a) = true -> reach halve 8000 m0 (next m a).
Proof.
  intros Hr Ha He. unfold next. destruct (act halve 8000 m a) as [m'| |] eqn:E; [|done|done]. by eapply reach_act.
Qed.

Definition m1 : machine := next (next m0 (ANew 2 pp)) (ARun 2).
Definition m2 : machine := next m1 (ASleep 4096 30 SigNone).
Definition m3 : machine := next m2 (ASleep 4096 20 SigNone).

Lemma pp_ok : prio_ok pp.
Proof. vm_compute. repeat split; discriminate. Qed.
Lemma reach_m1 : reach halve 8000 m0 m1.
Proof.
  apply reach_next; [apply reach_next; [apply reach_start| |by vm_compute]| |by vm_compute].
  - split; [by vm_compute|]. split; [done|apply pp_ok].
  - split; [by vm_compute|]. eexists. split; [by vm_compute|]. right; right. by vm_compute.
Qed.
Lemma reach_m3 : reach halve 8000 m0 m3.
Proof.
  apply reach_next; [apply reach_next; [apply reach_m1| |by vm_compute]| |by vm_compute].
  - split; [by vm_compute|]. done.
  - split; [by vm_compute|]. done.
Qed.

(** Asleep, each is on the chain of the channel alone. *)
Lemma scheduler_loses_no_process_witness : exists r, procs m3 !! 2 = Some r /\
  p_stat r = SSLEEP /\ (forall j, 2 ∉ qs m3 j) /\ forall i, (exists l, chain m3 i l /\ 2 ∈ l) <-> i = HASH 4096.
Proof.
  destruct (scheduler_loses_no_process halve 8000 1 pp (Sched 50 0 100 10) m3 ltac:(done) pp_ok reach_m3) as [_ H].
  eexists. split; [vm_compute; reflexivity|]. destruct (H 2 _ ltac:(vm_compute; reflexivity)) as (_ & _ & H3).
  destruct (H3 eq_refl) as (_ & H4 & H5). split; [reflexivity|]. split; [exact H4|exact H5].
Defined.

(** It wakes both. *)
Lemma wakeup_correct_witness : exists m', wakeup halve 8000 m3 4096 = Ok m' /\
  forall p r, procs m3 !! p = Some r -> waits 4096 r -> exists r', procs m' !! p = Some r' /\ p_wchan r' = 0.
Proof.
  destruct (wakeup_correct halve 8000 1 pp (Sched 50 0 100 10) m3 4096 ltac:(done) pp_ok reach_m3) as (m' & E & _ & H).
  exists m'. split; [exact E|]. intros p r Hr Hw. destruct (H p r Hr) as (r' & Hr' & K). exists r'. split; [exact Hr'|].
  destruct (decide (waits 4096 r)) as [_|n]; [exact (proj1 K)|by destruct n].
Defined.

Lemma sleep_correct_witness : exists m' l r, sleep halve 8000 m1 4096 30 SigNone = Ok m'
    /\ chain m1 (HASH 4096) l /\ chain m' (HASH 4096) (l ++ [1]) /\ procs m' !! 1 = Some r /\ p_stat r = SSLEEP.
Proof.
  destruct (sleep_correct halve 8000 1 pp (Sched 50 0 100 10) m1 4096 30 ltac:(done) pp_ok reach_m1)
    as (m' & l & r & H1 & _ & H2 & H3 & H4 & H5 & _); [by vm_compute|done|done|].
  exists m', l, r. split; [exact H1|]. split; [exact H2|]. split; [exact H3|]. split; [exact H4|exact H5].
Defined.

(** A process that stops in [sleep] signals its parent before it is marked stopped: it is
    on a chain, and runs.  When the parent is swapped out and [runout] is waited for in the
    same queue, [wakeup] finds it there and panics. *)
Definition stopping : machine :=
  Machine {[1 := Proc 0 false pp SRUN 0 true 0 KOther; 2 := Proc 0 false pp SSLEEP 0 false 4096 (KSwtch true)]}
    (fun i => if i =? HASH 4096 then Slpq 2 (PLink 2) else Slpq 0 (PHead 0)) (fun _ => []) 0 1 false (Sched 50 0 100 10) true 0.

Lemma issig_panics : sleep halve 8000 stopping 10048 30 (SigStop 2 true) = Panic "wakeup"
  /\ is_ok (sleep halve 8000 stopping 10080 30 (SigStop 2 true)) = true.
Proof. split; by vm_compute. Qed.
End SchedSample.
