(* ===== verification/Hardclock.v ===== *)
(** * The clock interrupt: [sys/sys/kern_clock.c]

    What a tick does, [hardclock] and [gatherstats] and the end of [softclock], for the
    process that runs: its times, its virtual timers, its limits and its priority, the
    time of day, and the queue of callouts (Callout.v).  Of [psignal] only the signal it
    posts is kept; it is the running process that gets it.  [aston] and the profile of
    the kernel itself are left out.  Times are as in KernTime.v. *)
From S2P Require Import Prelude Callout KernTime Sched.

Inductive signal := SIGVTALRM | SIGXCPU | SIGPROF.
#[export] Instance signal_eq_dec : EqDecision signal.
Proof. solve_decision. Defined.

Definition NZERO : Z := 0.
Definition CP_USER : Z := 0.
Definition CP_NICE : Z := 1.
Definition CP_SYS : Z := 2.
Definition CP_IDLE : Z := 3.
Definition DK_NDRIVE : Z := 4.

(** The running process: of [u] and of [*u.u_procp]. *)
Record running := Running {
  ru_utime : timeval; ru_stime : timeval; ru_idrss : Z; ru_ixrss : Z; ru_maxrss : Z;
  u_virtual : itimerval; u_prof_timer : itimerval;
  rlim_cur : Z; rlim_max : Z; pr_scale : Z;
  r_prio : prio; p_textp : option Z; p_cpticks : Z; p_uid : Z; p_oweupc : bool;
  p_sigs : list signal
}.
#[export] Instance settable_running : Settable running := fun r =>
  Running (ru_utime r) (ru_stime r) (ru_idrss r) (ru_ixrss r) (ru_maxrss r) (u_virtual r) (u_prof_timer r)
    (rlim_cur r) (rlim_max r) (pr_scale r) (r_prio r) (p_textp r) (p_cpticks r) (p_uid r) (p_oweupc r) (p_sigs r).

(** The time of day and the correction that is being applied. *)
Record tod := Tod { t_time : timeval; t_timedelta : Z; t_tickdelta : Z }.
Record stats := Stats { cp_time : list Z; dk_time : list Z; dk_busy : Z }.
#[export] Instance settable_stats : Settable stats := fun s => Stats (cp_time s) (dk_time s) (dk_busy s).

Record clock := Clock {
  h_run : running; h_noproc : bool; h_sched : sched; h_tod : tod; phz : Z; h_stats : stats; h_co : callouts
}.

(** ** Steps of [hardclock] *)

Definition BUMPTIME (t : timeval) (usec : Z) : timeval :=
  let t := t <| tv_usec := s32 (tv_usec t + usec) |> in
  if 1000000 <=? tv_usec t then Timeval (s32 (tv_sec t + 1)) (tv_usec t - 1000000) else t.

Definition psignal (r : running) (s : signal) : running := r <| p_sigs := p_sigs r ++ [s] |>.

(** The mode the processor is in, and [needsoft]. *)
Definition charge_mode (r : running) (noproc usermode : bool) : running * bool :=
  if usermode then
    let needsoft := nz (pr_scale r) in
    let r := r <| ru_utime := BUMPTIME (ru_utime r) tick |> in
    if timerisset (it_value (u_virtual r)) then
      let (itp, e) := itimerdecr (u_virtual r) tick in
      let r := r <| u_virtual := itp |> in
      (if e =? 0 then psignal r SIGVTALRM else r, needsoft)
    else (r, needsoft)
  else (if noproc then r else r <| ru_stime := BUMPTIME (ru_stime r) tick |>, false).

Definition charge_limit (r : running) : running :=
  if rlim_cur r <? s32 (tv_sec (ru_utime r) + tv_sec (ru_stime r) + 1) then
    let r := psignal r SIGXCPU in
    if rlim_cur r <? rlim_max r then r <| rlim_cur := s32 (rlim_cur r + 5) |> else r
  else r.

Definition charge_prof (r : running) : running :=
  if timerisset (it_value (u_prof_timer r)) then
    let (itp, e) := itimerdecr (u_prof_timer r) tick in
    let r := r <| u_prof_timer := itp |> in
    if e =? 0 then psignal r SIGPROF else r
  else r.

Definition charge_memory (r : running) : running :=
  let s := p_rssize (r_prio r) in
  let r := r <| ru_idrss := s32 (ru_idrss r + s) |> in
  let '(r, s) :=
    match p_textp r with
    | Some xrss => (r <| ru_ixrss := s32 (ru_ixrss r + xrss) |>, s32 (s + xrss))
    | None => (r, s)
    end in
  if ru_maxrss r <? s then r <| ru_maxrss := s |> else r.

(** [setpri] is that of Sched.v. *)
Definition charge_cpu (r : running) (k : sched) : running * sched :=
  let c := s8 (p_cpu (r_prio r) + 1) in
  let pp := (r_prio r) <| p_cpu := if c =? 0 then s8 (c - 1) else c |> in
  let '(pp, k) :=
    if Z.land (p_cpu pp) 3 =? 0 then
      let (pp, k) := setpri pp k in
      (if PUSER <=? p_pri pp then pp <| p_pri := p_usrpri pp |> else pp, k)
    else (pp, k) in
  (r <| p_cpticks := s16 (p_cpticks r + 1) |> <| r_prio := pp |>, k).

(** A step takes [timedelta] towards zero and past it by less than [tickdelta]: no wrap. *)
Definition tick_tod (c : tod) : tod :=
  if t_timedelta c =? 0 then Tod (BUMPTIME (t_time c) tick) (t_timedelta c) (t_tickdelta c)
  else if t_timedelta c <? 0 then Tod (BUMPTIME (t_time c) (tick - t_tickdelta c)) (t_timedelta c + t_tickdelta c) (t_tickdelta c)
  else Tod (BUMPTIME (t_time c) (tick + t_tickdelta c)) (t_timedelta c - t_tickdelta c) (t_tickdelta c).

Fixpoint gather_drives (n : nat) (s : Z) (st : stats) : outcome stats :=
  match n with
  | O => Ok st
  | S n =>
      let* st := if nz (Z.land (dk_busy st) (Z.shiftl 1 s))
                 then let* l := aupd (dk_time st) s (fun x => s32 (x + 1)) in Ok (st <| dk_time := l |>) else Ok st in
      gather_drives n (s + 1) st
  end.
Definition gatherstats (c : clock) (usermode basepri : bool) : outcome stats :=
  let cpstate :=
    if usermode then if NZERO <? p_nice (r_prio (h_run c)) then CP_NICE else CP_USER
    else if h_noproc c && basepri then CP_IDLE else CP_SYS in
  let* l := aupd (cp_time (h_stats c)) cpstate (fun x => s32 (x + 1)) in
  gather_drives (Z.to_nat DK_NDRIVE) 0 ((h_stats c) <| cp_time := l |>).

(** What becomes of [softclock]: nothing, a call now, a software interrupt. *)
Inductive soft := SoftNone | SoftNow | SoftLater.

Definition hardclock (c : clock) (usermode basepri : bool) : outcome (clock * soft) :=
  let (l, needsoft) := hardclock_calls (calltodo (h_co c)) in
  let co := Callouts l (callfree (h_co c)) in
  let (r, prof) := charge_mode (h_run c) (h_noproc c) usermode in
  let r := if h_noproc c then r else charge_memory (charge_prof (charge_limit r)) in
  let (r, k) := if h_noproc c then (r, h_sched c) else charge_cpu r (h_sched c) in
  let c := Clock r (h_noproc c) k (h_tod c) (phz c) (h_stats c) co in
  let* st := if phz c =? 0 then gatherstats c usermode basepri else Ok (h_stats c) in
  Ok (Clock r (h_noproc c) k (tick_tod (h_tod c)) (phz c) st co,
      if needsoft || prof then if basepri then SoftNow else SoftLater else SoftNone).

(** The end of [softclock], for a process trapped in user mode. *)
Definition softclock_user (r : running) (k : sched) (usermode : bool) : running * sched :=
  if usermode then
    let r := if nz (pr_scale r) then r <| p_oweupc := true |> else r in
    if nz (p_uid r) && (p_nice (r_prio r) =? NZERO) && (10 * 60 <? tv_sec (ru_utime r)) then
      let (pp, k) := setpri ((r_prio r) <| p_nice := NZERO + 4 |>) k in
      (r <| r_prio := pp <| p_pri := p_usrpri pp |> |>, k)
    else (r, k)
  else (r, k).

(** A sequence of ticks: the mode and the level at each. *)
Fixpoint ticks (c : clock) (l : list (bool * bool)) : outcome clock :=
  match l with [] => Ok c | (um, bp) :: l => let* r := hardclock c um bp in ticks r.1 l end.

(** ** What a tick does, field by field *)

Definition sent (s : signal) (l : list signal) : Z := Z.of_nat (length (filter (fun x => x = s) l)).
Lemma sent_app s l l' : sent s (l ++ l') = sent s l + sent s l'.
Proof. unfold sent. rewrite filter_app, length_app. lia. Qed.

Ltac sent_lia :=
  rewrite ?sent_app;
  repeat match goal with |- context [sent ?a [?b]] => let v := eval vm_compute in (sent a [b]) in change (sent a [b]) with v end; lia.

(** A timer, as [vtick] of KernTime.v. *)
Lemma vtick_eq itp : timerisset (it_value itp) = true ->
  vtick itp = let (r, e) := itimerdecr itp tick in (r, if e =? 0 then 1 else 0).
Proof. intros H. unfold vtick. by rewrite H. Qed.
Lemma vtick_off itp : timerisset (it_value itp) = false -> vtick itp = (itp, 0).
Proof. intros H. unfold vtick. by rewrite H. Qed.

Record mode_spec (r r' : running) (np um : bool) : Prop := {
  mode_utime : ru_utime r' = if um then BUMPTIME (ru_utime r) tick else ru_utime r;
  mode_stime : ru_stime r' = if um || np then ru_stime r else BUMPTIME (ru_stime r) tick;
  mode_virtual : u_virtual r' = if um then (vtick (u_virtual r)).1 else u_virtual r;
  mode_prof : u_prof_timer r' = u_prof_timer r;
  mode_sent : sent SIGVTALRM (p_sigs r') = sent SIGVTALRM (p_sigs r) + if um then (vtick (u_virtual r)).2 else 0;
  mode_sent_prof : sent SIGPROF (p_sigs r') = sent SIGPROF (p_sigs r)
}.

Lemma charge_mode_spec r np um : mode_spec r (charge_mode r np um).1 np um.
Proof.
  unfold charge_mode. destruct um; cbn [negb orb]; [|destruct np; split; cbn; lia || done].
  change (u_virtual (_ <| ru_utime := _ |>)) with (u_virtual r).
  destruct (timerisset (it_value (u_virtual r))) eqn:E.
  - split; rewrite ?(vtick_eq _ E); destruct (itimerdecr (u_virtual r) tick) as [i e]; destruct (e =? 0); cbn [fst snd]; try done.
    all: cbn -[sent]; sent_lia.
  - split; rewrite ?(vtick_off _ E); cbn; lia || done.
Qed.

(** The steps after it: the profiling timer is the only one they touch. *)
Record proc_spec (r r' : running) : Prop := {
  proc_utime : ru_utime r' = ru_utime r;
  proc_stime : ru_stime r' = ru_stime r;
  proc_virtual : u_virtual r' = u_virtual r;
  proc_prof : u_prof_timer r' = (vtick (u_prof_timer r)).1;
  proc_sent : sent SIGVTALRM (p_sigs r') = sent SIGVTALRM (p_sigs r);
  proc_sent_prof : sent SIGPROF (p_sigs r') = sent SIGPROF (p_sigs r) + (vtick (u_prof_timer r)).2
}.

Lemma charge_limit_same r : let r' := charge_limit r in
  (ru_utime r', ru_stime r', u_virtual r', u_prof_timer r') = (ru_utime r, ru_stime r, u_virtual r, u_prof_timer r)
  /\ sent SIGVTALRM (p_sigs r') = sent SIGVTALRM (p_sigs r) /\ sent SIGPROF (p_sigs r') = sent SIGPROF (p_sigs r).
Proof.
  unfold charge_limit. destruct (rlim_cur r <? _); [|done]. change (rlim_cur (psignal _ _)) with (rlim_cur r).
  change (rlim_max (psignal _ _)) with (rlim_max r).
  destruct (rlim_cur r <? rlim_max r); cbn -[sent]; split; try done; split; sent_lia.
Qed.

Lemma charge_memory_same r : let r' := charge_memory r in
  (ru_utime r', ru_stime r', u_virtual r', u_prof_timer r', p_sigs r') = (ru_utime r, ru_stime r, u_virtual r, u_prof_timer r, p_sigs r).
Proof. unfold charge_memory. cbv zeta. change (p_textp (_ <| ru_idrss := _ |>)) with (p_textp r). destruct (p_textp r); by destruct (_ <? _). Qed.

Lemma charge_cpu_same r k : let r' := (charge_cpu r k).1 in
  (ru_utime r', ru_stime r', u_virtual r', u_prof_timer r', p_sigs r') = (ru_utime r, ru_stime r, u_virtual r, u_prof_timer r, p_sigs r).
Proof. unfold charge_cpu. cbv zeta. destruct (if Z.land _ 3 =? 0 then _ else _) as [pp k']. done. Qed.

Lemma charge_proc_spec r k : proc_spec r (charge_cpu (charge_memory (charge_prof (charge_limit r))) k).1.
Proof.
  pose proof (charge_limit_same r) as ([= L1 L2 L3 L4] & L5 & L6).
  assert (H : proc_spec (charge_limit r) (charge_prof (charge_limit r))).
  { unfold charge_prof. destruct (timerisset (it_value (u_prof_timer (charge_limit r)))) eqn:E.
    - split; rewrite ?(vtick_eq _ E); destruct (itimerdecr _ tick) as [i e]; destruct (e =? 0); cbn [fst snd]; try done.
      all: cbn -[sent charge_limit]; sent_lia.
    - split; rewrite ?(vtick_off _ E); cbn [fst snd]; lia || done. }
  destruct H as [H1 H2 H3 H4 H5 H6]. rewrite L1, L2, L3, L4, L5, L6 in *.
  pose proof (charge_memory_same (charge_prof (charge_limit r))) as M. pose proof (charge_cpu_same (charge_memory (charge_prof (charge_limit r))) k) as C.
  revert M C. generalize (charge_cpu (charge_memory (charge_prof (charge_limit r))) k).1, (charge_memory (charge_prof (charge_limit r))).
  intros r1 r2 [= M1 M2 M3 M4 M5] [= C1 C2 C3 C4 C5]. split; congruence.
Qed.

Record tick_spec (c c' : clock) (um : bool) : Prop := {
  tick_noproc : h_noproc c' = h_noproc c;
  tick_time : h_tod c' = tick_tod (h_tod c);
  tick_co : h_co c' = Callouts (hardclock_calls (calltodo (h_co c))).1 (callfree (h_co c));
  tick_utime : ru_utime (h_run c') = if um then BUMPTIME (ru_utime (h_run c)) tick else ru_utime (h_run c);
  tick_stime : ru_stime (h_run c') = if um || h_noproc c then ru_stime (h_run c) else BUMPTIME (ru_stime (h_run c)) tick;
  tick_virtual : u_virtual (h_run c') = if um then (vtick (u_virtual (h_run c))).1 else u_virtual (h_run c);
  tick_prof : u_prof_timer (h_run c') = if h_noproc c then u_prof_timer (h_run c) else (vtick (u_prof_timer (h_run c))).1;
  tick_sent : sent SIGVTALRM (p_sigs (h_run c')) = sent SIGVTALRM (p_sigs (h_run c)) + if um then (vtick (u_virtual (h_run c))).2 else 0;
  tick_sent_prof : sent SIGPROF (p_sigs (h_run c')) = sent SIGPROF (p_sigs (h_run c)) + if h_noproc c then 0 else (vtick (u_prof_timer (h_run c))).2
}.

Lemma hardclock_spec c um bp c' s : hardclock c um bp = Ok (c', s) -> tick_spec c c' um.
Proof.
  unfold hardclock. destruct (hardclock_calls (calltodo (h_co c))) as [l ns] eqn:El.
  pose proof (charge_mode_spec (h_run c) (h_noproc c) um) as [M1 M2 M3 M4 M5 M6].
  destruct (charge_mode (h_run c) (h_noproc c) um) as [r prof]. cbn [fst] in *. destruct (h_noproc c) eqn:En.
  - intros E. apply obind_ok in E as (st & _ & [= <- _]). split; cbn [h_run h_tod h_co h_noproc]; first [done|by rewrite En|by rewrite El|rewrite ?En; congruence|rewrite ?En; lia].
  - pose proof (charge_proc_spec r (h_sched c)) as [P1 P2 P3 P4 P5 P6].
    destruct (charge_cpu (charge_memory (charge_prof (charge_limit r))) (h_sched c)) as [r' k].
    intros E. apply obind_ok in E as (st & _ & [= <- _]). cbn [fst] in *.
    split; cbn [h_run h_tod h_co h_noproc]; rewrite ?El, ?En; first [done|congruence|rewrite P5; lia|rewrite P6, M6, M4; lia].
Qed.

(** [hardclock] fails on no state whose tables have their sizes. *)
Definition tables_ok (c : clock) : Prop := length (cp_time (h_stats c)) = 4%nat /\ length (dk_time (h_stats c)) = 4%nat.

Lemma gather_drives_ok n : forall s st, 0 <= s -> s + Z.of_nat n <= 4 -> length (dk_time st) = 4%nat ->
  exists st', gather_drives n s st = Ok st' /\ cp_time st' = cp_time st /\ length (dk_time st') = 4%nat.
Proof.
  induction n as [|n IH]; intros s st Hs Hn Hl; [by eexists|]. cbn [gather_drives]. destruct (nz _); cbn [obind].
  - destruct (lookup_lt_is_Some_2 (dk_time st) (Z.to_nat s)) as [x Hx]; [lia|]. rewrite (aupd_ok _ _ x) by (lia || done). cbn [obind].
    destruct (IH (s + 1) (st <| dk_time := <[Z.to_nat s := s32 (x + 1)]> (dk_time st) |>)) as (st' & E & H1 & H2);
      [lia|lia|cbn; by rewrite length_insert|]. by exists st'.
  - apply IH; [lia|lia|done].
Qed.

Lemma gatherstats_ok c um bp : tables_ok c -> exists st, gatherstats c um bp = Ok st /\ length (cp_time st) = 4%nat /\ length (dk_time st) = 4%nat.
Proof.
  intros [H1 H2]. unfold gatherstats. set (cs := if um then _ else _).
  assert (0 <= cs < 4) by (unfold cs; destruct um; [destruct (NZERO <? p_nice (r_prio (h_run c)))|destruct (h_noproc c && bp)]; vm_compute; split; congruence).
  destruct (lookup_lt_is_Some_2 (cp_time (h_stats c)) (Z.to_nat cs)) as [x Hx]; [lia|]. rewrite (aupd_ok _ _ x) by (lia || done). cbn [obind].
  destruct (gather_drives_ok (Z.to_nat DK_NDRIVE) 0 ((h_stats c) <| cp_time := <[Z.to_nat cs := s32 (x + 1)]> (cp_time (h_stats c)) |>)) as (st & E & H3 & H4);
    [done|vm_compute; congruence|done|]. exists st. split; [done|]. split; [|done]. rewrite H3. cbn. by rewrite length_insert.
Qed.

Lemma hardclock_ok c um bp : tables_ok c -> exists c' s, hardclock c um bp = Ok (c', s) /\ tables_ok c'.
Proof.
  intros H. unfold hardclock. destruct (hardclock_calls (calltodo (h_co c))) as [l ns]. destruct (charge_mode (h_run c) (h_noproc c) um) as [r prof].
  destruct (if h_noproc c then _ else _) as [r' k]. cbn [phz].
  destruct (gatherstats_ok (Clock r' (h_noproc c) k (h_tod c) (phz c) (h_stats c) (Callouts l (callfree (h_co c)))) um bp H) as (st & E & H3).
  destruct (phz c =? 0); [rewrite E|]; cbn [obind]; eexists _, _; (split; [reflexivity|]); [exact H3|exact H].
Qed.

Lemma ticks_ok l : forall c, tables_ok c -> exists c', ticks c l = Ok c'.
Proof.
  induction l as [|[um bp] l IH]; intros c H; [by eexists|]. cbn [ticks]. destruct (hardclock_ok c um bp H) as (c1 & s & -> & H1). by apply IH.
Qed.

(** ** Times *)

(** A bump of a time is the addition of the microseconds, as far as 32 bits go. *)
Lemma bump_of x d : 0 <= d < 1000000 -> BUMPTIME (tv_of x) d = tv_of (x + d).
Proof.
  intros Hd. rewrite <- (tv_of_add x d Hd). unfold BUMPTIME. cbv zeta. change (tv_usec (_ <| tv_usec := ?u |>)) with u.
  rewrite s32_small; [done|]. change (tv_usec (tv_of x)) with (x mod 1000000). pose proof (Z.mod_pos_bound x 1000000). lia.
Qed.

(** What a tick takes from the correction it adds to the time, with the tick. *)
Lemma tick_tod_spec c x : t_time c = tv_of x -> 0 <= t_tickdelta c <= tick ->
  let c' := tick_tod c in let d := t_timedelta c - t_timedelta c' in
  t_time c' = tv_of (x + tick + d) /\ - tick <= d /\ t_tickdelta c' = t_tickdelta c.
Proof.
  destruct c as [t td d]. unfold tick_tod. cbn [t_time t_timedelta t_tickdelta]. change tick with 10000. intros -> Hd.
  destruct (Z.eqb_spec td 0); [|destruct (Z.ltb_spec td 0)]; cbn [t_time t_timedelta t_tickdelta]; rewrite bump_of by lia;
    (split; [f_equal; lia|]); (split; [lia|done]).
Qed.

(** ** Sequences of ticks *)

(** How many of them were in user mode. *)
Fixpoint user_ticks (l : list (bool * bool)) : nat :=
  match l with [] => O | (um, _) :: l => if um then S (user_ticks l) else user_ticks l end.

Record ticks_spec (c c' : clock) (n nu : nat) : Prop := {
  ts_noproc : h_noproc c' = h_noproc c;
  ts_tod : h_tod c' = Nat.iter n tick_tod (h_tod c);
  ts_virtual : u_virtual (h_run c') = (vticks nu (u_virtual (h_run c))).1;
  ts_prof : u_prof_timer (h_run c') = (vticks (if h_noproc c then O else n) (u_prof_timer (h_run c))).1;
  ts_sent : sent SIGVTALRM (p_sigs (h_run c')) = sent SIGVTALRM (p_sigs (h_run c)) + (vticks nu (u_virtual (h_run c))).2;
  ts_sent_prof : sent SIGPROF (p_sigs (h_run c')) = sent SIGPROF (p_sigs (h_run c)) + (vticks (if h_noproc c then O else n) (u_prof_timer (h_run c))).2;
  ts_utime : ru_utime (h_run c') = Nat.iter nu (fun t => BUMPTIME t tick) (ru_utime (h_run c));
  ts_stime : h_noproc c = false -> (nu <= n)%nat /\ ru_stime (h_run c') = Nat.iter (n - nu) (fun t => BUMPTIME t tick) (ru_stime (h_run c))
}.

Lemma ticks_run l : forall c c', ticks c l = Ok c' -> ticks_spec c c' (length l) (user_ticks l).
Proof.
  induction l as [|[um bp] l IH]; intros c c' E; cbn [ticks] in E.
  - injection E as <-. split; cbn; try lia || done; by destruct (h_noproc c); cbn; lia || done.
  - apply obind_ok in E as ([c1 s] & E1 & E2). apply hardclock_spec in E1 as [H1 H2 _ H4 H5 H6 H7 H8 H9].
    apply IH in E2 as [I1 I2 I3 I4 I5 I6 I7 I8]. cbn [fst length user_ticks] in *.
    split.
    + congruence.
    + rewrite I2, H2, Nat.iter_succ_r. done.
    + rewrite I3, H6. destruct um; [by rewrite (proj1 (vticks_S _ _))|done].
    + rewrite I4, H7, H1. destruct (h_noproc c); [done|]. by rewrite (proj1 (vticks_S _ _)).
    + rewrite I5, H8, H6. destruct um; [|lia]. rewrite (proj2 (vticks_S _ _)). lia.
    + rewrite I6, H9, H7, H1. destruct (h_noproc c); [cbn [vticks snd]; lia|]. rewrite (proj2 (vticks_S _ _)). lia.
    + rewrite I7, H4. destruct um; [|done]. by rewrite Nat.iter_succ_r.
    + intros Hn. rewrite H1 in I8. destruct (I8 Hn) as [I9 ->]. rewrite H5, Hn, orb_false_r. destruct um; (split; [lia|]).
      * done.
      * by rewrite Nat.sub_succ_l, Nat.iter_succ_r by done.
Qed.

Lemma bumps_spec n t : wf_tv t -> Nat.iter n (fun t => BUMPTIME t tick) t = tv_of (usecs t + Z.of_nat n * tick).
Proof.
  intros Ht. induction n as [|n IH]; [cbn; by rewrite Z.add_0_r, tv_of_usecs|]. rewrite Nat.iter_succ, IH, bump_of by (vm_compute; split; congruence).
  f_equal. lia.
Qed.

Lemma tods_spec n c : wf_tv (t_time c) -> 0 <= t_tickdelta c <= tick ->
  let c' := Nat.iter n tick_tod c in let e := Z.of_nat n * tick + (t_timedelta c - t_timedelta c') in
  t_time c' = tv_of (usecs (t_time c) + e) /\ 0 <= e /\ t_tickdelta c' = t_tickdelta c.
Proof.
  intros Ht Hd. induction n as [|n (IH1 & IH2 & IH3)]; [cbn; split; [rewrite Z.sub_diag, Z.add_0_r; symmetry; by apply tv_of_usecs|lia]|].
  cbv zeta. rewrite Nat.iter_succ.
  destruct (tick_tod_spec (Nat.iter n tick_tod c) _ IH1) as (H1 & H2 & H3); [by rewrite IH3|].
  split; [rewrite H1; f_equal; lia|]. split; [lia|congruence].
Qed.

(** The correction: its remainder stays, its size goes down until it is less than a step. *)
Lemma timedelta_spec n c : 0 < t_tickdelta c ->
  let x := t_timedelta (Nat.iter n tick_tod c) in
  x mod t_tickdelta c = t_timedelta c mod t_tickdelta c
  /\ Z.abs x <= Z.max (Z.abs (t_timedelta c) - Z.of_nat n * t_tickdelta c) (t_tickdelta c - 1)
  /\ t_tickdelta (Nat.iter n tick_tod c) = t_tickdelta c.
Proof.
  intros Hd. induction n as [|n (IH1 & IH2 & IH3)]; [cbn; split; [done|lia]|]. cbv zeta. rewrite Nat.iter_succ.
  revert IH1 IH2 IH3. generalize (Nat.iter n tick_tod c) as c1. intros [t x d] IH1 IH2 IH3. cbn [t_timedelta t_tickdelta] in *. subst d.
  unfold tick_tod. cbn [t_timedelta t_tickdelta t_time]. destruct (Z.eqb_spec x 0); [|destruct (Z.ltb_spec x 0)]; cbn [t_timedelta t_tickdelta].
  - split; [done|]. lia.
  - split; [rewrite <- IH1; rewrite <- (Z_mod_plus_full x 1 (t_tickdelta c)); f_equal; lia|]. lia.
  - split; [rewrite <- IH1; rewrite <- (Z_mod_plus_full x (-1) (t_tickdelta c)); f_equal; lia|]. lia.
Qed.

(** ** Claims *)

(** C20: the interval timers of a process that runs do not drift.  Take any sequence of clock
    ticks, at each the processor in user mode or not.  Nothing fails; the virtual timer,
    which counts the ticks in user mode, has sent a signal for each of the times its
    value, its value and one interval, and so on, that these ticks have reached, and what
    it holds is the rest to the next of them, to the microsecond; the profiling timer
    the same, with all ticks.  The user and system times have grown by their ticks, in
    seconds of 32 bits. *)
Theorem virtual_timers_no_drift c l :
  tables_ok c -> h_noproc c = false ->
  wf_tv (it_value (u_virtual (h_run c))) -> loadable (it_interval (u_virtual (h_run c))) ->
  wf_tv (it_value (u_prof_timer (h_run c))) -> loadable (it_interval (u_prof_timer (h_run c))) ->
  wf_tv (ru_utime (h_run c)) -> wf_tv (ru_stime (h_run c)) ->
  exists c', ticks c l = Ok c' /\
    let n := Z.of_nat (length l) in let nu := Z.of_nat (user_ticks l) in
    let rest (itp : itimerval) k m := let v := usecs (it_value itp) in let i := usecs (it_interval itp) in
      if (v =? 0) || (i =? 0) && (0 <? k) then 0 else v + k * i - m * tick in
    let ev (itp : itimerval) := expirations (usecs (it_value itp)) (usecs (it_interval itp)) in
    let r := h_run c in let r' := h_run c' in
    sent SIGVTALRM (p_sigs r') = sent SIGVTALRM (p_sigs r) + ev (u_virtual r) nu
    /\ usecs (it_value (u_virtual r')) = rest (u_virtual r) (ev (u_virtual r) nu) nu
    /\ sent SIGPROF (p_sigs r') = sent SIGPROF (p_sigs r) + ev (u_prof_timer r) n
    /\ usecs (it_value (u_prof_timer r')) = rest (u_prof_timer r) (ev (u_prof_timer r) n) n
    /\ ru_utime r' = tv_of (usecs (ru_utime r) + nu * tick)
    /\ ru_stime r' = tv_of (usecs (ru_stime r) + (n - nu) * tick).
Proof.
  intros Htab Hn Hv Hvi Hp Hpi Hu Hs. destruct (ticks_ok l c Htab) as [c' E]. exists c'. split; [done|].
  apply ticks_run in E as [_ _ E3 E4 E5 E6 E7 E8]. rewrite Hn in E4, E6. destruct (E8 Hn) as [Hle E9]. cbv zeta.
  pose proof (vticks_spec (u_virtual (h_run c)) (user_ticks l) Hv Hvi) as V1.
  pose proof (vticks_spec (u_prof_timer (h_run c)) (length l) Hp Hpi) as V2. cbv zeta in V1, V2.
  destruct (vticks (user_ticks l) _) as [r1 k1], (vticks (length l) _) as [r2 k2]. cbn [fst snd] in *.
  destruct V1 as (_ & _ & <- & V1), V2 as (_ & _ & <- & V2). rewrite E3, E4, E5, E6, E7, E9, V1, V2.
  rewrite (bumps_spec _ _ Hu), (bumps_spec _ _ Hs), Nat2Z.inj_sub by done. done.
Qed.

(** The time of day under [adjtime].  Whatever correction is under way, in any sequence of
    ticks the time of day has gone on by one tick each and by what is no longer to be
    corrected, in seconds of 32 bits; it never goes back, and nothing fails. *)
Theorem clock_conserves_time c l :
  tables_ok c -> wf_tv (t_time (h_tod c)) -> 0 <= t_tickdelta (h_tod c) <= tick ->
  exists c', ticks c l = Ok c' /\
    let e := Z.of_nat (length l) * tick + (t_timedelta (h_tod c) - t_timedelta (h_tod c')) in
    t_time (h_tod c') = tv_of (usecs (t_time (h_tod c)) + e) /\ 0 <= e.
Proof.
  intros Htab Ht Hd. destruct (ticks_ok l c Htab) as [c' E]. exists c'. split; [done|].
  apply ticks_run in E as [_ E _ _ _ _ _ _]. rewrite E. destruct (tods_spec (length l) (h_tod c) Ht Hd) as (H1 & H2 & _). done.
Qed.

(** The correction that [adjtime] takes from the time it is given, as 32 bits hold it. *)
Definition wanted (atv : timeval) : Z := s32 (s32 (tv_sec atv * 1000000) + tv_usec atv).

(** The steps that [adjtime] sets. *)
Definition steps (d : Z) : Prop := d = tickadj \/ d = 10 * tickadj.

Lemma adjtime_delta {M : Type} (UT : uops M timeval) (k : kern (M := M)) delta old atv :
  u_uid k = 0 -> copyin UT (umem k) delta = inl atv -> timedelta k = 0 \/ steps (tickdelta k) ->
  let k' := adjtime UT k delta old in
  tickdelta k' = (if timedelta k =? 0 then if bigadj <? wanted atv then 10 * tickadj else tickadj else tickdelta k)
  /\ steps (tickdelta k') /\ timedelta k' = Z.quot (wanted atv) tickadj * tickadj /\ time k' = time k.
Proof.
  intros Hu Hc Ht. unfold adjtime, suser. rewrite Hu. cbn [Z.eqb]. rewrite Hc. cbv zeta. change (timedelta (k <| u_error := 0 |>)) with (timedelta k).
  change (s32 (s32 (tv_sec atv * 1000000) + tv_usec atv)) with (wanted atv). set (d0 := if bigadj <? wanted atv then _ else _).
  set (d := if timedelta k =? 0 then d0 else tickdelta k). set (k1 := if timedelta k =? 0 then _ else _).
  assert (Hk1 : tickdelta k1 = d /\ time k1 = time k) by (unfold k1, d; by destruct (timedelta k =? 0)). destruct Hk1 as [-> Hk1].
  assert (Hd : steps d).
  { unfold d, d0, steps. destruct (Z.eqb_spec (timedelta k) 0); [destruct (bigadj <? wanted atv); auto|]. by destruct Ht. }
  assert (Hw : (if nz (Z.rem (wanted atv) d) then Z.quot (wanted atv) tickadj * tickadj else wanted atv) = Z.quot (wanted atv) tickadj * tickadj).
  { unfold nz. destruct (Z.eqb_spec (Z.rem (wanted atv) d) 0) as [E|]; [|done]. cbn [negb].
    assert (Z.rem (wanted atv) tickadj = 0) by (clear - E Hd; unfold steps in Hd; change (10 * tickadj) with 400 in Hd; change tickadj with 40 in *;
      destruct Hd as [->| ->]; [done|]; Z.to_euclidean_division_equations; lia).
    pose proof (Z.quot_rem (wanted atv) tickadj). change tickadj with 40 in *. lia. }
  rewrite Hw. assert (Hd' : tickdelta k1 = d) by (unfold k1, d; by destruct (timedelta k =? 0)).
  destruct (nz old); cbn; by rewrite Hd', Hk1.
Qed.

(** C21: what [adjtime] does, from the call to the end of the correction.  The correction it is
    given, which is taken as 32 bits hold it and rounded towards zero to a multiple of
    [tickadj], takes the place of the one under way.  When none was, a step is
    [tickadj], or ten of it for more than a second; when one was, the step stays what
    it was.  Once there have been ticks enough to apply it, a step each, the correction is
    applied in full, and the clock keeps time from then on, if it is a multiple of the
    step.  If it is not, which takes the step of ten [tickadj], then it is never done:
    for ever after the clock is short of it or ahead of it, by less than a step, and
    every tick is long or short. *)
Theorem adjtime_applied {M : Type} (UT : uops M timeval) (k : kern (M := M)) delta old atv c l :
  u_uid k = 0 -> copyin UT (umem k) delta = inl atv -> timedelta k = 0 \/ steps (tickdelta k) -> wf_tv (time k) ->
  let k' := adjtime UT k delta old in
  h_tod c = Tod (time k') (timedelta k') (tickdelta k') -> tables_ok c ->
  Z.abs (wanted atv) <= Z.of_nat (length l) * tickdelta k' ->
  tickdelta k' = (if timedelta k =? 0 then if bigadj <? wanted atv then 10 * tickadj else tickadj else tickdelta k)
  /\ exists c', ticks c l = Ok c' /\
    let amount := Z.quot (wanted atv) tickadj * tickadj in let left := t_timedelta (h_tod c') in
    t_time (h_tod c') = tv_of (usecs (time k) + Z.of_nat (length l) * tick + (amount - left))
    /\ if amount mod tickdelta k' =? 0 then left = 0 else tickdelta k' = 10 * tickadj /\ 0 < Z.abs left < tickdelta k'.
Proof.
  intros Hu Hc Ht Hw k' Hk Htab Hl. destruct (adjtime_delta UT k delta old atv Hu Hc Ht) as (D0 & D1 & D2 & D3). fold k' in D0, D1, D2, D3.
  split; [exact D0|]. clear D0. destruct (ticks_ok l c Htab) as [c' E]. exists c'. split; [done|].
  apply ticks_run in E as [_ E _ _ _ _ _ _]. rewrite E, Hk.
  assert (Hd : 0 < tickdelta k' <= tick) by (destruct D1 as [-> | ->]; vm_compute; split; congruence).
  destruct (tods_spec (length l) (Tod (time k') (timedelta k') (tickdelta k'))) as (T1 & _ & _); [cbn; congruence|cbn; lia|].
  destruct (timedelta_spec (length l) (Tod (time k') (timedelta k') (tickdelta k'))) as (T3 & T4 & _); [cbn; lia|].
  cbn [t_time t_timedelta t_tickdelta] in *. rewrite D2 in *. rewrite D3 in *.
  assert (Habs : Z.abs (Z.quot (wanted atv) tickadj * tickadj) <= Z.abs (wanted atv)).
  { change tickadj with 40. generalize (wanted atv). clear. intros w. Z.to_euclidean_division_equations; lia. }
  revert T1 T3 T4. generalize (Nat.iter (length l) tick_tod (Tod (time k) (Z.quot (wanted atv) tickadj * tickadj) (tickdelta k'))).
  intros [t x d] T1 T3 T4. cbn [t_time t_timedelta t_tickdelta] in *. cbv zeta. split; [rewrite T1; f_equal; lia|].
  rewrite <- T3. destruct (Z.eqb_spec (x mod tickdelta k') 0) as [E0|E0].
  - apply Z.mod_divide in E0 as [q ->]; [|lia]. assert (q = 0) by nia. lia.
  - split.
    + destruct D1 as [D1|D1]; [|done]. exfalso. apply E0. rewrite T3, D1. by apply Z.mod_mul.
    + assert (x <> 0) by (intros ->; by rewrite Zmod_0_l in E0). lia.
Qed.

(** A process that runs, and a clock. *)
Module HcSample.
Definition run0 : running :=
  Running (Timeval 0 0) (Timeval 0 0) 0 0 0 (Itimerval (Timeval 0 25000) (Timeval 0 10000)) (Itimerval timerclear (Timeval 0 15000))
    100 200 0 (Prio 0 0 60 60 50 100) (Some 8) 0 5 false [].
Definition clock0 (t : tod) : clock :=
  Clock run0 false (Sched 50 0 100 10) t 0 (Stats [0; 0; 0; 0] [0; 0; 0; 0] 1) (Callouts [] 4).
Definition umode : bool * bool := (true, true).
Definition smode : bool * bool := (false, false).

Lemma virtual_timers_no_drift_witness : let c := clock0 (Tod (Timeval 9 0) 0 0) in
  let l := [umode; smode; umode; umode; umode] in exists c', ticks c l = Ok c' /\
    let n := Z.of_nat (length l) in let nu := Z.of_nat (user_ticks l) in
    let rest (itp : itimerval) k m := let v := usecs (it_value itp) in let i := usecs (it_interval itp) in
      if (v =? 0) || (i =? 0) && (0 <? k) then 0 else v + k * i - m * tick in
    let ev (itp : itimerval) := expirations (usecs (it_value itp)) (usecs (it_interval itp)) in
    let r := h_run c in let r' := h_run c' in
    sent SIGVTALRM (p_sigs r') = sent SIGVTALRM (p_sigs r) + ev (u_virtual r) nu
    /\ usecs (it_value (u_virtual r')) = rest (u_virtual r) (ev (u_virtual r) nu) nu
    /\ sent SIGPROF (p_sigs r') = sent SIGPROF (p_sigs r) + ev (u_prof_timer r) n
    /\ usecs (it_value (u_prof_timer r')) = rest (u_prof_timer r) (ev (u_prof_timer r) n) n
    /\ ru_utime r' = tv_of (usecs (ru_utime r) + nu * tick)
    /\ ru_stime r' = tv_of (usecs (ru_stime r) + (n - nu) * tick).
Proof.
  apply (virtual_timers_no_drift (clock0 (Tod (Timeval 9 0) 0 0)) [umode; smode; umode; umode; umode]);
    first [reflexivity|by split|by vm_compute; repeat split; discriminate|idtac].
  - split; [by vm_compute; repeat split; discriminate|right; by vm_compute].
  - split; [by vm_compute; repeat split; discriminate|left; by vm_compute].
Defined.

Lemma clock_conserves_time_witness : exists c', ticks (clock0 (Tod (Timeval 9 995000) (-80) 40)) [umode; smode] = Ok c'
    /\ let e := 2 * tick + (-80 - t_timedelta (h_tod c')) in t_time (h_tod c') = tv_of (9995000 + e) /\ 0 <= e.
Proof.
  apply (clock_conserves_time (clock0 (Tod (Timeval 9 995000) (-80) 40)) [umode; smode]);
    [by split|by vm_compute; repeat split; discriminate|by vm_compute; split; discriminate].
Defined.

(** A correction of 120 us, given while one is under way in steps of 400 us: it is never done. *)
Definition mem_tv : uops timeval timeval := Uops _ _ (fun m _ => inl m) (fun _ v _ => (v, 0)).
Definition kern0 : kern (M := timeval) :=
  Kern (Timeval 500 0) timerclear (0, 0) 400 800400 (Callouts [] 5) 0 0 7 (Itimerval timerclear timerclear) [] (Timeval 0 120).

Lemma adjtime_applied_witness : 400 = 10 * tickadj /\ exists c',
  ticks (clock0 (Tod (Timeval 500 0) 120 400)) [umode; smode; umode] = Ok c'
  /\ t_time (h_tod c') = tv_of (500000000 + 3 * tick + (120 - t_timedelta (h_tod c')))
  /\ 0 < Z.abs (t_timedelta (h_tod c')) < 400.
Proof.
  destruct (adjtime_applied mem_tv kern0 4096 0 (Timeval 0 120) (clock0 (Tod (Timeval 500 0) 120 400)) [umode; smode; umode])
    as (D & c' & E & H); [reflexivity|reflexivity|right; right; reflexivity|by vm_compute; repeat split; discriminate|reflexivity|by split|by vm_compute; discriminate|].
  split; [reflexivity|]. exists c'. split; [exact E|]. exact (conj (proj1 H) (proj2 (proj2 H))).
Defined.
End HcSample.
